(* ===== verification/_CoqProject ===== *)
-Q . S2P
Prelude.v
Float64.v
GoRuntime.v
Json.v
Api.v
Clients.v
Manifest.v
Framework.v
Indexer.v
Cache.v
Plugins.v
Shares.v
Spread.v
SpreadScale.v
SpreadSpec.v
Waterfill.v
Queue.v
Prefilter.v
Scheduler.v
Placements.v
SchedulerSpec.v
EventHandler.v
Sharding.v
ReplicaCalculator.v
Rollout.v
StatusController.v
AppController.v
ClientManager.v
GoStrings.v
StatusWatch.v
ClusterController.v
Agent.v
EngineTypes.v
Codec.v
EngineAdapter.v
Wp.v
Store.v
StoreLogic.v
PortalStore.v
Gateway.v
GatewayMachine.v
GatewayInvariants.v
GatewaySpec.v
GatewayWorker.v
GatewayProgress.v
GatewaySample.v
Errors.v
Service.v
Org.v
OrgLogic.v
Modules.v
ModuleTree.v
ModulePaths.v
ModuleForest.v
ModuleSpec.v
Accounts.v
Projects.v
OrgSpec.v
AccountsSpec.v
OrgSample.v
Http.v
HttpSpec.v
HttpScope.v
HttpWrites.v
HttpSample.v
HttpGateway.v
Migration.v
Addons.v
HelmAddons.v
HelmAddonsSpec.v
AddonSample.v
Registry.v
DirectServices.v
Tunnel.v
AgentTunnel.v
Workspace.v
Routes.v
Kumctl.v
KumctlSpec.v
Middleware.v
