(* ===== verification/Prelude.v ===== *)
(** * Kumquat: a verification development

    Kumquat manages applications on a fleet of Kubernetes clusters.  An
    [Application] holds a workload template, a number of replicas, and placement
    rules; the engine's manager (src/engine) chooses clusters for it, applies the
    workload there, collects its status and rolls new versions out; an agent on each
    edge cluster registers it and reports for it.  The portal (src/apiserver) is what
    people use: it knows users, roles, modules and projects, takes requests for
    workspaces and applications, and brings them to the engine; kumctl (src/kumctl) is its
    command line.  This library models, translated from the Go source, of the engine the
    scheduler, the controllers of applications, clusters, workspaces and addons with the
    three addons, the status collection and the rollout coordination, the aggregated API
    and the tunnel, and the agent; of the portal the resource gateway, the services of
    the organisation, the HTTP routes with their middleware, and the migration of the
    schema; and kumctl; and proves what they promise.

    ** The parts and how they interact

    - The event handlers (scheduler/event_handler.go) watch Applications and
      ManagedClusters.  They file applications that need scheduling in the queue
      and keep the cache of clusters up to date.
    - The queue (scheduler/queue) maps keys of a client-go workqueue to
      applications.  The cache (scheduler/cache) holds the clusters, the resources
      promised to applications just placed, and an index of the cluster labels.
    - The scheduling cycle (scheduler/scheduler.go, [scheduleOne]) pops an
      application, takes a snapshot of the cache, pre-filters the clusters with the
      index, runs the filter and score plugins through the framework
      (scheduler/framework, scheduler/plugins), selects a placement with one of
      three strategies, writes it to the API server, and assumes it in the cache.
    - The application controller (application/controller.go) builds the workload for
      each cluster of the placement from the template (with util/labels and
      application/overrides), applies it there, removes it from clusters that are no
      longer in the placement, and writes the status; a finalizer makes it clean up
      before an application goes.
    - The client manager (cluster/client_manager.go) holds a running accessor for each
      cluster, reached directly or through a tunnel, with the credentials of a Secret.
      The cluster controller (cluster/controller.go) admits clusters, watches their
      heartbeats and turns the credentials an agent publishes into that Secret.  The
      agent (internal/agent/cluster/agent.go) registers its cluster, publishes its
      service account's credentials, and sends heartbeats with resource summaries.
    - The status controller (application/status_controller.go) of each manager
      watches and reads the workloads on the clusters of its shard
      (sharding/sharding.go), through the accessors of the client manager, and merges
      what it saw into the application's status.
    - The workspace controller (workspace/controller.go) brings the namespace, quota
      and limits of a workspace to the clusters it selects.  The addon controllers
      (manager/addon, agent/addon) give every enabled addon of a cluster a turn on the hub
      and a turn on the cluster, and write the states; the addons (internal/addon)
      install charts through pkg/helm and hand on, through the cluster object, what the
      other side needs.
    - The aggregated API (apiserver/registry/cluster/storage.go) shows the clusters in
      another version.  An agent opens a tunnel (apiserver/handler/handler.go) with the
      bootstrap token of its cluster; the proxy behind it, and the connections of the
      client manager, reach the cluster through the tunnel.
    - The rollout coordinator (application/rollout_coordinator.go) distributes the
      canaries over the clusters (replica_calculator.go), builds a Rollout object
      for each (rollout_builder.go), and reads its progress back
      (rollout_status.go).
    - The resource gateway of the portal (apiserver/pkg/service/resource_gateway.go)
      keeps a record for each workspace, application and cluster, with the desired state
      of the portal and the observed state of the engine.  A request writes the record,
      an operation and an event of the outbox in one transaction; a worker claims the
      events, projects the records to objects of the engine (engine_adapter.go) and
      writes the outcome back; a loop discovers, observes and repairs.
    - The services of the organisation (apiserver/pkg/service/module.go, project.go,
      user.go, role.go, auth.go, jwt.go, over pkg/repository and pkg/model) keep a tree of
      modules, the projects and users that refer to it, and the roles with their
      permissions.  The HTTP routes (cmd/server/main.go, pkg/handler, pkg/middleware)
      authenticate a token, look up what its user may do now, and call the services;
      the module of a user bounds what the resource gateway and the routes show.  The
      routes of the gateway (handler/resource_gateway.go) and the older handlers that call
      the engine themselves (handler/application.go, workspace.go, cluster.go) are apart.
      The migration (pkg/migration) brings the tables of earlier versions up to date
      before the server starts.
    - kumctl (src/kumctl) turns arguments into one request to the portal's API and, where
      asked to, polls the operation it has started.

    ** The files

    - [Prelude]: machine integers with their wrap-around, results and panics, sums
      over lists, maps built by loops.  [GoRuntime]: what Go leaves open (the order
      of a [range] over a map, the order of equal elements after [sort.Slice], the
      conversion of an out-of-range float) as a class, so that a theorem holds for
      every choice of the runtime.  [Float64]: IEEE 754 binary64 with its rounding.
      [Json]: unstructured objects.
    - [Api]: the structs of engine/pkg/apis, and the class [Kubernetes] of the
      Kubernetes functions the code calls, with their documented behaviour in
      [KubernetesLaws]; a concrete instance serves the examples and witnesses.
    - [Clients]: the calls to the API server of the hub and to the clusters as classes,
      with what the code relies on as laws, and the [world] made of both.
    - [Manifest]: labels.go, overrides.go, and the functions of
      application/controller.go that build the object for a cluster.
      [AppController]: the rest of that file.
    - [ClientManager], [ClusterController], [Agent]: the files of these names;
      [GoStrings]: functions of strings, and encoding/base64.
    - [Workspace]: workspace/controller.go.  [Addons]: the registry of addons and the two
      controllers; [HelmAddons]: the three addons and the helm client, over the state
      [addon_world]; [HelmAddonsSpec], [AddonSample]: theorems, and runs on a concrete hub.
    - [Registry]: registry/cluster/storage.go.  [Tunnel]: handler.go and the paths that
      apiserver.go serves without its filters; [AgentTunnel]: the agent's end, and what
      the processes of the engine start.
    - [Framework]: framework/runtime.go, config.go, interface.go.  [BoundedPlugin]
      is what a score plugin promises.  [Plugins]: a Module for each plugin.
    - [Indexer], [Cache]: cache/interface.go and cache/cache.go.  [LabelIndex] is
      what the index promises to the pre-filter.
    - [Queue]: queue/queue.go.  Module [SchedulingQueue] has the operations, Module
      [QueueRuns] the interleavings of the event handlers with the scheduler thread
      as a step relation.
    - [Spread], [SpreadScale], [SpreadSpec], [Shares]: the Spread strategy, its two
      passes, its contract, and the rounding analysis under it.  [Waterfill]: the
      strategy for StatefulSets.
    - [Prefilter], [Scheduler], [Placements], [SchedulerSpec]: the rest of
      scheduler.go and the theorems on a whole cycle.
    - [EventHandler]: the reconcilers, and the step relation [system_step] of the
      scheduler as a whole.
    - [Sharding], [StatusController], [StatusWatch]: the division of the clusters, the
      status, and the watches that keep it current.
    - [EngineTypes], [Codec], [EngineAdapter]: the objects the portal exchanges with the
      engine, JSON as it is stored, and the translation in both directions.
    - [Wp], [Store], [StoreLogic]: preconditions of actions; the database of the portal as
      tables of rows with statements and transactions that may fail, and the rules for
      them.  They serve both parts of the portal.
    - [PortalStore], [Gateway]: the tables and the whole of resource_gateway.go.
      [GatewayMachine]: the abstract machine on the tables; [GatewayInvariants],
      [GatewaySpec]: its invariants and the refinement; [GatewayWorker],
      [GatewayProgress]: requests, views and the progress of the worker;
      [GatewaySample]: a concrete run, for the witnesses.
    - [Errors], [Service]: pkg/errors and pkg/utils, and the monad of the services.
      [Org], [OrgLogic]: the rows of pkg/model with soft deletion, and the rules of their
      queries, for every table through the class [Model].
    - [Modules]: service/module.go.  [ModuleTree], [ModulePaths], [ModuleForest]: the tree,
      its paths and the trees that are shown; [ModuleSpec]: what the operations do.
    - [Accounts], [Projects]: the other services.  [OrgSpec]: the organisation as a whole;
      [AccountsSpec]: permissions, administrators, registration; [OrgSample]:
      a concrete run, and runs that break what single requests keep.
    - [Http]: handlers, middleware and routes.  [HttpSpec]: rules for them; [HttpScope],
      [HttpWrites]: who sees and who changes what; [HttpSample]: a concrete run;
      [HttpGateway]: the routes of the resource gateway, from token to answer.
    - [Middleware]: CORS, rate limiting and recovery.  [Migration]: migration.go, over the
      tables of [Org] and [PortalStore].  [DirectServices]: the handlers and services that
      call the engine.  [Routes]: the table of the routes and the configuration of the
      server.  [Kumctl], [KumctlSpec]: the command line, and its agreement with [Routes].
    - [ReplicaCalculator], [Rollout]: exactness of binary64 quotients of integers, the
      canary distribution, and the rollout objects.

    Operations keep the names of the source.  A method that changes its receiver
    returns the new value; an [error] is the left side of [res] or an [option]
    string; a panic is a value of [outcome].  Code that calls the hub or the clusters is in the
    monad [action] of a state, an error and a panic; what it calls is a method of a
    class, so that the theorems hold for every hub, fleet and network.  Locks have no counterpart: a method of
    the cache, of the index or of the queue holds its lock for its whole body, so
    that it is one step.  [Pop] is the exception (it takes an item from the
    workqueue and only then the lock); [QueueRuns.step] has its parts as separate
    steps.  [system_step] interleaves whole reconciliations and whole cycles; events
    that come in the middle of a cycle are covered for the queue and for the cache
    separately, by [QueueRuns.step] and [cache_step], which constrain the order of
    the operations of other threads in no way.

    ** What the theorems show

    - Safety of the running scheduler ([system_safe], [scheduleOne_refines_steps],
      [cycle_requeues_or_forgets], [waiting_applications_pending],
      [cache_accounting], [forget_undoes_assume]): nothing that waits is lost, and
      the resources promised are exactly those of the assumed applications.
    - Placement ([placement_only_feasible], [single_cluster_places_best],
      [spread_cycle_places_all], the [spread_] and [waterfill_] theorems): replicas
      go to feasible clusters, all of them and no more, floating point
      notwithstanding; growing takes nothing away, shrinking adds nothing, and a
      StatefulSet's pods never move.
    - Decisions ([prefilter_preserves_feasibility], [affinity_filter_spec],
      [taint_filter_spec], [CalculateMaxReplicas_spec] and the other plugin
      theorems, [RunScorePlugins_bounded]): each filter decides its condition, each
      score keeps to its range, and the index is a pure optimisation.
    - Rollouts and status ([proportional_total], [global_canary_exact],
      [equal_distribution], [progress_exact], [shards_report_all]): the canaries add
      up, the binary64 arithmetic gives the exact integers, and the shards together
      report each cluster once.
    - Workloads ([sent_workload_is_selected], [mergeEnv_spec],
      [ApplyOverrides_first_container]): what is sent to a cluster carries the stable
      identity of the application and is selected by its own selector.
    - Clean-up and status ([reconcileDelete_releases_when_clean],
      [finalizer_before_deployment], [removed_cluster_is_cleaned],
      [update_status_spec]): an application goes only when nothing of it is left where
      it can be reached, and its status is what the clusters report.
    - Clusters ([no_accessor_is_leaked], [handleEdgeCredentials_applies],
      [credentials_retry_terminates], [edge_heartbeat_spec],
      [service_account_reaches_manager], [publishing_settles],
      [collectResourceSummary_sums]): credentials arrive as they were published, once,
      and no connection outlives its entry.
    - Tunnels ([tunnel_names_its_cluster], [one_cluster_per_token_id],
      [proxy_finds_the_tunnel], [hub_is_verified], [agents_token_opens_its_tunnel],
      [tunnel_is_opened_again], [heartbeats_go_on]): a tunnel has the name of the cluster whose
      token opened it, an agent with this token gets it, again and again, and requests
      find it.
    - Watches ([watched_workloads_are_live], [workload_events_wake_their_application],
      [round_watches_its_shard]): what is recorded as watched is, until a client is removed.
    - Workspaces and addons ([workspace_reaches_its_clusters], [addon_rounds_report],
      [broker_reaches_agents], [charts_are_installed_on_change], [custom_values_win],
      [waiting_agents_are_pending]): a round ends and reports what became of each addon,
      and what the manager's side prepares reaches the agents.
    - Aggregated API ([reads_translate], [connection_targets_the_cluster],
      [update_drops_the_addons]): what the other version shows, keeps and loses.
    - Requests of the portal ([operations_follow_their_events], [synced_means_applied],
      [active_identities_are_unique], [repeated_request_changes_nothing],
      [requests_stay_in_scope], [rounds_use_up_attempts], [portal_refines_machine]): every
      request ends as an operation that follows its event, whatever fails and however
      workers and requests interleave, and the worker settles every event.
    - Translation to the engine ([applicationDesired_complete], [views_hide_values],
      [applicationDesired_has_no_values], [validateDesired_accepts_references]): what is
      projected is read back without loss, and no value of a variable is shown.
    - Organisation ([requests_keep_the_organisation], [modules_stay_a_tree],
      [deletion_removes_the_subtree], [scoped_list_is_the_subtree], [denial_wins],
      [deletion_spares_the_last_admin], [registered_user_logs_in]): requests keep the tree,
      the references and the hashes, and do what they say.
    - Access ([only_admins_write], [nobody_sees_beyond_the_scope]): through the routes only
      administrators of now write, and everyone else sees the own subtree only; the same
      for the gateway's routes ([gateway_requests_stay_in_scope]).
    - The rest of the portal ([migration_completes], [migration_keeps_what_is_there],
      [migrations_are_idempotent], [requests_make_one_call], [patches_change_one_field],
      [loaded_config]): old tables end with identities and lose nothing, a direct request is one call of
      the engine, and no server runs without a secret.
    - kumctl ([requests_are_served_and_keyed], [flags_may_stand_anywhere]): it sends only
      what the portal serves, and every mutation with a key.
    - Defects the code has, as theorems: [failed_delete_is_never_retried],
      [labels_selector_always_drifts], [deletion_races_with_creation],
      [deletions_race_for_the_last_admin], [updates_race_for_the_path],
      [last_admin_can_be_demoted], [deleted_name_stays_taken],
      [hash_shaped_password_is_stored], [demoted_admin_keeps_reading],
      [last_admin_is_not_found], [every_cluster_gets_all_replicas],
      [paused_rollout_removes_workloads], [cronjob_overrides_are_lost],
      [deletion_leaves_the_rest], [missing_secret_orphans_workload], [modes_disagree],
      [offline_cluster_ignores_heartbeats], [rejected_cluster_stays_rejected],
      [existing_cluster_keeps_its_state], [spread_scale_to_zero_requeues],
      [edited_application_is_stale], [recreated_application_is_dropped],
      [abtest_has_no_strategy], [status_reconcile_erases_rollout],
      [last_cluster_can_go_negative], [removed_client_is_never_watched_again],
      [unreadable_token_ends_the_tunnel], [gauge_shows_tunnels_that_ended],
      [anyone_is_proxied_with_the_managers_token], [translation_loses_the_addons],
      [sent_version_is_ignored], [agents_install_every_round],
      [manager_undoes_the_agents_report], [edits_are_undone_by_publishing],
      [clusters_take_turns_installing], [busy_release_is_replaced],
      [without_fallback_members_act_as_administrators], [scale_to_zero_is_refused],
      [first_request_takes_no_token], [wait_fails_after_synchronous_changes].

    ** Bounds

    Nearly every loop of the modelled code is over a list or a map, or counts to a known
    bound.  The recursions over the tree of modules have fuel: [descendantModuleIDs],
    [rewriteChildPaths] and [deleteChildrenTx] as many rounds as a tree has levels, and
    [buildTree] as many as there are modules; out of fuel the first three panic, and the
    theorems, which exclude panics, show that the fuel suffices for every tree.  An [int32] or [int64] operation wraps; the
    theorems state the ranges in which no wrap-around occurs.  [spread_ok] allows any
    non-negative [int32] number of replicas, with scores in [0, 100] (which
    [RunScorePlugins_bounded] gives) and at most 256 clusters scored or in use:
    under these the accumulated rounding error of the shares stays below one
    replica.  [RetryOnConflict] is a parameter; its law bounds it by the five attempts
    of [retry.DefaultRetry].  Loops that run until they are told to stop are followed for any
    number of rounds: [StartTunnel] for its first [rounds], [StartHeartbeat] along the
    list of what wakes it, the polls of kumctl's [Wait] up to a number that is
    given; the theorems hold for every such number.  [merge_patch] follows documents to a
    depth of three, that of the patches the code sends.  [proportional_total] asks for at most 2^26 replicas in all, so that
    the products of the calculator are exact in 53 bits.

    ** What is not modelled

    Logging, metrics and tracing have no counterpart, except the gauge and the counter of
    the tunnel; they decide nothing.  The client-go workqueue, the API server, the
    clusters, helm and the Kubernetes library functions are parameters ([Workqueue],
    [ApiClient], [ClusterClients], [AddonClients], [Kubernetes]) with documented laws
    only.  The registration of watches with the library is left out; their predicates
    ([CreateFunc], [UpdateFunc], [DeleteFunc]) and what they map events to are not.

    In the portal a statement and a transaction are one step each, which may fail; gorm's
    hooks are called as its documentation says.  The discovery of one object is one step.
    The mutex and the ticker of the worker have no counterpart, and revisions stay below
    2^64.  bcrypt, the signing of tokens and the LIKE of the database are parameters
    ([Bcrypt], [Jwt], [SqlLike]).

    Generated code (deep copies, OpenAPI tables), the registration of types, the
    construction of clients and servers out of library options, the flags of the processes, the
    bytes that go through a tunnel and the databases that tests start have nothing of
    their own to prove.  The helpers that the packages of the addons repeat word for word are defined
    once.  With this every part of the program that decides something is modelled. *)

From stdpp Require Export base gmap strings pretty list sorting fin_maps.
From Stdlib Require Export ZArith Lia.

#[global] Open Scope Z_scope.

(** stdpp's solvers clear hypotheses more than once. *)
#[export] Set Warnings "-clear-no-such-hyp".

(** ** Machine integers

    Go's [int32], [int64] and [int] (64 bits on every platform the manager is
    built for) are signed two's-complement integers.  A value is a [Z]; an
    operation computes in [Z] and is brought back into range by [wrap]. *)

Definition wrap (w z : Z) : Z := (z + 2 ^ (w - 1)) mod 2 ^ w - 2 ^ (w - 1).
Abbreviation i32 := (wrap 32).
Abbreviation i64 := (wrap 64).

Definition in_i32 (z : Z) : Prop := - 2 ^ 31 <= z < 2 ^ 31.
Definition in_i64 (z : Z) : Prop := - 2 ^ 63 <= z < 2 ^ 63.
Definition max_int32 : Z := 2147483647.
Definition max_int64 : Z := 9223372036854775807.

Lemma wrap_id w z : 0 < w -> - 2 ^ (w - 1) <= z < 2 ^ (w - 1) -> wrap w z = z.
Proof.
  intros Hw Hz. unfold wrap.
  assert (2 ^ w = 2 * 2 ^ (w - 1)) as Hp.
  { rewrite <- Z.pow_succ_r by lia. f_equal. lia. }
  rewrite Z.mod_small; lia.
Qed.

Lemma i32_id z : in_i32 z -> i32 z = z.
Proof. intros [? ?]. apply wrap_id; lia. Qed.

Lemma i64_id z : in_i64 z -> i64 z = z.
Proof. intros [? ?]. apply wrap_id; lia. Qed.

Lemma wrap_range w z : 0 < w -> - 2 ^ (w - 1) <= wrap w z < 2 ^ (w - 1).
Proof.
  intros Hw. unfold wrap.
  assert (2 ^ w = 2 * 2 ^ (w - 1)) as Hp.
  { rewrite <- Z.pow_succ_r by lia. f_equal. lia. }
  assert (0 < 2 ^ (w - 1)) by (apply Z.pow_pos_nonneg; lia).
  pose proof (Z.mod_pos_bound (z + 2 ^ (w - 1)) (2 ^ w)). lia.
Qed.

(** Closes side conditions on machine-integer ranges. *)
Ltac int_range :=
  unfold in_i32, in_i64, max_int32, max_int64 in *;
  change (2 ^ 31) with 2147483648 in *;
  change (2 ^ 63) with 9223372036854775808 in *; lia.

(** Removes every [i32]/[i64] whose argument is provably in range. *)
Ltac unwrap_ints :=
  repeat match goal with
  | |- context [wrap 32 ?z] => rewrite (i32_id z) by int_range
  | |- context [wrap 64 ?z] => rewrite (i64_id z) by int_range
  | H : context [wrap 32 ?z] |- _ => rewrite (i32_id z) in H by int_range
  | H : context [wrap 64 ?z] |- _ => rewrite (i64_id z) in H by int_range
  end.

(** ** Results

    [res] is a Go pair [(value, error)] whose error is tested first;
    [outcome] adds the run-time panics (index out of range) of statements
    that cannot return an error. *)

Inductive res (A : Type) : Type :=
| Ok (a : A)
| Err (msg : string).
Arguments Ok {A} a.
Arguments Err {A} msg.

Inductive outcome (A : Type) : Type :=
| Ret (a : A)
| Panic.
Arguments Ret {A} a.
Arguments Panic {A}.

#[export] Instance outcome_ret : MRet outcome := @Ret.
#[export] Instance outcome_bind : MBind outcome := fun _ _ f m =>
  match m with Ret a => f a | Panic => Panic end.

#[export] Instance res_ret : MRet res := @Ok.
#[export] Instance res_bind : MBind res := fun _ _ f m =>
  match m with Ok a => f a | Err e => Err e end.

Lemma res_bind_ok {A B} (m : res A) (f : A -> res B) b :
  m ≫= f = Ok b <-> exists a, m = Ok a /\ f a = Ok b.
Proof. destruct m as [a|e]; simpl; (split; [|intros (? & ? & ?); by simplify_eq]); eauto; done. Qed.

Definition res_ok {A} (r : res A) : bool :=
  match r with Ok _ => true | Err _ => false end.

(** The value of a result known to be one. *)
Definition unwrap {A} (d : A) (r : res A) : A := match r with Ok a => a | Err _ => d end.

Lemma unwrap_ok {A} (d : A) (r : res A) : res_ok r = true -> r = Ok (unwrap d r).
Proof. by destruct r. Qed.

#[export] Instance res_eq_dec {A} `{EqDecision A} : EqDecision (res A).
Proof. solve_decision. Defined.
#[export] Instance outcome_eq_dec {A} `{EqDecision A} : EqDecision (outcome A).
Proof. solve_decision. Defined.

(** ** Actions

    A Go function that works on a state [W] shared with others, may return an error
    and may panic.  An error ends the sequence with the state reached so far. *)

Definition action (W A : Type) : Type := W -> outcome (W * res A).

#[export] Instance action_ret {W} : MRet (action W) := fun _ a w => Ret (w, Ok a).
#[export] Instance action_bind {W} : MBind (action W) := fun _ _ f m w =>
  match m w with
  | Ret (w', Ok a) => f a w'
  | Ret (w', Err e) => Ret (w', Err e)
  | Panic => Panic
  end.

Definition fail {W A} (e : string) : action W A := fun w => Ret (w, Err e).
Definition panic {W A} : action W A := fun _ => Panic.
Definition of_res {W A} (r : res A) : action W A := fun w => Ret (w, r).
Definition of_outcome {W A} (r : outcome (res A)) : action W A := fun w =>
  match r with Ret x => Ret (w, x) | Panic => Panic end.
(** A call whose result is looked at, and one whose error is returned. *)
Definition call {W A} (f : W -> W * A) : action W A := fun w => let '(w', a) := f w in Ret (w', Ok a).
Definition returns {W A} (f : W -> W * res A) : action W A := fun w => Ret (f w).
Definition check {W} (f : W -> W * option string) : action W () := fun w =>
  let '(w', e) := f w in Ret (w', match e with Some e => Err e | None => Ok tt end).
(** The same with the text of the error changed, and with the error dropped. *)
Definition wrap_error {W A} (prefix : string) (m : action W A) : action W A := fun w =>
  match m w with Ret (w', Err e) => Ret (w', Err (prefix +:+ e)) | r => r end.
Definition attempt {W A} (m : action W A) : action W (res A) := fun w =>
  match m w with Ret (w', r) => Ret (w', Ok r) | Panic => Panic end.

(** The first action of a sequence, once its result is known. *)
Lemma action_bind_eq {W A B} (m : action W A) (f : A -> action W B) w w' a :
  m w = Ret (w', Ok a) -> (m ≫= f) w = f a w'.
Proof. unfold mbind, action_bind. by intros ->. Qed.

Lemma action_bind_ok {W A B} (m : action W A) (f : A -> action W B) w w' b :
  (m ≫= f) w = Ret (w', Ok b) <-> exists w1 a, m w = Ret (w1, Ok a) /\ f a w1 = Ret (w', Ok b).
Proof.
  unfold mbind, action_bind. destruct (m w) as [[w1 [a|e]]|]; (split; [|intros (? & ? & ? & ?); by simplify_eq]).
  - intros Hf. by exists w1, a.
  - done.
  - done.
Qed.

Lemma action_bind_ret {W A B} (m : action W A) (f : A -> action W B) w w' r :
  (m ≫= f) w = Ret (w', r) ->
  (exists w1 a, m w = Ret (w1, Ok a) /\ f a w1 = Ret (w', r)) \/
  exists e, m w = Ret (w', Err e) /\ r = Err e.
Proof.
  unfold mbind, action_bind. destruct (m w) as [[w1 [a|e]]|]; intros; simplify_eq; eauto.
Qed.

(** Whether a run ends with a value. *)
Definition succeeded {W A} (r : outcome (W * res A)) : bool :=
  match r with Ret (_, Ok _) => true | _ => false end.
Lemma succeeded_ret {W A} (r : outcome (W * res A)) : succeeded r = true -> exists w' x, r = Ret (w', Ok x).
Proof. destruct r as [[w' [x|e]]|]; [by eexists _, _|done..]. Qed.

(** ** Strings *)

(** [strings.Contains(s, sub)] *)
Definition str_contains (s sub : string) : bool :=
  match String.index 0 sub s with Some _ => true | None => false end.

Lemma prefix_app (a b : string) : String.prefix a (a +:+ b) = true.
Proof. induction a as [|c a IH]; simpl; [by destruct b|]. destruct (Ascii.ascii_dec c c); [exact IH|done]. Qed.

Lemma str_app_assoc (a b c : string) : (a +:+ b) +:+ c = a +:+ b +:+ c.
Proof. induction a as [|x a IH]; [reflexivity|]. exact (f_equal (String x) IH). Qed.

Lemma index_prefix (sub s : string) : String.prefix sub s = true -> exists n, String.index 0 sub s = Some n.
Proof.
  destruct s as [|c s]; simpl.
  - destruct sub; [by exists 0%nat|done].
  - intros Hp. destruct sub as [|d sub]; simpl in *; [by exists 0%nat|]. rewrite Hp. by exists 0%nat.
Qed.

Lemma str_contains_app (a sub b : string) : str_contains (a +:+ sub +:+ b) sub = true.
Proof.
  unfold str_contains. enough (exists n, String.index 0 sub (a +:+ sub +:+ b) = Some n) as [n ->] by done.
  induction a as [|c a [n IH]]; [exact (index_prefix _ _ (prefix_app sub b))|].
  change (String c a +:+ sub +:+ b) with (String c (a +:+ sub +:+ b)). cbn [String.index].
  destruct (String.prefix sub _); [by exists 0%nat|]. rewrite IH. by exists (S n).
Qed.

(** ** Sums over lists *)

Definition sumZ {A} (f : A -> Z) (l : list A) : Z := foldr (fun a s => f a + s) 0 l.

Section sumZ.
Context {A : Type}.
Implicit Types (f g : A -> Z) (l : list A).

Lemma sumZ_nil f : sumZ f [] = 0.
Proof. done. Qed.
Lemma sumZ_cons f a l : sumZ f (a :: l) = f a + sumZ f l.
Proof. done. Qed.
Lemma sumZ_app f l k : sumZ f (l ++ k) = sumZ f l + sumZ f k.
Proof. induction l as [|a l IH]; [done|]. rewrite <- app_comm_cons, !sumZ_cons, IH. lia. Qed.

#[export] Instance sumZ_perm f : Proper ((≡ₚ) ==> eq) (sumZ f).
Proof.
  intros l k Hp. induction Hp; rewrite ?sumZ_cons in *; [done|lia|lia|congruence].
Qed.

Lemma sumZ_ext f g l : (forall a, a ∈ l -> f a = g a) -> sumZ f l = sumZ g l.
Proof.
  induction l as [|a l IH]; intros H; [done|]. rewrite !sumZ_cons, IH, H; set_solver.
Qed.
Lemma sumZ_le f g l : (forall a, a ∈ l -> f a <= g a) -> sumZ f l <= sumZ g l.
Proof.
  induction l as [|a l IH]; intros H; [done|]. rewrite !sumZ_cons.
  pose proof (H a ltac:(set_solver)).
  assert (sumZ f l <= sumZ g l) by (apply IH; set_solver). lia.
Qed.
Lemma sumZ_zero f l : (forall a, a ∈ l -> f a = 0) -> sumZ f l = 0.
Proof.
  induction l as [|a l IH]; intros H; [done|]. rewrite sumZ_cons, IH, H; set_solver.
Qed.
Lemma sumZ_nonneg f l : (forall a, a ∈ l -> 0 <= f a) -> 0 <= sumZ f l.
Proof.
  intros H. rewrite <- (sumZ_zero (fun _ => 0) l) by done. by apply sumZ_le.
Qed.
Lemma sumZ_ge_elem f l a :
  (forall x, x ∈ l -> 0 <= f x) -> a ∈ l -> f a <= sumZ f l.
Proof.
  intros H Ha. apply list_elem_of_split in Ha as (l1 & l2 & ->).
  rewrite sumZ_app, sumZ_cons.
  assert (0 <= sumZ f l1) by (apply sumZ_nonneg; set_solver).
  assert (0 <= sumZ f l2) by (apply sumZ_nonneg; set_solver). lia.
Qed.
Lemma sumZ_add f g l : sumZ (fun a => f a + g a) l = sumZ f l + sumZ g l.
Proof. induction l as [|a l IH]; [done|]. rewrite !sumZ_cons. lia. Qed.
Lemma sumZ_sub f g l : sumZ (fun a => f a - g a) l = sumZ f l - sumZ g l.
Proof. induction l as [|a l IH]; [done|]. rewrite !sumZ_cons. lia. Qed.
Lemma sumZ_map {B} (h : B -> A) f (l : list B) : sumZ f (h <$> l) = sumZ (fun b => f (h b)) l.
Proof. induction l as [|a l IH]; [done|]. rewrite fmap_cons, !sumZ_cons, IH. done. Qed.
Lemma sumZ_filter f l (P : A -> Prop) `{forall a, Decision (P a)} :
  (forall a, a ∈ l -> ¬ P a -> f a = 0) -> sumZ f (filter P l) = sumZ f l.
Proof.
  induction l as [|a l IH]; intros HP; [done|].
  rewrite filter_cons, sumZ_cons. case_decide.
  - rewrite sumZ_cons, IH by set_solver. done.
  - rewrite IH by set_solver. rewrite (HP a) by set_solver. lia.
Qed.
Lemma sumZ_const (c : Z) l : sumZ (fun _ => c) l = c * Z.of_nat (length l).
Proof. induction l as [|a l IH]; [simpl; lia|]. rewrite sumZ_cons, length_cons. lia. Qed.
(** Terms bounded one by one, with the same sum, are equal. *)
Lemma sumZ_eq_elem f g l : (forall a, a ∈ l -> f a <= g a) -> sumZ g l <= sumZ f l -> forall a, a ∈ l -> f a = g a.
Proof.
  induction l as [|x l IH]; intros Hle Hs a; [by intros ?%elem_of_nil|]. rewrite !sumZ_cons in Hs.
  pose proof (Hle x ltac:(by left)). assert (forall b, b ∈ l -> f b <= g b) as Hl by (intros; apply Hle; by right).
  pose proof (sumZ_le f g l Hl). intros [->|Ha]%elem_of_cons; [lia|]. apply IH; [done|lia|done].
Qed.
End sumZ.

(** The running totals the source keeps in an [int32]: [total += t.Replicas]. *)
Definition sum32 {A} (f : A -> Z) (l : list A) : Z :=
  foldl (fun s a => i32 (s + f a)) 0 l.

Lemma sum32_from_exact {A} (f : A -> Z) l s :
  0 <= s -> (forall a, a ∈ l -> 0 <= f a) -> s + sumZ f l <= max_int32 ->
  foldl (fun s a => i32 (s + f a)) s l = s + sumZ f l.
Proof.
  revert s; induction l as [|a l IH]; intros s Hs Hf Hb; [simpl; lia|].
  rewrite sumZ_cons in Hb |- *. simpl.
  pose proof (Hf a ltac:(set_solver)).
  assert (0 <= sumZ f l) by (apply sumZ_nonneg; set_solver).
  rewrite i32_id by int_range. rewrite IH; [lia|lia|set_solver|lia].
Qed.

Lemma sum32_exact {A} (f : A -> Z) l :
  (forall a, a ∈ l -> 0 <= f a) -> sumZ f l <= max_int32 -> sum32 f l = sumZ f l.
Proof. intros. unfold sum32. rewrite sum32_from_exact; lia || done. Qed.

Lemma foldl_ext {A B} (f g : B -> A -> B) (l : list A) b :
  (forall b a, f b a = g b a) -> foldl f b l = foldl g b l.
Proof. intros Hfg. revert b; induction l as [|a l IH]; intros b; [done|]. simpl. by rewrite Hfg. Qed.

(** ** Maps read with a default, as [m[k]] does for an absent key *)

Definition lookup0 (m : gmap string Z) (k : string) : Z := default 0 (m !! k).

Lemma lookup0_insert m k v : lookup0 (<[k := v]> m) k = v.
Proof. unfold lookup0. by rewrite lookup_insert_eq. Qed.
Lemma lookup0_insert_ne m k k' v : k ≠ k' -> lookup0 (<[k := v]> m) k' = lookup0 m k'.
Proof. intros. unfold lookup0. by rewrite lookup_insert_ne. Qed.
Lemma lookup0_empty k : lookup0 ∅ k = 0.
Proof. done. Qed.
Create Rewrite HintDb gomap.
#[export] Hint Rewrite lookup0_insert lookup0_empty : gomap.
#[export] Hint Rewrite lookup0_insert_ne using done : gomap.

(** The last value written for each key: [for _, t := range ts { m[key] = val }]. *)
Definition map_of {A V} (key : A -> string) (val : A -> V) (l : list A) : gmap string V :=
  foldl (fun m a => <[key a := val a]> m) ∅ l.

Section map_of.
Context {A V : Type} (key : A -> string) (val : A -> V).
Implicit Types l : list A.

Lemma foldl_insert_None l (m : gmap string V) k :
  k ∉ key <$> l -> foldl (fun m a => <[key a := val a]> m) m l !! k = m !! k.
Proof.
  revert m; induction l as [|a l IH]; intros m Hk; [done|]. simpl.
  rewrite fmap_cons, not_elem_of_cons in Hk. rewrite IH by apply Hk.
  rewrite lookup_insert_ne; [done|]. intros E. by destruct Hk.
Qed.

Lemma foldl_insert_elem l (m : gmap string V) a : NoDup (key <$> l) -> a ∈ l ->
  foldl (fun m a => <[key a := val a]> m) m l !! key a = Some (val a).
Proof.
  revert m; induction l as [|b l IH]; intros m; [by intros _ ?%elem_of_nil|].
  rewrite fmap_cons, NoDup_cons. intros [Hb Hl] [-> |Ha]%elem_of_cons; simpl; [|by apply IH].
  rewrite foldl_insert_None by done. apply lookup_insert_eq.
Qed.

Lemma map_of_snoc l a : map_of key val (l ++ [a]) = <[key a := val a]> (map_of key val l).
Proof. unfold map_of. by rewrite foldl_snoc. Qed.

Lemma map_of_lookup_None l k : map_of key val l !! k = None <-> k ∉ key <$> l.
Proof.
  induction l as [|a l IH] using rev_ind; [set_solver|].
  rewrite map_of_snoc, fmap_app, not_elem_of_app, lookup_insert_None, IH. set_solver.
Qed.

Lemma map_of_is_Some l k : is_Some (map_of key val l !! k) <-> k ∈ key <$> l.
Proof.
  rewrite <- not_eq_None_Some, map_of_lookup_None.
  destruct (decide (k ∈ key <$> l)); split; auto. done.
Qed.

Lemma map_of_lookup_inv l k v : map_of key val l !! k = Some v -> exists a, a ∈ l /\ key a = k /\ val a = v.
Proof.
  induction l as [|a l IH] using rev_ind; [done|].
  rewrite map_of_snoc, lookup_insert_Some. intros [[<- <-]|[_ Hk]].
  - exists a. rewrite elem_of_app, list_elem_of_singleton. auto.
  - destruct (IH Hk) as (b & ? & ? & ?). exists b. rewrite elem_of_app. auto.
Qed.

Lemma map_of_lookup l a : NoDup (key <$> l) -> a ∈ l -> map_of key val l !! key a = Some (val a).
Proof. apply foldl_insert_elem. Qed.
End map_of.

(** Case analysis on the [if]s of a goal, turned into arithmetic facts. *)
Ltac bool_cases :=
  repeat match goal with
  | |- context [if ?b then _ else _] => destruct b eqn:?
  | H : context [if ?b then _ else _] |- _ => destruct b eqn:?
  end;
  repeat match goal with
  | H : (_ <? _) = true |- _ => apply Z.ltb_lt in H
  | H : (_ <? _) = false |- _ => apply Z.ltb_ge in H
  | H : (_ <=? _) = true |- _ => apply Z.leb_le in H
  | H : (_ <=? _) = false |- _ => apply Z.leb_gt in H
  | H : (_ =? _) = true |- _ => apply Z.eqb_eq in H
  | H : (_ =? _) = false |- _ => apply Z.eqb_neq in H
  end.
