(* ===== verification/Float64.v ===== *)
(** * IEEE 754 binary64, the type [float64] of Go

    A finite value is its exact rational value; an operation computes the exact
    result and rounds it to nearest, ties to even, with 53 significant bits, the
    subnormal range (exponents below -1074) and overflow to infinity included.
    The sign of a zero is not kept: it can be seen only by dividing by a zero
    that an operation produced, which the modelled code never does (its only
    possible zero divisors are conversions of the integer 0, which are +0). *)

From Stdlib Require Import QArith Qround Qabs Lqa Qpower.
From Stdlib Require Qcanon.
From S2P Require Import Prelude.

#[local] Open Scope Q_scope.

Inductive f64 : Type :=
| F64 (q : Q)
| F64Inf (neg : bool)
| F64NaN.

(** ** Rounding *)

(** The quotient [a / b] rounded to the nearest integer, ties to even. *)
Definition div_rne (a b : Z) : Z :=
  let q := (a / b)%Z in
  match (2 * (a mod b) ?= b)%Z with
  | Lt => q
  | Gt => (q + 1)%Z
  | Eq => if Z.even q then q else (q + 1)%Z
  end.

(** The integer part of the base-2 logarithm of [n / d]. *)
Definition qlog2 (n d : Z) : Z :=
  let l := (Z.log2 n - Z.log2 d)%Z in
  let le := (if 0 <=? l then d * 2 ^ l <=? n else d <=? n * 2 ^ (- l))%Z in
  if le then l else (l - 1)%Z.

(** [m * 2^e] and the mantissa [m] nearest to [(n / d) / 2^e]. *)
Definition scale (m e : Z) : Q :=
  if (0 <=? e)%Z then inject_Z (m * 2 ^ e) else Qred (m # Z.to_pos (2 ^ (- e))).

Definition mantissa (n d e : Z) : Z :=
  if (0 <=? e)%Z then div_rne n (d * 2 ^ e) else div_rne (n * 2 ^ (- e)) d.

(** The exponent of the last significant bit of [n / d]. *)
Definition ulp_exp (n d : Z) : Z := Z.max (qlog2 n d - 52) (-1074).

Definition rnd_pos (n d : Z) : Q := scale (mantissa n d (ulp_exp n d)) (ulp_exp n d).

Definition rnd (q : Q) : Q :=
  match Qnum q with
  | Z0 => 0
  | Zpos n => rnd_pos (Zpos n) (Zpos (Qden q))
  | Zneg n => - rnd_pos (Zpos n) (Zpos (Qden q))
  end.

Definition Qlt_bool (x y : Q) : bool := negb (Qle_bool y x).

Definition round64 (q : Q) : f64 :=
  let r := rnd q in
  if Qle_bool (inject_Z (2 ^ 1024)) (Qabs r) then F64Inf (Qlt_bool r 0) else F64 r.

(** ** Operations *)

Definition f64_of_int (z : Z) : f64 := round64 (inject_Z z).

Definition f64_neg (x : f64) : f64 :=
  match x with F64 q => F64 (- q) | F64Inf s => F64Inf (negb s) | F64NaN => F64NaN end.

Definition f64_add (x y : f64) : f64 :=
  match x, y with
  | F64 a, F64 b => round64 (a + b)
  | F64NaN, _ | _, F64NaN => F64NaN
  | F64Inf s, F64Inf t => if Bool.eqb s t then F64Inf s else F64NaN
  | F64Inf s, F64 _ | F64 _, F64Inf s => F64Inf s
  end.

Definition f64_sub (x y : f64) : f64 := f64_add x (f64_neg y).

Definition f64_mul (x y : f64) : f64 :=
  match x, y with
  | F64 a, F64 b => round64 (a * b)
  | F64NaN, _ | _, F64NaN => F64NaN
  | F64Inf s, F64Inf t => F64Inf (xorb s t)
  | F64Inf s, F64 q | F64 q, F64Inf s =>
      if Qeq_bool q 0 then F64NaN else F64Inf (xorb s (Qlt_bool q 0))
  end.

Definition f64_div (x y : f64) : f64 :=
  match x, y with
  | F64 a, F64 b =>
      if Qeq_bool b 0
      then (if Qeq_bool a 0 then F64NaN else F64Inf (Qlt_bool a 0))
      else round64 (a / b)
  | F64NaN, _ | _, F64NaN => F64NaN
  | F64Inf _, F64Inf _ => F64NaN
  | F64Inf s, F64 q => F64Inf (xorb s (Qlt_bool q 0))
  | F64 _, F64Inf _ => F64 0
  end.

(** The comparisons [x < y] and [x == y]: false when an operand is NaN. *)
Definition f64_ltb (x y : f64) : bool :=
  match x, y with
  | F64 a, F64 b => Qlt_bool a b
  | F64NaN, _ | _, F64NaN => false
  | F64Inf s, F64Inf t => s && negb t
  | F64Inf s, F64 _ => s
  | F64 _, F64Inf s => negb s
  end.

Definition f64_eqb (x y : f64) : bool :=
  match x, y with
  | F64 a, F64 b => Qeq_bool a b
  | F64Inf s, F64Inf t => Bool.eqb s t
  | _, _ => false
  end.

(** [math.Floor], [math.Ceil] and [math.Max]. *)
Definition f64_floor (x : f64) : f64 :=
  match x with F64 q => F64 (inject_Z (Qfloor q)) | _ => x end.

Definition f64_ceil (x : f64) : f64 :=
  match x with F64 q => F64 (inject_Z (Qceiling q)) | _ => x end.

Definition f64_max (x y : f64) : f64 :=
  match x, y with
  | F64Inf false, _ | _, F64Inf false => F64Inf false
  | F64NaN, _ | _, F64NaN => F64NaN
  | _, _ => if f64_ltb x y then y else x
  end.

Definition f64_zero : f64 := F64 0.
Definition f64_one : f64 := F64 1.

(** Truncation toward zero, when the integer it gives fits in [int32]; Go
    leaves the other conversions implementation-defined. *)
Definition f64_trunc (x : f64) : option Z :=
  match x with
  | F64 q => let z := if Qle_bool 0 q then Qfloor q else Qceiling q in
             if ((- 2 ^ 31 <=? z) && (z <? 2 ^ 31))%Z then Some z else None
  | _ => None
  end.

#[global] Arguments f64_of_int : simpl never.
#[global] Arguments f64_add : simpl never.
#[global] Arguments f64_sub : simpl never.
#[global] Arguments f64_mul : simpl never.
#[global] Arguments f64_div : simpl never.
#[global] Arguments f64_max : simpl never.
#[global] Arguments f64_trunc : simpl never.

(** Known values: 0.1 + 0.2 is not 0.3, 1/3 is the usual significand, the
    largest finite value doubles to infinity, 2^-1075 rounds to even (zero). *)
Example f64_tenth : f64_div (f64_of_int 1) (f64_of_int 10) = F64 (3602879701896397 # 36028797018963968).
Proof. vm_compute. reflexivity. Qed.
Example f64_third : f64_div (f64_of_int 1) (f64_of_int 3) = F64 (6004799503160661 # 18014398509481984).
Proof. vm_compute. reflexivity. Qed.
Example f64_not_associative :
  let tenth := f64_div (f64_of_int 1) (f64_of_int 10) in
  f64_eqb (f64_add (f64_add tenth tenth) tenth) (f64_div (f64_of_int 3) (f64_of_int 10)) = false.
Proof. vm_compute. reflexivity. Qed.
Example f64_absorption :
  f64_eqb (f64_add (f64_of_int (2 ^ 53)) f64_one) (f64_of_int (2 ^ 53)) = true.
Proof. vm_compute. reflexivity. Qed.
Example f64_overflow : f64_mul (f64_of_int (2 ^ 1023)) (f64_of_int 2) = F64Inf false.
Proof. vm_compute. reflexivity. Qed.
Example f64_underflow : round64 (1 # 2 ^ 1075) = F64 0 /\ round64 (3 # 2 ^ 1075) = F64 (1 # 2 ^ 1073).
Proof. vm_compute. done. Qed.

(** ** Accuracy

    [u] is the unit roundoff: rounding a positive normal number changes it by
    a relative error of at most [u]. *)

Definition u : Q := 1 # 2 ^ 53.

Lemma div_rne_spec a b : (0 < b)%Z -> (- b <= 2 * (div_rne a b * b - a) <= b)%Z.
Proof.
  intros Hb. unfold div_rne. pose proof (Z.div_mod a b ltac:(lia)).
  pose proof (Z.mod_pos_bound a b Hb).
  destruct (Z.compare_spec (2 * (a mod b)) b); try destruct (Z.even (a / b)); nia.
Qed.

Lemma two_pow_pos e : 0 < 2 ^ e.
Proof. apply Qpower_0_lt. reflexivity. Qed.

Lemma two_pow_inject e : (0 <= e)%Z -> inject_Z (2 ^ e) == 2 ^ e.
Proof. intros. by rewrite Zpower_Qpower. Qed.

Lemma two_pow_add a b : 2 ^ (a + b) == 2 ^ a * 2 ^ b.
Proof. apply Qpower_plus. discriminate. Qed.

Lemma two_pow_le a b : (a <= b)%Z -> 2 ^ a <= 2 ^ b.
Proof. intros. apply Qpower_le_compat_l; [lia|]. discriminate. Qed.

Lemma scale_spec m e : scale m e == inject_Z m * 2 ^ e.
Proof.
  unfold scale. destruct (Z.leb_spec 0 e) as [He|He].
  - rewrite inject_Z_mult, two_pow_inject by done. reflexivity.
  - rewrite Qred_correct, Qmake_Qdiv, Z2Pos.id by (apply Z.pow_pos_nonneg; lia).
    rewrite two_pow_inject by lia. unfold Qdiv.
    rewrite <- Qpower_opp, Z.opp_involutive. reflexivity.
Qed.

Lemma div_rne_Q a b : (0 < b)%Z ->
  - (1 # 2) <= inject_Z (div_rne a b) - inject_Z a / inject_Z b <= 1 # 2.
Proof.
  intros Hb. pose proof (div_rne_spec a b Hb) as [H1 H2].
  assert (0 < inject_Z b) as HbQ by (by rewrite <- (Zlt_Qlt 0)).
  apply Zle_lt_or_eq in H1. rewrite Zle_Qle in H2.
  assert (inject_Z (- b) <= inject_Z (2 * (div_rne a b * b - a))) as H1'
    by (rewrite <- Zle_Qle; lia).
  unfold Z.sub in *. rewrite ?inject_Z_mult, ?inject_Z_plus, ?inject_Z_mult, ?inject_Z_opp in *.
  assert (inject_Z (div_rne a b) - inject_Z a / inject_Z b
          == (inject_Z (div_rne a b) * inject_Z b + - inject_Z a) / inject_Z b) as ->.
  { field. intros E. rewrite E in HbQ. discriminate. }
  change (inject_Z 2) with 2 in *.
  split; [apply Qle_shift_div_l|apply Qle_shift_div_r]; try done; lra.
Qed.

Lemma inject_pos z : (0 < z)%Z -> 0 < inject_Z z.
Proof. intros. by rewrite <- (Zlt_Qlt 0). Qed.

Lemma scale_mantissa_err n d e : (0 < d)%Z ->
  - (2 ^ e * (1 # 2)) <= scale (mantissa n d e) e - inject_Z n / inject_Z d <= 2 ^ e * (1 # 2).
Proof.
  intros Hd. rewrite scale_spec. pose proof (two_pow_pos e) as Hp.
  pose proof (inject_pos d Hd) as HdQ.
  assert (Hm : - (1 # 2) <= inject_Z (mantissa n d e) - inject_Z n / inject_Z d / 2 ^ e <= 1 # 2).
  { unfold mantissa. destruct (Z.leb_spec 0 e) as [He|He].
    - pose proof (div_rne_Q n (d * 2 ^ e)) as H.
      rewrite inject_Z_mult, two_pow_inject in H by done.
      assert (inject_Z n / inject_Z d / 2 ^ e == inject_Z n / (inject_Z d * 2 ^ e)) as ->.
      { field. split; lra. }
      apply H. apply Z.mul_pos_pos; [done|]. apply Z.pow_pos_nonneg; lia.
    - pose proof (div_rne_Q (n * 2 ^ (- e)) d Hd) as H.
      rewrite inject_Z_mult, two_pow_inject, Qpower_opp in H by lia.
      assert (inject_Z n / inject_Z d / 2 ^ e == inject_Z n * / 2 ^ e / inject_Z d) as ->.
      { field. split; lra. }
      exact H. }
  assert (Heq : inject_Z n / inject_Z d == inject_Z n / inject_Z d / 2 ^ e * 2 ^ e)
    by (field; split; lra).
  rewrite Heq. destruct Hm. nra.
Qed.

Lemma qlog2_spec n d : (0 < n)%Z -> (0 < d)%Z ->
  2 ^ qlog2 n d <= inject_Z n / inject_Z d < 2 ^ (qlog2 n d + 1).
Proof.
  intros Hn Hd. pose proof (inject_pos d Hd) as HdQ.
  set (l := (Z.log2 n - Z.log2 d)%Z).
  destruct (Z.log2_spec n Hn) as [Hn1 Hn2], (Z.log2_spec d Hd) as [Hd1 Hd2].
  pose proof (Z.log2_nonneg n). pose proof (Z.log2_nonneg d).
  assert (Hbr : 2 ^ (l - 1) <= inject_Z n / inject_Z d /\ inject_Z n / inject_Z d < 2 ^ (l + 1)).
  { rewrite Zle_Qle in Hn1. rewrite Zle_Qle in Hd1. rewrite Zlt_Qlt in Hn2. rewrite Zlt_Qlt in Hd2.
    rewrite !two_pow_inject in * by lia.
    pose proof (two_pow_pos (Z.log2 d)). pose proof (two_pow_pos (l - 1)).
    pose proof (two_pow_pos (l + 1)).
    split; [apply Qle_shift_div_l|apply Qlt_shift_div_r]; try done.
    - assert (2 ^ Z.log2 n == 2 ^ (l - 1) * 2 ^ (Z.succ (Z.log2 d))) as E.
      { rewrite <- two_pow_add. unfold l. f_equiv. lia. }
      rewrite E in Hn1. nra.
    - assert (2 ^ (Z.succ (Z.log2 n)) == 2 ^ (l + 1) * 2 ^ Z.log2 d) as E.
      { rewrite <- two_pow_add. unfold l. f_equiv. lia. }
      rewrite E in Hn2. nra. }
  assert (Hle : (if 0 <=? l then d * 2 ^ l <=? n else d <=? n * 2 ^ (- l))%Z = true
                <-> 2 ^ l <= inject_Z n / inject_Z d).
  { destruct (Z.leb_spec 0 l); rewrite Z.leb_le, Zle_Qle, inject_Z_mult, two_pow_inject by lia.
    - split; intros Hx; [apply Qle_shift_div_l; [done|]; lra|].
      apply (Qmult_le_compat_r _ _ (inject_Z d)) in Hx; [|lra].
      unfold Qdiv in Hx. rewrite <- Qmult_assoc, (Qmult_comm (/ _)), Qmult_inv_r in Hx by lra. lra.
    - rewrite Qpower_opp. pose proof (two_pow_pos l).
      split; intros Hx.
      + apply Qle_shift_div_l; [done|].
        apply (Qmult_le_compat_r _ _ (2 ^ l)) in Hx; [|lra].
        rewrite <- Qmult_assoc, (Qmult_comm (/ _)), Qmult_inv_r in Hx by lra. lra.
      + apply (Qmult_le_compat_r _ _ (inject_Z d)) in Hx; [|lra].
        unfold Qdiv in Hx. rewrite <- Qmult_assoc, (Qmult_comm (/ _)), Qmult_inv_r in Hx by lra.
        apply Qle_shift_div_l; [done|]. lra. }
  unfold qlog2. fold l. destruct (if (0 <=? l)%Z then _ else _) eqn:E.
  - split; [by apply Hle|]. apply Hbr.
  - split; [apply Hbr|]. apply Qnot_le_lt. intros Hx.
    replace (l - 1 + 1)%Z with l in Hx by lia. apply Hle in Hx. congruence.
Qed.

Lemma two_pow_lt_inv a b : 2 ^ a < 2 ^ b -> (a < b)%Z.
Proof.
  intros H. destruct (Z.lt_ge_cases a b); [done|]. pose proof (two_pow_le b a ltac:(lia)). lra.
Qed.

Section positive.
Context (n d : Z) (Hn : (0 < n)%Z) (Hd : (0 < d)%Z).
#[local] Abbreviation x := (inject_Z n / inject_Z d).

Lemma qlog2_ge k : 2 ^ k <= x -> (k <= qlog2 n d)%Z.
Proof.
  intros H. destruct (qlog2_spec n d Hn Hd) as [_ H'].
  enough (k < qlog2 n d + 1)%Z by lia. apply two_pow_lt_inv. lra.
Qed.

Lemma rnd_pos_rel : 2 ^ (-1022) <= x -> x * (1 - u) <= rnd_pos n d <= x * (1 + u).
Proof.
  intros H. pose proof (qlog2_ge _ H) as HL. destruct (qlog2_spec n d Hn Hd) as [H1 _].
  pose proof (scale_mantissa_err n d (ulp_exp n d) Hd) as [E1 E2].
  unfold rnd_pos. replace (ulp_exp n d) with (qlog2 n d + -52)%Z in * by (unfold ulp_exp; lia).
  assert (2 ^ (qlog2 n d + -52) * (1 # 2) == 2 ^ qlog2 n d * u) as E.
  { rewrite two_pow_add, <- Qmult_assoc. apply Qmult_comp; reflexivity. }
  rewrite E in E1, E2. assert (0 < u) by reflexivity. split; nra.
Qed.

(** Above [2^k] every rounded value is a multiple of [2^(k-52)]. *)
Lemma rnd_pos_multiple k :
  (-1022 <= k)%Z -> 2 ^ k <= x -> exists m, rnd_pos n d == inject_Z m * 2 ^ (k - 52).
Proof.
  intros Hk H. pose proof (qlog2_ge _ H) as HL. unfold rnd_pos.
  exists (mantissa n d (ulp_exp n d) * 2 ^ (qlog2 n d - k))%Z.
  rewrite scale_spec, inject_Z_mult, two_pow_inject, <- Qmult_assoc, <- two_pow_add by lia.
  unfold ulp_exp. repeat f_equiv; lia.
Qed.
End positive.

Lemma Qnum_pos q : 0 < q -> exists n, Qnum q = Zpos n.
Proof.
  intros H. destruct q as [[|n|n] d]; unfold Qlt in H; simpl in *; [lia| |lia]. eauto.
Qed.

Lemma Qdiv_num_den q : q == inject_Z (Qnum q) / inject_Z (Zpos (Qden q)).
Proof. destruct q as [n d]. apply Qmake_Qdiv. Qed.

Lemma rnd_pos_eq q : 0 < q -> rnd q = rnd_pos (Qnum q) (Zpos (Qden q)) /\ (0 < Qnum q)%Z.
Proof. intros H. destruct (Qnum_pos q H) as [n Hn]. unfold rnd. rewrite Hn. done. Qed.

Lemma rnd_rel q : 2 ^ (-1022) <= q -> q * (1 - u) <= rnd q <= q * (1 + u).
Proof.
  intros H. pose proof (two_pow_pos (-1022)). destruct (rnd_pos_eq q) as [-> Hp]; [lra|].
  rewrite (Qdiv_num_den q) in H. pose proof (rnd_pos_rel _ (Zpos (Qden q)) Hp ltac:(lia) H) as Hr.
  rewrite <- Qdiv_num_den in Hr. exact Hr.
Qed.

Lemma rnd_multiple q k : (-1022 <= k)%Z -> 2 ^ k <= q -> exists m, rnd q == inject_Z m * 2 ^ (k - 52).
Proof.
  intros Hk H. pose proof (two_pow_pos k). destruct (rnd_pos_eq q) as [-> Hp]; [lra|].
  apply rnd_pos_multiple; [done|lia|done|]. by rewrite <- Qdiv_num_den.
Qed.

Lemma div_rne_1 a : div_rne a 1 = a.
Proof. unfold div_rne. rewrite Z.mod_1_r, Z.div_1_r. done. Qed.

Lemma rnd_pos_int n : (0 < n <= 2 ^ 53)%Z -> rnd_pos n 1 == inject_Z n.
Proof.
  intros [Hn Hb]. apply Z.le_lteq in Hb as [Hb| ->]; [|vm_compute; done].
  assert (Hq : qlog2 n 1 = Z.log2 n).
  { unfold qlog2. change (Z.log2 1) with 0%Z. rewrite Z.sub_0_r, Z.mul_1_l.
    pose proof (Z.log2_nonneg n). destruct (Z.log2_spec n Hn) as [Hl _].
    destruct (Z.leb_spec 0 (Z.log2 n)); [|lia]. destruct (Z.leb_spec (2 ^ Z.log2 n) n); lia. }
  assert (Z.log2 n < 53)%Z by (by apply Z.log2_lt_pow2).
  pose proof (Z.log2_nonneg n).
  unfold rnd_pos, ulp_exp. rewrite scale_spec, Hq. set (e := Z.max _ _).
  assert (e = Z.log2 n - 52)%Z as He by lia. unfold mantissa.
  destruct (Z.leb_spec 0 e).
  - replace e with 0%Z by lia. rewrite div_rne_1. change (2 ^ 0) with 1. lra.
  - rewrite div_rne_1, inject_Z_mult, two_pow_inject, <- Qmult_assoc, <- two_pow_add by lia.
    rewrite Z.add_opp_diag_l. change (2 ^ 0) with 1. lra.
Qed.

Lemma rnd_int z : (0 <= z <= 2 ^ 53)%Z -> rnd (inject_Z z) == inject_Z z.
Proof.
  intros Hz. destruct z as [|n|n]; [done| |lia].
  change (rnd_pos (Zpos n) 1 == inject_Z (Zpos n)). apply rnd_pos_int. lia.
Qed.

(** ** Operations on values in the normal range

    [good q]: zero, or far from the subnormal range and from overflow.  On such
    exact results an operation returns a finite value within [u] of them. *)

Definition good (q : Q) : Prop := q == 0 \/ (1 # 2 ^ 1000) <= q <= inject_Z (2 ^ 1000).

Lemma rnd_zero q : q == 0 -> rnd q = 0.
Proof. intros H. destruct q as [[|n|n] d]; [done| |]; unfold Qeq in H; simpl in H; lia. Qed.

Lemma u_bounds : 0 < u /\ u < 1 # 1000000000000000.
Proof. split; reflexivity. Qed.

Lemma round64_fin q : 0 <= rnd q < inject_Z (2 ^ 1024) -> round64 q = F64 (rnd q).
Proof.
  intros [H1 H2]. unfold round64. destruct (Qle_bool _ _) eqn:E; [|done].
  apply Qle_bool_iff in E. rewrite Qabs_pos in E by done. lra.
Qed.

Lemma round64_good q : good q ->
  exists r, round64 q = F64 r /\ q * (1 - u) <= r <= q * (1 + u).
Proof.
  pose proof u_bounds. intros [Hq|Hq].
  - assert (rnd q == 0) as E by (rewrite rnd_zero by done; reflexivity).
    exists (rnd q). rewrite round64_fin by (rewrite E; done). split; [done|]. rewrite E, Hq. lra.
  - assert (2 ^ (-1022) <= q) as Hl.
    { apply (Qle_trans _ (1 # 2 ^ 1000)); [by vm_compute|]. apply Hq. }
    pose proof (rnd_rel q Hl) as Hr. pose proof (two_pow_pos (-1022)).
    exists (rnd q). rewrite round64_fin; [done|]. split; [nra|].
    apply (Qle_lt_trans _ (q * 2)); [nra|].
    apply (Qle_lt_trans _ (inject_Z (2 ^ 1000) * 2)); [nra|]. by vm_compute.
Qed.

Lemma f64_of_int_exact z : (0 <= z <= 2 ^ 53)%Z ->
  exists r, f64_of_int z = F64 r /\ r == inject_Z z.
Proof.
  intros Hz. pose proof (rnd_int z Hz) as E. exists (rnd (inject_Z z)). split; [|done].
  apply round64_fin. rewrite E. split.
  - rewrite <- (Zle_Qle 0). lia.
  - rewrite <- Zlt_Qlt. assert (2 ^ 53 < 2 ^ 1024)%Z by done. lia.
Qed.

Lemma f64_add_good a b : good (a + b) ->
  exists r, f64_add (F64 a) (F64 b) = F64 r /\ (a + b) * (1 - u) <= r <= (a + b) * (1 + u).
Proof. apply round64_good. Qed.

Lemma f64_sub_good a b : good (a - b) ->
  exists r, f64_sub (F64 a) (F64 b) = F64 r /\ (a - b) * (1 - u) <= r <= (a - b) * (1 + u).
Proof. apply round64_good. Qed.

Lemma f64_mul_good a b : good (a * b) ->
  exists r, f64_mul (F64 a) (F64 b) = F64 r /\ a * b * (1 - u) <= r <= a * b * (1 + u).
Proof. apply round64_good. Qed.

Lemma f64_div_good a b : ~ b == 0 -> good (a / b) ->
  exists r, f64_div (F64 a) (F64 b) = F64 r /\ a / b * (1 - u) <= r <= a / b * (1 + u).
Proof.
  intros Hb Hg. unfold f64_div. destruct (Qeq_bool b 0) eqn:E.
  - by apply Qeq_bool_iff in E.
  - by apply round64_good.
Qed.

(** A small integer is converted to itself, and sums of integers are exact. *)
Lemma scale_reduced m e : Qred (scale m e) = scale m e.
Proof.
  unfold scale. destruct (0 <=? e)%Z; [|apply Qred_complete, Qred_correct].
  apply (Qcanon.Qred_identity (inject_Z _)). simpl. by rewrite Z.gcd_1_r.
Qed.

Lemma rnd_int_eq z : (0 <= z <= 2 ^ 53)%Z -> rnd (inject_Z z) = inject_Z z.
Proof.
  intros Hz. pose proof (rnd_int z Hz) as E. apply Qred_complete in E.
  assert (Qred (inject_Z z) = inject_Z z) as Er by (apply Qcanon.Qred_identity; simpl; apply Z.gcd_1_r).
  rewrite Er in E. transitivity (Qred (rnd (inject_Z z))); [|exact E].
  destruct z as [|n|n]; [done| |lia].
  symmetry. apply (scale_reduced (mantissa (Zpos n) 1 (ulp_exp (Zpos n) 1)) (ulp_exp (Zpos n) 1)).
Qed.

Lemma round64_int z : (0 <= z <= 2 ^ 53)%Z -> round64 (inject_Z z) = F64 (inject_Z z).
Proof.
  intros Hz. rewrite round64_fin; rewrite rnd_int_eq by done; [done|]. split.
  - rewrite <- (Zle_Qle 0). lia.
  - rewrite <- Zlt_Qlt. assert (2 ^ 53 < 2 ^ 1024)%Z by done. lia.
Qed.

Lemma f64_of_int_eq z : (0 <= z <= 2 ^ 53)%Z -> f64_of_int z = F64 (inject_Z z).
Proof. apply round64_int. Qed.

Lemma f64_add_int a b : (0 <= a + b <= 2 ^ 53)%Z ->
  f64_add (F64 (inject_Z a)) (F64 (inject_Z b)) = F64 (inject_Z (a + b)).
Proof.
  intros Hab. unfold f64_add. rewrite <- round64_int by done. f_equal.
  unfold inject_Z, Qplus. simpl. by rewrite !Z.mul_1_r.
Qed.
