(* ===== verification/GoRuntime.v ===== *)
(** * What the Go language and its standard library leave unspecified

    A [range] over a map visits the entries in an unspecified order; [sort.Slice]
    is not stable; the conversion of an out-of-range [float64] to [int32] is
    implementation-defined.  [GoRuntime] is any choice the runtime may make and
    [GoRuntimeLaws] what the language promises about it, so that a theorem about
    [GoRuntime] holds for every run. *)

From S2P Require Import Prelude Float64.

(** [go_range site m] is the order in which the [range] statement numbered
    [site] visits [m]: two loops over one map need not agree. *)
Class GoRuntime := {
  go_range : forall {V : Type}, nat -> gmap string V -> list (string * V);
  go_sort : forall {A : Type}, (A -> A -> bool) -> list A -> list A;
  go_f2i32 : f64 -> Z;
}.

(** [less] is a strict weak order on the elements of [l]. *)
Record strict_weak {A} (less : A -> A -> bool) (l : list A) : Prop := {
  sw_asym : forall x y, x ∈ l -> y ∈ l -> less x y = true -> less y x = false;
  sw_ntrans : forall x y z, x ∈ l -> y ∈ l -> z ∈ l ->
    less y x = false -> less z y = false -> less z x = false;
}.

Lemma strict_weak_subset {A} (less : A -> A -> bool) (l k : list A) :
  (forall x, x ∈ k -> x ∈ l) -> strict_weak less l -> strict_weak less k.
Proof. intros Hs [Ha Ht]. split; [auto|]. intros x y z ???. apply (Ht x y z); auto. Qed.

(** The order [sort.Slice] establishes: no element is less than an earlier one. *)
Definition sorted_by {A} (less : A -> A -> bool) : list A -> Prop :=
  StronglySorted (fun x y => less y x = false).

Class GoRuntimeLaws (G : GoRuntime) : Prop := {
  go_range_perm : forall {V} n (m : gmap string V), go_range n m ≡ₚ map_to_list m;
  go_sort_perm : forall {A} (less : A -> A -> bool) l, go_sort less l ≡ₚ l;
  go_sort_sorted : forall {A} (less : A -> A -> bool) l,
    strict_weak less l -> sorted_by less (go_sort less l);
  go_f2i32_range : forall x, in_i32 (go_f2i32 x);
}.

(** [int32(x)] *)
Definition f64_to_i32 `{GoRuntime} (x : f64) : Z :=
  match f64_trunc x with Some z => z | None => go_f2i32 x end.

(** [sort.Strings] *)
Definition sort_strings `{GoRuntime} (l : list string) : list string := go_sort String.ltb l.

(** The keys of a map in the order of a [range] statement. *)
Definition range_keys `{GoRuntime} {V} (n : nat) (m : gmap string V) : list string :=
  (go_range n m).*1.

Section laws.
Context `{GoRuntimeLaws}.

Lemma range_elem {V} n (m : gmap string V) k v : (k, v) ∈ go_range n m <-> m !! k = Some v.
Proof. rewrite go_range_perm. apply elem_of_map_to_list. Qed.

Lemma range_keys_elem {V} n (m : gmap string V) k : k ∈ range_keys n m <-> is_Some (m !! k).
Proof.
  unfold range_keys. rewrite list_elem_of_fmap. split.
  - intros ([k' v] & -> & Hk). apply range_elem in Hk. by exists v.
  - intros [v Hv]. exists (k, v). split; [done|]. by apply range_elem.
Qed.

Lemma range_keys_NoDup {V} n (m : gmap string V) : NoDup (range_keys n m).
Proof. unfold range_keys. rewrite go_range_perm. apply NoDup_fst_map_to_list. Qed.

Lemma range_NoDup {V} n (m : gmap string V) : NoDup (go_range n m).
Proof. rewrite go_range_perm. apply NoDup_map_to_list. Qed.

Lemma go_sort_elem {A} (less : A -> A -> bool) l x : x ∈ go_sort less l <-> x ∈ l.
Proof. by rewrite go_sort_perm. Qed.

Lemma go_sort_length {A} (less : A -> A -> bool) (l : list A) :
  length (go_sort less l) = length l.
Proof. by rewrite go_sort_perm. Qed.
End laws.

(** The loop [for k, v := range m { m[k] = f(v) }]. *)
Definition range_update `{GoRuntime} {V} (n : nat) (f : V -> V) (m : gmap string V) : gmap string V :=
  foldl (fun acc kv => <[kv.1 := f kv.2]> acc) m (go_range n m).

(** The loop [for k, v := range m { out[k] = f(out[k], v) }] over integer maps. *)
Definition range_accum `{GoRuntime} (n : nat) (f : Z -> Z -> Z) (m out : gmap string Z) : gmap string Z :=
  foldl (fun acc kv => <[kv.1 := f (lookup0 acc kv.1) kv.2]> acc) out (go_range n m).

Lemma foldl_insert_lookup {V W} (g : W -> V) (l : list (string * W)) (m : gmap string V) k :
  NoDup l.*1 ->
  foldl (fun acc kv => <[kv.1 := g kv.2]> acc) m l !! k =
  match list_to_map (M := gmap string W) l !! k with Some w => Some (g w) | None => m !! k end.
Proof.
  revert m; induction l as [|[i w] l IH]; intros m Hnd; [done|].
  rewrite fmap_cons in Hnd. apply NoDup_cons in Hnd as [Hi Hnd]. simpl. rewrite IH by done.
  destruct (decide (i = k)) as [->|Hne].
  - rewrite not_elem_of_list_to_map_1 by done. by rewrite !lookup_insert_eq.
  - by rewrite !lookup_insert_ne by done.
Qed.

Lemma foldl_accum_lookup (f : Z -> Z -> Z) (l : list (string * Z)) (m : gmap string Z) k :
  NoDup l.*1 ->
  foldl (fun acc kv => <[kv.1 := f (lookup0 acc kv.1) kv.2]> acc) m l !! k =
  match list_to_map (M := gmap string Z) l !! k with
  | Some v => Some (f (lookup0 m k) v) | None => m !! k end.
Proof.
  revert m; induction l as [|[i w] l IH]; intros m Hnd; [done|].
  rewrite fmap_cons in Hnd. apply NoDup_cons in Hnd as [Hi Hnd]. simpl. rewrite IH by done.
  destruct (decide (i = k)) as [->|Hne].
  - rewrite not_elem_of_list_to_map_1 by done. by rewrite !lookup_insert_eq.
  - rewrite !lookup_insert_ne, lookup0_insert_ne by done. done.
Qed.

Section range_loops.
Context `{GoRuntimeLaws}.

Lemma range_to_map {V} n (m : gmap string V) : list_to_map (go_range n m) = m.
Proof.
  rewrite <- (list_to_map_to_list m) at 2. apply list_to_map_proper.
  - apply range_keys_NoDup.
  - apply go_range_perm.
Qed.

Lemma range_update_fmap {V} n (f : V -> V) (m : gmap string V) : range_update n f m = f <$> m.
Proof.
  apply map_eq. intros k. unfold range_update. rewrite foldl_insert_lookup by apply range_keys_NoDup.
  rewrite range_to_map, lookup_fmap. by destruct (m !! k).
Qed.

Lemma range_accum_lookup n f m out k :
  range_accum n f m out !! k =
  match m !! k with Some v => Some (f (lookup0 out k) v) | None => out !! k end.
Proof. unfold range_accum. rewrite foldl_accum_lookup by apply range_keys_NoDup. by rewrite range_to_map. Qed.

(** Reading every entry: a loop body that is insensitive to the order. *)
Lemma range_fold_perm {V B} n (g : B -> string * V -> B) (b : B) (m : gmap string V) :
  (forall b x y, g (g b x) y = g (g b y) x) ->
  foldl g b (go_range n m) = foldl g b (map_to_list m).
Proof.
  intros Hg. assert (forall l k, l ≡ₚ k -> forall b, foldl g b l = foldl g b k) as Hp.
  { induction 1 as [|x l k Hp IH|x y l|l k r Hlk IH1 Hkr IH2]; intros c; simpl; auto.
    - by rewrite Hg.
    - by rewrite IH1. }
  apply Hp, go_range_perm.
Qed.
End range_loops.

(** A loop over the entries of a map that changes only the entry of the same key
    of another map. *)
Lemma foldl_pointwise {V W} (step : gmap string V -> string * W -> gmap string V)
    (g : option V -> W -> option V) (l : list (string * W)) (m : gmap string V) k :
  (forall m k w k', step m (k, w) !! k' = if decide (k = k') then g (m !! k) w else m !! k') ->
  NoDup l.*1 ->
  foldl step m l !! k =
  match list_to_map (M := gmap string W) l !! k with Some w => g (m !! k) w | None => m !! k end.
Proof.
  intros Hstep. revert m; induction l as [|[i w] l IH]; intros m Hnd; [done|].
  rewrite fmap_cons in Hnd. apply NoDup_cons in Hnd as [Hi Hnd]. simpl. rewrite IH by done.
  rewrite Hstep. destruct (decide (i = k)) as [->|Hne].
  - rewrite not_elem_of_list_to_map_1 by done. by rewrite lookup_insert_eq.
  - by rewrite lookup_insert_ne by done.
Qed.

Lemma range_pointwise `{GoRuntimeLaws} {V W} (step : gmap string V -> string * W -> gmap string V)
    (g : option V -> W -> option V) n (src : gmap string W) (m : gmap string V) k :
  (forall m k w k', step m (k, w) !! k' = if decide (k = k') then g (m !! k) w else m !! k') ->
  foldl step m (go_range n src) !! k =
  match src !! k with Some w => g (m !! k) w | None => m !! k end.
Proof.
  intros Hstep. rewrite (foldl_pointwise step g) by (done || apply range_keys_NoDup).
  by rewrite range_to_map.
Qed.

(** [String.ltb] is the byte-wise order Go uses for strings. *)
Lemma ltb_leb s t : String.ltb s t = negb (String.leb t s).
Proof.
  unfold String.ltb, String.leb. rewrite (String.compare_antisym t s).
  by destruct (String.compare s t).
Qed.

Lemma ltb_false_le s t : String.ltb t s = false <-> String.le s t.
Proof. rewrite ltb_leb. unfold String.le. destruct (String.leb s t); simpl; split; done. Qed.

Lemma string_strict_weak (l : list string) : strict_weak String.ltb l.
Proof.
  split.
  - intros x y _ _ Hxy. apply ltb_false_le. rewrite ltb_leb in Hxy.
    unfold String.le. destruct (String.leb_total x y) as [Hyx|Hyx]; [by rewrite Hyx|].
    by rewrite Hyx in Hxy.
  - intros x y z _ _ _. rewrite !ltb_false_le. by intros ? ?; etrans.
Qed.

(** A list sorted by name. *)
Definition name_sorted {A} (name : A -> string) (l : list A) : Prop :=
  StronglySorted (fun x y => String.le (name x) (name y)) l.

Lemma sort_by_name `{GoRuntimeLaws} {A} (name : A -> string) (l : list A) :
  name_sorted name (go_sort (fun x y => String.ltb (name x) (name y)) l).
Proof.
  assert (strict_weak (fun x y => String.ltb (name x) (name y)) l) as Hs.
  { destruct (string_strict_weak (name <$> l)) as [Ha Ht].
    split; [intros x y|intros x y z].
    - intros. by apply Ha; try apply list_elem_of_fmap_2.
    - intros. by apply (Ht _ (name y)); try apply list_elem_of_fmap_2. }
  pose proof (go_sort_sorted _ _ Hs) as Hso. unfold name_sorted, sorted_by in *.
  induction Hso as [|x k Hk IH Hx]; constructor; [done|].
  eapply Forall_impl; [exact Hx|]. intros y Hy. by apply ltb_false_le.
Qed.

Lemma sort_strings_sorted `{GoRuntimeLaws} l : StronglySorted String.le (sort_strings l).
Proof. apply (sort_by_name (fun s => s)). Qed.

(** ** An instance: key order, insertion sort (which [sort.Slice] itself uses on
    at most 12 elements), and the amd64 conversion *)

Fixpoint insert_sorted {A} (less : A -> A -> bool) (x : A) (l : list A) : list A :=
  match l with
  | [] => [x]
  | y :: l' => if less y x then y :: insert_sorted less x l' else x :: l
  end.

Definition insertion_sort {A} (less : A -> A -> bool) (l : list A) : list A :=
  foldr (insert_sorted less) [] l.

#[export] Instance canonical_runtime : GoRuntime := {|
  go_range _ _ m := map_to_list m;
  go_sort _ less l := insertion_sort less l;
  go_f2i32 _ := - 2 ^ 31;
|}.

Section insertion_sort.
Context {A : Type} (less : A -> A -> bool).

Lemma insert_sorted_perm x l : insert_sorted less x l ≡ₚ x :: l.
Proof.
  induction l as [|y l IH]; [done|]. simpl. destruct (less y x); [|done].
  rewrite IH. constructor.
Qed.

Lemma insertion_sort_perm l : insertion_sort less l ≡ₚ l.
Proof. induction l as [|x l IH]; [done|]. simpl. by rewrite insert_sorted_perm, IH. Qed.

Lemma insert_sorted_sorted x l :
  strict_weak less (x :: l) -> sorted_by less l -> sorted_by less (insert_sorted less x l).
Proof.
  unfold sorted_by. intros Hw Hs. induction Hs as [|y l Hl IH Hy]; simpl; [repeat constructor|].
  pose proof Hw as [Ha Ht]. destruct (less y x) eqn:E.
  - constructor; [apply IH; eapply strict_weak_subset, Hw; intros z; rewrite !elem_of_cons; tauto|].
    rewrite insert_sorted_perm. constructor; [apply Ha; set_solver|done].
  - constructor; [by constructor|]. constructor; [done|].
    rewrite Forall_forall in Hy |- *. intros z Hz. apply (Ht _ y); [set_solver..|done|by apply Hy].
Qed.

Lemma insertion_sort_sorted l : strict_weak less l -> sorted_by less (insertion_sort less l).
Proof.
  induction l as [|x l IH]; intros Hw; [constructor|]. simpl. apply insert_sorted_sorted.
  - eapply strict_weak_subset, Hw. intros y. by rewrite insertion_sort_perm.
  - apply IH. eapply strict_weak_subset, Hw. set_solver.
Qed.
End insertion_sort.

#[export] Instance canonical_runtime_laws : GoRuntimeLaws canonical_runtime.
Proof.
  split; simpl; intros.
  - done.
  - apply insertion_sort_perm.
  - by apply insertion_sort_sorted.
  - unfold in_i32. lia.
Qed.
