(* ===== verification/Json.v ===== *)
(** * Unstructured objects

    The objects the engine builds and reads without a Go type are values of
    [map[string]interface{}]: strings, int64, float64, booleans, slices and maps.
    The accessors of k8s.io/apimachinery/pkg/apis/meta/v1/unstructured are the class
    [Unstructured]; what they are documented to do is written with a walk along
    the path of fields, [nested_field] and [set_field_at]. *)

From S2P Require Import Prelude Float64.

#[warnings="-register-all"] Inductive json :=
| JNull
| JBool (b : bool)
| JInt (z : Z)
| JFloat (x : f64)
| JStr (s : string)
| JArr (l : list json)
| JObj (m : gmap string json).

(** [map[string]interface{}{...}] *)
Definition obj (fields : list (string * json)) : json := JObj (list_to_map fields).

(** ** Values at a path *)

(** The value at a path of fields. *)
Fixpoint at_path (j : json) (path : list string) : option json :=
  match path with
  | [] => Some j
  | f :: rest => match j with JObj m => m !! f ≫= (fun j' => at_path j' rest) | _ => None end
  end.

(** The same walk with its errors: a missing field, or one below a null, is not
    found; a field of anything else but a map is an error. *)
Fixpoint nested_field (j : json) (path : list string) : res (option json) :=
  match path with
  | [] => Ok (Some j)
  | f :: rest =>
      match j with
      | JObj m => match m !! f with Some j' => nested_field j' rest | None => Ok None end
      | JNull => Ok None
      | _ => Err "accessor error"
      end
  end.

Definition nested_as {A} (cast : json -> option A) (j : json) (path : list string) : res (option A) :=
  match nested_field j path with
  | Err e => Err e
  | Ok None => Ok None
  | Ok (Some v) => match cast v with Some a => Ok (Some a) | None => Err "accessor error" end
  end.

Definition as_string (j : json) : option string := match j with JStr s => Some s | _ => None end.
Definition as_int64 (j : json) : option Z := match j with JInt z => Some z | _ => None end.
Definition as_slice (j : json) : option (list json) := match j with JArr l => Some l | _ => None end.
Definition as_map (j : json) : option (gmap string json) := match j with JObj m => Some m | _ => None end.
Definition as_string_slice (j : json) : option (list string) := as_slice j ≫= mapM as_string.

(** All values are strings. *)
Definition all_strings (m : gmap string json) : bool :=
  forallb (fun kv => match as_string kv.2 with Some _ => true | None => false end) (map_to_list m).
Definition as_string_map (j : json) : option (gmap string string) :=
  m ← as_map j; if all_strings m then Some (omap as_string m) else None.

(** Maps that are missing on the way are made; anything else in the way is an
    error, and nothing has been changed then. *)
Fixpoint set_field_at (j : json) (path : list string) (v : json) : res json :=
  match path with
  | [] => Ok v
  | f :: rest =>
      match j with
      | JObj m =>
          match set_field_at (default (JObj ∅) (m !! f)) rest v with
          | Ok j' => Ok (JObj (<[f := j']> m))
          | Err e => Err e
          end
      | _ => Err "value cannot be set"
      end
  end.

(** The header of an object: the setters of an empty object, its kind, its labels. *)
Definition header_object (apiVersion kind name namespace : string) : json := obj [
  ("apiVersion", JStr apiVersion); ("kind", JStr kind);
  ("metadata", obj (("name", JStr name) ::
     (if String.eqb namespace "" then [] else [("namespace", JStr namespace)])))].
Definition string_at (u : json) (path : list string) : string := default "" (at_path u path ≫= as_string).
Definition labels_at (u : json) : gmap string string := default ∅ (at_path u ["metadata"; "labels"] ≫= as_string_map).
Definition with_labels (u : json) (labels : gmap string string) : json :=
  unwrap u (set_field_at u ["metadata"; "labels"] (JObj (JStr <$> labels))).

(** [reflect.DeepEqual] on such values. *)
Fixpoint deep_equal (a b : json) : bool :=
  match a, b with
  | JNull, JNull => true
  | JBool x, JBool y => Bool.eqb x y
  | JInt x, JInt y => x =? y
  | JFloat x, JFloat y => f64_eqb x y
  | JStr x, JStr y => String.eqb x y
  | JArr l, JArr k =>
      (fix go l k := match l, k with
        | [], [] => true
        | x :: l, y :: k => deep_equal x y && go l k
        | _, _ => false
        end) l k
  | JObj m, JObj n =>
      Nat.eqb (size m) (size n) &&
      map_fold (fun k v acc => match n !! k with Some w => deep_equal v w | None => false end && acc) true m
  | _, _ => false
  end.

(** ** The accessors of the package *)

(** Two results that differ in the text of the error at most. *)
Definition same_res {A} (x y : res A) : Prop :=
  match x, y with
  | Ok a, Ok b => a = b
  | Err _, Err _ => True
  | _, _ => False
  end.

#[export] Instance same_res_equivalence {A} : Equivalence (@same_res A).
Proof.
  split.
  - by intros [a|e].
  - intros [a|e] [b|e']; simpl; auto.
  - intros [a|e] [b|e'] [c|e'']; simpl; try tauto. by intros -> ->.
Qed.

(** The value, when the error is not looked at: [x, found, _ := ...]. *)
Definition found {A} (r : res (option A)) : option A := match r with Ok x => x | Err _ => None end.

#[export] Instance found_proper {A} : Proper (same_res ==> eq) (@found A).
Proof. intros [a|e] [b|e']; simpl; intros; congruence || done. Qed.

(** [Ok None] when [found] is false. *)
Class Unstructured := {
  NestedString : json -> list string -> res (option string);
  NestedInt64 : json -> list string -> res (option Z);
  NestedSlice : json -> list string -> res (option (list json));
  NestedStringSlice : json -> list string -> res (option (list string));
  NestedMap : json -> list string -> res (option (gmap string json));
  NestedStringMap : json -> list string -> res (option (gmap string string));
  (** The object is changed in place; here the changed one is returned. *)
  SetNestedField : json -> json -> list string -> res json;
  SetNestedMap : json -> gmap string json -> list string -> res json;
  SetNestedStringMap : json -> gmap string string -> list string -> res json;
  SetNestedSlice : json -> list json -> list string -> res json;
  (** [SetAPIVersion], [SetKind], [SetName] and [SetNamespace] on an empty object. *)
  new_object : string -> string -> string -> string -> json;
  GetKind : json -> string;
  GetAPIVersion : json -> string;
  GetName : json -> string;
  GetNamespace : json -> string;
  GetLabels : json -> gmap string string;
  SetLabels : json -> gmap string string -> json;
}.

Class UnstructuredLaws (U : Unstructured) : Prop := {
  NestedString_at j path : same_res (NestedString j path) (nested_as as_string j path);
  NestedInt64_at j path : same_res (NestedInt64 j path) (nested_as as_int64 j path);
  NestedSlice_at j path : same_res (NestedSlice j path) (nested_as as_slice j path);
  NestedStringSlice_at j path : same_res (NestedStringSlice j path) (nested_as as_string_slice j path);
  NestedMap_at j path : same_res (NestedMap j path) (nested_as as_map j path);
  NestedStringMap_at j path : same_res (NestedStringMap j path) (nested_as as_string_map j path);
  SetNestedField_at j v path : same_res (SetNestedField j v path) (set_field_at j path v);
  SetNestedMap_at j m path : same_res (SetNestedMap j m path) (set_field_at j path (JObj m));
  SetNestedStringMap_at j m path : same_res (SetNestedStringMap j m path) (set_field_at j path (JObj (JStr <$> m)));
  SetNestedSlice_at j l path : same_res (SetNestedSlice j l path) (set_field_at j path (JArr l));
  new_object_at v k n ns : v ≠ "" -> k ≠ "" -> n ≠ "" -> new_object v k n ns = header_object v k n ns;
  GetKind_at u : GetKind u = string_at u ["kind"];
  GetAPIVersion_at u : GetAPIVersion u = string_at u ["apiVersion"];
  GetName_at u : GetName u = string_at u ["metadata"; "name"];
  GetNamespace_at u : GetNamespace u = string_at u ["metadata"; "namespace"];
  GetLabels_at u : GetLabels u = labels_at u;
  SetLabels_at u labels : labels ≠ ∅ -> SetLabels u labels = with_labels u labels;
}.

#[export] Instance path_unstructured : Unstructured := {|
  NestedString := nested_as as_string;
  NestedInt64 := nested_as as_int64;
  NestedSlice := nested_as as_slice;
  NestedStringSlice := nested_as as_string_slice;
  NestedMap := nested_as as_map;
  NestedStringMap := nested_as as_string_map;
  SetNestedField j v path := set_field_at j path v;
  SetNestedMap j m path := set_field_at j path (JObj m);
  SetNestedStringMap j m path := set_field_at j path (JObj (JStr <$> m));
  SetNestedSlice j l path := set_field_at j path (JArr l);
  new_object := header_object;
  GetKind u := string_at u ["kind"];
  GetAPIVersion u := string_at u ["apiVersion"];
  GetName u := string_at u ["metadata"; "name"];
  GetNamespace u := string_at u ["metadata"; "namespace"];
  GetLabels := labels_at;
  SetLabels := with_labels;
|}.

#[export] Instance path_unstructured_laws : UnstructuredLaws path_unstructured.
Proof. split; intros; reflexivity. Qed.

(** ** Lemmas *)

Lemma obj_lookup fields k : at_path (obj fields) [k] = list_to_map (M := gmap string json) fields !! k.
Proof. simpl. by destruct (list_to_map fields !! k). Qed.

Lemma at_path_app j p q : at_path j (p ++ q) = at_path j p ≫= (fun j' => at_path j' q).
Proof.
  revert j; induction p as [|f p IH]; intros j; [done|]. simpl.
  destruct j; try done. destruct (m !! f); simpl; [apply IH|done].
Qed.

Lemma nested_field_found j path : found (nested_field j path) = at_path j path.
Proof.
  revert j; induction path as [|f path IH]; intros j; [done|]. simpl.
  destruct j; try done. destruct (m !! f); simpl; [apply IH|done].
Qed.

Lemma nested_field_some j path v : nested_field j path = Ok (Some v) <-> at_path j path = Some v.
Proof.
  rewrite <- nested_field_found. destruct (nested_field j path) as [x|e]; simpl; [|done].
  split; [by intros [= ->]|by intros ->].
Qed.

Lemma nested_as_found {A} (cast : json -> option A) j path :
  found (nested_as cast j path) = at_path j path ≫= cast.
Proof.
  rewrite <- nested_field_found. unfold nested_as. destruct (nested_field j path) as [[v|]|e]; simpl; [|done..].
  by destruct (cast v).
Qed.

Lemma nested_as_some {A} (cast : json -> option A) j path a :
  nested_as cast j path = Ok (Some a) <-> exists v, at_path j path = Some v /\ cast v = Some a.
Proof.
  unfold nested_as. setoid_rewrite <- nested_field_some. destruct (nested_field j path) as [[v|]|e].
  - destruct (cast v) as [b|] eqn:E.
    + split; [intros [= ->]; by exists v|]. intros (w & [= <-] & Hw). congruence.
    + split; [done|]. intros (w & [= <-] & Hw). congruence.
  - split; [done|]. by intros (w & ? & _).
  - split; [done|]. by intros (w & ? & _).
Qed.

Lemma nested_as_none {A} (cast : json -> option A) j path : nested_as cast j path = Ok None -> at_path j path = None.
Proof.
  rewrite <- nested_field_found. unfold nested_as. destruct (nested_field j path) as [[v|]|e]; [|done..].
  by destruct (cast v).
Qed.

(** Setting and reading. *)
Lemma set_field_get j path v j' : set_field_at j path v = Ok j' -> at_path j' path = Some v.
Proof.
  revert j j'; induction path as [|f path IH]; intros j j'; simpl; [by intros [= ->]|].
  destruct j; try done. destruct (set_field_at _ path v) as [x|e] eqn:E; [|done].
  intros [= <-]. rewrite lookup_insert_eq. simpl. by apply (IH _ _ E).
Qed.

(** The first field in which two paths differ comes before the end of both. *)
Fixpoint diverge (p q : list string) : bool :=
  match p, q with
  | a :: p, b :: q => if String.eqb a b then diverge p q else true
  | _, _ => false
  end.

Lemma at_path_empty path : path ≠ [] -> at_path (JObj ∅) path = None.
Proof. destruct path; [done|]. intros _. simpl. by rewrite lookup_empty. Qed.

Lemma set_field_other j path v j' q : set_field_at j path v = Ok j' -> diverge path q = true -> at_path j' q = at_path j q.
Proof.
  revert j j' q; induction path as [|f path IH]; intros j j' q; simpl; [done|].
  destruct j; try done. destruct (set_field_at _ path v) as [x|e] eqn:E; [|done].
  intros [= <-] Hd. destruct q as [|g q]; [done|]. simpl. destruct (String.eqb_spec f g) as [<-|Hne].
  - rewrite lookup_insert_eq. simpl. rewrite (IH _ _ _ E Hd). destruct (m !! f); [done|]. simpl.
    apply at_path_empty. by destruct path, q.
  - by rewrite lookup_insert_ne.
Qed.

(** Below the path, what was set. *)
Lemma set_field_below j path v j' q : set_field_at j path v = Ok j' -> at_path j' (path ++ q) = at_path v q.
Proof. intros Hs. rewrite at_path_app. by rewrite (set_field_get _ _ _ _ Hs). Qed.

Lemma set_field_is_obj j path v j' : path ≠ [] -> set_field_at j path v = Ok j' -> exists m, j' = JObj m.
Proof.
  destruct path as [|f path]; [done|]. intros _. simpl. destruct j; try done.
  destruct (set_field_at _ path v); [|done]. intros [= <-]. eauto.
Qed.

Lemma as_string_map_spec j m : as_string_map j = Some m <-> j = JObj (JStr <$> m).
Proof.
  destruct j as [| | | | | |o]; unfold as_string_map; simpl; try (split; [done|by intros [=]]).
  assert (forall o : gmap string json, all_strings o = true -> o = JStr <$> omap as_string o) as Ho.
  { intros o' Hall. apply map_eq. intros k. rewrite lookup_fmap, lookup_omap.
    destruct (o' !! k) as [v|] eqn:E; [|done]. simpl.
    unfold all_strings in Hall. rewrite forallb_forall in Hall.
    specialize (Hall (k, v)). destruct v; try (by discriminate Hall; apply list_elem_of_In, elem_of_map_to_list); done. }
  split.
  - destruct (all_strings o) eqn:Ha; [|done]. intros [= <-]. f_equal. by apply Ho.
  - intros [= ->]. assert (all_strings (JStr <$> m) = true) as ->.
    { unfold all_strings. apply forallb_forall. intros [k v] Hin%list_elem_of_In%elem_of_map_to_list. simpl in *.
      rewrite lookup_fmap in Hin. destruct (m !! k); [|done]. simpl in Hin. by injection Hin as <-. }
    f_equal. apply map_eq. intros k. rewrite lookup_omap, lookup_fmap. by destruct (m !! k).
Qed.

(** The accessors by their laws: what a successful call means. *)
Section laws.
Context `{!Unstructured, !UnstructuredLaws _}.

Lemma same_res_ok {A} (x y : res A) a : same_res x y -> x = Ok a -> y = Ok a.
Proof. destruct x, y; simpl; try done. congruence. Qed.

Lemma SetNestedField_ok j v path j' : SetNestedField j v path = Ok j' -> set_field_at j path v = Ok j'.
Proof. apply same_res_ok, SetNestedField_at. Qed.
Lemma SetNestedMap_ok j m path j' : SetNestedMap j m path = Ok j' -> set_field_at j path (JObj m) = Ok j'.
Proof. apply same_res_ok, SetNestedMap_at. Qed.
Lemma SetNestedStringMap_ok j m path j' : SetNestedStringMap j m path = Ok j' -> set_field_at j path (JObj (JStr <$> m)) = Ok j'.
Proof. apply same_res_ok, SetNestedStringMap_at. Qed.
Lemma SetNestedSlice_ok j l path j' : SetNestedSlice j l path = Ok j' -> set_field_at j path (JArr l) = Ok j'.
Proof. apply same_res_ok, SetNestedSlice_at. Qed.

Lemma NestedMap_ok j path x : NestedMap j path = Ok x -> nested_as as_map j path = Ok x.
Proof. apply same_res_ok, NestedMap_at. Qed.
Lemma NestedStringMap_ok j path x : NestedStringMap j path = Ok x -> nested_as as_string_map j path = Ok x.
Proof. apply same_res_ok, NestedStringMap_at. Qed.
Lemma NestedSlice_ok j path x : NestedSlice j path = Ok x -> nested_as as_slice j path = Ok x.
Proof. apply same_res_ok, NestedSlice_at. Qed.

(** A string map that was found is the value at the path. *)
Lemma NestedStringMap_some j path m : NestedStringMap j path = Ok (Some m) -> at_path j path = Some (JObj (JStr <$> m)).
Proof. intros (v & Hv & Hm%as_string_map_spec)%NestedStringMap_ok%nested_as_some. congruence. Qed.
Lemma NestedMap_some j path m : NestedMap j path = Ok (Some m) -> at_path j path = Some (JObj m).
Proof. intros (v & Hv & Hm)%NestedMap_ok%nested_as_some. destruct v; try done. by injection Hm as ->. Qed.
Lemma NestedSlice_some j path l : NestedSlice j path = Ok (Some l) -> at_path j path = Some (JArr l).
Proof. intros (v & Hv & Hm)%NestedSlice_ok%nested_as_some. destruct v; try done. by injection Hm as ->. Qed.
End laws.
