(* ===== verification/Api.v ===== *)
(** * The API objects of the engine

    The structs of engine/pkg/apis/{apps,storage}/v1alpha1 and of the scheduling
    configuration, field by field; the Kubernetes structs they embed, with the
    fields the modelled code reads; and the Kubernetes functions the code calls,
    which are parameters ([Kubernetes]) with their documented behaviour
    ([KubernetesLaws]).  A pointer that may be nil is an [option], a nil or empty
    slice is [[]], a nil or empty map is the empty [gmap]. *)

From S2P Require Import Prelude.

(** ** Kubernetes structs (k8s.io/api/core/v1, k8s.io/apimachinery) *)

Record Taint := mkTaint { taint_Key : string; taint_Value : string; taint_Effect : string }.

Record Toleration := mkToleration {
  tol_Key : string; tol_Operator : string; tol_Value : string; tol_Effect : string }.

Record NodeSelectorRequirement := mkReq {
  req_Key : string; req_Operator : string; req_Values : list string }.

Record NodeSelectorTerm := mkTerm {
  MatchExpressions : list NodeSelectorRequirement;
  MatchFields : list NodeSelectorRequirement }.

Record PreferredSchedulingTerm := mkPreferred {
  pref_Weight : Z; pref_Preference : NodeSelectorTerm }.

(** [Required] is [RequiredDuringSchedulingIgnoredDuringExecution], a pointer
    to a NodeSelector, whose only field is [NodeSelectorTerms]. *)
Record NodeAffinity := mkNodeAffinity {
  Required : option (list NodeSelectorTerm);
  Preferred : list PreferredSchedulingTerm }.

Record Condition := mkCondition {
  cond_Type : string; cond_Status : string; cond_Reason : string; cond_Message : string;
  cond_ObservedGeneration : Z; cond_LastTransitionTime : Z }.

Record Container (Q : Type) := mkContainer { Requests : gmap string Q }.
Arguments mkContainer {Q}. Arguments Requests {Q}.

(** Of a volume, the claim name when its source is a PersistentVolumeClaim. *)
Record Volume := mkVolume { PersistentVolumeClaim : option string }.

Record PodTemplateSpec (Q : Type) := mkPodTemplate {
  Containers : list (Container Q); InitContainers : list (Container Q); Volumes : list Volume }.
Arguments mkPodTemplate {Q}. Arguments Containers {Q}.
Arguments InitContainers {Q}. Arguments Volumes {Q}.

Inductive IntOrString := IntVal (z : Z) | StrVal (s : string).

(** ** Kubernetes functions *)

Class Kubernetes := {
  (** [resource.Quantity] and its methods; [DeepCopy] is the identity of values. *)
  Quantity : Type;
  qty_zero : Quantity;
  qty_Add : Quantity -> Quantity -> Quantity;
  qty_Sub : Quantity -> Quantity -> Quantity;
  qty_Cmp : Quantity -> Quantity -> Z;
  qty_IsZero : Quantity -> bool;
  qty_Sign : Quantity -> Z;
  qty_Value : Quantity -> Z;
  qty_MilliValue : Quantity -> Z;
  (** [json.Unmarshal] into a PodTemplateSpec: [None] is an error. *)
  unmarshal_template : string -> option (PodTemplateSpec Quantity);
  (** [Taint.ToString] *)
  taint_ToString : Taint -> string;
  (** Types the scheduler carries without reading. *)
  LabelSelector : Type;
  EnvVar : Type;
  ResourceRequirements : Type;
}.

Definition ResourceList `{Kubernetes} : Type := gmap string Quantity.

(** A quantity is a fixed-point number: [qty_amt] is its value in units of
    10^-9, the finest the package keeps.  [MilliValue] rounds up. *)
Class KubernetesLaws (K : Kubernetes) := {
  qty_amt : Quantity -> Z;
  amt_zero : qty_amt qty_zero = 0;
  amt_Add a b : qty_amt (qty_Add a b) = qty_amt a + qty_amt b;
  amt_Sub a b : qty_amt (qty_Sub a b) = qty_amt a - qty_amt b;
  amt_Cmp a b : qty_Cmp a b = Z.sgn (qty_amt a - qty_amt b);
  amt_IsZero a : qty_IsZero a = (qty_amt a =? 0);
  amt_Sign a : qty_Sign a = Z.sgn (qty_amt a);
  amt_Value a : 0 <= qty_amt a -> qty_amt a <= 2 ^ 53 * 10 ^ 9 ->
    qty_Value a = (qty_amt a + 999999999) / 10 ^ 9;
  amt_Value_neg a : qty_amt a <= 0 -> qty_Value a <= 0;
  amt_MilliValue a : 0 <= qty_amt a -> qty_amt a <= 2 ^ 53 * 10 ^ 6 ->
    qty_MilliValue a = (qty_amt a + 999999) / 10 ^ 6;
}.

(** [list[name]] on a ResourceList: the zero quantity for an absent name. *)
Definition rl_get `{Kubernetes} (l : gmap string Quantity) (name : string) : Quantity :=
  default qty_zero (l !! name).

(** The amount of resource [name] in a list, 0 when it is absent. *)
Definition amount `{K : Kubernetes, !KubernetesLaws K} (l : gmap string Quantity) (name : string) : Z := qty_amt (rl_get l name).

Lemma amount_empty `{K : Kubernetes, !KubernetesLaws K} name : amount ∅ name = 0.
Proof. unfold amount, rl_get. rewrite lookup_empty. apply amt_zero. Qed.

Definition ResourceCPU : string := "cpu".
Definition ResourceMemory : string := "memory".

(** An error is its text; the functions of k8s.io/apimachinery/pkg/api/errors
    classify it, and wrapping it ([%w]) keeps its class. *)
Class ApiErrors := {
  IsNotFound : string -> bool;
  IsAlreadyExists : string -> bool;
  NewBadRequest : string -> string;
}.
Class ApiErrorsLaws (E : ApiErrors) : Prop := {
  IsNotFound_wrap prefix e : IsNotFound e = true -> IsNotFound (prefix +:+ e) = true;
}.

(** ** apps/v1alpha1: rollout_types.go *)

Record IstioTrafficRouting := mkIstio { VirtualService : string; DestinationRule : string }.
Record NginxTrafficRouting := mkNginx { AnnotationPrefix : string; Ingress : string }.
Record TrafficRouting := mkTraffic {
  Istio : option IstioTrafficRouting; Nginx : option NginxTrafficRouting }.

Record RolloutPause := mkPause { Duration : option Z }.
Record CanaryStep := mkStep { step_Weight : Z; step_Pause : option RolloutPause }.

Record ClusterReplicaWeight := mkClusterWeight { crw_ClusterName : string; crw_Weight : Z }.

Record GlobalReplicaDistribution := mkDistribution {
  Mode : string; ClusterWeights : list ClusterReplicaWeight; MaxUnavailable : option Z }.

Definition DistributionModeEqual : string := "Equal".
Definition DistributionModeWeighted : string := "Weighted".
Definition DistributionModeSequential : string := "Sequential".

Record CanaryStrategy := mkCanary {
  Steps : list CanaryStep;
  canary_TrafficRouting : option TrafficRouting;
  canary_GlobalReplicaDistribution : option GlobalReplicaDistribution }.

Record BlueGreenStrategy := mkBlueGreen {
  ActiveService : string; PreviewService : string;
  AutoPromotionEnabled : bool; ScaleDownDelaySeconds : Z }.

Record ABTestStrategy := mkABTest {
  BaselineCluster : string; CandidateClusters : list string; TrafficSplit : Z }.

Record ClusterOrder := mkClusterOrder { order_Type : string; order_Clusters : list string }.

Definition ClusterOrderSequential : string := "Sequential".
Definition ClusterOrderParallel : string := "Parallel".

Definition RolloutTypeCanary : string := "Canary".
Definition RolloutTypeBlueGreen : string := "BlueGreen".
Definition RolloutTypeABTest : string := "ABTest".

Record RolloutStrategy := mkRolloutStrategy {
  rs_Type : string;
  rs_Canary : option CanaryStrategy;
  rs_BlueGreen : option BlueGreenStrategy;
  rs_ABTest : option ABTestStrategy;
  rs_ClusterOrder : option ClusterOrder;
  rs_Paused : bool;
  rs_Rollback : bool }.

Definition RolloutPhaseInitial : string := "Initial".
Definition RolloutPhaseProgressing : string := "Progressing".
Definition RolloutPhasePaused : string := "Paused".
Definition RolloutPhaseSucceeded : string := "Succeeded".
Definition RolloutPhaseFailed : string := "Failed".

Record RolloutStatus := mkRolloutStatus {
  ro_Phase : string; ro_CurrentStep : Z; ro_CurrentStepWeight : Z;
  ro_StableReplicas : Z; ro_CanaryReplicas : Z; ro_UpdatedReplicas : Z;
  ro_ReadyReplicas : Z; ro_Message : string; ro_LastUpdateTime : Z }.

(** ** apps/v1alpha1: application_types.go *)

(** The phases are Go string types: the empty string is the unset phase. *)
Definition Pending : string := "Pending".
Definition Scheduling : string := "Scheduling".
Definition Scheduled : string := "Scheduled".
Definition Descheduling : string := "Descheduling".
Definition Failed : string := "Failed".

Definition Healthy : string := "Healthy".
Definition Progressing : string := "Progressing".
Definition Degraded : string := "Degraded".
Definition Unknown : string := "Unknown".

Record ClusterStatus := mkClusterStatus {
  cs_ClusterName : string; cs_Phase : string; cs_Replicas : Z; cs_ReadyReplicas : Z;
  cs_AvailableReplicas : Z; cs_Message : string; cs_Rollout : option RolloutStatus }.

Record JobAttributes := mkJobAttributes {
  Completions : option Z; Parallelism : option Z; BackoffLimit : option Z;
  TTLSecondsAfterFinished : option Z; SuccessfulJobsHistoryLimit : option Z;
  FailedJobsHistoryLimit : option Z }.

Record WorkloadGVK := mkGVK { APIVersion : string; Kind : string }.

Record ResiliencyPolicy := mkResiliency {
  MinAvailable : option IntOrString; res_MaxUnavailable : option IntOrString }.

Record ClusterTopology := mkTopology { ct_Name : string; ct_Replicas : Z }.

#[export] Instance ClusterTopology_eq_dec : EqDecision ClusterTopology.
Proof. solve_decision. Defined.

Record PolicyOverride `{Kubernetes} := mkOverride {
  ov_ClusterSelector : option LabelSelector; ov_Image : string; ov_Env : list EnvVar;
  ov_Resources : option ResourceRequirements; ov_Command : list string; ov_Args : list string }.

Record ApplicationSpec `{Kubernetes} := mkAppSpec {
  Workload : WorkloadGVK;
  Selector : option LabelSelector;
  spec_Replicas : option Z;
  Template : string;                        (* the bytes of RawExtension.Raw *)
  Schedule : string;
  Suspend : option bool;
  spec_JobAttributes : option JobAttributes;
  ClusterAffinity : option NodeAffinity;
  ClusterTolerations : list Toleration;
  Overrides : list PolicyOverride;
  Resiliency : option ResiliencyPolicy;
  spec_RolloutStrategy : option RolloutStrategy }.

(** [PlacementStatus] has the single field [Topology], kept here directly. *)
Record ApplicationStatus := mkAppStatus {
  SchedulingPhase : string;
  HealthPhase : string;
  GlobalReadyReplicas : Z;
  GlobalReplicas : Z;
  Topology : list ClusterTopology;
  AppliedClusters : list string;
  ClustersStatus : list ClusterStatus;
  ObservedGeneration : Z;
  Conditions : list Condition }.

(** Of the embedded TypeMeta and ObjectMeta, what an owner reference names and
    what the life cycle of the object is kept in. *)
Record ObjectIdentity := mkIdentity {
  id_APIVersion : string; id_Kind : string; id_UID : string;
  id_Deleting : bool;                       (* DeletionTimestamp != nil *)
  id_Finalizers : list string;
  id_Generation : Z }.

Definition no_identity : ObjectIdentity := mkIdentity "" "" "" false [] 0.

Record Application `{Kubernetes} := mkApplication {
  app_Identity : ObjectIdentity;
  app_Name : string;
  app_Namespace : string;
  app_ResourceVersion : string;
  app_Labels : gmap string string;
  app_Annotations : gmap string string;
  Spec : ApplicationSpec;
  Status : ApplicationStatus }.

(** ** storage/v1alpha1: types.go *)

Record ResourceSummary `{Kubernetes} := mkSummary {
  Allocatable : gmap string Quantity;
  Allocating : gmap string Quantity;
  Allocated : gmap string Quantity }.

Record ClusterAddon := mkClusterAddon {
  ca_Name : string; ca_Enabled : bool; ca_Config : gmap string string }.
Record AddonStatus := mkAddonStatus { as_Name : string; as_State : string; as_Message : string }.

Record NodeSummary := mkNodeSummary { TotalNum : Z; ReadyNum : Z }.

(** How a cluster is reached (metadata and spec), and what is known of it (status). *)
Record ClusterAccess := mkAccess {
  mc_Annotations : gmap string string;
  ConnectionMode : string;
  APIServer : string;
  SecretRef : option string;                (* the name in the LocalObjectReference *)
  mc_Addons : list ClusterAddon }.
Record ClusterCondition := mkClusterState {
  State : string;
  ID : string;
  APIServerURL : string;
  LastKeepAliveTime : option Z;
  mc_AddonStatus : list AddonStatus;
  mc_NodeSummary : list NodeSummary }.

Definition no_access : ClusterAccess := mkAccess ∅ "" "" None [].
Definition no_state : ClusterCondition := mkClusterState "" "" "" None [] [].

(** Of a ManagedCluster, the metadata, spec and status the engine reads. *)
Record ManagedCluster `{Kubernetes} := mkCluster {
  mc_Name : string;
  mc_Labels : gmap string string;
  mc_Deleting : bool;                       (* DeletionTimestamp != nil *)
  mc_Taints : list Taint;
  mc_ResourceSummary : list ResourceSummary;
  mc_Conditions : list Condition;
  mc_Access : ClusterAccess;
  mc_State : ClusterCondition }.

Arguments mkOverride {_}. Arguments mkAppSpec {_}. Arguments mkApplication {_}.
Arguments mkSummary {_}. Arguments mkCluster {_}.

(** [app.Status = st] and [app.ObjectMeta]'s life cycle. *)
Definition with_status `{Kubernetes} (app : Application) (st : ApplicationStatus) : Application :=
  mkApplication (app_Identity app) (app_Name app) (app_Namespace app) (app_ResourceVersion app)
    (app_Labels app) (app_Annotations app) (Spec app) st.
Definition with_identity `{Kubernetes} (app : Application) (id : ObjectIdentity) : Application :=
  mkApplication id (app_Name app) (app_Namespace app) (app_ResourceVersion app)
    (app_Labels app) (app_Annotations app) (Spec app) (Status app).

(** [fmt.Sprintf("%s/%s", app.Namespace, app.Name)] *)
Definition appKey `{Kubernetes} (app : Application) : string :=
  app_Namespace app +:+ "/" +:+ app_Name app.

(** [app.Spec.Replicas], 1 when it is nil. *)
Definition desired_replicas `{Kubernetes} (app : Application) : Z :=
  default 1 (spec_Replicas (Spec app)).

(** ** A concrete Kubernetes for the witnesses: quantities in units of 10^-9 and
    a template decoder that knows a few templates by name *)

Definition cpu_request (q : Z) : Container Z := mkContainer {[ "cpu" := q * 10 ^ 9 ]}.

#[export] Instance sample_kubernetes : Kubernetes := {|
  Quantity := Z;
  qty_zero := 0;
  qty_Add := Z.add;
  qty_Sub := Z.sub;
  qty_Cmp a b := Z.sgn (a - b);
  qty_IsZero a := a =? 0;
  qty_Sign := Z.sgn;
  qty_Value a := (a + 999999999) / 10 ^ 9;
  qty_MilliValue a := (a + 999999) / 10 ^ 6;
  unmarshal_template s :=
    if decide (s = "one-cpu") then Some (mkPodTemplate [cpu_request 1] [] [])
    else if decide (s = "two-cpu") then Some (mkPodTemplate [cpu_request 1; cpu_request 1] [] [])
    else if decide (s = "pvc") then Some (mkPodTemplate [cpu_request 1] [] [mkVolume (Some "data")])
    else None;
  taint_ToString t := taint_Key t +:+ "=" +:+ taint_Value t +:+ ":" +:+ taint_Effect t;
  LabelSelector := list (string * string);
  EnvVar := string * string;
  ResourceRequirements := Z;
|}.

(** The texts of apimachinery. *)
Fixpoint has_suffix (suffix s : string) : bool :=
  String.eqb s suffix || match s with EmptyString => false | String _ s' => has_suffix suffix s' end.

#[export] Instance sample_errors : ApiErrors := {|
  IsNotFound e := has_suffix "not found" e;
  IsAlreadyExists e := has_suffix "already exists" e;
  NewBadRequest text := text +:+ ".";
|}.

#[export] Instance sample_errors_laws : ApiErrorsLaws sample_errors.
Proof.
  split. intros prefix e He. induction prefix as [|c prefix IH]; [exact He|]. simpl in *. by rewrite IH, orb_true_r.
Qed.

#[export] Instance sample_kubernetes_laws : KubernetesLaws sample_kubernetes.
Proof.
  exists (fun z : Z => z); simpl; intros; try done.
  enough ((a + 999999999) / 10 ^ 9 < 1) by lia. apply Z.div_lt_upper_bound; lia.
Defined.

(** An application with [n] replicas of [template] and the given placement. *)
Definition sample_app (kind template : string) (n : Z) (placed : list ClusterTopology) : Application :=
  mkApplication no_identity "web" "team" "1" ∅ ∅
    (mkAppSpec (mkGVK "apps/v1" kind) None (Some n) template "" None None None [] [] None None)
    (mkAppStatus "" "" 0 0 placed [] [] 0 []).

Definition sample_cluster (name : string) (labels : gmap string string) (cpu : Z) : ManagedCluster :=
  mkCluster name labels false []
    [mkSummary {[ "cpu" := cpu * 10 ^ 9; "memory" := 10 ^ 12 ]} ∅ {[ "cpu" := 0; "memory" := 0 ]}] [] no_access no_state.
