(* ===== verification/Clients.v ===== *)
(** * The API servers

    The hub's API server and the API servers of the managed clusters, as the code
    reaches them through sigs.k8s.io/controller-runtime/pkg/client.  Every call may
    find the objects changed by others, and may change them, so that every call
    gives a new state. *)

From S2P Require Import Prelude Api Json.

(** ** The hub, as the scheduler uses it *)

Class ApiClient `{Kubernetes, ApiErrors} := {
  api : Type;
  api_Get : string -> string -> api -> api * res Application;      (* namespace, name *)
  api_List : api -> api * res (list Application);
  api_StatusUpdate : Application -> api -> api * option string;    (* the error, if any *)
  api_GetCluster : string -> api -> api * res ManagedCluster;
}.

(** A read by name returns an object of that name. *)
Class ApiClientLaws `{Kubernetes, ApiErrors} (A : ApiClient) : Prop := {
  api_Get_key : forall ns name w w' app, api_Get ns name w = (w', Ok app) ->
    app_Namespace app = ns /\ app_Name app = name;
  api_GetCluster_name : forall name w w' cluster, api_GetCluster name w = (w', Ok cluster) -> mc_Name cluster = name;
}.

(** ** The managed clusters, a client for each *)

Class ClusterClients `{ApiErrors} := {
  remote : Type;
  GetClient : string -> remote -> remote * option string;           (* the error, if any *)
  rc_Create : string -> json -> remote -> remote * option string;
  rc_Update : string -> json -> remote -> remote * option string;
  rc_Delete : string -> json -> remote -> remote * option string;
  rc_Get : string -> string -> string -> string -> string -> remote -> remote * res json;
                                       (* cluster, apiVersion, kind, namespace, name *)
}.

(** ** What the application controller reads and writes *)

Class HubWriter `{Kubernetes, ApiErrors} (A : ApiClient) := {
  api_Update : Application -> api -> api * option string;
  (** [Status().Update], which leaves the object as stored in its argument. *)
  api_StatusWrite : Application -> api -> api * res Application;
  (** [Status().Patch(app, client.MergeFrom(base))]: base and changed object. *)
  api_StatusPatch : Application -> Application -> api -> api * option string;
  (** [Status().Patch(patch, client.Apply)]: namespace, name, conditions, field owner. *)
  api_StatusApply : string -> string -> list Condition -> string -> api -> api * option string;
}.

(** What is written is what is stored: the write fails when the object has changed
    since it was read. *)
Class HubWriterLaws `{Kubernetes, ApiErrors} {A : ApiClient} (W : HubWriter A) : Prop := {
  api_StatusWrite_stored app w w' app' : api_StatusWrite app w = (w', Ok app') ->
    app_Name app' = app_Name app /\ app_Namespace app' = app_Namespace app /\ app_Labels app' = app_Labels app /\
    Spec app' = Spec app /\ Status app' = Status app;
}.

Record PodDisruptionBudget := mkPDB {
  pdb_Name : string; pdb_Namespace : string; pdb_Labels : gmap string string;
  pdb_MinAvailable : option IntOrString; pdb_MaxUnavailable : option IntOrString;
  pdb_MatchLabels : gmap string string }.

Class ClusterWriter `{Kubernetes, ApiErrors} (R : ClusterClients) := {
  (** [Patch(u, client.Apply, FieldOwner, ForceOwnership)] *)
  rc_Apply : string -> json -> remote -> remote * option string;
  (** [ctrl.CreateOrUpdate(cli, pdb, mutate)] *)
  rc_CreateOrUpdate : string -> PodDisruptionBudget -> (PodDisruptionBudget -> PodDisruptionBudget) ->
    remote -> remote * option string;
  (** Whether the client of a cluster is the hub's own. *)
  is_hub_client : string -> bool;
  (** [controllerutil.SetControllerReference] *)
  SetControllerReference : Application -> json -> res json;
}.

(** An owner reference is metadata. *)
Class ClusterWriterLaws `{Kubernetes, ApiErrors} {R : ClusterClients} (W : ClusterWriter R) : Prop := {
  SetControllerReference_spec app u u' path : SetControllerReference app u = Ok u' ->
    diverge ["metadata"] path = true -> at_path u' path = at_path u path;
}.

(** k8s.io/apimachinery/pkg/api/meta: conditions by their type; controllerutil:
    the finalizers of an object. *)
Class ObjectHelpers := {
  FindStatusCondition : list Condition -> string -> option Condition;
  SetStatusCondition : list Condition -> Condition -> list Condition;
  ContainsFinalizer : list string -> string -> bool;
  AddFinalizer : list string -> string -> list string;
  RemoveFinalizer : list string -> string -> list string;
}.

Class ObjectHelpersLaws (S : ObjectHelpers) : Prop := {
  find_set_same conditions c : exists c', FindStatusCondition (SetStatusCondition conditions c) (cond_Type c) = Some c' /\
    cond_Status c' = cond_Status c /\ cond_Reason c' = cond_Reason c /\ cond_Message c' = cond_Message c;
  find_set_other conditions c type : type ≠ cond_Type c ->
    FindStatusCondition (SetStatusCondition conditions c) type = FindStatusCondition conditions type;
  contains_finalizer l f : ContainsFinalizer l f = true <-> f ∈ l;
  add_finalizer_elem l f g : g ∈ AddFinalizer l f <-> g = f \/ g ∈ l;
  remove_finalizer_elem l f g : g ∈ RemoveFinalizer l f <-> g ≠ f /\ g ∈ l;
}.

(** ** The world of a controller: the hub and the clusters *)

Record world `{Kubernetes, ApiErrors, !ApiClient, !ClusterClients} := mkWorld { w_hub : api; w_fleet : remote }.
Arguments mkWorld {_ _ _ _}.

Section world.
Context `{Kubernetes, ApiErrors, !ApiClient, !ClusterClients}.

Definition on_hub {X} (f : api -> api * X) (w : world) : world * X :=
  let '(h, x) := f (w_hub w) in (mkWorld h (w_fleet w), x).
Definition on_fleet {X} (f : remote -> remote * X) (w : world) : world * X :=
  let '(r, x) := f (w_fleet w) in (mkWorld (w_hub w) r, x).

Lemma call_fleet {X} (f : remote -> remote * X) w r x : f (w_fleet w) = (r, x) ->
  call (on_fleet f) w = Ret (mkWorld (w_hub w) r, Ok x).
Proof. unfold call, on_fleet. by intros ->. Qed.
Lemma call_hub {X} (f : api -> api * X) w h x : f (w_hub w) = (h, x) ->
  call (on_hub f) w = Ret (mkWorld h (w_fleet w), Ok x).
Proof. unfold call, on_hub. by intros ->. Qed.
End world.

(** ** Instances for the witnesses *)

(** The API server as the list of its applications; its clusters are [a]
    and [b]. *)
#[export] Instance sample_api : @ApiClient sample_kubernetes sample_errors := {|
  api := list Application;
  api_Get ns name apps :=
    (apps, match filter (fun a => app_Namespace a = ns /\ app_Name a = name) apps with
           | a :: _ => Ok a
           | [] => Err "not found"
           end);
  api_List apps := (apps, Ok apps);
  api_StatusUpdate app apps :=
    ((fun a => if decide (appKey a = appKey app) then app else a) <$> apps, None);
  api_GetCluster name apps :=
    (apps, match filter (fun c => mc_Name c = name)
             [sample_cluster "a" {[ "zone" := "z1" ]} 8; sample_cluster "b" {[ "zone" := "z2" ]} 8] with
           | c :: _ => Ok c
           | [] => Err "not found"
           end);
|}.

#[export] Instance sample_api_laws : ApiClientLaws sample_api.
Proof.
  split; simpl.
  - intros ns name w w' app [= _ Hg].
    destruct (filter (fun a => app_Namespace a = ns /\ app_Name a = name) w) as [|x xs] eqn:E; [discriminate Hg|].
    injection Hg as <-. assert (x ∈ filter (fun a => app_Namespace a = ns /\ app_Name a = name) w) as Hx
      by (rewrite E; by left). by apply list_elem_of_filter in Hx as [? _].
  - intros name w w' cluster [= _ Hg].
    destruct (filter _ _) as [|x xs] eqn:E; [discriminate Hg|]. injection Hg as <-.
    assert (x ∈ x :: xs) as Hx by by left. rewrite <- E in Hx. by apply list_elem_of_filter in Hx as [? _].
Qed.

#[export] Instance sample_hub_writer : HubWriter sample_api := {|
  api_Update app apps := ((fun a => if decide (appKey a = appKey app) then app else a) <$> apps, None);
  api_StatusWrite app apps := ((fun a => if decide (appKey a = appKey app) then app else a) <$> apps, Ok app);
  api_StatusPatch base app apps := ((fun a => if decide (appKey a = appKey app) then app else a) <$> apps, None);
  api_StatusApply ns name conditions owner apps := (apps, None);
|}.

#[export] Instance sample_hub_writer_laws : HubWriterLaws sample_hub_writer.
Proof. split. by intros app w w' app' [= _ <-]. Qed.

(** Conditions by their type, the last one set first. *)
#[export] Instance sample_helpers : ObjectHelpers := {|
  FindStatusCondition conditions type := head (filter (fun c => cond_Type c = type) conditions);
  SetStatusCondition conditions c := c :: filter (fun d => cond_Type d ≠ cond_Type c) conditions;
  ContainsFinalizer l f := bool_decide (f ∈ l);
  AddFinalizer l f := if decide (f ∈ l) then l else l ++ [f];
  RemoveFinalizer l f := filter (fun g => g ≠ f) l;
|}.

#[export] Instance sample_helpers_laws : ObjectHelpersLaws sample_helpers.
Proof.
  split; simpl.
  - intros conditions c. exists c. by rewrite filter_cons_True.
  - intros conditions c type Hne. rewrite filter_cons_False by done. f_equal. rewrite list_filter_filter.
    apply list_filter_iff. naive_solver.
  - intros l f. apply bool_decide_eq_true.
  - intros l f g. case_decide; set_solver.
  - intros l f g. by rewrite list_elem_of_filter.
Qed.
