(* ===== verification/Manifest.v ===== *)
(** * The workload of an application on a cluster

    engine/pkg/util/labels/labels.go, application/overrides/overrides.go and the
    functions of application/controller.go that build the object sent to a cluster:
    from the template and the attributes of the application, its stable identity,
    and the overrides for the cluster.  An [*unstructured.Unstructured] is changed
    in place; here each function returns the changed object. *)

From S2P Require Import Prelude GoRuntime Json Api.

(** ** labels.go *)

Definition ManagedByKey : string := "app.kubernetes.io/managed-by".
Definition ManagedByValue : string := "kumquat".
Definition ApplicationIDKey : string := "kumquat.io/application-id".
Definition WorkspaceIDKey : string := "kumquat.io/workspace-id".
Definition ModuleIDKey : string := "kumquat.io/module-id".
Definition ProjectIDKey : string := "kumquat.io/project-id".

(** [m[key]] of a map of strings: the empty string for an absent key. *)
Definition get_str (m : gmap string string) (key : string) : string := default "" (m !! key).

(** The labels an object has after [AddManagedBy] and [CopyBusinessIdentity]. *)
Definition AddManagedBy (labels : gmap string string) : gmap string string :=
  <[ManagedByKey := ManagedByValue]> labels.

(** The keys with a value are copied. *)
Definition copy_keys (src : gmap string string) (keys : list string) (dst : gmap string string) : gmap string string :=
  foldl (fun values key => if String.eqb (get_str src key) "" then values else <[key := get_str src key]> values) dst keys.

Definition CopyBusinessIdentity (dst src : gmap string string) : gmap string string :=
  <[ManagedByKey := ManagedByValue]>
    (copy_keys src [ApplicationIDKey; WorkspaceIDKey; ModuleIDKey; ProjectIDKey] dst).

(** [None] is the nil map. *)
Definition ImmutablePodIdentity (src : gmap string string) : option (gmap string string) :=
  if existsb (fun key => String.eqb (get_str src key) "") [ApplicationIDKey; WorkspaceIDKey] then None
  else Some (<[ManagedByKey := ManagedByValue]>
    (foldl (fun m key => <[key := get_str src key]> m) ∅ [ApplicationIDKey; WorkspaceIDKey])).

(** ** Conversions of the API machinery *)

Class Conversions `{Kubernetes} := {
  (** [json.Unmarshal] into a map; a RawExtension never holds the literal null. *)
  unmarshal_object : string -> res (gmap string json);
  (** [runtime.DefaultUnstructuredConverter.ToUnstructured] *)
  selector_map : LabelSelector -> res (gmap string json);
  env_map : EnvVar -> res (gmap string json);
  resources_map : ResourceRequirements -> res (gmap string json);
  env_Name : EnvVar -> string;
  (** [metav1.LabelSelectorAsSelector], then [Matches] *)
  selector_Matches : LabelSelector -> res (gmap string string -> bool);
}.

(** The name of a variable is always in its map. *)
Class ConversionsLaws `{Kubernetes} (C : Conversions) : Prop := {
  env_map_name e m : env_map e = Ok m -> m !! "name" = Some (JStr (env_Name e));
}.

(** ** overrides.go *)

Section overrides.
Context `{Kubernetes, Unstructured, !Conversions}.

Definition matchesCluster (selector : option LabelSelector) (clusterLabels : gmap string string) : res bool :=
  match selector with
  | None => Ok true
  | Some selector => s ← selector_Matches selector; Ok (s clusterLabels)
  end.

(** The name of an element that is a map with a string name. *)
Definition env_name (e : json) : option string :=
  match e with JObj em => em !! "name" ≫= as_string | _ => None end.

(** The first element of the name is replaced. *)
Fixpoint replace_env (name : string) (overrideMap : json) (result : list json) : list json :=
  match result with
  | [] => []
  | e :: rest =>
      if decide (env_name e = Some name) then overrideMap :: rest
      else e :: replace_env name overrideMap rest
  end.

(** The keys of [envMap] are the names known so far. *)
Fixpoint merge_env_loop (envMap : gmap string ()) (result : list json) (overrides : list EnvVar) : res (list json) :=
  match overrides with
  | [] => Ok result
  | override :: rest =>
      overrideMap ← env_map override;
      let name := env_Name override in
      match envMap !! name with
      | Some _ => merge_env_loop envMap (replace_env name (JObj overrideMap) result) rest
      | None => merge_env_loop (<[name := tt]> envMap) (result ++ [JObj overrideMap]) rest
      end
  end.

Definition mergeEnv (current : list json) (overrides : list EnvVar) : res (list json) :=
  let result := filter (fun e => is_Some (env_name e)) current in
  let envMap := foldl (fun m name => <[name := tt]> m) (∅ : gmap string ()) (omap env_name current) in
  merge_env_loop envMap result overrides.

Definition containers_path : list string := ["spec"; "template"; "spec"; "containers"].

(** The fields of the first container that an override changes. *)
Definition override_container (override : PolicyOverride) (container : gmap string json) : res (gmap string json) :=
  let container := if String.eqb (ov_Image override) "" then container
                   else <["image" := JStr (ov_Image override)]> container in
  let container := match ov_Command override with
                   | [] => container
                   | command => <["command" := JArr (JStr <$> command)]> container
                   end in
  let container := match ov_Args override with
                   | [] => container
                   | args => <["args" := JArr (JStr <$> args)]> container
                   end in
  container ← match ov_Env override with
              | [] => Ok container
              | env =>
                  newEnv ← mergeEnv (default [] (found (NestedSlice (JObj container) ["env"]))) env;
                  Ok (<["env" := JArr newEnv]> container)
              end;
  match ov_Resources override with
  | None => Ok container
  | Some resources => resMap ← resources_map resources; Ok (<["resources" := JObj resMap]> container)
  end.

(** The first container has to be a map: the type assertion panics otherwise. *)
Definition applyOverride (u : json) (override : PolicyOverride) : outcome (res json) :=
  match NestedSlice u containers_path with
  | Ok (Some (first :: others)) =>
      match first with
      | JObj container =>
          Ret (container ← override_container override container;
               SetNestedSlice u (JObj container :: others) containers_path)
      | _ => Panic
      end
  | _ => Ret (Ok u)
  end.

Fixpoint apply_overrides (u : json) (overrides : list PolicyOverride) (clusterLabels : gmap string string)
    : outcome (res json) :=
  match overrides with
  | [] => Ret (Ok u)
  | override :: rest =>
      match matchesCluster (ov_ClusterSelector override) clusterLabels with
      | Err e => Ret (Err e)
      | Ok false => apply_overrides u rest clusterLabels
      | Ok true =>
          match applyOverride u override with
          | Ret (Ok u) => apply_overrides u rest clusterLabels
          | r => r
          end
      end
  end.

Definition ApplyOverrides (u : json) (app : Application) (clusterLabels : gmap string string) : outcome (res json) :=
  apply_overrides u (Overrides (Spec app)) clusterLabels.
End overrides.

(** ** controller.go: configureWorkload *)

Section workload.
Context `{GoRuntime, Kubernetes, ApiErrors, Unstructured, !Conversions}.

Definition template_path (kind : string) : list string :=
  if String.eqb kind "CronJob" then ["spec"; "jobTemplate"; "spec"; "template"] else ["spec"; "template"].
Definition labels_path (kind : string) : list string := template_path kind ++ ["metadata"; "labels"].
Definition selector_path : list string := ["spec"; "selector"].

(** The kinds with a selector. *)
Definition selector_kind (kind : string) : bool :=
  existsb (String.eqb kind) ["Deployment"; "StatefulSet"; "DaemonSet"; "ReplicaSet"].

Definition stable_keys : list string := [ApplicationIDKey; WorkspaceIDKey; ManagedByKey].

(** [{"matchLabels": {...}}] of the stable keys that have a value. *)
Definition stable_match (labels : gmap string string) : gmap string json :=
  JStr <$> copy_keys labels stable_keys ∅.
Definition match_selector (match_labels : gmap string json) : json := obj [("matchLabels", JObj match_labels)].

(** [found && len(m) > 0] *)
Definition nonempty (m : option (gmap string json)) : option (gmap string json) :=
  m ≫= fun m => if decide (m = ∅) then None else Some m.

Definition infer_selector (u : json) (kind : string) : res json :=
  match found (NestedStringMap u (labels_path kind)) with
  | None => Ok u
  | Some templateLabels =>
      match nonempty (found (NestedMap u selector_path)) with
      | Some _ => Ok u
      | None =>
          let matchLabels := stable_match templateLabels in
          if negb (bool_decide (matchLabels = ∅)) && selector_kind kind
          then SetNestedField u (match_selector matchLabels) selector_path
          else Ok u
      end
  end.

(** [if v != nil { SetNestedField(u.Object, int64 of v, fields...) }] *)
Definition set_int (u : json) (v : option Z) (fields : list string) : res json :=
  match v with Some z => SetNestedField u (JInt z) fields | None => Ok u end.

Definition applyJobAttributes (u : json) (attrs : JobAttributes) (fields : list string) : res json :=
  u ← set_int u (Completions attrs) (fields ++ ["completions"]);
  u ← set_int u (Parallelism attrs) (fields ++ ["parallelism"]);
  u ← set_int u (BackoffLimit attrs) (fields ++ ["backoffLimit"]);
  set_int u (TTLSecondsAfterFinished attrs) (fields ++ ["ttlSecondsAfterFinished"]).

Definition applyCronJobAttributes (u : json) (attrs : JobAttributes) : res json :=
  u ← set_int u (SuccessfulJobsHistoryLimit attrs) ["spec"; "successfulJobsHistoryLimit"];
  set_int u (FailedJobsHistoryLimit attrs) ["spec"; "failedJobsHistoryLimit"].

Definition configure_cronjob (u : json) (spec : ApplicationSpec) : res json :=
  u ← (if String.eqb (Schedule spec) "" then Ok u
       else SetNestedField u (JStr (Schedule spec)) ["spec"; "schedule"]);
  match spec_JobAttributes spec with
  | None => Ok u
  | Some attrs =>
      u ← applyJobAttributes u attrs ["spec"; "jobTemplate"; "spec"];
      applyCronJobAttributes u attrs
  end.

Definition configure_job (u : json) (spec : ApplicationSpec) : res json :=
  u ← match spec_JobAttributes spec with
      | None => Ok u
      | Some attrs => applyJobAttributes u attrs ["spec"]
      end;
  match spec_JobAttributes spec ≫= Parallelism with
  | Some _ => Ok u
  | None => set_int u (spec_Replicas spec) ["spec"; "parallelism"]
  end.

Definition configure_replicated (u : json) (kind : string) (spec : ApplicationSpec) (ordinalStart : Z) : res json :=
  u ← match Selector spec with
      | None => Ok u
      | Some selector =>
          selectorMap ← selector_map selector;
          SetNestedField u (JObj selectorMap) selector_path
      end;
  u ← (if String.eqb kind "DaemonSet" then Ok u else set_int u (spec_Replicas spec) ["spec"; "replicas"]);
  if String.eqb kind "StatefulSet" && (0 <? ordinalStart)
  then SetNestedField u (JInt ordinalStart) ["spec"; "ordinals"; "start"]
  else Ok u.

Definition configure_kind (u : json) (kind : string) (spec : ApplicationSpec) (ordinalStart : Z) : res json :=
  if String.eqb kind "CronJob" then configure_cronjob u spec
  else if String.eqb kind "Job" then configure_job u spec
  else configure_replicated u kind spec ordinalStart.

Definition configureWorkload (u : json) (spec : ApplicationSpec) (ordinalStart : Z) : res json :=
  templateMap ← unmarshal_object (Template spec);
  let kind := GetKind u in
  u ← SetNestedField u (JObj templateMap) (template_path kind);
  u ← infer_selector u kind;
  u ← configure_kind u kind spec ordinalStart;
  match Suspend spec with
  | None => Ok u
  | Some suspend => SetNestedField u (JBool suspend) ["spec"; "suspend"]
  end.

(** ** controller.go: configureImmutablePodIdentity *)

(** [operator] over the labels; a value of another type is the zero string. *)
Definition selectorExpressionMatches (expression : gmap string json) (labels : gmap string string) : bool :=
  let key := default "" (expression !! "key" ≫= as_string) in
  let operator := default "" (expression !! "operator" ≫= as_string) in
  let values := default [] (found (NestedStringSlice (JObj expression) ["values"])) in
  let exists_ := match labels !! key with Some _ => true | None => false end in
  let contains := existsb (String.eqb (get_str labels key)) values in
  if String.eqb operator "In" then exists_ && contains
  else if String.eqb operator "NotIn" then negb exists_ || negb contains
  else if String.eqb operator "Exists" then exists_
  else if String.eqb operator "DoesNotExist" then negb exists_
  else false.

(** [for key, value := range m { current[key] = value }] *)
Definition set_all (site : nat) (m current : gmap string string) : gmap string string :=
  foldl (fun current kv => <[kv.1 := kv.2]> current) current (go_range site m).

Definition expression_ok (labels : gmap string string) (raw : json) : bool :=
  match raw with JObj expression => selectorExpressionMatches expression labels | _ => false end.

(** The labels of the pods once the selector is known. *)
Definition selected_labels (selector : gmap string json) (current : gmap string string) : res (gmap string string) :=
  matchLabels ← NestedStringMap (JObj selector) ["matchLabels"];
  let matchLabels := default ∅ matchLabels in
  match list_find (fun key => is_Some (matchLabels !! key)) [ModuleIDKey; ProjectIDKey] with
  | Some (_, key) => Err (NewBadRequest ("unsupported live workload selector contains mutable ownership label " +:+ key))
  | None =>
      let current := set_all 101 matchLabels current in
      expressions ← NestedSlice (JObj selector) ["matchExpressions"];
      if forallb (expression_ok current) (default [] expressions) then Ok current
      else Err (NewBadRequest "unsupported live workload selector expression")
  end.

Definition configureImmutablePodIdentity (u : json) (identity : option (gmap string string)) : res json :=
  let identity := default ∅ identity in
  if String.eqb (get_str identity ApplicationIDKey) "" || String.eqb (get_str identity WorkspaceIDKey) ""
  then Err (NewBadRequest "application-id and workspace-id labels are required stable identities")
  else
    let path := labels_path (GetKind u) in
    current ← NestedStringMap u path;
    let current := delete ProjectIDKey (delete ModuleIDKey (default ∅ current)) in
    let current := set_all 100 identity current in
    u ← SetNestedStringMap u current path;
    if selector_kind (GetKind u) then
      selector ← NestedMap u selector_path;
      match nonempty selector with
      | Some selector =>
          current ← selected_labels selector current;
          SetNestedStringMap u current path
      | None => SetNestedField u (match_selector (stable_match identity)) selector_path
      end
    else Ok u.
End workload.

(** ** Properties of overrides *)

Lemma get_str_insert m k v k' : get_str (<[k := v]> m) k' = if decide (k = k') then v else get_str m k'.
Proof. unfold get_str. rewrite lookup_insert. by case_decide. Qed.

Lemma get_str_copy_keys src keys dst k :
  get_str (copy_keys src keys dst) k =
  if bool_decide (k ∈ keys) && negb (String.eqb (get_str src k) "") then get_str src k else get_str dst k.
Proof.
  unfold copy_keys. revert dst; induction keys as [|key keys IH]; intros dst; [done|]. cbn [foldl]. rewrite IH. clear IH.
  destruct (decide (key = k)) as [->|Hne].
  - rewrite (bool_decide_eq_true_2 (k ∈ k :: keys)) by set_solver. simpl.
    destruct (String.eqb_spec (get_str src k) "") as [E|E]; simpl; [by rewrite andb_false_r|].
    rewrite get_str_insert, decide_True by done. by case_bool_decide.
  - rewrite (bool_decide_ext (k ∈ key :: keys) (k ∈ keys)) by set_solver.
    destruct (String.eqb (get_str src key) ""); [done|]. by rewrite get_str_insert, decide_False.
Qed.

Section env.
Context `{K : Kubernetes, U : Unstructured, !UnstructuredLaws U, C : !Conversions, !ConversionsLaws C}.
Implicit Types (result current : list json) (overrides : list EnvVar).

(** The first variable of a name. *)
Definition env_lookup (name : string) (l : list json) : option json :=
  head (filter (fun e => env_name e = Some name) l).

Lemma env_lookup_cons name e l :
  env_lookup name (e :: l) = if decide (env_name e = Some name) then Some e else env_lookup name l.
Proof. unfold env_lookup. rewrite filter_cons. by case_decide. Qed.

Lemma env_lookup_app name l k :
  env_lookup name (l ++ k) = match env_lookup name l with Some e => Some e | None => env_lookup name k end.
Proof. induction l as [|e l IH]; [done|]. rewrite <- app_comm_cons, !env_lookup_cons. by case_decide. Qed.

Lemma env_lookup_None name l : env_lookup name l = None <-> name ∉ omap env_name l.
Proof.
  induction l as [|e l IH]; [split; [intros _; apply not_elem_of_nil|done]|].
  rewrite env_lookup_cons. cbn. destruct (env_name e) as [n|] eqn:E; case_decide; simplify_eq; [set_solver|..|done].
  - rewrite IH, not_elem_of_cons. naive_solver.
Qed.

Lemma replace_env_names name m result : env_name m = Some name ->
  omap env_name (replace_env name m result) = omap env_name result.
Proof.
  intros Hm. induction result as [|e result IH]; [done|]. cbn [replace_env]. case_decide as E; cbn.
  - by rewrite Hm, E.
  - by rewrite IH.
Qed.

Lemma replace_env_lookup name m result n : env_name m = Some name -> name ∈ omap env_name result ->
  env_lookup n (replace_env name m result) = if decide (n = name) then Some m else env_lookup n result.
Proof.
  intros Hm. induction result as [|e result IH]; [by intros ?%elem_of_nil|]. cbn [replace_env].
  destruct (decide (env_name e = Some name)) as [E|E].
  - intros _. rewrite !env_lookup_cons, Hm, E. repeat case_decide; congruence.
  - rewrite !env_lookup_cons. intros Hin. rewrite IH.
    + repeat case_decide; congruence.
    + cbn in Hin. destruct (env_name e) eqn:Ee; [|done]. apply elem_of_cons in Hin as [->|]; [done|done].
Qed.

Lemma replace_env_named name m result : env_name m = Some name ->
  Forall (fun e => is_Some (env_name e)) result -> Forall (fun e => is_Some (env_name e)) (replace_env name m result).
Proof.
  intros Hm. induction 1 as [|e l He Hl IH]; [constructor|]. cbn [replace_env].
  case_decide; constructor; auto.
Qed.

(** The variables set by a list of overrides: the last of a name wins. *)
Definition override_lookup (name : string) (overrides : list EnvVar) : option EnvVar :=
  last (filter (fun o => env_Name o = name) overrides).

Lemma override_lookup_cons name o overrides :
  override_lookup name (o :: overrides) =
  match override_lookup name overrides with
  | Some x => Some x
  | None => if decide (env_Name o = name) then Some o else None
  end.
Proof.
  unfold override_lookup. rewrite filter_cons. destruct (decide (env_Name o = name)); [|by destruct (last _)].
  destruct (filter (fun o => env_Name o = name) overrides) as [|x l]; [done|].
  change (last (o :: x :: l)) with (last (x :: l)). destruct (last (x :: l)) eqn:L; [done|]. by apply last_None in L.
Qed.

Lemma env_map_env_name o m : env_map o = Ok m -> env_name (JObj m) = Some (env_Name o).
Proof. intros Hm. simpl. by rewrite (env_map_name _ _ Hm). Qed.

Lemma merge_env_loop_spec envMap result overrides out :
  merge_env_loop envMap result overrides = Ok out ->
  (forall n, is_Some (envMap !! n) <-> n ∈ omap env_name result) ->
  Forall (fun e => is_Some (env_name e)) result ->
  (forall n, match override_lookup n overrides with
             | Some o => exists m, env_map o = Ok m /\ env_lookup n out = Some (JObj m)
             | None => env_lookup n out = env_lookup n result
             end) /\
  Forall (fun e => is_Some (env_name e)) out /\
  exists added, omap env_name out = omap env_name result ++ added /\ NoDup added /\
    forall n, n ∈ added -> n ∉ omap env_name result.
Proof.
  revert envMap result; induction overrides as [|o overrides IH]; intros envMap result; cbn [merge_env_loop].
  { intros [= <-] _ Hf. split_and!; [done|done|]. exists []. rewrite app_nil_r.
    split_and!; [done|apply NoDup_nil_2|by intros n ?%elem_of_nil]. }
  intros (m & Hm & Hl)%res_bind_ok Henv Hf. pose proof (env_map_env_name _ _ Hm) as Hname.
  destruct (envMap !! env_Name o) as [[]|] eqn:E.
  - assert (env_Name o ∈ omap env_name result) as Hin by (by apply Henv; rewrite E).
    destruct (IH _ _ Hl) as (H1 & H2 & H3).
    { intros n. by rewrite replace_env_names. }
    { by apply replace_env_named. }
    rewrite replace_env_names in H3 by done. split_and!; [|done|done].
    intros n. specialize (H1 n). rewrite override_lookup_cons. destruct (override_lookup n overrides); [done|].
    rewrite H1, replace_env_lookup by done. destruct (decide (env_Name o = n)) as [<-|Hne].
    + exists m. by rewrite decide_True.
    + by rewrite decide_False by congruence.
  - assert (env_Name o ∉ omap env_name result) as Hnin by (rewrite <- Henv, E; by intros [? ?]).
    assert (omap env_name (result ++ [JObj m]) = omap env_name result ++ [env_Name o]) as Happ.
    { rewrite omap_app. f_equal. change (omap env_name [JObj m]) with (match env_name (JObj m) with Some x => [x] | None => [] end).
      by rewrite Hname. }
    destruct (IH _ _ Hl) as (H1 & H2 & added & H3 & H4 & H5).
    { intros n. rewrite Happ, elem_of_app, list_elem_of_singleton, <- Henv, lookup_insert_is_Some. naive_solver. }
    { apply Forall_app. split; [done|]. repeat constructor. by rewrite Hname. }
    rewrite Happ in H3, H5. rewrite <- app_assoc in H3. split_and!; [|done|].
    + intros n. specialize (H1 n). rewrite override_lookup_cons. destruct (override_lookup n overrides); [done|].
      rewrite H1, env_lookup_app, env_lookup_cons, Hname. destruct (decide (env_Name o = n)) as [<-|Hne].
      * exists m. rewrite decide_True by done. by rewrite (proj2 (env_lookup_None _ _) Hnin).
      * rewrite decide_False by congruence. by destruct (env_lookup n result).
    + exists (env_Name o :: added). split_and!; [done| |].
      * apply NoDup_cons. split; [|done]. intros Hx. apply (H5 _ Hx). set_solver.
      * intros n [->|Hx]%elem_of_cons; [done|]. specialize (H5 _ Hx). set_solver.
Qed.

Lemma filter_named_omap current : omap env_name (filter (fun e => is_Some (env_name e)) current) = omap env_name current.
Proof.
  induction current as [|e l IH]; [done|]. rewrite filter_cons. cbn. case_decide as Hs.
  - cbn. by rewrite IH.
  - destruct (env_name e); [by destruct Hs|done].
Qed.

Lemma filter_named_lookup n current :
  env_lookup n (filter (fun e => is_Some (env_name e)) current) = env_lookup n current.
Proof.
  induction current as [|e l IH]; [done|]. rewrite filter_cons. case_decide as Hs.
  - by rewrite !env_lookup_cons, IH.
  - rewrite env_lookup_cons, decide_False; [done|]. intros E. destruct Hs. by rewrite E.
Qed.

Lemma env_index names n : is_Some (foldl (fun m name => <[name := tt]> m) (∅ : gmap string ()) names !! n) <-> n ∈ names.
Proof.
  pose proof (map_of_is_Some (fun s : string => s) (fun _ => tt) names n) as Hm. rewrite list_fmap_id in Hm. exact Hm.
Qed.

(** Merging the environment of an override: a name set by the override has its
    last value there, any other name the value it had; elements without a name are
    dropped; the names that were there stay in their order, and the new ones follow,
    once each. *)
Theorem mergeEnv_spec current overrides out : mergeEnv current overrides = Ok out ->
  (forall n, match override_lookup n overrides with
             | Some o => exists m, env_map o = Ok m /\ env_lookup n out = Some (JObj m)
             | None => env_lookup n out = env_lookup n current
             end) /\
  Forall (fun e => is_Some (env_name e)) out /\
  exists added, omap env_name out = omap env_name current ++ added /\ NoDup added /\
    forall n, n ∈ added -> n ∉ omap env_name current.
Proof.
  intros Hm. destruct (merge_env_loop_spec _ _ _ _ Hm) as (H1 & H2 & H3).
  - intros n. by rewrite filter_named_omap, env_index.
  - apply Forall_forall. by intros e [? _]%list_elem_of_filter.
  - rewrite filter_named_omap in H3. split_and!; [|done|done].
    intros n. specialize (H1 n). by rewrite filter_named_lookup in H1.
Qed.
End env.

(** An override changes the containers only: whatever lies elsewhere is kept. *)
Section frame.
Context `{K : Kubernetes, U : Unstructured, !UnstructuredLaws U, C : !Conversions}.

Lemma applyOverride_frame u override u' path : applyOverride u override = Ret (Ok u') ->
  diverge containers_path path = true -> at_path u' path = at_path u path.
Proof.
  unfold applyOverride. intros Ha Hd.
  destruct (NestedSlice u containers_path) as [[[|[] others]|]|e]; try done; try (by injection Ha as ->).
  injection Ha as (c' & _ & Hs%SetNestedSlice_ok)%res_bind_ok. by apply (set_field_other _ _ _ _ _ Hs).
Qed.

Lemma apply_overrides_frame u overrides clusterLabels u' path :
  apply_overrides u overrides clusterLabels = Ret (Ok u') ->
  diverge containers_path path = true -> at_path u' path = at_path u path.
Proof.
  revert u; induction overrides as [|o overrides IH]; intros u; cbn [apply_overrides]; [by intros [= ->]|].
  destruct (matchesCluster _ _) as [[]|e]; [|apply IH|done].
  destruct (applyOverride u o) as [[u1|e]|] eqn:Ea; [|done..]. intros Ho Hd.
  rewrite (IH _ Ho Hd). by apply (applyOverride_frame _ _ _ _ Ea).
Qed.

(** The image of the last matching override that has one. *)
Definition image_override (overrides : list PolicyOverride) (clusterLabels : gmap string string) : option string :=
  last (omap (fun o => match matchesCluster (ov_ClusterSelector o) clusterLabels with
    | Ok true => if String.eqb (ov_Image o) "" then None else Some (ov_Image o)
    | _ => None end) overrides).

(** The fields an override may set. *)
Definition override_fields : list string := ["image"; "command"; "args"; "env"; "resources"].

Lemma override_container_spec o c c' : override_container o c = Ok c' ->
  c' !! "image" = (if String.eqb (ov_Image o) "" then c !! "image" else Some (JStr (ov_Image o))) /\
  forall key, key ∉ override_fields -> c' !! key = c !! key.
Proof.
  unfold override_container. set (c1 := if String.eqb (ov_Image o) "" then _ else _).
  set (c2 := match ov_Command o with [] => _ | _ => _ end). set (c3 := match ov_Args o with [] => _ | _ => _ end).
  intros (c4 & H4 & H5)%res_bind_ok.
  assert (forall key, key ≠ "command" -> key ≠ "args" -> key ≠ "env" -> key ≠ "resources" -> c' !! key = c1 !! key) as Hk.
  { intros key ????. trans (c4 !! key).
    - destruct (ov_Resources o); [|by injection H5 as ->]. apply res_bind_ok in H5 as (m & _ & [= <-]). by rewrite lookup_insert_ne.
    - trans (c3 !! key).
      + destruct (ov_Env o); [by injection H4 as ->|]. apply res_bind_ok in H4 as (m & _ & [= <-]). by rewrite lookup_insert_ne.
      + unfold c3, c2. destruct (ov_Args o), (ov_Command o); by rewrite ?lookup_insert_ne. }
  split.
  - rewrite Hk by done. unfold c1. destruct (String.eqb (ov_Image o) ""); [done|apply lookup_insert_eq].
  - intros key Hn. unfold override_fields in Hn. rewrite Hk by set_solver. unfold c1.
    destruct (String.eqb (ov_Image o) ""); [done|]. apply lookup_insert_ne. set_solver.
Qed.

(** An override changes the first container only: its image is that of the last
    override for the cluster that has one, the fields no override is about are those
    of the template, and so are the other containers. *)
Theorem ApplyOverrides_first_container u app clusterLabels u' c others :
  at_path u containers_path = Some (JArr (JObj c :: others)) ->
  ApplyOverrides u app clusterLabels = Ret (Ok u') ->
  exists c', at_path u' containers_path = Some (JArr (JObj c' :: others)) /\
    c' !! "image" = match image_override (Overrides (Spec app)) clusterLabels with
                    | Some image => Some (JStr image)
                    | None => c !! "image"
                    end /\
    forall key, key ∉ override_fields -> c' !! key = c !! key.
Proof.
  unfold ApplyOverrides. generalize (Overrides (Spec app)) as ovs. intros ovs. revert u c.
  induction ovs as [|o ovs IH]; intros u c Hu; cbn [apply_overrides]; [intros [= <-]; eauto|].
  assert (image_override (o :: ovs) clusterLabels =
    match image_override ovs clusterLabels with Some image => Some image
    | None => match matchesCluster (ov_ClusterSelector o) clusterLabels with
              | Ok true => if String.eqb (ov_Image o) "" then None else Some (ov_Image o) | _ => None end end) as ->.
  { unfold image_override. cbn [omap list_omap]. destruct (matchesCluster _ _) as [[]|e]; [|by destruct (last _)..].
    destruct (String.eqb (ov_Image o) ""); [by destruct (last _)|]. rewrite last_cons. by destruct (last _). }
  destruct (matchesCluster _ _) as [[]|e]; [|intros H; destruct (IH _ _ Hu H) as (c' & H1 & H2 & H3);
    exists c'; rewrite H2; by destruct (image_override ovs clusterLabels)|done].
  assert (NestedSlice u containers_path = Ok (Some (JObj c :: others))) as Hn.
  { pose proof (NestedSlice_at u containers_path) as Hs. rewrite (proj2 (nested_as_some as_slice u containers_path (JObj c :: others))) in Hs.
    - destruct (NestedSlice u containers_path); simpl in Hs; [by subst|done].
    - by exists (JArr (JObj c :: others)). }
  unfold applyOverride. rewrite Hn. destruct (override_container o c) as [c1|e] eqn:Ec; [|done]. cbn.
  destruct (SetNestedSlice _ _ _) as [u1|e] eqn:Es; [|done]. apply SetNestedSlice_ok, set_field_get in Es.
  intros H. destruct (IH _ _ Es H) as (c' & Hc & Hi & Hk). destruct (override_container_spec _ _ _ Ec) as [Hi1 Hk1].
  exists c'. split; [done|]. rewrite Hi, Hi1. split; [|intros key ?; by rewrite Hk, Hk1].
  by destruct (image_override ovs clusterLabels), (String.eqb (ov_Image o) "").
Qed.

(** Without containers at the path, nothing is overridden. *)
Lemma apply_overrides_no_containers u overrides clusterLabels : at_path u containers_path = None ->
  apply_overrides u overrides clusterLabels = Ret (Ok u) \/
  exists e, apply_overrides u overrides clusterLabels = Ret (Err e).
Proof.
  intros Hn. induction overrides as [|o overrides IH]; cbn [apply_overrides]; [by left|].
  destruct (matchesCluster _ _) as [[]|e]; [|exact IH|right; by exists e].
  replace (applyOverride u o) with (Ret (Ok u) : outcome (res json)); [exact IH|].
  unfold applyOverride. destruct (NestedSlice u containers_path) as [[l|]|e] eqn:E; [|done..].
  apply NestedSlice_some in E. by rewrite Hn in E.
Qed.
End frame.

(** ** Properties of the selector *)

(** What a label selector requirement asks for. *)
Definition requirement_holds (key operator : string) (values : list string) (labels : gmap string string) : Prop :=
  if String.eqb operator "In" then exists v, labels !! key = Some v /\ v ∈ values
  else if String.eqb operator "NotIn" then forall v, labels !! key = Some v -> v ∉ values
  else if String.eqb operator "Exists" then is_Some (labels !! key)
  else if String.eqb operator "DoesNotExist" then labels !! key = None
  else False.

(** The selector [{"matchLabels": ..., "matchExpressions": ...}] accepts the labels. *)
Definition selects (selector : gmap string json) (labels : gmap string string) : Prop :=
  (forall m, selector !! "matchLabels" = Some m -> exists ml, m = JObj (JStr <$> ml) /\ ml ⊆ labels) /\
  (forall l, selector !! "matchExpressions" = Some l -> exists es, l = JArr es /\
     forall e, e ∈ es -> exists expression, e = JObj expression /\
       requirement_holds (default "" (expression !! "key" ≫= as_string))
         (default "" (expression !! "operator" ≫= as_string))
         (default [] (expression !! "values" ≫= as_string_slice)) labels).

(** The labels a selector asks for. *)
Definition match_labels (selector : gmap string json) : gmap string string :=
  default ∅ (selector !! "matchLabels" ≫= as_string_map).

Section selector.
Context `{G : GoRuntime, !GoRuntimeLaws G, K : Kubernetes, Er : ApiErrors, U : Unstructured, !UnstructuredLaws U,
          C : !Conversions}.
Implicit Types (labels identity ml : gmap string string) (selector : gmap string json).

Lemma at_path_one (m : gmap string json) f : at_path (JObj m) [f] = m !! f.
Proof. simpl. by destruct (m !! f). Qed.

Lemma selectorExpressionMatches_iff expression labels :
  selectorExpressionMatches expression labels = true <->
  requirement_holds (default "" (expression !! "key" ≫= as_string))
    (default "" (expression !! "operator" ≫= as_string))
    (default [] (expression !! "values" ≫= as_string_slice)) labels.
Proof.
  unfold selectorExpressionMatches, requirement_holds.
  replace (found (NestedStringSlice (JObj expression) ["values"])) with (expression !! "values" ≫= as_string_slice)
    by (rewrite NestedStringSlice_at, nested_as_found, at_path_one; done).
  set (key := default "" (expression !! "key" ≫= as_string)). set (values := default [] _).
  set (op := default "" (expression !! "operator" ≫= as_string)). clearbody key values op.
  assert (forall v, existsb (String.eqb v) values = true <-> v ∈ values) as Hex.
  { intros v. rewrite existsb_exists. setoid_rewrite list_elem_of_In. setoid_rewrite String.eqb_eq. naive_solver. }
  unfold get_str. specialize (Hex (default "" (labels !! key))).
  assert (forall b : bool, negb b = true <-> ¬ b = true) as Hneg by (intros []; simpl; naive_solver).
  destruct (labels !! key) as [v|]; simpl in Hex |- *;
    (destruct (String.eqb op "In"); [|destruct (String.eqb op "NotIn"); [|destruct (String.eqb op "Exists");
      [|destruct (String.eqb op "DoesNotExist")]]]); simpl; rewrite ?Hneg, ?Hex.
  - split; [intros ?; by exists v|by intros (? & [= <-] & ?)].
  - split; [intros Hx x [= <-]; exact Hx|auto].
  - split; [intros _; by exists v|done].
  - by split.
  - by split.
  - by split; [|intros (? & ? & _)].
  - by split.
  - by split; [|intros [? ?]].
  - by split.
  - by split.
Qed.

Lemma set_all_union site labels current : set_all site labels current = labels ∪ current.
Proof.
  apply map_eq. intros k. unfold set_all.
  rewrite (foldl_insert_lookup (fun v : string => v)) by apply range_keys_NoDup. rewrite range_to_map.
  destruct (labels !! k) eqn:E; [by rewrite (lookup_union_Some_l _ _ _ _ E)|by rewrite lookup_union_r].
Qed.

Lemma match_labels_of selector x : NestedStringMap (JObj selector) ["matchLabels"] = Ok x ->
  default ∅ x = match_labels selector /\
  forall m, selector !! "matchLabels" = Some m -> m = JObj (JStr <$> match_labels selector).
Proof.
  intros H%NestedStringMap_ok. unfold match_labels. destruct x as [ml|].
  - apply nested_as_some in H as (v & Hv & Hm). rewrite at_path_one in Hv. rewrite Hv. simpl. rewrite Hm. split; [done|].
    intros m [= <-]. by apply as_string_map_spec.
  - apply nested_as_none in H. rewrite at_path_one in H. by rewrite H.
Qed.

(** The labels chosen for a selector satisfy it. *)
Lemma selected_labels_spec selector current labels : selected_labels selector current = Ok labels ->
  labels = match_labels selector ∪ current /\ selects selector labels /\
  match_labels selector !! ModuleIDKey = None /\ match_labels selector !! ProjectIDKey = None.
Proof.
  unfold selected_labels. intros (x & Hx & H)%res_bind_ok. destruct (match_labels_of _ _ Hx) as [Hml Heq].
  rewrite Hml in H.
  destruct (list_find (fun key => is_Some (match_labels selector !! key)) [ModuleIDKey; ProjectIDKey]) as [[i k]|] eqn:Ef;
    [done|].
  apply list_find_None in Ef. apply Forall_cons in Ef as [Hmod [Hproj _]%Forall_cons].
  apply res_bind_ok in H as (es & Hes & H). rewrite set_all_union in H.
  destruct (forallb _ _) eqn:Hall; [|done]. injection H as <-. split_and!; [done| |by apply eq_None_not_Some..].
  split.
  - intros m Hm. exists (match_labels selector). split; [by apply Heq|]. apply map_union_subseteq_l.
  - intros l Hl. apply NestedSlice_ok in Hes. destruct es as [es|].
    + apply nested_as_some in Hes as (v & Hv & Hs). rewrite at_path_one, Hl in Hv. injection Hv as <-.
      destruct l; try done. injection Hs as ->. exists es. split; [done|]. intros e He.
      rewrite forallb_forall in Hall. specialize (Hall e (proj1 (list_elem_of_In _ _) He)).
      destruct e as [| | | | | |expression]; try done. exists expression. split; [done|].
      by apply selectorExpressionMatches_iff.
    + apply nested_as_none in Hes. rewrite at_path_one, Hl in Hes. done.
Qed.

Lemma ImmutablePodIdentity_spec src identity : ImmutablePodIdentity src = Some identity ->
  identity = {[ ManagedByKey := ManagedByValue; WorkspaceIDKey := get_str src WorkspaceIDKey;
                ApplicationIDKey := get_str src ApplicationIDKey ]} /\
  get_str src ApplicationIDKey ≠ "" /\ get_str src WorkspaceIDKey ≠ "".
Proof.
  unfold ImmutablePodIdentity. cbn [existsb].
  destruct (String.eqb_spec (get_str src ApplicationIDKey) "") as [|H1]; [done|].
  destruct (String.eqb_spec (get_str src WorkspaceIDKey) "") as [|H2]; [done|]. simpl. intros [= <-]. split_and!; try done.
Qed.

Lemma GetKind_set u v path u' : set_field_at u path v = Ok u' -> diverge path ["kind"] = true -> GetKind u' = GetKind u.
Proof. intros Hs Hd. rewrite !GetKind_at. unfold string_at. by rewrite (set_field_other _ _ _ _ _ Hs Hd). Qed.

Lemma labels_path_diverge kind :
  diverge (labels_path kind) selector_path = true /\ diverge selector_path (labels_path kind) = true /\
  diverge (labels_path kind) ["kind"] = true.
Proof. unfold labels_path, template_path. by destruct (String.eqb kind "CronJob"). Qed.

Lemma get_str_stable identity k : identity !! k = Some (get_str identity k) \/ identity !! k = None.
Proof. unfold get_str. destruct (identity !! k); auto. Qed.

(** The labels before the selector is looked at. *)
Lemma identity_labels_spec identity (current : gmap string string) labels :
  identity !! ModuleIDKey = None -> identity !! ProjectIDKey = None ->
  labels = identity ∪ delete ProjectIDKey (delete ModuleIDKey current) ->
  labels !! ModuleIDKey = None /\ labels !! ProjectIDKey = None /\
  forall k, is_Some (identity !! k) -> labels !! k = identity !! k.
Proof.
  intros H1 H2 ->. split_and!.
  - rewrite lookup_union_r by done. rewrite lookup_delete_ne by done. apply lookup_delete_eq.
  - rewrite lookup_union_r by done. apply lookup_delete_eq.
  - intros k [v Hk]. rewrite Hk. by apply lookup_union_Some_l.
Qed.

Lemma nonempty_some (m : option (gmap string json)) x : nonempty m = Some x -> m = Some x /\ x ≠ ∅.
Proof. destruct m as [y|]; simpl; [|done]. case_decide; [done|]. by intros [= ->]. Qed.

Lemma identity_match_subseteq identity labels : (forall k, is_Some (identity !! k) -> labels !! k = identity !! k) ->
  copy_keys identity stable_keys ∅ ⊆ labels.
Proof.
  intros Hl. apply map_subseteq_spec. intros k v. unfold copy_keys, stable_keys. cbn [foldl].
  assert (forall key, get_str identity key ≠ "" -> labels !! key = Some (get_str identity key)) as Hkey.
  { intros key Hne. unfold get_str in *. destruct (identity !! key) eqn:E; [|done]. simpl in *. rewrite <- E. apply Hl. eauto. }
  repeat match goal with |- context [String.eqb ?a ""] => destruct (String.eqb_spec a "") end;
    rewrite ?lookup_insert_Some, ?lookup_empty; naive_solver.
Qed.

(** The selector made from the identity. *)
Lemma stable_match_selected identity labels : (forall k, is_Some (identity !! k) -> labels !! k = identity !! k) ->
  selects {[ "matchLabels" := JObj (stable_match identity) ]} labels /\
  match_labels {[ "matchLabels" := JObj (stable_match identity) ]} ∪ identity = identity.
Proof.
  intros Hl. split.
  - split; [|intros l; by rewrite lookup_singleton_ne]. intros m. rewrite lookup_singleton_eq. intros [= <-].
    exists (copy_keys identity stable_keys ∅). split; [done|]. by apply identity_match_subseteq.
  - unfold match_labels. rewrite lookup_singleton_eq. cbn [mbind option_bind].
    pose proof (proj2 (as_string_map_spec _ (copy_keys identity stable_keys ∅)) eq_refl) as E.
    unfold stable_match. rewrite E. cbn [default].
    by apply map_subseteq_union, identity_match_subseteq.
Qed.

(** Once the identity is configured, the pods carry it and no mutable ownership label;
    and a workload with a selector has one that accepts its own pods. *)
Definition identity_configured (u : json) (kind : string) (identity : gmap string string) : Prop :=
  exists labels, at_path u (labels_path kind) = Some (JObj (JStr <$> labels)) /\
    labels !! ModuleIDKey = None /\ labels !! ProjectIDKey = None /\
    if selector_kind kind
    then exists selector, at_path u selector_path = Some (JObj selector) /\ selects selector labels /\
           forall k, is_Some (identity !! k) -> labels !! k = (match_labels selector ∪ identity) !! k
    else forall k, is_Some (identity !! k) -> labels !! k = identity !! k.

(** Whatever template and selector a workload comes with, configuring its identity
    either fails or yields pods that carry the application's stable identity and no
    mutable ownership label, under a selector that accepts exactly these pods' labels;
    only a selector that names other values for the stable keys can replace them. *)
Lemma pod_identity_parts u src u' :
  configureImmutablePodIdentity u (ImmutablePodIdentity src) = Ok u' ->
  exists identity, ImmutablePodIdentity src = Some identity /\ identity_configured u' (GetKind u) identity.
Proof.
  unfold configureImmutablePodIdentity. intros H.
  destruct (ImmutablePodIdentity src) as [identity|] eqn:Eid; [|done]. cbn [default] in H.
  pose proof (ImmutablePodIdentity_spec _ _ Eid) as (Hid & _). exists identity. split; [done|].
  destruct (_ || _); [done|]. apply res_bind_ok in H as (cur & _ & H).
  rewrite set_all_union in H. cbn [id] in H.
  set (labels := identity ∪ delete ProjectIDKey (delete ModuleIDKey (default ∅ cur))) in H.
  destruct (identity_labels_spec identity (default ∅ cur) labels) as (Hm & Hp & Hk); [by rewrite Hid..|done|].
  apply res_bind_ok in H as (u1 & Hu1%SetNestedStringMap_ok & H).
  destruct (labels_path_diverge (GetKind u)) as (Hd1 & Hd2 & Hd3).
  rewrite (GetKind_set _ _ _ _ Hu1 Hd3) in H. pose proof (set_field_get _ _ _ _ Hu1) as Hl1.
  unfold identity_configured. destruct (selector_kind (GetKind u)); [|injection H as <-; by exists labels].
  apply res_bind_ok in H as (sel & Hsel & H). destruct (nonempty sel) as [selector|] eqn:Ene.
  - apply nonempty_some in Ene as [-> _]. apply NestedMap_some in Hsel.
    apply res_bind_ok in H as (labels' & (-> & Hs & Hm' & Hp')%selected_labels_spec & Hu'%SetNestedStringMap_ok).
    eexists. split; [apply (set_field_get _ _ _ _ Hu')|]. rewrite !lookup_union_r by done. split_and!; [done..|].
    exists selector. rewrite (set_field_other _ _ _ _ _ Hu' Hd1). split_and!; [done..|]. intros k Hik.
    destruct (match_labels selector !! k) eqn:E; [by rewrite !(lookup_union_Some_l _ _ _ _ E)|].
    rewrite !lookup_union_r by done. by apply Hk.
  - apply SetNestedField_ok in H. exists labels. rewrite (set_field_other _ _ _ _ _ H Hd2). split_and!; [done..|].
    exists {[ "matchLabels" := JObj (stable_match identity) ]}. split; [apply (set_field_get _ _ _ _ H)|].
    destruct (stable_match_selected identity labels Hk) as [Hs Hm2]. split_and!; [done|].
    intros k Hik. cbn [id]. rewrite Hm2. by apply Hk.
Qed.
End selector.

(** ** Properties of configureWorkload *)

(** A step that, when it succeeds, leaves the value at [q]. *)
Definition keeps (q : list string) (u : json) (m : res json) : Prop :=
  forall u', m = Ok u' -> at_path u' q = at_path u q.

Lemma keeps_ok q u : keeps q u (Ok u).
Proof. by intros u' [= ->]. Qed.
Lemma keeps_bind q u m (f : json -> res json) : keeps q u m -> (forall u1, keeps q u1 (f u1)) -> keeps q u (m ≫= f).
Proof. intros Hm Hf u' (u1 & H1 & H2)%res_bind_ok. by rewrite (Hf _ _ H2), (Hm _ H1). Qed.
Lemma keeps_of {A} q u (m : res A) (f : A -> res json) : (forall a, keeps q u (f a)) -> keeps q u (m ≫= f).
Proof. intros Hf u' (a & _ & H2)%res_bind_ok. by apply (Hf a). Qed.

Section configured.
Context `{G : GoRuntime, !GoRuntimeLaws G, K : Kubernetes, Er : ApiErrors, U : Unstructured, !UnstructuredLaws U,
          C : !Conversions}.
Implicit Types (u : json) (spec : ApplicationSpec) (q : list string).

Lemma keeps_set q u v path : diverge path q = true -> keeps q u (SetNestedField u v path).
Proof. intros Hd u' H%SetNestedField_ok. by apply (set_field_other _ _ _ _ _ H). Qed.

Lemma keeps_set_int q u v path : diverge path q = true -> keeps q u (set_int u v path).
Proof. intros Hd. destruct v; [by apply keeps_set|apply keeps_ok]. Qed.

Lemma keeps_job q u attrs fields :
  (forall f, f ∈ ["completions"; "parallelism"; "backoffLimit"; "ttlSecondsAfterFinished"] -> diverge (fields ++ [f]) q = true) ->
  keeps q u (applyJobAttributes u attrs fields).
Proof. intros Hd. repeat (apply keeps_bind; [|intros ?]); apply keeps_set_int, Hd; set_solver. Qed.

Lemma keeps_infer q u kind : diverge selector_path q = true -> keeps q u (infer_selector u kind).
Proof.
  intros Hd. unfold infer_selector. destruct (found (NestedStringMap _ _)); [|apply keeps_ok].
  destruct (nonempty _); [apply keeps_ok|]. destruct (_ && _); [by apply keeps_set|apply keeps_ok].
Qed.

(** Every path that configureWorkload writes, besides the template. *)
Definition attribute_paths : list (list string) :=
  [selector_path; ["spec"; "schedule"]; ["spec"; "jobTemplate"; "spec"; "completions"];
   ["spec"; "jobTemplate"; "spec"; "parallelism"]; ["spec"; "jobTemplate"; "spec"; "backoffLimit"];
   ["spec"; "jobTemplate"; "spec"; "ttlSecondsAfterFinished"]; ["spec"; "successfulJobsHistoryLimit"];
   ["spec"; "failedJobsHistoryLimit"]; ["spec"; "completions"]; ["spec"; "parallelism"]; ["spec"; "backoffLimit"];
   ["spec"; "ttlSecondsAfterFinished"]; ["spec"; "replicas"]; ["spec"; "ordinals"; "start"]; ["spec"; "suspend"]].

Definition apart (q : list string) : Prop := forall p, p ∈ attribute_paths -> diverge p q = true.

Lemma apart_in p q : apart q -> bool_decide (p ∈ attribute_paths) = true -> diverge p q = true.
Proof. intros Hq Hp. by apply Hq, (bool_decide_eq_true_1 _ Hp). Qed.

Lemma keeps_kind q u kind spec start : apart q -> keeps q u (configure_kind u kind spec start).
Proof.
  intros Hq. assert (forall p, bool_decide (p ∈ attribute_paths) = true -> diverge p q = true) as Hd
    by (intros p; by apply apart_in).
  assert (forall u attrs fields, (forall f, f ∈ ["completions"; "parallelism"; "backoffLimit"; "ttlSecondsAfterFinished"] ->
    bool_decide (fields ++ [f] ∈ attribute_paths) = true) -> keeps q u (applyJobAttributes u attrs fields)) as Hjob
    by (intros; apply keeps_job; auto).
  assert (forall f fields, f ∈ ["completions"; "parallelism"; "backoffLimit"; "ttlSecondsAfterFinished"] ->
    fields ∈ [["spec"]; ["spec"; "jobTemplate"; "spec"]] -> bool_decide (fields ++ [f] ∈ attribute_paths) = true) as Hin.
  { intros f fields Hf Hfs. repeat (apply elem_of_cons in Hf as [->|Hf]); try by apply elem_of_nil in Hf.
    all: repeat (apply elem_of_cons in Hfs as [->|Hfs]); try by apply elem_of_nil in Hfs. all: reflexivity. }
  unfold configure_kind. destruct (String.eqb kind "CronJob"); [|destruct (String.eqb kind "Job")].
  - apply keeps_bind; [destruct (String.eqb _ _); [apply keeps_ok|apply keeps_set, Hd; reflexivity]|]. intros u1.
    destruct (spec_JobAttributes spec) as [attrs|]; [|apply keeps_ok]. apply keeps_bind; [apply Hjob; intros; apply Hin; set_solver|].
    intros u2. apply keeps_bind; [|intros u3]; apply keeps_set_int, Hd; reflexivity.
  - apply keeps_bind; [destruct (spec_JobAttributes spec); [apply Hjob; intros; apply Hin; set_solver|apply keeps_ok]|].
    intros u1. destruct (_ ≫= Parallelism); [apply keeps_ok|apply keeps_set_int, Hd; reflexivity].
  - apply keeps_bind; [destruct (Selector spec); [apply keeps_of; intros m; apply keeps_set, Hd; reflexivity|apply keeps_ok]|].
    intros u1. apply keeps_bind; [destruct (String.eqb kind "DaemonSet"); [apply keeps_ok|apply keeps_set_int, Hd; reflexivity]|].
    intros u2. destruct (_ && _); [apply keeps_set, Hd; reflexivity|apply keeps_ok].
Qed.

Lemma apart_by_compute q : forallb (fun p => diverge p q) attribute_paths = true -> apart q.
Proof. rewrite forallb_forall. intros H p Hp. by apply H, list_elem_of_In. Qed.

Lemma template_apart kind : apart (template_path kind).
Proof. apply apart_by_compute. unfold template_path. by destruct (String.eqb kind "CronJob"). Qed.

Lemma keeps_configure q u spec start :
  diverge (template_path (GetKind u)) q = true -> apart q -> keeps q u (configureWorkload u spec start).
Proof.
  intros Ht Ha. apply keeps_of. intros template. apply keeps_bind; [by apply keeps_set|]. intros u1.
  apply keeps_bind; [apply keeps_infer, Ha; set_solver|]. intros u2. apply keeps_bind; [by apply keeps_kind|].
  intros u3. destruct (Suspend spec); [apply keeps_set, Ha; set_solver|apply keeps_ok].
Qed.

(** The kinds whose number of replicas is set. *)
Definition replicated_kind (kind : string) : bool :=
  negb (existsb (String.eqb kind) ["CronJob"; "Job"; "DaemonSet"]).

Lemma replicated_not_cron kind : replicated_kind kind = true ->
  String.eqb kind "CronJob" = false /\ String.eqb kind "Job" = false /\ String.eqb kind "DaemonSet" = false.
Proof.
  unfold replicated_kind. cbn [existsb]. by destruct (String.eqb kind "CronJob"), (String.eqb kind "Job"), (String.eqb kind "DaemonSet").
Qed.

Lemma configure_replicated_spec u kind spec start u' : configure_replicated u kind spec start = Ok u' ->
  (forall n, String.eqb kind "DaemonSet" = false -> spec_Replicas spec = Some n -> at_path u' ["spec"; "replicas"] = Some (JInt n)) /\
  (kind = "StatefulSet" -> 0 < start -> at_path u' ["spec"; "ordinals"; "start"] = Some (JInt start)).
Proof.
  unfold configure_replicated. intros (u1 & _ & (u2 & H2 & H3)%res_bind_ok)%res_bind_ok. split.
  - intros n Hk Hn. rewrite Hk, Hn in H2. apply SetNestedField_ok, set_field_get in H2. rewrite <- H2.
    destruct (_ && _) in H3; [apply SetNestedField_ok in H3; by apply (set_field_other _ _ _ _ _ H3)|by injection H3 as ->].
  - intros -> Hs. rewrite (proj2 (Z.ltb_lt 0 start) Hs) in H3. by apply SetNestedField_ok, set_field_get in H3.
Qed.

(** The workload has the template of the application where its kind keeps it; every
    cluster gets the application's whole number of replicas, whatever its share; and a
    StatefulSet starts its ordinals at the given one, when it is positive. *)
Lemma configureWorkload_parts u spec start u' : configureWorkload u spec start = Ok u' ->
  (exists template, unmarshal_object (Template spec) = Ok template /\
     at_path u' (template_path (GetKind u)) = Some (JObj template)) /\
  (forall n, replicated_kind (GetKind u) = true -> spec_Replicas spec = Some n ->
     at_path u' ["spec"; "replicas"] = Some (JInt n)) /\
  (GetKind u = "StatefulSet" -> 0 < start -> at_path u' ["spec"; "ordinals"; "start"] = Some (JInt start)) /\
  (forall suspend, Suspend spec = Some suspend -> at_path u' ["spec"; "suspend"] = Some (JBool suspend)).
Proof.
  unfold configureWorkload. intros (template & Ht & (u1 & H1%SetNestedField_ok & (u2 & H2 & (u3 & H3 & H4)%res_bind_ok)%res_bind_ok)%res_bind_ok)%res_bind_ok.
  assert (forall q, diverge ["spec"; "suspend"] q = true -> at_path u' q = at_path u3 q) as Hs.
  { intros q Hq. destruct (Suspend spec); [apply SetNestedField_ok in H4; by apply (set_field_other _ _ _ _ _ H4)|by injection H4 as ->]. }
  pose proof (template_apart (GetKind u)) as Ha. split_and!.
  - exists template. split; [done|]. rewrite Hs by (by apply (apart_in _ _ Ha)).
    rewrite (keeps_kind _ _ _ _ _ Ha _ H3), (keeps_infer _ _ _ (apart_in selector_path _ Ha eq_refl) _ H2). apply (set_field_get _ _ _ _ H1).
  - intros n Hk Hn. rewrite Hs by done. destruct (replicated_not_cron _ Hk) as (E1 & E2 & E3).
    unfold configure_kind in H3. rewrite E1, E2 in H3. by apply (configure_replicated_spec _ _ _ _ _ H3).
  - intros Hk Hst. rewrite Hs by done. unfold configure_kind in H3. rewrite Hk in H3. simpl in H3.
    by apply (configure_replicated_spec _ _ _ _ _ H3).
  - intros suspend E. rewrite E in H4. by apply SetNestedField_ok, set_field_get in H4.
Qed.
End configured.

(** ** The properties at concrete inputs *)

#[export] Instance sample_conversions : @Conversions sample_kubernetes := {|
  unmarshal_object s := Ok (list_to_map [("spec", obj [("containers", JArr [obj [("name", JStr "main"); ("image", JStr s)]])])]);
  selector_map l := Ok (list_to_map [("matchLabels", obj (prod_map id JStr <$> (l : list (string * string))))]);
  env_map e := Ok (list_to_map [("name", JStr (fst (e : string * string))); ("value", JStr (snd (e : string * string)))]);
  resources_map z := Ok (list_to_map [("cpu", JInt z)]);
  env_Name e := fst (e : string * string);
  selector_Matches l := Ok (fun labels => forallb (fun kv => String.eqb (get_str labels kv.1) kv.2) (l : list (string * string)));
|}.
#[export] Instance sample_conversions_laws : ConversionsLaws sample_conversions.
Proof. split. intros [n v] m [= <-]. reflexivity. Qed.

Definition current_env : list json :=
  [obj [("name", JStr "A"); ("value", JStr "old")]; JStr "junk"; obj [("name", JStr "B"); ("value", JStr "kept")]].

Definition new_env : list EnvVar := [("A", "1"); ("C", "2"); ("A", "3")].
Definition merged_env : list json := unwrap [] (mergeEnv current_env new_env).

Lemma mergeEnv_spec_witness : exists m, env_map ("A", "3") = Ok m /\
  env_lookup "A" merged_env = Some (JObj m) /\ env_lookup "B" merged_env = env_lookup "B" current_env.
Proof.
  assert (mergeEnv current_env new_env = Ok merged_env) as Hm by (vm_compute; reflexivity).
  destruct (mergeEnv_spec current_env new_env merged_env Hm) as [H _].
  destruct (H "A") as (m & HA & Hl). exists m. split_and!; [exact HA|exact Hl|exact (H "B")].
Defined.

Definition two_images : list PolicyOverride :=
  [mkOverride None "nginx:2" [("A", "1")] None [] []; mkOverride (Some [("zone", "z1")]) "nginx:3" [] None [] []].
Definition app_with (overrides : list PolicyOverride) : Application :=
  mkApplication no_identity "web" "team" "1" ∅ ∅
    (mkAppSpec (mkGVK "apps/v1" "Deployment") None (Some 4) "nginx" "" None None None [] overrides None None)
    (mkAppStatus "" "" 0 0 [] [] [] 0 []).
Definition main_container : gmap string json := list_to_map [("name", JStr "main"); ("image", JStr "nginx")].
Definition two_containers : json :=
  obj [("spec", obj [("template", obj [("spec", obj [("containers", JArr [JObj main_container; JStr "sidecar"])])])])].
Definition overridden : json :=
  match ApplyOverrides two_containers (app_with two_images) {[ "zone" := "z1" ]} with Ret (Ok u) => u | _ => JNull end.

Lemma ApplyOverrides_first_container_witness : exists c',
  at_path overridden containers_path = Some (JArr [JObj c'; JStr "sidecar"]) /\ c' !! "image" = Some (JStr "nginx:3").
Proof.
  destruct (ApplyOverrides_first_container two_containers (app_with two_images) {[ "zone" := "z1" ]} overridden
    main_container [JStr "sidecar"]) as (c' & Hc & Hi & _); [vm_compute; reflexivity..|].
  exists c'. split; [exact Hc|]. rewrite Hi. vm_compute. reflexivity.
Defined.
