(* ===== verification/Framework.v ===== *)
(** * The scheduling framework

    engine/internal/manager/scheduler/framework: the status of a plugin, the
    state shared by the plugins of one cycle, the configuration, and
    [frameworkImpl] (runtime.go), which runs the filter plugins in order and
    combines the scores.  [BoundedPlugin] is what a score plugin promises to
    the framework (interface.go: a score in [0, 100] once normalized); each
    plugin file proves it, and the theorems here use only the promise. *)

From S2P Require Import Prelude Float64 GoRuntime Api.

(** ** Status (interface.go) *)

Definition Success : Z := 0.
Definition Error : Z := 1.
Definition Unschedulable : Z := 2.

Record PluginStatus := NewStatus { Code : Z; Message : string }.

#[export] Instance PluginStatus_eq_dec : EqDecision PluginStatus.
Proof. solve_decision. Defined.

Definition IsSuccess (s : PluginStatus) : bool := Code s =? Success.
Definition IsUnschedulable (s : PluginStatus) : bool := Code s =? Unschedulable.
Definition IsError (s : PluginStatus) : bool := Code s =? Error.

(** ** CycleState: a map from names to values of any dynamic type *)

Inductive any :=
| AnyString (s : string)
| AnyInt32Map (m : gmap string Z)
| AnyInt (z : Z).

Abbreviation CycleState := (gmap string any).

Definition NewCycleState : CycleState := ∅.
Definition Read (c : CycleState) (key : string) : option any := c !! key.
Definition Write (c : CycleState) (key : string) (val : any) : CycleState := <[key := val]> c.
Definition Delete (c : CycleState) (key : string) : CycleState := delete key c.

(** ** Configuration (config.go) *)

Record PluginConfig := mkPluginConfig {
  pc_Name : string; Weight : Z; Enabled : bool; Args : gmap string any }.

Record SpreadConstraints := mkSpreadConstraints { MaxClusters : Z; MinReplicas : Z }.

Record SchedulerConfig := mkSchedulerConfig {
  cfg_FilterPlugins : list PluginConfig;
  cfg_ScorePlugins : list PluginConfig;
  Strategy : string;
  cfg_SpreadConstraints : option SpreadConstraints }.

Definition StrategySingleCluster : string := "SingleCluster".
Definition StrategySpread : string := "Spread".
Definition AnnotationSchedulerStrategy : string := "apps.kumquat.io/scheduler-strategy".

Definition DefaultSchedulerConfig : SchedulerConfig := {|
  Strategy := StrategySpread;
  cfg_FilterPlugins := [
    mkPluginConfig "Health" 0 true ∅;
    mkPluginConfig "Affinity" 0 true ∅;
    mkPluginConfig "TaintToleration" 0 true ∅;
    mkPluginConfig "Capacity" 0 true ∅;
    mkPluginConfig "VolumeRestriction" 0 true ∅];
  cfg_ScorePlugins := [
    mkPluginConfig "Affinity" 1 true ∅;
    mkPluginConfig "Resource" 1 true ∅];
  cfg_SpreadConstraints := Some (mkSpreadConstraints 5 1);
|}.

(** ** Plugins (interface.go) *)

Record FilterPlugin `{Kubernetes} := mkFilterPlugin {
  fp_Name : string;
  Filter : CycleState -> Application -> ManagedCluster -> PluginStatus }.

(** [ScoreExtensions()] is nil or gives [NormalizeScore], which updates the
    scores of one plugin in place. *)
Record ScorePlugin `{Kubernetes} := mkScorePlugin {
  sp_Name : string;
  Score : CycleState -> Application -> ManagedCluster -> Z * PluginStatus;
  ScoreExtensions : option (CycleState -> Application -> gmap string Z -> gmap string Z * PluginStatus) }.

Arguments mkFilterPlugin {_}. Arguments mkScorePlugin {_}.

(** ** frameworkImpl (runtime.go) *)

Record frameworkImpl `{Kubernetes} := mkFramework {
  filterPlugins : list FilterPlugin;
  scorePlugins : list ScorePlugin;
  pluginWeights : gmap string Z }.
Arguments mkFramework {_}.

Definition config_weight (pc : PluginConfig) : Z := if 0 <? Weight pc then Weight pc else 1.

Definition NewFrameworkWithConfig `{Kubernetes} (fs : list FilterPlugin) (ss : list ScorePlugin)
    (config : option SchedulerConfig) : frameworkImpl := {|
  filterPlugins := fs;
  scorePlugins := ss;
  pluginWeights :=
    match config with
    | Some c => map_of pc_Name config_weight (cfg_ScorePlugins c)
    | None => ∅
    end |}.

Section framework.
Context `{GoRuntime, Kubernetes}.

Fixpoint run_filters (pls : list FilterPlugin) (state : CycleState) (app : Application)
    (cluster : ManagedCluster) : PluginStatus :=
  match pls with
  | [] => NewStatus Success ""
  | pl :: rest =>
      let status := Filter pl state app cluster in
      if IsSuccess status then run_filters rest state app cluster else status
  end.

Definition RunFilterPlugins (f : frameworkImpl) (state : CycleState) (app : Application)
    (cluster : ManagedCluster) : PluginStatus :=
  run_filters (filterPlugins f) state app cluster.

(** The raw scores of one plugin, or the first status that is not a success. *)
Fixpoint score_clusters (pl : ScorePlugin) (state : CycleState) (app : Application)
    (clusters : list ManagedCluster) (acc : gmap string Z) : gmap string Z + PluginStatus :=
  match clusters with
  | [] => inl acc
  | cluster :: rest =>
      let '(score, status) := Score pl state app cluster in
      if IsSuccess status
      then score_clusters pl state app rest (<[mc_Name cluster := score]> acc)
      else inr status
  end.

(** The scores of one plugin after [NormalizeScore]. *)
Definition plugin_scores (pl : ScorePlugin) (state : CycleState) (app : Application)
    (clusters : list ManagedCluster) : gmap string Z + PluginStatus :=
  match score_clusters pl state app clusters ∅ with
  | inr status => inr status
  | inl raw =>
      match ScoreExtensions pl with
      | None => inl raw
      | Some normalize =>
          let '(scores, status) := normalize state app raw in
          if IsSuccess status then inl scores else inr status
      end
  end.

Definition plugin_weight (f : frameworkImpl) (pl : ScorePlugin) : Z :=
  let weight := lookup0 (pluginWeights f) (sp_Name pl) in
  if weight =? 0 then 1 else weight.

Fixpoint accumulate_scores (f : frameworkImpl) (pls : list ScorePlugin) (site : nat)
    (state : CycleState) (app : Application) (clusters : list ManagedCluster)
    (finalScores : gmap string Z) : gmap string Z + PluginStatus :=
  match pls with
  | [] => inl finalScores
  | pl :: rest =>
      match plugin_scores pl state app clusters with
      | inr status => inr status
      | inl pluginScores =>
          let weight := plugin_weight f pl in
          accumulate_scores f rest (S site) state app clusters
            (range_accum site (fun old score => i64 (old + i64 (score * weight)))
               pluginScores finalScores)
      end
  end.

(** The smallest and largest score, as the loop over the map finds them. *)
Definition min_max_step (acc : option (Z * Z)) (kv : string * Z) : option (Z * Z) :=
  match acc with
  | None => Some (kv.2, kv.2)
  | Some (lo, hi) =>
      Some (if kv.2 <? lo then kv.2 else lo, if hi <? kv.2 then kv.2 else hi)
  end.

Definition normalizeFinalScores (scores : gmap string Z) : gmap string Z :=
  match foldl min_max_step None (go_range 0 scores) with
  | None => scores                        (* len(scores) == 0 *)
  | Some (minScore, maxScore) =>
      if maxScore =? minScore
      then range_update 1 (fun _ => 50) scores
      else
        let scoreRange := i64 (maxScore - minScore) in
        range_update 2
          (fun score => Z.quot (i64 (i64 (score - minScore) * 100)) scoreRange) scores
  end.

Definition RunScorePlugins (f : frameworkImpl) (state : CycleState) (app : Application)
    (clusters : list ManagedCluster) : gmap string Z + PluginStatus :=
  match accumulate_scores f (scorePlugins f) 3 state app clusters
          (map_of mc_Name (fun _ => 0) clusters) with
  | inr status => inr status
  | inl finalScores => inl (normalizeFinalScores finalScores)
  end.
End framework.

(** ** The promise of a score plugin *)

(** After normalization the scores are in [0, 100] and are about the given
    clusters, for the states and applications satisfying [pre]. *)
Definition scores_in_range (names : list string) (scores : gmap string Z) : Prop :=
  forall k v, scores !! k = Some v -> k ∈ names /\ 0 <= v <= 100.

Class BoundedPlugin `{GoRuntime, Kubernetes} (pl : ScorePlugin)
    (pre : CycleState -> Application -> Prop) : Prop :=
  plugin_bounded : forall state app clusters scores,
    pre state app -> plugin_scores pl state app clusters = inl scores ->
    scores_in_range (mc_Name <$> clusters) scores.

Section filter_theorems.
Context `{Kubernetes}.
Implicit Types (pls : list FilterPlugin) (state : CycleState) (app : Application).

Definition filter_ok state app (cluster : ManagedCluster) (pl : FilterPlugin) : Prop :=
  IsSuccess (Filter pl state app cluster) = true.

Lemma run_filters_success pls state app cluster :
  Forall (filter_ok state app cluster) pls -> run_filters pls state app cluster = NewStatus Success "".
Proof. induction 1 as [|pl pls Hpl Hpls IH]; simpl; [done|]. by rewrite Hpl. Qed.

Lemma run_filters_failure pre pl post state app cluster :
  Forall (filter_ok state app cluster) pre -> ¬ filter_ok state app cluster pl ->
  run_filters (pre ++ pl :: post) state app cluster = Filter pl state app cluster.
Proof.
  intros Hpre Hpl. unfold filter_ok in Hpl. induction Hpre as [|x pre Hx Hpre IH]; simpl.
  - by destruct (IsSuccess _).
  - by rewrite Hx.
Qed.

Lemma run_filters_ok_iff pls state app cluster :
  IsSuccess (run_filters pls state app cluster) = true <-> Forall (filter_ok state app cluster) pls.
Proof.
  split; [|intros HF; by rewrite run_filters_success].
  induction pls as [|pl pls IH]; simpl; intros Hs; [constructor|].
  destruct (IsSuccess (Filter pl state app cluster)) eqn:E; [|congruence].
  constructor; auto.
Qed.
End filter_theorems.

(** ** Normalization *)

Section normalize.
Context `{GoRuntimeLaws}.

Lemma min_max_spec_from (l : list (string * Z)) lo hi :
  lo <= hi ->
  exists lo' hi', foldl min_max_step (Some (lo, hi)) l = Some (lo', hi') /\
    lo' <= lo /\ hi <= hi' /\ (forall kv, kv ∈ l -> lo' <= kv.2 <= hi') /\
    (lo' = lo \/ exists kv, kv ∈ l /\ kv.2 = lo') /\
    (hi' = hi \/ exists kv, kv ∈ l /\ kv.2 = hi').
Proof.
  revert lo hi; induction l as [|[k v] l IH]; intros lo hi Hle; simpl.
  - exists lo, hi. split_and!; try lia; auto. intros kv Hkv. by apply elem_of_nil in Hkv.
  - destruct (IH (if v <? lo then v else lo) (if hi <? v then v else hi)) as
      (lo' & hi' & -> & H1 & H2 & H3 & H4 & H5); [bool_cases; lia|].
    exists lo', hi'. split_and!; [done|bool_cases; lia|bool_cases; lia| | |].
    + intros kv [-> |Hkv]%elem_of_cons; simpl; [bool_cases; lia|]. by apply H3.
    + destruct H4 as [H4|(kv & Hkv & <-)]; [|right; exists kv; set_solver].
      destruct (v <? lo); [right; exists (k, v); set_solver|by left].
    + destruct H5 as [H5|(kv & Hkv & <-)]; [|right; exists kv; set_solver].
      destruct (hi <? v); [right; exists (k, v); set_solver|by left].
Qed.

(** The extremes found by the loop, whatever its order. *)
Lemma min_max_spec n (m : gmap string Z) k0 v0 :
  m !! k0 = Some v0 ->
  exists lo hi, foldl min_max_step None (go_range n m) = Some (lo, hi) /\
    (forall k v, m !! k = Some v -> lo <= v <= hi) /\
    (exists k, m !! k = Some lo) /\ (exists k, m !! k = Some hi).
Proof.
  intros Hk0. apply (range_elem n) in Hk0.
  destruct (go_range n m) as [|[k v] l] eqn:El; [by apply elem_of_nil in Hk0|]. simpl.
  destruct (min_max_spec_from l v v ltac:(lia)) as (lo & hi & -> & H1 & H2 & H3 & H4 & H5).
  assert (forall kv, kv ∈ go_range n m -> m !! kv.1 = Some kv.2) as Hin.
  { intros [i x] Hx. by apply range_elem in Hx. }
  rewrite El in Hin. exists lo, hi. split_and!; [done| | |].
  - intros i x Hx. apply (range_elem n) in Hx. rewrite El in Hx.
    apply elem_of_cons in Hx as [[= -> ->]|Hx]; [lia|]. by apply (H3 (i, x)).
  - destruct H4 as [->|([i x] & Hx & <-)]; [exists k; apply (Hin (k, v)); set_solver|].
    exists i. apply (Hin (i, x)). set_solver.
  - destruct H5 as [->|([i x] & Hx & <-)]; [exists k; apply (Hin (k, v)); set_solver|].
    exists i. apply (Hin (i, x)). set_solver.
Qed.

(** The linear map that takes [lo] to 0 and [hi] to 100. *)
Definition normalized (lo hi v : Z) : Z :=
  if hi =? lo then 50 else Z.quot ((v - lo) * 100) (hi - lo).

Lemma normalized_range lo hi v : lo <= v <= hi -> 0 <= normalized lo hi v <= 100.
Proof.
  intros Hv. unfold normalized. bool_cases; [lia|].
  rewrite Z.quot_div_nonneg by lia. split; [apply Z.div_pos; lia|].
  apply Z.div_le_upper_bound; lia.
Qed.

Lemma normalized_mono lo hi v w : lo <= v <= w -> w <= hi -> normalized lo hi v <= normalized lo hi w.
Proof.
  intros. unfold normalized. bool_cases; [lia|]. rewrite !Z.quot_div_nonneg by lia.
  apply Z.div_le_mono; lia.
Qed.

Lemma normalized_hi lo hi : lo < hi -> normalized lo hi hi = 100.
Proof.
  intros. unfold normalized. bool_cases; [lia|].
  rewrite Z.mul_comm. apply Z.quot_mul. lia.
Qed.

Lemma normalized_lo lo hi : lo < hi -> normalized lo hi lo = 0.
Proof. intros. unfold normalized. bool_cases; [lia|]. by rewrite Z.sub_diag. Qed.

Definition score_range (scores : gmap string Z) : Prop :=
  forall k v, scores !! k = Some v -> - 2 ^ 54 <= v <= 2 ^ 54.

Lemma normalizeFinalScores_eq scores : score_range scores -> scores ≠ ∅ ->
  exists lo hi, (exists k, scores !! k = Some lo) /\ (exists k, scores !! k = Some hi) /\
    (forall k v, scores !! k = Some v -> lo <= v <= hi) /\
    normalizeFinalScores scores = normalized lo hi <$> scores.
Proof.
  intros Hr Hne. apply map_choose in Hne as (k0 & v0 & Hk0).
  destruct (min_max_spec 0 scores k0 v0 Hk0) as (lo & hi & E & Hb & [k1 Hlo] & [k2 Hhi]).
  exists lo, hi. split_and!; eauto. unfold normalizeFinalScores. rewrite E.
  pose proof (Hr _ _ Hlo). pose proof (Hr _ _ Hhi).
  change (2 ^ 54) with 18014398509481984 in *.
  destruct (hi =? lo) eqn:El; rewrite range_update_fmap; apply map_fmap_ext; intros k v Hv;
    unfold normalized; rewrite El; [done|].
  pose proof (Hb _ _ Hv). pose proof (Hr _ _ Hv). unwrap_ints. done.
Qed.
End normalize.

Section scores.
Context `{GoRuntimeLaws, Kubernetes}.
Implicit Types (scores : gmap string Z) (state : CycleState) (app : Application).

(** Every score is one of a given cluster, between 0 and [b]. *)
Definition accumulated (names : list string) (b : Z) scores : Prop :=
  forall k, (is_Some (scores !! k) <-> k ∈ names) /\ 0 <= lookup0 scores k <= b.

Definition total_weight (f : frameworkImpl) (pls : list ScorePlugin) : Z :=
  sumZ (plugin_weight f) pls.

Lemma accumulate_step names b w site pluginScores finalScores :
  accumulated names b finalScores -> scores_in_range names pluginScores ->
  0 <= w -> b + 100 * w <= 2 ^ 54 ->
  accumulated names (b + 100 * w)
    (range_accum site (fun old score => i64 (old + i64 (score * w))) pluginScores finalScores).
Proof.
  intros Hacc Hin Hw Hb k. destruct (Hacc k) as [Hdom Hk].
  change (2 ^ 54) with 18014398509481984 in *.
  unfold lookup0 at 1 2. rewrite range_accum_lookup.
  destruct (pluginScores !! k) as [v|] eqn:Ev.
  - destruct (Hin k v Ev) as [Hn Hv]. split; [by rewrite is_Some_alt|]. simpl.
    assert (0 <= v * w <= 100 * w) by nia. unwrap_ints. lia.
  - split; [done|]. unfold lookup0 in Hk. lia.
Qed.

Lemma accumulate_scores_bounded f pls (pre : CycleState -> Application -> Prop) site state app
    clusters b init scores :
  (forall pl, pl ∈ pls -> BoundedPlugin pl pre /\ 0 <= plugin_weight f pl) -> pre state app ->
  accumulated (mc_Name <$> clusters) b init -> b + 100 * total_weight f pls <= 2 ^ 54 ->
  accumulate_scores f pls site state app clusters init = inl scores ->
  accumulated (mc_Name <$> clusters) (b + 100 * total_weight f pls) scores.
Proof.
  unfold total_weight. revert site b init.
  induction pls as [|pl pls IH]; intros site b init Hpls Hpre Hacc Hb Hs; simpl in Hs.
  - injection Hs as <-. by rewrite sumZ_nil, Z.mul_0_r, Z.add_0_r.
  - destruct (plugin_scores pl state app clusters) as [ps|] eqn:Eps; [|done].
    destruct (Hpls pl ltac:(by left)) as [Hpl Hw]. rewrite sumZ_cons in Hb |- *.
    assert (forall q, q ∈ pls -> BoundedPlugin q pre /\ 0 <= plugin_weight f q) as Hrest
      by (intros q Hq; apply Hpls; by right).
    assert (0 <= sumZ (plugin_weight f) pls) by (apply sumZ_nonneg; apply Hrest).
    rewrite Z.mul_add_distr_l, Z.add_assoc in Hb |- *.
    eapply IH; [done|done| |done|exact Hs].
    apply accumulate_step; [done|by eapply plugin_bounded|done|lia].
Qed.

Lemma zero_scores_accumulated (clusters : list ManagedCluster) :
  accumulated (mc_Name <$> clusters) 0 (map_of mc_Name (fun _ => 0) clusters).
Proof.
  intros k. split; [apply map_of_is_Some|]. unfold lookup0.
  destruct (map_of _ _ _ !! k) as [v|] eqn:E; simpl; [|lia].
  apply map_of_lookup_inv in E as (? & _ & _ & <-). lia.
Qed.
End scores.

Section score_lookup.
Context `{Kubernetes}.

(** Every raw score is the [Score] of a given cluster. *)
Lemma score_clusters_inv pl state app clusters acc raw k v :
  score_clusters pl state app clusters acc = inl raw -> raw !! k = Some v ->
  acc !! k = Some v \/ exists c, c ∈ clusters /\ mc_Name c = k /\ (Score pl state app c).1 = v.
Proof.
  revert acc; induction clusters as [|c cs IH]; intros acc Hs Hk; simpl in Hs.
  - injection Hs as ->. by left.
  - destruct (Score pl state app c) as [sc st] eqn:E. destruct (IsSuccess st); [|done].
    destruct (IH _ Hs Hk) as [Ha|(c' & Hc' & ? & ?)]; [|right; exists c'; split; [by right|done]].
    rewrite lookup_insert_Some in Ha. destruct Ha as [[<- <-]|[_ Ha]]; [|by left].
    right. exists c. split; [by left|]. by rewrite E.
Qed.
End score_lookup.

Section normalized_scores.
Context `{GoRuntimeLaws}.

Lemma normalize_empty : normalizeFinalScores ∅ = ∅.
Proof.
  unfold normalizeFinalScores. pose proof (go_range_perm (V := Z) 0 ∅) as Hp.
  rewrite map_to_list_empty in Hp. apply Permutation_nil_r in Hp. by rewrite Hp.
Qed.

Lemma normalize_bounds scores : score_range scores ->
  dom (normalizeFinalScores scores) = dom scores /\
  (forall k w, normalizeFinalScores scores !! k = Some w -> 0 <= w <= 100).
Proof.
  intros Hr. destruct (decide (scores = ∅)) as [->|Hne].
  { rewrite normalize_empty. split; [done|]. intros k w. by rewrite lookup_empty. }
  destruct (normalizeFinalScores_eq scores Hr Hne) as (lo & hi & _ & _ & Hb & ->).
  split; [apply dom_fmap_L|]. intros k w. rewrite lookup_fmap, fmap_Some. intros (v & Hv & ->).
  apply normalized_range. eauto.
Qed.

Lemma RunScorePlugins_range `{Kubernetes} f (pre : CycleState -> Application -> Prop) state app clusters scores :
  (forall pl, pl ∈ scorePlugins f -> BoundedPlugin pl pre /\ 0 <= plugin_weight f pl) ->
  pre state app -> total_weight f (scorePlugins f) <= 2 ^ 47 ->
  RunScorePlugins f state app clusters = inl scores ->
  (forall k, is_Some (scores !! k) <-> k ∈ mc_Name <$> clusters) /\
  (forall k v, scores !! k = Some v -> 0 <= v <= 100).
Proof.
  intros Hpls Hpre Hw. unfold RunScorePlugins.
  destruct (accumulate_scores _ _ _ _ _ _ _) as [raw|] eqn:E; [|done]. intros [= <-].
  change (2 ^ 47) with 140737488355328 in Hw.
  apply (accumulate_scores_bounded _ _ pre _ _ _ _ 0) in E;
    [|done|done|apply zero_scores_accumulated|change (2 ^ 54) with 18014398509481984; lia].
  assert (score_range raw) as Hr.
  { intros k v Hv. destruct (E k) as [_ Hk]. unfold lookup0 in Hk. rewrite Hv in Hk. simpl in Hk.
    change (2 ^ 54) with 18014398509481984. lia. }
  destruct (normalize_bounds raw Hr) as [Hd Hb]. split; [|done].
  intros k. rewrite <- elem_of_dom, Hd, elem_of_dom. apply E.
Qed.
End normalized_scores.

(** ** Properties *)

Section properties.
Context `{GoRuntimeLaws, Kubernetes}.
Implicit Types (scores : gmap string Z) (state : CycleState) (app : Application).

(** Filter plugins run in order, and the first one that refuses decides: a
    cluster passes exactly when every plugin accepts it, and otherwise the
    returned status is that of the first refusing plugin. *)
Theorem RunFilterPlugins_first_refusal f state app cluster :
  (IsSuccess (RunFilterPlugins f state app cluster) = true /\
   Forall (filter_ok state app cluster) (filterPlugins f) /\
   RunFilterPlugins f state app cluster = NewStatus Success "") \/
  (exists pre pl post, filterPlugins f = pre ++ pl :: post /\
     Forall (filter_ok state app cluster) pre /\ ¬ filter_ok state app cluster pl /\
     RunFilterPlugins f state app cluster = Filter pl state app cluster).
Proof.
  unfold RunFilterPlugins.
  induction (filterPlugins f) as [|pl pls IH]; [by left|].
  destruct (IsSuccess (Filter pl state app cluster)) eqn:E.
  - simpl. rewrite E. destruct IH as [(H1 & H2 & H3)|(pre & p & post & -> & Hpre & Hp & Hs)].
    + left. split_and!; auto.
    + right. exists (pl :: pre), p, post. split_and!; auto.
  - right. exists [], pl, pls. split_and!; [done|constructor|unfold filter_ok; congruence|].
    simpl. by rewrite E.
Qed.

(** The final normalization keeps the clusters, puts every score in
    [0, 100], preserves the order of the scores, and, unless all scores are
    equal (then every cluster gets the neutral 50), gives 100 to the best and
    0 to the worst; for scores that leave room for the multiplication by 100. *)
Theorem normalizeFinalScores_spec scores : score_range scores ->
  dom (normalizeFinalScores scores) = dom scores /\
  (forall k w, normalizeFinalScores scores !! k = Some w -> 0 <= w <= 100) /\
  (forall k1 k2 v1 v2 w1 w2,
     scores !! k1 = Some v1 -> scores !! k2 = Some v2 ->
     normalizeFinalScores scores !! k1 = Some w1 -> normalizeFinalScores scores !! k2 = Some w2 ->
     (v1 <= v2 -> w1 <= w2) /\
     ((forall k v, scores !! k = Some v -> v = v1) -> w1 = 50) /\
     ((forall k v, scores !! k = Some v -> v1 <= v <= v2) -> v1 < v2 -> w1 = 0 /\ w2 = 100)).
Proof.
  intros Hr. destruct (normalize_bounds scores Hr) as [Hd Hrange]. split_and!; [done|done|].
  destruct (decide (scores = ∅)) as [->|Hne]; [intros *; by rewrite !lookup_empty|].
  destruct (normalizeFinalScores_eq scores Hr Hne) as (lo & hi & [kl Hlo] & [kh Hhi] & Hb & ->).
  intros k1 k2 v1 v2 w1 w2 H1 H2. rewrite !lookup_fmap, H1, H2. intros [= <-] [= <-].
  pose proof (Hb _ _ H1). pose proof (Hb _ _ H2). split_and!.
  - intros. apply normalized_mono; lia.
  - intros Heq. rewrite (Heq _ _ Hlo), (Heq _ _ Hhi). unfold normalized. by rewrite Z.eqb_refl.
  - intros Hext Hlt. destruct (Hext _ _ Hlo), (Hext _ _ Hhi).
    replace lo with v1 by lia. replace hi with v2 by lia.
    split; [by apply normalized_lo|by apply normalized_hi].
Qed.

(** C37: when scoring succeeds, there is one score for each given cluster and
    for nothing else, in [0, 100]; for score plugins that keep the promise of
    the interface and weights whose total fits in 47 bits. *)
Theorem RunScorePlugins_bounded f (pre : CycleState -> Application -> Prop) state app clusters scores :
  (forall pl, pl ∈ scorePlugins f -> BoundedPlugin pl pre /\ 0 <= plugin_weight f pl) ->
  pre state app -> total_weight f (scorePlugins f) <= 2 ^ 47 ->
  RunScorePlugins f state app clusters = inl scores ->
  (forall k, is_Some (scores !! k) <-> k ∈ mc_Name <$> clusters) /\
  (forall k v, scores !! k = Some v -> 0 <= v <= 100).
Proof. apply RunScorePlugins_range. Qed.
End properties.

(** ** Witnesses *)

Lemma normalizeFinalScores_spec_witness :
  let scores : gmap string Z := {[ "a" := 30; "b" := 10; "c" := 20 ]} in
  score_range scores /\ dom (normalizeFinalScores scores) = dom scores /\
  normalizeFinalScores scores !! "c" = Some 50.
Proof.
  intros scores. assert (score_range scores) as Hr.
  { intros k v Hk. subst scores. change (2 ^ 54) with 18014398509481984.
    rewrite !lookup_insert_Some in Hk. rewrite lookup_singleton_Some in Hk. lia. }
  split; [exact Hr|]. split; [apply (normalizeFinalScores_spec scores Hr)|vm_compute; reflexivity].
Defined.
