(* ===== verification/Indexer.v ===== *)
(** * The label index of the scheduler cache

    [SimpleIndexer] (cache/interface.go): for each label key and value, the names
    of the clusters that carry it.  [LabelIndex] is the interface the scheduler's
    pre-filter relies on; [indexer_wf] is the invariant that discharges it. *)

From S2P Require Import Prelude Float64 GoRuntime.

Abbreviation Labels := (gmap string string).

Record SimpleIndexer := mkIndexer {
  index : gmap string (gmap string (list string));     (* key -> value -> names *)
  clusterLabels : gmap string Labels }.

Definition NewSimpleIndexer : SimpleIndexer := mkIndexer ∅ ∅.

(** [i.index[k][v] = append(i.index[k][v], name)], creating the inner map. *)
Definition index_append (name : string) (ix : gmap string (gmap string (list string)))
    (k v : string) : gmap string (gmap string (list string)) :=
  let values := default ∅ (ix !! k) in
  <[k := <[v := default [] (values !! v) ++ [name]]> values]> ix.

(** The body of [Remove]'s loop: take [name] out of [index[k][v]], dropping the
    value when no name is left and the key when no value is left. *)
Definition index_remove (name : string) (ix : gmap string (gmap string (list string)))
    (k v : string) : gmap string (gmap string (list string)) :=
  match ix !! k with
  | None => ix
  | Some values =>
      let values' :=
        match values !! v with
        | None => values
        | Some clusters =>
            match filter (fun c => c ≠ name) clusters with
            | [] => delete v values
            | newClusters => <[v := newClusters]> values
            end
        end in
      if decide (values' = ∅) then delete k ix else <[k := values']> ix
  end.

Section indexer.
Context `{GoRuntime}.

Definition Add (i : SimpleIndexer) (name : string) (labels : Labels) : SimpleIndexer := {|
  clusterLabels := <[name := labels]> (clusterLabels i);
  index := foldl (fun ix kv => index_append name ix kv.1 kv.2) (index i) (go_range 10 labels) |}.

Definition Remove (i : SimpleIndexer) (name : string) : SimpleIndexer :=
  match clusterLabels i !! name with
  | None => i
  | Some labels => {|
      clusterLabels := delete name (clusterLabels i);
      index := foldl (fun ix kv => index_remove name ix kv.1 kv.2) (index i) (go_range 11 labels) |}
  end.

Definition GetClustersByLabel (i : SimpleIndexer) (key value : string) : list string :=
  match index i !! key with
  | Some values => default [] (values !! value)
  | None => []
  end.

(** The names are collected in a set, then listed in the order of a [range]. *)
Definition GetClustersByLabelKey (i : SimpleIndexer) (key : string) : list string :=
  match index i !! key with
  | None => []
  | Some values =>
      let clusterSet : gmap string () :=
        foldl (fun set kv => foldl (fun s n => <[n := tt]> s) set kv.2) ∅ (go_range 12 values) in
      range_keys 13 clusterSet
  end.

Definition ListClustersByLabelSelector (i : SimpleIndexer) (matches : Labels -> bool) : list string :=
  (filter (fun kv => matches kv.2 = true) (go_range 14 (clusterLabels i))).*1.

(** [Clone] copies both maps entry by entry. *)
Definition copy_map {V} (site : nat) (f : V -> V) (m : gmap string V) : gmap string V :=
  foldl (fun acc kv => <[kv.1 := f kv.2]> acc) ∅ (go_range site m).

Definition Clone (i : SimpleIndexer) : SimpleIndexer := {|
  clusterLabels := copy_map 15 (copy_map 16 (fun v => v)) (clusterLabels i);
  index := copy_map 17 (copy_map 18 (fun clusters => clusters)) (index i) |}.
End indexer.

(** ** Invariant *)

Definition bucket (ix : gmap string (gmap string (list string))) (k v : string) : list string :=
  default [] (default ∅ (ix !! k) !! v).

Definition has_label (i : SimpleIndexer) (n k v : string) : Prop :=
  exists ls, clusterLabels i !! n = Some ls /\ ls !! k = Some v.

(** No key without values and no value without names is kept. *)
Definition index_tidy (ix : gmap string (gmap string (list string))) : Prop :=
  forall k values, ix !! k = Some values -> values ≠ ∅ /\ forall v ns, values !! v = Some ns -> ns ≠ [].

Record indexer_wf (i : SimpleIndexer) : Prop := {
  wf_bucket : forall k v n, n ∈ bucket (index i) k v <-> has_label i n k v;
  wf_nodup : forall k v, NoDup (bucket (index i) k v);
  wf_tidy : index_tidy (index i) }.

Section index_lemmas.
Implicit Types (ix : gmap string (gmap string (list string))).

Lemma bucket_append name ix k v k' v' :
  bucket (index_append name ix k v) k' v' =
  if decide (k = k' /\ v = v') then bucket ix k v ++ [name] else bucket ix k' v'.
Proof.
  unfold bucket, index_append. destruct (decide (k = k')) as [<-|Hk].
  - rewrite lookup_insert_eq. simpl. destruct (decide (v = v')) as [<-|Hv].
    + rewrite lookup_insert_eq, decide_True by done. done.
    + rewrite lookup_insert_ne, decide_False by naive_solver. done.
  - rewrite lookup_insert_ne, decide_False by naive_solver. done.
Qed.

Lemma tidy_append name ix k v : index_tidy ix -> index_tidy (index_append name ix k v).
Proof.
  intros Ht k' values. unfold index_append. rewrite lookup_insert_Some.
  intros [[<- <-]|[_ Hk']]; [|by apply (Ht k')]. split; [apply insert_non_empty|].
  intros v' ns. rewrite lookup_insert_Some. intros [[<- <-]|[_ Hv']].
  - by destruct (default [] _).
  - destruct (ix !! k) as [vs|] eqn:E; [|done]. by apply (proj2 (Ht k vs E) v').
Qed.

Lemma filter_nil_inv {A} (P : A -> Prop) `{forall x, Decision (P x)} l x :
  filter P l = [] -> x ∈ l -> ¬ P x.
Proof. intros Hf Hx Hp. apply (elem_of_nil x). rewrite <- Hf. by apply list_elem_of_filter. Qed.

Lemma bucket_remove name ix k v k' v' :
  bucket (index_remove name ix k v) k' v' =
  if decide (k = k' /\ v = v') then filter (fun c => c ≠ name) (bucket ix k v) else bucket ix k' v'.
Proof.
  unfold bucket, index_remove. destruct (ix !! k) as [values|] eqn:Ek; simpl.
  2:{ destruct (decide _) as [[<- <-]|]; [|done]. by rewrite Ek. }
  set (values' := match values !! v with Some _ => _ | None => _ end).
  assert (forall w, default [] (values' !! w) =
    if decide (v = w) then filter (fun c => c ≠ name) (default [] (values !! v))
    else default [] (values !! w)) as Hv.
  { intros w. subst values'. destruct (values !! v) as [ns|] eqn:Ev; simpl.
    - destruct (filter _ ns) as [|n0 ns'] eqn:Ef; (destruct (decide (v = w)) as [<-|];
        [by rewrite ?lookup_delete_eq, ?lookup_insert_eq|
         by rewrite ?lookup_delete_ne, ?lookup_insert_ne by done]).
    - destruct (decide (v = w)) as [<-|]; [by rewrite Ev|done]. }
  destruct (decide (k = k')) as [<-|Hk].
  - transitivity (default [] (values' !! v')).
    + destruct (decide (values' = ∅)) as [->|]; by rewrite ?lookup_delete_eq, ?lookup_insert_eq.
    + rewrite Hv, Ek. simpl. destruct (decide (v = v')) as [<-|];
        [rewrite decide_True by done|rewrite decide_False by naive_solver]; done.
  - rewrite (decide_False (P := k = k' /\ v = v')) by naive_solver.
    destruct (decide (values' = ∅)); by rewrite ?lookup_delete_ne, ?lookup_insert_ne by done.
Qed.

Lemma tidy_remove name ix k v : index_tidy ix -> index_tidy (index_remove name ix k v).
Proof.
  intros Ht. unfold index_remove. destruct (ix !! k) as [values|] eqn:Ek; [|done].
  set (values' := match values !! v with Some _ => _ | None => _ end).
  assert (forall w ns, values' !! w = Some ns -> ns ≠ []) as Hv.
  { intros w ns. destruct (Ht k values Ek) as [_ Hns]. subst values'.
    destruct (values !! v) as [ns0|] eqn:Ev; [|apply Hns].
    destruct (filter _ ns0) as [|n0 ns'].
    - rewrite lookup_delete_Some. intros [_ ?]. by eapply Hns.
    - rewrite lookup_insert_Some. intros [[_ <-]|[_ ?]]; [done|]. by eapply Hns. }
  destruct (decide (values' = ∅)); intros k' vs.
  - rewrite lookup_delete_Some. intros [_ ?]. by apply (Ht k').
  - rewrite lookup_insert_Some. intros [[_ <-]|[_ ?]]; [done|]. by apply (Ht k').
Qed.

(** The loops of [Add] and [Remove], entry by entry. *)
Lemma bucket_append_all name (kvs : list (string * string)) ix k v :
  NoDup kvs.*1 ->
  bucket (foldl (fun ix kv => index_append name ix kv.1 kv.2) ix kvs) k v =
  bucket ix k v ++ (if decide ((k, v) ∈ kvs) then [name] else []).
Proof.
  revert ix; induction kvs as [|[k0 v0] kvs IH]; intros ix Hnd; simpl.
  - by rewrite app_nil_r.
  - rewrite fmap_cons in Hnd. apply NoDup_cons in Hnd as [Hk0 Hnd]. rewrite IH by done.
    rewrite bucket_append. destruct (decide (k0 = k /\ v0 = v)) as [[-> ->]|Hne].
    + rewrite (decide_False (P := (k, v) ∈ kvs)).
      2:{ intros Hin. apply Hk0. by apply (list_elem_of_fmap_2 fst _ (k, v)). }
      rewrite (decide_True (P := (k, v) ∈ (k, v) :: kvs)) by set_solver. by rewrite app_nil_r.
    + f_equal. apply decide_ext. rewrite elem_of_cons. naive_solver.
Qed.

Lemma bucket_remove_all name (kvs : list (string * string)) ix k v :
  bucket (foldl (fun ix kv => index_remove name ix kv.1 kv.2) ix kvs) k v =
  if decide ((k, v) ∈ kvs) then filter (fun c => c ≠ name) (bucket ix k v) else bucket ix k v.
Proof.
  revert ix; induction kvs as [|[k0 v0] kvs IH]; intros ix; simpl; [done|].
  rewrite IH, bucket_remove. destruct (decide (k0 = k /\ v0 = v)) as [[-> ->]|Hne].
  - rewrite (decide_True (P := (k, v) ∈ (k, v) :: kvs)) by set_solver.
    case_decide; [|done]. rewrite list_filter_filter. apply list_filter_iff. naive_solver.
  - erewrite decide_ext; [done|]. rewrite elem_of_cons. naive_solver.
Qed.

Lemma tidy_foldl (f : gmap string (gmap string (list string)) -> string -> string -> _) kvs ix :
  (forall ix k v, index_tidy ix -> index_tidy (f ix k v)) -> index_tidy ix ->
  index_tidy (foldl (fun ix kv => f ix kv.1 kv.2) ix kvs).
Proof. intros Hf. revert ix; induction kvs as [|kv kvs IH]; intros ix Hix; [done|]. simpl. auto. Qed.
End index_lemmas.

Section indexer_theorems.
Context `{GoRuntimeLaws}.
Implicit Types (i : SimpleIndexer) (name key value : string) (labels : Labels).

Lemma new_indexer_wf : indexer_wf NewSimpleIndexer.
Proof.
  split; simpl.
  - intros k v n. unfold bucket, has_label. rewrite lookup_empty. simpl. rewrite lookup_empty. simpl.
    split; [by intros ?%elem_of_nil|]. intros (ls & Hls & _). by rewrite lookup_empty in Hls.
  - intros. unfold bucket. rewrite lookup_empty. simpl. rewrite lookup_empty. constructor.
  - intros k values. by rewrite lookup_empty.
Qed.

Lemma Add_wf i name labels :
  clusterLabels i !! name = None -> indexer_wf i -> indexer_wf (Add i name labels).
Proof.
  intros Hfresh [Hb Hnd Ht].
  assert (forall k v, name ∉ bucket (index i) k v) as Hnot.
  { intros k v Hin. apply Hb in Hin as (ls & Hls & _). congruence. }
  assert (NoDup (go_range 10 labels).*1) as Hkeys by apply range_keys_NoDup.
  split; simpl.
  - intros k v n. rewrite bucket_append_all by done. rewrite elem_of_app, Hb. unfold has_label. simpl.
    destruct (decide (n = name)) as [->|Hne].
    + rewrite lookup_insert_eq, Hfresh. case_decide as Hin; rewrite range_elem in Hin.
      * rewrite list_elem_of_singleton. naive_solver.
      * rewrite elem_of_nil. naive_solver.
    + rewrite lookup_insert_ne by done. case_decide; set_solver.
  - intros k v. rewrite bucket_append_all by done. apply NoDup_app. split_and!; [done| |].
    + intros n Hn. case_decide; [|apply not_elem_of_nil]. intros ->%list_elem_of_singleton. by eapply Hnot.
    + case_decide; repeat constructor. by intros ?%elem_of_nil.
  - apply tidy_foldl; [intros; by apply tidy_append|done].
Qed.

Lemma Remove_wf i name : indexer_wf i -> indexer_wf (Remove i name).
Proof.
  intros Hwf. unfold Remove. destruct (clusterLabels i !! name) as [ls|] eqn:Els; [|done].
  destruct Hwf as [Hb Hnd Ht]. split; simpl.
  - intros k v n. rewrite bucket_remove_all. unfold has_label. simpl.
    destruct (decide (n = name)) as [->|Hne].
    + rewrite lookup_delete_eq. split; [|naive_solver]. intros Hn. exfalso.
      case_decide as Hk; rewrite range_elem in Hk.
      * apply list_elem_of_filter in Hn. naive_solver.
      * apply Hb in Hn as (ls' & Hls' & Hv). naive_solver.
    + rewrite lookup_delete_ne by done. fold (has_label i n k v). rewrite <- Hb. case_decide; [|done].
      rewrite list_elem_of_filter. naive_solver.
  - intros k v. rewrite bucket_remove_all. case_decide; [apply NoDup_filter|]; apply Hnd.
  - apply tidy_foldl; [intros; by apply tidy_remove|done].
Qed.

Lemma Remove_labels i name : clusterLabels (Remove i name) = delete name (clusterLabels i).
Proof.
  unfold Remove. destruct (clusterLabels i !! name) eqn:E; [done|]. by rewrite delete_id.
Qed.

Lemma copy_map_id {V} site (f : V -> V) (m : gmap string V) :
  (forall v, f v = v) -> copy_map site f m = m.
Proof.
  intros Hf. apply map_eq. intros k. unfold copy_map. rewrite foldl_insert_lookup by apply range_keys_NoDup.
  rewrite range_to_map, lookup_empty. destruct (m !! k); by rewrite ?Hf.
Qed.

Lemma Clone_id i : Clone i = i.
Proof.
  destruct i as [ix ls]. unfold Clone. simpl. f_equal; (apply copy_map_id; intros; by apply copy_map_id).
Qed.

Lemma GetClustersByLabel_elem i key value name :
  indexer_wf i -> name ∈ GetClustersByLabel i key value <-> has_label i name key value.
Proof.
  intros Hwf. rewrite <- (wf_bucket i Hwf). unfold GetClustersByLabel, bucket.
  by destruct (index i !! key).
Qed.

Lemma foldl_set_elem (l : list string) (s : gmap string ()) k :
  is_Some (foldl (fun s n => <[n := tt]> s) s l !! k) <-> is_Some (s !! k) \/ k ∈ l.
Proof.
  revert s; induction l as [|n l IH]; intros s; simpl.
  - rewrite elem_of_nil. tauto.
  - rewrite IH, elem_of_cons, lookup_insert_is_Some. destruct (decide (n = k)); naive_solver.
Qed.

Lemma GetClustersByLabelKey_elem i key name :
  indexer_wf i -> name ∈ GetClustersByLabelKey i key <-> exists value, has_label i name key value.
Proof.
  intros Hwf. setoid_rewrite <- (wf_bucket i Hwf). unfold GetClustersByLabelKey, bucket.
  destruct (index i !! key) as [values|] eqn:E; simpl.
  2:{ split; [by intros ?%elem_of_nil|]. intros [v Hv]. rewrite lookup_empty in Hv.
      by apply elem_of_nil in Hv. }
  rewrite range_keys_elem.
  assert (forall (kvs : list (string * list string)) (s : gmap string ()),
    is_Some (foldl (fun set kv => foldl (fun s n => <[n := tt]> s) set kv.2) s kvs !! name) <->
    is_Some (s !! name) \/ exists kv, kv ∈ kvs /\ name ∈ kv.2) as Hloop.
  { induction kvs as [|kv kvs IH]; intros s; simpl; [set_solver|].
    rewrite IH, foldl_set_elem. set_solver. }
  rewrite Hloop, lookup_empty. split.
  - intros [[? ?]|([v ns] & Hkv & Hn)]; [done|]. apply range_elem in Hkv. exists v. by rewrite Hkv.
  - intros [v Hv]. right. destruct (values !! v) as [ns|] eqn:Ev; simpl in Hv; [|by apply elem_of_nil in Hv].
    exists (v, ns). split; [by apply range_elem|done].
Qed.

Lemma ListClustersByLabelSelector_elem i (matches : Labels -> bool) name :
  name ∈ ListClustersByLabelSelector i matches <->
  exists labels, clusterLabels i !! name = Some labels /\ matches labels = true.
Proof.
  unfold ListClustersByLabelSelector. rewrite list_elem_of_fmap. split.
  - intros ([n ls] & -> & [Hm Hin]%list_elem_of_filter). apply range_elem in Hin. eauto.
  - intros (ls & Hls & Hm). exists (name, ls). split; [done|]. apply list_elem_of_filter.
    split; [done|]. by apply range_elem.
Qed.
End indexer_theorems.

(** ** The interface of the pre-filter *)

(** The label of a cluster is [labels_of name]; an index answers both kinds of
    query exactly. *)
Class LabelIndex `{GoRuntime} (i : SimpleIndexer) (labels_of : string -> option Labels) : Prop := {
  index_value : forall name key value,
    name ∈ GetClustersByLabel i key value <->
    exists ls, labels_of name = Some ls /\ ls !! key = Some value;
  index_key : forall name key,
    name ∈ GetClustersByLabelKey i key <-> exists ls, labels_of name = Some ls /\ is_Some (ls !! key);
}.

Lemma wf_label_index `{GoRuntimeLaws} (i : SimpleIndexer) :
  indexer_wf i -> LabelIndex i (fun name => clusterLabels i !! name).
Proof.
  intros Hwf. split; intros name key.
  - intros value. by apply GetClustersByLabel_elem.
  - rewrite GetClustersByLabelKey_elem by done. unfold has_label, is_Some. naive_solver.
Qed.
