(* ===== verification/Cache.v ===== *)
(** * The scheduler cache

    cache/cache.go and the [ClusterInfo] part of cache/interface.go: the clusters
    the scheduler knows, the resources it has promised on each of them to
    applications whose placement is not yet visible in the cluster's status, and
    the label index.  [cache_inv] is the invariant of every reachable state; the
    theorems at the end of the file are about the accounting of the promises. *)

From S2P Require Import Prelude Float64 GoRuntime Api Indexer.

Record AssumedApplicationInfo `{Kubernetes} := mkAssumed {
  Resources : gmap string Quantity;
  assumed_Replicas : Z }.

Record ClusterInfo `{Kubernetes} := mkClusterInfo {
  Cluster : ManagedCluster;
  RequestedResources : gmap string Quantity;
  AssumedApplications : gmap string AssumedApplicationInfo }.

Record Snapshot `{Kubernetes} := mkSnapshot {
  Clusters : gmap string ClusterInfo;
  snap_Indexer : SimpleIndexer }.

Record clusterCache `{Kubernetes} := mkCache {
  clusters : gmap string ClusterInfo;
  indexer : SimpleIndexer }.

Arguments mkAssumed {_}. Arguments mkClusterInfo {_}. Arguments mkSnapshot {_}. Arguments mkCache {_}.

Section operations.
Context `{GoRuntime, Kubernetes}.

(** ** Resource lists *)

Definition AddResourceList (list new : gmap string Quantity) : gmap string Quantity :=
  foldl (fun list '(name, quantity) =>
    match list !! name with
    | Some value => <[name := qty_Add value quantity]> list
    | None => <[name := quantity]> list
    end) list (go_range 20 new).

Definition MaxResourceList (list new : gmap string Quantity) : gmap string Quantity :=
  foldl (fun list '(name, quantity) =>
    match list !! name with
    | Some value => if 0 <? qty_Cmp quantity value then <[name := quantity]> list else list
    | None => <[name := quantity]> list
    end) list (go_range 21 new).

(** [None] is the nil ResourceList; the empty one is [Some ∅]. *)
Definition CalculatePodResources (app : Application) : option (gmap string Quantity) :=
  if String.eqb (Template (Spec app)) "" then None
  else
    match unmarshal_template (Template (Spec app)) with
    | None => None
    | Some template =>
        let podReq := foldl (fun l c => AddResourceList l (Requests c)) ∅ (Containers template) in
        Some (foldl (fun l c => MaxResourceList l (Requests c)) podReq (InitContainers template))
    end.

(** ** ClusterInfo *)

Definition NewClusterInfo (cluster : ManagedCluster) : ClusterInfo := mkClusterInfo cluster ∅ ∅.

Definition clone_info (c : ClusterInfo) : ClusterInfo := {|
  Cluster := Cluster c;
  RequestedResources := RequestedResources c;
  AssumedApplications :=
    foldl (fun m '(k, v) => <[k := mkAssumed (Resources v) (assumed_Replicas v)]> m) ∅
      (go_range 22 (AssumedApplications c)) |}.

(** ** The cache *)

Definition NewCache : clusterCache := mkCache ∅ NewSimpleIndexer.

Definition missing (name : string) : string := "cluster " +:+ name +:+ " does not exist".

Definition AddCluster (c : clusterCache) (cluster : ManagedCluster) : res clusterCache :=
  match clusters c !! mc_Name cluster with
  | Some _ => Err ("cluster " +:+ mc_Name cluster +:+ " already exists")
  | None => Ok {|
      clusters := <[mc_Name cluster := NewClusterInfo cluster]> (clusters c);
      indexer := Add (indexer c) (mc_Name cluster) (mc_Labels cluster) |}
  end.

Definition UpdateCluster (c : clusterCache) (oldCluster newCluster : ManagedCluster) : res clusterCache :=
  match clusters c !! mc_Name oldCluster with
  | None => Err (missing (mc_Name oldCluster))
  | Some info => Ok {|
      clusters := <[mc_Name oldCluster := mkClusterInfo newCluster
                      (RequestedResources info) (AssumedApplications info)]> (clusters c);
      indexer := Add (Remove (indexer c) (mc_Name oldCluster)) (mc_Name newCluster) (mc_Labels newCluster) |}
  end.

Definition RemoveCluster (c : clusterCache) (cluster : ManagedCluster) : res clusterCache :=
  match clusters c !! mc_Name cluster with
  | None => Err (missing (mc_Name cluster))
  | Some _ => Ok {|
      clusters := delete (mc_Name cluster) (clusters c);
      indexer := Remove (indexer c) (mc_Name cluster) |}
  end.

(** The promised resources, added to [Status.ResourceSummary[0].Allocated]. *)
Definition apply_requested (requested : gmap string Quantity) (cluster : ManagedCluster) : ManagedCluster :=
  match mc_ResourceSummary cluster with
  | [] => cluster
  | summary :: rest =>
      let allocated :=
        foldl (fun m '(name, quantity) => <[name := qty_Add (rl_get m name) quantity]> m)
          (Allocated summary) (go_range 23 requested) in
      mkCluster (mc_Name cluster) (mc_Labels cluster) (mc_Deleting cluster) (mc_Taints cluster)
        (mkSummary (Allocatable summary) (Allocating summary) allocated :: rest) (mc_Conditions cluster)
        (mc_Access cluster) (mc_State cluster)
  end.

Definition snapshot_info (v : ClusterInfo) : ClusterInfo :=
  let cloned := clone_info v in
  mkClusterInfo (apply_requested (RequestedResources cloned) (Cluster cloned))
    (RequestedResources cloned) (AssumedApplications cloned).

Definition snapshot (c : clusterCache) : Snapshot := {|
  Clusters := foldl (fun m '(k, v) => <[k := snapshot_info v]> m) ∅ (go_range 24 (clusters c));
  snap_Indexer := Clone (indexer c) |}.

(** [q := quantity.DeepCopy(); for i := int32(1); i < replicas; i++ { q.Add(quantity) }] *)
Definition replicated (quantity : Quantity) (replicas : Z) : Quantity :=
  Nat.iter (Z.to_nat (replicas - 1)) (fun q => qty_Add q quantity) quantity.

Definition AssumeApplication (c : clusterCache) (app : Application) (clusterName : string) (replicas : Z)
    : res clusterCache :=
  match clusters c !! clusterName with
  | None => Err (missing clusterName)
  | Some info =>
      match CalculatePodResources app with
      | None => Ok c
      | Some podReq =>
          match AssumedApplications info !! appKey app with
          | Some _ => Ok c
          | None =>
              let '(totalReq, requested) :=
                foldl (fun '(totalReq, requested) '(name, quantity) =>
                  let q := replicated quantity replicas in
                  (<[name := q]> totalReq, <[name := qty_Add (rl_get requested name) q]> requested))
                  (∅, RequestedResources info) (go_range 25 podReq) in
              Ok {|
                clusters := <[clusterName := mkClusterInfo (Cluster info) requested
                  (<[appKey app := mkAssumed totalReq replicas]> (AssumedApplications info))]> (clusters c);
                indexer := indexer c |}
          end
      end
  end.

(** The loop of [ForgetApplication] and [RemoveAssumedApplication]. *)
Definition release (site : nat) (requested resources : gmap string Quantity) : gmap string Quantity :=
  foldl (fun requested '(name, quantity) =>
    let agg := qty_Sub (rl_get requested name) quantity in
    if qty_IsZero agg || (qty_Sign agg <? 0) then delete name requested
    else <[name := agg]> requested) requested (go_range site resources).

Definition forget_info (site : nat) (info : ClusterInfo) (key : string) : ClusterInfo :=
  match AssumedApplications info !! key with
  | None => info
  | Some assumed =>
      mkClusterInfo (Cluster info) (release site (RequestedResources info) (Resources assumed))
        (delete key (AssumedApplications info))
  end.

(** The argument [replicas] is not used. *)
Definition ForgetApplication (c : clusterCache) (app : Application) (clusterName : string) (replicas : Z)
    : res clusterCache :=
  match clusters c !! clusterName with
  | None => Err (missing clusterName)
  | Some info => Ok {|
      clusters := <[clusterName := forget_info 26 info (appKey app)]> (clusters c);
      indexer := indexer c |}
  end.

Definition RemoveAssumedApplication (c : clusterCache) (key : string) : clusterCache := {|
  clusters := range_update 27 (fun info => forget_info 28 info key) (clusters c);
  indexer := indexer c |}.
End operations.

(** ** Amounts *)

Section amounts.
Context `{G : GoRuntime, !GoRuntimeLaws G, K : Kubernetes, !KubernetesLaws K}.
Implicit Types (l new : gmap string Quantity) (app : Application) (info : ClusterInfo).

Definition nonneg_list l : Prop := forall name, 0 <= amount l name.

Lemma amount_insert l k q name :
  amount (<[k := q]> l) name = if decide (k = name) then qty_amt q else amount l name.
Proof.
  unfold amount, rl_get. destruct (decide (k = name)) as [->|];
    by rewrite ?lookup_insert_eq, ?lookup_insert_ne by done.
Qed.

Lemma amount_lookup l name q : l !! name = Some q -> amount l name = qty_amt q.
Proof. unfold amount, rl_get. by intros ->. Qed.

Lemma AddResourceList_amount l new name :
  amount (AddResourceList l new) name = amount l name + amount new name.
Proof.
  unfold amount at 1, rl_get at 1, AddResourceList.
  rewrite (range_pointwise _ (fun old q => Some (match old with Some v => qty_Add v q | None => q end))).
  2:{ intros m k w k'. destruct (m !! k); destruct (decide (k = k')) as [->|];
        by rewrite ?lookup_insert_eq, ?lookup_insert_ne by done. }
  unfold amount, rl_get. destruct (new !! name) as [q|], (l !! name) as [v|]; simpl;
    rewrite ?amt_Add, ?amt_zero; lia.
Qed.

Lemma MaxResourceList_amount l new name :
  nonneg_list l -> nonneg_list new ->
  amount (MaxResourceList l new) name = Z.max (amount l name) (amount new name).
Proof.
  intros Hl Hn. specialize (Hl name). specialize (Hn name). unfold amount, rl_get in *.
  unfold MaxResourceList.
  rewrite (range_pointwise _ (fun old q => match old with
    | Some v => if 0 <? qty_Cmp q v then Some q else Some v | None => Some q end)).
  2:{ intros m k w k'. destruct (m !! k) eqn:E; [destruct (0 <? _)|]; destruct (decide (k = k')) as [<-|];
        by rewrite ?lookup_insert_eq, ?lookup_insert_ne by done. }
  destruct (new !! name) as [q|], (l !! name) as [v|]; simpl in *; rewrite ?amt_zero in *; try lia.
  rewrite amt_Cmp. destruct (Z.ltb_spec 0 (Z.sgn (qty_amt q - qty_amt v))); simpl; lia.
Qed.

(** ** Pod requests *)

(** The resources of a container list, summed, and their largest. *)
Definition requests_sum (cs : list (Container Quantity)) (name : string) : Z :=
  sumZ (fun c => amount (Requests c) name) cs.
Definition requests_max (b : Z) (cs : list (Container Quantity)) (name : string) : Z :=
  foldl (fun m c => Z.max m (amount (Requests c) name)) b cs.

Definition nonneg_template (t : PodTemplateSpec Quantity) : Prop :=
  forall c, c ∈ Containers t ++ InitContainers t -> nonneg_list (Requests c).

Lemma containers_amount cs l name :
  amount (foldl (fun l c => AddResourceList l (Requests c)) l cs) name = amount l name + requests_sum cs name.
Proof.
  unfold requests_sum. revert l; induction cs as [|c cs IH]; intros l; simpl; [lia|].
  rewrite IH, AddResourceList_amount. lia.
Qed.

Lemma init_containers_amount cs l name :
  nonneg_list l -> (forall c, c ∈ cs -> nonneg_list (Requests c)) ->
  amount (foldl (fun l c => MaxResourceList l (Requests c)) l cs) name = requests_max (amount l name) cs name.
Proof.
  unfold requests_max. revert l; induction cs as [|c cs IH]; intros l Hl Hcs; simpl; [done|].
  assert (nonneg_list (Requests c)) by (apply Hcs; by left).
  rewrite IH; [by rewrite MaxResourceList_amount| |intros; apply Hcs; by right].
  intros n. rewrite MaxResourceList_amount by done. specialize (Hl n). lia.
Qed.

Lemma pod_resources_amount app t podReq name :
  Template (Spec app) ≠ "" -> unmarshal_template (Template (Spec app)) = Some t -> nonneg_template t ->
  CalculatePodResources app = Some podReq ->
  amount podReq name = requests_max (requests_sum (Containers t) name) (InitContainers t) name.
Proof.
  intros Hne Ht Hnn. unfold CalculatePodResources. rewrite (proj2 (String.eqb_neq _ _) Hne), Ht.
  intros [= <-].
  assert (forall n, amount (foldl (fun l c => AddResourceList l (Requests c)) ∅ (Containers t)) n
                    = requests_sum (Containers t) n) as Hc.
  { intros n. rewrite containers_amount, amount_empty. lia. }
  rewrite init_containers_amount; [by rewrite Hc| |].
  - intros n. rewrite Hc. apply sumZ_nonneg. intros c Hin. apply Hnn. set_solver.
  - intros c Hin. apply Hnn. set_solver.
Qed.

(** A template that the API server accepts has no negative request. *)
Definition valid_requests app : Prop :=
  forall podReq, CalculatePodResources app = Some podReq -> nonneg_list podReq.

Lemma requests_max_ge b cs name : b <= requests_max b cs name.
Proof.
  unfold requests_max. revert b; induction cs as [|c cs IH]; intros b; simpl; [lia|].
  specialize (IH (Z.max b (amount (Requests c) name))). lia.
Qed.

Lemma valid_requests_template app t :
  unmarshal_template (Template (Spec app)) = Some t -> nonneg_template t -> valid_requests app.
Proof.
  intros Ht Hnn podReq Hp name. rewrite (pod_resources_amount app t podReq) by
    (done || intros E; unfold CalculatePodResources in Hp; by rewrite E in Hp).
  etransitivity; [|apply requests_max_ge]. apply sumZ_nonneg. intros c Hc. apply Hnn. set_solver.
Qed.

(** ** The books of one cluster *)

Definition assumed_total (m : gmap string AssumedApplicationInfo) (name : string) : Z :=
  sumZ (fun kv => amount (Resources kv.2) name) (map_to_list m).

(** The aggregate is the sum of the assumed applications' resources. *)
Record info_ok info : Prop := {
  ok_amounts : forall name, amount (RequestedResources info) name = assumed_total (AssumedApplications info) name;
  ok_nonneg : forall key a, AssumedApplications info !! key = Some a -> nonneg_list (Resources a) }.

Lemma assumed_total_insert m key a name : m !! key = None ->
  assumed_total (<[key := a]> m) name = amount (Resources a) name + assumed_total m name.
Proof. intros. unfold assumed_total. by rewrite map_to_list_insert, sumZ_cons. Qed.

Lemma assumed_total_delete m key a name : m !! key = Some a ->
  assumed_total m name = amount (Resources a) name + assumed_total (delete key m) name.
Proof. intros. unfold assumed_total. by rewrite <- (map_to_list_delete m key a), sumZ_cons. Qed.

Lemma assumed_total_nonneg m name :
  (forall key a, m !! key = Some a -> nonneg_list (Resources a)) -> 0 <= assumed_total m name.
Proof.
  intros Hm. apply sumZ_nonneg. intros [key a] Hin. apply elem_of_map_to_list in Hin. by apply (Hm key).
Qed.

Lemma release_amount site requested resources name :
  amount resources name <= amount requested name ->
  amount (release site requested resources) name = amount requested name - amount resources name.
Proof.
  unfold amount, rl_get, release. intros Hle.
  rewrite (range_pointwise _ (fun old q =>
    let agg := qty_Sub (default qty_zero old) q in
    if qty_IsZero agg || (qty_Sign agg <? 0) then None else Some agg)).
  2:{ intros m k w k'. unfold rl_get. destruct (_ || _); destruct (decide (k = k')) as [<-|];
        by rewrite ?lookup_insert_eq, ?lookup_insert_ne, ?lookup_delete_eq, ?lookup_delete_ne by done. }
  destruct (resources !! name) as [q|]; simpl in *; [|rewrite amt_zero in *; lia].
  rewrite amt_IsZero, amt_Sign, amt_Sub. set (d := qty_amt (default _ _) - _) in *.
  destruct (Z.eqb_spec d 0), (Z.ltb_spec (Z.sgn d) 0); simpl; rewrite ?amt_zero, ?amt_Sub; lia.
Qed.

Lemma replicated_amount q n : qty_amt (replicated q n) = Z.max 1 n * qty_amt q.
Proof.
  unfold replicated. assert (forall k, qty_amt (Nat.iter k (fun x => qty_Add x q) q) = (Z.of_nat k + 1) * qty_amt q) as ->.
  { induction k as [|k IH]; [simpl; lia|]. rewrite Nat.iter_succ, amt_Add, IH. lia. }
  f_equal. lia.
Qed.

Lemma forget_info_ok site info key : info_ok info -> info_ok (forget_info site info key).
Proof.
  intros [Ha Hn]. unfold forget_info. destruct (AssumedApplications info !! key) as [a|] eqn:E; [|done].
  split; simpl.
  - intros name. pose proof (assumed_total_delete _ _ _ name E) as Hd.
    assert (0 <= assumed_total (delete key (AssumedApplications info)) name).
    { apply assumed_total_nonneg. intros k b. rewrite lookup_delete_Some. intros [_ ?]. eauto. }
    rewrite release_amount; rewrite Ha; lia.
  - intros k b. rewrite lookup_delete_Some. intros [_ ?]. eauto.
Qed.
End amounts.

(** ** The invariant of the cache *)

Section invariant.
Context `{G : GoRuntime, !GoRuntimeLaws G, K : Kubernetes, !KubernetesLaws K}.
Implicit Types (app : Application) (info : ClusterInfo) (c : clusterCache).

(** The books of every cluster balance, clusters are filed under their own name,
    and the index knows exactly the labels of the clusters. *)
Record cache_inv c : Prop := {
  inv_info : forall n info, clusters c !! n = Some info -> mc_Name (Cluster info) = n /\ info_ok info;
  inv_labels : forall n, clusterLabels (indexer c) !! n = (fun info => mc_Labels (Cluster info)) <$> clusters c !! n;
  inv_index : indexer_wf (indexer c) }.

(** One operation of the cache, as the event handlers and the scheduler issue
    them: an update is about one cluster, and requests are not negative. *)
Inductive cache_step c : clusterCache -> Prop :=
| step_add cluster c' : AddCluster c cluster = Ok c' -> cache_step c c'
| step_update old new c' :
    mc_Name new = mc_Name old -> UpdateCluster c old new = Ok c' -> cache_step c c'
| step_remove cluster c' : RemoveCluster c cluster = Ok c' -> cache_step c c'
| step_assume app name replicas c' :
    valid_requests app -> AssumeApplication c app name replicas = Ok c' -> cache_step c c'
| step_forget app name replicas c' : ForgetApplication c app name replicas = Ok c' -> cache_step c c'
| step_remove_assumed key : cache_step c (RemoveAssumedApplication c key).

Definition reachable : clusterCache -> Prop := rtc cache_step NewCache.

Lemma new_info_ok cluster : info_ok (NewClusterInfo cluster).
Proof.
  split; simpl; [|intros key a; by rewrite lookup_empty].
  intros name. rewrite amount_empty. unfold assumed_total. by rewrite map_to_list_empty.
Qed.

Lemma info_ok_cluster info cluster :
  info_ok info -> info_ok (mkClusterInfo cluster (RequestedResources info) (AssumedApplications info)).
Proof. by intros [? ?]. Qed.

Lemma foldl_pair {A B C} (f : A -> C -> A) (g : B -> C -> B) (l : list C) a b :
  foldl (fun '(x, y) e => (f x e, g y e)) (a, b) l = (foldl f a l, foldl g b l).
Proof. revert a b; induction l as [|e l IH]; intros a b; [done|]. simpl. apply IH. Qed.

(** What [AssumeApplication] adds to a cluster that does not know the application. *)
Definition assume_info info key (podReq : gmap string Quantity) (replicas : Z) : ClusterInfo :=
  mkClusterInfo (Cluster info)
    (foldl (fun m kv => <[kv.1 := qty_Add (rl_get m kv.1) (replicated kv.2 replicas)]> m)
       (RequestedResources info) (go_range 25 podReq))
    (<[key := mkAssumed (foldl (fun m kv => <[kv.1 := replicated kv.2 replicas]> m) ∅ (go_range 25 podReq))
                replicas]> (AssumedApplications info)).

Lemma AssumeApplication_fresh c app name replicas info podReq :
  clusters c !! name = Some info -> CalculatePodResources app = Some podReq ->
  AssumedApplications info !! appKey app = None ->
  AssumeApplication c app name replicas =
  Ok (mkCache (<[name := assume_info info (appKey app) podReq replicas]> (clusters c)) (indexer c)).
Proof.
  intros Hi Hp Ha. unfold AssumeApplication. rewrite Hi, Hp, Ha.
  rewrite (foldl_ext _ (fun '(x, y) (kv : string * Quantity) =>
    (<[kv.1 := replicated kv.2 replicas]> x, <[kv.1 := qty_Add (rl_get y kv.1) (replicated kv.2 replicas)]> y)))
    by (by intros [? ?] [? ?]).
  by rewrite foldl_pair.
Qed.

Lemma assumed_amount (podReq : gmap string Quantity) replicas name :
  amount (foldl (fun m kv => <[kv.1 := replicated kv.2 replicas]> m) ∅ (go_range 25 podReq)) name
  = Z.max 1 replicas * amount podReq name.
Proof.
  unfold amount at 1, rl_get. rewrite (range_pointwise _ (fun _ q => Some (replicated q replicas))).
  2:{ intros m k w k'. simpl. destruct (decide (k = k')) as [->|];
        by rewrite ?lookup_insert_eq, ?lookup_insert_ne by done. }
  rewrite lookup_empty. unfold amount, rl_get.
  destruct (podReq !! name); simpl; rewrite ?replicated_amount, ?amt_zero; lia.
Qed.

Lemma requested_amount (podReq requested : gmap string Quantity) replicas name :
  amount (foldl (fun m kv => <[kv.1 := qty_Add (rl_get m kv.1) (replicated kv.2 replicas)]> m) requested
            (go_range 25 podReq)) name
  = amount requested name + Z.max 1 replicas * amount podReq name.
Proof.
  unfold amount at 1, rl_get at 1.
  rewrite (range_pointwise _ (fun old q => Some (qty_Add (default qty_zero old) (replicated q replicas)))).
  2:{ intros m k w k'. simpl. unfold rl_get. destruct (decide (k = k')) as [->|];
        by rewrite ?lookup_insert_eq, ?lookup_insert_ne by done. }
  unfold amount, rl_get. destruct (podReq !! name); simpl; rewrite ?amt_Add, ?replicated_amount, ?amt_zero; lia.
Qed.

Lemma assume_info_ok info key podReq replicas :
  info_ok info -> nonneg_list podReq -> AssumedApplications info !! key = None ->
  info_ok (assume_info info key podReq replicas).
Proof.
  intros [Ha Hn] Hp Hk. split; simpl.
  - intros name. rewrite requested_amount, assumed_total_insert by done. simpl.
    rewrite assumed_amount, Ha. lia.
  - intros k a. rewrite lookup_insert_Some. intros [[_ <-]|[_ ?]]; [|by eapply Hn].
    intros name. simpl. rewrite assumed_amount. specialize (Hp name). nia.
Qed.

(** Replacing the books of a cluster and keeping the cluster. *)
Lemma inv_set_info c n info info' :
  cache_inv c -> clusters c !! n = Some info -> Cluster info' = Cluster info -> info_ok info' ->
  cache_inv (mkCache (<[n := info']> (clusters c)) (indexer c)).
Proof.
  intros [Hi Hl Hx] Hn Hc Hok. destruct (Hi n info Hn) as [Hname _]. split; simpl; [| |done].
  - intros m i. rewrite lookup_insert_Some. intros [[<- <-]|[_ Hm]]; [|by apply Hi].
    by rewrite Hc.
  - intros m. rewrite Hl. destruct (decide (n = m)) as [<-|]; [|by rewrite lookup_insert_ne].
    rewrite lookup_insert_eq, Hn. simpl. by rewrite Hc.
Qed.

Lemma inv_add c n info :
  cache_inv c -> clusterLabels (indexer c) !! n = None -> mc_Name (Cluster info) = n -> info_ok info ->
  cache_inv (mkCache (<[n := info]> (clusters c)) (Add (indexer c) n (mc_Labels (Cluster info)))).
Proof.
  intros [Hi Hl Hx] Hn Hc Hok. split; simpl; [| |by apply Add_wf].
  - intros m i. rewrite lookup_insert_Some. intros [[<- <-]|[_ Hm]]; [done|by apply Hi].
  - intros m. destruct (decide (n = m)) as [<-|]; [by rewrite !lookup_insert_eq|by rewrite !lookup_insert_ne].
Qed.

Lemma inv_remove c n :
  cache_inv c -> cache_inv (mkCache (delete n (clusters c)) (Remove (indexer c) n)).
Proof.
  intros [Hi Hl Hx]. split; simpl; [| |by apply Remove_wf].
  - intros m i. rewrite lookup_delete_Some. intros [_ ?]. by apply Hi.
  - intros m. rewrite Remove_labels. destruct (decide (n = m)) as [<-|];
      by rewrite ?lookup_delete_eq, ?lookup_delete_ne by done.
Qed.

Lemma step_inv c c' : cache_inv c -> cache_step c c' -> cache_inv c'.
Proof.
  intros Hinv Hstep. pose proof Hinv as [Hi Hl Hx]. destruct Hstep as
    [cluster c' H|old new c' Hnew H|cluster c' H|app n r c' Hv H|app n r c' H|key].
  - unfold AddCluster in H. destruct (clusters c !! mc_Name cluster) eqn:E; [done|]. injection H as <-.
    apply (inv_add c (mc_Name cluster) (NewClusterInfo cluster)); [done| |done|apply new_info_ok].
    by rewrite Hl, E.
  - unfold UpdateCluster in H. destruct (clusters c !! mc_Name old) as [info|] eqn:E; [|done]. injection H as <-.
    pose proof (inv_remove c (mc_Name old) Hinv) as Hr. rewrite Hnew.
    pose proof (inv_add _ (mc_Name old) (mkClusterInfo new (RequestedResources info) (AssumedApplications info)) Hr)
      as Ha. simpl in Ha. rewrite insert_delete_eq in Ha. apply Ha; [|done|].
    + rewrite Remove_labels. apply lookup_delete_eq.
    + apply info_ok_cluster. by apply (Hi (mc_Name old)).
  - unfold RemoveCluster in H. destruct (clusters c !! mc_Name cluster); [|done]. injection H as <-.
    by apply inv_remove.
  - destruct (clusters c !! n) as [info|] eqn:En; [|unfold AssumeApplication in H; by rewrite En in H].
    destruct (CalculatePodResources app) as [podReq|] eqn:Ep; [|unfold AssumeApplication in H; rewrite En, Ep in H; by injection H as <-].
    destruct (AssumedApplications info !! appKey app) eqn:Ea; [unfold AssumeApplication in H; rewrite En, Ep, Ea in H; by injection H as <-|].
    rewrite (AssumeApplication_fresh _ _ _ _ _ _ En Ep Ea) in H. injection H as <-.
    eapply inv_set_info; [done|done|done|]. apply assume_info_ok; [by apply (Hi n)|by apply Hv|done].
  - unfold ForgetApplication in H. destruct (clusters c !! n) as [info|] eqn:En; [|done]. injection H as <-.
    eapply inv_set_info; [done|done| |apply forget_info_ok; by apply (Hi n)].
    unfold forget_info. by destruct (AssumedApplications info !! appKey app).
  - unfold RemoveAssumedApplication. rewrite range_update_fmap. split; simpl; [| |done].
    + intros n i. rewrite lookup_fmap, fmap_Some. intros (info & Hn & ->).
      destruct (Hi n info Hn). split; [|by apply forget_info_ok].
      unfold forget_info. by destruct (AssumedApplications info !! key).
    + intros n. rewrite Hl, lookup_fmap. destruct (clusters c !! n) as [info|]; [|done]. simpl. f_equal.
      unfold forget_info. by destruct (AssumedApplications info !! key).
Qed.

Lemma new_cache_inv : cache_inv NewCache.
Proof.
  split; simpl; [intros n info; by rewrite lookup_empty|intros n; by rewrite !lookup_empty|apply new_indexer_wf].
Qed.

Lemma reachable_inv c : reachable c -> cache_inv c.
Proof.
  intros Hr. unfold reachable in Hr. pose proof new_cache_inv as Hn. revert Hn.
  induction Hr as [c|c c' c'' Hs Hr IH]; [done|]. intros. apply IH. by eapply step_inv.
Qed.
End invariant.

(** ** Snapshots *)

Section snapshots.
Context `{G : GoRuntime, !GoRuntimeLaws G, K : Kubernetes}.

Lemma clone_info_id info : clone_info info = info.
Proof.
  destruct info as [cl rq aa]. unfold clone_info. simpl. f_equal. apply map_eq. intros k.
  rewrite (range_pointwise _ (fun _ a => Some (mkAssumed (Resources a) (assumed_Replicas a)))).
  2:{ intros m i w k'. simpl. destruct (decide (i = k')) as [->|];
        by rewrite ?lookup_insert_eq, ?lookup_insert_ne by done. }
  rewrite lookup_empty. by destruct (aa !! k) as [[? ?]|].
Qed.

Lemma snapshot_clusters c n : Clusters (snapshot c) !! n = snapshot_info <$> clusters c !! n.
Proof.
  simpl. rewrite (range_pointwise _ (fun _ i => Some (snapshot_info i))).
  2:{ intros m i w k'. simpl. destruct (decide (i = k')) as [->|];
        by rewrite ?lookup_insert_eq, ?lookup_insert_ne by done. }
  by destruct (clusters c !! n).
Qed.

Lemma snapshot_info_cluster info :
  mc_Name (Cluster (snapshot_info info)) = mc_Name (Cluster info) /\
  mc_Labels (Cluster (snapshot_info info)) = mc_Labels (Cluster info).
Proof.
  unfold snapshot_info, apply_requested. rewrite clone_info_id. simpl.
  by destruct (mc_ResourceSummary (Cluster info)).
Qed.
End snapshots.

(** ** Properties *)

Section properties.
Context `{G : GoRuntime, !GoRuntimeLaws G, K : Kubernetes, !KubernetesLaws K}.
Implicit Types (app : Application) (info : ClusterInfo).

(** In every reachable cache the resources requested on a cluster are, for
    each resource, exactly the sum over the applications assumed there (the
    removals of entries that fall to zero or below lose nothing), each cluster
    is filed under its name, and the label index answers for exactly the labels
    of the cached clusters. *)
Theorem cache_accounting (c : clusterCache) : reachable c ->
  (forall n info name, clusters c !! n = Some info ->
     mc_Name (Cluster info) = n /\
     amount (RequestedResources info) name = assumed_total (AssumedApplications info) name /\
     0 <= amount (RequestedResources info) name) /\
  (forall name key value, name ∈ GetClustersByLabel (indexer c) key value <->
     exists info, clusters c !! name = Some info /\ mc_Labels (Cluster info) !! key = Some value).
Proof.
  intros Hr. destruct (reachable_inv c Hr) as [Hi Hl Hx]. split.
  - intros n info name Hn. destruct (Hi n info Hn) as [Hname [Ha Hnn]]. split_and!; [done|done|].
    rewrite Ha. by apply assumed_total_nonneg.
  - intros name key value. rewrite GetClustersByLabel_elem by done. unfold has_label.
    setoid_rewrite Hl. setoid_rewrite fmap_Some. naive_solver.
Qed.

(** Assuming an application on a known cluster that does not hold it yet adds
    [max 1 replicas] times its pod's requests to the cluster and touches nothing
    else; a cluster that is not in the cache is an error; an application that is
    already assumed, or has no readable template, changes nothing. *)
Theorem AssumeApplication_spec (c : clusterCache) app name replicas :
  match clusters c !! name with
  | None => AssumeApplication c app name replicas = Err (missing name)
  | Some info =>
      match CalculatePodResources app, AssumedApplications info !! appKey app with
      | Some podReq, None => exists info',
          AssumeApplication c app name replicas = Ok (mkCache (<[name := info']> (clusters c)) (indexer c)) /\
          Cluster info' = Cluster info /\
          (forall r, amount (RequestedResources info') r =
                     amount (RequestedResources info) r + Z.max 1 replicas * amount podReq r) /\
          (exists a, AssumedApplications info' = <[appKey app := a]> (AssumedApplications info) /\
             assumed_Replicas a = replicas /\ forall r, amount (Resources a) r = Z.max 1 replicas * amount podReq r)
      | _, _ => AssumeApplication c app name replicas = Ok c
      end
  end.
Proof.
  destruct (clusters c !! name) as [info|] eqn:En; [|unfold AssumeApplication; by rewrite En].
  destruct (CalculatePodResources app) as [podReq|] eqn:Ep; [|unfold AssumeApplication; by rewrite En, Ep].
  destruct (AssumedApplications info !! appKey app) eqn:Ea; [unfold AssumeApplication; by rewrite En, Ep, Ea|].
  exists (assume_info info (appKey app) podReq replicas). split_and!.
  - by apply AssumeApplication_fresh.
  - done.
  - intros r. apply requested_amount.
  - eexists. split_and!; [done|done|]. intros r. apply assumed_amount.
Qed.

(** Forgetting undoes assuming: on a reachable cache, if an application not
    yet assumed on a cluster is assumed there and then forgotten, no resource
    amount and no assumed application of any cluster has changed. *)
Theorem forget_undoes_assume (c : clusterCache) app name replicas replicas' c1 c2 :
  reachable c ->
  (forall info, clusters c !! name = Some info -> AssumedApplications info !! appKey app = None) ->
  AssumeApplication c app name replicas = Ok c1 ->
  ForgetApplication c1 app name replicas' = Ok c2 ->
  indexer c2 = indexer c /\
  forall n, match clusters c !! n, clusters c2 !! n with
            | Some i, Some i2 => Cluster i2 = Cluster i /\
                AssumedApplications i2 = AssumedApplications i /\
                forall r, amount (RequestedResources i2) r = amount (RequestedResources i) r
            | None, None => True
            | _, _ => False
            end.
Proof.
  intros Hr Hfresh Hassume Hforget. pose proof (reachable_inv c Hr) as [Hi _ _].
  destruct (clusters c !! name) as [info|] eqn:En; [|unfold AssumeApplication in Hassume; by rewrite En in Hassume].
  specialize (Hfresh info eq_refl).
  destruct (CalculatePodResources app) as [podReq|] eqn:Ep.
  - rewrite (AssumeApplication_fresh _ _ _ _ _ _ En Ep Hfresh) in Hassume. injection Hassume as <-.
    unfold ForgetApplication in Hforget. simpl in Hforget. rewrite lookup_insert_eq in Hforget.
    injection Hforget as <-. split; [done|]. intros n. simpl.
    destruct (decide (name = n)) as [<-|]; [|rewrite !lookup_insert_ne by done; by destruct (clusters c !! n)].
    rewrite lookup_insert_eq, En. unfold forget_info, assume_info. simpl.
    rewrite lookup_insert_eq. simpl. split_and!; [done|by apply delete_insert_id|].
    intros r. destruct (Hi name info En) as [_ [Ha Hnn]].
    assert (0 <= amount (RequestedResources info) r) by (rewrite Ha; by apply assumed_total_nonneg).
    rewrite release_amount; rewrite assumed_amount, requested_amount; [lia|]. lia.
  - unfold AssumeApplication in Hassume. rewrite En, Ep in Hassume. injection Hassume as <-.
    unfold ForgetApplication in Hforget. rewrite En in Hforget. injection Hforget as <-.
    split; [done|]. intros n. simpl. unfold forget_info. rewrite Hfresh.
    destruct (decide (name = n)) as [<-|]; [by rewrite lookup_insert_eq, En|].
    rewrite lookup_insert_ne by done. by destruct (clusters c !! n).
Qed.

(** A snapshot has the clusters of the cache and only those; the first
    resource summary of each shows as allocated what the status says plus what
    is promised, and everything else, index included, is unchanged. *)
Theorem snapshot_spec (c : clusterCache) n :
  snap_Indexer (snapshot c) = indexer c /\
  match clusters c !! n, Clusters (snapshot c) !! n with
  | None, None => True
  | Some i, Some s =>
      RequestedResources s = RequestedResources i /\ AssumedApplications s = AssumedApplications i /\
      mc_Name (Cluster s) = mc_Name (Cluster i) /\ mc_Labels (Cluster s) = mc_Labels (Cluster i) /\
      mc_Taints (Cluster s) = mc_Taints (Cluster i) /\ mc_Conditions (Cluster s) = mc_Conditions (Cluster i) /\
      match mc_ResourceSummary (Cluster i), mc_ResourceSummary (Cluster s) with
      | [], [] => True
      | a :: rest, b :: rest' => rest = rest' /\ Allocatable b = Allocatable a /\
          forall r, amount (Allocated b) r = amount (Allocated a) r + amount (RequestedResources i) r
      | _, _ => False
      end
  | _, _ => False
  end.
Proof.
  split; [apply Clone_id|]. rewrite snapshot_clusters.
  destruct (clusters c !! n) as [i|]; cbn [fmap option_fmap option_map]; [|done].
  unfold snapshot_info, apply_requested. rewrite ?clone_info_id. simpl.
  destruct (mc_ResourceSummary (Cluster i)) as [|a rest] eqn:Es; simpl; [by rewrite Es|].
  split_and!; try done. intros r. simpl.
  unfold amount at 1, rl_get at 1.
  rewrite (range_pointwise _ (fun old q => Some (qty_Add (default qty_zero old) q))).
  2:{ intros m k w k'. simpl. unfold rl_get. destruct (decide (k = k')) as [->|];
        by rewrite ?lookup_insert_eq, ?lookup_insert_ne by done. }
  unfold amount, rl_get. destruct (RequestedResources i !! r); simpl; rewrite ?amt_Add, ?amt_zero; lia.
Qed.

(** A pod needs, for each resource, the sum over its containers or, if it is
    larger, the largest request of an init container. *)
Theorem CalculatePodResources_spec app t :
  Template (Spec app) ≠ "" -> unmarshal_template (Template (Spec app)) = Some t -> nonneg_template t ->
  exists podReq, CalculatePodResources app = Some podReq /\
    forall r, (forall c, c ∈ InitContainers t -> amount (Requests c) r <= amount podReq r) /\
      requests_sum (Containers t) r <= amount podReq r /\
      (amount podReq r = requests_sum (Containers t) r \/
       exists c, c ∈ InitContainers t /\ amount podReq r = amount (Requests c) r).
Proof.
  intros Hne Ht Hnn. destruct (CalculatePodResources app) as [podReq|] eqn:E.
  2:{ unfold CalculatePodResources in E. rewrite (proj2 (String.eqb_neq _ _) Hne), Ht in E. done. }
  exists podReq. split; [done|]. intros r. rewrite (pod_resources_amount app t podReq r) by done.
  generalize (requests_sum (Containers t) r) as b. unfold requests_max. clear.
  induction (InitContainers t) as [|c cs IH]; intros b; simpl.
  - split_and!; [by intros ? ?%elem_of_nil|lia|by left].
  - destruct (IH (Z.max b (amount (Requests c) r))) as (H1 & H2 & H3). split_and!.
    + intros c' [->|Hc']%elem_of_cons; [lia|by apply H1].
    + lia.
    + destruct H3 as [->|(c' & Hc' & ->)]; [|right; exists c'; split; [by right|done]].
      destruct (Z.max_spec b (amount (Requests c) r)) as [[_ ->]|[_ ->]]; [|by left].
      right. exists c. split; [by left|done].
Qed.
End properties.

(** ** Witnesses *)


(** Cluster [a] with three replicas of a one-cpu application assumed on it. *)
Definition demo_app : Application := sample_app "Deployment" "one-cpu" 3 [].
Definition demo_added : clusterCache :=
  unwrap NewCache (AddCluster NewCache (sample_cluster "a" {[ "zone" := "z1" ]} 8)).
Definition demo_assumed : clusterCache := unwrap NewCache (AssumeApplication demo_added demo_app "a" 3).
Definition demo_forgotten : clusterCache := unwrap NewCache (ForgetApplication demo_assumed demo_app "a" 3).

Lemma cpu_request_nonneg q : 0 <= q -> nonneg_list (Requests (cpu_request q)).
Proof.
  intros Hq name.
  change (0 <= amount (<["cpu" := (q * 10 ^ 9 : Quantity)]> ∅) name).
  rewrite amount_insert, amount_empty. case_decide; simpl; lia.
Qed.

Lemma one_cpu_nonneg : nonneg_template (mkPodTemplate [cpu_request 1] [] []).
Proof. intros c Hc. apply list_elem_of_singleton in Hc as ->. by apply cpu_request_nonneg. Qed.

Lemma demo_valid_requests : valid_requests demo_app.
Proof.
  apply (valid_requests_template demo_app (mkPodTemplate [cpu_request 1] [] [])); [|exact one_cpu_nonneg].
  vm_compute. reflexivity.
Qed.

Lemma demo_reachable : reachable demo_assumed.
Proof.
  apply (rtc_l _ _ demo_added).
  - apply (step_add _ (sample_cluster "a" {[ "zone" := "z1" ]} 8)). by apply unwrap_ok.
  - apply rtc_once. apply (step_assume _ demo_app "a" 3); [apply demo_valid_requests|by apply unwrap_ok].
Qed.

Lemma cache_accounting_witness :
  reachable demo_assumed /\
  (forall info, clusters demo_assumed !! "a" = Some info ->
     amount (RequestedResources info) "cpu" = assumed_total (AssumedApplications info) "cpu") /\
  "a" ∈ GetClustersByLabel (indexer demo_assumed) "zone" "z1".
Proof.
  split; [exact demo_reachable|].
  destruct (cache_accounting demo_assumed demo_reachable) as [H1 H2]. split.
  - intros info Hi. apply (H1 _ _ "cpu" Hi).
  - apply H2. assert ((fun info => mc_Labels (Cluster info) !! "zone") <$> clusters demo_assumed !! "a" = Some (Some "z1"))
      as (info & Hi & Hz)%fmap_Some by (vm_compute; reflexivity).
    exists info. split; [exact Hi|symmetry; exact Hz].
Defined.

Lemma AssumeApplication_spec_witness : exists info',
  AssumeApplication demo_added demo_app "a" 3 =
    Ok (mkCache (<["a" := info']> (clusters demo_added)) (indexer demo_added)) /\
  amount (RequestedResources info') "cpu" = 3 * 10 ^ 9.
Proof.
  destruct (AssumeApplication_spec demo_added demo_app "a" 3) as (info' & H1 & _ & H3 & _).
  exists info'. split; [exact H1|]. rewrite H3. vm_compute. reflexivity.
Defined.

Lemma forget_undoes_assume_witness :
  AssumeApplication demo_added demo_app "a" 3 = Ok demo_assumed /\
  ForgetApplication demo_assumed demo_app "a" 3 = Ok demo_forgotten /\
  indexer demo_forgotten = indexer demo_added.
Proof.
  assert (AssumeApplication demo_added demo_app "a" 3 = Ok demo_assumed) as Ha by by apply unwrap_ok.
  assert (ForgetApplication demo_assumed demo_app "a" 3 = Ok demo_forgotten) as Hf by by apply unwrap_ok.
  split_and!; [exact Ha|exact Hf|].
  refine (proj1 (forget_undoes_assume demo_added demo_app "a" 3 3 demo_assumed demo_forgotten _ _ Ha Hf)).
  - apply rtc_once. apply (step_add _ (sample_cluster "a" {[ "zone" := "z1" ]} 8)). by apply unwrap_ok.
  - intros info Hi.
    assert ((fun info => bool_decide (AssumedApplications info !! appKey demo_app = None))
              <$> clusters demo_added !! "a" = Some true) as Hn by (vm_compute; reflexivity).
    rewrite Hi in Hn. injection Hn as Hn. exact (bool_decide_eq_true_1 _ Hn).
Defined.

Lemma snapshot_spec_witness :
  snap_Indexer (snapshot demo_assumed) = indexer demo_assumed /\
  (fun i => (fun s => rl_get (Allocated s) "cpu") <$> mc_ResourceSummary (Cluster i))
    <$> Clusters (snapshot demo_assumed) !! "a" = Some [3 * 10 ^ 9].
Proof. split; [exact (proj1 (snapshot_spec demo_assumed "a"))|vm_compute; reflexivity]. Defined.

Lemma CalculatePodResources_spec_witness :
  exists podReq, CalculatePodResources demo_app = Some podReq /\ 10 ^ 9 <= amount podReq "cpu".
Proof.
  destruct (CalculatePodResources_spec demo_app (mkPodTemplate [cpu_request 1] [] [])) as (podReq & H1 & H2).
  - vm_compute. discriminate.
  - vm_compute. reflexivity.
  - exact one_cpu_nonneg.
  - exists podReq. split; [exact H1|]. apply (proj1 (proj2 (H2 "cpu"))).
Defined.
