(* ===== verification/Plugins.v ===== *)
(** * The scheduling plugins

    One Module per directory of engine/internal/manager/scheduler/plugins: the
    filters [Health], [TaintToleration], [Affinity], [Capacity] and
    [VolumeRestriction], and the scores [Affinity], [Resource] and
    [TopologySpread].  Each filter has the condition it decides as a theorem;
    each score plugin is an instance of [BoundedPlugin]. *)

From S2P Require Import Prelude Float64 GoRuntime Api Framework Indexer Cache.

Definition ok_status : PluginStatus := NewStatus Success "".
Definition refuse (msg : string) : PluginStatus := NewStatus Unschedulable msg.

(** The largest value of a map, from 0 up: the first loop of both [NormalizeScore]. *)
Definition max_score `{GoRuntime} (site : nat) (scores : gmap string Z) : Z :=
  foldl (fun m kv => if m <? kv.2 then kv.2 else m) 0 (go_range site scores).

Lemma max_score_spec `{GoRuntimeLaws} site scores :
  0 <= max_score site scores /\
  (forall k v, scores !! k = Some v -> v <= max_score site scores) /\
  (max_score site scores = 0 \/ exists k, scores !! k = Some (max_score site scores)).
Proof.
  unfold max_score.
  assert (forall (l : list (string * Z)) b,
    b <= foldl (fun m kv => if m <? kv.2 then kv.2 else m) b l /\
    (forall kv, kv ∈ l -> kv.2 <= foldl (fun m kv => if m <? kv.2 then kv.2 else m) b l) /\
    (foldl (fun m kv => if m <? kv.2 then kv.2 else m) b l = b \/
     exists kv, kv ∈ l /\ kv.2 = foldl (fun m kv => if m <? kv.2 then kv.2 else m) b l)) as Hl.
  { induction l as [|kv l IH]; intros b; simpl.
    - split_and!; [lia|by intros ? ?%elem_of_nil|by left].
    - destruct (IH (if b <? kv.2 then kv.2 else b)) as (H1 & H2 & H3). split_and!.
      + bool_cases; lia.
      + intros kv' [->|Hkv]%elem_of_cons; [bool_cases; lia|by apply H2].
      + destruct H3 as [->|(kv' & Hkv & E)]; [|right; exists kv'; split; [by right|exact E]].
        destruct (b <? kv.2); [right; exists kv; split; [by left|done]|by left]. }
  destruct (Hl (go_range site scores) 0) as (H1 & H2 & H3). split_and!; [done| |].
  - intros k v Hk. apply (range_elem site) in Hk. apply (H2 (k, v) Hk).
  - destruct H3 as [->|([k v] & Hkv & <-)]; [by left|]. right. exists k. by apply range_elem in Hkv.
Qed.

(** ** plugins/health *)

Module Health.
Section health.
Context `{Kubernetes}.

Fixpoint check_conditions (conds : list Condition) : PluginStatus :=
  match conds with
  | [] => ok_status
  | cond :: rest =>
      if String.eqb (cond_Type cond) "Ready" then
        if String.eqb (cond_Status cond) "True" then check_conditions rest
        else refuse "cluster is not ready"
      else if String.eqb (cond_Type cond) "Reachable" then
        if String.eqb (cond_Status cond) "True" then check_conditions rest
        else refuse "cluster is not reachable"
      else check_conditions rest
  end.

Definition Filter (state : CycleState) (app : Application) (cluster : ManagedCluster) : PluginStatus :=
  check_conditions (mc_Conditions cluster).

Definition New : FilterPlugin := mkFilterPlugin "Health" Filter.

(** A cluster passes the health filter exactly when each of its [Ready] and
    [Reachable] conditions is true; a cluster that reports neither passes. *)
Theorem health_filter_spec state app cluster :
  IsSuccess (Filter state app cluster) = true <->
  forall cond, cond ∈ mc_Conditions cluster ->
    (cond_Type cond = "Ready" \/ cond_Type cond = "Reachable") -> cond_Status cond = "True".
Proof.
  unfold Filter. induction (mc_Conditions cluster) as [|cond conds IH]; simpl.
  - split; [by intros _ ? ?%elem_of_nil|done].
  - setoid_rewrite elem_of_cons.
    destruct (String.eqb_spec (cond_Type cond) "Ready") as [E1|E1];
      [|destruct (String.eqb_spec (cond_Type cond) "Reachable") as [E2|E2]].
    + destruct (String.eqb_spec (cond_Status cond) "True"); [rewrite IH; naive_solver|].
      split; [done|]. intros Hall. exfalso. naive_solver.
    + destruct (String.eqb_spec (cond_Status cond) "True"); [rewrite IH; naive_solver|].
      split; [done|]. intros Hall. exfalso. naive_solver.
    + rewrite IH. naive_solver.
Qed.
End health.
End Health.

(** ** plugins/taint *)

Module Taints.
Section taint.
Context `{Kubernetes}.

Definition toleratesTaint (toleration : Toleration) (taint : Taint) : bool :=
  if negb (String.eqb (tol_Effect toleration) "") && negb (String.eqb (tol_Effect toleration) (taint_Effect taint))
  then false
  else if String.eqb (tol_Operator toleration) "Exists" then
    if negb (String.eqb (tol_Key toleration) "") && negb (String.eqb (tol_Key toleration) (taint_Key taint))
    then false else true
  else if String.eqb (tol_Operator toleration) "Equal" then
    if negb (String.eqb (tol_Key toleration) (taint_Key taint)) then false
    else if negb (String.eqb (tol_Value toleration) (taint_Value taint)) then false
    else true
  else false.

Definition tolerationsTolerateTaint (tolerations : list Toleration) (taint : Taint) : bool :=
  existsb (fun toleration => toleratesTaint toleration taint) tolerations.

Fixpoint findMatchingUntoleratedTaint (taints : list Taint) (tolerations : list Toleration)
    (inclusionFilter : Taint -> bool) : option Taint :=
  match taints with
  | [] => None
  | taint :: rest =>
      if negb (inclusionFilter taint) then findMatchingUntoleratedTaint rest tolerations inclusionFilter
      else if negb (tolerationsTolerateTaint tolerations taint) then Some taint
      else findMatchingUntoleratedTaint rest tolerations inclusionFilter
  end.

Definition blocks_scheduling (t : Taint) : bool :=
  String.eqb (taint_Effect t) "NoSchedule" || String.eqb (taint_Effect t) "NoExecute".

Definition Filter (state : CycleState) (app : Application) (cluster : ManagedCluster) : PluginStatus :=
  match findMatchingUntoleratedTaint (mc_Taints cluster) (ClusterTolerations (Spec app)) blocks_scheduling with
  | Some untoleratedTaint => refuse ("taint " +:+ taint_ToString untoleratedTaint +:+ " not tolerated")
  | None => ok_status
  end.

Definition New : FilterPlugin := mkFilterPlugin "TaintToleration" Filter.

(** What a toleration means (core/v1): an empty effect matches every effect, an
    empty key with [Exists] every taint, [Equal] needs key and value. *)
Definition tolerates (tol : Toleration) (t : Taint) : Prop :=
  (tol_Effect tol = "" \/ tol_Effect tol = taint_Effect t) /\
  ((tol_Operator tol = "Exists" /\ (tol_Key tol = "" \/ tol_Key tol = taint_Key t)) \/
   (tol_Operator tol = "Equal" /\ tol_Key tol = taint_Key t /\ tol_Value tol = taint_Value t)).

Lemma toleratesTaint_iff tol t : toleratesTaint tol t = true <-> tolerates tol t.
Proof.
  unfold toleratesTaint, tolerates.
  destruct (String.eqb_spec (tol_Effect tol) ""), (String.eqb_spec (tol_Effect tol) (taint_Effect t)),
    (String.eqb_spec (tol_Operator tol) "Exists"), (String.eqb_spec (tol_Operator tol) "Equal"),
    (String.eqb_spec (tol_Key tol) ""), (String.eqb_spec (tol_Key tol) (taint_Key t)),
    (String.eqb_spec (tol_Value tol) (taint_Value t)); simpl; split; intros; try done; intuition congruence.
Qed.

Lemma find_untolerated_None taints tols incl :
  findMatchingUntoleratedTaint taints tols incl = None <->
  forall t, t ∈ taints -> incl t = true -> tolerationsTolerateTaint tols t = true.
Proof.
  induction taints as [|t ts IH]; simpl.
  - split; [by intros _ ? ?%elem_of_nil|done].
  - setoid_rewrite elem_of_cons. 
    destruct (incl t) eqn:E1; simpl.
    2:{ rewrite IH. split; [|auto]. intros Hall x [->|Hx]; [congruence|auto]. }
    destruct (tolerationsTolerateTaint tols t) eqn:E2; simpl.
    { rewrite IH. split; [|auto]. intros Hall x [->|Hx]; [done|auto]. }
    split; [done|]. intros Hall. exfalso. specialize (Hall t (or_introl eq_refl) E1). congruence.
Qed.

(** A cluster passes the taint filter exactly when each of its [NoSchedule]
    and [NoExecute] taints is tolerated by some toleration of the application;
    taints of other effects never block. *)
Theorem taint_filter_spec state app cluster :
  IsSuccess (Filter state app cluster) = true <->
  forall t, t ∈ mc_Taints cluster -> (taint_Effect t = "NoSchedule" \/ taint_Effect t = "NoExecute") ->
    exists tol, tol ∈ ClusterTolerations (Spec app) /\ tolerates tol t.
Proof.
  transitivity (findMatchingUntoleratedTaint (mc_Taints cluster) (ClusterTolerations (Spec app))
                  blocks_scheduling = None).
  { unfold Filter. by destruct (findMatchingUntoleratedTaint _ _ _). }
  rewrite find_untolerated_None. apply forall_proper. intros t.
  unfold blocks_scheduling, tolerationsTolerateTaint. rewrite orb_true_iff, !String.eqb_eq, existsb_exists.
  setoid_rewrite toleratesTaint_iff. setoid_rewrite <- list_elem_of_In. done.
Qed.
End taint.
End Taints.

(** ** Score plugins: what [NormalizeScore] must do *)

Section bounded.
Context `{G : GoRuntime, !GoRuntimeLaws G, K : Kubernetes}.

(** A plugin is bounded when every score it computes satisfies [raw_ok] and
    [NormalizeScore] takes such scores into [0, 100], keeping their clusters. *)
Lemma bounded_by_normalize pl pre normalize (raw_ok : Z -> Prop) :
  ScoreExtensions pl = Some normalize ->
  (forall state app cluster, pre state app -> raw_ok (Score pl state app cluster).1) ->
  (forall state app raw k v, (forall i x, raw !! i = Some x -> raw_ok x) ->
     (normalize state app raw).1 !! k = Some v -> is_Some (raw !! k) /\ 0 <= v <= 100) ->
  BoundedPlugin pl pre.
Proof.
  intros Hext Hraw Hnorm state app clusters scores Hpre. unfold plugin_scores. rewrite Hext.
  destruct (score_clusters pl state app clusters ∅) as [raw|] eqn:E; [|done].
  assert (forall k x, raw !! k = Some x -> k ∈ mc_Name <$> clusters /\ raw_ok x) as Hr.
  { intros k x Hk. destruct (score_clusters_inv _ _ _ _ _ _ _ _ E Hk) as [He|(c & Hc & <- & <-)].
    - by rewrite lookup_empty in He.
    - split; [by apply list_elem_of_fmap_2|by apply Hraw]. }
  destruct (normalize state app raw) as [sc st] eqn:En. destruct (IsSuccess st); [|done]. intros [= <-] k v Hk.
  destruct (Hnorm state app raw k v) as [[x Hx] Hv]; [intros i x Hi; by apply (Hr i)|by rewrite En|].
  split; [by apply (Hr k x)|done].
Qed.

(** [score * 100 / maxScore] for scores up to [maxScore]. *)
Lemma percent_range v m : 0 <= v <= m -> 0 < m -> m <= 2 ^ 55 -> 0 <= Z.quot (i64 (v * 100)) m <= 100.
Proof.
  intros Hv Hm Hb. change (2 ^ 55) with 36028797018963968 in Hb. unwrap_ints.
  rewrite Z.quot_div_nonneg by lia. split; [apply Z.div_pos; lia|]. apply Z.div_le_upper_bound; lia.
Qed.
End bounded.

(** ** plugins/affinity *)

Module Affinity.
Section affinity.
Context `{GoRuntime, Kubernetes}.

Definition matchExpression (expr : NodeSelectorRequirement) (clusterLabels : Labels) : bool :=
  let value := clusterLabels !! req_Key expr in
  let op := req_Operator expr in
  if String.eqb op "In" then
    match value with None => false | Some x => existsb (fun v => String.eqb v x) (req_Values expr) end
  else if String.eqb op "NotIn" then
    match value with None => true | Some x => negb (existsb (fun v => String.eqb v x) (req_Values expr)) end
  else if String.eqb op "Exists" then
    match value with Some _ => true | None => false end
  else if String.eqb op "DoesNotExist" then
    match value with Some _ => false | None => true end
  else if String.eqb op "Gt" then
    match value, req_Values expr with Some x, v0 :: _ => String.ltb v0 x | _, _ => false end
  else if String.eqb op "Lt" then
    match value, req_Values expr with Some x, v0 :: _ => String.ltb x v0 | _, _ => false end
  else false.

Definition matchNodeSelectorTerm (term : NodeSelectorTerm) (clusterLabels : Labels) : bool :=
  forallb (fun expr => matchExpression expr clusterLabels) (MatchExpressions term) &&
  forallb (fun expr => matchExpression expr clusterLabels) (MatchFields term).

Definition Filter (state : CycleState) (app : Application) (cluster : ManagedCluster) : PluginStatus :=
  match ClusterAffinity (Spec app) with
  | None => ok_status
  | Some affinity =>
      match Required affinity with
      | None => ok_status
      | Some terms =>
          if existsb (fun term => matchNodeSelectorTerm term (mc_Labels cluster)) terms then ok_status
          else refuse "cluster affinity mismatch"
      end
  end.

Definition preferred_score (preferred : list PreferredSchedulingTerm) (clusterLabels : Labels) : Z :=
  foldl (fun score p =>
    if matchNodeSelectorTerm (pref_Preference p) clusterLabels then i64 (score + pref_Weight p) else score)
    0 preferred.

Definition Score (state : CycleState) (app : Application) (cluster : ManagedCluster) : Z * PluginStatus :=
  match ClusterAffinity (Spec app) with
  | None => (0, ok_status)
  | Some affinity =>
      match Preferred affinity with
      | [] => (0, ok_status)
      | preferred => (preferred_score preferred (mc_Labels cluster), ok_status)
      end
  end.

Definition NormalizeScore (state : CycleState) (app : Application) (scores : gmap string Z)
    : gmap string Z * PluginStatus :=
  let maxScore := max_score 30 scores in
  if maxScore =? 0 then (scores, ok_status)
  else (range_update 31 (fun score => Z.quot (i64 (score * 100)) maxScore) scores, ok_status).

Definition NewFilter : FilterPlugin := mkFilterPlugin "Affinity" Filter.
Definition NewScore : ScorePlugin := mkScorePlugin "Affinity" Score (Some NormalizeScore).

(** What a node selector requirement means for a set of labels. *)
Definition satisfies (expr : NodeSelectorRequirement) (ls : Labels) : Prop :=
  let value := ls !! req_Key expr in
  (req_Operator expr = "In" /\ exists v, value = Some v /\ v ∈ req_Values expr) \/
  (req_Operator expr = "NotIn" /\ forall v, value = Some v -> v ∉ req_Values expr) \/
  (req_Operator expr = "Exists" /\ is_Some value) \/
  (req_Operator expr = "DoesNotExist" /\ value = None) \/
  (req_Operator expr = "Gt" /\ exists v w, value = Some v /\ head (req_Values expr) = Some w /\ String.ltb w v = true) \/
  (req_Operator expr = "Lt" /\ exists v w, value = Some v /\ head (req_Values expr) = Some w /\ String.ltb v w = true).

Lemma existsb_eqb x l : existsb (fun v => String.eqb v x) l = true <-> x ∈ l.
Proof.
  rewrite existsb_exists, list_elem_of_In. split.
  - intros (y & Hy & ->%String.eqb_eq). done.
  - intros Hx. exists x. by rewrite String.eqb_refl.
Qed.

Lemma matchExpression_iff expr ls : matchExpression expr ls = true <-> satisfies expr ls.
Proof.
  unfold matchExpression, satisfies. set (value := ls !! req_Key expr).
  set (op := req_Operator expr).
  destruct (String.eqb_spec op "In") as [->|n1]; [|destruct (String.eqb_spec op "NotIn") as [->|n2];
    [|destruct (String.eqb_spec op "Exists") as [->|n3]; [|destruct (String.eqb_spec op "DoesNotExist") as [->|n4];
    [|destruct (String.eqb_spec op "Gt") as [->|n5]; [|destruct (String.eqb_spec op "Lt") as [->|n6]]]]]].
  - destruct value as [x|]; [rewrite existsb_eqb|]; split; [|naive_solver|naive_solver|naive_solver].
    intros Hx. left. eauto.
  - destruct value as [x|]; [rewrite negb_true_iff, <- not_true_iff_false, existsb_eqb|]; split;
      [|naive_solver|naive_solver|naive_solver]. intros Hx. right. left. naive_solver.
  - destruct value; split; naive_solver.
  - destruct value; split; naive_solver.
  - destruct value as [x|], (req_Values expr) as [|v0 vs]; split; simpl; naive_solver.
  - destruct value as [x|], (req_Values expr) as [|v0 vs]; split; simpl; naive_solver.
  - split; [done|]. naive_solver.
Qed.

Definition term_holds (term : NodeSelectorTerm) (ls : Labels) : Prop :=
  forall expr, expr ∈ MatchExpressions term ++ MatchFields term -> satisfies expr ls.

Lemma matchNodeSelectorTerm_iff term ls : matchNodeSelectorTerm term ls = true <-> term_holds term ls.
Proof.
  unfold matchNodeSelectorTerm, term_holds. rewrite <- forallb_app, forallb_forall.
  setoid_rewrite matchExpression_iff. setoid_rewrite <- list_elem_of_In. done.
Qed.
End affinity.

Section affinity_theorems.
Context `{G : GoRuntime, !GoRuntimeLaws G, K : Kubernetes}.

(** Preferred terms with API-valid weights, few enough for their sum to stay far
    from the end of int64. *)
Definition affinity_pre (state : CycleState) (app : Application) : Prop :=
  forall affinity, ClusterAffinity (Spec app) = Some affinity ->
    Z.of_nat (length (Preferred affinity)) <= 2 ^ 20 /\
    forall p, p ∈ Preferred affinity -> 0 <= pref_Weight p <= max_int32.

Lemma preferred_score_range ls ps :
  Z.of_nat (length ps) <= 2 ^ 20 -> (forall p, p ∈ ps -> 0 <= pref_Weight p <= max_int32) ->
  0 <= preferred_score ps ls <= max_int32 * Z.of_nat (length ps).
Proof.
  unfold preferred_score. change (2 ^ 20) with 1048576. unfold max_int32.
  enough (forall s n, 0 <= s <= 2147483647 * n -> n + Z.of_nat (length ps) <= 1048576 ->
    (forall p, p ∈ ps -> 0 <= pref_Weight p <= 2147483647) ->
    0 <= foldl (fun score p => if matchNodeSelectorTerm (pref_Preference p) ls
                 then i64 (score + pref_Weight p) else score) s ps
      <= 2147483647 * (n + Z.of_nat (length ps))) as Hgen.
  { intros Hl Hw. apply (Hgen 0 0); [lia|lia|done]. }
  induction ps as [|p ps IH]; intros s n Hs Hn Hw; simpl; [lia|].
  pose proof (Hw p ltac:(by left)). rewrite length_cons in Hn.
  replace (n + Z.of_nat (S (length ps))) with ((n + 1) + Z.of_nat (length ps)) by lia.
  assert (forall q, q ∈ ps -> 0 <= pref_Weight q <= 2147483647) by (intros; apply Hw; by right).
  apply IH; [|lia|done]. destruct (matchNodeSelectorTerm _ _); unwrap_ints; lia.
Qed.

#[export] Instance affinity_bounded : BoundedPlugin NewScore affinity_pre.
Proof.
  eapply (bounded_by_normalize _ _ _ (fun z => 0 <= z <= 2 ^ 51)); [reflexivity|..].
  - intros state app cluster Hpre. simpl. unfold Score.
    destruct (ClusterAffinity (Spec app)) as [a|] eqn:E; [|simpl; lia]. destruct (Hpre a E) as [Hl Hw].
    pose proof (preferred_score_range (mc_Labels cluster) _ Hl Hw).
    change (2 ^ 20) with 1048576 in *. change (2 ^ 51) with 2251799813685248. unfold max_int32 in *.
    destruct (Preferred a); simpl in *; lia.
  - intros state app raw k v Hraw. unfold NormalizeScore.
    destruct (max_score_spec 30 raw) as (H0 & Hle & Hmax).
    destruct (Z.eqb_spec (max_score 30 raw) 0) as [E|E]; simpl.
    + intros Hk. pose proof (Hle _ _ Hk). pose proof (Hraw _ _ Hk). split; [by eexists|lia].
    + rewrite range_update_fmap, lookup_fmap, fmap_Some. intros (x & Hx & ->). split; [by eexists|].
      pose proof (Hle _ _ Hx). pose proof (Hraw _ _ Hx). destruct Hmax as [?|[k' Hk']]; [done|].
      pose proof (Hraw _ _ Hk'). change (2 ^ 51) with 2251799813685248 in *.
      apply percent_range; [lia|lia|]. change (2 ^ 55) with 36028797018963968. lia.
Qed.

(** Without required terms every cluster passes the affinity filter; with
    them a cluster passes exactly when all the requirements of at least one term
    hold of its labels, each with the meaning of its operator. *)
Theorem affinity_filter_spec state app cluster :
  IsSuccess (Filter state app cluster) = true <->
  forall affinity terms, ClusterAffinity (Spec app) = Some affinity -> Required affinity = Some terms ->
    exists term, term ∈ terms /\ term_holds term (mc_Labels cluster).
Proof.
  unfold Filter. destruct (ClusterAffinity (Spec app)) as [a|]; [|by split].
  destruct (Required a) as [terms|] eqn:E; [|split; [naive_solver|done]].
  transitivity (existsb (fun term => matchNodeSelectorTerm term (mc_Labels cluster)) terms = true).
  { by destruct (existsb _ _). }
  rewrite existsb_exists. setoid_rewrite matchNodeSelectorTerm_iff. setoid_rewrite <- list_elem_of_In.
  naive_solver.
Qed.
End affinity_theorems.
End Affinity.

(** ** plugins/resource *)

Module Resource.

Definition ScoringStrategyLeastAllocated : string := "LeastAllocated".
Definition ScoringStrategyMostAllocated : string := "MostAllocated".

Section resource.
Context `{GoRuntime, Kubernetes}.

Definition leastAllocatedScore (allocatable allocated : gmap string Quantity) (name : string) : Z :=
  let capacity := rl_get allocatable name in
  let used := rl_get allocated name in
  if qty_IsZero capacity then 0
  else
    let available := qty_Sub capacity used in
    let capacityMilli := qty_MilliValue capacity in
    let availableMilli := qty_MilliValue available in
    if capacityMilli =? 0 then 0 else Z.quot (i64 (availableMilli * 100)) capacityMilli.

Definition mostAllocatedScore (allocatable allocated : gmap string Quantity) (name : string) : Z :=
  let capacity := rl_get allocatable name in
  let used := rl_get allocated name in
  if qty_IsZero capacity then 0
  else
    let capacityMilli := qty_MilliValue capacity in
    let usedMilli := qty_MilliValue used in
    if capacityMilli =? 0 then 0 else Z.quot (i64 (usedMilli * 100)) capacityMilli.

Definition Score (strategy : string) (state : CycleState) (app : Application) (cluster : ManagedCluster)
    : Z * PluginStatus :=
  match mc_ResourceSummary cluster with
  | [] => (0, ok_status)
  | summary :: _ =>
      let score name :=
        if String.eqb strategy ScoringStrategyMostAllocated
        then mostAllocatedScore (Allocatable summary) (Allocated summary) name
        else leastAllocatedScore (Allocatable summary) (Allocated summary) name in
      (Z.quot (i64 (score ResourceCPU + score ResourceMemory)) 2, ok_status)
  end.

Definition NormalizeScore (state : CycleState) (app : Application) (scores : gmap string Z)
    : gmap string Z * PluginStatus :=
  (range_update 32 (fun score => if 100 <? score then 100 else if score <? 0 then 0 else score) scores,
   ok_status).

Definition NewWithStrategy (strategy : string) : ScorePlugin :=
  mkScorePlugin "Resource" (Score strategy) (Some NormalizeScore).

Definition New : ScorePlugin := NewWithStrategy ScoringStrategyLeastAllocated.
End resource.

Section resource_theorems.
Context `{G : GoRuntime, !GoRuntimeLaws G, K : Kubernetes, !KubernetesLaws K}.

#[export] Instance resource_bounded strategy : BoundedPlugin (NewWithStrategy strategy) (fun _ _ => True).
Proof.
  eapply (bounded_by_normalize _ _ _ (fun _ => True)); [reflexivity|done|].
  intros state app raw k v _. simpl. rewrite range_update_fmap, lookup_fmap, fmap_Some.
  intros (x & Hx & ->). split; [by eexists|]. bool_cases; lia.
Qed.

(** Capacities as clusters report them: positive, and below 2^53 thousandths. *)
Definition sound_usage (capacity used : Z) : Prop := 0 < capacity <= 2 ^ 53 * 10 ^ 6 /\ 0 <= used <= capacity.

Definition milli (a : Z) : Z := (a + 999999) / 10 ^ 6.

Lemma milli_range a : 0 <= a <= 2 ^ 53 * 10 ^ 6 -> 0 <= milli a <= 2 ^ 53.
Proof.
  unfold milli. change (2 ^ 53) with 9007199254740992. change (10 ^ 6) with 1000000. intros.
  split; [apply Z.div_pos; lia|]. apply Z.lt_succ_r. apply Z.div_lt_upper_bound; lia.
Qed.
Lemma milli_mono a b : a <= b -> milli a <= milli b.
Proof. intros. apply Z.div_le_mono; lia. Qed.
Lemma milli_pos a : 0 < a -> 0 < milli a.
Proof. intros. unfold milli. change (10 ^ 6) with 1000000. apply Z.div_str_pos. lia. Qed.

Lemma least_eq allocatable allocated name :
  sound_usage (amount allocatable name) (amount allocated name) ->
  leastAllocatedScore allocatable allocated name =
  milli (amount allocatable name - amount allocated name) * 100 / milli (amount allocatable name).
Proof.
  intros [Hc Hu]. unfold leastAllocatedScore, amount in *.
  set (c := rl_get allocatable name) in *. set (d := rl_get allocated name) in *.
  rewrite amt_IsZero. destruct (Z.eqb_spec (qty_amt c) 0); [lia|].
  rewrite !amt_MilliValue by (rewrite ?amt_Sub; lia). rewrite amt_Sub. fold (milli (qty_amt c)).
  fold (milli (qty_amt c - qty_amt d)).
  assert (0 < milli (qty_amt c)) by (apply milli_pos; lia). destruct (Z.eqb_spec (milli (qty_amt c)) 0); [lia|].
  assert (0 <= milli (qty_amt c - qty_amt d) <= 2 ^ 53) by (apply milli_range; lia).
  change (2 ^ 53) with 9007199254740992 in *. unwrap_ints. apply Z.quot_div_nonneg; lia.
Qed.

Lemma most_eq allocatable allocated name :
  sound_usage (amount allocatable name) (amount allocated name) ->
  mostAllocatedScore allocatable allocated name =
  milli (amount allocated name) * 100 / milli (amount allocatable name).
Proof.
  intros [Hc Hu]. unfold mostAllocatedScore, amount in *.
  set (c := rl_get allocatable name) in *. set (d := rl_get allocated name) in *.
  rewrite amt_IsZero. destruct (Z.eqb_spec (qty_amt c) 0); [lia|].
  rewrite !amt_MilliValue by lia. fold (milli (qty_amt c)) (milli (qty_amt d)).
  assert (0 < milli (qty_amt c)) by (apply milli_pos; lia). destruct (Z.eqb_spec (milli (qty_amt c)) 0); [lia|].
  assert (0 <= milli (qty_amt d) <= 2 ^ 53) by (apply milli_range; lia).
  change (2 ^ 53) with 9007199254740992 in *. unwrap_ints. apply Z.quot_div_nonneg; lia.
Qed.

Lemma ratio_range a b : 0 <= a <= b -> 0 < b -> 0 <= a * 100 / b <= 100.
Proof. intros. split; [apply Z.div_pos; lia|apply Z.div_le_upper_bound; lia]. Qed.

(** For a cluster whose usage does not exceed a sound capacity, both
    strategies score in [0, 100]; as usage grows, LeastAllocated never goes up
    and MostAllocated never goes down; an idle cluster gets 100 and 0, and a
    full one 0 and 100. *)
Theorem resource_score_spec allocatable used1 used2 name :
  sound_usage (amount allocatable name) (amount used1 name) ->
  sound_usage (amount allocatable name) (amount used2 name) ->
  amount used1 name <= amount used2 name ->
  0 <= leastAllocatedScore allocatable used2 name <= leastAllocatedScore allocatable used1 name /\
  leastAllocatedScore allocatable used1 name <= 100 /\
  0 <= mostAllocatedScore allocatable used1 name <= mostAllocatedScore allocatable used2 name /\
  mostAllocatedScore allocatable used2 name <= 100 /\
  (amount used1 name = 0 ->
     leastAllocatedScore allocatable used1 name = 100 /\ mostAllocatedScore allocatable used1 name = 0) /\
  (amount used2 name = amount allocatable name ->
     leastAllocatedScore allocatable used2 name = 0 /\ mostAllocatedScore allocatable used2 name = 100).
Proof.
  intros H1 H2 Hle. rewrite !least_eq, !most_eq by done. destruct H1 as [Hc Hu1], H2 as [_ Hu2].
  set (c := amount allocatable name) in *. set (x := amount used1 name) in *. set (y := amount used2 name) in *.
  pose proof (milli_pos c ltac:(lia)) as Hp. split_and!.
  - apply ratio_range; [split; [apply milli_range|apply milli_mono]|]; lia.
  - apply Z.div_le_mono; [lia|]. pose proof (milli_mono (c - y) (c - x)). lia.
  - apply ratio_range; [split; [apply milli_range|apply milli_mono]|]; lia.
  - apply ratio_range; [split; [apply milli_range|apply milli_mono]|]; lia.
  - apply Z.div_le_mono; [lia|]. pose proof (milli_mono x y). lia.
  - apply ratio_range; [split; [apply milli_range|apply milli_mono]|]; lia.
  - intros ->. rewrite Z.sub_0_r. rewrite (Z.mul_comm (milli c)), Z.div_mul by lia.
    split; [done|]. apply Z.div_small. change (milli 0) with 0. lia.
  - intros ->. rewrite Z.sub_diag. change (milli 0) with 0. rewrite (Z.mul_comm (milli c)), Z.div_mul by lia.
    split; [apply Z.div_small; lia|done].
Qed.
End resource_theorems.
End Resource.

(** ** plugins/capacity *)

Module Capacity.
Section capacity.
Context `{GoRuntime, Kubernetes}.

Definition fitsWithReplicas (allocatable allocated required : gmap string Quantity) (name : string)
    (replicas : Z) : bool :=
  let available := qty_Sub (rl_get allocatable name) (rl_get allocated name) in
  let totalRequired := replicated (rl_get required name) replicas in
  0 <=? qty_Cmp available totalRequired.

Definition Filter (state : CycleState) (app : Application) (cluster : ManagedCluster) : PluginStatus :=
  match CalculatePodResources app with
  | None => ok_status
  | Some podReq =>
      match mc_ResourceSummary cluster with
      | [] => refuse "cluster resource summary missing"
      | summary :: _ =>
          if negb (fitsWithReplicas (Allocatable summary) (Allocated summary) podReq ResourceCPU 1)
          then refuse "insufficient cpu for single replica"
          else if negb (fitsWithReplicas (Allocatable summary) (Allocated summary) podReq ResourceMemory 1)
          then refuse "insufficient memory for single replica"
          else ok_status
      end
  end.

Definition New : FilterPlugin := mkFilterPlugin "Capacity" Filter.

(** The loop over the requested resources, with its early return. *)
Fixpoint max_replicas_loop (allocatable allocated : gmap string Quantity) (reqs : list (string * Quantity))
    (minMax : Z) : Z :=
  match reqs with
  | [] => if minMax =? max_int64 then 0 else minMax
  | (name, req) :: rest =>
      let avail := qty_Sub (rl_get allocatable name) (rl_get allocated name) in
      if qty_Value avail <=? 0 then 0
      else
        let reqMilli := qty_MilliValue req in
        if reqMilli =? 0 then max_replicas_loop allocatable allocated rest minMax
        else
          let count := Z.quot (qty_MilliValue avail) reqMilli in
          max_replicas_loop allocatable allocated rest (if count <? minMax then count else minMax)
  end.

Definition CalculateMaxReplicas (cluster : ManagedCluster) (app : Application) : Z :=
  match CalculatePodResources app with
  | None => max_int64
  | Some podReq =>
      if decide (podReq = ∅) then max_int64
      else
        match mc_ResourceSummary cluster with
        | [] => 0
        | summary :: _ =>
            max_replicas_loop (Allocatable summary) (Allocated summary) (go_range 33 podReq) max_int64
        end
  end.
End capacity.

Section capacity_theorems.
Context `{G : GoRuntime, !GoRuntimeLaws G, K : Kubernetes, !KubernetesLaws K}.
Import Resource.

Definition available (s : ResourceSummary) (name : string) : Z :=
  amount (Allocatable s) name - amount (Allocated s) name.

(** [n] replicas fit: thousandth by thousandth, for each requested resource. *)
Definition fits (s : ResourceSummary) (podReq : gmap string Quantity) (n : Z) : Prop :=
  forall name req, podReq !! name = Some req -> n * milli (qty_amt req) <= milli (available s name).

(** Every requested amount is in range, and something is available of it. *)
Definition feasible (s : ResourceSummary) (podReq : gmap string Quantity) : Prop :=
  forall name req, podReq !! name = Some req ->
    0 <= qty_amt req <= 2 ^ 53 * 10 ^ 6 /\ 0 < available s name <= 2 ^ 53 * 10 ^ 6.

Lemma max_replicas_loop_spec s (reqs : list (string * Quantity)) m :
  (forall name req, (name, req) ∈ reqs ->
     0 <= qty_amt req <= 2 ^ 53 * 10 ^ 6 /\ 0 < available s name <= 2 ^ 53 * 10 ^ 6) ->
  exists r, max_replicas_loop (Allocatable s) (Allocated s) reqs m = (if r =? max_int64 then 0 else r) /\
    (forall n, 0 <= n -> n <= r <-> n <= m /\
       forall name req, (name, req) ∈ reqs -> n * milli (qty_amt req) <= milli (available s name)) /\
    (0 <= m -> 0 <= r) /\
    (r = m \/ r <= 2 ^ 53) /\ ((exists name req, (name, req) ∈ reqs /\ 0 < qty_amt req) -> r <= 2 ^ 53).
Proof.
  revert m; induction reqs as [|[name req] reqs IH]; intros m Hreqs; simpl.
  { exists m. split_and!; [done| |done|by left|]; [|by intros (? & ? & ?%elem_of_nil & _)].
    intros n Hn. split; [|tauto]. intros. split; [done|]. by intros ? ? ?%elem_of_nil. }
  destruct (Hreqs name req ltac:(by left)) as [Hq Ha].
  assert (forall i r, (i, r) ∈ reqs -> 0 <= qty_amt r <= 2 ^ 53 * 10 ^ 6 /\
    0 < available s i <= 2 ^ 53 * 10 ^ 6) as Hrest by (intros; apply Hreqs; by right).
  assert (qty_amt (qty_Sub (rl_get (Allocatable s) name) (rl_get (Allocated s) name)) = available s name) as Hav
    by apply amt_Sub.
  assert (0 < qty_Value (qty_Sub (rl_get (Allocatable s) name) (rl_get (Allocated s) name))) as Hv.
  { rewrite amt_Value, Hav by lia. apply Z.div_str_pos. lia. }
  destruct (Z.leb_spec (qty_Value (qty_Sub (rl_get (Allocatable s) name) (rl_get (Allocated s) name))) 0); [lia|].
  rewrite !amt_MilliValue, Hav by lia. fold (milli (qty_amt req)) (milli (available s name)).
  assert (0 <= milli (available s name) <= 2 ^ 53) as Hma by (apply milli_range; lia).
  assert (0 <= milli (qty_amt req) <= 2 ^ 53) as Hmr by (apply milli_range; lia).
  destruct (Z.eqb_spec (milli (qty_amt req)) 0) as [E0|E0].
  - destruct (IH m Hrest) as (r & -> & H1 & H2 & H3 & H4). exists r. split_and!; [done| |done|done|].
    + intros n Hn. rewrite H1 by done. split; intros [Hnm Hall]; (split; [done|]).
      * intros i q [[= -> ->]|Hi]%elem_of_cons; [rewrite E0; lia|by apply Hall].
      * intros i q Hi. apply Hall. by right.
    + intros (i & q & [[= -> ->]|Hi]%elem_of_cons & Hpos); [|apply H4; eauto].
      pose proof (milli_pos _ Hpos). lia.
  - rewrite Z.quot_div_nonneg by lia. set (count := milli (available s name) / milli (qty_amt req)).
    assert (0 <= count <= 2 ^ 53) as Hcount.
    { split; [apply Z.div_pos; lia|]. unfold count. transitivity (milli (available s name)); [|lia].
      apply Z.div_le_upper_bound; nia. }
    assert (forall n, 0 <= n -> n <= count <-> n * milli (qty_amt req) <= milli (available s name)) as Hc.
    { intros n Hn. unfold count. split; intros Hle.
      - assert (0 < milli (qty_amt req)) as Hpos by lia.
        pose proof (Z.mul_div_le (milli (available s name)) _ Hpos). nia.
      - apply Z.div_le_lower_bound; lia. }
    destruct (IH (if count <? m then count else m) Hrest) as (r & -> & H1 & H2 & H3 & H4).
    exists r. split_and!; [done| |intros; apply H2; bool_cases; lia| |].
    + intros n Hn. rewrite H1 by done.
      assert (n <= (if count <? m then count else m) <-> n <= count /\ n <= m) as -> by (bool_cases; lia).
      rewrite Hc by done. split.
      * intros [[Hcn Hm] Hall]. split; [done|]. intros i q [[= -> ->]|Hi]%elem_of_cons; [done|by apply Hall].
      * intros [Hm Hall]. split; [split; [apply Hall; by left|done]|]. intros i q Hi. apply Hall. by right.
    + destruct H3 as [->|?]; [|by right]. destruct (count <? m); [right; lia|by left].
    + intros _. destruct H3 as [->|?]; [|done]. bool_cases; lia.
Qed.

(** When something is left of every requested resource, [CalculateMaxReplicas]
    is the largest number of replicas that fits (and 0 when all the requests are
    zero, although then any number fits). *)
Theorem CalculateMaxReplicas_spec cluster app podReq s rest :
  CalculatePodResources app = Some podReq -> mc_ResourceSummary cluster = s :: rest ->
  feasible s podReq -> (exists name req, podReq !! name = Some req /\ 0 < qty_amt req) ->
  0 <= CalculateMaxReplicas cluster app <= 2 ^ 53 /\
  forall n, 0 <= n -> (n <= CalculateMaxReplicas cluster app <-> fits s podReq n).
Proof.
  intros Hp Hs Hf (name0 & req0 & Hreq & Hpos). unfold CalculateMaxReplicas. rewrite Hp, Hs.
  destruct (decide (podReq = ∅)) as [->|_]; [by rewrite lookup_empty in Hreq|].
  destruct (max_replicas_loop_spec s (go_range 33 podReq) max_int64) as (r & -> & H1 & H2 & _ & H4).
  { intros i q Hi. apply range_elem in Hi. by apply Hf. }
  assert (r <= 2 ^ 53) as Hr by (apply H4; exists name0, req0; by rewrite range_elem).
  change (2 ^ 53) with 9007199254740992 in *. unfold max_int64 in *.
  destruct (Z.eqb_spec r 9223372036854775807) as [?|Hne]; [lia|]. split; [lia|]. intros n Hn. rewrite H1 by done.
  unfold fits. setoid_rewrite range_elem. split; [tauto|]. intros Hall. split; [|done].
  specialize (Hall name0 req0 Hreq). pose proof (milli_pos _ Hpos).
  destruct (Hf name0 req0 Hreq) as [_ Ha]. assert (0 <= milli (available s name0) <= 2 ^ 53) by (apply milli_range; lia).
  change (2 ^ 53) with 9007199254740992 in *. nia.
Qed.

(** An application without a readable template passes the capacity filter
    everywhere; otherwise the cluster needs a resource summary and room for one
    replica in cpu and in memory (no other resource is looked at). *)
Theorem capacity_filter_spec state app cluster :
  IsSuccess (Filter state app cluster) = true <->
  forall podReq, CalculatePodResources app = Some podReq ->
    exists s rest, mc_ResourceSummary cluster = s :: rest /\
      amount podReq "cpu" <= available s "cpu" /\ amount podReq "memory" <= available s "memory".
Proof.
  unfold Filter. destruct (CalculatePodResources app) as [podReq|]; [|by split].
  destruct (mc_ResourceSummary cluster) as [|s rest].
  { split; [done|]. intros Hall. destruct (Hall _ eq_refl) as (? & ? & ? & _). done. }
  assert (forall name, fitsWithReplicas (Allocatable s) (Allocated s) podReq name 1 = true <->
    amount podReq name <= available s name) as Hfit.
  { intros name. unfold fitsWithReplicas. rewrite Z.leb_le, amt_Cmp, replicated_amount, amt_Sub.
    unfold available, amount. lia. }
  unfold ResourceCPU, ResourceMemory.
  destruct (fitsWithReplicas _ _ _ "cpu" 1) eqn:E1, (fitsWithReplicas _ _ _ "memory" 1) eqn:E2; simpl;
    rewrite <- ?not_true_iff_false in *; rewrite Hfit in *.
  all: split; [try done; intros _ p [= <-]; by exists s, rest|].
  all: intros Hall; destruct (Hall _ eq_refl) as (? & ? & [= <- <-] & ? & ?); done.
Qed.
End capacity_theorems.
End Capacity.

(** ** plugins/volumerestriction *)

Module VolumeRestriction.
Section volumerestriction.
Context `{Kubernetes}.

Definition has_pvc (template : PodTemplateSpec Quantity) : bool :=
  existsb (fun vol => match PersistentVolumeClaim vol with Some _ => true | None => false end) (Volumes template).

Definition Filter (state : CycleState) (app : Application) (cluster : ManagedCluster) : PluginStatus :=
  if String.eqb (Template (Spec app)) "" then ok_status
  else
    match unmarshal_template (Template (Spec app)) with
    | None => ok_status
    | Some template =>
        if negb (has_pvc template) then ok_status
        else
          match Topology (Status app) with
          | [] => ok_status
          | topology =>
              if existsb (fun t => String.eqb (ct_Name t) (mc_Name cluster)) topology then ok_status
              else refuse "topology is fixed for applications with PVC; cannot schedule to new clusters automatically"
          end
    end.

Definition New : FilterPlugin := mkFilterPlugin "VolumeRestriction" Filter.

(** The pod template can be read and claims a persistent volume. *)
Definition uses_pvc (app : Application) : Prop :=
  Template (Spec app) ≠ "" /\
  exists t vol claim, unmarshal_template (Template (Spec app)) = Some t /\
    vol ∈ Volumes t /\ PersistentVolumeClaim vol = Some claim.

Lemma has_pvc_iff t : has_pvc t = true <-> exists vol claim, vol ∈ Volumes t /\ PersistentVolumeClaim vol = Some claim.
Proof.
  unfold has_pvc. rewrite existsb_exists. setoid_rewrite <- list_elem_of_In. split.
  - intros (vol & Hv & Hc). exists vol. destruct (PersistentVolumeClaim vol) as [claim|]; [by exists claim|done].
  - intros (vol & claim & Hv & Hc). exists vol. by rewrite Hc.
Qed.

(** Placement is sticky: once an application that claims a persistent volume
    has been placed, exactly the clusters of its placement pass; every other
    application, and one not placed yet, passes everywhere. *)
Theorem volume_filter_spec state app cluster :
  IsSuccess (Filter state app cluster) = true <->
  (uses_pvc app -> Topology (Status app) ≠ [] -> mc_Name cluster ∈ ct_Name <$> Topology (Status app)).
Proof.
  unfold Filter, uses_pvc. destruct (String.eqb_spec (Template (Spec app)) "") as [E|E]; [by split; [intros _ [? _]|]|].
  destruct (unmarshal_template _) as [t|]; [|by split; [intros _ (_ & ? & ? & ? & ? & _)|]].
  destruct (has_pvc t) eqn:Ep; simpl; [apply has_pvc_iff in Ep as (vol & claim & Hv & Hc)|].
  2:{ split; [|done]. intros _ (_ & t' & vol & claim & [= <-] & Hv & Hc). exfalso.
      assert (has_pvc t = true) by (apply has_pvc_iff; eauto). congruence. }
  destruct (Topology (Status app)) as [|ct cts]; [by split|].
  transitivity (existsb (fun t => String.eqb (ct_Name t) (mc_Name cluster)) (ct :: cts) = true).
  { simpl. by destruct (_ || _). }
  rewrite existsb_exists, list_elem_of_fmap. split.
  - intros (x & Hx & Hn%String.eqb_eq) _ _. exists x. by rewrite list_elem_of_In.
  - intros Hall. destruct Hall as (x & Hn & Hx); [split; [done|]; by exists t, vol, claim|done|].
    exists x. rewrite <- list_elem_of_In. split; [done|]. by apply String.eqb_eq.
Qed.
End volumerestriction.
End VolumeRestriction.

(** ** plugins/topology *)

Module TopologySpread.

Definition topologyDistributionKey : string := "TopologyDistribution".
Definition DefaultKey : string := "topology.kubernetes.io/zone".

Section topology.
Context `{GoRuntime, Kubernetes}.

Definition Score (topologyKey : string) (state : CycleState) (app : Application) (cluster : ManagedCluster)
    : Z * PluginStatus :=
  match mc_Labels cluster !! topologyKey with
  | None => (50, ok_status)
  | Some topologyValue =>
      match Read state topologyDistributionKey with
      | Some (AnyInt32Map dist) => (lookup0 dist topologyValue, ok_status)
      | _ => (50, ok_status)
      end
  end.

Definition NormalizeScore (state : CycleState) (app : Application) (scores : gmap string Z)
    : gmap string Z * PluginStatus :=
  let maxReplicas := max_score 34 scores in
  if maxReplicas =? 0 then (range_update 35 (fun _ => 100) scores, ok_status)
  else
    (range_update 36 (fun replicaCount => Z.quot (i64 (i64 (maxReplicas - replicaCount) * 100)) maxReplicas) scores,
     ok_status).

Definition NewWithTopologyKey (key : string) : ScorePlugin :=
  mkScorePlugin "TopologySpread" (Score key) (Some NormalizeScore).

Definition New : ScorePlugin := NewWithTopologyKey DefaultKey.

(** The domain of each cluster that has the label. *)
Definition cluster_topology (clusters : list ManagedCluster) (topologyKey : string) : gmap string string :=
  foldl (fun m cluster =>
    match mc_Labels cluster !! topologyKey with
    | Some value => <[mc_Name cluster := value]> m
    | None => m
    end) ∅ clusters.

Definition distribution_of (clusterTopology : gmap string string) (placements : list ClusterTopology) : gmap string Z :=
  foldl (fun distribution placement =>
    match clusterTopology !! ct_Name placement with
    | Some topology => <[topology := i32 (lookup0 distribution topology + ct_Replicas placement)]> distribution
    | None => distribution
    end) ∅ placements.

Definition UpdateTopologyDistribution (state : CycleState) (clusters : list ManagedCluster)
    (placements : list ClusterTopology) (topologyKey : string) : CycleState :=
  Write state topologyDistributionKey
    (AnyInt32Map (distribution_of (cluster_topology clusters topologyKey) placements)).
End topology.

Section topology_theorems.
Context `{G : GoRuntime, !GoRuntimeLaws G, K : Kubernetes}.

(** The distribution in the state, if there is one, has no negative count. *)
Definition topology_pre (state : CycleState) (app : Application) : Prop :=
  forall dist, Read state topologyDistributionKey = Some (AnyInt32Map dist) ->
    forall domain, 0 <= lookup0 dist domain <= max_int32.

Lemma inverted_range v m : 0 <= v <= m -> 0 < m <= max_int32 ->
  Z.quot (i64 (i64 (m - v) * 100)) m = (m - v) * 100 / m /\ 0 <= (m - v) * 100 / m <= 100.
Proof.
  intros Hv Hm. unfold max_int32 in Hm. unwrap_ints. split; [apply Z.quot_div_nonneg; lia|].
  split; [apply Z.div_pos; lia|]. apply Z.div_le_upper_bound; lia.
Qed.

#[export] Instance topology_bounded key : BoundedPlugin (NewWithTopologyKey key) topology_pre.
Proof.
  eapply (bounded_by_normalize _ _ _ (fun z => 0 <= z <= max_int32)); [reflexivity|..].
  - intros state app cluster Hpre. simpl. unfold Score. destruct (mc_Labels cluster !! key); [|done].
    destruct (Read state topologyDistributionKey) as [[| dist |]|] eqn:E; try done. by apply Hpre.
  - intros state app raw k v Hraw. unfold NormalizeScore.
    destruct (max_score_spec 34 raw) as (H0 & Hle & Hmax).
    destruct (Z.eqb_spec (max_score 34 raw) 0) as [E|E]; simpl;
      rewrite range_update_fmap, lookup_fmap, fmap_Some; intros (x & Hx & ->); (split; [by eexists|]); [lia|].
    destruct Hmax as [?|[k' Hk']]; [done|]. pose proof (Hraw _ _ Hk'). pose proof (Hraw _ _ Hx).
    pose proof (Hle _ _ Hx). destruct (inverted_range x (max_score 34 raw)) as [-> ?]; [lia|lia|done].
Qed.

Lemma cluster_topology_lookup clusters key name domain :
  NoDup (mc_Name <$> clusters) ->
  cluster_topology clusters key !! name = Some domain <->
  exists cluster, cluster ∈ clusters /\ mc_Name cluster = name /\ mc_Labels cluster !! key = Some domain.
Proof.
  unfold cluster_topology. induction clusters as [|c cs IH] using rev_ind.
  - intros _. simpl. rewrite lookup_empty. split; [done|]. by intros (? & ?%elem_of_nil & _).
  - rewrite fmap_app, NoDup_app. intros (Hnd & Hdisj & _). rewrite foldl_snoc.
    setoid_rewrite elem_of_app. setoid_rewrite list_elem_of_singleton.
    destruct (mc_Labels c !! key) as [value|] eqn:E.
    + rewrite lookup_insert_Some, IH by done. split.
      * intros [[<- <-]|[? (c' & ? & ? & ?)]]; [by exists c; auto|]. exists c'. auto.
      * intros (c' & [Hc'| ->] & <- & Hd); [right|left; naive_solver]. split; [|by exists c'].
        intros Heq. apply (Hdisj (mc_Name c')); [by apply list_elem_of_fmap_2|]. rewrite <- Heq. set_solver.
    + rewrite IH by done. split.
      * intros (c' & ? & ? & ?). exists c'. auto.
      * intros (c' & [Hc'| ->] & Hn & Hd); [by exists c'|congruence].
Qed.

(** The replicas placed on the clusters of one domain. *)
Definition domain_replicas (clusterTopology : gmap string string) (placements : list ClusterTopology)
    (domain : string) : Z :=
  sumZ ct_Replicas (filter (fun p => clusterTopology !! ct_Name p = Some domain) placements).

Definition in_domain (ct : gmap string string) (domain : string) (p : ClusterTopology) : Prop :=
  ct !! ct_Name p = Some domain.

Lemma domain_replicas_range ct ps domain : (forall p, p ∈ ps -> 0 <= ct_Replicas p) ->
  0 <= domain_replicas ct ps domain <= sumZ ct_Replicas ps.
Proof.
  unfold domain_replicas. induction ps as [|p ps IH]; intros Hnn; [done|].
  pose proof (Hnn p ltac:(by left)). destruct IH as [H1 H2]; [intros; apply Hnn; by right|].
  rewrite filter_cons. case_decide; rewrite !sumZ_cons; lia.
Qed.

Lemma distribution_of_exact ct placements domain :
  (forall p, p ∈ placements -> 0 <= ct_Replicas p) -> sumZ ct_Replicas placements <= max_int32 ->
  lookup0 (distribution_of ct placements) domain = domain_replicas ct placements domain.
Proof.
  induction placements as [|p ps IH] using rev_ind; intros Hnn Hsum; [done|].
  assert (forall q, q ∈ ps -> 0 <= ct_Replicas q) as Hps by (intros; apply Hnn; set_solver).
  pose proof (Hnn p ltac:(set_solver)) as Hp. rewrite sumZ_app, sumZ_cons, sumZ_nil in Hsum.
  pose proof (domain_replicas_range ct ps domain Hps). specialize (IH Hps ltac:(lia)).
  unfold distribution_of, domain_replicas in *. rewrite foldl_snoc, filter_app, sumZ_app, <- IH in *.
  rewrite filter_cons, filter_nil. destruct (ct !! ct_Name p) as [d|] eqn:E.
  - destruct (decide (d = domain)) as [->|Hne].
    + rewrite decide_True, sumZ_cons, sumZ_nil, lookup0_insert by done. rewrite i32_id by int_range. lia.
    + rewrite decide_False, sumZ_nil, lookup0_insert_ne by congruence. lia.
  - rewrite decide_False, sumZ_nil by done. lia.
Qed.

(** What the scheduler writes before scoring satisfies the promise's condition. *)
Lemma UpdateTopologyDistribution_pre state clusters placements key app :
  (forall p, p ∈ placements -> 0 <= ct_Replicas p) -> sumZ ct_Replicas placements <= max_int32 ->
  topology_pre (UpdateTopologyDistribution state clusters placements key) app.
Proof.
  intros Hnn Hsum dist Hr domain. unfold UpdateTopologyDistribution, Read, Write in Hr.
  rewrite lookup_insert_eq in Hr. injection Hr as <-. rewrite distribution_of_exact by done.
  pose proof (domain_replicas_range (cluster_topology clusters key) placements domain Hnn). lia.
Qed.

(** With the distribution computed from the placements, the raw score of a
    cluster is the number of replicas already placed in its domain (50 for a
    cluster without the label). *)
Theorem topology_score_counts_domain state app clusters cluster placements key :
  NoDup (mc_Name <$> clusters) ->
  (forall p, p ∈ placements -> 0 <= ct_Replicas p) -> sumZ ct_Replicas placements <= max_int32 ->
  Score key (UpdateTopologyDistribution state clusters placements key) app cluster =
  (match mc_Labels cluster !! key with
   | None => 50
   | Some domain =>
       sumZ ct_Replicas (filter (fun p =>
         Exists (fun c => mc_Name c = ct_Name p /\ mc_Labels c !! key = Some domain) clusters) placements)
   end, ok_status).
Proof.
  intros Hnd Hnn Hsum. unfold Score. destruct (mc_Labels cluster !! key) as [domain|]; [|done].
  unfold UpdateTopologyDistribution, Read, Write. rewrite lookup_insert_eq, distribution_of_exact by done.
  unfold domain_replicas. f_equal. f_equal. apply list_filter_iff. intros p.
  rewrite cluster_topology_lookup, Exists_exists by done. naive_solver.
Qed.

(** Normalization turns the counts around: the clusters stay, fewer replicas
    never score lower, an empty domain scores 100, and, unless nothing is placed
    anywhere (then all score 100), the fullest domain scores 0. *)
Theorem topology_normalize_spec state app raw :
  (forall k v, raw !! k = Some v -> 0 <= v <= max_int32) ->
  let scores := (NormalizeScore state app raw).1 in
  dom scores = dom raw /\
  forall k1 k2 v1 v2 w1 w2,
    raw !! k1 = Some v1 -> raw !! k2 = Some v2 -> scores !! k1 = Some w1 -> scores !! k2 = Some w2 ->
    (v1 <= v2 -> w2 <= w1) /\ 0 <= w1 <= 100 /\ (v1 = 0 -> w1 = 100) /\
    ((forall k v, raw !! k = Some v -> v <= v1) -> 0 < v1 -> w1 = 0).
Proof.
  intros Hraw scores. subst scores. unfold NormalizeScore.
  destruct (max_score_spec 34 raw) as (H0 & Hle & Hmax).
  destruct (Z.eqb_spec (max_score 34 raw) 0) as [E|E]; simpl; rewrite range_update_fmap;
    (split; [apply dom_fmap_L|]); intros k1 k2 v1 v2 w1 w2 H1 H2; rewrite !lookup_fmap, H1, H2; intros [= <-] [= <-];
    pose proof (Hle _ _ H1); pose proof (Hle _ _ H2); pose proof (Hraw _ _ H1); pose proof (Hraw _ _ H2).
  { split_and!; intros; lia. }
  destruct Hmax as [?|[k' Hk']]; [done|]. pose proof (Hraw _ _ Hk').
  destruct (inverted_range v1 (max_score 34 raw)) as [-> Hr1]; [lia|lia|].
  destruct (inverted_range v2 (max_score 34 raw)) as [-> Hr2]; [lia|lia|]. split_and!; try lia.
  - intros. apply Z.div_le_mono; lia.
  - intros ->. rewrite Z.sub_0_r, Z.mul_comm. apply Z.div_mul. lia.
  - intros Hall Hpos. pose proof (Hall _ _ Hk'). replace (max_score 34 raw - v1) with 0 by lia.
    apply Z.div_0_l. lia.
Qed.
End topology_theorems.
End TopologySpread.

(** ** Witnesses *)

Section cpu_lists.
Import Resource.

(** A list with the given amount of cpu. *)
Definition cpu_list (q : Z) : gmap string (@Quantity sample_kubernetes) := <["cpu" := (q : Quantity)]> ∅.

Lemma cpu_list_amount q name : amount (cpu_list q) name = if decide ("cpu" = name) then q else 0.
Proof. unfold cpu_list. rewrite amount_insert, amount_empty. done. Qed.

Lemma resource_score_spec_witness :
  sound_usage (amount (cpu_list 8000000000) "cpu")
              (amount (cpu_list 2000000000) "cpu") /\
  leastAllocatedScore (cpu_list 8000000000) (cpu_list 2000000000) "cpu" <= 100.
Proof.
  assert (sound_usage (amount (cpu_list 8000000000) "cpu")
                      (amount (cpu_list 2000000000) "cpu")) as Hs.
  { rewrite !cpu_list_amount. unfold sound_usage. simpl. lia. }
  split; [exact Hs|].
  apply (proj1 (proj2 (resource_score_spec (cpu_list 8000000000)
           (cpu_list 2000000000) (cpu_list 2000000000) "cpu" Hs Hs (Z.le_refl _)))).
Defined.
End cpu_lists.

Lemma demo_pod_resources : CalculatePodResources demo_app = Some (cpu_list 1000000000).
Proof.
  assert (unmarshal_template (Template (Spec demo_app)) = Some (mkPodTemplate [cpu_request 1] [] [])) as Ht
    by (vm_compute; reflexivity).
  unfold CalculatePodResources. rewrite Ht. cbn. unfold AddResourceList. cbn [Requests cpu_request go_range canonical_runtime].
  rewrite map_to_list_singleton. cbn. by rewrite lookup_empty.
Qed.

Lemma CalculateMaxReplicas_spec_witness :
  let cluster := mkCluster "a" ∅ false [] [mkSummary (cpu_list 8000000000) ∅ ∅] [] no_access no_state in
  Capacity.CalculateMaxReplicas cluster demo_app = 8 /\
  forall n, 0 <= n -> n <= 8 ->
    Capacity.fits (mkSummary (cpu_list 8000000000) ∅ ∅) (cpu_list 1000000000) n.
Proof.
  intros cluster. set (s := mkSummary (cpu_list 8000000000) ∅ ∅).
  assert (Capacity.CalculateMaxReplicas cluster demo_app = 8) as E by (vm_compute; reflexivity).
  split; [exact E|]. intros n Hn Hle.
  assert (forall name req, (cpu_list 1000000000) !! name = Some req ->
    "cpu" = name /\ req = 1000000000) as Hreq.
  { intros name req. unfold cpu_list. rewrite lookup_insert_Some, lookup_empty.
    intros [[E1 E2]|[_ E1]]; [split; [exact E1|symmetry; exact E2]|discriminate]. }
  refine (proj1 (proj2 (Capacity.CalculateMaxReplicas_spec cluster demo_app (cpu_list 1000000000) s [] _ eq_refl _ _)
                 n Hn) _).
  - exact demo_pod_resources.
  - intros name req Hr. destruct (Hreq name req Hr) as [<- ->]. unfold Capacity.available, s. cbn [Allocatable Allocated].
    rewrite cpu_list_amount, amount_empty. rewrite decide_True by reflexivity.
    split; split; vm_compute; (reflexivity || discriminate).
  - exists "cpu", 1000000000. split; [apply lookup_insert_eq|vm_compute; reflexivity].
  - rewrite E. exact Hle.
Defined.

Definition zoned (name zone : string) : ManagedCluster := sample_cluster name {[ "zone" := zone ]} 8.

Lemma topology_score_counts_domain_witness :
  let clusters := [zoned "a" "z1"; zoned "b" "z1"; zoned "c" "z2"] in
  let placements := [mkTopology "a" 2; mkTopology "b" 3; mkTopology "c" 4] in
  NoDup (mc_Name <$> clusters) /\ sumZ ct_Replicas placements <= max_int32 /\
  (TopologySpread.Score "zone"
     (TopologySpread.UpdateTopologyDistribution NewCycleState clusters placements "zone") demo_app (zoned "b" "z1")).1 = 5.
Proof.
  intros clusters placements.
  assert (NoDup (mc_Name <$> clusters)) as Hnd by (repeat constructor; vm_compute; set_solver).
  assert (sumZ ct_Replicas placements <= max_int32) as Hs by (vm_compute; discriminate).
  split_and!; [exact Hnd|exact Hs|].
  rewrite (TopologySpread.topology_score_counts_domain NewCycleState demo_app clusters (zoned "b" "z1") placements "zone" Hnd).
  - vm_compute. reflexivity.
  - intros p Hp. apply list_elem_of_In in Hp. simpl in Hp. destruct Hp as [<-|[<-|[<-|[]]]]; simpl; lia.
  - exact Hs.
Defined.

Lemma topology_normalize_spec_witness :
  let raw : gmap string Z := <["a" := 3]> (<["b" := 1]> ∅) in
  (forall k v, raw !! k = Some v -> 0 <= v <= max_int32) /\
  dom (TopologySpread.NormalizeScore NewCycleState demo_app raw).1 = dom raw.
Proof.
  intros raw. assert (forall k v, raw !! k = Some v -> 0 <= v <= max_int32) as Hr.
  { intros k v. unfold raw. rewrite !lookup_insert_Some, lookup_empty. unfold max_int32.
    intros [[_ <-]|[_ [[_ <-]|[_ ?]]]]; [lia|lia|done]. }
  split; [exact Hr|]. exact (proj1 (TopologySpread.topology_normalize_spec NewCycleState demo_app raw Hr)).
Defined.
