(* ===== verification/Shares.v ===== *)
(** * Proportional shares in binary64

    The arithmetic under the spread strategy: an integer number of replicas is
    divided in proportion to some parts, each share is rounded down, and what is
    left is handed out one by one.  In exact arithmetic the shares add up to the
    number; here it is shown how far the computed ones can be from that, which
    leaves no room for an error of a whole replica ([shares_floor_sum]). *)

From Stdlib Require Import QArith Qround Qabs Lqa Qpower Qminmax.
From S2P Require Import Prelude Float64 GoRuntime.

#[local] Open Scope Q_scope.

(** [y] approximates [x >= 0] with relative error [e]. *)
Definition near (e x y : Q) : Prop := x * (1 - e) <= y <= x * (1 + e).

Definition gamma : Q := 1 # 2 ^ 44.       (* a sum of at most 256 parts *)
Definition delta : Q := 1 # 2 ^ 43.       (* a share *)

Definition part_ok (q : Q) : Prop :=
  0 <= q <= inject_Z (2 ^ 40) /\ (q == 0 \/ (1 # 2 ^ 100) <= q).

Definition Qsum (l : list Q) : Q := foldr Qplus 0 l.

Definition f64_sum (l : list f64) : f64 := foldl f64_add f64_zero l.

Lemma near_weaken e e' x y : 0 <= x -> e <= e' -> near e x y -> near e' x y.
Proof. unfold near. intros Hx He [H1 H2]. split; nra. Qed.

Lemma near_eq e x x' y : x == x' -> near e x y -> near e x' y.
Proof. unfold near. intros ->. done. Qed.

Lemma near_add e s d t t' : 0 <= e <= 1 -> 0 <= s -> 0 <= d ->
  near e s t -> near u (t + d) t' -> near (e + 2 * u) (s + d) t'.
Proof.
  unfold near. pose proof u_bounds. intros He Hs Hd [H1 H2] [H3 H4].
  assert (t + d <= (s + d) * (1 + e)) by nra. assert ((s + d) * (1 - e) <= t + d) by nra.
  assert (0 <= (s + d) * e) by nra. assert ((s + d) * e <= s + d) by nra.
  split; nra.
Qed.

Lemma part_zero_or_pos q : part_ok q -> q == 0 \/ 0 < q.
Proof. intros [_ [H|H]]; [by left|right]. apply (Qlt_le_trans _ (1 # 2 ^ 100)); [done|exact H]. Qed.

Lemma good_range q : (1 # 2 ^ 400) <= q <= inject_Z (2 ^ 400) -> good q.
Proof.
  intros [H1 H2]. right. split.
  - eapply Qle_trans, H1. by vm_compute.
  - eapply Qle_trans; [exact H2|]. by vm_compute.
Qed.

(** A running sum of parts: the relative error grows by [2u] for each addition. *)
Lemma f64_sum_from l : forall i e s t,
  Forall part_ok l -> (0 <= i)%Z -> (i + Z.of_nat (length l) <= 256)%Z ->
  0 <= e -> e == inject_Z (2 * i) * u -> near e s t ->
  0 <= s <= inject_Z i * inject_Z (2 ^ 40) -> (s == 0 \/ (1 # 2 ^ 100) <= s) ->
  exists T, foldl f64_add (F64 t) (F64 <$> l) = F64 T /\
            near (inject_Z (2 * (i + Z.of_nat (length l))) * u) (s + Qsum l) T.
Proof.
  induction l as [|d l IH]; intros i e s t Hl Hi Hn He Hee Hst Hs Hs0; [simpl|].
  - exists t. split; [done|]. rewrite Z.add_0_r. unfold near in *. rewrite <- Hee, Qplus_0_r. done.
  - apply Forall_cons in Hl as [[Hd Hd0] Hl]. rewrite length_cons, Nat2Z.inj_succ in Hn.
    rewrite fmap_cons. cbn [foldl].
    pose proof u_bounds as [Hu0 Hu1].
    assert (inject_Z i <= 256) as Hi256 by (change 256 with (inject_Z 256); rewrite <- Zle_Qle; lia).
    assert (0 <= inject_Z i) as Hi0 by (change 0 with (inject_Z 0); by rewrite <- Zle_Qle).
    assert (e <= 1 # 2) as Hehalf.
    { rewrite Hee, inject_Z_mult. change (inject_Z 2) with 2. nra. }
    assert (0 <= s + d <= inject_Z (i + 1) * inject_Z (2 ^ 40)) as Hsd.
    { rewrite inject_Z_plus. change (inject_Z 1) with 1. nra. }
    assert (s + d == 0 \/ (1 # 2 ^ 100) <= s + d) as Hsd0.
    { destruct Hs0 as [E|?]; [|right; lra]. destruct Hd0 as [E'|?]; [left; lra|right; lra]. }
    destruct (f64_add_good t d) as (t' & -> & Ht').
    { destruct Hst as [Hst1 Hst2]. destruct Hsd0 as [E|Hpos].
      - left. assert (s == 0) as Es by lra. assert (d == 0) by lra. rewrite Es in Hst1, Hst2. lra.
      - apply good_range. split.
        + apply (Qle_trans _ ((1 # 2 ^ 100) * (1 # 2))); [by vm_compute|]. nra.
        + apply (Qle_trans _ ((s + d) * 2)); [nra|].
          apply (Qle_trans _ (inject_Z (i + 1) * inject_Z (2 ^ 40) * 2)); [nra|].
          apply (Qle_trans _ (257 * inject_Z (2 ^ 40) * 2)); [|by vm_compute].
          rewrite inject_Z_plus. change (inject_Z 1) with 1. assert (0 < inject_Z (2 ^ 40)) by done. nra. }
    destruct (IH (i + 1)%Z (e + 2 * u) (s + d) t') as (T & -> & HT); try done; try lia.
    + nra.
    + rewrite Hee, Z.mul_add_distr_l, (inject_Z_plus _ (2 * 1)). change (inject_Z (2 * 1)) with 2. ring.
    + apply near_add with (t := t); [lra|lra|lra|done|done].
    + exists T. split; [done|].
      rewrite length_cons.
      replace (i + Z.of_nat (S (length l)))%Z with (i + 1 + Z.of_nat (length l))%Z by lia.
      eapply near_eq; [|exact HT]. unfold Qsum. simpl. ring.
Qed.

Lemma Qsum_nonneg l : Forall part_ok l -> 0 <= Qsum l.
Proof. induction 1 as [|d l [Hd _] Hl IH]; simpl; [done|]. lra. Qed.

Lemma Qsum_elem l d : Forall part_ok l -> d ∈ l -> d <= Qsum l.
Proof.
  induction 1 as [|x l [Hx _] Hl IH]; [by intros ?%elem_of_nil|].
  pose proof (Qsum_nonneg l Hl). intros [->|Hd]%elem_of_cons; simpl; [lra|]. specialize (IH Hd). lra.
Qed.

Lemma f64_sum_near l : Forall part_ok l -> (length l <= 256)%nat ->
  exists T, f64_sum (F64 <$> l) = F64 T /\ near gamma (Qsum l) T.
Proof.
  intros Hl Hn. destruct (f64_sum_from l 0 0 0 0) as (T & HT & Hnear).
  1-8: first [done|lia|reflexivity|unfold near; lra|by left].
  - exists T. split; [done|]. pose proof (Qsum_nonneg l Hl).
    apply (near_weaken (inject_Z (2 * (0 + Z.of_nat (length l))) * u)); [done| |].
    + apply (Qle_trans _ (inject_Z 512 * u)); [|by vm_compute].
      assert (inject_Z (2 * (0 + Z.of_nat (length l))) <= inject_Z 512) by (rewrite <- Zle_Qle; lia).
      pose proof u_bounds. nra.
    + eapply near_eq; [|exact Hnear]. ring.
Qed.

(** ** One share *)

Lemma near_nonneg e x y : 0 <= x -> e <= 1 -> near e x y -> 0 <= y.
Proof. unfold near. intros Hx He [H _]. nra. Qed.

Lemma inject_Z_range z a b : (a <= z <= b)%Z -> inject_Z a <= inject_Z z <= inject_Z b.
Proof. intros [? ?]. by rewrite <- !Zle_Qle. Qed.

(** Dividing an approximation by an approximation. *)
Lemma near_div S T x a b :
  0 <= x -> 0 < S -> near gamma S T -> near u x a -> near u (a / T) b -> near delta (x / S) b.
Proof.
  intros Hx HS [HT1 HT2] [Ha1 Ha2] [Hb1 Hb2]. pose proof u_bounds as [Hu0 _].
  assert (0 < T) as HT. { eapply Qlt_le_trans; [|exact HT1]. assert (gamma < 1) by reflexivity. nra. }
  assert (x == (x / S) * S) as Ex by (field; lra). set (v := x / S) in *.
  assert (0 <= v) as Hv. { unfold v. apply Qle_shift_div_l; [done|]. lra. }
  assert (a / T <= v * ((1 + u) / (1 - gamma))) as Hup.
  { apply Qle_shift_div_r; [done|]. rewrite Ex in Ha2.
    assert (v * ((1 + u) / (1 - gamma)) * (S * (1 - gamma)) == v * S * (1 + u)) as E by (field; done).
    assert (v * ((1 + u) / (1 - gamma)) * (S * (1 - gamma)) <= v * ((1 + u) / (1 - gamma)) * T).
    { rewrite !(Qmult_comm (v * _)). apply Qmult_le_compat_r; [exact HT1|].
      apply Qmult_le_0_compat; [done|by vm_compute]. }
    lra. }
  assert (v * ((1 - u) / (1 + gamma)) <= a / T) as Hlo.
  { apply Qle_shift_div_l; [done|]. rewrite Ex in Ha1.
    assert (v * ((1 - u) / (1 + gamma)) * (S * (1 + gamma)) == v * S * (1 - u)) as E by (field; done).
    assert (v * ((1 - u) / (1 + gamma)) * T <= v * ((1 - u) / (1 + gamma)) * (S * (1 + gamma))).
    { rewrite !(Qmult_comm (v * _)). apply Qmult_le_compat_r; [exact HT2|].
      apply Qmult_le_0_compat; [done|by vm_compute]. }
    lra. }
  assert ((1 + u) / (1 - gamma) * (1 + u) <= 1 + delta) as K1 by (by vm_compute).
  assert (1 - delta <= (1 - u) / (1 + gamma) * (1 - u)) as K2 by (by vm_compute).
  split.
  - eapply Qle_trans; [|exact Hb1]. apply (Qle_trans _ (v * ((1 - u) / (1 + gamma)) * (1 - u))).
    + rewrite <- Qmult_assoc. rewrite !(Qmult_comm v). by apply Qmult_le_compat_r.
    + apply Qmult_le_compat_r; [done|by vm_compute].
  - eapply Qle_trans; [exact Hb2|]. apply (Qle_trans _ (v * ((1 + u) / (1 - gamma)) * (1 + u))).
    + apply Qmult_le_compat_r; [done|by vm_compute].
    + rewrite <- Qmult_assoc. rewrite !(Qmult_comm v). by apply Qmult_le_compat_r.
Qed.

(** [float64(r) * d / T] *)
Definition f64_share (r : Z) (d T : f64) : f64 := f64_div (f64_mul (f64_of_int r) d) T.

Definition tiny : Q := 1 # 2 ^ 200.

Lemma near_pos_total S T : 0 < S -> near gamma S T -> S * (1 # 2) <= T /\ 0 < T /\ T <= S * 2.
Proof. intros HS [H1 H2]. assert (gamma < 1 # 2) by reflexivity. split_and!; nra. Qed.

(** The product is 0, or in a range that keeps its relative accuracy. *)
Lemma product_range r d : (0 <= r <= max_int32)%Z -> part_ok d ->
  inject_Z r * d == 0 \/ ((1 # 2 ^ 100) <= inject_Z r * d <= inject_Z (2 ^ 72) /\ (1 # 2 ^ 100) <= d).
Proof.
  intros Hr [Hd [E|Hpos]]; [left; rewrite E; ring|].
  destruct (Z.eq_dec r 0) as [->|Hne]; [left; ring|right].
  assert (1 <= inject_Z r) by (change 1 with (inject_Z 1); rewrite <- Zle_Qle; lia).
  assert (inject_Z r <= inject_Z max_int32) by (rewrite <- Zle_Qle; lia).
  assert (0 < (1 # 2 ^ 100)) by done. split_and!; [nra| |done].
  apply (Qle_trans _ (inject_Z max_int32 * inject_Z (2 ^ 40))); [|by vm_compute].
  apply (Qle_trans _ (inject_Z max_int32 * d)); [apply Qmult_le_compat_r; lra|].
  rewrite !(Qmult_comm (inject_Z max_int32)). apply Qmult_le_compat_r; [lra|done].
Qed.

(** And so is the quotient. *)
Lemma quotient_range x a d S T : 0 < S -> S <= inject_Z (2 ^ 50) -> near gamma S T -> d <= S -> near u x a ->
  x == 0 \/ ((1 # 2 ^ 100) <= x <= inject_Z (2 ^ 72) /\ (1 # 2 ^ 100) <= d) ->
  a / T == 0 \/ (1 # 2 ^ 160) <= a / T <= inject_Z (2 ^ 240).
Proof.
  intros HS HSmax HT HdS [Ha1 Ha2] Hx. destruct (near_pos_total S T HS HT) as (HT1 & HT2 & HT3).
  pose proof u_bounds as [Hu0 Hu1]. destruct Hx as [E|[[H1 H2] Hd]].
  - left. assert (a == 0) as -> by (rewrite E in Ha1, Ha2; lra). unfold Qdiv. ring.
  - right. split.
    + apply Qle_shift_div_l; [done|]. apply (Qle_trans _ ((1 # 2 ^ 160) * (inject_Z (2 ^ 50) * 2))).
      * rewrite !(Qmult_comm (1 # 2 ^ 160)). apply Qmult_le_compat_r; [lra|done].
      * apply (Qle_trans _ ((1 # 2 ^ 100) * (1 # 2))); [by vm_compute|]. nra.
    + apply Qle_shift_div_r; [done|]. apply (Qle_trans _ (inject_Z (2 ^ 72) * 2)).
      * assert (1 + u <= 2) by (by vm_compute). nra.
      * apply (Qle_trans _ (inject_Z (2 ^ 240) * ((1 # 2 ^ 100) * (1 # 2)))); [by vm_compute|].
        rewrite !(Qmult_comm (inject_Z (2 ^ 240))). apply Qmult_le_compat_r; [lra|done].
Qed.

Lemma Zlt_of_Q a b : inject_Z a < inject_Z b -> (a < b)%Z.
Proof. by rewrite <- Zlt_Qlt. Qed.

(** A multiple of [2^-70]. *)
Definition on_grid (q : Q) : Prop := exists m, q == inject_Z m * (1 # 2 ^ 70).

Lemma on_grid_int z : on_grid (inject_Z z).
Proof.
  exists (z * 2 ^ 70)%Z. rewrite inject_Z_mult. rewrite <- Qmult_assoc.
  assert (inject_Z (2 ^ 70) * (1 # 2 ^ 70) == 1) as -> by reflexivity. ring.
Qed.

Lemma on_grid_pos a b : on_grid a -> on_grid b -> b < a -> (1 # 2 ^ 70) <= a - b.
Proof.
  intros [m Hm] [n Hn] Hlt. rewrite Hm, Hn in *. assert (0 < (1 # 2 ^ 70)) as Hp by done.
  assert (inject_Z n < inject_Z m) as Hnm%Zlt_of_Q by nra.
  assert (inject_Z (n + 1) <= inject_Z m) as H by (rewrite <- Zle_Qle; lia).
  rewrite inject_Z_plus in H. change (inject_Z 1) with 1 in H. nra.
Qed.

Lemma round64_grid x s : round64 x = F64 s -> (1 # 2 ^ 18) <= x -> on_grid s.
Proof.
  unfold round64. intros E Hx. destruct (Qle_bool _ _); [done|]. injection E as <-.
  destruct (rnd_multiple x (-18)) as [m Hm]; [lia|exact Hx|]. exists m. rewrite Hm. reflexivity.
Qed.

Lemma good_of_quotient q : q == 0 \/ (1 # 2 ^ 160) <= q <= inject_Z (2 ^ 240) -> good q.
Proof.
  intros [E|[H1 H2]]; [by left|]. apply good_range. split.
  - eapply Qle_trans, H1. by vm_compute.
  - eapply Qle_trans; [exact H2|]. by vm_compute.
Qed.

Lemma f64_share_near r d T S :
  (0 <= r <= max_int32)%Z -> part_ok d -> d <= S -> 0 < S -> S <= inject_Z (2 ^ 50) -> near gamma S T ->
  exists s, f64_share r (F64 d) (F64 T) = F64 s /\ near delta (inject_Z r * d / S) s /\ 0 <= s /\
            (s == 0 \/ tiny <= s) /\ ((1 # 2 ^ 17) <= s -> on_grid s).
Proof.
  intros Hr Hd HdS HS HSmax HT. pose proof u_bounds as [Hu0 Hu1].
  destruct (near_pos_total S T HS HT) as (HT1 & HT2 & HT3).
  unfold f64_share. rewrite f64_of_int_eq by (unfold max_int32 in Hr; change (2 ^ 53)%Z with 9007199254740992%Z; lia).
  pose proof (product_range r d Hr Hd) as Hrd.
  assert (0 <= inject_Z r * d) as Hrd0 by (destruct Hrd as [->|[[H1 _] _]]; [done|]; eapply Qle_trans, H1; done).
  destruct (f64_mul_good (inject_Z r) d) as (a & -> & Ha).
  { apply good_of_quotient. destruct Hrd as [E|[[H1 H2] _]]; [by left|right]. split.
    - eapply Qle_trans, H1. by vm_compute.
    - eapply Qle_trans; [exact H2|]. by vm_compute. }
  pose proof (quotient_range _ a d S T HS HSmax HT HdS Ha Hrd) as HaT.
  destruct (f64_div_good a T ltac:(lra) (good_of_quotient _ HaT)) as (s & Es & Hs).
  exists s. split_and!; [done|by eapply near_div| | |].
  - destruct HaT as [E|[H1 _]]; [rewrite E in Hs; lra|]. destruct Hs as [Hs _].
    assert (0 < (1 # 2 ^ 160)) by done. nra.
  - destruct HaT as [E|[H1 _]]; [left; rewrite E in Hs; lra|right].
    destruct Hs as [Hs _]. apply (Qle_trans _ ((1 # 2 ^ 160) * (1 - u))); [by vm_compute|].
    eapply Qle_trans; [|exact Hs]. apply Qmult_le_compat_r; [done|by vm_compute].
  - intros Hbig. apply (round64_grid (a / T)).
    + unfold f64_div in Es. destruct (Qeq_bool T 0) eqn:ET; [apply Qeq_bool_iff in ET; lra|exact Es].
    + destruct HaT as [E|[H1 _]]; [rewrite E in Hs; assert (s <= 0) by lra; exfalso; assert (0 < (1 # 2 ^ 17)) by done; lra|].
      assert (0 <= a / T) by (eapply Qle_trans, H1; done).
      assert ((1 # 2 ^ 18) * 2 <= (1 # 2 ^ 17)) by (by vm_compute). destruct Hs as [_ Hs]. nra.
Qed.

(** ** All the shares *)

Lemma Qsum_near e xs ss : Forall2 (near e) xs ss -> near e (Qsum xs) (Qsum ss).
Proof.
  induction 1 as [|x s xs ss [H1 H2] Hf [IH1 IH2]]; simpl; split; try lra; nra.
Qed.

Lemma Qsum_shares r S ds : ~ S == 0 ->
  Qsum ((fun d => inject_Z r * d / S) <$> ds) == inject_Z r * Qsum ds / S.
Proof.
  intros HS. induction ds as [|d ds IH]; [simpl; by field|]. rewrite fmap_cons. simpl. rewrite IH. by field.
Qed.

Lemma Qfloor_sum ss :
  inject_Z (sumZ Qfloor ss) <= Qsum ss /\ Qsum ss <= inject_Z (sumZ Qfloor ss) + inject_Z (Z.of_nat (length ss)).
Proof.
  induction ss as [|s ss [IH1 IH2]]; [by split|].
  rewrite sumZ_cons, length_cons, Nat2Z.inj_succ, <- Z.add_1_r, !inject_Z_plus. simpl.
  pose proof (Qfloor_le s). pose proof (Qlt_floor s) as Hf. rewrite inject_Z_plus in Hf.
  change (inject_Z 1) with 1 in *. split; lra.
Qed.

(** The total of the shares differs from [r] by less than one replica. *)
Lemma shares_total r ds ss :
  (0 <= r <= max_int32)%Z -> 0 < Qsum ds ->
  Forall2 (near delta) ((fun d => inject_Z r * d / Qsum ds) <$> ds) ss ->
  inject_Z r - (1 # 2 ^ 11) <= Qsum ss <= inject_Z r + (1 # 2 ^ 11).
Proof.
  intros Hr HS Hss. apply Qsum_near in Hss.
  pose proof (near_eq _ _ _ _ (Qsum_shares r (Qsum ds) ds ltac:(lra)) Hss) as Hn.
  assert (inject_Z r * Qsum ds / Qsum ds == inject_Z r) as E by (field; lra).
  apply (near_eq _ _ _ _ E) in Hn. destruct Hn as [H1 H2].
  assert (0 <= inject_Z r <= inject_Z max_int32) as [? Hb] by (by apply (inject_Z_range r 0)).
  assert (inject_Z r * delta <= 1 # 2 ^ 11).
  { apply (Qle_trans _ (inject_Z max_int32 * delta)); [|by vm_compute]. by apply Qmult_le_compat_r. }
  split; lra.
Qed.

(** Rounded down, the shares never exceed [r], and what is left is at most one
    replica for each part. *)
Lemma shares_floor_sum r ds ss :
  (0 <= r <= max_int32)%Z -> 0 < Qsum ds ->
  Forall2 (near delta) ((fun d => inject_Z r * d / Qsum ds) <$> ds) ss ->
  (r - Z.of_nat (length ss) <= sumZ Qfloor ss <= r)%Z.
Proof.
  intros Hr HS Hss. destruct (shares_total r ds ss Hr HS Hss) as [H1 H2].
  destruct (Qfloor_sum ss) as [H3 H4]. assert ((1 # 2 ^ 11) < 1) by done.
  assert (inject_Z r < inject_Z (sumZ Qfloor ss + Z.of_nat (length ss) + 1)) as Hlo%Zlt_of_Q.
  { rewrite !inject_Z_plus. change (inject_Z 1) with 1. lra. }
  assert (inject_Z (sumZ Qfloor ss) < inject_Z (r + 1)) as Hhi%Zlt_of_Q.
  { rewrite inject_Z_plus. change (inject_Z 1) with 1. lra. }
  lia.
Qed.

(** [int32(math.Floor(share))] *)
Definition share_floor `{GoRuntime} (share : f64) : Z := f64_to_i32 (f64_floor share).

Lemma Qfloor_inject z : Qfloor (inject_Z z) = z.
Proof. apply Qfloor_Z. Qed.

Lemma share_floor_eq `{GoRuntime} s : 0 <= s -> (Qfloor s <= max_int32)%Z ->
  share_floor (F64 s) = Qfloor s /\ (0 <= Qfloor s)%Z.
Proof.
  intros Hs Hmax. assert (0 <= Qfloor s)%Z as H0 by (apply (Qfloor_resp_le 0 s Hs)).
  split; [|done]. unfold share_floor, f64_to_i32, f64_floor, f64_trunc.
  destruct (Qle_bool 0 (inject_Z (Qfloor s))) eqn:E.
  - rewrite Qfloor_inject. unfold max_int32 in Hmax.
    destruct ((- 2 ^ 31 <=? Qfloor s) && (Qfloor s <? 2 ^ 31))%Z eqn:Eb; [done|].
    exfalso. apply andb_false_iff in Eb as [Eb%Z.leb_gt|Eb%Z.ltb_ge];
      change (2 ^ 31)%Z with 2147483648%Z in Eb; lia.
  - exfalso. apply Bool.not_true_iff_false in E. apply E, Qle_bool_iff.
    change 0 with (inject_Z 0). by rewrite <- Zle_Qle.
Qed.

(** ** The part of a difference above zero *)

Lemma Qabs_opp_eq x : Qabs (- x) = Qabs x.
Proof. destruct x as [n d]. simpl. by rewrite Z.abs_opp. Qed.

Lemma round64_nonpos q : q <= 0 -> good (- q) -> exists r, round64 q = F64 r /\ r <= 0.
Proof.
  intros Hq Hg. destruct q as [[|n|n] d].
  - exists 0. split; [|done]. reflexivity.
  - exfalso. unfold Qle in Hq. simpl in Hq. lia.
  - assert (rnd (Zneg n # d) = - rnd (Zpos n # d)) as E by reflexivity.
    destruct (round64_good _ Hg) as (r & Er & Hr).
    assert (0 < (Zpos n # d)) as Hpos by done. assert (- (Zneg n # d) == Zpos n # d) as Ep by reflexivity.
    rewrite Ep in Hr. change (- (Zneg n # d)) with (Zpos n # d) in Er. pose proof u_bounds as [? ?].
    unfold round64 in *. destruct (Qle_bool (inject_Z (2 ^ 1024)) (Qabs (rnd (Zpos n # d)))) eqn:Eb; [done|].
    injection Er as Er. rewrite E, Qabs_opp_eq, Eb. exists (- rnd (Zpos n # d)). split; [done|]. rewrite Er. nra.
Qed.

(** [math.Max(0, a - b)]: the exact difference when it is positive, up to one
    rounding, and 0 otherwise. *)
Lemma posdiff_spec a b :
  on_grid a -> on_grid b -> 0 <= a <= inject_Z (2 ^ 33) -> 0 <= b <= inject_Z (2 ^ 33) ->
  exists q, f64_max f64_zero (f64_sub (F64 a) (F64 b)) = F64 q /\ near u (Qmax 0 (a - b)) q /\ part_ok q.
Proof.
  intros Ha Hb Hra Hrb. assert (inject_Z (2 ^ 33) <= inject_Z (2 ^ 400)) as Hbig by (by vm_compute).
  assert ((1 # 2 ^ 400) <= (1 # 2 ^ 70)) as Hsmall by (by vm_compute). pose proof u_bounds as [Hu0 Hu1].
  destruct (Qlt_le_dec b a) as [Hlt|Hle].
  - pose proof (on_grid_pos a b Ha Hb Hlt) as Hmin.
    destruct (f64_sub_good a b) as (q & -> & Hq); [apply good_range; split; lra|].
    assert (0 < (1 # 2 ^ 70)) by done.
    assert (0 < q) as Hpos by (destruct Hq; nra).
    exists q. split_and!.
    + unfold f64_max, f64_zero, f64_ltb, Qlt_bool. destruct (Qle_bool q 0) eqn:E; [|done].
      apply Qle_bool_iff in E. lra.
    + unfold near. rewrite Q.max_r by lra. exact Hq.
    + assert (a - b <= inject_Z (2 ^ 33)) by lra. destruct Hq as [H1 H2]. split.
      * split; [lra|]. apply (Qle_trans _ (inject_Z (2 ^ 33) * (1 + u))); [nra|by vm_compute].
      * right. apply (Qle_trans _ ((1 # 2 ^ 70) * (1 - u))); [by vm_compute|]. nra.
  - destruct (round64_nonpos (a - b)) as (r & Hr & Hr0); [lra| |].
    { destruct (Qlt_le_dec a b) as [Hlt|Hge]; [|left; lra].
      pose proof (on_grid_pos b a Hb Ha Hlt). apply good_range. split; lra. }
    exists 0. change (f64_sub (F64 a) (F64 b)) with (round64 (a - b)). rewrite Hr. split_and!.
    + unfold f64_max, f64_zero, f64_ltb, Qlt_bool. destruct (Qle_bool r 0) eqn:E; [done|].
      apply Bool.not_true_iff_false in E. exfalso. by apply E, Qle_bool_iff.
    + unfold near. rewrite Q.max_l by lra. lra.
    + split; [by vm_compute|by left].
Qed.

(** ** Distribution *)

Definition share_ok (s : Q) : Prop := 0 <= s /\ (s == 0 \/ tiny <= s) /\ ((1 # 2 ^ 17) <= s -> on_grid s).

Lemma distribute r ps T :
  (0 <= r <= max_int32)%Z -> Forall part_ok ps -> 0 < Qsum ps -> Qsum ps <= inject_Z (2 ^ 50) ->
  near gamma (Qsum ps) T ->
  exists ss, (fun p => f64_share r (F64 p) (F64 T)) <$> ps = F64 <$> ss /\
    Forall2 (near delta) ((fun d => inject_Z r * d / Qsum ps) <$> ps) ss /\ Forall share_ok ss.
Proof.
  intros Hr Hps HS HSmax HT.
  assert (Forall (fun p => part_ok p /\ p <= Qsum ps) ps) as Hall.
  { apply Forall_forall. intros p Hp. rewrite Forall_forall in Hps. split; [by apply Hps|].
    apply Qsum_elem; [by apply Forall_forall|done]. }
  clear Hps. revert Hall HS HSmax HT. generalize (Qsum ps) as S. intros S Hall HS HSmax HT.
  induction Hall as [|p l [Hp Hle] Hl IH]; [by exists []|].
  destruct IH as (ss & E & H2 & Hok).
  destruct (f64_share_near r p T S Hr Hp Hle HS HSmax HT) as (s & Es & Hs & Hok_s).
  exists (s :: ss). rewrite !fmap_cons, Es, E. split_and!; [done|by constructor|by constructor].
Qed.

Lemma Qfloor_nonneg s : 0 <= s -> (0 <= Qfloor s)%Z.
Proof. apply (Qfloor_resp_le 0 s). Qed.

(** The integer parts of the shares are what the code computes. *)
Lemma shares_floor `{GoRuntime} r ps ss :
  (0 <= r <= max_int32)%Z -> 0 < Qsum ps -> Forall share_ok ss ->
  Forall2 (near delta) ((fun d => inject_Z r * d / Qsum ps) <$> ps) ss ->
  Forall (fun s => share_floor (F64 s) = Qfloor s /\ (0 <= Qfloor s <= r)%Z) ss.
Proof.
  intros Hr HS Hok Hnear. destruct (shares_floor_sum r ps ss Hr HS Hnear) as [_ Hsum].
  apply Forall_forall. intros s Hs. rewrite Forall_forall in Hok.
  assert (forall x, x ∈ ss -> (0 <= Qfloor x)%Z) as Hnn by (intros x Hx; apply Qfloor_nonneg; by apply Hok).
  pose proof (sumZ_ge_elem Qfloor ss s Hnn Hs). pose proof (Hnn s Hs).
  destruct (share_floor_eq s) as [Hf _]; [by apply Hok|lia|]. split; [done|lia].
Qed.

Lemma Qsum_perm l k : l ≡ₚ k -> Qsum l == Qsum k.
Proof.
  induction 1 as [|x l k Hp IH|x y l|l k m H1 IH1 H2 IH2]; simpl; [done|by rewrite IH|ring|by rewrite IH1].
Qed.

Lemma Qsum_app l k : Qsum (l ++ k) == Qsum l + Qsum k.
Proof. induction l as [|x l IH]; simpl; [ring|]. rewrite IH. by rewrite Qplus_assoc. Qed.

Lemma Qsum_bound b l : Forall (fun x => x <= b) l -> Qsum l <= b * inject_Z (Z.of_nat (length l)).
Proof.
  induction 1 as [|x l Hx Hl IH]; [change (0 <= b * 0); lra|].
  rewrite length_cons, Nat2Z.inj_succ, <- Z.add_1_r, inject_Z_plus. simpl. change (inject_Z 1) with 1.
  apply (Qle_trans _ (b + b * inject_Z (Z.of_nat (length l)))); [by apply Qplus_le_compat|lra].
Qed.

Lemma Qsum_le {A} (f g : A -> Q) l : (forall a, a ∈ l -> f a <= g a) -> Qsum (f <$> l) <= Qsum (g <$> l).
Proof.
  induction l as [|a l IH]; intros Hl; [simpl; lra|]. rewrite !fmap_cons. simpl.
  apply Qplus_le_compat; [apply Hl; by left|]. apply IH. intros b Hb. apply Hl. by right.
Qed.

Lemma Qsum_inject {A} (f : A -> Z) l : Qsum ((fun a => inject_Z (f a)) <$> l) == inject_Z (sumZ f l).
Proof.
  induction l as [|a l IH]; [done|]. rewrite fmap_cons, sumZ_cons, inject_Z_plus. simpl. by rewrite IH.
Qed.

Lemma Qsum_sub {A} (f g : A -> Q) l : Qsum ((fun a => f a - g a) <$> l) == Qsum (f <$> l) - Qsum (g <$> l).
Proof. induction l as [|a l IH]; [done|]. rewrite !fmap_cons. simpl. rewrite IH. ring. Qed.

Lemma Qsum_scale {A} (c : Q) (f : A -> Q) l : Qsum ((fun a => c * f a) <$> l) == c * Qsum (f <$> l).
Proof. induction l as [|a l IH]; [change (0 == c * 0); ring|]. rewrite !fmap_cons. simpl. rewrite IH. ring. Qed.

(** The sum of integers in binary64 is exact while it fits in 53 bits. *)
Lemma f64_sum_int {A} (f : A -> Z) l z :
  (forall a, a ∈ l -> 0 <= f a)%Z -> (0 <= z)%Z -> (z + sumZ f l <= 2 ^ 53)%Z ->
  foldl (fun t a => f64_add t (f64_of_int (f a))) (F64 (inject_Z z)) l = F64 (inject_Z (z + sumZ f l)).
Proof.
  revert z; induction l as [|a l IH]; intros z Hf Hz Hb; cbn [foldl].
  - by rewrite sumZ_nil, Z.add_0_r.
  - rewrite sumZ_cons in *. pose proof (Hf a ltac:(by left)).
    assert (forall b, b ∈ l -> 0 <= f b)%Z as Hl by (intros; apply Hf; by right).
    pose proof (sumZ_nonneg f l Hl). rewrite f64_of_int_eq, f64_add_int by lia. rewrite IH by (done || lia).
    by rewrite Z.add_assoc.
Qed.

(** The remainder of a share: its fractional part, up to one rounding. *)
Lemma share_remainder s : share_ok s -> (Qfloor s <= max_int32)%Z ->
  exists rho, f64_sub (F64 s) (f64_of_int (Qfloor s)) = F64 rho /\ near u (s - inject_Z (Qfloor s)) rho /\
    0 <= s - inject_Z (Qfloor s) < 1.
Proof.
  intros (Hs & Hs0 & Hgrid) Hmax. pose proof (Qfloor_nonneg s Hs) as Hq.
  pose proof (Qfloor_le s) as Hle. pose proof (Qlt_floor s) as Hlt. rewrite inject_Z_plus in Hlt.
  change (inject_Z 1) with 1 in Hlt.
  rewrite f64_of_int_eq by (unfold max_int32 in Hmax; change (2 ^ 53)%Z with 9007199254740992%Z; lia).
  assert (good (s - inject_Z (Qfloor s))) as Hg.
  { destruct (Z.eq_dec (Qfloor s) 0) as [E|Hne].
    - rewrite E in *. assert (s - inject_Z 0 == s) as Es by (change (inject_Z 0) with 0; ring).
      destruct Hs0 as [Hz|Ht]; [left; by rewrite Es|]. apply good_range. rewrite Es. split.
      + eapply Qle_trans, Ht. by vm_compute.
      + apply (Qle_trans _ 1); [|by vm_compute]. change (inject_Z 0) with 0 in Hlt. lra.
    - assert (1 <= s) as H1.
      { eapply Qle_trans, Hle. change 1 with (inject_Z 1). rewrite <- Zle_Qle. lia. }
      destruct (Qlt_le_dec (inject_Z (Qfloor s)) s) as [Hpos|Hz]; [|left; lra].
      assert (on_grid s) as Hgs by (apply Hgrid; eapply Qle_trans, H1; by vm_compute).
      pose proof (on_grid_pos s _ Hgs (on_grid_int _) Hpos). apply good_range. split.
      + apply (Qle_trans _ (1 # 2 ^ 70)); [by vm_compute|done].
      + apply (Qle_trans _ 1); [lra|by vm_compute]. }
  destruct (f64_sub_good s (inject_Z (Qfloor s)) Hg) as (rho & E & Hr). exists rho. split_and!; [done|done|lra|lra].
Qed.

(** ** Reductions *)

Definition slack : Q := 1 # 2 ^ 9.

(** The share of a reduction exceeds the surplus it comes from by less than
    [slack], hence never takes more replicas than there are. *)
Lemma reduction_le r S c d s :
  1 <= r <= inject_Z (2 ^ 31) -> r - (3 # 2 ^ 13) <= S -> 0 <= d -> d <= c * (1 + u) -> d <= S -> 0 < S ->
  0 <= c <= inject_Z (2 ^ 31) -> near delta (r * d / S) s -> s <= c + slack.
Proof.
  intros Hr HS Hd Hdc HdS HSpos Hc [_ Hs]. set (e := 3 # 2 ^ 13) in *.
  assert (0 < e) as He by reflexivity. assert (e < 1 # 1000) as He1 by reflexivity.
  assert (0 < slack) by reflexivity. assert (0 < delta) by reflexivity.
  assert (inject_Z (2 ^ 31) * (u + delta + u * delta) <= 1 # 2 ^ 11) as Hsmall by (by vm_compute).
  assert (c * (u + delta + u * delta) <= 1 # 2 ^ 11) as Hcsmall.
  { eapply Qle_trans; [|exact Hsmall]. apply Qmult_le_compat_r; [apply Hc|by vm_compute]. }
  eapply Qle_trans; [exact Hs|]. destruct (Qlt_le_dec (2 * r) d) as [Hbig|Hsm].
  - assert (r * d / S <= r) as Hx.
    { apply Qle_shift_div_r; [done|]. rewrite !(Qmult_comm r). apply Qmult_le_compat_r; lra. }
    assert (r * d / S * (1 + delta) <= r * (1 + delta)) as Hx' by (apply Qmult_le_compat_r; lra).
    assert ((1 + u) * (1 + delta) <= 2) by (by vm_compute).
    assert (2 * r * (1 + delta) <= c * ((1 + u) * (1 + delta))) by nra. nra.
  - assert (r * d / S <= d + 3 * e) as Hx.
    { apply Qle_shift_div_r; [done|]. apply (Qle_trans _ ((d + 3 * e) * (r - e))); [nra|].
      rewrite !(Qmult_comm (d + _)). apply Qmult_le_compat_r; lra. }
    assert (r * d / S * (1 + delta) <= (d + 3 * e) * (1 + delta)) as Hx' by (apply Qmult_le_compat_r; lra).
    assert (3 * e * (1 + delta) + (1 # 2 ^ 11) <= slack) as Hslack by (by vm_compute).
    assert (d * (1 + delta) <= c * (1 + u) * (1 + delta)) by (apply Qmult_le_compat_r; lra).
    assert (c * (1 + u) * (1 + delta) == c + c * (u + delta + u * delta)) as E by ring. lra.
Qed.
