(* ===== verification/Spread.v ===== *)
(** * The spread strategy

    [selectClustersSpread] (scheduler.go): the replicas of an application are
    distributed over several clusters by score.  When the application grows no
    cluster loses a replica; when it shrinks no cluster gains one.  The function is
    cut at the comments of the source; the shares are computed in binary64, and a
    [quota++] beyond the last candidate panics, as it does in Go. *)

From Stdlib Require Import QArith Qround Qminmax Lqa.
From S2P Require Import Prelude Float64 GoRuntime Api Framework Indexer Cache Shares.

#[local] Open Scope Z_scope.

Record clusterScore := mkScore { cscore_name : string; cscore_score : Z }.

Record allocation := mkAlloc {
  alloc_name : string; alloc_score : Z; current : Z; quota : Z; remainder : f64; weight : f64 }.

Definition set_quota (a : allocation) (q : Z) : allocation :=
  mkAlloc (alloc_name a) (alloc_score a) (current a) q (remainder a) (weight a).

Section selection.
Context `{GoRuntime, Kubernetes}.

(** 1. The current placement: a map (the last entry of a name wins) and a total. *)
Definition current_placement (app : Application) : gmap string Z :=
  map_of ct_Name ct_Replicas (Topology (Status app)).
Definition current_total (app : Application) : Z := sum32 ct_Replicas (Topology (Status app)).

(** Clusters by score, highest first, then by name. *)
Definition score_before (i j : clusterScore) : bool :=
  if cscore_score i =? cscore_score j then String.ltb (cscore_name i) (cscore_name j)
  else cscore_score j <? cscore_score i.

Definition cluster_scores (scores : gmap string Z) : list clusterScore :=
  go_sort score_before ((fun kv => mkScore kv.1 kv.2) <$> go_range 40 scores).

(** The number of clusters to use. *)
Definition max_clusters (sc : SpreadConstraints) (available totalReplicas : Z) : Z :=
  let maxClusters := if MaxClusters sc <=? 0 then 5 else MaxClusters sc in
  let maxClusters := if available <? maxClusters then available else maxClusters in
  let minReplicas := if MinReplicas sc <=? 0 then 1 else MinReplicas sc in
  let maxUsableClusters := Z.quot totalReplicas minReplicas in
  let maxUsableClusters := if maxUsableClusters <? 1 then 1 else maxUsableClusters in
  if maxUsableClusters <? maxClusters then maxUsableClusters else maxClusters.

(** The clusters in use, then the best scored new ones up to [maxClusters]. *)
Fixpoint fill_candidates (maxClusters : Z) (clusterScores : list clusterScore)
    (candidateMap : gmap string bool) (candidateList : list clusterScore) : list clusterScore :=
  match clusterScores with
  | [] => candidateList
  | cs :: rest =>
      if maxClusters <=? Z.of_nat (length candidateList) then candidateList
      else if negb (default false (candidateMap !! cscore_name cs))
      then fill_candidates maxClusters rest (<[cscore_name cs := true]> candidateMap) (candidateList ++ [cs])
      else fill_candidates maxClusters rest candidateMap candidateList
  end.

Definition candidates (maxClusters : Z) (currentPlacement scores : gmap string Z) : list clusterScore :=
  let names := range_keys 41 currentPlacement in
  fill_candidates maxClusters (cluster_scores scores)
    (foldl (fun m name => <[name := true]> m) ∅ names)
    ((fun name => mkScore name (lookup0 scores name)) <$> names).

(** The weights and their total; all weights are 1 when the total is 0. *)
Definition weights_of (selected : list clusterScore) : gmap string f64 * f64 :=
  let weights := foldl (fun m cs => <[cscore_name cs := f64_of_int (cscore_score cs)]> m) ∅ selected in
  let totalWeight := foldl (fun t cs => f64_add t (f64_of_int (cscore_score cs))) f64_zero selected in
  if f64_eqb totalWeight f64_zero
  then (foldl (fun m cs => <[cscore_name cs := f64_one]> m) weights selected,
        f64_of_int (Z.of_nat (length selected)))
  else (weights, totalWeight).

Definition initial_allocs (selected : list clusterScore) (weights : gmap string f64)
    (currentPlacement : gmap string Z) : list allocation :=
  (fun cs => mkAlloc (cscore_name cs) (cscore_score cs) (lookup0 currentPlacement (cscore_name cs)) 0
               f64_zero (default f64_zero (weights !! cscore_name cs))) <$> selected.

(** [for i := 0; i < k; i++ { allocs[i].quota = f(allocs[i].quota) }] *)
Fixpoint step_first (f : Z -> Z) (k : nat) (allocs : list allocation) : outcome (list allocation) :=
  match k, allocs with
  | O, _ => Ret allocs
  | S _, [] => Panic
  | S k', a :: rest =>
      match step_first f k' rest with
      | Ret rest' => Ret (set_quota a (f (quota a)) :: rest')
      | Panic => Panic
      end
  end.

Definition by_remainder (a b : allocation) : bool := f64_ltb (remainder b) (remainder a).

Definition ideal_share (totalReplicas : Z) (totalWeight : f64) (a : allocation) : f64 :=
  f64_div (f64_mul (f64_of_int totalReplicas) (weight a)) totalWeight.

(** Every [quota] starts at the current replicas. *)
Definition start_current (allocs : list allocation) : list allocation :=
  (fun a => set_quota a (current a)) <$> allocs.

(** How far a cluster is below or above its ideal share. *)
Definition deficit_of (totalReplicas : Z) (totalWeight : f64) (a : allocation) : f64 :=
  f64_max f64_zero (f64_sub (ideal_share totalReplicas totalWeight a) (f64_of_int (current a))).
Definition surplus_of (totalReplicas : Z) (totalWeight : f64) (a : allocation) : f64 :=
  f64_max f64_zero (f64_sub (f64_of_int (current a)) (ideal_share totalReplicas totalWeight a)).

(** [allocs[i].quota += q] and [-= r], keeping the remainder. *)
Definition grow_alloc (a : allocation) (share : f64) : allocation :=
  let q := share_floor share in
  mkAlloc (alloc_name a) (alloc_score a) (current a) (i32 (quota a + q))
    (f64_sub share (f64_of_int q)) (weight a).
Definition reduce_alloc (a : allocation) (reduction : f64) : allocation :=
  let r := share_floor reduction in
  mkAlloc (alloc_name a) (alloc_score a) (current a) (i32 (quota a - r))
    (f64_sub reduction (f64_of_int r)) (weight a).

(** Scale up: start from the current replicas and distribute the growth. *)
Definition scale_up (totalReplicas : Z) (totalWeight : f64) (allocs : list allocation)
    : outcome (list allocation) :=
  let allocs := start_current allocs in
  let assignedTotal := sum32 quota allocs in
  let remaining := i32 (totalReplicas - assignedTotal) in
  if 0 <? remaining then
    let deficits := map (deficit_of totalReplicas totalWeight) allocs in
    let totalDeficit := f64_sum deficits in
    let useWeights := f64_eqb totalDeficit f64_zero in
    let shares := zip_with (fun a deficit =>
      if useWeights then f64_div (f64_mul (f64_of_int remaining) (weight a)) totalWeight
      else f64_div (f64_mul (f64_of_int remaining) deficit) totalDeficit) allocs deficits in
    let assignedTotal := foldl (fun t share => i32 (t + share_floor share)) assignedTotal shares in
    let remaining := i32 (totalReplicas - assignedTotal) in
    step_first (fun q => i32 (q + 1)) (Z.to_nat remaining)
      (go_sort by_remainder (zip_with grow_alloc allocs shares))
  else Ret allocs.

(** What the passes left is taken one by one, largest remainder first. *)
Definition reduce_rest (totalReplicas : Z) (allocs : list allocation) : outcome (list allocation) :=
  let currentAssigned := sum32 quota allocs in
  let stillToReduce := i32 (currentAssigned - totalReplicas) in
  step_first (fun q => i32 (q - 1)) (Z.to_nat stillToReduce) (go_sort by_remainder allocs).

Definition clamp_quota (a : allocation) : allocation :=
  if quota a <? 0 then set_quota a 0 else a.

(** [weight > 0] *)
Definition has_weight (a : allocation) : bool := f64_ltb f64_zero (weight a).
Definition inverse_weight (a : allocation) : f64 := f64_div f64_one (weight a).

(** When no cluster is above its share: in inverse proportion to the weights. *)
Definition reduce_by_weight (toReduce : Z) (allocs : list allocation) : list allocation :=
  let inverseWeightTotal :=
    foldl (fun t a => if has_weight a then f64_add t (inverse_weight a) else t) f64_zero allocs in
  if f64_ltb f64_zero inverseWeightTotal then
    map (fun a => if has_weight a
      then reduce_alloc a (f64_div (f64_mul (f64_of_int toReduce) (inverse_weight a)) inverseWeightTotal)
      else a) allocs
  else allocs.

(** Scale down: reduce the clusters above their ideal share, in proportion. *)
Definition scale_down (totalReplicas currentTotal : Z) (totalWeight : f64) (allocs : list allocation)
    : outcome (list allocation) :=
  let toReduce := i32 (currentTotal - totalReplicas) in
  let surpluses := map (surplus_of totalReplicas totalWeight) allocs in
  let totalSurplus := f64_sum surpluses in
  let allocs := start_current allocs in
  let allocs :=
    if f64_ltb f64_zero totalSurplus then
      zip_with (fun a surplus =>
        reduce_alloc a (f64_div (f64_mul (f64_of_int toReduce) surplus) totalSurplus)) allocs surpluses
    else reduce_by_weight toReduce allocs in
  allocs' ← reduce_rest totalReplicas allocs;
  Ret (map clamp_quota allocs').

Definition build_result (allocs : list allocation) : list ClusterTopology :=
  go_sort (fun a b => String.ltb (ct_Name a) (ct_Name b))
    ((fun a => mkTopology (alloc_name a) (quota a)) <$> filter (fun a => 0 < quota a) allocs).

(** [sc] is the pointer [s.config.SpreadConstraints]. *)
Definition selectClustersSpread (sc : option SpreadConstraints) (app : Application) (scores : gmap string Z)
    : outcome (list ClusterTopology) :=
  sc ← (match sc with Some sc => Ret sc | None => Panic end);
  let totalReplicas := desired_replicas app in
  let currentPlacement := current_placement app in
  let currentTotal := current_total app in
  let isScaleUp := currentTotal <? totalReplicas in
  let maxClusters := max_clusters sc (Z.of_nat (length (cluster_scores scores))) totalReplicas in
  let selectedClusters := candidates maxClusters currentPlacement scores in
  let '(weights, totalWeight) := weights_of selectedClusters in
  let allocs := initial_allocs selectedClusters weights currentPlacement in
  allocs ← (if isScaleUp then scale_up totalReplicas totalWeight allocs
            else scale_down totalReplicas currentTotal totalWeight allocs);
  Ret (build_result allocs).
End selection.

Example spread_up :
  selectClustersSpread (Some (mkSpreadConstraints 5 1))
    (sample_app "Deployment" "" 10 [mkTopology "a" 3; mkTopology "b" 3])
    {[ "a" := 100; "b" := 0; "c" := 50 ]} = Ret [mkTopology "a" 5; mkTopology "b" 3; mkTopology "c" 2].
Proof. vm_compute. reflexivity. Qed.

Example spread_down :
  selectClustersSpread (Some (mkSpreadConstraints 5 1))
    (sample_app "Deployment" "" 4 [mkTopology "a" 3; mkTopology "b" 3; mkTopology "c" 3])
    {[ "a" := 100; "b" := 0; "c" := 50 ]} = Ret [mkTopology "a" 3; mkTopology "c" 1].
Proof. vm_compute. reflexivity. Qed.
