(* ===== verification/SpreadScale.v ===== *)
(** * The two scaling passes of the spread strategy

    [scale_up] and [scale_down] on candidates with integer weights: neither
    panics, both return exactly the wanted total, the first takes no replica away
    and the second adds none.  The float analysis is that of [Shares]. *)

From Stdlib Require Import QArith Qround Qminmax Lqa.
From S2P Require Import Prelude Float64 GoRuntime Api Framework Indexer Cache Shares Spread.

#[local] Open Scope Z_scope.

(** ** Candidates *)

Definition wz (a : allocation) : Z := match weight a with F64 q => Qfloor q | _ => 0 end.

Definition weight_ok (a : allocation) : Prop := weight a = F64 (inject_Z (wz a)) /\ 0 <= wz a <= 100.

(** At most 256 candidates with weights in [0, 100], not all of them 0, and a
    wanted and a current total of machine size. *)
Record allocs_ok (R C : Z) (totalWeight : f64) (allocs : list allocation) : Prop := {
  ao_R : 0 <= R <= max_int32;
  ao_len : (length allocs <= 256)%nat;
  ao_weight : forall a, a ∈ allocs -> weight_ok a;
  ao_total : totalWeight = F64 (inject_Z (sumZ wz allocs));
  ao_pos : 0 < sumZ wz allocs;
  ao_current : forall a, a ∈ allocs -> 0 <= current a;
  ao_sum : sumZ current allocs = C;
  ao_C : C <= max_int32 }.

(** The same clusters with the same current replicas, in another order. *)
Definition frame (l k : list allocation) : Prop :=
  (fun a => (alloc_name a, current a)) <$> l ≡ₚ (fun a => (alloc_name a, current a)) <$> k.

Lemma list_of_exists {A} (f : A -> f64) (P : A -> Q -> Prop) (l : list A) :
  (forall a, a ∈ l -> exists q, f a = F64 q /\ P a q) ->
  exists qs, map f l = F64 <$> qs /\ Forall2 P l qs.
Proof.
  induction l as [|a l IH]; intros Hl; [by exists []|].
  destruct IH as (qs & E & H2); [intros; apply Hl; by right|].
  destruct (Hl a ltac:(by left)) as (q & Eq & HP). exists (q :: qs). cbn [map]. rewrite fmap_cons, Eq, E.
  split; [done|by constructor].
Qed.

Lemma part_ok_int z : 0 <= z <= 2 ^ 40 -> part_ok (inject_Z z).
Proof.
  intros Hz. split.
  - change 0%Q with (inject_Z 0). rewrite <- !Zle_Qle. done.
  - destruct (Z.eq_dec z 0) as [->|Hne]; [by left|right].
    apply (Qle_trans _ (inject_Z 1)); [by vm_compute|]. rewrite <- Zle_Qle. lia.
Qed.

Lemma near_refl e x : (0 <= e)%Q -> (0 <= x)%Q -> near e x x.
Proof. intros He Hx. unfold near. split; nra. Qed.

Section candidates.
Context (R C : Z) (totalWeight : f64) (allocs : list allocation).
Context (Hok : allocs_ok R C totalWeight allocs).

Lemma wz_bounds a : a ∈ allocs -> 0 <= wz a <= 100.
Proof. intros Ha. by apply (ao_weight _ _ _ _ Hok). Qed.

Lemma total_weight_bound : sumZ wz allocs <= 25600.
Proof.
  pose proof (ao_len _ _ _ _ Hok). transitivity (sumZ (fun _ => 100) allocs).
  - apply sumZ_le. intros a Ha. by apply wz_bounds.
  - rewrite sumZ_const. lia.
Qed.

Abbreviation ws := ((fun a => inject_Z (wz a)) <$> allocs).

Lemma weights_part_ok : Forall part_ok ws.
Proof.
  apply Forall_fmap, Forall_forall. intros a Ha. simpl. apply part_ok_int.
  pose proof (wz_bounds a Ha). assert (100 <= 2 ^ 40) by done. lia.
Qed.

Lemma weights_total : Qsum ws == inject_Z (sumZ wz allocs).
Proof. apply Qsum_inject. Qed.

Lemma weights_total_bounds : (0 < Qsum ws)%Q /\ (Qsum ws <= inject_Z 25600)%Q.
Proof.
  rewrite weights_total. split.
  - change 0%Q with (inject_Z 0). rewrite <- Zlt_Qlt. apply (ao_pos _ _ _ _ Hok).
  - rewrite <- Zle_Qle. apply total_weight_bound.
Qed.

Lemma weights_near : near gamma (Qsum ws) (inject_Z (sumZ wz allocs)).
Proof.
  destruct weights_total_bounds as [H _]. rewrite weights_total in H.
  eapply near_eq; [symmetry; apply weights_total|]. apply near_refl; [by vm_compute|lra].
Qed.

(** The ideal share of a cluster. *)
Lemma ideal_spec a : a ∈ allocs -> exists i, ideal_share R totalWeight a = F64 i /\
  near delta (inject_Z R * inject_Z (wz a) / Qsum ws) i /\ on_grid i /\ (0 <= i <= inject_Z (2 ^ 33))%Q.
Proof.
  intros Ha. destruct weights_total_bounds as [HW HWmax]. pose proof (wz_bounds a Ha) as Hwz.
  pose proof (ao_R _ _ _ _ Hok) as HR.
  assert (inject_Z (wz a) ∈ ws) as Hin by (apply list_elem_of_fmap; by exists a).
  pose proof (Qsum_elem _ _ weights_part_ok Hin) as Hle.
  assert (part_ok (inject_Z (wz a))) as Hp by (pose proof weights_part_ok as Hall; rewrite Forall_forall in Hall; by apply Hall).
  destruct (f64_share_near R (inject_Z (wz a)) (inject_Z (sumZ wz allocs)) (Qsum ws) HR Hp Hle HW) as
    (i & Ei & Hi & Hi0 & _ & Hgrid); [|exact weights_near|].
  { eapply Qle_trans; [exact HWmax|by vm_compute]. }
  exists i. assert (0 <= inject_Z R <= inject_Z max_int32)%Q as [HR0 HR1] by (by apply (inject_Z_range R 0)).
  assert (0 <= inject_Z (wz a))%Q as Hw0 by apply Hp. assert (delta < 1 # 2)%Q as Hd by reflexivity.
  set (x := (inject_Z R * inject_Z (wz a) / Qsum ws)%Q) in *. split_and!; try done.
  - unfold ideal_share. rewrite (proj1 (ao_weight _ _ _ _ Hok a Ha)), (ao_total _ _ _ _ Hok). exact Ei.
  - destruct (Z.eq_dec (R * wz a) 0) as [E|Hne].
    + exists 0. assert (x == 0)%Q as Ex.
      { unfold x. rewrite <- inject_Z_mult, E. unfold Qdiv. ring. }
      destruct Hi as [H1 H2]. rewrite Ex in H1, H2. change (i == 0 * (1 # 2 ^ 70))%Q. lra.
    + apply Hgrid. assert (/ inject_Z 25600 <= x)%Q as Hx.
      { unfold x. apply Qle_shift_div_l; [done|]. rewrite <- inject_Z_mult.
        apply (Qle_trans _ (/ inject_Z 25600 * inject_Z 25600)).
        - rewrite !(Qmult_comm (/ _)). apply Qmult_le_compat_r; [exact HWmax|by vm_compute].
        - apply (Qle_trans _ (inject_Z 1)); [by vm_compute|]. rewrite <- Zle_Qle. nia. }
      destruct Hi as [H1 _]. eapply Qle_trans; [|exact H1].
      apply (Qle_trans _ (/ inject_Z 25600 * (1 - delta))); [by vm_compute|].
      apply Qmult_le_compat_r; [exact Hx|by vm_compute].
  - assert (x <= inject_Z R)%Q as Hx.
    { unfold x. apply Qle_shift_div_r; [done|]. rewrite !(Qmult_comm (inject_Z R)). by apply Qmult_le_compat_r. }
    destruct Hi as [_ H2]. apply (Qle_trans _ (inject_Z max_int32 * (1 + delta))); [|by vm_compute].
    eapply Qle_trans; [exact H2|]. apply Qmult_le_compat_r; [lra|by vm_compute].
Qed.

Lemma current_range a : a ∈ allocs -> 0 <= current a <= max_int32.
Proof.
  intros Ha. pose proof (ao_current _ _ _ _ Hok) as Hc. split; [by apply Hc|].
  pose proof (sumZ_ge_elem current allocs a Hc Ha). pose proof (ao_sum _ _ _ _ Hok).
  pose proof (ao_C _ _ _ _ Hok). lia.
Qed.

Lemma current_Q a : a ∈ allocs ->
  f64_of_int (current a) = F64 (inject_Z (current a)) /\ (0 <= inject_Z (current a) <= inject_Z (2 ^ 33))%Q.
Proof.
  intros Ha. pose proof (current_range a Ha) as Hc. unfold max_int32 in Hc. split.
  - apply f64_of_int_eq. change (2 ^ 53) with 9007199254740992. lia.
  - apply (inject_Z_range _ 0). change (2 ^ 33) with 8589934592. lia.
Qed.

(** A deficit is the ideal share above the current replicas, up to rounding. *)
Lemma deficit_spec a : a ∈ allocs -> exists d, deficit_of R totalWeight a = F64 d /\ part_ok d.
Proof.
  intros Ha. destruct (ideal_spec a Ha) as (i & Ei & _ & Hg & Hi). destruct (current_Q a Ha) as [Ec Hc].
  destruct (posdiff_spec i (inject_Z (current a)) Hg (on_grid_int _) Hi Hc) as (d & Ed & _ & Hd).
  exists d. split; [|done]. unfold deficit_of. by rewrite Ei, Ec.
Qed.

(** A surplus: the current replicas above the ideal share. *)
Definition is_surplus (a : allocation) (d : Q) : Prop :=
  part_ok d /\ exists i, near delta (inject_Z R * inject_Z (wz a) / Qsum ws) i /\ (0 <= i)%Q /\
    near u (Qmax 0 (inject_Z (current a) - i)) d.

Lemma surplus_spec a : a ∈ allocs -> exists d, surplus_of R totalWeight a = F64 d /\ is_surplus a d.
Proof.
  intros Ha. destruct (ideal_spec a Ha) as (i & Ei & Hn & Hg & Hi). destruct (current_Q a Ha) as [Ec Hc].
  destruct (posdiff_spec (inject_Z (current a)) i (on_grid_int _) Hg Hc Hi) as (d & Ed & Hd & Hp).
  exists d. split; [unfold surplus_of; by rewrite Ei, Ec|]. split; [done|]. exists i.
  split_and!; [done|by apply Hi|done].
Qed.
End candidates.

(** ** Growing *)

Lemma take_elem {A} k (l : list A) x : x ∈ take k l -> x ∈ l.
Proof. rewrite <- (take_drop k l) at 2. rewrite elem_of_app. by left. Qed.
Lemma drop_elem {A} k (l : list A) x : x ∈ drop k l -> x ∈ l.
Proof. rewrite <- (take_drop k l) at 2. rewrite elem_of_app. by right. Qed.

Lemma step_first_eq f k (l : list allocation) : (k <= length l)%nat ->
  step_first f k l = Ret (((fun a => set_quota a (f (quota a))) <$> take k l) ++ drop k l).
Proof.
  revert k; induction l as [|a l IH]; intros k Hk.
  - destruct k; [done|simpl in Hk; lia].
  - destruct k as [|k]; [done|]. simpl. rewrite IH by (simpl in Hk; lia). done.
Qed.

Section growing.
Context `{GoRuntimeLaws}.

Lemma grow_alloc_eq a s : share_floor (F64 s) = Qfloor s -> in_i32 (quota a + Qfloor s) ->
  grow_alloc a (F64 s) = mkAlloc (alloc_name a) (alloc_score a) (current a) (quota a + Qfloor s)
    (f64_sub (F64 s) (f64_of_int (Qfloor s))) (weight a).
Proof. intros Hf Hr. unfold grow_alloc. cbv zeta. by rewrite Hf, i32_id. Qed.

(** Each cluster gets the integer part of its share. *)
Lemma grow_all (l : list allocation) (ss : list Q) :
  (forall a, a ∈ l -> 0 <= quota a) -> length ss = length l ->
  Forall (fun s => share_floor (F64 s) = Qfloor s /\ 0 <= Qfloor s) ss ->
  sumZ quota l + sumZ Qfloor ss <= max_int32 ->
  let l' := zip_with grow_alloc l (F64 <$> ss) in
  (fun a => (alloc_name a, current a)) <$> l' = (fun a => (alloc_name a, current a)) <$> l /\
  sumZ quota l' = sumZ quota l + sumZ Qfloor ss /\
  (forall b, b ∈ l' -> exists a, a ∈ l /\ current b = current a /\ quota a <= quota b).
Proof.
  revert ss; induction l as [|a l IH]; intros [|s ss] Hl Hlen Hss Hb; try done.
  { split_and!; [done|done|]. by intros b ?%elem_of_nil. }
  apply Forall_cons in Hss as [[Hf Hs] Hss]. rewrite !sumZ_cons in Hb.
  pose proof (Hl a ltac:(by left)) as Ha.
  assert (forall b, b ∈ l -> 0 <= quota b) as Hl' by (intros; apply Hl; by right).
  assert (0 <= sumZ Qfloor ss) as Hss0.
  { apply sumZ_nonneg. intros x Hx. rewrite Forall_forall in Hss. by apply Hss. }
  pose proof (sumZ_nonneg quota l Hl') as Hq0.
  destruct (IH ss Hl') as (E1 & E2 & E3); [by injection Hlen|done|lia|].
  rewrite fmap_cons. cbn [zip_with]. cbv zeta. rewrite (grow_alloc_eq a s Hf) by int_range.
  rewrite !fmap_cons, !sumZ_cons, E1, E2. cbn [alloc_name current quota].
  split_and!; [done|lia|]. intros b [->|Hb']%elem_of_cons.
  - exists a. cbn [current quota]. split_and!; [by left|done|lia].
  - destruct (E3 b Hb') as (a' & ? & ? & ?). exists a'. split_and!; [by right|done|done].
Qed.

Lemma sumZ_take_drop f k (l : list allocation) : sumZ f l = sumZ f (take k l) + sumZ f (drop k l).
Proof. by rewrite <- sumZ_app, take_drop. Qed.

(** One more replica for each of the first [k]. *)
Lemma bump_up k (l : list allocation) :
  (k <= length l)%nat -> (forall a, a ∈ l -> 0 <= quota a) -> sumZ quota l + Z.of_nat k <= max_int32 ->
  exists l', step_first (fun q => i32 (q + 1)) k l = Ret l' /\
    (fun a => (alloc_name a, current a)) <$> l' = (fun a => (alloc_name a, current a)) <$> l /\
    sumZ quota l' = sumZ quota l + Z.of_nat k /\
    (forall b, b ∈ l' -> exists a, a ∈ l /\ current b = current a /\ quota a <= quota b).
Proof.
  intros Hk Hnn Hb. rewrite step_first_eq by done. eexists. split; [done|].
  assert (forall a, a ∈ l -> i32 (quota a + 1) = quota a + 1 \/ k = 0%nat) as Hi.
  { intros a Ha. destruct (decide (k = 0%nat)) as [|Hk0]; [by right|left].
    pose proof (Hnn a Ha). pose proof (sumZ_ge_elem quota l a Hnn Ha). apply i32_id. int_range. }
  assert (forall a, a ∈ take k l -> i32 (quota a + 1) = quota a + 1) as Ht.
  { intros a Ha. pose proof (take_elem _ _ _ Ha) as Hin. destruct (Hi a Hin) as [?| ->]; [done|].
    by apply elem_of_nil in Ha. }
  split_and!.
  - rewrite fmap_app, <- list_fmap_compose. unfold compose, set_quota. cbn [alloc_name current].
    by rewrite <- fmap_app, take_drop.
  - rewrite sumZ_app, sumZ_map, (sumZ_take_drop quota k l).
    rewrite (sumZ_ext _ (fun a => quota a + 1)) by (intros a Ha; cbn; by apply Ht).
    rewrite sumZ_add, sumZ_const, length_take. lia.
  - intros b [Hin|Hin]%elem_of_app.
    + apply list_elem_of_fmap in Hin as (a & -> & Ha). exists a. cbn [set_quota current quota].
      rewrite Ht by done. split_and!; [by eapply take_elem|done|lia].
    + exists b. split_and!; [by eapply drop_elem|done|lia].
Qed.
End growing.

Lemma start_ok R C tw allocs : allocs_ok R C tw allocs -> allocs_ok R C tw (start_current allocs).
Proof.
  intros [H1 H2 H3 H4 H5 H6 H7 H8]. unfold start_current. split; try done.
  - by rewrite length_fmap.
  - intros a (b & -> & Hb)%list_elem_of_fmap. exact (H3 b Hb).
  - by rewrite sumZ_map.
  - by rewrite sumZ_map.
  - intros a (b & -> & Hb)%list_elem_of_fmap. exact (H6 b Hb).
  - by rewrite sumZ_map.
Qed.

Lemma start_quota a allocs : a ∈ start_current allocs -> quota a = current a.
Proof. intros (b & -> & Hb)%list_elem_of_fmap. done. Qed.

Lemma start_frame allocs : frame (start_current allocs) allocs.
Proof. unfold frame, start_current. by rewrite <- list_fmap_compose. Qed.

Lemma zip_with_second {A B D} (g : B -> D) (l : list A) (k : list B) :
  length k = length l -> zip_with (fun _ d => g d) l k = g <$> k.
Proof.
  revert k; induction l as [|a l IH]; intros [|d k] E; try done. cbn [zip_with]. rewrite fmap_cons, IH; [done|].
  by injection E.
Qed.

Lemma zip_with_first {A B D} (g : A -> D) (l : list A) (k : list B) :
  length k = length l -> zip_with (fun a _ => g a) l k = g <$> l.
Proof.
  revert k; induction l as [|a l IH]; intros [|d k] E; try done. cbn [zip_with]. rewrite fmap_cons, IH; [done|].
  by injection E.
Qed.

Lemma Forall_part_bound ps : Forall part_ok ps -> (length ps <= 256)%nat -> (Qsum ps <= inject_Z (2 ^ 50))%Q.
Proof.
  intros Hps Hlen. apply (Qle_trans _ (inject_Z (2 ^ 40) * inject_Z (Z.of_nat (length ps)))).
  - apply Qsum_bound. eapply Forall_impl; [exact Hps|]. by intros p [[_ Hp] _].
  - apply (Qle_trans _ (inject_Z (2 ^ 40) * inject_Z 256)); [|by vm_compute].
    rewrite !(Qmult_comm (inject_Z (2 ^ 40))). apply Qmult_le_compat_r; [|by vm_compute].
    rewrite <- Zle_Qle. lia.
Qed.

Section scale_up.
Context `{GoRuntimeLaws}.
Context (R C : Z) (tw : f64) (allocs : list allocation).
Context (Hok : allocs_ok R C tw allocs).

(** Whichever proportions are used, the shares of [r] replicas are near exact
    shares of some positive parts. *)
Lemma growth_shares r : 0 <= r <= max_int32 ->
  let deficits := map (deficit_of R tw) allocs in
  let totalDeficit := f64_sum deficits in
  exists ps ss, Qlt 0 (Qsum ps) /\ length ss = length allocs /\
    Forall2 (near delta) ((fun d => inject_Z r * d / Qsum ps)%Q <$> ps) ss /\ Forall share_ok ss /\
    zip_with (fun a deficit =>
      if f64_eqb totalDeficit f64_zero then f64_div (f64_mul (f64_of_int r) (weight a)) tw
      else f64_div (f64_mul (f64_of_int r) deficit) totalDeficit) allocs deficits = F64 <$> ss.
Proof.
  intros Hr. cbv zeta.
  destruct (list_of_exists (deficit_of R tw) (fun _ d => part_ok d) allocs) as (ds & Eds & Hds).
  { intros a Ha. by apply (deficit_spec R C tw allocs Hok). }
  pose proof (Forall2_length _ _ _ Hds) as Hlen. apply Forall2_Forall_r with (Q := part_ok) in Hds;
    [|by apply Forall_true].
  rewrite Eds. pose proof (ao_len _ _ _ _ Hok) as H256.
  destruct (f64_sum_near ds Hds ltac:(lia)) as (D & -> & HD). pose proof (Qsum_nonneg ds Hds) as HS0.
  destruct (f64_eqb (F64 D) f64_zero) eqn:E.
  - set (ws := (fun a => inject_Z (wz a)) <$> allocs).
    destruct (weights_total_bounds R C tw allocs Hok) as [HW HWmax].
    destruct (distribute r ws (inject_Z (sumZ wz allocs)) Hr) as (ss & Ess & Hnear & Hss).
    + exact (weights_part_ok R C tw allocs Hok).
    + done.
    + eapply Qle_trans; [exact HWmax|by vm_compute].
    + exact (weights_near R C tw allocs Hok).
    + exists ws, ss. assert (length ss = length allocs) as Hl.
      { apply Forall2_length in Hnear. unfold ws in Hnear. by rewrite !length_fmap in Hnear. }
      split_and!; [done|done|done|done|]. rewrite zip_with_first by (by rewrite length_fmap).
      rewrite <- Ess. unfold ws. rewrite <- list_fmap_compose. apply list_fmap_ext. intros i a Ha.
      apply list_elem_of_lookup_2 in Ha. unfold compose, f64_share.
      by rewrite (proj1 (ao_weight _ _ _ _ Hok a Ha)), (ao_total _ _ _ _ Hok).
  - assert (0 < Qsum ds)%Q as HS.
    { apply Qle_lteq in HS0 as [?|HS0]; [done|]. exfalso. destruct HD as [H1 H2]. rewrite <- HS0 in H1, H2.
      assert (D == 0)%Q as ED by lra. simpl in E. by rewrite (proj2 (Qeq_bool_iff D 0) ED) in E. }
    destruct (distribute r ds D Hr Hds HS) as (ss & Ess & Hnear & Hss); [|done|].
    + apply Forall_part_bound; [done|lia].
    + exists ds, ss. assert (length ss = length allocs) as Hl.
      { apply Forall2_length in Hnear. rewrite length_fmap in Hnear. lia. }
      split_and!; [done|done|done|done|].
      rewrite (zip_with_second (fun d => f64_div (f64_mul (f64_of_int r) d) (F64 D))) by (rewrite length_fmap; lia).
      rewrite <- Ess, <- list_fmap_compose. done.
Qed.

Lemma sum_assigned (ss : list Q) c :
  0 <= c -> Forall (fun s => share_floor (F64 s) = Qfloor s /\ 0 <= Qfloor s) ss ->
  c + sumZ Qfloor ss <= max_int32 ->
  foldl (fun t share => i32 (t + share_floor share)) c (F64 <$> ss) = c + sumZ Qfloor ss.
Proof.
  intros Hc Hss Hb. assert (sumZ share_floor (F64 <$> ss) = sumZ Qfloor ss) as E.
  { rewrite sumZ_map. apply sumZ_ext. intros s Hs. rewrite Forall_forall in Hss. by apply Hss. }
  rewrite <- E in Hb |- *. apply sum32_from_exact; [done| |done].
  intros x (s & -> & Hs)%list_elem_of_fmap. rewrite Forall_forall in Hss. destruct (Hss s Hs) as [-> ?]. done.
Qed.
End scale_up.

Section scale_up_theorem.
Context `{GoRuntimeLaws}.

Lemma scale_up_spec R C tw allocs : allocs_ok R C tw allocs -> C < R ->
  exists l, scale_up R tw allocs = Ret l /\ frame l allocs /\ sumZ quota l = R /\
    forall a, a ∈ l -> 0 <= current a <= quota a.
Proof.
  intros Hok0 HCR. pose proof (start_ok _ _ _ _ Hok0) as Hok. pose proof (start_frame allocs) as Hframe0.
  pose proof (fun a => start_quota a allocs) as Hq. unfold scale_up. set (l0 := start_current allocs) in *.
  clearbody l0. pose proof Hok as [HR Hlen _ _ _ Hcur Hsum HC].
  assert (sumZ quota l0 = C) as HqC by (rewrite <- Hsum; by apply sumZ_ext).
  assert (forall a, a ∈ l0 -> 0 <= quota a) as Hq0 by (intros a Ha; rewrite Hq by done; by apply Hcur).
  pose proof (sumZ_nonneg quota l0 Hq0) as HC0. cbv zeta.
  rewrite (sum32_exact quota l0) by (done || lia). rewrite HqC in *. rewrite (i32_id (R - C)) by int_range.
  destruct (Z.ltb_spec 0 (R - C)); [|lia].
  destruct (growth_shares R C tw l0 Hok (R - C)) as (ps & ss & HS & Hss_len & Hnear & Hss & Eshares); [lia|].
  rewrite Eshares. pose proof (shares_floor (R - C) ps ss ltac:(lia) HS Hss Hnear) as Hfl.
  destruct (shares_floor_sum (R - C) ps ss ltac:(lia) HS Hnear) as [Hlo Hhi].
  assert (Forall (fun s => share_floor (F64 s) = Qfloor s /\ 0 <= Qfloor s) ss) as Hfl'
    by (eapply Forall_impl; [exact Hfl|]; naive_solver).
  assert (0 <= sumZ Qfloor ss) as Hnn.
  { apply sumZ_nonneg. intros s Hs. rewrite Forall_forall in Hfl'. by apply Hfl'. }
  rewrite sum_assigned by (done || lia). rewrite i32_id by int_range.
  destruct (grow_all l0 ss Hq0 Hss_len Hfl' ltac:(lia)) as (E1 & E2 & E3).
  set (l1 := zip_with grow_alloc l0 (F64 <$> ss)) in *.
  pose proof (go_sort_perm by_remainder l1) as Hperm. set (l2 := go_sort by_remainder l1) in *.
  assert (length l2 = length l0) as Hl2.
  { rewrite Hperm. apply (f_equal length) in E1. by rewrite !length_fmap in E1. }
  destruct (bump_up (Z.to_nat (R - (C + sumZ Qfloor ss))) l2) as (l3 & -> & F1 & F2 & F3).
  - lia.
  - intros a Ha. rewrite Hperm in Ha. destruct (E3 a Ha) as (b & Hb & _ & ?). pose proof (Hq0 b Hb). lia.
  - rewrite Hperm, E2. lia.
  - exists l3. split_and!; [done| | |].
    + unfold frame in *. rewrite F1, Hperm, E1. exact Hframe0.
    + rewrite F2, Hperm, E2. lia.
    + intros a Ha. destruct (F3 a Ha) as (b & Hb & -> & ?). rewrite Hperm in Hb.
      destruct (E3 b Hb) as (c & Hc & -> & ?). pose proof (Hcur c Hc). pose proof (Hq c Hc). lia.
Qed.
End scale_up_theorem.

(** ** Shrinking *)

Definition rem (a : allocation) : Q := match remainder a with F64 q => q | _ => 0%Q end.

(** What holds of a candidate after its reduction: an empty one has next to no
    remainder, so it will not be asked for one more replica. *)
Record reduced (a : allocation) : Prop := {
  red_rem : remainder a = F64 (rem a);
  red_range : (0 <= rem a <= 1 + u)%Q;
  red_quota : 0 <= quota a <= current a;
  red_empty : quota a = 0 -> (rem a <= slack * (1 + u))%Q }.

Lemma near_bound e x y b : near e x y -> (0 <= e)%Q -> (x <= b)%Q -> (y <= b * (1 + e))%Q.
Proof. intros [_ H] He Hx. eapply Qle_trans; [exact H|]. apply Qmult_le_compat_r; lra. Qed.

Section shrinking.
Context `{GoRuntimeLaws}.

(** The reduction of one candidate. *)
Lemma reduce_one a s :
  share_ok s -> 0 <= current a <= max_int32 -> quota a = current a -> (s <= inject_Z (current a) + slack)%Q ->
  let a' := reduce_alloc a (F64 s) in
  alloc_name a' = alloc_name a /\ current a' = current a /\ quota a' = current a - Qfloor s /\
  0 <= Qfloor s /\ reduced a' /\ (s - inject_Z (Qfloor s) <= rem a' * (1 + 2 * u))%Q.
Proof.
  intros Hok Hc Hq Hs. cbv zeta.
  assert (Qfloor s <= current a) as Hfl.
  { assert (inject_Z (Qfloor s) < inject_Z (current a + 1))%Q as Hlt%Zlt_of_Q; [|lia].
    eapply Qle_lt_trans; [apply Qfloor_le|]. rewrite inject_Z_plus. change (inject_Z 1) with 1%Q.
    assert (slack < 1)%Q by reflexivity. lra. }
  pose proof (Qfloor_nonneg s (proj1 Hok)) as Hf0.
  destruct (share_floor_eq s (proj1 Hok) ltac:(lia)) as [Hf _].
  destruct (share_remainder s Hok ltac:(lia)) as (rho & Erho & [Hn1 Hn2] & Hfr).
  unfold reduce_alloc. rewrite Hf, Hq, i32_id by int_range. cbn [alloc_name current quota].
  pose proof u_bounds as [Hu0 Hu1]. split_and!; [done|done|done|done| |].
  - split; unfold rem; cbn [remainder quota current]; rewrite ?Erho; [done| |lia|].
    + split; nra.
    + intros E0. assert (Qfloor s = current a) as E by lia. rewrite E in *.
      apply (near_bound u (s - inject_Z (current a))%Q); [by split|lra|lra].
  - unfold rem. cbn [remainder]. rewrite Erho. set (x := (s - inject_Z (Qfloor s))%Q) in *.
    assert (1 <= (1 - u) * (1 + 2 * u))%Q by (by vm_compute). nra.
Qed.

Lemma reduce_all (l : list allocation) (ss : list Q) :
  (forall a, a ∈ l -> 0 <= current a <= max_int32 /\ quota a = current a) -> Forall share_ok ss ->
  Forall2 (fun a s => s <= inject_Z (current a) + slack)%Q l ss ->
  let l' := zip_with reduce_alloc l (F64 <$> ss) in
  (fun a => (alloc_name a, current a)) <$> l' = (fun a => (alloc_name a, current a)) <$> l /\
  sumZ quota l' = sumZ current l - sumZ Qfloor ss /\ Forall reduced l' /\
  (Qsum ss - inject_Z (sumZ Qfloor ss) <= Qsum (rem <$> l') * (1 + 2 * u))%Q.
Proof.
  intros Hl Hok H2. cbv zeta. induction H2 as [|a s l ss Hs H2 IH].
  { split_and!; [done|done|constructor|by vm_compute]. }
  apply Forall_cons in Hok as [Hs_ok Hok].
  destruct IH as (E1 & E2 & E3 & E4); [intros; apply Hl; by right|done|].
  destruct (Hl a ltac:(by left)) as [Hc Hq].
  destruct (reduce_one a s Hs_ok Hc Hq Hs) as (F1 & F2 & F3 & _ & F4 & F5).
  rewrite fmap_cons. cbn [zip_with]. rewrite !fmap_cons, !sumZ_cons, E1, E2, F1, F2, F3.
  split_and!; [done|lia|by constructor|]. rewrite inject_Z_plus. cbn [Qsum foldr].
  fold (Qsum ss) (Qsum (rem <$> zip_with reduce_alloc l (F64 <$> ss))). lra.
Qed.

(** Among candidates sorted by remainder, the first [k] are not empty, when [k]
    does not exceed the sum of the remainders (up to the roundings). *)
Lemma first_not_empty (l : list allocation) k :
  Forall reduced l -> sorted_by by_remainder l -> (length l <= 256)%nat -> (k <= length l)%nat ->
  (inject_Z (Z.of_nat k) <= (1 # 2 ^ 11) + Qsum (rem <$> l) * (1 + 2 * u))%Q ->
  forall a, a ∈ take k l -> 1 <= quota a.
Proof.
  intros Hred Hsort Hlen Hkl Hk a Ha. apply list_elem_of_lookup in Ha as [j Hj].
  pose proof (lookup_take_Some l k j a) as [Hjk _]. destruct (Hjk Hj) as [Hja Hjlt]. clear Hjk Hj.
  rewrite Forall_forall in Hred. pose proof (Hred a (list_elem_of_lookup_2 _ _ _ Hja)) as Hra.
  destruct (Z.le_gt_cases 1 (quota a)) as [|Hq]; [done|exfalso].
  assert (rem a <= slack * (1 + u))%Q as Hsmall by (apply Hra; pose proof (red_quota a Hra); lia).
  pose proof u_bounds as [Hu0 Hu1].
  rewrite <- (take_drop_middle l j a Hja) in Hk, Hsort, Hred.
  set (l1 := take j l) in *. set (l2 := drop (S j) l) in *.
  assert (length l1 = j) as Hl1 by (unfold l1; rewrite length_take; lia).
  assert (length l2 <= 255)%nat as Hl2 by (unfold l2; rewrite length_drop; lia).
  assert (Forall (fun x => x <= 1 + u)%Q (rem <$> l1)) as Hb1.
  { apply Forall_fmap, Forall_forall. intros b Hb. apply (red_range b (Hred b ltac:(set_solver))). }
  assert (Forall (fun x => x <= slack * (1 + u))%Q (rem <$> l2)) as Hb2.
  { apply Forall_fmap, Forall_forall. intros b Hb. simpl.
    pose proof (Hred b ltac:(set_solver)) as Hrb. unfold sorted_by in Hsort.
    apply StronglySorted_app in Hsort as (_ & _ & Hs2). apply StronglySorted_inv in Hs2 as [_ Hs2].
    rewrite Forall_forall in Hs2. specialize (Hs2 b Hb). unfold by_remainder in Hs2.
    rewrite (red_rem a Hra), (red_rem b Hrb) in Hs2. unfold f64_ltb, Qlt_bool in Hs2.
    apply negb_false_iff, Qle_bool_iff in Hs2. lra. }
  apply Qsum_bound in Hb1, Hb2. rewrite length_fmap in Hb1, Hb2.
  rewrite fmap_app, fmap_cons, Qsum_app in Hk. cbn [Qsum foldr] in Hk. fold (Qsum (rem <$> l2)) in Hk.
  rewrite Hl1 in Hb1.
  assert (inject_Z (Z.of_nat j) <= inject_Z (Z.of_nat k) - 1)%Q as Hjk.
  { change 1%Q with (inject_Z 1). unfold Qminus. rewrite <- inject_Z_opp, <- inject_Z_plus, <- Zle_Qle. lia. }
  assert (inject_Z (Z.of_nat k) <= 256)%Q as Hk256 by (change 256%Q with (inject_Z 256); rewrite <- Zle_Qle; lia).
  assert (inject_Z (Z.of_nat (length l2)) <= 255)%Q as Hl2Q by (change 255%Q with (inject_Z 255); rewrite <- Zle_Qle; lia).
  set (K := inject_Z (Z.of_nat k)) in *. set (J := inject_Z (Z.of_nat j)) in *.
  assert (Qsum (rem <$> l1) + (rem a + Qsum (rem <$> l2)) <= (1 + u) * (K - 1 + (1 # 2)))%Q as Hsum.
  { assert (0 < slack)%Q by reflexivity. assert (slack * (1 + u) * 256 <= (1 + u) * (1 # 2))%Q by (by vm_compute).
    assert (slack * (1 + u) * inject_Z (Z.of_nat (length l2)) <= slack * (1 + u) * 255)%Q.
    { rewrite !(Qmult_comm (slack * _)). apply Qmult_le_compat_r; [done|by vm_compute]. }
    assert ((1 + u) * J <= (1 + u) * (K - 1))%Q by nra. lra. }
  assert (K <= (1 # 2 ^ 11) + (1 + u) * (K - 1 + (1 # 2)) * (1 + 2 * u))%Q as Hcontra by nra.
  assert ((1 + u) * (1 + 2 * u) == 1 + (3 * u + 2 * u * u))%Q as E by ring.
  assert ((3 * u + 2 * u * u) * 256 <= 1 # 2 ^ 11)%Q by (by vm_compute).
  assert (0 <= 3 * u + 2 * u * u)%Q by (by vm_compute).
  assert ((1 # 2 ^ 11) + (1 # 2 ^ 11) < 1 # 2)%Q by (by vm_compute). nra.
Qed.
End shrinking.

Section surpluses.
Context `{GoRuntimeLaws}.
Context (R C : Z) (tw : f64) (allocs : list allocation).
Context (Hok : allocs_ok R C tw allocs).
Abbreviation W := (Qsum ((fun a => inject_Z (wz a)) <$> allocs)).

(** The surpluses add up to the reduction, or to more. *)
Lemma surplus_sum (l : list allocation) ds :
  Forall2 (is_surplus R allocs) l ds ->
  exists js, Forall2 (near delta) ((fun a => inject_Z R * inject_Z (wz a) / W)%Q <$> l) js /\
    ((1 - u) * (inject_Z (sumZ current l) - Qsum js) <= Qsum ds)%Q.
Proof.
  induction 1 as [|a d l ds (Hp & i & Hi & Hi0 & [Hd _]) H2 (js & His & Hsum)]; [by exists []|].
  exists (i :: js). split; [by constructor|]. rewrite sumZ_cons, inject_Z_plus. cbn [Qsum foldr].
  fold (Qsum js) (Qsum ds). pose proof (Q.le_max_r 0 (inject_Z (current a) - i)). pose proof u_bounds as [? ?]. nra.
Qed.

Lemma surplus_total ds : Forall2 (is_surplus R allocs) allocs ds ->
  (inject_Z (C - R) - (3 # 2 ^ 13) <= Qsum ds)%Q.
Proof.
  intros H2. destruct (surplus_sum allocs ds H2) as (js & His & Hsum).
  destruct (weights_total_bounds R C tw allocs Hok) as [HW _].
  apply Qsum_near in His. pose proof (ao_R _ _ _ _ Hok) as HR. pose proof (ao_C _ _ _ _ Hok) as HC.
  assert (Qsum ((fun a => inject_Z R * inject_Z (wz a) / W)%Q <$> allocs) == inject_Z R) as E.
  { transitivity (Qsum ((fun d => inject_Z R * d / W)%Q <$> ((fun a => inject_Z (wz a)) <$> allocs))).
    - by rewrite <- list_fmap_compose.
    - rewrite Qsum_shares by lra. field. lra. }
  apply (near_eq _ _ _ _ E) in His. destruct His as [_ His].
  assert (0 <= inject_Z R <= inject_Z max_int32)%Q as [HR0 HR1] by (by apply (inject_Z_range R 0)).
  assert (inject_Z C <= inject_Z max_int32)%Q as HC1 by (by rewrite <- Zle_Qle).
  rewrite (ao_sum _ _ _ _ Hok) in Hsum. pose proof u_bounds as [Hu0 Hu1].
  assert (inject_Z max_int32 * delta <= 1 # 2 ^ 12)%Q by (by vm_compute).
  assert (inject_Z R * delta <= inject_Z max_int32 * delta)%Q by (by apply Qmult_le_compat_r).
  assert (u * inject_Z max_int32 <= 1 # 2 ^ 20)%Q by (by vm_compute).
  assert (u * inject_Z C <= u * inject_Z max_int32)%Q by (rewrite !(Qmult_comm u); apply Qmult_le_compat_r; lra).
  assert ((1 # 2 ^ 12) + (1 # 2 ^ 20) <= 3 # 2 ^ 13)%Q by (by vm_compute).
  unfold Z.sub. rewrite inject_Z_plus, inject_Z_opp.
  set (c := inject_Z C) in *. set (r := inject_Z R) in *. set (t := Qsum js) in *.
  assert ((1 - u) * (c - t) == c - t - u * c + u * t)%Q as Eq by ring. rewrite Eq in Hsum.
  assert (0 <= (1 # 2 ^ 12))%Q as Hea by done.
  set (ea := (1 # 2 ^ 12)%Q) in *. set (eb := (1 # 2 ^ 20)%Q) in *. set (ec := (3 # 2 ^ 13)%Q) in *.
  clearbody ea eb ec. assert (0 <= t \/ t <= 0)%Q as [Ht|Ht] by (destruct (Qlt_le_dec t 0); [right; lra|left; done]).
  - assert (0 <= u * t)%Q by nra. clear Eq. rewrite Qmult_plus_distr_r in His. lra.
  - assert (t <= u * t)%Q by nra. lra.
Qed.

Lemma surplus_le_current a d : a ∈ allocs -> is_surplus R allocs a d -> (d <= inject_Z (current a) * (1 + u))%Q.
Proof.
  intros Ha (_ & i & _ & Hi0 & Hd). pose proof u_bounds as [Hu0 _]. destruct (current_Q R C tw allocs Hok a Ha) as [_ [Hc _]].
  apply (near_bound _ _ _ _ Hd); [lra|]. apply Q.max_lub; lra.
Qed.

(** The shares of the reduction. *)
Lemma reduction_shares : R <= C ->
  let surpluses := map (surplus_of R tw) allocs in
  let totalSurplus := f64_sum surpluses in
  (C = R /\ f64_ltb f64_zero totalSurplus = false) \/
  (f64_ltb f64_zero totalSurplus = true /\ exists ds ss, surpluses = F64 <$> ds /\ Qlt 0 (Qsum ds) /\
    (fun d => f64_share (C - R) d totalSurplus) <$> surpluses = F64 <$> ss /\ Forall share_ok ss /\
    Forall2 (near delta) ((fun d => inject_Z (C - R) * d / Qsum ds)%Q <$> ds) ss /\
    Forall2 (fun a s => s <= inject_Z (current a) + slack)%Q allocs ss).
Proof.
  intros HRC. cbv zeta. pose proof (ao_R _ _ _ _ Hok) as HR. pose proof (ao_C _ _ _ _ Hok) as HC.
  destruct (list_of_exists (surplus_of R tw) (is_surplus R allocs) allocs) as (ds & Eds & Hds).
  { intros a Ha. by apply (surplus_spec R C tw allocs Hok). }
  pose proof (surplus_total ds Hds) as Htotal. rewrite Eds.
  assert (Forall part_ok ds) as Hp by (eapply Forall2_Forall_r; [exact Hds|]; apply Forall_forall; by intros a _ d [? _]).
  pose proof (Forall2_length _ _ _ Hds) as Hlen. pose proof (ao_len _ _ _ _ Hok) as H256.
  destruct (f64_sum_near ds Hp ltac:(lia)) as (T & -> & HT). pose proof (Qsum_nonneg ds Hp) as HS0.
  unfold f64_ltb at 1 2. cbn [f64_zero]. unfold Qlt_bool. destruct (Qle_bool T 0) eqn:ET; cbn [negb].
  - left. split; [|done]. apply Qle_bool_iff in ET. destruct HT as [HT _].
    assert (gamma < 1 # 2)%Q by reflexivity. assert (Qsum ds <= 0)%Q by nra.
    assert (inject_Z (C - R) < inject_Z 1)%Q as Hlt%Zlt_of_Q; [|lia].
    assert (3 # 2 ^ 13 < 1)%Q by reflexivity. change (inject_Z 1) with 1%Q. lra.
  - right. split; [done|]. apply not_true_iff_false in ET.
    assert (0 < Qsum ds)%Q as HS.
    { apply Qle_lteq in HS0 as [?|HS0]; [done|]. exfalso. apply ET, Qle_bool_iff. destruct HT as [_ HT].
      rewrite <- HS0 in HT. lra. }
    destruct (distribute (C - R) ds T ltac:(lia) Hp HS) as (ss & Ess & Hnear & Hss); [|done|].
    { apply Forall_part_bound; [done|lia]. }
    exists ds, ss. split_and!; [done|done| |done|done|].
    { rewrite <- Ess, <- list_fmap_compose. done. }
    rewrite Forall2_fmap_l in Hnear. rewrite Forall_forall in Hp.
    apply Forall2_same_length_lookup. split; [by rewrite <- (Forall2_length _ _ _ Hnear)|].
    intros j a s Ha Hs. destruct (Forall2_lookup_l _ _ _ _ _ Hds Ha) as (d & Hd & Hsur).
    pose proof (Forall2_lookup_lr _ _ _ _ _ _ Hnear Hd Hs) as Hns.
    apply list_elem_of_lookup_2 in Ha, Hd. destruct (current_Q R C tw allocs Hok a Ha) as [_ [Hc _]].
    pose proof (current_range R C tw allocs Hok a Ha) as Hcr.
    destruct (Z.eq_dec (C - R) 0) as [E0|Hne].
    + rewrite E0 in Hns. change (inject_Z 0) with 0%Q in Hns. unfold Qdiv in Hns. destruct Hns as [_ Hns].
      assert (0 < slack)%Q by reflexivity. assert (0 * d * / Qsum ds * (1 + delta) == 0)%Q as Ez by ring. lra.
    + apply (reduction_le (inject_Z (C - R)) (Qsum ds) (inject_Z (current a)) d s); try done.
      * split; [change 1%Q with (inject_Z 1); rewrite <- Zle_Qle; lia|].
        rewrite <- Zle_Qle. unfold max_int32 in *. change (2 ^ 31) with 2147483648. lia.
      * apply (Hp d Hd).
      * by apply (surplus_le_current a).
      * apply Qsum_elem; [by apply Forall_forall|done].
      * split; [done|]. rewrite <- Zle_Qle. unfold max_int32 in *. change (2 ^ 31) with 2147483648. lia.
Qed.
End surpluses.

Lemma zero_product x : f64_mul (F64 0) (F64 x) = F64 0.
Proof. unfold f64_mul, round64. by rewrite (rnd_zero (0 * x)%Q) by ring. Qed.

Lemma zero_quotient T : f64_ltb f64_zero T = true -> f64_div (F64 0) T = F64 0.
Proof.
  destruct T as [t|[]|]; intros HT; try done. unfold f64_div.
  destruct (Qeq_bool t 0) eqn:E.
  - apply Qeq_bool_iff in E. unfold f64_ltb, f64_zero, Qlt_bool in HT. apply negb_true_iff, not_true_iff_false in HT.
    exfalso. apply HT, Qle_bool_iff. lra.
  - unfold round64. rewrite (rnd_zero (0 / t)%Q); [done|]. unfold Qdiv. ring.
Qed.

Section scale_down_theorem.
Context `{GoRuntimeLaws}.

Lemma reduce_alloc_zero a : in_i32 (quota a) ->
  alloc_name (reduce_alloc a (F64 0)) = alloc_name a /\ current (reduce_alloc a (F64 0)) = current a /\
  quota (reduce_alloc a (F64 0)) = quota a.
Proof.
  intros Hq. unfold reduce_alloc. assert (share_floor (F64 0) = 0) as -> by reflexivity.
  cbn [alloc_name current quota]. rewrite Z.sub_0_r. by rewrite i32_id.
Qed.

(** With nothing to reduce, the fallback on the weights changes no quota. *)
Lemma reduce_by_weight_zero (l : list allocation) :
  (forall a, a ∈ l -> weight_ok a /\ in_i32 (quota a)) ->
  (fun a => (alloc_name a, current a, quota a)) <$> reduce_by_weight 0 l =
  (fun a => (alloc_name a, current a, quota a)) <$> l.
Proof.
  intros Hl. unfold reduce_by_weight. set (T := foldl _ _ l). destruct (f64_ltb f64_zero T) eqn:ET; [|done].
  rewrite <- list_fmap_compose. apply list_fmap_ext. intros i a Ha%list_elem_of_lookup_2. unfold compose.
  destruct (Hl a Ha) as [[Hw Hwr] Hq]. destruct (has_weight a) eqn:Ehw; [|done].
  assert (exists v, inverse_weight a = F64 v) as [v ->].
  { unfold has_weight in Ehw. rewrite Hw in Ehw. unfold inverse_weight, f64_one. rewrite Hw.
    assert (1 <= wz a).
    { destruct (Z.eq_dec (wz a) 0) as [E|]; [|lia]. by rewrite E in Ehw. }
    assert (0 < inject_Z (wz a))%Q as Hpos by (change 0%Q with (inject_Z 0); rewrite <- Zlt_Qlt; lia).
    assert (inject_Z (wz a) <= inject_Z 100)%Q as H100 by (rewrite <- Zle_Qle; lia).
    destruct (f64_div_good 1 (inject_Z (wz a))) as (v & Hv & _); [lra| |by exists v].
    apply good_range. split.
    - apply Qle_shift_div_l; [done|]. apply (Qle_trans _ ((1 # 2 ^ 400) * inject_Z 100)); [|by vm_compute].
      rewrite !(Qmult_comm (1 # 2 ^ 400)). by apply Qmult_le_compat_r.
    - apply Qle_shift_div_r; [done|]. apply (Qle_trans _ (inject_Z (2 ^ 400) * inject_Z 1)); [by vm_compute|].
      rewrite !(Qmult_comm (inject_Z (2 ^ 400))). apply Qmult_le_compat_r; [|by vm_compute].
      rewrite <- Zle_Qle. lia. }
  rewrite (f64_of_int_eq 0) by done. change (inject_Z 0) with 0%Q. rewrite zero_product, zero_quotient by done.
  destruct (reduce_alloc_zero a Hq) as (-> & -> & ->). done.
Qed.

(** One replica less for each of the first [k], none of them empty. *)
Lemma bump_down k (l : list allocation) :
  (k <= length l)%nat -> (forall a, a ∈ l -> 0 <= quota a <= current a /\ current a <= max_int32) ->
  (forall a, a ∈ take k l -> 1 <= quota a) ->
  exists l', step_first (fun q => i32 (q - 1)) k l = Ret l' /\
    (fun a => (alloc_name a, current a)) <$> l' = (fun a => (alloc_name a, current a)) <$> l /\
    sumZ quota l' = sumZ quota l - Z.of_nat k /\ (forall b, b ∈ l' -> 0 <= quota b <= current b).
Proof.
  intros Hk Hl Ht. rewrite step_first_eq by done. eexists. split; [done|].
  assert (forall a, a ∈ take k l -> i32 (quota a - 1) = quota a - 1) as Hi.
  { intros a Ha. pose proof (Ht a Ha). pose proof (Hl a (take_elem _ _ _ Ha)). apply i32_id. int_range. }
  split_and!.
  - rewrite fmap_app, <- list_fmap_compose. unfold compose, set_quota. cbn [alloc_name current].
    by rewrite <- fmap_app, take_drop.
  - rewrite sumZ_app, sumZ_map, (sumZ_take_drop quota k l).
    rewrite (sumZ_ext _ (fun a => quota a - 1)) by (intros a Ha; cbn; by apply Hi).
    rewrite (sumZ_sub quota (fun _ => 1)), sumZ_const, length_take. lia.
  - intros b [Hin|Hin]%elem_of_app; [|by apply Hl; eapply drop_elem].
    apply list_elem_of_fmap in Hin as (a & -> & Ha). cbn [set_quota current quota]. rewrite Hi by done.
    pose proof (Ht a Ha). pose proof (Hl a (take_elem _ _ _ Ha)). lia.
Qed.

(** What remains to be reduced is taken from candidates that have a replica. *)
Lemma reduce_rest_spec R C (l : list allocation) k :
  (forall a, a ∈ l -> 0 <= quota a <= current a) -> sumZ current l = C -> C <= max_int32 -> 0 <= R ->
  sumZ quota l = R + Z.of_nat k -> (k <= length l)%nat ->
  (forall a, a ∈ take k (go_sort by_remainder l) -> 1 <= quota a) ->
  exists l', reduce_rest R l = Ret l' /\ frame l' l /\ sumZ quota l' = R /\
    (forall b, b ∈ l' -> 0 <= quota b <= current b).
Proof.
  intros Hl HC HCmax HR Hsum Hk Ht. unfold reduce_rest.
  assert (forall a, a ∈ l -> 0 <= quota a) as Hnn by (intros a Ha; apply Hl; done).
  assert (forall a, a ∈ l -> 0 <= current a) as Hcnn by (intros a Ha; pose proof (Hl a Ha); lia).
  assert (sumZ quota l <= C) by (rewrite <- HC; apply sumZ_le; intros a Ha; by apply Hl).
  rewrite sum32_exact, Hsum, i32_id by (done || lia || int_range).
  pose proof (go_sort_perm by_remainder l) as Hperm. set (l2 := go_sort by_remainder l) in *.
  replace (Z.to_nat (R + Z.of_nat k - R)) with k by lia.
  destruct (bump_down k l2) as (l' & -> & F1 & F2 & F3); [by rewrite Hperm| |done|].
  - intros a Ha. rewrite Hperm in Ha. split; [by apply Hl|].
    pose proof (sumZ_ge_elem current l a Hcnn Ha). lia.
  - exists l'. split_and!; [done| | |done].
    + unfold frame. by rewrite F1, Hperm.
    + rewrite F2, Hperm, Hsum. lia.
Qed.

Lemma clamp_id (l : list allocation) : (forall a, a ∈ l -> 0 <= quota a) -> map clamp_quota l = l.
Proof.
  induction l as [|a l IH]; intros Hl; [done|]. cbn [map]. rewrite IH by (intros; apply Hl; by right).
  pose proof (Hl a ltac:(by left)). unfold clamp_quota. by destruct (Z.ltb_spec (quota a) 0); [lia|].
Qed.

Lemma by_remainder_weak (l : list allocation) : Forall reduced l -> strict_weak by_remainder l.
Proof.
  intros Hr. rewrite Forall_forall in Hr.
  assert (forall a b, a ∈ l -> b ∈ l -> by_remainder a b = true <-> (rem b < rem a)%Q) as Hb.
  { intros a b Ha Hb. unfold by_remainder. rewrite (red_rem a (Hr a Ha)), (red_rem b (Hr b Hb)).
    unfold f64_ltb, Qlt_bool. rewrite negb_true_iff, <- not_true_iff_false, Qle_bool_iff.
    split; [apply Qnot_le_lt|]. intros Hlt Hle. by apply Qlt_not_le in Hlt. }
  split.
  - intros x y Hx Hy. rewrite <- not_true_iff_false, !Hb by done. lra.
  - intros x y z Hx Hy Hz. rewrite <- !not_true_iff_false, !Hb by done. lra.
Qed.
End scale_down_theorem.

Section scale_down_final.
Context `{GoRuntimeLaws}.

Lemma frame_quota (l k : list allocation) :
  (fun a => (alloc_name a, current a, quota a)) <$> l = (fun a => (alloc_name a, current a, quota a)) <$> k ->
  (fun a => (alloc_name a, current a)) <$> l = (fun a => (alloc_name a, current a)) <$> k /\
  sumZ quota l = sumZ quota k /\ sumZ current l = sumZ current k /\ length l = length k /\
  (forall a, a ∈ l -> exists b, b ∈ k /\ current a = current b /\ quota a = quota b).
Proof.
  intros E. apply (f_equal (fmap fst)) in E as E1. rewrite <- !list_fmap_compose in E1.
  apply (f_equal (sumZ snd)) in E as E2. rewrite !sumZ_map in E2.
  apply (f_equal (sumZ (fun x => x.1.2))) in E as E3. rewrite !sumZ_map in E3.
  apply (f_equal length) in E as E4. rewrite !length_fmap in E4.
  split_and!; [done|done|done|done|]. intros a Ha.
  assert ((alloc_name a, current a, quota a) ∈ (fun a => (alloc_name a, current a, quota a)) <$> k) as Hin
    by (rewrite <- E; by apply (list_elem_of_fmap_2 (fun a => (alloc_name a, current a, quota a)))).
  apply list_elem_of_fmap in Hin as (b & Eb & Hb). exists b. naive_solver.
Qed.

(** The state after the proportional pass, whichever proportions it used. *)
Lemma reduction_pass R C tw (l0 : list allocation) :
  allocs_ok R C tw l0 -> R <= C -> (forall a, a ∈ l0 -> quota a = current a) ->
  let surpluses := map (surplus_of R tw) l0 in
  let totalSurplus := f64_sum surpluses in
  exists l1 k,
    (if f64_ltb f64_zero totalSurplus
     then zip_with (fun a surplus =>
            reduce_alloc a (f64_div (f64_mul (f64_of_int (C - R)) surplus) totalSurplus)) l0 surpluses
     else reduce_by_weight (C - R) l0) = l1 /\
    (fun a => (alloc_name a, current a)) <$> l1 = (fun a => (alloc_name a, current a)) <$> l0 /\
    (forall a, a ∈ l1 -> 0 <= quota a <= current a) /\ sumZ quota l1 = R + Z.of_nat k /\ (k <= length l1)%nat /\
    (forall a, a ∈ take k (go_sort by_remainder l1) -> 1 <= quota a).
Proof.
  intros Hok HRC Hq. cbv zeta. pose proof Hok as [HR Hlen Hw _ _ Hcur Hsum HC].
  pose proof (fun a => current_range R C tw l0 Hok a) as Hcr.
  destruct (reduction_shares R C tw l0 Hok HRC) as [[-> Hltb]|(Hltb & ds & ss & Eds & HS & Ess & Hss & Hnear & Hle)];
    rewrite Hltb.
  - rewrite Z.sub_diag. destruct (frame_quota (reduce_by_weight 0 l0) l0) as (F1 & F2 & F3 & F4 & F5).
    { apply reduce_by_weight_zero. intros a Ha. split; [by apply Hw|]. rewrite (Hq a Ha).
      pose proof (Hcr a Ha). int_range. }
    exists (reduce_by_weight 0 l0), 0%nat. split_and!; [done|done| | |lia|by intros a ?%elem_of_nil].
    + intros a Ha. destruct (F5 a Ha) as (b & Hb & -> & ->). rewrite (Hq b Hb). pose proof (Hcr b Hb). lia.
    + rewrite F2, (sumZ_ext quota current), Hsum by done. lia.
  - rewrite <- (zip_with_fmap_r reduce_alloc (fun d => f64_share (C - R) d (f64_sum (map (surplus_of R tw) l0)))), Ess.
    destruct (reduce_all l0 ss) as (F1 & F2 & F3 & F4); [intros a Ha; split; [by apply Hcr|by apply Hq]|done|done|].
    set (l1 := zip_with reduce_alloc l0 (F64 <$> ss)) in *. rewrite Hsum in F2.
    destruct (shares_floor_sum (C - R) ds ss ltac:(lia) HS Hnear) as [Hlo Hhi].
    destruct (shares_total (C - R) ds ss ltac:(lia) HS Hnear) as [Htot _].
    assert (length l1 = length l0) as Hl1 by (apply (f_equal length) in F1; by rewrite !length_fmap in F1).
    pose proof (Forall2_length _ _ _ Hle) as Hlss.
    pose proof (go_sort_perm by_remainder l1) as Hperm.
    exists l1, (Z.to_nat (C - R - sumZ Qfloor ss)). split_and!; [done|done| |lia|lia|].
    + intros a Ha. rewrite Forall_forall in F3. apply (red_quota a (F3 a Ha)).
    + apply first_not_empty; [by rewrite Hperm|by apply go_sort_sorted, by_remainder_weak| | |];
        [rewrite Hperm; lia|rewrite Hperm; lia|].
      rewrite (Qsum_perm (rem <$> go_sort by_remainder l1) (rem <$> l1)) by (by rewrite Hperm).
      rewrite Z2Nat.id by lia. unfold Z.sub in *. rewrite !inject_Z_plus, !inject_Z_opp in *. lra.
Qed.

Lemma scale_down_spec R C tw allocs : allocs_ok R C tw allocs -> R <= C ->
  exists l, scale_down R C tw allocs = Ret l /\ frame l allocs /\ sumZ quota l = R /\
    forall a, a ∈ l -> 0 <= quota a <= current a.
Proof.
  intros Hok0 HRC. unfold scale_down.
  replace (map (surplus_of R tw) allocs) with (map (surplus_of R tw) (start_current allocs))
    by (symmetry; apply (list_fmap_compose (fun a => set_quota a (current a)) (surplus_of R tw))).
  pose proof (start_ok _ _ _ _ Hok0) as Hok. pose proof (start_frame allocs) as Hframe0.
  pose proof (fun a => start_quota a allocs) as Hq. set (l0 := start_current allocs) in *. clearbody l0.
  pose proof Hok as [HR Hlen Hw _ _ Hcur Hsum HC].
  assert (0 <= C) by lia. rewrite i32_id by int_range.
  destruct (reduction_pass R C tw l0 Hok HRC Hq) as (l1 & k & -> & E1 & E2 & E3 & E4 & E5).
  destruct (reduce_rest_spec R C l1 k) as (l2 & -> & G1 & G2 & G3); [done| |done|lia|done|done|done|].
  - apply (f_equal (sumZ snd)) in E1. rewrite !sumZ_map in E1. etransitivity; [exact E1|exact Hsum].
  - cbn [mbind outcome_bind]. rewrite clamp_id by (intros a Ha; by apply G3).
    exists l2. split_and!; [done| |done|done].
    unfold frame in *. rewrite G1, E1. exact Hframe0.
Qed.
End scale_down_final.
