(* ===== verification/SpreadSpec.v ===== *)
(** * What the spread strategy promises

    [selectClustersSpread] as a whole: which clusters are candidates, and the
    theorems on its result: it never panics, places exactly the wanted number of
    replicas, takes nothing away when the application grows and adds nothing when
    it shrinks. *)

From Stdlib Require Import QArith Qround Lqa.
From S2P Require Import Prelude Float64 GoRuntime Api Framework Indexer Cache Shares Spread SpreadScale.

#[local] Open Scope Z_scope.

(** An application and scores the scheduler can meet: counts of machine size,
    one placement entry for each cluster, scores as [RunScorePlugins] returns
    them, and at most 256 clusters in play. *)
Record spread_ok `{Kubernetes} (app : Application) (scores : gmap string Z) : Prop := {
  so_replicas : 0 <= desired_replicas app <= max_int32;
  so_names : NoDup (ct_Name <$> Topology (Status app));
  so_nonneg : forall t, t ∈ Topology (Status app) -> 0 <= ct_Replicas t;
  so_total : sumZ ct_Replicas (Topology (Status app)) <= max_int32;
  so_scores : forall k v, scores !! k = Some v -> 0 <= v <= 100;
  so_nonempty : scores ≠ ∅;
  so_size : (length (Topology (Status app)) + size scores <= 256)%nat }.

Section candidates.
Context `{GoRuntimeLaws, Kubernetes}.

Lemma cluster_scores_elem scores cs :
  cs ∈ cluster_scores scores <-> scores !! cscore_name cs = Some (cscore_score cs).
Proof.
  unfold cluster_scores. rewrite go_sort_elem, list_elem_of_fmap. split.
  - intros ([k v] & -> & Hkv). by apply range_elem in Hkv.
  - intros Hs. exists (cscore_name cs, cscore_score cs). split; [by destruct cs|]. by apply range_elem.
Qed.

Lemma cluster_scores_length scores : length (cluster_scores scores) = size scores.
Proof.
  unfold cluster_scores. rewrite go_sort_length, length_fmap, go_range_perm. apply length_map_to_list.
Qed.

Lemma max_clusters_pos sc n R : 1 <= n -> 1 <= max_clusters sc n R.
Proof. intros Hn. unfold max_clusters. bool_cases; lia. Qed.

(** Filling only appends new names, each once, and one at least when there is room. *)
Lemma fill_spec maxC css (m : gmap string bool) (l : list clusterScore) :
  (forall n, default false (m !! n) = true <-> n ∈ cscore_name <$> l) -> NoDup (cscore_name <$> l) ->
  exists extra, fill_candidates maxC css m l = l ++ extra /\ NoDup (cscore_name <$> l ++ extra) /\
    (forall c, c ∈ extra -> c ∈ css) /\ (length extra <= length css)%nat /\
    (l = [] -> css ≠ [] -> 1 <= maxC -> extra ≠ []) /\
    (Z.of_nat (length (l ++ extra)) <= Z.max maxC (Z.of_nat (length l))).
Proof.
  revert m l; induction css as [|c css IH]; intros m l Hm Hnd; simpl.
  { exists []. rewrite app_nil_r. split_and!; [done|done|done|done|done|lia]. }
  destruct (Z.leb_spec maxC (Z.of_nat (length l))).
  { exists []. rewrite app_nil_r. split_and!; [done|done|by intros ? ?%elem_of_nil|simpl; lia| |lia].
    intros -> _ ?. simpl in *. lia. }
  destruct (default false (m !! cscore_name c)) eqn:E; simpl.
  - destruct (IH m l Hm Hnd) as (extra & -> & F1 & F2 & F3 & F4 & F5). exists extra.
    split_and!; [done|done|intros; right; by apply F2|lia| |lia].
    intros ->. exfalso. apply Hm in E. by apply elem_of_nil in E.
  - assert (cscore_name c ∉ cscore_name <$> l) as Hnew by (rewrite <- Hm; congruence).
    destruct (IH (<[cscore_name c := true]> m) (l ++ [c])) as (extra & -> & F1 & F2 & F3 & F4 & F5).
    { intros n. rewrite fmap_app, elem_of_app, list_fmap_singleton, list_elem_of_singleton, <- Hm.
      destruct (decide (cscore_name c = n)) as [<-|Hne].
      - rewrite lookup_insert_eq. simpl. tauto.
      - rewrite lookup_insert_ne by done. naive_solver. }
    { rewrite fmap_app. apply NoDup_app. split_and!; [done|set_solver|apply NoDup_singleton]. }
    exists (c :: extra). rewrite <- app_assoc in *. simpl in *.
    split_and!; [done|done| |simpl; lia|done|].
    + intros c' [->|Hc']%elem_of_cons; [by left|right; by apply F2].
    + rewrite length_app, length_cons in F5 |- *. rewrite length_app in F5. simpl in F5. lia.
Qed.

Lemma candidate_map_spec (names : list string) n :
  default false (foldl (fun m name => <[name := true]> m) (∅ : gmap string bool) names !! n) = true <-> n ∈ names.
Proof.
  induction names as [|x names IH] using rev_ind.
  - simpl. rewrite lookup_empty, elem_of_nil. done.
  - rewrite foldl_snoc, elem_of_app, list_elem_of_singleton, <- IH. destruct (decide (x = n)) as [->|].
    + rewrite lookup_insert_eq. simpl. tauto.
    + rewrite lookup_insert_ne by done. naive_solver.
Qed.

(** The candidates: each cluster in use, then new scored ones. *)
Lemma candidates_spec maxC (cp scores : gmap string Z) :
  exists extra, candidates maxC cp scores =
      ((fun name => mkScore name (lookup0 scores name)) <$> range_keys 41 cp) ++ extra /\
    NoDup (cscore_name <$> candidates maxC cp scores) /\
    (forall c, c ∈ extra -> cp !! cscore_name c = None /\ scores !! cscore_name c = Some (cscore_score c)) /\
    (length (candidates maxC cp scores) <= size cp + size scores)%nat /\
    (scores ≠ ∅ -> 1 <= maxC -> candidates maxC cp scores ≠ []) /\
    Z.of_nat (length (candidates maxC cp scores)) <= Z.max maxC (Z.of_nat (size cp)).
Proof.
  unfold candidates. set (names := range_keys 41 cp).
  set (l := (fun name => mkScore name (lookup0 scores name)) <$> names).
  assert (cscore_name <$> l = names) as El.
  { unfold l. rewrite <- list_fmap_compose. apply list_fmap_id. }
  assert (length names = size cp) as Hlen.
  { unfold names, range_keys. rewrite length_fmap, go_range_perm. apply length_map_to_list. }
  destruct (fill_spec maxC (cluster_scores scores) (foldl (fun m name => <[name := true]> m) ∅ names) l)
    as (extra & -> & F1 & F2 & F3 & F4 & F5).
  { intros n. rewrite El. apply candidate_map_spec. }
  { rewrite El. apply range_keys_NoDup. }
  rewrite cluster_scores_length in F3. exists extra.
  assert (length l = size cp) as Hl by (unfold l; by rewrite length_fmap).
  split_and!; [done|done| |rewrite length_app; lia| |].
  - intros c Hc. split; [|by apply cluster_scores_elem, F2].
    rewrite fmap_app, El in F1. apply NoDup_app in F1 as (_ & Hdisj & _).
    destruct (cp !! cscore_name c) as [v|] eqn:E; [exfalso|done].
    apply (Hdisj (cscore_name c)); [apply range_keys_elem; by eexists|by apply list_elem_of_fmap_2].
  - intros Hne Hmax Happ. apply app_eq_nil in Happ as [Hl0 Hx0]. apply (F4 Hl0); [|done|done].
    intros E. apply Hne. apply (f_equal length) in E. rewrite cluster_scores_length in E.
    by apply map_size_empty_inv.
  - rewrite Hl in F5. done.
Qed.
End candidates.

(** ** Weights *)

Section weights.
Context (selected : list clusterScore).
Context (Hnd : NoDup (cscore_name <$> selected)).
Context (Hsc : forall c, c ∈ selected -> 0 <= cscore_score c <= 100).
Context (Hne : selected ≠ []) (Hlen : (length selected <= 256)%nat).

Lemma scores_sum_bound : 0 <= sumZ cscore_score selected <= 25600.
Proof.
  split; [apply sumZ_nonneg; intros c Hc; by apply Hsc|].
  transitivity (sumZ (fun _ => 100) selected); [apply sumZ_le; intros c Hc; by apply Hsc|].
  rewrite sumZ_const. lia.
Qed.

(** The weight of a candidate, as an integer: its score, or 1 if all are 0. *)
Definition int_weight (c : clusterScore) : Z := if sumZ cscore_score selected =? 0 then 1 else cscore_score c.

Lemma weights_of_spec :
  (weights_of selected).2 = F64 (inject_Z (sumZ int_weight selected)) /\ 0 < sumZ int_weight selected /\
  forall c, c ∈ selected -> 0 <= int_weight c <= 100 /\
    (weights_of selected).1 !! cscore_name c = Some (F64 (inject_Z (int_weight c))).
Proof.
  pose proof scores_sum_bound as Hb. unfold weights_of, int_weight.
  pose proof (f64_sum_int cscore_score selected 0) as Hsum. change (F64 (inject_Z 0)) with f64_zero in Hsum.
  rewrite Hsum; [|intros c Hc; by apply Hsc|done|change (2 ^ 53) with 9007199254740992; lia].
  rewrite Z.add_0_l. unfold f64_eqb, f64_zero. clear Hsum.
  destruct (Z.eqb_spec (sumZ cscore_score selected) 0) as [E|E].
  - rewrite E. change (Qeq_bool (inject_Z 0) 0) with true. cbv iota. cbn [fst snd].
    rewrite sumZ_const, Z.mul_1_l. assert (0 < Z.of_nat (length selected)).
    { destruct selected; [done|simpl; lia]. }
    split_and!; [apply f64_of_int_eq; change (2 ^ 53) with 9007199254740992; lia|done|].
    intros c Hc. split; [lia|]. by apply (foldl_insert_elem cscore_name (fun _ => f64_one)).
  - destruct (Qeq_bool (inject_Z (sumZ cscore_score selected)) 0) eqn:Eq.
    { exfalso. apply E, (inject_Z_injective _ 0). by apply Qeq_bool_iff in Eq. }
    cbv iota. cbn [fst snd]. split_and!; [done|change (0 < sumZ cscore_score selected); lia|]. intros c Hc. pose proof (Hsc c Hc). split; [done|].
    rewrite (foldl_insert_elem cscore_name (fun cs => f64_of_int (cscore_score cs))) by done.
    f_equal. apply f64_of_int_eq. change (2 ^ 53) with 9007199254740992. lia.
Qed.
End weights.

(** ** The whole function *)

Section spread.
Context `{GoRuntimeLaws, Kubernetes}.
Implicit Types (app : Application) (scores : gmap string Z).

Abbreviation topo app := (Topology (Status app)).

Lemma current_lookup app t : NoDup (ct_Name <$> topo app) -> t ∈ topo app ->
  lookup0 (current_placement app) (ct_Name t) = ct_Replicas t.
Proof. intros Hnd Ht. unfold lookup0, current_placement. by rewrite map_of_lookup. Qed.

Lemma current_absent app n : n ∉ ct_Name <$> topo app -> lookup0 (current_placement app) n = 0.
Proof. intros Hn. unfold lookup0, current_placement. by rewrite (proj2 (map_of_lookup_None _ _ _ _) Hn). Qed.

Lemma range_keys_topology app site : NoDup (ct_Name <$> topo app) ->
  range_keys site (current_placement app) ≡ₚ ct_Name <$> topo app.
Proof.
  intros Hnd. apply NoDup_Permutation; [apply range_keys_NoDup|done|].
  intros n. rewrite range_keys_elem. apply map_of_is_Some.
Qed.

(** The sum of the current replicas over a list of names that covers them. *)
Lemma current_sum app (names extra : list string) : NoDup (ct_Name <$> topo app) ->
  names ≡ₚ ct_Name <$> topo app -> (forall n, n ∈ extra -> n ∉ ct_Name <$> topo app) ->
  sumZ (lookup0 (current_placement app)) (names ++ extra) = sumZ ct_Replicas (topo app).
Proof.
  intros Hnd Hp Hx. rewrite sumZ_app, Hp, sumZ_map, (sumZ_zero _ extra).
  - rewrite Z.add_0_r. apply sumZ_ext. intros t Ht. by apply current_lookup.
  - intros n Hn. by apply current_absent, Hx.
Qed.

Lemma current_placement_size app : NoDup (ct_Name <$> topo app) ->
  size (current_placement app) = length (topo app).
Proof.
  intros Hnd. pose proof (range_keys_topology app 41 Hnd) as Hp. apply Permutation_length in Hp.
  rewrite length_fmap in Hp. rewrite <- Hp. unfold range_keys. rewrite length_fmap, go_range_perm.
  symmetry. apply length_map_to_list.
Qed.

(** The candidates of an acceptable application satisfy what the scaling passes
    ask for, and they are the clusters in use and some scored ones. *)
Lemma candidate_ok app scores maxC c : spread_ok app scores -> c ∈ candidates maxC (current_placement app) scores ->
  0 <= cscore_score c <= 100 /\ (cscore_name c ∈ ct_Name <$> topo app \/ is_Some (scores !! cscore_name c)).
Proof.
  intros [_ Hnd _ _ Hsc _ _]. pose proof (range_keys_topology app 41 Hnd) as Hnames.
  destruct (candidates_spec maxC (current_placement app) scores) as (extra & -> & _ & Hx & _).
  rewrite elem_of_app. intros [Hin|Hin].
  - apply list_elem_of_fmap in Hin as (n & -> & Hn). simpl. split; [|left; by rewrite <- Hnames].
    unfold lookup0. destruct (scores !! n) as [v|] eqn:E; simpl; [by eapply Hsc|lia].
  - destruct (Hx c Hin) as [_ Hs]. split; [by eapply Hsc|right; by eexists].
Qed.

(** All current replicas belong to candidates. *)
Lemma candidates_current app scores maxC : NoDup (ct_Name <$> topo app) ->
  sumZ (fun c => lookup0 (current_placement app) (cscore_name c)) (candidates maxC (current_placement app) scores)
  = sumZ ct_Replicas (topo app) /\
  forall t, t ∈ topo app -> ct_Name t ∈ cscore_name <$> candidates maxC (current_placement app) scores.
Proof.
  intros Hnd. destruct (candidates_spec maxC (current_placement app) scores) as (extra & -> & _ & Hx & _). split.
  - rewrite <- (sumZ_map cscore_name (lookup0 (current_placement app))), fmap_app, <- list_fmap_compose.
    apply current_sum; [done|unfold compose; simpl; rewrite list_fmap_id; by apply range_keys_topology|].
    intros n (c & -> & Hin)%list_elem_of_fmap. destruct (Hx c Hin) as [Hcp _]. by apply map_of_lookup_None in Hcp.
  - intros t Ht. rewrite fmap_app, elem_of_app. left. rewrite <- list_fmap_compose. unfold compose. cbn [cscore_name].
    rewrite list_fmap_id, (range_keys_topology app 41 Hnd). by apply list_elem_of_fmap_2.
Qed.

Lemma current_nonneg app n : NoDup (ct_Name <$> topo app) -> (forall t, t ∈ topo app -> 0 <= ct_Replicas t) ->
  0 <= lookup0 (current_placement app) n.
Proof.
  intros Hnd Hnn. destruct (decide (n ∈ ct_Name <$> topo app)) as [Hin|Hout]; [|by rewrite current_absent].
  apply list_elem_of_fmap in Hin as (t & -> & Ht). rewrite current_lookup by done. by apply Hnn.
Qed.

Lemma initial_allocs_ok app scores maxC : spread_ok app scores -> 1 <= maxC ->
  let selected := candidates maxC (current_placement app) scores in
  let allocs := initial_allocs selected (weights_of selected).1 (current_placement app) in
  allocs_ok (desired_replicas app) (sumZ ct_Replicas (topo app)) (weights_of selected).2 allocs /\
  NoDup (alloc_name <$> allocs) /\
  (forall a, a ∈ allocs -> current a = lookup0 (current_placement app) (alloc_name a) /\
     (alloc_name a ∈ ct_Name <$> topo app \/ is_Some (scores !! alloc_name a))) /\
  (forall t, t ∈ topo app -> ct_Name t ∈ alloc_name <$> allocs) /\
  Z.of_nat (length allocs) <= Z.max maxC (Z.of_nat (length (topo app))).
Proof.
  intros Hok Hmax. pose proof Hok as [Hr Hnd Hnn Htot Hsc Hne Hsize]. cbv zeta.
  pose proof (fun c => candidate_ok app scores maxC c Hok) as Hc.
  destruct (candidates_current app scores maxC Hnd) as [Ecur Hcover].
  destruct (candidates_spec maxC (current_placement app) scores) as (_ & _ & Hsel & _ & Hlen & Hnempty & Hmaxlen).
  rewrite current_placement_size in Hlen, Hmaxlen by done. specialize (Hnempty Hne Hmax).
  set (selected := candidates maxC (current_placement app) scores) in *.
  destruct (weights_of_spec selected Hsel) as (Etw & Hpos & Hw); [intros c Hin; by apply Hc|done|lia|].
  set (allocs := initial_allocs selected (weights_of selected).1 (current_placement app)).
  assert (forall a, a ∈ allocs -> exists c, c ∈ selected /\ alloc_name a = cscore_name c /\
    current a = lookup0 (current_placement app) (cscore_name c) /\ weight a = F64 (inject_Z (int_weight selected c)) /\
    wz a = int_weight selected c) as Ha.
  { intros a (c & -> & Hin)%list_elem_of_fmap. exists c. unfold wz. cbn [alloc_name current weight].
    rewrite (proj2 (Hw c Hin)). cbn [default]. split_and!; [done|done|done|done|apply Qfloor_inject]. }
  assert (alloc_name <$> allocs = cscore_name <$> selected) as Enames
    by (unfold allocs, initial_allocs; by rewrite <- list_fmap_compose).
  assert (sumZ wz allocs = sumZ (int_weight selected) selected) as Ewz.
  { unfold allocs, initial_allocs. rewrite sumZ_map. apply sumZ_ext. intros c Hin. unfold wz. cbn [weight].
    rewrite (proj2 (Hw c Hin)). apply Qfloor_inject. }
  assert (length allocs = length selected) as El by (unfold allocs, initial_allocs; by rewrite length_fmap).
  split; [split|rewrite Enames, El; split_and!; [done| |done|done]].
  - done.
  - lia.
  - intros a (c & Hin & _ & _ & Ew & Ez)%Ha. unfold weight_ok. rewrite Ez. split; [done|by apply Hw].
  - by rewrite Etw, Ewz.
  - by rewrite Ewz.
  - intros a (c & _ & _ & -> & _)%Ha. by apply current_nonneg.
  - unfold allocs, initial_allocs. rewrite sumZ_map. exact Ecur.
  - done.
  - intros a (c & Hin & En & Ec & _)%Ha. rewrite En. split; [done|]. by apply Hc.
Qed.

(** ** The result list *)

Lemma build_result_elem l t :
  t ∈ build_result l <-> exists a, a ∈ l /\ 0 < quota a /\ t = mkTopology (alloc_name a) (quota a).
Proof.
  unfold build_result. rewrite go_sort_elem, list_elem_of_fmap. setoid_rewrite list_elem_of_filter. naive_solver.
Qed.

Lemma build_result_sum l : (forall a, a ∈ l -> 0 <= quota a) -> sumZ ct_Replicas (build_result l) = sumZ quota l.
Proof.
  intros Hl. unfold build_result. rewrite go_sort_perm, sumZ_map. cbn [ct_Replicas].
  apply (sumZ_filter quota). intros a Ha Hz. pose proof (Hl a Ha). lia.
Qed.

Lemma build_result_names l : NoDup (alloc_name <$> l) -> NoDup (ct_Name <$> build_result l).
Proof.
  intros Hnd. unfold build_result. rewrite go_sort_perm, <- list_fmap_compose. unfold compose. cbn [ct_Name].
  eapply sublist_NoDup; [exact Hnd|]. apply (fmap_sublist alloc_name), sublist_filter.
Qed.

Lemma build_result_length l : (length (build_result l) <= length l)%nat.
Proof. unfold build_result. rewrite go_sort_length, length_fmap. apply length_filter. Qed.

(** What both passes guarantee of the result of the function. *)
Lemma spread_result sc app scores : spread_ok app scores ->
  exists l maxC, selectClustersSpread (Some sc) app scores = Ret (build_result l) /\
    maxC = max_clusters sc (Z.of_nat (size scores)) (desired_replicas app) /\
    NoDup (alloc_name <$> l) /\ sumZ quota l = desired_replicas app /\
    sumZ current l = sumZ ct_Replicas (topo app) /\
    (forall a, a ∈ l -> 0 <= quota a /\ current a = lookup0 (current_placement app) (alloc_name a) /\
       (alloc_name a ∈ ct_Name <$> topo app \/ is_Some (scores !! alloc_name a)) /\
       (if sumZ ct_Replicas (topo app) <? desired_replicas app then current a <= quota a else quota a <= current a)) /\
    (forall t, t ∈ topo app -> ct_Name t ∈ alloc_name <$> l) /\
    Z.of_nat (length l) <= Z.max maxC (Z.of_nat (length (topo app))).
Proof.
  intros Hok. set (maxC := max_clusters sc (Z.of_nat (size scores)) (desired_replicas app)).
  assert (1 <= maxC) as HmaxC.
  { apply max_clusters_pos. destruct (decide (size scores = 0%nat)) as [E|]; [|lia].
    exfalso. apply (so_nonempty _ _ Hok). by apply map_size_empty_inv. }
  destruct (initial_allocs_ok app scores maxC Hok HmaxC) as (Haok & Hnd & Hcur & Hcover & Hlen).
  unfold selectClustersSpread. cbn [mbind outcome_bind]. rewrite cluster_scores_length. fold maxC.
  set (selected := candidates maxC (current_placement app) scores) in *.
  destruct (weights_of selected) as [weights tw] eqn:Ew. cbn [fst snd] in *.
  set (allocs := initial_allocs selected weights (current_placement app)) in *.
  unfold current_total. rewrite sum32_exact; [|apply (so_nonneg _ _ Hok)|apply (so_total _ _ Hok)].
  assert (exists l, (if sumZ ct_Replicas (topo app) <? desired_replicas app
      then scale_up (desired_replicas app) tw allocs
      else scale_down (desired_replicas app) (sumZ ct_Replicas (topo app)) tw allocs) = Ret l /\ frame l allocs /\
    sumZ quota l = desired_replicas app /\ forall a, a ∈ l -> 0 <= quota a /\
      (if sumZ ct_Replicas (topo app) <? desired_replicas app then current a <= quota a else quota a <= current a))
    as (l & -> & Hf & Hsum & Hq).
  { destruct (Z.ltb_spec (sumZ ct_Replicas (topo app)) (desired_replicas app)) as [Hlt|Hge].
    - destruct (scale_up_spec _ _ _ _ Haok Hlt) as (l & -> & Hf & Hsum & Hq). exists l.
      split_and!; [done|done|done|]. intros a Ha. pose proof (Hq a Ha). lia.
    - destruct (scale_down_spec _ _ _ _ Haok Hge) as (l & -> & Hf & Hsum & Hq). exists l.
      split_and!; [done|done|done|]. intros a Ha. pose proof (Hq a Ha). lia. }
  exists l, maxC. unfold frame in Hf.
  assert (alloc_name <$> l ≡ₚ alloc_name <$> allocs) as Hnames.
  { apply (fmap_Permutation fst) in Hf. by rewrite <- !list_fmap_compose in Hf. }
  split_and!; [done|done|by rewrite Hnames|done| | | |].
  - apply (sumZ_perm snd) in Hf. rewrite !sumZ_map in Hf. etransitivity; [exact Hf|].
    apply (ao_sum _ _ _ _ Haok).
  - intros a Ha. destruct (Hq a Ha) as [Hq0 Hqc].
    assert ((alloc_name a, current a) ∈ (fun a => (alloc_name a, current a)) <$> allocs) as Hin
      by (rewrite <- Hf; by apply (list_elem_of_fmap_2 (fun a => (alloc_name a, current a)))).
    apply list_elem_of_fmap in Hin as (b & Eb & Hb). injection Eb as En Ec. destruct (Hcur b Hb) as [Hc Hs].
    rewrite En, Ec. rewrite Ec in Hqc. split_and!; [done|done|done|done].
  - intros t Ht. rewrite Hnames. by apply Hcover.
  - apply Permutation_length in Hnames. rewrite !length_fmap in Hnames. by rewrite Hnames.
Qed.
End spread.

(** ** Properties *)

Section properties.
Context `{GoRuntimeLaws, Kubernetes}.
Implicit Types (app : Application) (scores : gmap string Z).

Abbreviation topo app := (Topology (Status app)).


(** C35: when the application grows, no cluster that runs replicas loses one. *)
Theorem spread_scale_up_keeps sc app scores result : spread_ok app scores ->
  sumZ ct_Replicas (topo app) < desired_replicas app -> selectClustersSpread (Some sc) app scores = Ret result ->
  forall t, t ∈ topo app -> 0 < ct_Replicas t ->
    exists t', t' ∈ result /\ ct_Name t' = ct_Name t /\ ct_Replicas t <= ct_Replicas t'.
Proof.
  intros Hok Hlt E t Ht Hpos.
  destruct (spread_result sc app scores Hok) as (l & maxC & E' & _ & _ & _ & _ & Hl & Hcover & _).
  rewrite E in E'. injection E' as ->. pose proof (Hcover t Ht) as (a & Ea & Ha)%list_elem_of_fmap.
  destruct (Hl a Ha) as (_ & Hc & _ & Hq). apply Z.ltb_lt in Hlt. rewrite Hlt in Hq.
  rewrite <- Ea, current_lookup in Hc; [|apply (so_names _ _ Hok)|done].
  exists (mkTopology (alloc_name a) (quota a)). cbn [ct_Name ct_Replicas]. split_and!; [|done|lia].
  apply build_result_elem. exists a. split_and!; [done|lia|done].
Qed.

(** When the application shrinks, or stays, no cluster gains a replica and no
    new cluster is used. *)
Theorem spread_scale_down_only_removes sc app scores result : spread_ok app scores ->
  desired_replicas app <= sumZ ct_Replicas (topo app) -> selectClustersSpread (Some sc) app scores = Ret result ->
  forall t', t' ∈ result ->
    exists t, t ∈ topo app /\ ct_Name t = ct_Name t' /\ ct_Replicas t' <= ct_Replicas t.
Proof.
  intros Hok Hle E t' Ht'.
  destruct (spread_result sc app scores Hok) as (l & maxC & E' & _ & _ & _ & _ & Hl & _ & _).
  rewrite E in E'. injection E' as ->. apply build_result_elem in Ht' as (a & Ha & Hpos & ->).
  destruct (Hl a Ha) as (_ & Hc & _ & Hq). apply Z.ltb_ge in Hle. rewrite Hle in Hq. cbn [ct_Name ct_Replicas].
  destruct (decide (alloc_name a ∈ ct_Name <$> topo app)) as [Hin|Hout].
  - apply list_elem_of_fmap in Hin as (t & Et & Ht). exists t. split_and!; [done|done|].
    rewrite Et, current_lookup in Hc; [lia|apply (so_names _ _ Hok)|done].
  - rewrite current_absent in Hc by done. lia.
Qed.

(** The strategy is stable: while the wanted number of replicas is what is
    placed already, the placement stays, whatever the scores become. *)
Theorem spread_stable sc app scores result : spread_ok app scores ->
  desired_replicas app = sumZ ct_Replicas (topo app) -> selectClustersSpread (Some sc) app scores = Ret result ->
  forall t, t ∈ result <-> t ∈ topo app /\ 0 < ct_Replicas t.
Proof.
  intros Hok Heq E.
  destruct (spread_result sc app scores Hok) as (l & maxC & E' & _ & _ & Hsum & Hcsum & Hl & Hcover & _).
  rewrite E in E'. injection E' as ->. rewrite Heq, Z.ltb_irrefl in Hl.
  assert (forall a, a ∈ l -> quota a = current a) as Hq.
  { apply sumZ_eq_elem; [|lia]. intros a Ha. by apply Hl. }
  intros t. rewrite build_result_elem. split.
  - intros (a & Ha & Hpos & ->). destruct (Hl a Ha) as (_ & Hc & _ & _). rewrite (Hq a Ha) in Hpos |- *.
    destruct (decide (alloc_name a ∈ ct_Name <$> topo app)) as [Hin|Hout].
    + apply list_elem_of_fmap in Hin as (t & Et & Ht). rewrite Et in Hc |- *.
      rewrite current_lookup in Hc; [|apply (so_names _ _ Hok)|done]. rewrite Hc in Hpos |- *. split; [|done].
      by destruct t.
    + rewrite current_absent in Hc by done. lia.
  - intros [Ht Hpos]. pose proof (Hcover t Ht) as (a & Ea & Ha)%list_elem_of_fmap.
    destruct (Hl a Ha) as (_ & Hc & _ & _). exists a.
    rewrite <- Ea, current_lookup in Hc; [|apply (so_names _ _ Hok)|done].
    rewrite (Hq a Ha), Hc, <- Ea. split_and!; [done|done|]. by destruct t.
Qed.
End properties.

(** ** Witnesses *)

Definition two_clusters (n : Z) : Application :=
  sample_app "Deployment" "" n [mkTopology "a" 3; mkTopology "b" 3].
Definition some_scores : gmap string Z := {[ "a" := 100; "b" := 0; "c" := 50 ]}.
Definition spread_constraints : SpreadConstraints := mkSpreadConstraints 5 1.

Lemma two_clusters_ok n : 0 <= n <= 100 -> spread_ok (two_clusters n) some_scores.
Proof.
  intros Hn. assert (desired_replicas (two_clusters n) = n) as En by reflexivity. split.
  - rewrite En. unfold max_int32. lia.
  - apply NoDup_cons. split; [set_solver|apply NoDup_singleton].
  - intros t Ht. apply list_elem_of_In in Ht. simpl in Ht. destruct Ht as [<-|[<-|[]]]; simpl; lia.
  - vm_compute. discriminate.
  - intros k v Hk. unfold some_scores in Hk. rewrite !lookup_insert_Some, lookup_singleton_Some in Hk. lia.
  - unfold some_scores. apply insert_non_empty.
  - vm_compute. lia.
Qed.


Lemma spread_scale_up_keeps_witness :
  let result := [mkTopology "a" 5; mkTopology "b" 3; mkTopology "c" 2] in
  selectClustersSpread (Some spread_constraints) (two_clusters 10) some_scores = Ret result /\
  exists t', t' ∈ result /\ ct_Name t' = "b" /\ 3 <= ct_Replicas t'.
Proof.
  intros result.
  assert (selectClustersSpread (Some spread_constraints) (two_clusters 10) some_scores = Ret result) as E
    by (vm_compute; reflexivity).
  split; [exact E|].
  apply (spread_scale_up_keeps spread_constraints (two_clusters 10) some_scores result) with (t := mkTopology "b" 3).
  - apply two_clusters_ok. lia.
  - vm_compute. reflexivity.
  - exact E.
  - right. left.
  - vm_compute. reflexivity.
Defined.

Lemma spread_scale_down_only_removes_witness :
  let result := [mkTopology "a" 2; mkTopology "b" 1] in
  selectClustersSpread (Some spread_constraints) (two_clusters 3) some_scores = Ret result /\
  exists t, t ∈ Topology (Status (two_clusters 3)) /\ ct_Name t = "a" /\ 2 <= ct_Replicas t.
Proof.
  intros result.
  assert (selectClustersSpread (Some spread_constraints) (two_clusters 3) some_scores = Ret result) as E
    by (vm_compute; reflexivity).
  split; [exact E|].
  apply (spread_scale_down_only_removes spread_constraints (two_clusters 3) some_scores result)
    with (t' := mkTopology "a" 2).
  - apply two_clusters_ok. lia.
  - vm_compute. discriminate.
  - exact E.
  - left.
Defined.

Lemma spread_stable_witness :
  let result := [mkTopology "a" 3; mkTopology "b" 3] in
  selectClustersSpread (Some spread_constraints) (two_clusters 6) some_scores = Ret result /\
  (mkTopology "b" 3 ∈ result <-> mkTopology "b" 3 ∈ Topology (Status (two_clusters 6)) /\ 0 < 3).
Proof.
  intros result.
  assert (selectClustersSpread (Some spread_constraints) (two_clusters 6) some_scores = Ret result) as E
    by (vm_compute; reflexivity).
  split; [exact E|].
  apply (spread_stable spread_constraints (two_clusters 6) some_scores result) with (t := mkTopology "b" 3).
  - apply two_clusters_ok. lia.
  - vm_compute. reflexivity.
  - exact E.
Defined.
