(* ===== verification/Waterfill.v ===== *)
(** * The waterfill strategy for StatefulSets

    [selectClustersStatefulSetWaterfill] (scheduler.go): clusters are filled in the
    order of their names and emptied from the last one.  A StatefulSet's pods are
    numbered through the clusters in that order, so that what matters is which
    cluster holds pod [i]: the theorems say that scaling never moves a pod. *)

From S2P Require Import Prelude Float64 GoRuntime Api Framework Indexer Cache Plugins.

Section waterfill.
Context `{GoRuntime, Kubernetes}.

Definition existing_placement (app : Application) : gmap string Z :=
  map_of ct_Name ct_Replicas (Topology (Status app)).

(** The scored clusters and the clusters in use, by name. *)
Definition sorted_clusters (scores existingPlacement : gmap string Z) : list string :=
  let clusterNames : gmap string () := foldl (fun m name => <[name := tt]> m) ∅ (range_keys 50 scores) in
  let clusterNames := foldl (fun m name => <[name := tt]> m) clusterNames (range_keys 51 existingPlacement) in
  sort_strings (range_keys 52 clusterNames).

(** The index of the last cluster with replicas, 0 when there is none. *)
Fixpoint start_index (existingPlacement : gmap string Z) (i startIndex : nat) (names : list string) : nat :=
  match names with
  | [] => startIndex
  | name :: rest =>
      start_index existingPlacement (S i) (if 0 <? lookup0 existingPlacement name then i else startIndex) rest
  end.

(** The most replicas a cluster may hold, given that it holds [current]. *)
Definition fill_cap (app : Application) (scores : gmap string Z) (s : Snapshot) (name : string) (current : Z) : Z :=
  match Clusters s !! name with
  | Some info =>
      let calc := Capacity.CalculateMaxReplicas (Cluster info) app in
      if (0 <=? calc) && (calc <? max_int32) then calc else max_int32
  | None => match scores !! name with Some _ => max_int32 | None => current end
  end.

Fixpoint fill_up (cap : string -> Z -> Z) (names : list string) (newPlacement : gmap string Z) (needed : Z)
    : gmap string Z * Z :=
  match names with
  | [] => (newPlacement, needed)
  | name :: rest =>
      if needed =? 0 then (newPlacement, needed)
      else
        let current := lookup0 newPlacement name in
        let room := i32 (cap name current - current) in
        let room := if room <? 0 then 0 else room in
        let take := if room <? needed then room else needed in
        fill_up cap rest (<[name := i32 (lookup0 newPlacement name + take)]> newPlacement) (i32 (needed - take))
  end.

Fixpoint drain (names : list string) (newPlacement : gmap string Z) (remove : Z) : gmap string Z :=
  match names with
  | [] => newPlacement
  | name :: rest =>
      if remove =? 0 then newPlacement
      else
        let current := lookup0 newPlacement name in
        if current =? 0 then drain rest newPlacement remove
        else
          let drop := if current <? remove then current else remove in
          drain rest (<[name := i32 (lookup0 newPlacement name - drop)]> newPlacement) (i32 (remove - drop))
  end.

Definition waterfill_up (cap : string -> Z -> Z) (sortedClusters : list string)
    (existingPlacement newPlacement : gmap string Z) (needed : Z) : gmap string Z :=
  let startIndex := start_index existingPlacement 0 0 sortedClusters in
  let '(newPlacement, needed) := fill_up cap (drop startIndex sortedClusters) newPlacement needed in
  match last sortedClusters with
  | Some lastName =>
      if 0 <? needed then <[lastName := i32 (lookup0 newPlacement lastName + needed)]> newPlacement else newPlacement
  | None => newPlacement
  end.

Definition placement_list (sortedClusters : list string) (newPlacement : gmap string Z) : list ClusterTopology :=
  (fun name => mkTopology name (lookup0 newPlacement name)) <$>
    filter (fun name => 0 < lookup0 newPlacement name) sortedClusters.

Definition selectClustersStatefulSetWaterfill (app : Application) (scores : gmap string Z) (s : Snapshot)
    : list ClusterTopology :=
  let totalReplicas := desired_replicas app in
  let existingPlacement := existing_placement app in
  let currentTotal := sum32 ct_Replicas (Topology (Status app)) in
  let sortedClusters := sorted_clusters scores existingPlacement in
  let newPlacement := copy_map 53 (fun replicas => replicas) existingPlacement in
  let newPlacement :=
    if currentTotal <? totalReplicas
    then waterfill_up (fill_cap app scores s) sortedClusters existingPlacement newPlacement
           (i32 (totalReplicas - currentTotal))
    else if totalReplicas <? currentTotal
    then drain (reverse sortedClusters) newPlacement (i32 (currentTotal - totalReplicas))
    else newPlacement in
  placement_list sortedClusters newPlacement.
End waterfill.

Example waterfill_example :
  selectClustersStatefulSetWaterfill (sample_app "StatefulSet" "one-cpu" 9 [mkTopology "b" 2])
    {[ "a" := 0; "b" := 50; "c" := 50 ]}
    (mkSnapshot ((fun n => mkClusterInfo (sample_cluster n ∅ 4) ∅ ∅) <$> {[ "b" := "b"; "c" := "c" ]}) NewSimpleIndexer)
  = [mkTopology "b" 4; mkTopology "c" 5].
Proof. vm_compute. reflexivity. Qed.

(** ** Pods *)

(** The cluster of each pod, in the order of the pods. *)
Definition pods (m : gmap string Z) (names : list string) : list string :=
  names ≫= fun n => replicate (Z.to_nat (lookup0 m n)) n.

Definition pods_of (l : list ClusterTopology) : list string :=
  l ≫= fun t => replicate (Z.to_nat (ct_Replicas t)) (ct_Name t).

Section pods.
Implicit Types (m : gmap string Z) (names : list string).

Lemma pods_app m l k : pods m (l ++ k) = pods m l ++ pods m k.
Proof. apply bind_app. Qed.

Lemma pods_cons m n l : pods m (n :: l) = replicate (Z.to_nat (lookup0 m n)) n ++ pods m l.
Proof. done. Qed.

Lemma pods_nil m names : (forall n, n ∈ names -> lookup0 m n <= 0) -> pods m names = [].
Proof.
  induction names as [|n names IH]; intros Hz; [done|]. rewrite pods_cons, IH by (intros; apply Hz; by right).
  pose proof (Hz n ltac:(by left)). by replace (Z.to_nat (lookup0 m n)) with 0%nat by lia.
Qed.

Lemma pods_ext m m' names : (forall n, n ∈ names -> lookup0 m n = lookup0 m' n) -> pods m names = pods m' names.
Proof.
  induction names as [|n names IH]; intros E; [done|]. rewrite !pods_cons, IH by (intros; apply E; by right).
  by rewrite (E n) by (by left).
Qed.

Lemma pods_length m names : (forall n, n ∈ names -> 0 <= lookup0 m n) ->
  Z.of_nat (length (pods m names)) = sumZ (lookup0 m) names.
Proof.
  induction names as [|n names IH]; intros Hnn; [done|]. rewrite pods_cons, length_app, length_replicate, sumZ_cons.
  pose proof (Hnn n ltac:(by left)). rewrite Nat2Z.inj_add, IH by (intros; apply Hnn; by right). lia.
Qed.

Lemma pods_of_placement names m : pods_of (placement_list names m) = pods m names.
Proof.
  unfold placement_list, pods_of. induction names as [|n names IH]; [done|].
  rewrite pods_cons, filter_cons. case_decide as Hpos.
  - rewrite fmap_cons, bind_cons, IH. done.
  - rewrite IH. by replace (Z.to_nat (lookup0 m n)) with 0%nat by lia.
Qed.

Lemma placement_sum names m : (forall n, n ∈ names -> 0 <= lookup0 m n) ->
  sumZ ct_Replicas (placement_list names m) = sumZ (lookup0 m) names.
Proof.
  intros Hnn. unfold placement_list. rewrite sumZ_map. cbn [ct_Replicas].
  apply (sumZ_filter (lookup0 m)). intros n Hn Hz. pose proof (Hnn n Hn). lia.
Qed.
End pods.

(** ** Filling *)

Section filling.
Context (cap : string -> Z -> Z) (Hcap : forall n c, 0 <= c <= max_int32 -> 0 <= cap n c <= max_int32).

Lemma fill_up_spec names (m : gmap string Z) needed m' needed' :
  NoDup names -> 0 <= needed -> (forall n, n ∈ names -> 0 <= lookup0 m n) ->
  sumZ (lookup0 m) names + needed <= max_int32 -> fill_up cap names m needed = (m', needed') ->
  (forall n, n ∉ names -> lookup0 m' n = lookup0 m n) /\
  (forall n, n ∈ names -> lookup0 m n <= lookup0 m' n <= Z.max (lookup0 m n) (cap n (lookup0 m n))) /\
  0 <= needed' /\ sumZ (lookup0 m') names + needed' = sumZ (lookup0 m) names + needed.
Proof.
  revert m needed; induction names as [|n names IH]; intros m needed Hnd Hneed Hnn Hb E; cbn [fill_up] in E.
  { injection E as <- <-. split_and!; [done|by intros n ?%elem_of_nil|done|done]. }
  destruct (Z.eqb_spec needed 0) as [->|Hne].
  { injection E as <- <-. split_and!; [done|intros; lia|done|done]. }
  apply NoDup_cons in Hnd as [Hn Hnd]. rewrite sumZ_cons in Hb. pose proof (Hnn n ltac:(by left)) as Hn0.
  assert (forall k, k ∈ names -> 0 <= lookup0 m k) as Hnn' by (intros; apply Hnn; by right).
  pose proof (sumZ_nonneg (lookup0 m) names Hnn') as Hs0.
  set (cur := lookup0 m n) in *. pose proof (Hcap n cur ltac:(lia)) as Hc.
  rewrite (i32_id (cap n cur - cur)) in E by int_range. cbv zeta in E.
  set (take := if (if cap n cur - cur <? 0 then 0 else cap n cur - cur) <? needed
               then (if cap n cur - cur <? 0 then 0 else cap n cur - cur) else needed) in E.
  assert (0 <= take <= needed /\ cur + take <= Z.max cur (cap n cur)) as [Htake Hmax] by (subst take; bool_cases; lia).
  rewrite !i32_id in E by int_range.
  assert (sumZ (lookup0 (<[n := cur + take]> m)) names = sumZ (lookup0 m) names) as Hsum.
  { apply sumZ_ext. intros k Hk. apply lookup0_insert_ne. intros ->. done. }
  destruct (IH (<[n := cur + take]> m) (needed - take)) as (H1 & H2 & H3 & H4); [done|lia| |lia|done|].
  { intros k Hk. rewrite lookup0_insert_ne by (intros ->; done). by apply Hnn'. }
  split_and!; [| |done|].
  - intros k Hk. apply not_elem_of_cons in Hk as [? ?]. rewrite H1 by done. by rewrite lookup0_insert_ne by done.
  - intros k [->|Hk]%elem_of_cons.
    + rewrite H1 by done. rewrite lookup0_insert. fold cur. lia.
    + pose proof (H2 k Hk) as Hk2. by rewrite lookup0_insert_ne in Hk2 by (intros ->; done).
  - rewrite !sumZ_cons, H1, lookup0_insert by done. fold cur. lia.
Qed.

Lemma start_index_spec (ex : gmap string Z) names i st :
  (start_index ex i st names = st /\ forall n, n ∈ names -> lookup0 ex n <= 0) \/
  exists pre x post, names = pre ++ x :: post /\ start_index ex i st names = (i + length pre)%nat /\
    0 < lookup0 ex x /\ forall n, n ∈ post -> lookup0 ex n <= 0.
Proof.
  revert i st; induction names as [|n names IH]; intros i st; cbn [start_index].
  { left. split; [done|]. by intros n ?%elem_of_nil. }
  destruct (IH (S i) (if 0 <? lookup0 ex n then i else st)) as [[E Hz]|(pre & x & post & -> & E & Hx & Hz)].
  - destruct (Z.ltb_spec 0 (lookup0 ex n)).
    + right. exists [], n, names. split_and!; [done|rewrite E; simpl; lia|done|done].
    + left. split; [done|]. intros k [->|Hk]%elem_of_cons; [lia|by apply Hz].
  - right. exists (n :: pre), x, post. split_and!; [done|rewrite E; simpl; lia|done|done].
Qed.

(** Filling starts at a cluster after which nothing is in use. *)
Lemma start_split (ex : gmap string Z) names : names ≠ [] -> exists pre x post,
  names = pre ++ x :: post /\ drop (start_index ex 0 0 names) names = x :: post /\
  forall n, n ∈ post -> lookup0 ex n <= 0.
Proof.
  intros Hne. destruct (start_index_spec ex names 0 0) as [[-> Hz]|(pre & x & post & -> & -> & _ & Hz)].
  - destruct names as [|x post]; [done|]. exists [], x, post. split_and!; [done|done|]. intros n Hn. apply Hz. by right.
  - exists pre, x, post. split_and!; [done| |done]. simpl. by rewrite drop_app_length.
Qed.

(** The placement with the rest added to one cluster. *)
Lemma sumZ_bump (m m' : gmap string Z) names n d :
  NoDup names -> n ∈ names -> (forall k, lookup0 m' k = if decide (k = n) then lookup0 m k + d else lookup0 m k) ->
  sumZ (lookup0 m') names = sumZ (lookup0 m) names + d.
Proof.
  intros Hnd (l1 & l2 & ->)%list_elem_of_split Hm'. apply NoDup_app in Hnd as (_ & Hd & [Hnl _]%NoDup_cons).
  rewrite !sumZ_app, !sumZ_cons, Hm', decide_True by done.
  rewrite (sumZ_ext (lookup0 m') (lookup0 m) l1), (sumZ_ext (lookup0 m') (lookup0 m) l2); [lia|..];
    intros k Hk; rewrite Hm', decide_False; [done|intros ->; done|done|intros ->; set_solver].
Qed.

(** When only the last cluster in use and the empty ones after it grow, the new
    pods come at the end. *)
Lemma pods_append (ex m' : gmap string Z) pre x post :
  (forall n, n ∈ pre -> lookup0 m' n = lookup0 ex n) -> 0 <= lookup0 ex x <= lookup0 m' x ->
  (forall n, n ∈ post -> lookup0 ex n = 0 /\ 0 <= lookup0 m' n) ->
  exists added, pods m' (pre ++ x :: post) = pods ex (pre ++ x :: post) ++ added /\
    Z.of_nat (length added) = sumZ (lookup0 m') (x :: post) - sumZ (lookup0 ex) (x :: post).
Proof.
  intros Hpre Hx Hpost. exists (replicate (Z.to_nat (lookup0 m' x - lookup0 ex x)) x ++ pods m' post).
  assert (pods ex post = []) as Hp by (apply pods_nil; intros n Hn; by destruct (Hpost n Hn) as [-> _]).
  rewrite !pods_app, !pods_cons, (pods_ext m' ex pre), Hp, app_nil_r by done. split.
  - replace (Z.to_nat (lookup0 m' x)) with (Z.to_nat (lookup0 ex x) + Z.to_nat (lookup0 m' x - lookup0 ex x))%nat by lia.
    by rewrite replicate_add, <- !app_assoc.
  - rewrite length_app, length_replicate, Nat2Z.inj_add, pods_length by (intros n Hn; by apply Hpost).
    rewrite !sumZ_cons, (sumZ_zero (lookup0 ex) post) by (intros n Hn; by apply Hpost). lia.
Qed.

Lemma waterfill_up_spec (ex : gmap string Z) names needed :
  NoDup names -> names ≠ [] -> 0 <= needed -> (forall n, n ∈ names -> 0 <= lookup0 ex n) ->
  sumZ (lookup0 ex) names + needed <= max_int32 ->
  let m' := waterfill_up cap names ex ex needed in
  (exists added, pods m' names = pods ex names ++ added /\ Z.of_nat (length added) = needed) /\
  (forall n, n ∈ names -> lookup0 ex n <= lookup0 m' n) /\
  (forall n, n ∈ names -> last names ≠ Some n -> lookup0 m' n <= Z.max (lookup0 ex n) (cap n (lookup0 ex n))).
Proof.
  intros Hnd Hne Hneed Hnn Hb. cbv zeta. unfold waterfill_up.
  destruct (start_split ex names Hne) as (pre & x & post & -> & -> & Hz).
  destruct (fill_up cap (x :: post) ex needed) as [m1 rest] eqn:E.
  apply NoDup_app in Hnd as (_ & Hdisj & Hnd2). rewrite sumZ_app in Hb.
  assert (forall n, n ∈ x :: post -> 0 <= lookup0 ex n) as Hnn2 by (intros; apply Hnn; set_solver).
  pose proof (sumZ_nonneg (lookup0 ex) pre ltac:(intros; apply Hnn; set_solver)).
  pose proof (sumZ_nonneg (lookup0 ex) (x :: post) Hnn2).
  destruct (fill_up_spec (x :: post) ex needed m1 rest) as (F1 & F2 & F3 & F4); [done|done|done|lia|done|].
  destruct (last (pre ++ x :: post)) as [lastn|] eqn:Elast; [|by destruct pre; apply last_None in Elast].
  assert (lastn ∈ x :: post) as Hlast by (rewrite last_app_cons in Elast; by apply last_Some_elem_of).
  set (m' := if 0 <? rest then <[lastn := i32 (lookup0 m1 lastn + rest)]> m1 else m1).
  assert (forall n, n ∈ x :: post -> 0 <= lookup0 m1 n) as Hm1.
  { intros n Hn. pose proof (F2 n Hn). pose proof (Hnn2 n Hn). lia. }
  pose proof (sumZ_ge_elem (lookup0 m1) (x :: post) lastn Hm1 Hlast). pose proof (Hm1 lastn Hlast).
  assert (forall n, lookup0 m' n = if decide (n = lastn) then lookup0 m1 n + rest else lookup0 m1 n) as Hm'.
  { intros n. subst m'. destruct (Z.ltb_spec 0 rest).
    - case_decide as En; [subst n; rewrite lookup0_insert; apply i32_id; int_range|by apply lookup0_insert_ne].
    - case_decide; lia. }
  assert (forall n, n ∈ pre -> lookup0 m' n = lookup0 ex n) as Hpre.
  { intros n Hn. rewrite Hm', decide_False by (intros ->; by eapply Hdisj). apply F1. by apply Hdisj. }
  assert (forall n, n ∈ x :: post -> lookup0 ex n <= lookup0 m' n) as Hmono.
  { intros n Hn. rewrite Hm'. pose proof (F2 n Hn). case_decide; lia. }
  split_and!.
  - destruct (pods_append ex m' pre x post Hpre) as (added & Eadd & Hlen).
    + split; [apply Hnn2|apply Hmono]; by left.
    + intros n Hn. pose proof (Hz n Hn). pose proof (Hnn2 n ltac:(by right)). pose proof (Hmono n ltac:(by right)). lia.
    + exists added. split; [done|]. rewrite Hlen, (sumZ_bump m1 m' (x :: post) lastn rest) by done. lia.
  - intros n [Hn|Hn]%elem_of_app; [rewrite Hpre by done; lia|by apply Hmono].
  - intros n Hn Hnl. apply elem_of_app in Hn as [Hn|Hn]; [rewrite Hpre by done; lia|].
    rewrite Hm', decide_False by congruence. by apply F2.
Qed.
End filling.

(** ** Draining *)

Lemma drain_zero names m : drain names m 0 = m.
Proof. by destruct names. Qed.

Lemma drain_spec names (m : gmap string Z) remove :
  NoDup names -> 0 <= remove <= sumZ (lookup0 m) names -> (forall n, n ∈ names -> 0 <= lookup0 m n) ->
  sumZ (lookup0 m) names <= max_int32 ->
  let m' := drain names m remove in
  (exists removed, pods m (reverse names) = pods m' (reverse names) ++ removed /\
     Z.of_nat (length removed) = remove) /\
  (forall n, n ∉ names -> lookup0 m' n = lookup0 m n) /\
  (forall n, n ∈ names -> 0 <= lookup0 m' n <= lookup0 m n).
Proof.
  revert m remove; induction names as [|n names IH]; intros m remove Hnd Hr Hnn Hb; cbv zeta.
  { rewrite sumZ_nil in Hr. split_and!; [|done|by intros n ?%elem_of_nil]. exists []. simpl. split; [done|lia]. }
  destruct (Z.eq_dec remove 0) as [->|Hne].
  { rewrite drain_zero. split_and!; [|done|intros k Hk; pose proof (Hnn k Hk); lia].
    exists []. by rewrite app_nil_r. }
  apply NoDup_cons in Hnd as [Hn Hnd]. rewrite sumZ_cons in Hr, Hb. pose proof (Hnn n ltac:(by left)) as Hn0.
  assert (forall k, k ∈ names -> 0 <= lookup0 m k) as Hnn' by (intros; apply Hnn; by right).
  pose proof (sumZ_nonneg (lookup0 m) names Hnn') as Hs0. cbn [drain].
  destruct (Z.eqb_spec remove 0) as [|_]; [done|]. set (cur := lookup0 m n) in *.
  set (d := if cur <? remove then cur else remove).
  assert (0 <= d <= cur /\ d <= remove /\ (d = cur \/ d = remove)) as (Hd & Hdr & Hdd) by (subst d; bool_cases; lia).
  assert (exists m1, lookup0 m1 n = cur - d /\ (forall k, k ≠ n -> lookup0 m1 k = lookup0 m k) /\
    (if cur =? 0 then drain names m remove
     else drain names (<[n := i32 (cur - d)]> m) (i32 (remove - d))) = drain names m1 (remove - d)) as (m1 & E1 & E2 & ->).
  { destruct (Z.eqb_spec cur 0) as [E0|E0].
    - exists m. split_and!; [lia|done|]. f_equal. lia.
    - exists (<[n := cur - d]> m). rewrite !i32_id by int_range. split_and!; [apply lookup0_insert| |done].
      intros k Hk. by apply lookup0_insert_ne. }
  assert (forall k, k ∈ names -> lookup0 m1 k = lookup0 m k) as E2' by (intros k Hk; apply E2; intros ->; done).
  assert (sumZ (lookup0 m1) names = sumZ (lookup0 m) names) as Es by (by apply sumZ_ext).
  destruct (IH m1 (remove - d)) as ((removed & Hp & Hl) & F1 & F2); [done|lia| |lia|].
  { intros k Hk. rewrite E2' by done. by apply Hnn'. }
  set (m2 := drain names m1 (remove - d)) in *.
  assert (lookup0 m2 n = cur - d) as Em2 by (by rewrite F1).
  split_and!.
  - exists (removed ++ replicate (Z.to_nat d) n).
    assert (pods m (reverse names) = pods m1 (reverse names)) as Em.
    { apply pods_ext. intros k Hk. symmetry. apply E2'. by apply elem_of_reverse. }
    assert (forall x : gmap string Z, pods x [] = []) as Enil by done.
    rewrite reverse_cons, !pods_app, !(pods_cons _ n), Em2, !Enil, !app_nil_r. fold cur. rewrite Em, Hp.
    rewrite length_app, length_replicate. split; [|lia]. destruct Hdd as [E|E].
    + replace (cur - d) with 0 by lia. rewrite E. simpl. by rewrite app_nil_r, app_assoc.
    + assert (removed = []) as -> by (apply length_zero_iff_nil; lia). rewrite app_nil_r, app_nil_l, <- app_assoc.
      f_equal. rewrite <- replicate_add. f_equal. lia.
  - intros k [? ?]%not_elem_of_cons. rewrite F1 by done. by apply E2.
  - intros k [->|Hk]%elem_of_cons; [rewrite Em2; fold cur; lia|].
    pose proof (F2 k Hk). rewrite E2' in * by done. lia.
Qed.

Lemma StronglySorted_filter {A} (R : relation A) (P : A -> Prop) `{forall a, Decision (P a)} l :
  StronglySorted R l -> StronglySorted R (filter P l).
Proof.
  induction 1 as [|x l Hl IH Hx]; [constructor|]. rewrite filter_cons. case_decide; [|done].
  constructor; [done|]. rewrite Forall_forall in Hx |- *. intros y [_ Hy]%list_elem_of_filter. by apply Hx.
Qed.

(** ** The whole function *)

Record waterfill_ok `{Kubernetes} (app : Application) (scores : gmap string Z) : Prop := {
  wo_replicas : 0 <= desired_replicas app <= max_int32;
  wo_names : NoDup (ct_Name <$> Topology (Status app));
  wo_nonneg : forall t, t ∈ Topology (Status app) -> 0 <= ct_Replicas t;
  wo_total : sumZ ct_Replicas (Topology (Status app)) <= max_int32;
  wo_nonempty : scores ≠ ∅ }.

Section whole.
Context `{G : GoRuntime, !GoRuntimeLaws G, K : Kubernetes}.
Implicit Types (app : Application) (scores : gmap string Z) (s : Snapshot).

Abbreviation topo app := (Topology (Status app)).

Lemma set_of_names_elem (l : list string) (m : gmap string ()) n :
  is_Some (foldl (fun m name => <[name := tt]> m) m l !! n) <-> is_Some (m !! n) \/ n ∈ l.
Proof. apply foldl_set_elem. Qed.

Lemma sorted_clusters_spec scores ex :
  NoDup (sorted_clusters scores ex) /\ StronglySorted String.le (sorted_clusters scores ex) /\
  forall n, n ∈ sorted_clusters scores ex <-> is_Some (scores !! n) \/ is_Some (ex !! n).
Proof.
  unfold sorted_clusters. split_and!.
  - unfold sort_strings. rewrite go_sort_perm. apply range_keys_NoDup.
  - apply sort_strings_sorted.
  - intros n. unfold sort_strings. rewrite go_sort_elem, range_keys_elem, !set_of_names_elem, !range_keys_elem.
    rewrite lookup_empty, is_Some_alt. tauto.
Qed.

Lemma fill_cap_range app scores s n c : 0 <= c <= max_int32 -> 0 <= fill_cap app scores s n c <= max_int32.
Proof.
  intros Hc. unfold fill_cap. destruct (Clusters s !! n).
  - destruct (_ && _) eqn:E; [apply andb_true_iff in E as [?%Z.leb_le ?%Z.ltb_lt]; lia|]. unfold max_int32. lia.
  - destruct (scores !! n); [unfold max_int32; lia|done].
Qed.

(** The current replicas, cluster by cluster in the order of the names. *)
Lemma existing_spec app scores : waterfill_ok app scores ->
  let ex := existing_placement app in let names := sorted_clusters scores ex in
  names ≠ [] /\ (forall n, 0 <= lookup0 ex n) /\ sumZ (lookup0 ex) names = sumZ ct_Replicas (topo app) /\
  (forall t, t ∈ topo app -> lookup0 ex (ct_Name t) = ct_Replicas t /\ ct_Name t ∈ names).
Proof.
  intros [Hr Hnd Hnn Htot Hne]. cbv zeta. set (ex := existing_placement app).
  destruct (sorted_clusters_spec scores ex) as (Hndn & _ & Hel). set (names := sorted_clusters scores ex) in *.
  assert (forall t, t ∈ topo app -> lookup0 ex (ct_Name t) = ct_Replicas t /\ ct_Name t ∈ names) as Ht.
  { intros t Ht. split; [unfold lookup0, ex, existing_placement; by rewrite map_of_lookup|].
    apply Hel. right. apply map_of_is_Some. by apply list_elem_of_fmap_2. }
  assert (forall n, n ∉ ct_Name <$> topo app -> lookup0 ex n = 0) as Habs.
  { intros n Hn. unfold lookup0, ex, existing_placement. by rewrite (proj2 (map_of_lookup_None _ _ _ _) Hn). }
  split_and!.
  - intros E. apply map_choose in Hne as (n & v & Hv).
    assert (n ∈ names) as Hin by (apply Hel; left; by eexists). rewrite E in Hin. by apply elem_of_nil in Hin.
  - intros n. destruct (decide (n ∈ ct_Name <$> topo app)) as [Hin|Hout]; [|by rewrite Habs].
    apply list_elem_of_fmap in Hin as (t & -> & Hin). rewrite (proj1 (Ht t Hin)). by apply Hnn.
  - rewrite <- (sumZ_filter (lookup0 ex) names (fun n => n ∈ ct_Name <$> topo app)) by (intros; by apply Habs).
    assert (filter (fun n => n ∈ ct_Name <$> topo app) names ≡ₚ ct_Name <$> topo app) as ->.
    { apply NoDup_Permutation; [by apply NoDup_filter|done|]. intros n. rewrite list_elem_of_filter.
      split; [by intros [? _]|]. intros Hn. split; [done|]. apply list_elem_of_fmap in Hn as (t & -> & Hn).
      by apply Ht. }
    rewrite sumZ_map. apply sumZ_ext. intros t Hin. by apply Ht.
  - done.
Qed.

(** The placement map the function ends with. *)
Lemma waterfill_result app scores s : waterfill_ok app scores ->
  let ex := existing_placement app in let names := sorted_clusters scores ex in
  let R := desired_replicas app in let C := sumZ ct_Replicas (topo app) in
  exists m', selectClustersStatefulSetWaterfill app scores s = placement_list names m' /\
    (forall n, n ∈ names -> 0 <= lookup0 m' n) /\
    (if C <? R
     then (exists added, pods m' names = pods ex names ++ added /\ Z.of_nat (length added) = R - C) /\
          (forall n, n ∈ names -> last names ≠ Some n ->
             lookup0 m' n <= Z.max (lookup0 ex n) (fill_cap app scores s n (lookup0 ex n)))
     else exists removed, pods ex names = pods m' names ++ removed /\ Z.of_nat (length removed) = C - R).
Proof.
  intros Hok. cbv zeta. destruct (existing_spec app scores Hok) as (Hne & Hnn & Hsum & _).
  destruct Hok as [Hr Hnd Hnnt Htot _]. unfold selectClustersStatefulSetWaterfill.
  rewrite sum32_exact by done. rewrite copy_map_id by done.
  set (ex := existing_placement app) in *. destruct (sorted_clusters_spec scores ex) as (Hndn & _ & _).
  set (names := sorted_clusters scores ex) in *. set (R := desired_replicas app) in *.
  set (C := sumZ ct_Replicas (topo app)) in *. assert (0 <= C) by (by apply sumZ_nonneg).
  destruct (Z.ltb_spec C R).
  - rewrite i32_id by int_range.
    destruct (waterfill_up_spec (fill_cap app scores s) (fill_cap_range app scores s) ex names (R - C))
      as (Hp & Hmono & Hcap); [done|done|lia|by intros; apply Hnn|lia|].
    eexists. split; [done|]. split_and!; [|done|done]. intros n Hn. pose proof (Hmono n Hn). pose proof (Hnn n). lia.
  - destruct (Z.ltb_spec R C).
    + rewrite i32_id by int_range.
      assert (sumZ (lookup0 ex) (reverse names) = C) as Hrs by (by rewrite reverse_Permutation).
      destruct (drain_spec (reverse names) ex (C - R)) as (Hp & _ & Hm);
        [by rewrite reverse_Permutation|lia|by intros; apply Hnn|lia|].
      rewrite reverse_involutive in Hp. eexists. split; [done|]. split; [|done].
      intros n Hn. apply Hm. by apply elem_of_reverse.
    + exists ex. split_and!; [done|by intros; apply Hnn|]. exists []. rewrite app_nil_r. split; [done|simpl; lia].
Qed.

(** A placement sorted by name lists its pods in the order of the clusters. *)
Lemma pods_of_sorted app scores : waterfill_ok app scores -> name_sorted ct_Name (topo app) ->
  pods (existing_placement app) (sorted_clusters scores (existing_placement app)) = pods_of (topo app).
Proof.
  intros Hok Hs. destruct (existing_spec app scores Hok) as (_ & Hnn & _ & Ht).
  set (ex := existing_placement app) in *. destruct (sorted_clusters_spec scores ex) as (Hndn & Hsn & Hel).
  set (names := sorted_clusters scores ex) in *.
  assert (pods ex names = pods ex (filter (fun n => n ∈ ct_Name <$> topo app) names)) as ->.
  { clear -Hok. induction names as [|n names IH]; [done|]. rewrite pods_cons, filter_cons, IH. case_decide as Hin; [done|].
    assert (lookup0 ex n = 0) as ->; [|done]. unfold lookup0, ex, existing_placement.
    by rewrite (proj2 (map_of_lookup_None _ _ _ _) Hin). }
  assert (filter (fun n => n ∈ ct_Name <$> topo app) names = ct_Name <$> topo app) as ->.
  { apply (StronglySorted_unique_strong String.le).
    - intros a b _ _. apply (anti_symm String.le).
    - by apply StronglySorted_filter.
    - unfold name_sorted in Hs. clear -Hs. induction Hs as [|t l Hl IH Ht]; [constructor|].
      rewrite fmap_cons. constructor; [done|]. by apply Forall_fmap.
    - apply NoDup_Permutation; [by apply NoDup_filter|apply (wo_names _ _ Hok)|]. intros n.
      rewrite list_elem_of_filter. split; [by intros [? _]|]. intros Hn. split; [done|].
      apply list_elem_of_fmap in Hn as (t & -> & Hn). by apply Ht. }
  unfold pods, pods_of. assert (forall l, (forall t, t ∈ l -> t ∈ topo app) ->
    ((ct_Name <$> l) ≫= fun n => replicate (Z.to_nat (lookup0 ex n)) n) =
    l ≫= fun t => replicate (Z.to_nat (ct_Replicas t)) (ct_Name t)) as Hgen; [|by apply Hgen].
  induction l as [|t l IH]; intros Hl; [done|]. rewrite fmap_cons, !bind_cons, IH by (intros; apply Hl; by right).
  by rewrite (proj1 (Ht t (Hl t ltac:(by left)))).
Qed.
End whole.

(** ** Properties *)

Section properties.
Context `{G : GoRuntime, !GoRuntimeLaws G, K : Kubernetes}.
Implicit Types (app : Application) (scores : gmap string Z) (s : Snapshot).

Abbreviation topo app := (Topology (Status app)).

(** C20: the waterfill places exactly the wanted number of replicas, and no pod
    changes cluster: counting the pods of a StatefulSet through the clusters in
    the order of their names, a larger placement only appends pods at the end,
    and a smaller one only removes the last pods. *)
Theorem waterfill_never_moves_pods app scores s :
  waterfill_ok app scores -> name_sorted ct_Name (topo app) ->
  let result := selectClustersStatefulSetWaterfill app scores s in
  sumZ ct_Replicas result = desired_replicas app /\ NoDup (ct_Name <$> result) /\
  (if sumZ ct_Replicas (topo app) <? desired_replicas app
   then exists added, pods_of result = pods_of (topo app) ++ added
   else exists removed, pods_of (topo app) = pods_of result ++ removed).
Proof.
  intros Hok Hs result. destruct (waterfill_result app scores s Hok) as (m' & E & Hnn & Hp). subst result. rewrite E.
  destruct (existing_spec app scores Hok) as (_ & Hnn0 & Hsum & _).
  pose proof (pods_of_sorted app scores Hok Hs) as Hpods. rewrite <- Hpods, pods_of_placement.
  set (names := sorted_clusters scores (existing_placement app)) in *.
  assert (NoDup names) as Hnd by apply sorted_clusters_spec. rewrite placement_sum, <- pods_length by done.
  pose proof (pods_length (existing_placement app) names ltac:(intros; apply Hnn0)) as Hl. rewrite Hsum in Hl.
  split_and!.
  - destruct (_ <? _); [destruct Hp as [(added & Hp & Ha) _]|destruct Hp as (removed & Hp & Ha)];
      apply (f_equal length) in Hp; rewrite length_app in Hp; lia.
  - unfold placement_list. rewrite <- list_fmap_compose. unfold compose. cbn [ct_Name]. rewrite list_fmap_id.
    by apply NoDup_filter.
  - destruct (_ <? _); [destruct Hp as [(added & Hp & _) _]; by exists added|destruct Hp as (removed & Hp & _); by exists removed].
Qed.

Lemma sorted_last (names : list string) n x :
  StronglySorted String.le names -> last names = Some n -> x ∈ names -> x = n \/ String.le x n.
Proof.
  intros Hs Hl Hx. apply last_Some in Hl as [l ->]. apply elem_of_app in Hx as [Hx|Hx%list_elem_of_singleton]; [|by left].
  right. apply StronglySorted_app in Hs as (Hall & _ & _). apply (Hall x n); [done|set_solver].
Qed.

(** A growing StatefulSet gives a known cluster no more replicas than it has
    or [CalculateMaxReplicas] allows, except for the last cluster of all, which
    takes whatever fits nowhere. *)
Theorem waterfill_respects_capacity app scores s t info later :
  waterfill_ok app scores -> sumZ ct_Replicas (topo app) < desired_replicas app ->
  t ∈ selectClustersStatefulSetWaterfill app scores s -> Clusters s !! ct_Name t = Some info ->
  0 <= Capacity.CalculateMaxReplicas (Cluster info) app < max_int32 ->
  is_Some (scores !! later) -> String.ltb (ct_Name t) later = true ->
  ct_Replicas t <= Z.max (lookup0 (existing_placement app) (ct_Name t)) (Capacity.CalculateMaxReplicas (Cluster info) app).
Proof.
  intros Hok Hlt Ht Hinfo Hcalc Hlater Hltb.
  destruct (waterfill_result app scores s Hok) as (m' & E & Hnn & Hp). rewrite E in Ht.
  apply Z.ltb_lt in Hlt. rewrite Hlt in Hp. destruct Hp as [_ Hcap].
  unfold placement_list in Ht. apply list_elem_of_fmap in Ht as (n & -> & [Hpos Hn]%list_elem_of_filter).
  cbn [ct_Name ct_Replicas] in *. destruct (sorted_clusters_spec scores (existing_placement app)) as (_ & Hs & Hel).
  set (names := sorted_clusters scores (existing_placement app)) in *.
  assert (last names ≠ Some n) as Hlast.
  { intros Hl. assert (later ∈ names) as Hin by (apply Hel; by left).
    destruct (sorted_last names n later Hs Hl Hin) as [->|Hle]; rewrite ltb_leb in Hltb.
    - assert (String.le n n) as Hr by reflexivity. unfold String.le in Hr. by destruct (String.leb n n).
    - unfold String.le in Hle. by destruct (String.leb later n). }
  pose proof (Hcap n Hn Hlast) as Hb. unfold fill_cap in Hb. rewrite Hinfo in Hb.
  destruct ((0 <=? Capacity.CalculateMaxReplicas (Cluster info) app) &&
            (Capacity.CalculateMaxReplicas (Cluster info) app <? max_int32)) eqn:Ec; [done|].
  apply andb_false_iff in Ec as [?%Z.leb_gt|?%Z.ltb_ge]; lia.
Qed.
End properties.

(** ** Witnesses *)

Definition stateful (n : Z) : Application := sample_app "StatefulSet" "one-cpu" n [mkTopology "b" 2].
Definition stateful_scores : gmap string Z := {[ "a" := 0; "b" := 50; "c" := 50 ]}.
Definition four_cpus : Snapshot :=
  mkSnapshot ((fun n => mkClusterInfo (sample_cluster n ∅ 4) ∅ ∅) <$> {[ "b" := "b"; "c" := "c" ]}) NewSimpleIndexer.

Lemma stateful_ok n : 0 <= n <= 100 -> waterfill_ok (stateful n) stateful_scores.
Proof.
  intros Hn. assert (desired_replicas (stateful n) = n) as En by reflexivity. split.
  - rewrite En. unfold max_int32. lia.
  - apply NoDup_singleton.
  - intros t Ht%list_elem_of_singleton. subst t. simpl. lia.
  - vm_compute. discriminate.
  - unfold stateful_scores. apply insert_non_empty.
Qed.

Lemma waterfill_never_moves_pods_witness :
  sumZ ct_Replicas (selectClustersStatefulSetWaterfill (stateful 9) stateful_scores four_cpus) = 9 /\
  exists added, pods_of (selectClustersStatefulSetWaterfill (stateful 9) stateful_scores four_cpus) = ["b"; "b"] ++ added.
Proof.
  assert (waterfill_ok (stateful 9) stateful_scores) as Hok by (apply stateful_ok; lia).
  assert (name_sorted ct_Name (Topology (Status (stateful 9)))) as Hs by (repeat constructor).
  split; [exact (proj1 (waterfill_never_moves_pods (stateful 9) stateful_scores four_cpus Hok Hs))|].
  exact (proj2 (proj2 (waterfill_never_moves_pods (stateful 9) stateful_scores four_cpus Hok Hs))).
Defined.

Lemma waterfill_respects_capacity_witness :
  mkTopology "b" 4 ∈ selectClustersStatefulSetWaterfill (stateful 9) stateful_scores four_cpus /\
  4 <= Z.max 2 (Capacity.CalculateMaxReplicas (sample_cluster "b" ∅ 4) (stateful 9)).
Proof.
  assert (mkTopology "b" 4 ∈ selectClustersStatefulSetWaterfill (stateful 9) stateful_scores four_cpus) as Hin.
  { assert (selectClustersStatefulSetWaterfill (stateful 9) stateful_scores four_cpus =
      [mkTopology "b" 4; mkTopology "c" 5]) as -> by (vm_compute; reflexivity). left. }
  split; [exact Hin|].
  refine (waterfill_respects_capacity (stateful 9) stateful_scores four_cpus (mkTopology "b" 4)
    (mkClusterInfo (sample_cluster "b" ∅ 4) ∅ ∅) "c" _ _ Hin _ _ _ _).
  - apply stateful_ok. lia.
  - vm_compute. reflexivity.
  - reflexivity.
  - vm_compute. split; [discriminate|reflexivity].
  - eexists. vm_compute. reflexivity.
  - vm_compute. reflexivity.
Defined.
