(* ===== verification/Queue.v ===== *)
(** * The scheduling queue

    queue/queue.go: a client-go workqueue of keys and [activeQ], the application
    each key stands for.  The workqueue is not part of the repository: it is the
    class [Workqueue], whose laws are the documented ones (an item is pending,
    or being processed, or both when it was added again meanwhile).  The invariant
    [queue_inv] says that no application of [activeQ] is forgotten by the
    workqueue: the scheduler keeps it (SchedulerSpec.v). *)

From S2P Require Import Prelude Api.

(** ** The workqueue (k8s.io/client-go/util/workqueue) *)

(** [Get] blocks on an empty queue; after [ShutDown] it reports the shutdown. *)
Inductive get_result (W : Type) :=
| GotItem (key : string) (w : W)
| GotShutdown
| Blocked.
Arguments GotItem {W}. Arguments GotShutdown {W}. Arguments Blocked {W}.

Class Workqueue := {
  workqueue : Type;
  wq_new : workqueue;
  wq_Add : string -> workqueue -> workqueue;
  wq_AddRateLimited : string -> workqueue -> workqueue;
  wq_AddAfter : string -> Z -> workqueue -> workqueue;
  wq_Get : workqueue -> get_result workqueue;
  wq_Done : string -> workqueue -> workqueue;
  wq_Forget : string -> workqueue -> workqueue;
  wq_Len : workqueue -> Z;
  wq_ShutDown : workqueue -> workqueue;
  (** Keys to be handed out, now or after their delay, and keys handed out. *)
  pending : workqueue -> gset string;
  processing : workqueue -> gset string;
  running : workqueue -> bool;
}.

Class WorkqueueLaws (Q : Workqueue) : Prop := {
  new_laws : pending wq_new = ∅ /\ processing wq_new = ∅ /\ running wq_new = true;
  Add_laws k w : running w = true ->
    pending (wq_Add k w) = {[k]} ∪ pending w /\ processing (wq_Add k w) = processing w /\ running (wq_Add k w) = true;
  AddRateLimited_laws k w : running w = true ->
    pending (wq_AddRateLimited k w) = {[k]} ∪ pending w /\ processing (wq_AddRateLimited k w) = processing w /\
    running (wq_AddRateLimited k w) = true;
  AddAfter_laws k d w : running w = true ->
    pending (wq_AddAfter k d w) = {[k]} ∪ pending w /\ processing (wq_AddAfter k d w) = processing w /\
    running (wq_AddAfter k d w) = true;
  Get_laws w k w' : wq_Get w = GotItem k w' ->
    k ∈ pending w /\ (k ∉ processing w) /\ (pending w = {[k]} ∪ pending w') /\
    (processing w' = {[k]} ∪ processing w) /\ running w' = running w;
  Done_laws k w : pending (wq_Done k w) = pending w /\ (processing (wq_Done k w) = processing w ∖ {[k]}) /\
    running (wq_Done k w) = running w;
  Forget_laws k w : pending (wq_Forget k w) = pending w /\ processing (wq_Forget k w) = processing w /\
    running (wq_Forget k w) = running w;
}.

(** ** The scheduling queue (queue.go) *)

(** Both are pointers in the source. *)
Record QueuedApplicationInfo `{Kubernetes} := mkQueued {
  qi_Application : option Application; Attempts : Z }.
Arguments mkQueued {_}.

Record schedulingQueue `{Kubernetes, Workqueue} := mkQueue {
  queue : workqueue;
  activeQ : gmap string (option QueuedApplicationInfo) }.
Arguments mkQueue {_ _}.

(** [time.Duration] in nanoseconds: five minutes. *)
Definition DefaultUnschedulableDelay : Z := 5 * 60 * 1000000000.

Inductive pop_result `{Kubernetes, Workqueue} :=
| Popped (app : Application) (q : schedulingQueue)
| PopError (msg : string) (q : schedulingQueue)
| PopBlocked.

Module SchedulingQueue.
Section queue.
Context `{Kubernetes, Workqueue}.

Definition New : schedulingQueue := mkQueue wq_new ∅.

Definition Add (q : schedulingQueue) (app : Application) : schedulingQueue :=
  let key := appKey app in
  match activeQ q !! key with
  | Some _ => q
  | None => mkQueue (wq_Add key (queue q)) (<[key := Some (mkQueued (Some app) 0)]> (activeQ q))
  end.

Definition AddUnschedulableIfNotPresent (q : schedulingQueue) (app : Application)
    (pInfo : option QueuedApplicationInfo) : schedulingQueue :=
  let key := appKey app in
  match activeQ q !! key with
  | Some _ => q
  | None =>
      let pInfo := (fun p => mkQueued (qi_Application p) (i64 (Attempts p + 1))) <$> pInfo in
      mkQueue (wq_AddRateLimited key (queue q)) (<[key := pInfo]> (activeQ q))
  end.

(** Every item of the queue is a string: the type assertion always succeeds. *)
Definition Pop (q : schedulingQueue) : pop_result :=
  match wq_Get (queue q) with
  | GotShutdown => PopError "queue is shut down" q
  | Blocked => PopBlocked
  | GotItem key w =>
      match activeQ q !! key with
      | Some (Some (mkQueued (Some app) _)) => Popped app (mkQueue w (activeQ q))
      | _ => PopError ("application not found in activeQ: " +:+ key) (mkQueue (wq_Done key w) (activeQ q))
      end
  end.

Definition Done (q : schedulingQueue) (app : Application) : schedulingQueue :=
  mkQueue (wq_Done (appKey app) (queue q)) (activeQ q).

Definition Forget (q : schedulingQueue) (app : Application) : schedulingQueue :=
  mkQueue (wq_Forget (appKey app) (queue q)) (delete (appKey app) (activeQ q)).

Definition Requeue (q : schedulingQueue) (app : Application) : schedulingQueue :=
  mkQueue (wq_AddRateLimited (appKey app) (queue q)) (activeQ q).

(** [delay] is a [time.Duration] or a value of another type. *)
Definition RequeueAfter (q : schedulingQueue) (app : Application) (delay : option Z) : schedulingQueue :=
  mkQueue (wq_AddAfter (appKey app) (default DefaultUnschedulableDelay delay) (queue q)) (activeQ q).

(** A nil entry (left by [AddUnschedulableIfNotPresent]) is dereferenced. *)
Definition Update (q : schedulingQueue) (oldApp newApp : Application) : outcome schedulingQueue :=
  let oldKey := appKey oldApp in
  let newKey := appKey newApp in
  let active := if String.eqb oldKey newKey then activeQ q else delete oldKey (activeQ q) in
  match active !! newKey with
  | Some (Some pInfo) => Ret (mkQueue (queue q) (<[newKey := Some (mkQueued (Some newApp) (Attempts pInfo))]> active))
  | Some None => Panic
  | None => Ret (mkQueue (wq_Add newKey (queue q)) (<[newKey := Some (mkQueued (Some newApp) 0)]> active))
  end.

Definition Delete (q : schedulingQueue) (app : Application) : schedulingQueue :=
  mkQueue (queue q) (delete (appKey app) (activeQ q)).

Definition Len (q : schedulingQueue) : Z := wq_Len (queue q).
Definition Close (q : schedulingQueue) : schedulingQueue := mkQueue (wq_ShutDown (queue q)) (activeQ q).

(** ** Invariant *)

(** An entry is filed under the key of its application. *)
Definition entry_ok (key : string) (e : option QueuedApplicationInfo) : Prop :=
  exists app n, e = Some (mkQueued (Some app) n) /\ appKey app = key.

(** Every application that waits is pending in the workqueue or being processed. *)
Record queue_inv (q : schedulingQueue) : Prop := {
  qi_entries : forall key e, activeQ q !! key = Some e -> entry_ok key e;
  qi_kept : forall key, is_Some (activeQ q !! key) -> key ∈ pending (queue q) \/ key ∈ processing (queue q);
  qi_running : running (queue q) = true }.
End queue.

Section laws.
Context `{K : Kubernetes, Q : Workqueue, !WorkqueueLaws Q}.
Implicit Types (q : schedulingQueue) (app : Application).

Lemma New_inv : queue_inv New.
Proof.
  destruct new_laws as (Hp & Hpr & Hr). split; simpl; [| |done].
  - intros key e. by rewrite lookup_empty.
  - intros key. rewrite lookup_empty. by intros [? ?].
Qed.

Lemma entry_intro app n : entry_ok (appKey app) (Some (mkQueued (Some app) n)).
Proof. by exists app, n. Qed.

(** Filing an application whose key becomes pending. *)
Lemma insert_inv q w e key :
  queue_inv q -> entry_ok key e -> pending w = {[key]} ∪ pending (queue q) -> processing w = processing (queue q) ->
  running w = true -> queue_inv (mkQueue w (<[key := e]> (activeQ q))).
Proof.
  intros [He Hk Hr] Hok Hp Hpr Hw. split; simpl; [| |done].
  - intros k x. rewrite lookup_insert_Some. intros [[<- <-]|[_ ?]]; [done|by apply He].
  - intros k Hin. rewrite Hp, Hpr. destruct (decide (key = k)) as [->|Hne]; [left; set_solver|].
    rewrite lookup_insert_ne in Hin by done. destruct (Hk k Hin); [left; set_solver|by right].
Qed.

Lemma Add_inv q app : queue_inv q -> queue_inv (Add q app).
Proof.
  intros Hq. unfold Add. destruct (activeQ q !! appKey app); [done|].
  destruct (Add_laws (appKey app) (queue q) (qi_running q Hq)) as (? & ? & ?).
  by apply insert_inv; try apply entry_intro.
Qed.

Lemma delete_inv q key : queue_inv q -> queue_inv (mkQueue (queue q) (delete key (activeQ q))).
Proof.
  intros [He Hk Hr]. split; simpl; [| |done].
  - intros k e. rewrite lookup_delete_Some. intros [_ ?]. by apply He.
  - intros k [e Hin]. apply lookup_delete_Some in Hin as [_ Hin]. apply Hk. by eexists.
Qed.

Lemma Delete_inv q app : queue_inv q -> queue_inv (Delete q app).
Proof. apply delete_inv. Qed.

Lemma Update_inv q oldApp newApp : queue_inv q -> exists q', Update q oldApp newApp = Ret q' /\ queue_inv q'.
Proof.
  intros Hq. unfold Update. set (active := if String.eqb _ _ then _ else _).
  assert (queue_inv (mkQueue (queue q) active)) as Ha.
  { subst active. destruct (String.eqb _ _); [by destruct q|by apply delete_inv]. }
  destruct (active !! appKey newApp) as [e|] eqn:E.
  - destruct (qi_entries _ Ha (appKey newApp) e E) as (app & n & -> & Hkey). eexists. split; [done|].
    split; simpl; [| |apply Hq].
    + intros k x. rewrite lookup_insert_Some. intros [[<- <-]|[_ ?]]; [apply entry_intro|by apply (qi_entries _ Ha)].
    + intros k Hin. destruct (decide (appKey newApp = k)) as [<-|Hne].
      * apply (qi_kept _ Ha). by eexists.
      * rewrite lookup_insert_ne in Hin by done. by apply (qi_kept _ Ha).
  - destruct (Add_laws (appKey newApp) (queue q) (qi_running q Hq)) as (Hp & Hpr & Hr).
    eexists. split; [done|]. apply (insert_inv (mkQueue (queue q) active)); [done|apply entry_intro|done|done|done].
Qed.

(** What a successful [Pop] means: the application is the one filed under its
    key, which is now being processed. *)
Lemma Pop_inv q : queue_inv q ->
  match Pop q with
  | Popped app q' => queue_inv q' /\ activeQ q' = activeQ q /\ appKey app ∈ processing (queue q') /\
      (exists n, activeQ q !! appKey app = Some (Some (mkQueued (Some app) n))) /\
      processing (queue q') = {[appKey app]} ∪ processing (queue q)
  | PopError _ q' => queue_inv q' /\ activeQ q' = activeQ q
  | PopBlocked => True
  end.
Proof.
  intros Hq. unfold Pop. destruct (wq_Get (queue q)) as [key w| |] eqn:E; [|done|done].
  destruct (Get_laws _ _ _ E) as (Hk & Hnp & Hp & Hpr & Hr). pose proof Hq as [He Hkept Hrun].
  destruct (activeQ q !! key) as [e|] eqn:Ea.
  - destruct (He key e Ea) as (app & n & -> & <-). split_and!; simpl; [|done|set_solver|by exists n|done].
    split; simpl; [done| |congruence]. intros k Hin. rewrite Hpr. destruct (Hkept k Hin) as [Hin'|]; set_solver.
  - destruct (Done_laws key w) as (Dp & Dpr & Dr). split; [|done]. split; simpl; [done| |congruence].
    intros k Hin. rewrite Dp, Dpr, Hpr. assert (k ≠ key) by (intros ->; rewrite Ea in Hin; by destruct Hin).
    destruct (Hkept k Hin); set_solver.
Qed.

(** The two ways a popped application is let go of: requeued, or forgotten. *)
Lemma requeue_done_inv q app : queue_inv q -> queue_inv (Done (Requeue q app) app).
Proof.
  intros [He Hk Hr]. unfold Done, Requeue. simpl.
  destruct (AddRateLimited_laws (appKey app) (queue q) Hr) as (Hp & Hpr & Hrun).
  destruct (Done_laws (appKey app) (wq_AddRateLimited (appKey app) (queue q))) as (Dp & Dpr & Dr).
  split; simpl; [done| |congruence]. intros k Hin. rewrite Dp, Dpr, Hp, Hpr.
  destruct (decide (k = appKey app)); [left; set_solver|]. destruct (Hk k Hin); set_solver.
Qed.

Lemma forget_done_inv q app : queue_inv q -> queue_inv (Done (Forget q app) app).
Proof.
  intros [He Hk Hr]. unfold Done, Forget. simpl.
  destruct (Forget_laws (appKey app) (queue q)) as (Hp & Hpr & Hrun).
  destruct (Done_laws (appKey app) (wq_Forget (appKey app) (queue q))) as (Dp & Dpr & Dr).
  split; simpl; [| |congruence].
  - intros k e. rewrite lookup_delete_Some. intros [_ ?]. by apply He.
  - intros k [e [Hne Hin]%lookup_delete_Some]. rewrite Dp, Dpr, Hp, Hpr.
    destruct (Hk k ltac:(by eexists)); set_solver.
Qed.
End laws.
End SchedulingQueue.

(** ** A workqueue: first in, first out, delays elapsed at once *)

Record fifo := mkFifo {
  fifo_queue : list string; fifo_dirty : gset string; fifo_processing : gset string; fifo_down : bool }.

Definition fifo_Add (k : string) (w : fifo) : fifo :=
  if fifo_down w then w
  else if decide (k ∈ fifo_dirty w) then w
  else mkFifo (if decide (k ∈ fifo_processing w) then fifo_queue w else fifo_queue w ++ [k])
         ({[k]} ∪ fifo_dirty w) (fifo_processing w) false.

Definition fifo_Get (w : fifo) : get_result fifo :=
  match fifo_queue w with
  | [] => if fifo_down w then GotShutdown else Blocked
  | k :: rest =>
      if decide (k ∈ fifo_dirty w /\ k ∉ fifo_processing w)
      then GotItem k (mkFifo rest (fifo_dirty w ∖ {[k]}) ({[k]} ∪ fifo_processing w) (fifo_down w))
      else Blocked
  end.

Definition fifo_Done (k : string) (w : fifo) : fifo :=
  mkFifo (if decide (k ∈ fifo_dirty w /\ k ∈ fifo_processing w) then fifo_queue w ++ [k] else fifo_queue w)
    (fifo_dirty w) (fifo_processing w ∖ {[k]}) (fifo_down w).

#[export] Instance fifo_workqueue : Workqueue := {|
  workqueue := fifo;
  wq_new := mkFifo [] ∅ ∅ false;
  wq_Add := fifo_Add;
  wq_AddRateLimited := fifo_Add;
  wq_AddAfter k _ := fifo_Add k;
  wq_Get := fifo_Get;
  wq_Done := fifo_Done;
  wq_Forget _ w := w;
  wq_Len w := Z.of_nat (length (fifo_queue w));
  wq_ShutDown w := mkFifo (fifo_queue w) (fifo_dirty w) (fifo_processing w) true;
  pending := fifo_dirty;
  processing := fifo_processing;
  running w := negb (fifo_down w);
|}.

#[export] Instance fifo_laws : WorkqueueLaws fifo_workqueue.
Proof.
  assert (forall k w, negb (fifo_down w) = true ->
    fifo_dirty (fifo_Add k w) = {[k]} ∪ fifo_dirty w /\ fifo_processing (fifo_Add k w) = fifo_processing w /\
    negb (fifo_down (fifo_Add k w)) = true) as Hadd.
  { intros k w Hw. unfold fifo_Add. destruct (fifo_down w) eqn:E; [done|]. case_decide; simpl.
    - rewrite E. split_and!; [set_solver|done|done].
    - done. }
  split; simpl; try done.
  - intros k d w. apply Hadd.
  - intros w k w' Hg. unfold fifo_Get in Hg. destruct (fifo_queue w) as [|x rest]; [by destruct (fifo_down w)|].
    case_decide as Hd; [|done]. injection Hg as <- <-. simpl. destruct Hd as [H1 H2]. split_and!; try done.
    rewrite <- union_difference_singleton_L; done.
Qed.

(** ** The queue and its users *)

Module QueueRuns.
Import SchedulingQueue.

(** Where the (single) scheduler thread is: waiting for an item; with the key of an
    item, before and after an unsuccessful look into [activeQ] (both inside [Pop],
    which holds the queue's lock only to look); scheduling an application; or done
    with it except for the call of [Done]. *)
Inductive phase `{Kubernetes} :=
| Idle
| Taken (key : string)
| Skipping (key : string)
| Working (app : Application)
| Finishing (app : Application).

Section runs.
Context `{K : Kubernetes, Q : Workqueue}.

(** The application filed under a key. *)
Definition filed (q : schedulingQueue) (key : string) : option Application :=
  match activeQ q !! key with Some (Some pInfo) => qi_Application pInfo | _ => None end.

(** The event handlers add, update and delete at any time; the scheduler pops,
    then requeues or forgets, then calls [Done]. *)
Inductive step : schedulingQueue * phase -> schedulingQueue * phase -> Prop :=
| ev_add q p app : step (q, p) (Add q app, p)
| ev_update q p oldApp newApp q' : Update q oldApp newApp = Ret q' -> step (q, p) (q', p)
| ev_delete q p app : step (q, p) (Delete q app, p)
| sched_get q key w : wq_Get (queue q) = GotItem key w -> step (q, Idle) (mkQueue w (activeQ q), Taken key)
| sched_found q key app : filed q key = Some app -> step (q, Taken key) (q, Working app)
| sched_missing q key : filed q key = None -> step (q, Taken key) (q, Skipping key)
| sched_skip q key : step (q, Skipping key) (mkQueue (wq_Done key (queue q)) (activeQ q), Idle)
| sched_requeue q app : step (q, Working app) (Requeue q app, Finishing app)
| sched_forget q app : step (q, Working app) (Forget q app, Finishing app)
| sched_done q app : step (q, Finishing app) (Done q app, Idle).

Definition reachable (s : schedulingQueue * phase) : Prop := rtc step (New, Idle) s.

(** Being processed, for the last time, and pending if it is filed. *)
Definition last_look (q : schedulingQueue) (key : string) : Prop :=
  processing (queue q) = {[key]} /\ (is_Some (activeQ q !! key) -> key ∈ pending (queue q)).

Definition phase_inv (q : schedulingQueue) (p : phase) : Prop :=
  match p with
  | Idle => processing (queue q) = ∅
  | Taken key => processing (queue q) = {[key]}
  | Working app => processing (queue q) = {[appKey app]}
  | Skipping key => last_look q key
  | Finishing app => last_look q (appKey app)
  end.

(** [Pop] without an event in between. *)
Lemma Pop_steps q :
  match Pop q with
  | Popped app q' => rtc step (q, Idle) (q', Working app)
  | PopError _ q' => rtc step (q, Idle) (q', Idle)
  | PopBlocked => True
  end.
Proof.
  unfold Pop. destruct (wq_Get (queue q)) as [key w| |] eqn:E; [|apply rtc_refl|done].
  assert (filed (mkQueue w (activeQ q)) key = None ->
          rtc step (q, Idle) (mkQueue (wq_Done key w) (activeQ q), Idle)) as Hskip.
  { intros Hn. eapply rtc_l; [by apply sched_get|]. eapply rtc_l; [by apply sched_missing|].
    apply rtc_once, (sched_skip (mkQueue w (activeQ q))). }
  unfold filed in Hskip. simpl in Hskip.
  destruct (activeQ q !! key) as [[[[app|] n]|]|] eqn:Ea; try by apply Hskip.
  eapply rtc_l; [by apply sched_get|]. apply rtc_once, sched_found. unfold filed. simpl. by rewrite Ea.
Qed.
End runs.

Section invariant.
Context `{K : Kubernetes, Q : Workqueue, !WorkqueueLaws Q}.

(** An event: processing is untouched, what was pending stays so, and a key that
    is filed anew is pending. *)
Lemma event_phase (q q' : schedulingQueue) (p : phase) :
  processing (queue q') = processing (queue q) -> pending (queue q) ⊆ pending (queue q') ->
  (forall key, is_Some (activeQ q' !! key) -> is_Some (activeQ q !! key) \/ key ∈ pending (queue q')) ->
  phase_inv q p -> phase_inv q' p.
Proof.
  intros Hpr Hp Hnew. assert (forall key, last_look q key -> last_look q' key) as Hlast.
  { intros key [Hproc Hkept]. split; [by rewrite Hpr|]. intros Hin. destruct (Hnew _ Hin); [|done].
    by apply Hp, Hkept. }
  destruct p; simpl; rewrite ?Hpr; auto.
Qed.

Lemma Add_event q app : running (queue q) = true ->
  processing (queue (Add q app)) = processing (queue q) /\ pending (queue q) ⊆ pending (queue (Add q app)) /\
  (forall key, is_Some (activeQ (Add q app) !! key) -> is_Some (activeQ q !! key) \/ key ∈ pending (queue (Add q app))).
Proof.
  intros Hr. unfold Add. destruct (activeQ q !! appKey app) eqn:E; [auto|]. simpl.
  destruct (Add_laws (appKey app) (queue q) Hr) as (-> & -> & _). split_and!; [done|set_solver|].
  intros key [e [[<- _]|[_ ?]]%lookup_insert_Some]; [right; set_solver|left; by eexists].
Qed.

Lemma Update_event q oldApp newApp q' : running (queue q) = true -> Update q oldApp newApp = Ret q' ->
  processing (queue q') = processing (queue q) /\ pending (queue q) ⊆ pending (queue q') /\
  (forall key, is_Some (activeQ q' !! key) -> is_Some (activeQ q !! key) \/ key ∈ pending (queue q')).
Proof.
  intros Hr. unfold Update. set (active := if String.eqb _ _ then _ else _).
  assert (forall k, is_Some (active !! k) -> is_Some (activeQ q !! k)) as Hsub.
  { intros k. subst active. destruct (String.eqb _ _); [done|]. by intros [e [_ ?]%lookup_delete_Some]. }
  destruct (active !! appKey newApp) as [[pInfo|]|] eqn:E; intros [= <-]; simpl.
  - split_and!; [done|done|]. intros key [e [[<- _]|[_ ?]]%lookup_insert_Some]; left; apply Hsub; by eexists.
  - destruct (Add_laws (appKey newApp) (queue q) Hr) as (-> & -> & _). split_and!; [done|set_solver|].
    intros key [e [[<- _]|[_ ?]]%lookup_insert_Some]; [right; set_solver|left; apply Hsub; by eexists].
Qed.

Lemma event_inv q p q' : queue_inv q -> phase_inv q p -> queue_inv q' ->
  (processing (queue q') = processing (queue q) /\ pending (queue q) ⊆ pending (queue q') /\
   (forall key, is_Some (activeQ q' !! key) -> is_Some (activeQ q !! key) \/ key ∈ pending (queue q'))) ->
  queue_inv q' /\ phase_inv q' p.
Proof. intros Hq Hp Hq' (? & ? & ?). split; [done|]. by eapply event_phase. Qed.

Lemma Delete_event (q : schedulingQueue) app :
  processing (queue (Delete q app)) = processing (queue q) /\ pending (queue q) ⊆ pending (queue (Delete q app)) /\
  (forall key, is_Some (activeQ (Delete q app) !! key) ->
     is_Some (activeQ q !! key) \/ key ∈ pending (queue (Delete q app))).
Proof. split_and!; [done|done|]. simpl. intros key [e [_ ?]%lookup_delete_Some]. left. by eexists. Qed.

Lemma get_inv q key w : queue_inv q -> processing (queue q) = ∅ -> wq_Get (queue q) = GotItem key w ->
  queue_inv (mkQueue w (activeQ q)) /\ processing w = {[key]}.
Proof.
  intros [He Hk Hr] Hp E. destruct (Get_laws _ _ _ E) as (_ & _ & Hpend & Hproc & Hrun). rewrite Hp in Hproc.
  split; [split; simpl; [done| |congruence]|set_solver]. intros k Hin. destruct (Hk k Hin); set_solver.
Qed.

Lemma filed_spec q key : queue_inv q ->
  match filed q key with Some app => appKey app = key | None => activeQ q !! key = None end.
Proof.
  intros [He _ _]. unfold filed. destruct (activeQ q !! key) as [e|] eqn:E; [|done].
  by destruct (He key e E) as (app & n & -> & ?).
Qed.

(** [Done] after the last look. *)
Lemma done_inv q key : queue_inv q -> last_look q key ->
  queue_inv (mkQueue (wq_Done key (queue q)) (activeQ q)) /\ processing (wq_Done key (queue q)) = ∅.
Proof.
  intros [He Hk Hr] [Hproc Hkept]. destruct (Done_laws key (queue q)) as (E1 & E2 & E3).
  split; [|rewrite E2, Hproc; set_solver]. split; simpl; [done| |congruence]. intros k Hin. rewrite E1. left.
  destruct (Hk k Hin) as [|Hin']; [done|]. rewrite Hproc in Hin'. apply elem_of_singleton in Hin' as ->. auto.
Qed.

Lemma requeue_inv q app : queue_inv q -> processing (queue q) = {[appKey app]} ->
  queue_inv (Requeue q app) /\ last_look (Requeue q app) (appKey app).
Proof.
  intros [He Hk Hr] Hp. destruct (AddRateLimited_laws (appKey app) (queue q) Hr) as (E1 & E2 & E3).
  unfold last_look. simpl. rewrite E1, E2. split; [|split; [done|set_solver]]. split; simpl; [done| |done].
  intros k Hin. rewrite E1, E2. destruct (Hk k Hin); [left; set_solver|by right].
Qed.

Lemma forget_inv q app : queue_inv q -> processing (queue q) = {[appKey app]} ->
  queue_inv (Forget q app) /\ last_look (Forget q app) (appKey app).
Proof.
  intros Hq Hp. destruct (Forget_laws (appKey app) (queue q)) as (E1 & E2 & E3).
  unfold last_look. simpl. rewrite E2, lookup_delete_eq. split; [|split; [done|by intros [? ?]]].
  pose proof (delete_inv q (appKey app) Hq) as [He Hk Hr]. split; simpl in *; [done| |congruence].
  intros k Hin. rewrite E1, E2. by apply Hk.
Qed.

Lemma run_step_inv q p q' p' : queue_inv q /\ phase_inv q p -> step (q, p) (q', p') -> queue_inv q' /\ phase_inv q' p'.
Proof.
  intros [Hq Hp] Hs. pose proof (qi_running q Hq) as Hr. inversion Hs as
    [? ? app|? ? o n ? E|? ? app|? key w E|? key app E|? key E|? key|? app|? app|? app]; subst; clear Hs.
  - apply (event_inv q); [done|done|by apply Add_inv|by apply Add_event].
  - destruct (Update_inv q o n Hq) as (x & Ex & Hx). rewrite E in Ex. injection Ex as <-.
    apply (event_inv q); [done|done|done|by eapply Update_event].
  - apply (event_inv q); [done|done|by apply Delete_inv|by apply Delete_event].
  - by apply get_inv.
  - split; [done|]. pose proof (filed_spec _ key Hq) as H. rewrite E in H. simpl in *. congruence.
  - split; [done|]. pose proof (filed_spec _ key Hq) as H. rewrite E in H. split; [done|]. rewrite H. by intros [? ?].
  - by apply done_inv.
  - by apply requeue_inv.
  - by apply forget_inv.
  - by apply done_inv.
Qed.

Lemma run_steps_inv s s' : rtc step s s' -> queue_inv s.1 /\ phase_inv s.1 s.2 -> queue_inv s'.1 /\ phase_inv s'.1 s'.2.
Proof. induction 1 as [|[q p] [q' p'] s Hs Hr IH]; [done|]. intros H. apply IH. by apply (run_step_inv q p). Qed.

Lemma run_inv s : reachable s -> queue_inv s.1 /\ phase_inv s.1 s.2.
Proof.
  intros Hr. apply (run_steps_inv _ _ Hr). split; [apply New_inv|]. simpl. by destruct new_laws as (_ & ? & _).
Qed.

(** No waiting application is lost: in every interleaving of the event
    handlers with the scheduler thread, each application of [activeQ] is pending
    in the workqueue, or the scheduler has just taken its key and will find it,
    or it is the one being scheduled; pending for sure when the scheduler is
    idle, so that a later [Pop] hands it out. *)
Theorem waiting_applications_pending q p key :
  reachable (q, p) -> is_Some (activeQ q !! key) ->
  key ∈ pending (queue q) \/ p = Taken key \/ (exists app, p = Working app /\ key = appKey app).
Proof.
  intros Hr Hin. destruct (run_inv _ Hr) as [[_ Hk _] Hp]. simpl in *.
  destruct (Hk key Hin) as [|Hproc]; [by left|].
  assert (forall k, last_look q k -> key ∈ pending (queue q)) as Hlast.
  { intros k [Hpk Hkept]. rewrite Hpk in Hproc. apply elem_of_singleton in Hproc as ->. auto. }
  destruct p as [|k|k|app|app]; simpl in Hp; [set_solver| |eauto| |eauto]; rewrite Hp in Hproc; right.
  - left. f_equal. set_solver.
  - right. exists app. split; [done|set_solver].
Qed.

(** The queue never panics on an update and never hands out a key without an
    application filed under that key: what [Pop] returns is the entry of
    [activeQ], and a key whose entry is gone is skipped with an error. *)
Theorem pop_returns_filed_application q :
  reachable (q, Idle) ->
  (forall oldApp newApp, Update q oldApp newApp ≠ Panic) /\
  match Pop q with
  | Popped app q' => exists n, activeQ q !! appKey app = Some (Some (mkQueued (Some app) n)) /\
      processing (queue q') = {[appKey app]}
  | PopError _ q' => activeQ q' = activeQ q /\ processing (queue q') = ∅
  | PopBlocked => True
  end.
Proof.
  intros Hr. destruct (run_inv _ Hr) as [Hq Hp]. simpl in *. split.
  - intros o n E. destruct (Update_inv q o n Hq) as (x & Ex & _). congruence.
  - pose proof (Pop_inv q Hq) as H. destruct (Pop q) as [app q'|msg q'|] eqn:E; [| |done].
    + destruct H as (_ & _ & _ & [n Hn] & Hproc). exists n. split; [done|]. rewrite Hproc, Hp. set_solver.
    + split; [apply H|]. pose proof (Pop_steps q) as Hs. rewrite E in Hs. by apply (run_steps_inv _ _ Hs).
Qed.

(** An application that is edited while it waits is scheduled in its old
    version: [Add] does nothing for a key that is filed, so the next [Pop] of
    that key still returns the application filed first. *)
Theorem edited_application_is_stale q app app' n popped q' :
  reachable (q, Idle) -> appKey app' = appKey app ->
  activeQ q !! appKey app = Some (Some (mkQueued (Some app) n)) ->
  Pop (Add q app') = Popped popped q' -> appKey popped = appKey app -> popped = app.
Proof.
  intros Hr Hkey Hfiled Hpop Hpk. assert (Add q app' = q) as E by (unfold Add; by rewrite Hkey, Hfiled).
  rewrite E in Hpop. destruct (run_inv _ Hr) as [Hq _]. pose proof (Pop_inv q Hq) as H. rewrite Hpop in H.
  destruct H as (_ & _ & _ & [m Hm] & _). rewrite Hpk, Hfiled in Hm. by injection Hm.
Qed.

(** An application deleted and created again while its first version is
    being scheduled is dropped: the final [Forget] removes the new entry, and
    nothing is filed under the key although the workqueue still holds it. *)
Theorem recreated_application_is_dropped q app app' :
  reachable (q, Working app) -> appKey app' = appKey app ->
  let q' := Done (Forget (Add (Delete q app) app') app) app in
  reachable (q', Idle) /\ activeQ q' !! appKey app' = None /\ appKey app' ∈ pending (queue q').
Proof.
  intros Hr Hkey q'. assert (reachable (q', Idle)) as Hr'.
  { unfold reachable. etransitivity; [exact Hr|]. eapply rtc_l; [apply (ev_delete q (Working app) app)|].
    eapply rtc_l; [apply ev_add|]. eapply rtc_l; [apply sched_forget|]. apply rtc_once, sched_done. }
  split; [done|]. destruct (run_inv _ Hr) as [Hq _]. pose proof (qi_running q Hq) as Hrun.
  subst q'. unfold Done, Forget. simpl. rewrite <- Hkey. split; [apply lookup_delete_eq|].
  destruct (Done_laws (appKey app') (wq_Forget (appKey app') (queue (Add (Delete q app) app')))) as (-> & _ & _).
  destruct (Forget_laws (appKey app') (queue (Add (Delete q app) app'))) as (-> & _ & _).
  unfold Add, Delete. simpl. rewrite <- Hkey, lookup_delete_eq. simpl.
  destruct (Add_laws (appKey app') (queue q) Hrun) as (-> & _ & _). set_solver.
Qed.
End invariant.
End QueueRuns.

(** ** The properties at concrete queues *)

Section demo.
Import SchedulingQueue QueueRuns.

Definition queued_app : Application := sample_app "Deployment" "one-cpu" 3 [].
Definition edited_app : Application := sample_app "Deployment" "two-cpu" 3 [].
Definition queued : schedulingQueue := Add New queued_app.

Lemma queued_reachable : reachable (queued, Idle).
Proof. apply rtc_once, ev_add. Qed.

Lemma queued_pop : exists q', Pop queued = Popped queued_app q'.
Proof. by eexists. Qed.

Lemma waiting_applications_pending_witness :
  reachable (queued, Idle) /\ appKey queued_app ∈ pending (queue queued).
Proof.
  split; [exact queued_reachable|].
  destruct (waiting_applications_pending queued Idle (appKey queued_app)) as [?|[?|[app [? _]]]]; [| |done|done|done].
  - exact queued_reachable.
  - by eexists.
Defined.

Lemma pop_returns_filed_application_witness :
  exists q' n, Pop queued = Popped queued_app q' /\
    activeQ queued !! appKey queued_app = Some (Some (mkQueued (Some queued_app) n)).
Proof.
  destruct queued_pop as [q' E]. exists q'.
  destruct (pop_returns_filed_application queued queued_reachable) as [_ H]. revert H. rewrite E.
  intros (n & Hn & _). by exists n.
Defined.

Lemma edited_application_is_stale_witness :
  exists popped q', Pop (Add queued edited_app) = Popped popped q' /\ Template (Spec popped) = "one-cpu".
Proof.
  destruct (Pop (Add queued edited_app)) as [popped q'|msg q'|] eqn:E; [|discriminate E|discriminate E].
  exists popped, q'. split; [done|]. assert (appKey popped = appKey queued_app) by by injection E as <- _.
  by rewrite (edited_application_is_stale queued queued_app edited_app 0 popped q' queued_reachable eq_refl eq_refl E).
Defined.

Lemma recreated_application_is_dropped_witness :
  exists q, reachable (q, Working queued_app) /\
    activeQ (Done (Forget (Add (Delete q queued_app) edited_app) queued_app) queued_app) !! appKey edited_app = None.
Proof.
  destruct queued_pop as [q' E]. exists q'.
  assert (reachable (q', Working queued_app)) as Hr.
  { unfold reachable. etransitivity; [exact queued_reachable|]. pose proof (Pop_steps queued) as H.
    by rewrite E in H. }
  split; [exact Hr|]. exact (proj1 (proj2 (recreated_application_is_dropped q' queued_app edited_app Hr eq_refl))).
Defined.
End demo.
