(* ===== verification/Prefilter.v ===== *)
(** * The affinity pre-filter of the scheduler

    [prefilterByAffinity] and [prefilterByTermUsingIndexer] (scheduler.go) use the
    label index to look only at clusters that can match the required affinity.
    It is an optimisation: [prefilter_preserves_feasibility] shows, against the
    interface [LabelIndex], that it keeps every cluster the Affinity plugin
    accepts. *)

From S2P Require Import Prelude GoRuntime Api Framework Indexer Cache Plugins.

Section prefilter.
Context `{GoRuntime, Kubernetes}.

Definition set_of (l : list string) : gmap string () := foldl (fun s n => <[n := tt]> s) ∅ l.

Definition getAllClusterInfosFromSnapshot (s : Snapshot) : list ClusterInfo := (go_range 60 (Clusters s)).*2.

(** The clusters an expression allows; [None]: the operator cannot be indexed. *)
Definition expr_matches (ix : SimpleIndexer) (expr : NodeSelectorRequirement) : option (list string) :=
  if String.eqb (req_Operator expr) "In" then
    let matchSet := foldl (fun s val => foldl (fun s name => <[name := tt]> s) s
      (GetClustersByLabel ix (req_Key expr) val)) ∅ (req_Values expr) in
    Some (range_keys 61 matchSet)
  else if String.eqb (req_Operator expr) "Exists" then Some (GetClustersByLabelKey ix (req_Key expr))
  else None.

(** [newSet]: the matches that are candidates already. *)
Definition intersect (candidateSet : gmap string ()) (matches : list string) : gmap string () :=
  foldl (fun newSet name =>
    match candidateSet !! name with Some _ => <[name := tt]> newSet | None => newSet end) ∅ matches.

(** The loop over the expressions; [candidateSet] is [None] until [initialized]. *)
Fixpoint term_loop (ix : SimpleIndexer) (exprs : list NodeSelectorRequirement)
    (candidateSet : option (gmap string ())) : option (list string) :=
  match exprs with
  | [] => range_keys 62 <$> candidateSet
  | expr :: rest =>
      match expr_matches ix expr with
      | None => term_loop ix rest candidateSet
      | Some matches =>
          let candidateSet :=
            match candidateSet with None => set_of matches | Some set => intersect set matches end in
          if decide (candidateSet = ∅) then Some [] else term_loop ix rest (Some candidateSet)
      end
  end.

(** [None] is the nil slice: the term cannot be optimised. *)
Definition prefilterByTermUsingIndexer (term : NodeSelectorTerm) (s : Snapshot) : option (list string) :=
  match MatchExpressions term with
  | [] => None
  | exprs => term_loop (snap_Indexer s) exprs None
  end.

(** The loop over the terms; [None]: all clusters are to be considered. *)
Fixpoint terms_loop (s : Snapshot) (terms : list NodeSelectorTerm) (allCandidates : option (gmap string ()))
    : option (gmap string ()) :=
  match terms with
  | [] => allCandidates
  | term :: rest =>
      match MatchFields term with
      | _ :: _ => None
      | [] =>
          match prefilterByTermUsingIndexer term s with
          | None => None
          | Some termCandidates =>
              terms_loop s rest (Some (foldl (fun s n => <[n := tt]> s) (default ∅ allCandidates) termCandidates))
          end
      end
  end.

Definition prefilterByAffinity (app : Application) (s : Snapshot) : list ClusterInfo :=
  match ClusterAffinity (Spec app) with
  | None => (go_range 63 (Clusters s)).*2
  | Some affinity =>
      match Required affinity with
      | None => (go_range 63 (Clusters s)).*2
      | Some [] => getAllClusterInfosFromSnapshot s
      | Some terms =>
          match terms_loop s terms None with
          | None => getAllClusterInfosFromSnapshot s
          | Some allCandidates => omap (fun name => Clusters s !! name) (range_keys 64 allCandidates)
          end
      end
  end.
End prefilter.

Section soundness.
Context `{G : GoRuntime, !GoRuntimeLaws G, K : Kubernetes}.
Context (s : Snapshot) (labels_of : string -> option Labels) `{!LabelIndex (snap_Indexer s) labels_of}.
Implicit Types (name : string) (set : gmap string ()).

Lemma set_of_elem l name : is_Some (set_of l !! name) <-> name ∈ l.
Proof. unfold set_of. rewrite foldl_set_elem, lookup_empty. split; [|tauto]. by intros [[? ?]|]. Qed.

Lemma intersect_elem set l name : is_Some (intersect set l !! name) <-> is_Some (set !! name) /\ name ∈ l.
Proof.
  unfold intersect. enough (forall acc, is_Some (foldl (fun newSet n =>
    match set !! n with Some _ => <[n := tt]> newSet | None => newSet end) acc l !! name) <->
    is_Some (acc !! name) \/ (is_Some (set !! name) /\ name ∈ l)) as ->.
  { rewrite lookup_empty. split; [|tauto]. by intros [[? ?]|]. }
  induction l as [|n l IH]; intros acc; simpl; [rewrite elem_of_nil; tauto|].
  rewrite IH, elem_of_cons. destruct (set !! n) eqn:E.
  - rewrite lookup_insert_is_Some. destruct (decide (n = name)) as [->|]; naive_solver.
  - split; [tauto|]. intros [|[? [->|?]]]; [tauto| |tauto]. rewrite E in *. by destruct H.
Qed.

(** A cluster whose labels satisfy the expression is among its matches. *)
Lemma expr_matches_complete expr l name ls :
  expr_matches (snap_Indexer s) expr = Some l -> labels_of name = Some ls -> Affinity.satisfies expr ls -> name ∈ l.
Proof.
  unfold expr_matches, Affinity.satisfies. intros Hm Hls Hsat.
  destruct (String.eqb_spec (req_Operator expr) "In") as [Ho|_]; [|destruct (String.eqb_spec (req_Operator expr) "Exists") as [Ho|_]].
  - rewrite Ho in Hsat. destruct Hsat as [(_ & v & Hv & Hin)|Hsat]; [|naive_solver]. injection Hm as <-.
    apply range_keys_elem.
    enough (forall vals (acc : gmap string ()), is_Some (acc !! name) \/ v ∈ vals ->
      is_Some (foldl (fun m val => foldl (fun s n => <[n := tt]> s) m
        (GetClustersByLabel (snap_Indexer s) (req_Key expr) val)) acc vals !! name)) as Hloop by (apply Hloop; by right).
    induction vals as [|w vals IH]; intros acc; simpl; [rewrite elem_of_nil; tauto|].
    rewrite elem_of_cons. intros Hc. apply IH. rewrite foldl_set_elem.
    destruct Hc as [?|[<-|?]]; [tauto| |tauto]. left. right. apply index_value. eauto.
  - rewrite Ho in Hsat. injection Hm as <-. apply index_key. exists ls. split; [done|]. naive_solver.
  - done.
Qed.

Lemma term_loop_complete exprs cs l name ls :
  term_loop (snap_Indexer s) exprs cs = Some l -> labels_of name = Some ls ->
  (forall expr, expr ∈ exprs -> Affinity.satisfies expr ls) ->
  (forall set, cs = Some set -> is_Some (set !! name)) -> name ∈ l.
Proof.
  intros Hl Hls. revert cs Hl. induction exprs as [|expr rest IH]; simpl; intros cs Hl Hsat Hcs.
  - destruct cs as [set|]; [|done]. injection Hl as <-. apply range_keys_elem. by apply Hcs.
  - assert (forall e, e ∈ rest -> Affinity.satisfies e ls) as Hrest by (intros; apply Hsat; by right).
    destruct (expr_matches (snap_Indexer s) expr) as [ms|] eqn:Em; [|by apply (IH cs)].
    pose proof (expr_matches_complete expr ms name ls Em Hls (Hsat expr ltac:(by left))) as Hin.
    set (cs' := match cs with None => _ | Some _ => _ end) in Hl.
    assert (is_Some (cs' !! name)) as Hname.
    { subst cs'. destruct cs as [set|]; [apply intersect_elem|apply set_of_elem]; auto. }
    destruct (decide (cs' = ∅)) as [->|_].
    + rewrite lookup_empty in Hname. by destruct Hname.
    + apply (IH (Some cs') Hl Hrest). by intros set [= <-].
Qed.

Lemma terms_loop_keeps terms acc set name :
  terms_loop s terms (Some acc) = Some set -> is_Some (acc !! name) -> is_Some (set !! name).
Proof.
  revert acc; induction terms as [|t rest IH]; simpl; intros acc; [by intros [= <-]|].
  destruct (MatchFields t); [|done]. destruct (prefilterByTermUsingIndexer t s); [|done].
  intros Hs Ha. apply (IH _ Hs). apply foldl_set_elem. by left.
Qed.

Lemma terms_loop_complete terms acc set name ls :
  terms_loop s terms acc = Some set -> labels_of name = Some ls ->
  (exists t, t ∈ terms /\ Affinity.term_holds t ls) -> is_Some (set !! name).
Proof.
  intros Hs Hls. revert acc Hs; induction terms as [|t rest IH]; simpl; intros acc Hs (t' & Ht & Hh);
    [by apply elem_of_nil in Ht|].
  destruct (MatchFields t) eqn:Ef; [|done]. destruct (prefilterByTermUsingIndexer t s) as [tc|] eqn:Et; [|done].
  apply elem_of_cons in Ht as [->|Ht]; [|apply (IH _ Hs); by exists t'].
  apply (terms_loop_keeps _ _ _ _ Hs). apply foldl_set_elem. right.
  unfold prefilterByTermUsingIndexer in Et. destruct (MatchExpressions t) as [|e es] eqn:Ee; [done|].
  eapply term_loop_complete; [exact Et|exact Hls| |done].
  intros expr He. apply Hh. rewrite Ee. apply elem_of_app. by left.
Qed.

Lemma all_infos_elem site info : info ∈ (go_range site (Clusters s)).*2 <-> exists name, Clusters s !! name = Some info.
Proof.
  rewrite list_elem_of_fmap. split.
  - intros ([n i] & -> & Hn). exists n. by apply range_elem in Hn.
  - intros [n Hn]. exists (n, info). split; [done|]. by apply range_elem.
Qed.

(** Nothing but clusters of the snapshot. *)
Lemma prefilter_sub app info : info ∈ prefilterByAffinity app s -> exists name, Clusters s !! name = Some info.
Proof.
  unfold prefilterByAffinity, getAllClusterInfosFromSnapshot.
  destruct (ClusterAffinity (Spec app)) as [a|]; [|apply all_infos_elem].
  destruct (Required a) as [[|t ts]|]; [apply all_infos_elem| |apply all_infos_elem].
  destruct (terms_loop s (t :: ts) None); [|apply all_infos_elem].
  rewrite list_elem_of_omap. intros (n & _ & Hn). by exists n.
Qed.

(** Every cluster the Affinity plugin accepts. *)
Lemma prefilter_complete app name info state :
  Clusters s !! name = Some info -> labels_of name = Some (mc_Labels (Cluster info)) ->
  IsSuccess (Affinity.Filter state app (Cluster info)) = true -> info ∈ prefilterByAffinity app s.
Proof.
  intros Hn Hls. unfold Affinity.Filter, prefilterByAffinity, getAllClusterInfosFromSnapshot.
  assert (forall site, info ∈ (go_range site (Clusters s)).*2) as Hall by (intros; apply all_infos_elem; eauto).
  destruct (ClusterAffinity (Spec app)) as [a|]; [|auto]. destruct (Required a) as [[|t ts]|]; [auto| |auto].
  destruct (terms_loop s (t :: ts) None) as [set|] eqn:Es; [|auto].
  destruct (existsb _ (t :: ts)) eqn:Ex; [|done]. intros _. apply existsb_exists in Ex as (t' & Ht & Hm).
  apply Affinity.matchNodeSelectorTerm_iff in Hm. apply list_elem_of_omap. exists name. split; [|done].
  apply range_keys_elem. apply (terms_loop_complete _ _ _ _ _ Es Hls). exists t'. by rewrite list_elem_of_In.
Qed.

(** No cluster twice, when each is filed under its name. *)
Lemma prefilter_NoDup app :
  (forall name info, Clusters s !! name = Some info -> mc_Name (Cluster info) = name) ->
  NoDup ((fun info => mc_Name (Cluster info)) <$> prefilterByAffinity app s).
Proof.
  intros Hname. assert (forall l : list (string * ClusterInfo), NoDup l.*1 ->
    (forall kv, kv ∈ l -> Clusters s !! kv.1 = Some kv.2) -> NoDup ((fun info => mc_Name (Cluster info)) <$> l.*2)) as Hl.
  { intros l Hnd Hin. replace ((fun info => mc_Name (Cluster info)) <$> l.*2) with (l.*1); [done|].
    rewrite <- list_fmap_compose. apply list_fmap_ext. intros i kv Hkv. simpl. symmetry. apply Hname, Hin.
    by eapply list_elem_of_lookup_2. }
  assert (forall site, NoDup ((fun info => mc_Name (Cluster info)) <$> (go_range site (Clusters s)).*2)) as Hall.
  { intros site. apply Hl; [apply range_keys_NoDup|]. intros [n i] Hni. by apply range_elem in Hni. }
  unfold prefilterByAffinity, getAllClusterInfosFromSnapshot.
  destruct (ClusterAffinity (Spec app)) as [a|]; [|auto]. destruct (Required a) as [[|t ts]|]; [auto| |auto].
  destruct (terms_loop s (t :: ts) None) as [set|]; [|auto].
  pose proof (range_keys_NoDup 64 set) as Hnd. induction (range_keys 64 set) as [|n ns IH]; simpl; [constructor|].
  apply NoDup_cons in Hnd as [Hn Hnd]. destruct (Clusters s !! n) as [info|] eqn:E; [|by apply IH].
  simpl. apply NoDup_cons. split; [|by apply IH]. rewrite (Hname n info E).
  intros (i & Ei & Hi)%list_elem_of_fmap. apply list_elem_of_omap in Hi as (m & Hm & Em).
  apply Hn. rewrite Ei, (Hname m i Em). exact Hm.
Qed.
End soundness.

(** ** The snapshot of a reachable cache *)

Section snapshot_index.
Context `{G : GoRuntime, !GoRuntimeLaws G, K : Kubernetes, !KubernetesLaws K}.

Lemma snapshot_name c name info :
  cache_inv c -> Clusters (snapshot c) !! name = Some info -> mc_Name (Cluster info) = name.
Proof.
  intros Hi. rewrite snapshot_clusters, fmap_Some. intros (i & Hn & ->).
  rewrite (proj1 (snapshot_info_cluster i)). apply (inv_info c Hi name i Hn).
Qed.

(** The index of the snapshot answers for the clusters of the snapshot. *)
Lemma snapshot_label_index c : cache_inv c ->
  LabelIndex (snap_Indexer (snapshot c))
    (fun name => (fun info => mc_Labels (Cluster info)) <$> Clusters (snapshot c) !! name).
Proof.
  intros Hi. assert (forall name, (fun info => mc_Labels (Cluster info)) <$> Clusters (snapshot c) !! name =
    clusterLabels (snap_Indexer (snapshot c)) !! name) as E.
  { intros name. rewrite snapshot_clusters, <- option_fmap_compose. simpl snap_Indexer. rewrite Clone_id, (inv_labels c Hi).
    destruct (clusters c !! name) as [i|]; [|done].
    cbn -[snapshot_info]. by rewrite (proj2 (snapshot_info_cluster i)). }
  destruct (wf_label_index (snap_Indexer (snapshot c))) as [Hv Hk].
  { simpl. rewrite Clone_id. apply (inv_index c Hi). }
  split; intros name key; [intros value; rewrite Hv|rewrite Hk]; by rewrite E.
Qed.

Lemma prefilter_complete_snapshot c app name info state :
  cache_inv c -> Clusters (snapshot c) !! name = Some info ->
  IsSuccess (Affinity.Filter state app (Cluster info)) = true -> info ∈ prefilterByAffinity app (snapshot c).
Proof.
  intros Hi Hn Hf. pose proof (snapshot_label_index c Hi).
  eapply prefilter_complete; [done|exact Hn| |exact Hf]. cbv beta. by rewrite Hn.
Qed.

(** C21: the index changes nothing but the work: in the snapshot of any reachable
    cache, with the Affinity plugin among the filters, the clusters that pass
    the filters are the same whether all clusters of the snapshot are looked at
    or only those [prefilterByAffinity] returns, and it returns none twice. *)
Theorem prefilter_preserves_feasibility c f state app info :
  reachable c -> Affinity.NewFilter ∈ filterPlugins f ->
  (IsSuccess (RunFilterPlugins f state app (Cluster info)) = true ->
   info ∈ prefilterByAffinity app (snapshot c) <-> exists name, Clusters (snapshot c) !! name = Some info) /\
  NoDup ((fun i => mc_Name (Cluster i)) <$> prefilterByAffinity app (snapshot c)).
Proof.
  intros Hr Hf. apply reachable_inv in Hr. split.
  - intros Hs. split; [apply prefilter_sub|]. intros [name Hn].
    eapply prefilter_complete_snapshot; [done|exact Hn|]. unfold RunFilterPlugins in Hs.
    apply run_filters_ok_iff in Hs. rewrite Forall_forall in Hs. exact (Hs _ Hf).
  - apply prefilter_NoDup. intros name i. by apply snapshot_name.
Qed.
End snapshot_index.

(** Two zones, and an application that requires the first one. *)
Definition zone_app : Application :=
  mkApplication no_identity "web" "team" "1" ∅ ∅
    (mkAppSpec (mkGVK "apps/v1" "Deployment") None (Some 1) "one-cpu" "" None None
      (Some (mkNodeAffinity (Some [mkTerm [mkReq "zone" "In" ["z1"]; mkReq "zone" "Exists" []] []]) [])) [] [] None None)
    (mkAppStatus "" "" 0 0 [] [] [] 0 []).
Definition zone_cache : clusterCache :=
  unwrap NewCache (AddCluster demo_added (sample_cluster "b" {[ "zone" := "z2" ]} 8)).
Definition affinity_only : frameworkImpl := mkFramework [Affinity.NewFilter] [] ∅.

Lemma zone_reachable : reachable zone_cache.
Proof.
  apply (rtc_l _ _ demo_added).
  - apply (step_add _ (sample_cluster "a" {[ "zone" := "z1" ]} 8)). by apply unwrap_ok.
  - apply rtc_once. apply (step_add _ (sample_cluster "b" {[ "zone" := "z2" ]} 8)). by apply unwrap_ok.
Qed.

Lemma prefilter_preserves_feasibility_witness :
  (forall info, Clusters (snapshot zone_cache) !! "a" = Some info -> info ∈ prefilterByAffinity zone_app (snapshot zone_cache)) /\
  (fun info => mc_Name (Cluster info)) <$> prefilterByAffinity zone_app (snapshot zone_cache) = ["a"].
Proof.
  split; [|vm_compute; reflexivity]. intros info Hi.
  apply (prefilter_preserves_feasibility zone_cache affinity_only ∅ zone_app info zone_reachable).
  - by left.
  - assert ((fun i => IsSuccess (RunFilterPlugins affinity_only ∅ zone_app (Cluster i)))
              <$> Clusters (snapshot zone_cache) !! "a" = Some true) as Hn by (vm_compute; reflexivity).
    rewrite Hi in Hn. by injection Hn.
  - by exists "a".
Defined.
