(* ===== verification/Scheduler.v ===== *)
(** * The scheduler

    scheduler.go: one scheduling cycle, from the pop of an application to its
    binding, as a function of the scheduler's state: the cache, the queue, the API
    server and the framework.  The API server is the class [ApiClient]; a call may
    find it changed by others, so every call gives a new state. *)

From S2P Require Import Prelude GoRuntime Api Clients Framework Indexer Cache Plugins Spread Waterfill Queue Prefilter.

(** ** The state *)

Record Scheduler `{Kubernetes, ApiErrors, !ApiClient, !Workqueue} := mkScheduler {
  s_client : api;
  s_cache : clusterCache;
  s_queue : schedulingQueue;
  s_framework : frameworkImpl;
  s_config : SchedulerConfig }.
Arguments mkScheduler {_ _ _ _}.

Definition DefaultTopologyKey : string := "topology.kubernetes.io/zone".

Section scheduler.
Context `{GoRuntime, Kubernetes, ApiErrors, !ApiClient, !Workqueue}.

(** ** NewSchedulerWithConfig *)

Definition filter_plugin (pc : PluginConfig) : option FilterPlugin :=
  if negb (Enabled pc) then None
  else if String.eqb (pc_Name pc) "Health" then Some Health.New
  else if String.eqb (pc_Name pc) "Affinity" then Some Affinity.NewFilter
  else if String.eqb (pc_Name pc) "TaintToleration" then Some Taints.New
  else if String.eqb (pc_Name pc) "Capacity" then Some Capacity.New
  else if String.eqb (pc_Name pc) "VolumeRestriction" then Some VolumeRestriction.New
  else None.

Definition score_plugin (pc : PluginConfig) : option ScorePlugin :=
  if negb (Enabled pc) then None
  else if String.eqb (pc_Name pc) "Affinity" then Some Affinity.NewScore
  else if String.eqb (pc_Name pc) "Resource" then
    Some (match Args pc !! "strategy" with
          | Some (AnyString strategy) => Resource.NewWithStrategy strategy
          | _ => Resource.New
          end)
  else if String.eqb (pc_Name pc) "TopologySpread" then
    Some (match Args pc !! "topologyKey" with
          | Some (AnyString key) => TopologySpread.NewWithTopologyKey key
          | _ => TopologySpread.New
          end)
  else None.

Definition framework_of (config : SchedulerConfig) : frameworkImpl :=
  NewFrameworkWithConfig (omap filter_plugin (cfg_FilterPlugins config))
    (omap score_plugin (cfg_ScorePlugins config)) (Some config).

Definition NewSchedulerWithConfig (client : api) (cache : clusterCache) (queue : schedulingQueue)
    (config : option SchedulerConfig) : Scheduler :=
  let config := default DefaultSchedulerConfig config in
  mkScheduler client cache queue (framework_of config) config.

Definition NewScheduler (client : api) (cache : clusterCache) (queue : schedulingQueue) : Scheduler :=
  NewSchedulerWithConfig client cache queue None.

(** *** The configuration of cmd/manager/manager.go

    The flag scheduler-resource-strategy is the strategy of the first plugin of this name. *)

Fixpoint set_strategy (strategy : string) (plugins : list PluginConfig) : list PluginConfig :=
  match plugins with
  | [] => []
  | pc :: plugins =>
      if String.eqb (pc_Name pc) "Resource"
      then mkPluginConfig (pc_Name pc) (Weight pc) (Enabled pc) (<["strategy" := AnyString strategy]> (Args pc)) :: plugins
      else pc :: set_strategy strategy plugins
  end.
Definition manager_config (schedulerResourceStrategy : string) : SchedulerConfig :=
  let c := DefaultSchedulerConfig in
  if String.eqb schedulerResourceStrategy "" then c else
  mkSchedulerConfig (cfg_FilterPlugins c) (set_strategy schedulerResourceStrategy (cfg_ScorePlugins c)) (Strategy c) (cfg_SpreadConstraints c).

(** ** Parts of a cycle *)

Definition getAllClustersFromSnapshot (s : Snapshot) : list ManagedCluster :=
  Cluster <$> (go_range 70 (Clusters s)).*2.

Definition getTopologyKey (config : SchedulerConfig) : string :=
  let keys := omap (fun pc =>
    if String.eqb (pc_Name pc) "TopologySpread" then
      match Args pc !! "topologyKey" with
      | Some (AnyString key) => if String.eqb key "" then None else Some key
      | _ => None
      end
    else None) (cfg_ScorePlugins config) in
  default DefaultTopologyKey (head keys).

(** [assumedApps[appKey][clusterName] = assumed.Replicas] *)
Definition assumed_apps (s : Snapshot) : gmap string (gmap string Z) :=
  foldl (fun m '(clusterName, info) =>
    foldl (fun m '(appKey, assumed) =>
      <[appKey := <[clusterName := assumed_Replicas assumed]> (default ∅ (m !! appKey))]> m)
      m (go_range 72 (AssumedApplications info))) ∅ (go_range 71 (Clusters s)).

Definition committed_placements (items : list Application) : list ClusterTopology :=
  mjoin ((fun app => if String.eqb (SchedulingPhase (Status app)) Scheduled then Topology (Status app) else [])
           <$> items).

Definition committed_keys (items : list Application) : gmap string () :=
  foldl (fun m app => if String.eqb (SchedulingPhase (Status app)) Scheduled then <[appKey app := tt]> m else m)
    ∅ items.

(** The placements given the listed applications (none when the list failed). *)
Definition existing_placements (items : list Application) (s : Snapshot) : list ClusterTopology :=
  committed_placements items ++
  mjoin ((fun '(key, clusterReplicas) =>
    match committed_keys items !! key with
    | Some _ => []
    | None => (fun '(clusterName, replicas) => mkTopology clusterName replicas) <$> go_range 74 clusterReplicas
    end) <$> go_range 73 (assumed_apps s)).

Definition gatherExistingPlacements (client : api) (s : Snapshot) : api * list ClusterTopology :=
  let '(client, listed) := api_List client in
  (client, existing_placements (unwrap [] listed) s).

(** The best score, the first name among equals, none below 0. *)
Definition best_step (scores : gmap string Z) (best : string * Z) (cluster : string) : string * Z :=
  let '(selected, maxScore) := best in
  let score := lookup0 scores cluster in
  if maxScore <? score then (cluster, score) else (selected, maxScore).

Definition selectCluster (scores : gmap string Z) : string :=
  (foldl (best_step scores) ("", -1) (sort_strings (range_keys 75 scores))).1.

(** The latest version with the new placement and phase. *)
Definition bound_app (latestApp : Application) (placement : list ClusterTopology) : Application :=
  let st := Status latestApp in
  mkApplication (app_Identity latestApp) (app_Name latestApp) (app_Namespace latestApp) (app_ResourceVersion latestApp)
    (app_Labels latestApp) (app_Annotations latestApp) (Spec latestApp)
    (mkAppStatus Scheduled (HealthPhase st) (GlobalReadyReplicas st) (GlobalReplicas st) placement
       (AppliedClusters st) (ClustersStatus st) (ObservedGeneration st) (Conditions st)).

(** [err] of [bind]: the read or the update failed. *)
Definition bind (client : api) (app : Application) (placement : list ClusterTopology) : api * option string :=
  let '(client, got) := api_Get (app_Namespace app) (app_Name app) client in
  match got with
  | Err err => (client, Some err)
  | Ok latestApp => api_StatusUpdate (bound_app latestApp placement) client
  end.

(** The error of an assumption is only logged. *)
Definition assume_all (c : clusterCache) (app : Application) (placement : list ClusterTopology) : clusterCache :=
  foldl (fun c p => unwrap c (AssumeApplication c app (ct_Name p) (ct_Replicas p))) c placement.

Definition cycle_strategy (config : SchedulerConfig) (app : Application) : string :=
  match app_Annotations app !! AnnotationSchedulerStrategy with
  | Some val =>
      if String.eqb val StrategySpread || String.eqb val StrategySingleCluster then val else Strategy config
  | None => Strategy config
  end.

Definition select_placement (config : SchedulerConfig) (app : Application) (scores : gmap string Z) (s : Snapshot)
    : outcome (list ClusterTopology) :=
  if String.eqb (cycle_strategy config app) StrategySpread then
    if String.eqb (Kind (Workload (Spec app))) "StatefulSet"
    then Ret (selectClustersStatefulSetWaterfill app scores s)
    else selectClustersSpread (cfg_SpreadConstraints config) app scores
  else Ret [mkTopology (selectCluster scores) (desired_replicas app)].

Definition feasible_clusters (f : frameworkImpl) (app : Application) (s : Snapshot) : list ManagedCluster :=
  filter (fun cluster => IsSuccess (RunFilterPlugins f NewCycleState app cluster) = true)
    (Cluster <$> prefilterByAffinity app s).

(** ** A cycle *)

(** [requeue]: the application is left for a later attempt. *)
Definition requeue (s : Scheduler) (client : api) (app : Application) : Scheduler :=
  mkScheduler client (s_cache s) (SchedulingQueue.Requeue (s_queue s) app) (s_framework s) (s_config s).

(** From the snapshot to the binding; the label is [scheduleResult]. *)
Definition schedule_app (s : Scheduler) (app : Application) : outcome (string * Scheduler) :=
  let snap := snapshot (s_cache s) in
  if decide (Clusters snap = ∅) then Ret ("unschedulable", requeue s (s_client s) app)
  else
    match feasible_clusters (s_framework s) app snap with
    | [] => Ret ("unschedulable", requeue s (s_client s) app)
    | feasibleClusters =>
        let '(client, existingPlacements) := gatherExistingPlacements (s_client s) snap in
        let state := TopologySpread.UpdateTopologyDistribution NewCycleState (getAllClustersFromSnapshot snap)
                       existingPlacements (getTopologyKey (s_config s)) in
        match RunScorePlugins (s_framework s) state app feasibleClusters with
        | inr status => Ret ("error", requeue s client app)
        | inl scores =>
            placement ← select_placement (s_config s) app scores snap;
            match placement with
            | [] => Ret ("unschedulable", requeue s client app)
            | _ =>
                let '(client, err) := bind client app placement in
                match err with
                | Some _ => Ret ("error", requeue s client app)
                | None => Ret ("success",
                    mkScheduler client (assume_all (s_cache s) app placement)
                      (SchedulingQueue.Forget (s_queue s) app) (s_framework s) (s_config s))
                end
            end
        end
    end.

Definition with_queue (s : Scheduler) (q : schedulingQueue) : Scheduler :=
  mkScheduler (s_client s) (s_cache s) q (s_framework s) (s_config s).

(** [None]: [Pop] blocks.  The deferred [Done] runs on every path. *)
Definition scheduleOne (s : Scheduler) : option (outcome (string * Scheduler)) :=
  match SchedulingQueue.Pop (s_queue s) with
  | PopBlocked => None
  | PopError _ q => Some (Ret ("error", with_queue s q))
  | Popped app q => Some (
      '(result, s) ← schedule_app (with_queue s q) app;
      Ret (result, with_queue s (SchedulingQueue.Done (s_queue s) app)))
  end.
End scheduler.
