(* ===== verification/Placements.v ===== *)
(** * The replicas placed already

    [gatherExistingPlacements] (scheduler.go) feeds the topology scores: the
    placements the API server lists, and those assumed in the cache that the API
    server does not list yet.  [gathered_counts_once] says that no application is
    counted twice and none is missed. *)

From S2P Require Import Prelude GoRuntime Api Cache Queue Scheduler.

Lemma sumZ_mjoin {A} (f : A -> Z) (ll : list (list A)) : sumZ f (mjoin ll) = sumZ (sumZ f) ll.
Proof. induction ll as [|l ll IH]; [done|]. change (mjoin (l :: ll)) with (l ++ mjoin ll). by rewrite sumZ_app, sumZ_cons, IH. Qed.

(** A sum over the keys of a map that vanishes outside another map. *)
Lemma sumZ_keys {V W} (f : string -> Z) (big : gmap string V) (small : gmap string W) :
  (forall k, is_Some (small !! k) -> is_Some (big !! k)) -> (forall k, small !! k = None -> f k = 0) ->
  sumZ f (map_to_list big).*1 = sumZ f (map_to_list small).*1.
Proof.
  intros Hsub Hz. rewrite <- (sumZ_filter f (map_to_list big).*1 (fun k => is_Some (small !! k))).
  2:{ intros k _ Hk. apply Hz. by apply eq_None_not_Some. }
  assert (forall {U} (m : gmap string U) k, k ∈ (map_to_list m).*1 <-> is_Some (m !! k)) as Hel.
  { intros U m k. rewrite list_elem_of_fmap. split.
    - intros ([i x] & -> & Hx). apply elem_of_map_to_list in Hx. by eexists.
    - intros [x Hx]. exists (k, x). by rewrite elem_of_map_to_list. }
  apply (sumZ_perm f), NoDup_Permutation.
  - apply NoDup_filter, NoDup_fst_map_to_list.
  - apply NoDup_fst_map_to_list.
  - intros k. rewrite list_elem_of_filter, !Hel. naive_solver.
Qed.

Section placements.
Context `{G : GoRuntime, !GoRuntimeLaws G, K : Kubernetes}.
Implicit Types (s : Snapshot) (items : list Application).

(** The replicas of a list of placements on cluster [n]. *)
Definition replicas_on (n : string) (ps : list ClusterTopology) : Z :=
  sumZ (fun p => if decide (ct_Name p = n) then ct_Replicas p else 0) ps.

Lemma replicas_on_range site (m : gmap string Z) n :
  replicas_on n ((fun '(clusterName, replicas) => mkTopology clusterName replicas) <$> go_range site m) = lookup0 m n.
Proof.
  unfold replicas_on. rewrite sumZ_map, go_range_perm. unfold lookup0. induction m as [|i x m Hi IH] using map_ind.
  - rewrite map_to_list_empty. done.
  - rewrite map_to_list_insert, sumZ_cons, IH by done. simpl. case_decide as Hn.
    + subst i. rewrite lookup_insert_eq, Hi. simpl. lia.
    + by rewrite lookup_insert_ne.
Qed.

(** What [AssumedApplications] of cluster [n] says about [key]. *)
Definition assumed_at s (n key : string) : option Z :=
  assumed_Replicas <$> (Clusters s !! n ≫= fun info => AssumedApplications info !! key).

Lemma assumed_apps_lookup s key n : default ∅ (assumed_apps s !! key) !! n = assumed_at s n key.
Proof.
  unfold assumed_apps, assumed_at.
  assert (forall (l : list (string * ClusterInfo)) (m : gmap string (gmap string Z)), NoDup l.*1 ->
    default ∅ (foldl (fun m '(clusterName, info) =>
      foldl (fun m '(appKey, assumed) =>
        <[appKey := <[clusterName := assumed_Replicas assumed]> (default ∅ (m !! appKey))]> m)
        m (go_range 72 (AssumedApplications info))) m l !! key) !! n =
    match list_to_map (M := gmap string ClusterInfo) l !! n ≫= (fun info => AssumedApplications info !! key) with
    | Some a => Some (assumed_Replicas a)
    | None => default ∅ (m !! key) !! n
    end) as Hloop.
  { induction l as [|[c info] l IH]; intros m Hnd; simpl; [done|].
    rewrite fmap_cons in Hnd. apply NoDup_cons in Hnd as [Hc Hnd]. rewrite IH by done. clear IH.
    rewrite (range_pointwise _ (fun old a => Some (<[c := assumed_Replicas a]> (default ∅ old)))).
    2:{ intros m' k w k'. destruct (decide (k = k')) as [->|]; by rewrite ?lookup_insert_eq, ?lookup_insert_ne by done. }
    destruct (decide (c = n)) as [->|Hne].
    - rewrite lookup_insert_eq, not_elem_of_list_to_map_1 by done. simpl.
      destruct (AssumedApplications info !! key); simpl; [by rewrite lookup_insert_eq|done].
    - rewrite (lookup_insert_ne (list_to_map l)) by done. destruct (_ ≫= _); [done|].
      destruct (AssumedApplications info !! key); simpl; [by rewrite lookup_insert_ne|done]. }
  rewrite Hloop by apply range_keys_NoDup. rewrite range_to_map.
  by destruct (Clusters s !! n ≫= _).
Qed.

(** For every cluster, the placements gathered count the replicas of the
    scheduled applications the API server lists plus those of the applications
    assumed on the cluster that are not listed as scheduled, each exactly once. *)
Theorem gathered_counts_once items s n info :
  Clusters s !! n = Some info ->
  replicas_on n (existing_placements items s) =
  replicas_on n (committed_placements items) +
  sumZ (fun '(key, a) => match committed_keys items !! key with Some _ => 0 | None => assumed_Replicas a end)
    (map_to_list (AssumedApplications info)).
Proof.
  intros Hn. set (f := fun key => match committed_keys items !! key with
    | Some _ => 0 | None => default 0 (assumed_at s n key) end).
  assert (forall key, assumed_at s n key = assumed_Replicas <$> (AssumedApplications info !! key)) as Hat.
  { intros key. unfold assumed_at. rewrite Hn. done. }
  unfold existing_placements, replicas_on at 1. rewrite sumZ_app. fold (replicas_on n (committed_placements items)).
  f_equal. rewrite sumZ_mjoin, sumZ_map, go_range_perm.
  transitivity (sumZ f (map_to_list (assumed_apps s)).*1).
  { rewrite sumZ_map. apply sumZ_ext. intros [key cr] Hkey. apply elem_of_map_to_list in Hkey. unfold f. simpl.
    destruct (committed_keys items !! key); [done|]. rewrite <- assumed_apps_lookup, Hkey.
    apply (replicas_on_range 74 cr n). }
  rewrite (sumZ_keys f _ (AssumedApplications info)).
  - rewrite sumZ_map. apply sumZ_ext. intros [key a] Ha. apply elem_of_map_to_list in Ha. unfold f. simpl.
    by rewrite Hat, Ha.
  - intros key [a Ha]. assert (default ∅ (assumed_apps s !! key) !! n = Some (assumed_Replicas a)) as E
      by by rewrite assumed_apps_lookup, Hat, Ha.
    revert E. destruct (assumed_apps s !! key); [by eexists|]. simpl. by rewrite lookup_empty.
  - intros key Ha. unfold f. destruct (committed_keys items !! key); [done|]. by rewrite Hat, Ha.
Qed.
End placements.

(** Three replicas assumed on [a], and the same application listed or not. *)
Definition listed_app : Application :=
  let app := demo_app in
  mkApplication no_identity (app_Name app) (app_Namespace app) "2" ∅ ∅ (Spec app)
    (mkAppStatus Scheduled "" 0 0 [mkTopology "a" 3] [] [] 0 []).

Lemma gathered_counts_once_witness :
  replicas_on "a" (existing_placements [listed_app] (snapshot demo_assumed)) = 3 /\
  replicas_on "a" (existing_placements [] (snapshot demo_assumed)) = 3.
Proof.
  destruct (Clusters (snapshot demo_assumed) !! "a") as [info|] eqn:E.
  2:{ assert (bool_decide (is_Some (Clusters (snapshot demo_assumed) !! "a")) = true) as Hs by (vm_compute; reflexivity).
      rewrite E in Hs. discriminate Hs. }
  assert (forall items, sumZ (fun '(key, a) => match committed_keys items !! key with Some _ => 0 | None => assumed_Replicas a end)
      (map_to_list (AssumedApplications info)) = default 0 ((fun info => sumZ (fun '(key, a) =>
        match committed_keys items !! key with Some _ => 0 | None => assumed_Replicas a end)
        (map_to_list (AssumedApplications info))) <$> Clusters (snapshot demo_assumed) !! "a")) as Hsum
    by (intros items; rewrite E; reflexivity).
  split; rewrite (gathered_counts_once _ _ "a" info E), Hsum; vm_compute; reflexivity.
Defined.
