(* ===== verification/SchedulerSpec.v ===== *)
(** * What a scheduling cycle promises

    Where replicas may go ([placement_only_feasible]), what a cycle does to the
    queue and the cache ([cycle_requeues_or_forgets], [scheduleOne_refines_steps]),
    that SingleCluster chooses the best cluster, and that a Spread cycle never
    panics and binds all replicas or none. *)

From S2P Require Import Prelude Float64 GoRuntime Api Clients Framework Indexer Cache Plugins.
From S2P Require Import Shares Spread SpreadScale SpreadSpec Waterfill Queue Prefilter Scheduler.

(** ** Where a strategy puts replicas *)

Section names.
Context `{G : GoRuntime, !GoRuntimeLaws G, K : Kubernetes}.
Context (N : list string).

(** Every allocation is for one of the names [N]. *)
Definition names_in (l : list allocation) : Prop := Forall (fun a => alloc_name a ∈ N) l.

Lemma step_first_names f k l l' : step_first f k l = Ret l' -> names_in l -> names_in l'.
Proof.
  intros E Hl. revert k l' E; induction Hl as [|a l Ha Hl IH]; intros [|k] l'; simpl; intros E;
    try (injection E as <-; by constructor); [done|].
  destruct (step_first f k l) as [r|] eqn:Er; [|done]. injection E as <-. constructor; [done|by eapply IH].
Qed.

Lemma sort_names less l : names_in l -> names_in (go_sort less l).
Proof. unfold names_in. by rewrite go_sort_perm. Qed.

Lemma map_names (f : allocation -> allocation) l : (forall a, alloc_name (f a) = alloc_name a) ->
  names_in l -> names_in (map f l).
Proof. intros Hf. induction 1; simpl; constructor; [by rewrite Hf|done]. Qed.

Lemma zip_names {B} (f : allocation -> B -> allocation) l (k : list B) :
  (forall a b, alloc_name (f a b) = alloc_name a) -> names_in l -> names_in (zip_with f l k).
Proof. intros Hf Hl. revert k; induction Hl; intros [|b k]; simpl; constructor; [by rewrite Hf|by apply IHHl]. Qed.

Lemma scale_up_names R tw l l' : scale_up R tw l = Ret l' -> names_in l -> names_in l'.
Proof.
  intros E Hl. assert (names_in (start_current l)) as Hs by by apply map_names.
  unfold scale_up in E. destruct (0 <? _) in E; [|by injection E as <-].
  eapply step_first_names; [exact E|]. by apply sort_names, zip_names.
Qed.

Lemma reduce_by_weight_names r l : names_in l -> names_in (reduce_by_weight r l).
Proof.
  intros Hl. unfold reduce_by_weight. destruct (f64_ltb _ _); [|done]. apply map_names; [|done].
  intros a. by destruct (has_weight a).
Qed.

Lemma scale_down_names R C tw l l' : scale_down R C tw l = Ret l' -> names_in l -> names_in l'.
Proof.
  intros E Hl. assert (names_in (start_current l)) as Hs by by apply map_names.
  unfold scale_down, reduce_rest in E. cbn [mbind outcome_bind] in E.
  set (l1 := if f64_ltb _ _ then _ else _) in E. assert (names_in l1) as Hl1.
  { subst l1. destruct (f64_ltb _ _); [by apply zip_names|by apply reduce_by_weight_names]. }
  destruct (step_first _ _ _) as [r|] eqn:Er; [|done]. injection E as <-. apply map_names.
  - intros a. unfold clamp_quota. by destruct (quota a <? 0).
  - eapply step_first_names; [exact Er|]. by apply sort_names.
Qed.
End names.

Section placements.
Context `{G : GoRuntime, !GoRuntimeLaws G, K : Kubernetes}.
Implicit Types (app : Application) (scores : gmap string Z) (t : ClusterTopology).

Lemma candidates_names maxC (cp scores : gmap string Z) c : c ∈ candidates maxC cp scores ->
  is_Some (cp !! cscore_name c) \/ is_Some (scores !! cscore_name c).
Proof.
  destruct (candidates_spec maxC cp scores) as (extra & -> & _ & He & _). rewrite elem_of_app, list_elem_of_fmap.
  intros [(n & -> & Hn)|Hc]; [left; by apply range_keys_elem in Hn|]. right. destruct (He c Hc) as [_ ->]. by eexists.
Qed.

Lemma spread_names sc app scores result t : selectClustersSpread sc app scores = Ret result -> t ∈ result ->
  ct_Name t ∈ ct_Name <$> Topology (Status app) \/ is_Some (scores !! ct_Name t).
Proof.
  unfold selectClustersSpread. destruct sc as [sc|]; [|done]. cbn [mbind outcome_bind].
  set (maxC := max_clusters _ _ _). set (selected := candidates _ _ _).
  destruct (weights_of selected) as [weights tw]. set (allocs := initial_allocs _ _ _).
  assert (names_in (cscore_name <$> selected) allocs) as Hn.
  { apply Forall_forall. intros a. unfold allocs, initial_allocs. rewrite list_elem_of_fmap.
    intros (c & -> & Hc). by apply (list_elem_of_fmap_2 cscore_name). }
  set (scaled := if _ <? _ then _ else _). destruct scaled as [l|] eqn:E; [|done]. intros [= <-].
  assert (names_in (cscore_name <$> selected) l) as Hl.
  { subst scaled. destruct (_ <? _) in E; [by eapply scale_up_names|by eapply scale_down_names]. }
  rewrite build_result_elem. intros (a & Ha & _ & ->). simpl. unfold names_in in Hl. rewrite Forall_forall in Hl.
  apply Hl in Ha. apply list_elem_of_fmap in Ha as (c & -> & Hc). apply candidates_names in Hc as [Hc|Hc]; [left|by right].
  by apply map_of_is_Some in Hc.
Qed.

Lemma waterfill_names app scores s t : t ∈ selectClustersStatefulSetWaterfill app scores s ->
  ct_Name t ∈ ct_Name <$> Topology (Status app) \/ is_Some (scores !! ct_Name t).
Proof.
  unfold selectClustersStatefulSetWaterfill, placement_list. rewrite list_elem_of_fmap.
  intros (n & -> & [_ Hn]%list_elem_of_filter). simpl. apply sorted_clusters_spec in Hn as [?|Hn]; [by right|].
  left. by apply map_of_is_Some in Hn.
Qed.
End placements.

(** ** The best cluster *)

Section best.
Context `{G : GoRuntime, !GoRuntimeLaws G}.

(** The loop of [selectCluster]: the first of the best in the list, unless no
    score exceeds the one at hand. *)
Lemma best_loop (scores : gmap string Z) (names : list string) sel m :
  let r := foldl (best_step scores) (sel, m) names in
  (r = (sel, m) /\ forall n, n ∈ names -> lookup0 scores n <= m) \/
  (exists pre post, names = pre ++ r.1 :: post /\ r.2 = lookup0 scores r.1 /\ m < r.2 /\
    (forall n, n ∈ pre -> lookup0 scores n < r.2) /\ forall n, n ∈ post -> lookup0 scores n <= r.2).
Proof.
  revert sel m; induction names as [|x names IH]; intros sel m; cbn [foldl]; cbv zeta.
  { left. split; [done|]. by intros n ?%elem_of_nil. }
  change (best_step scores (sel, m) x) with (if m <? lookup0 scores x then (x, lookup0 scores x) else (sel, m)).
  destruct (Z.ltb_spec m (lookup0 scores x)) as [Hlt|Hge].
  - right. destruct (IH x (lookup0 scores x)) as [[-> Hle]|(pre & post & E & Hr & Hm & Hpre & Hpost)].
    + exists [], names. simpl. split_and!; [done|done|done|by intros n ?%elem_of_nil|done].
    + exists (x :: pre), post. rewrite E at 1. split_and!; [done|done|lia| |done].
      intros n [->|Hn]%elem_of_cons; [lia|by apply Hpre].
  - destruct (IH sel m) as [[-> Hle]|(pre & post & E & Hr & Hm & Hpre & Hpost)].
    + left. split; [done|]. intros n [->|Hn]%elem_of_cons; [lia|by apply Hle].
    + right. exists (x :: pre), post. rewrite E at 1. split_and!; [done|done|lia| |done].
      intros n [->|Hn]%elem_of_cons; [lia|by apply Hpre].
Qed.

Lemma selectCluster_best scores : scores ≠ ∅ -> (forall k v, scores !! k = Some v -> 0 <= v) ->
  exists v, scores !! selectCluster scores = Some v /\
    forall k w, scores !! k = Some w -> w < v \/ (w = v /\ String.le (selectCluster scores) k).
Proof.
  intros Hne Hpos. unfold selectCluster. set (names := sort_strings (range_keys 75 scores)).
  assert (forall k, k ∈ names <-> is_Some (scores !! k)) as Hin.
  { intros k. unfold names, sort_strings. by rewrite go_sort_elem, range_keys_elem. }
  assert (StronglySorted String.le names) as Hsort by apply sort_strings_sorted.
  destruct (best_loop scores names "" (-1)) as [[_ Hle]|(pre & post & E & Hr & Hm & Hpre & Hpost)].
  { exfalso. apply map_choose in Hne as (k & v & Hk). pose proof (Hpos k v Hk).
    pose proof (Hle k (proj2 (Hin k) ltac:(by eexists))) as Hl. unfold lookup0 in Hl. rewrite Hk in Hl. simpl in Hl. lia. }
  set (r := foldl _ _ _) in *.
  assert (is_Some (scores !! r.1)) as [v Hv] by (apply Hin; rewrite E; set_solver).
  exists v. split; [done|]. unfold lookup0 in Hr. rewrite Hv in Hr. simpl in Hr.
  intros k w Hk. assert (lookup0 scores k = w) as Hw by (unfold lookup0; by rewrite Hk).
  assert (k ∈ pre ++ r.1 :: post) as Hc by (rewrite <- E; apply Hin; by eexists).
  apply elem_of_app in Hc as [Hc|[->|Hc]%elem_of_cons].
  - left. rewrite <- Hr, <- Hw. by apply Hpre.
  - right. split; [congruence|]. apply (reflexivity (R := String.le)).
  - pose proof (Hpost k Hc). destruct (decide (w = v)); [|left; lia]. right. split; [done|].
    rewrite E in Hsort. apply StronglySorted_app in Hsort as (_ & _ & Hs). inversion Hs as [|? ? _ Hf]. subst.
    rewrite Forall_forall in Hf. by apply Hf.
Qed.
End best.

(** ** The cycle *)

Section cycle.
Context `{G : GoRuntime, !GoRuntimeLaws G, K : Kubernetes, !KubernetesLaws K, Er : ApiErrors, A : !ApiClient, Q : Workqueue,
  !WorkqueueLaws Q}.
Implicit Types (app : Application) (s : Scheduler).

(** The state the score plugins of a cycle see, after [listed] was read. *)
Definition cycle_state s app (listed : list Application) : CycleState :=
  let snap := snapshot (s_cache s) in
  TopologySpread.UpdateTopologyDistribution NewCycleState (getAllClustersFromSnapshot snap)
    (existing_placements listed snap) (getTopologyKey (s_config s)).

(** A successful cycle, step by step. *)
Record bound s app (s' : Scheduler) (scores : gmap string Z) (placement : list ClusterTopology) : Prop := {
  b_feasible : feasible_clusters (s_framework s) app (snapshot (s_cache s)) ≠ [];
  b_scores : exists listed, RunScorePlugins (s_framework s) (cycle_state s app listed) app
      (feasible_clusters (s_framework s) app (snapshot (s_cache s))) = inl scores /\
      listed = unwrap [] (api_List (s_client s)).2;
  b_placement : select_placement (s_config s) app scores (snapshot (s_cache s)) = Ret placement;
  b_nonempty : placement ≠ [];
  b_bind : exists client, bind (api_List (s_client s)).1 app placement = (client, None) /\
    s' = mkScheduler client (assume_all (s_cache s) app placement)
           (SchedulingQueue.Forget (s_queue s) app) (s_framework s) (s_config s) }.

(** Every cycle that returns has requeued the application, or bound it. *)
Lemma schedule_app_cases s app result s' : schedule_app s app = Ret (result, s') ->
  (result ≠ "success" /\ exists client, s' = requeue s client app) \/
  (result = "success" /\ exists scores placement, bound s app s' scores placement).
Proof.
  unfold schedule_app, gatherExistingPlacements. set (snap := snapshot (s_cache s)).
  case_decide; [intros [= <- <-]; left; eauto|].
  destruct (feasible_clusters _ app snap) as [|c cs] eqn:Ef; [intros [= <- <-]; left; eauto|].
  destruct (api_List (s_client s)) as [client listed] eqn:El.
  destruct (RunScorePlugins _ _ app (c :: cs)) as [scores|status] eqn:Es; [|intros [= <- <-]; left; eauto].
  destruct (select_placement _ app scores snap) as [placement|] eqn:Ep; cbn [mbind outcome_bind]; [|done].
  destruct placement as [|t ts]; [intros [= <- <-]; left; eauto|].
  destruct (bind client app (t :: ts)) as [client' [err|]] eqn:Eb; intros [= <- <-]; [left; eauto|].
  right. split; [done|]. exists scores, (t :: ts). split; fold snap; rewrite ?El.
  - by rewrite Ef.
  - exists (unwrap [] listed). split; [|done]. rewrite Ef. exact Es.
  - done.
  - done.
  - by exists client'.
Qed.

Lemma feasible_elem f app c cl : cache_inv c -> Affinity.NewFilter ∈ filterPlugins f ->
  cl ∈ feasible_clusters f app (snapshot c) <->
  exists info, Clusters (snapshot c) !! mc_Name cl = Some info /\ Cluster info = cl /\
    IsSuccess (RunFilterPlugins f NewCycleState app cl) = true.
Proof.
  intros Hi Hf. unfold feasible_clusters. rewrite list_elem_of_filter, list_elem_of_fmap. split.
  - intros (Hs & info & -> & Hin). destruct (prefilter_sub _ app info Hin) as [n Hn]. exists info.
    by rewrite (snapshot_name c n info Hi Hn).
  - intros (info & Hn & <- & Hs). split; [done|]. exists info. split; [done|].
    eapply prefilter_complete_snapshot; [done|exact Hn|]. unfold RunFilterPlugins in Hs.
    apply run_filters_ok_iff in Hs. rewrite Forall_forall in Hs. exact (Hs _ Hf).
Qed.

Lemma feasible_sub f app c cl : cache_inv c -> cl ∈ feasible_clusters f app (snapshot c) ->
  exists info, Clusters (snapshot c) !! mc_Name cl = Some info /\ Cluster info = cl /\
    IsSuccess (RunFilterPlugins f NewCycleState app cl) = true.
Proof.
  intros Hi. unfold feasible_clusters. rewrite list_elem_of_filter, list_elem_of_fmap.
  intros (Hs & info & -> & Hin). destruct (prefilter_sub _ app info Hin) as [n Hn]. exists info.
  by rewrite (snapshot_name c n info Hi Hn).
Qed.

(** The scores of the built-in plugins. *)
Definition plugins_pre (state : CycleState) app : Prop :=
  Affinity.affinity_pre state app /\ TopologySpread.topology_pre state app.

Lemma weaken_bounded pl (pre pre' : CycleState -> Application -> Prop) :
  (forall state app, pre' state app -> pre state app) -> BoundedPlugin pl pre -> BoundedPlugin pl pre'.
Proof. intros Hp Hb state app cs scores Hpre. apply Hb. by apply Hp. Qed.

Lemma plugin_weight_pos config pl : 0 < plugin_weight (framework_of config) pl.
Proof.
  unfold plugin_weight. simpl. unfold lookup0. destruct (map_of _ _ _ !! _) as [w|] eqn:E; simpl; [|lia].
  apply map_of_lookup_inv in E as (pc & _ & _ & <-). unfold config_weight. bool_cases; lia.
Qed.

Lemma builtin_bounded config pl : pl ∈ scorePlugins (framework_of config) ->
  BoundedPlugin pl plugins_pre /\ 0 <= plugin_weight (framework_of config) pl.
Proof.
  intros Hpl. split; [|pose proof (plugin_weight_pos config pl); lia].
  apply list_elem_of_omap in Hpl as (pc & _ & Hpl). unfold score_plugin in Hpl.
  destruct (negb (Enabled pc)); [done|].
  destruct (String.eqb _ _); [injection Hpl as <-; eapply weaken_bounded; [|apply Affinity.affinity_bounded]; by intros ? ? [? ?]|].
  destruct (String.eqb _ _).
  { injection Hpl as <-. destruct (Args pc !! "strategy") as [[]|];
      (eapply weaken_bounded; [|apply Resource.resource_bounded]; done). }
  destruct (String.eqb _ _); [|done]. injection Hpl as <-. destruct (Args pc !! "topologyKey") as [[]|];
    (eapply weaken_bounded; [|apply TopologySpread.topology_bounded]; by intros ? ? [? ?]).
Qed.

(** What the theorems assume of the scheduler's surroundings: the framework is the
    one of the configuration, with weights of moderate total; preferences valid
    for the API; and replica counts listed by the API server of machine size. *)
Record surroundings s app : Prop := {
  su_framework : s_framework s = framework_of (s_config s);
  su_weights : total_weight (s_framework s) (scorePlugins (s_framework s)) <= 2 ^ 47;
  su_affinity : forall state, Affinity.affinity_pre state app;
  su_placements : let ps := existing_placements (unwrap [] (api_List (s_client s)).2) (snapshot (s_cache s)) in
    (forall p, p ∈ ps -> 0 <= ct_Replicas p) /\ sumZ ct_Replicas ps <= max_int32 }.

Lemma cycle_scores s app scores :
  surroundings s app ->
  RunScorePlugins (s_framework s) (cycle_state s app (unwrap [] (api_List (s_client s)).2)) app
    (feasible_clusters (s_framework s) app (snapshot (s_cache s))) = inl scores ->
  (forall n, is_Some (scores !! n) <->
     n ∈ mc_Name <$> feasible_clusters (s_framework s) app (snapshot (s_cache s))) /\
  (forall n v, scores !! n = Some v -> 0 <= v <= 100).
Proof.
  intros [Hf Hw Ha Hp] Hs. eapply (RunScorePlugins_range _ plugins_pre); [| |exact Hw|exact Hs].
  - rewrite Hf. apply builtin_bounded.
  - split; [apply Ha|]. exact (TopologySpread.UpdateTopologyDistribution_pre _ _ _ _ app (proj1 Hp) (proj2 Hp)).
Qed.

Lemma select_names s app scores placement t :
  scores ≠ ∅ -> (forall n v, scores !! n = Some v -> 0 <= v) ->
  select_placement (s_config s) app scores (snapshot (s_cache s)) = Ret placement -> t ∈ placement ->
  ct_Name t ∈ ct_Name <$> Topology (Status app) \/ is_Some (scores !! ct_Name t).
Proof.
  intros Hne Hpos. unfold select_placement. destruct (String.eqb _ StrategySpread).
  - destruct (String.eqb _ "StatefulSet"); [intros [= <-]; apply waterfill_names|apply spread_names].
  - intros [= <-] ->%list_elem_of_singleton. simpl. right.
    destruct (selectCluster_best scores Hne Hpos) as (v & -> & _). by eexists.
Qed.

Lemma scores_nonempty s app scores placement s' : surroundings s app -> bound s app s' scores placement -> scores ≠ ∅.
Proof.
  intros Hs [Hf (listed & Hsc & ->) _ _ _] ->. destruct (cycle_scores s app ∅ Hs Hsc) as [Hd _].
  destruct (feasible_clusters _ _ _) as [|c cs]; [done|]. destruct (proj2 (Hd (mc_Name c))) as [v Hv]; [by left|].
  by rewrite lookup_empty in Hv.
Qed.
End cycle.

(** ** Properties *)

Section properties.
Context `{G : GoRuntime, !GoRuntimeLaws G, K : Kubernetes, !KubernetesLaws K, Er : ApiErrors, A : !ApiClient, Q : Workqueue,
  !WorkqueueLaws Q}.
Implicit Types (app : Application) (s : Scheduler).

Lemma assume_all_steps app placement c : valid_requests app -> rtc cache_step c (assume_all c app placement).
Proof.
  intros Hv. unfold assume_all. revert c; induction placement as [|p ps IH]; intros c; [done|]. simpl.
  destruct (AssumeApplication c app (ct_Name p) (ct_Replicas p)) as [c'|] eqn:E; simpl; [|apply IH].
  eapply rtc_l; [by eapply step_assume|apply IH].
Qed.

(** Every filed application has valid requests. *)
Definition filed_valid (q : schedulingQueue) : Prop :=
  forall app n key, activeQ q !! key = Some (Some (mkQueued (Some app) n)) -> valid_requests app.

(** Popping changes nothing of what is filed. *)
Lemma Pop_filed (q : schedulingQueue) :
  match SchedulingQueue.Pop q with
  | Popped app q' => activeQ q' = activeQ q /\ exists key n, activeQ q !! key = Some (Some (mkQueued (Some app) n))
  | PopError _ q' => activeQ q' = activeQ q
  | PopBlocked => True
  end.
Proof.
  unfold SchedulingQueue.Pop. destruct (wq_Get (queue q)) as [key w| |]; [|done|done].
  destruct (activeQ q !! key) as [[[[a|] n]|]|] eqn:Ea; try done. split; [done|]. by exists key, n.
Qed.

(** A cycle as steps of the queue's protocol and of the cache. *)
Lemma cycle_steps s result s' : filed_valid (s_queue s) -> scheduleOne s = Some (Ret (result, s')) ->
  rtc QueueRuns.step (s_queue s, QueueRuns.Idle) (s_queue s', QueueRuns.Idle) /\
  rtc cache_step (s_cache s) (s_cache s') /\ filed_valid (s_queue s').
Proof.
  intros Hv. unfold scheduleOne. pose proof (Pop_filed (s_queue s)) as Hf.
  pose proof (QueueRuns.Pop_steps (s_queue s)) as Hpop.
  destruct (SchedulingQueue.Pop (s_queue s)) as [app q|msg q|] eqn:Ep; [| |done].
  - destruct Hf as (Hq & key & n & Ha). pose proof (Hv _ _ _ Ha) as Happ.
    destruct (schedule_app (with_queue s q) app) as [[r s1]|] eqn:Es; cbn [mbind outcome_bind]; [|done].
    intros [= <- <-]. unfold filed_valid in *.
    destruct (schedule_app_cases _ _ _ _ Es) as [[_ [client ->]]|[_ (scores & placement & Hb)]]; simpl.
    + rewrite Hq. split_and!; [|done|done]. etransitivity; [exact Hpop|]. eapply rtc_l; [apply QueueRuns.sched_requeue|].
      apply rtc_once, QueueRuns.sched_done.
    + destruct (b_bind _ _ _ _ _ Hb) as (client & _ & ->). simpl. split_and!; [|by apply assume_all_steps|].
      * etransitivity; [exact Hpop|]. eapply rtc_l; [apply QueueRuns.sched_forget|]. apply rtc_once, QueueRuns.sched_done.
      * rewrite Hq. intros app' n' k. rewrite lookup_delete_Some. intros [_ ?]. by eapply Hv.
  - intros [= <- <-]. simpl. unfold filed_valid. rewrite Hf. by split_and!.
Qed.

(** C36: a scheduling cycle is made of the steps of the queue's protocol and of
    the cache: whatever [scheduleOne] does, the queue goes through a pop, a
    requeue or a forget, and a [Done] (or an invalid key is skipped), and the
    cache through assumptions of the application, so that every property of
    reachable queues and caches holds of the running scheduler. *)
Theorem scheduleOne_refines_steps s result s' :
  filed_valid (s_queue s) -> scheduleOne s = Some (Ret (result, s')) ->
  rtc QueueRuns.step (s_queue s, QueueRuns.Idle) (s_queue s', QueueRuns.Idle) /\
  rtc cache_step (s_cache s) (s_cache s').
Proof. intros Hv Hs. destruct (cycle_steps s result s' Hv Hs) as (? & ? & _). by split. Qed.

(** What a cycle may do to the application it popped: leave it for a later cycle,
    or let go of it. *)
Definition left_waiting s app s' : Prop :=
  activeQ (s_queue s') = activeQ (s_queue s) /\ appKey app ∈ pending (queue (s_queue s')) /\ s_cache s' = s_cache s.
Definition forgotten s app s' : Prop := activeQ (s_queue s') = delete (appKey app) (activeQ (s_queue s)).

(** C28: a cycle that does not succeed leaves its application waiting: it stays
    filed, its key is pending again, and nothing is assumed in the cache; after a
    cycle that succeeds the application is no longer filed. *)
Theorem cycle_requeues_or_forgets s app q result s' :
  SchedulingQueue.queue_inv (s_queue s) -> SchedulingQueue.Pop (s_queue s) = Popped app q ->
  scheduleOne s = Some (Ret (result, s')) ->
  (processing (queue (s_queue s')) = processing (queue (s_queue s)) ∖ {[appKey app]}) /\
  if String.eqb result "success" then forgotten s app s' else left_waiting s app s'.
Proof.
  intros Hq Hpop Hs. unfold scheduleOne in Hs. rewrite Hpop in Hs.
  pose proof (SchedulingQueue.Pop_inv _ Hq) as Hp. rewrite Hpop in Hp. destruct Hp as (Hq' & Hact & _ & _ & Hproc).
  destruct (schedule_app (with_queue s q) app) as [[r s1]|] eqn:Es; cbn [mbind outcome_bind] in Hs; [|done].
  injection Hs as <- <-. unfold forgotten, left_waiting. rewrite <- Hact.
  assert (processing (queue (s_queue s)) ∖ {[appKey app]} = processing (queue q) ∖ {[appKey app]}) as ->
    by (rewrite Hproc; set_solver).
  destruct (schedule_app_cases _ _ _ _ Es) as [[Hr [client ->]]|[-> (scores & placement & Hb)]]; simpl.
  - rewrite (proj2 (String.eqb_neq r "success") Hr).
    destruct (AddRateLimited_laws (appKey app) (queue q) (SchedulingQueue.qi_running _ Hq')) as (E1 & E2 & _).
    destruct (Done_laws (appKey app) (wq_AddRateLimited (appKey app) (queue q))) as (D1 & D2 & _).
    rewrite D1, D2, E1, E2. split_and!; [done|done|set_solver|done].
  - destruct (b_bind _ _ _ _ _ Hb) as (client & _ & ->). simpl.
    destruct (Forget_laws (appKey app) (queue q)) as (_ & E2 & _).
    destruct (Done_laws (appKey app) (wq_Forget (appKey app) (queue q))) as (_ & D2 & _). by rewrite D2, E2.
Qed.

(** C4: replicas go only where the filters allow: every cluster of a placement
    that is bound passes all filter plugins in the snapshot of the cycle, or
    holds replicas of the application already. *)
Theorem placement_only_feasible s app s' scores placement t :
  cache_inv (s_cache s) -> surroundings s app -> bound s app s' scores placement -> t ∈ placement ->
  ct_Name t ∈ ct_Name <$> Topology (Status app) \/
  exists info, Clusters (snapshot (s_cache s)) !! ct_Name t = Some info /\
    IsSuccess (RunFilterPlugins (s_framework s) NewCycleState app (Cluster info)) = true.
Proof.
  intros Hi Hsu Hb Ht. pose proof (scores_nonempty _ _ _ _ _ Hsu Hb) as Hne.
  destruct Hb as [Hf (listed & Hsc & ->) Hpl _ _]. destruct (cycle_scores s app scores Hsu Hsc) as [Hd Hr].
  destruct (select_names s app scores placement t Hne ltac:(intros n v Hn; by apply (Hr n v)) Hpl Ht) as [|Hs]; [by left|].
  right. apply Hd in Hs. apply list_elem_of_fmap in Hs as (cl & En & Hcl).
  destruct (feasible_sub _ app _ cl Hi Hcl) as (info & Hn & Ec & Hok). exists info. rewrite En, Ec. by split.
Qed.

(** With the SingleCluster strategy all wanted replicas go to one feasible
    cluster, whose score no other feasible cluster exceeds, and among equals to
    the first by name. *)
Theorem single_cluster_places_best s app s' scores placement :
  surroundings s app -> bound s app s' scores placement ->
  cycle_strategy (s_config s) app ≠ StrategySpread ->
  exists name v, placement = [mkTopology name (desired_replicas app)] /\ scores !! name = Some v /\
    name ∈ mc_Name <$> feasible_clusters (s_framework s) app (snapshot (s_cache s)) /\
    forall n w, scores !! n = Some w -> w < v \/ (w = v /\ String.le name n).
Proof.
  intros Hsu Hb Hst. pose proof (scores_nonempty _ _ _ _ _ Hsu Hb) as Hne.
  destruct Hb as [Hf (listed & Hsc & ->) Hpl _ _]. destruct (cycle_scores s app scores Hsu Hsc) as [Hd Hr].
  unfold select_placement in Hpl. rewrite (proj2 (String.eqb_neq _ _) Hst) in Hpl. injection Hpl as <-.
  destruct (selectCluster_best scores Hne ltac:(intros n v Hn; by apply (Hr n v))) as (v & Hv & Hbest).
  exists (selectCluster scores), v. split_and!; [done|done| |done]. apply Hd. by eexists.
Qed.

(** An application and a fleet the Spread strategy is meant for. *)
Record spreadable s app : Prop := {
  sp_strategy : cycle_strategy (s_config s) app = StrategySpread;
  sp_kind : Kind (Workload (Spec app)) ≠ "StatefulSet";
  sp_constraints : is_Some (cfg_SpreadConstraints (s_config s));
  sp_replicas : 0 <= desired_replicas app <= max_int32;
  sp_names : NoDup (ct_Name <$> Topology (Status app));
  sp_nonneg : forall t, t ∈ Topology (Status app) -> 0 <= ct_Replicas t;
  sp_total : sumZ ct_Replicas (Topology (Status app)) <= max_int32;
  sp_size : (length (Topology (Status app)) + size (clusters (s_cache s)) <= 256)%nat }.

Lemma scores_size c f app (scores : gmap string Z) : cache_inv c ->
  (forall n, is_Some (scores !! n) -> n ∈ mc_Name <$> feasible_clusters f app (snapshot c)) ->
  (size scores <= size (clusters c))%nat.
Proof.
  intros Hi Hd. rewrite <- !size_dom. apply subseteq_size. intros n Hn%elem_of_dom. apply Hd in Hn.
  apply list_elem_of_fmap in Hn as (cl & -> & Hcl). destruct (feasible_sub f app c cl Hi Hcl) as (info & Hn & _).
  rewrite snapshot_clusters in Hn. apply fmap_Some in Hn as (i & Hn & _). apply elem_of_dom. by eexists.
Qed.

Lemma spreadable_ok s app (scores : gmap string Z) :
  cache_inv (s_cache s) -> spreadable s app -> scores ≠ ∅ -> (forall n v, scores !! n = Some v -> 0 <= v <= 100) ->
  (forall n, is_Some (scores !! n) -> n ∈ mc_Name <$> feasible_clusters (s_framework s) app (snapshot (s_cache s))) ->
  spread_ok app scores.
Proof.
  intros Hi [_ _ _ ? ? ? ? Hsz] Hne Hr Hd. pose proof (scores_size _ _ _ _ Hi Hd). split; try done. lia.
Qed.


(** Scaling to zero never takes effect under the Spread strategy: the empty
    placement of zero replicas counts as "no clusters selected", so the cycle
    requeues the application and binds nothing, whatever it runs now. *)
Theorem spread_scale_to_zero_requeues s app result s' :
  cache_inv (s_cache s) -> surroundings s app -> spreadable s app -> desired_replicas app = 0 ->
  schedule_app s app = Ret (result, s') ->
  result ≠ "success" /\ s_cache s' = s_cache s /\ s_queue s' = SchedulingQueue.Requeue (s_queue s) app.
Proof.
  intros Hi Hsu Hsp H0 Hs. destruct (schedule_app_cases _ _ _ _ Hs) as [[Hr [client ->]]|[_ (scores & placement & Hb)]];
    [done|exfalso].
  pose proof (scores_nonempty _ _ _ _ _ Hsu Hb) as Hne. destruct Hb as [_ (listed & Hsc & ->) Hpl Hnil _].
  destruct (cycle_scores s app scores Hsu Hsc) as [Hd Hr]. pose proof Hsp as [Hst Hk [sc Hc] _ _ _ _ _].
  unfold select_placement in Hpl. rewrite Hst, (proj2 (String.eqb_neq _ _) Hk), Hc in Hpl.
  destruct (spread_result sc app scores) as (l & maxC & Hl & _ & _ & Hsum & _ & Hq & _).
  { apply (spreadable_ok s); try done. intros n. by apply Hd. }
  rewrite String.eqb_refl, Hl in Hpl. injection Hpl as <-. apply Hnil. rewrite H0 in Hsum.
  destruct (build_result l) as [|t ts] eqn:Eb; [done|exfalso].
  destruct (proj1 (build_result_elem l t)) as (a & Ha & Hpos & _); [rewrite Eb; by left|].
  pose proof (sumZ_ge_elem quota l a ltac:(intros x Hx; by apply Hq) Ha). lia.
Qed.

(** The manager's flag chooses the strategy of the resource plugin; every text but
    MostAllocated, a misspelt one too, scores like LeastAllocated. *)
Theorem strategy_flag_is_used strategy :
  score_plugin <$> cfg_ScorePlugins (manager_config strategy) = [Some Affinity.NewScore;
    Some (Resource.NewWithStrategy (if String.eqb strategy "" then Resource.ScoringStrategyLeastAllocated else strategy))] /\
  cfg_FilterPlugins (manager_config strategy) = cfg_FilterPlugins DefaultSchedulerConfig /\
  (strategy ≠ Resource.ScoringStrategyMostAllocated -> forall state app cluster,
     Resource.Score strategy state app cluster = Resource.Score Resource.ScoringStrategyLeastAllocated state app cluster).
Proof.
  unfold manager_config. cbv zeta. split; [|split].
  - destruct (String.eqb strategy ""); [reflexivity|]. cbn. unfold score_plugin. cbn. by rewrite lookup_insert_eq.
  - by destruct (String.eqb strategy "").
  - intros Hs state app cluster. unfold Resource.Score. destruct (mc_ResourceSummary cluster); [done|].
    by rewrite (proj2 (String.eqb_neq _ _) Hs).
Qed.
End properties.

(** ** A concrete scheduler *)

(** Two clusters, and an application of [n] replicas, one of them on [b]. *)
Definition fleet_app (n : Z) : Application := sample_app "Deployment" "one-cpu" n [mkTopology "b" 1].
Definition fleet_queue (n : Z) : schedulingQueue := SchedulingQueue.Add SchedulingQueue.New (fleet_app n).
Definition fleet (n : Z) : Scheduler := NewScheduler [fleet_app n] zone_cache (fleet_queue n).
Definition single_config : SchedulerConfig :=
  mkSchedulerConfig (cfg_FilterPlugins DefaultSchedulerConfig) (cfg_ScorePlugins DefaultSchedulerConfig)
    StrategySingleCluster None.
Definition single_fleet : Scheduler := NewSchedulerWithConfig [fleet_app 3] zone_cache (fleet_queue 3) (Some single_config).

Definition result_label (r : outcome (string * Scheduler)) : string := match r with Ret (l, _) => l | Panic => "" end.

Lemma fleet_cycle : result_label (schedule_app (fleet 3) (fleet_app 3)) = "success" /\
  result_label (schedule_app single_fleet (fleet_app 3)) = "success" /\
  result_label (schedule_app (fleet 0) (fleet_app 0)) = "unschedulable".
Proof. split_and!; vm_compute; reflexivity. Qed.

(** The binding of a cycle labelled a success. *)
Lemma labelled_bound s app : result_label (schedule_app s app) = "success" ->
  exists s' scores placement, bound s app s' scores placement.
Proof.
  destruct (schedule_app s app) as [[r s']|] eqn:E; [|done]. simpl. intros ->.
  destruct (schedule_app_cases _ _ _ _ E) as [[? _]|[_ (scores & placement & Hb)]]; [done|eauto].
Qed.

Lemma fleet_inv : cache_inv zone_cache.
Proof. apply reachable_inv, zone_reachable. Qed.

Lemma sample_surroundings n config : existing_placements [fleet_app n] (snapshot zone_cache) = [] ->
  total_weight (framework_of config) (scorePlugins (framework_of config)) <= 2 ^ 47 ->
  surroundings (NewSchedulerWithConfig [fleet_app n] zone_cache (fleet_queue n) (Some config)) (fleet_app n).
Proof.
  intros Hp Hw. split; [done|exact Hw|by intros st aff|]. cbv zeta.
  change (existing_placements _ _) with (existing_placements [fleet_app n] (snapshot zone_cache)). rewrite Hp.
  split; [by intros p ?%elem_of_nil|simpl; unfold max_int32; lia].
Qed.

Lemma fleet_surroundings n : n = 0 \/ n = 3 -> surroundings (fleet n) (fleet_app n).
Proof.
  intros Hn. apply (sample_surroundings n DefaultSchedulerConfig).
  - destruct Hn as [->| ->]; vm_compute; reflexivity.
  - vm_compute. discriminate.
Qed.

Lemma fleet_spreadable n : n = 0 \/ n = 3 -> spreadable (fleet n) (fleet_app n).
Proof.
  intros Hn. split; try done.
  - change (0 <= n <= max_int32). unfold max_int32. lia.
  - apply NoDup_singleton.
  - intros t Ht. apply list_elem_of_singleton in Ht as ->. simpl. lia.
  - apply Nat.leb_le. vm_compute. reflexivity.
Qed.

Lemma scheduleOne_refines_steps_witness : exists s',
  scheduleOne (fleet 3) = Some (Ret ("success", s')) /\
  rtc QueueRuns.step (fleet_queue 3, QueueRuns.Idle) (s_queue s', QueueRuns.Idle).
Proof.
  destruct (scheduleOne (fleet 3)) as [[[r s']|]|] eqn:E.
  2-3: assert (match scheduleOne (fleet 3) with Some (Ret _) => true | _ => false end = true) as Hr
         by (vm_compute; reflexivity); rewrite E in Hr; discriminate Hr.
  assert (match scheduleOne (fleet 3) with Some (Ret (r, _)) => r | _ => "" end = "success") as Hr
    by (vm_compute; reflexivity).
  rewrite E in Hr. subst r. exists s'. split; [reflexivity|].
  refine (proj1 (scheduleOne_refines_steps (fleet 3) "success" s' _ E)).
  intros app n key Ha.
  change (<[appKey (fleet_app 3) := Some (mkQueued (Some (fleet_app 3)) 0)]> (∅ : gmap string (option QueuedApplicationInfo)) !! key =
     Some (Some (mkQueued (Some app) n))) in Ha.
  apply lookup_insert_Some in Ha as [[_ Ha]|[_ Ha]]; [|discriminate Ha]. injection Ha as <- _.
  apply (valid_requests_template (fleet_app 3) (mkPodTemplate [cpu_request 1] [] [])); [|exact one_cpu_nonneg].
  vm_compute. reflexivity.
Defined.

Lemma fleet_pop n : exists q, SchedulingQueue.Pop (s_queue (fleet n)) = Popped (fleet_app n) q.
Proof. by eexists. Qed.

Lemma fleet_queue_inv n : SchedulingQueue.queue_inv (s_queue (fleet n)).
Proof. apply SchedulingQueue.Add_inv, SchedulingQueue.New_inv. Qed.

Lemma cycle_requeues_or_forgets_witness : exists s',
  scheduleOne (fleet 0) = Some (Ret ("unschedulable", s')) /\ appKey (fleet_app 0) ∈ pending (queue (s_queue s')).
Proof.
  destruct (fleet_pop 0) as [q Hq].
  assert (match scheduleOne (fleet 0) with Some (Ret (r, _)) => r | _ => "" end = "unschedulable") as Hr
    by (vm_compute; reflexivity).
  destruct (scheduleOne (fleet 0)) as [[[r s']|]|] eqn:E; [|discriminate Hr|discriminate Hr].
  subst r. exists s'. split; [reflexivity|].
  destruct (cycle_requeues_or_forgets (fleet 0) (fleet_app 0) q "unschedulable" s' (fleet_queue_inv 0) Hq E) as [_ H].
  exact (proj1 (proj2 H)).
Defined.

Lemma placement_only_feasible_witness : exists s' scores placement,
  bound (fleet 3) (fleet_app 3) s' scores placement /\
  forall t, t ∈ placement -> ct_Name t ∈ ["b"] \/ is_Some (Clusters (snapshot zone_cache) !! ct_Name t).
Proof.
  destruct (labelled_bound _ _ (proj1 fleet_cycle)) as (s' & scores & placement & Hb).
  exists s', scores, placement. split; [exact Hb|]. intros t Ht.
  destruct (placement_only_feasible (fleet 3) (fleet_app 3) s' scores placement t fleet_inv
    (fleet_surroundings 3 (or_intror eq_refl)) Hb Ht) as [Hin|(info & Hi & _)]; [left; exact Hin|right; by exists info].
Defined.

Lemma single_cluster_places_best_witness : exists s' scores name,
  bound single_fleet (fleet_app 3) s' scores [mkTopology name 3] /\ is_Some (scores !! name).
Proof.
  destruct (labelled_bound _ _ (proj1 (proj2 fleet_cycle))) as (s' & scores & placement & Hb).
  assert (surroundings single_fleet (fleet_app 3)) as Hs.
  { apply (sample_surroundings 3 single_config); vm_compute; [reflexivity|discriminate]. }
  destruct (single_cluster_places_best single_fleet (fleet_app 3) s' scores placement Hs Hb ltac:(discriminate))
    as (name & v & -> & Hv & _).
  exists s', scores, name. split; [exact Hb|by exists v].
Defined.


Lemma spread_scale_to_zero_requeues_witness : exists s',
  schedule_app (fleet 0) (fleet_app 0) = Ret ("unschedulable", s') /\
  s_queue s' = SchedulingQueue.Requeue (fleet_queue 0) (fleet_app 0).
Proof.
  pose proof (proj2 (proj2 fleet_cycle)) as Hr.
  destruct (schedule_app (fleet 0) (fleet_app 0)) as [[r s']|] eqn:E; [|discriminate Hr].
  cbn [result_label] in Hr. subst r. exists s'. split; [reflexivity|].
  exact (proj2 (proj2 (spread_scale_to_zero_requeues (fleet 0) (fleet_app 0) "unschedulable" s' fleet_inv
    (fleet_surroundings 0 (or_introl eq_refl)) (fleet_spreadable 0 (or_introl eq_refl)) eq_refl E))).
Defined.

(** The scores of the default configuration. *)
Lemma RunScorePlugins_bounded_witness : exists scores,
  RunScorePlugins (framework_of DefaultSchedulerConfig) ∅ (fleet_app 3)
    [sample_cluster "a" ∅ 8; sample_cluster "b" ∅ 4] = inl scores /\
  (forall k, is_Some (scores !! k) <-> k ∈ ["a"; "b"]) /\ scores !! "a" = Some 50.
Proof.
  destruct (RunScorePlugins _ _ _ _) as [scores|st] eqn:E.
  2:{ assert (match RunScorePlugins (framework_of DefaultSchedulerConfig) ∅ (fleet_app 3)
        [sample_cluster "a" ∅ 8; sample_cluster "b" ∅ 4] with inl _ => true | inr _ => false end = true) as Hr
        by (vm_compute; reflexivity). rewrite E in Hr. discriminate Hr. }
  exists scores. split; [reflexivity|]. split.
  - refine (proj1 (RunScorePlugins_bounded (framework_of DefaultSchedulerConfig) plugins_pre ∅ (fleet_app 3)
      [sample_cluster "a" ∅ 8; sample_cluster "b" ∅ 4] scores _ _ _ E)).
    + apply builtin_bounded.
    + split; [by intros aff|]. intros dist Hd. discriminate Hd.
    + vm_compute. discriminate.
  - assert (match RunScorePlugins (framework_of DefaultSchedulerConfig) ∅ (fleet_app 3)
      [sample_cluster "a" ∅ 8; sample_cluster "b" ∅ 4] with inl m => m !! "a" | inr _ => None end = Some 50) as Hr
      by (vm_compute; reflexivity). rewrite E in Hr. exact Hr.
Defined.
