(* ===== verification/EventHandler.v ===== *)
(** * The event handlers, and the scheduler as a whole

    event_handler.go: what the watches of Applications and ManagedClusters do to
    the queue and the cache.  [system_step] puts the two reconcilers and the
    scheduling cycle side by side; [system_safe] carries the invariants of the
    queue and the cache to every reachable state. *)

From S2P Require Import Prelude GoRuntime Api Clients Framework Indexer Cache Plugins Queue Prefilter Scheduler SchedulerSpec.

(** [scheduled]: the replicas of the placement, as the loop sums them. *)
Definition needsScheduling `{Kubernetes} (app : Application) : bool :=
  match Topology (Status app) with
  | [] => String.eqb (SchedulingPhase (Status app)) "" || String.eqb (SchedulingPhase (Status app)) Pending
  | topology =>
      match spec_Replicas (Spec app) with
      | Some desired => negb (desired =? sum32 ct_Replicas topology)
      | None => false
      end
  end.

(** The event filters of [SetupWithManager]. *)
Definition CreateFunc `{Kubernetes} (app : Application) : bool := needsScheduling app.
Definition UpdateFunc `{Kubernetes} (oldApp newApp : Application) : bool :=
  if String.eqb (app_ResourceVersion newApp) (app_ResourceVersion oldApp) then false else needsScheduling newApp.
Definition DeleteFunc `{Kubernetes} (app : Application) : bool := true.

Section reconcilers.
Context `{GoRuntime, Kubernetes, ApiErrors, !ApiClient, !Workqueue}.

Definition IgnoreNotFound (err : string) : option string := if IsNotFound err then None else Some err.

(** The object the handler makes up when the read fails: name and namespace only. *)
Definition dummy_app (namespace name : string) : Application :=
  mkApplication no_identity name namespace "" ∅ ∅ (mkAppSpec (mkGVK "" "") None None "" "" None None None [] [] None None)
    (mkAppStatus "" "" 0 0 [] [] [] 0 []).
Definition dummy_cluster (name : string) : ManagedCluster := mkCluster name ∅ false [] [] [] no_access no_state.

(** The state the handlers share with the scheduler. *)
Definition with_events (s : Scheduler) (client : api) (c : clusterCache) (q : schedulingQueue) : Scheduler :=
  mkScheduler client c q (s_framework s) (s_config s).

Definition AppReconcile (s : Scheduler) (namespace name : string) : Scheduler * option string :=
  let '(client, got) := api_Get namespace name (s_client s) in
  match got with
  | Err err =>
      let q := SchedulingQueue.Delete (s_queue s) (dummy_app namespace name) in
      let c := RemoveAssumedApplication (s_cache s) (namespace +:+ "/" +:+ name) in
      (with_events s client c q, IgnoreNotFound err)
  | Ok app =>
      if needsScheduling app
      then (with_events s client (s_cache s) (SchedulingQueue.Add (s_queue s) app), None)
      else (with_events s client (RemoveAssumedApplication (s_cache s) (appKey app)) (s_queue s), None)
  end.

(** The errors of the cache operations are dropped. *)
Definition ClusterReconcile (s : Scheduler) (name : string) : Scheduler * option string :=
  let '(client, got) := api_GetCluster name (s_client s) in
  let c := s_cache s in
  match got with
  | Err err => (with_events s client (unwrap c (RemoveCluster c (dummy_cluster name))) (s_queue s), IgnoreNotFound err)
  | Ok cluster =>
      let c :=
        if mc_Deleting cluster then unwrap c (RemoveCluster c cluster)
        else match AddCluster c cluster with
             | Ok c => c
             | Err _ => unwrap c (UpdateCluster c cluster cluster)
             end in
      (with_events s client c (s_queue s), None)
  end.
End reconcilers.

(** ** needsScheduling *)

Section needs.
Context `{K : Kubernetes}.
Implicit Types (app : Application).

Lemma String_eqb_iff s t : String.eqb s t = true <-> s = t.
Proof. apply String.eqb_eq. Qed.

(** An application is queued exactly when it was never placed and is new or
    pending, or when it states a number of replicas and its placement, of counts
    that fit in 32 bits, adds up to another number. *)
Theorem needsScheduling_iff app :
  (forall t, t ∈ Topology (Status app) -> 0 <= ct_Replicas t) ->
  sumZ ct_Replicas (Topology (Status app)) <= max_int32 ->
  needsScheduling app = true <->
  (Topology (Status app) = [] /\ (SchedulingPhase (Status app) = "" \/ SchedulingPhase (Status app) = Pending)) \/
  (Topology (Status app) ≠ [] /\ exists r, spec_Replicas (Spec app) = Some r /\
     r ≠ sumZ ct_Replicas (Topology (Status app))).
Proof.
  intros Hnn Hsum. unfold needsScheduling. destruct (Topology (Status app)) as [|t ts] eqn:E.
  - rewrite orb_true_iff, !String_eqb_iff. naive_solver.
  - rewrite sum32_exact by done. destruct (spec_Replicas (Spec app)) as [r|].
    + rewrite negb_true_iff, Z.eqb_neq. naive_solver.
    + naive_solver.
Qed.
End needs.

(** ** The reconcilers as steps of the queue and the cache *)

Section steps.
Context `{G : GoRuntime, !GoRuntimeLaws G, K : Kubernetes, !KubernetesLaws K, Er : ApiErrors, A : !ApiClient, !ApiClientLaws A,
  Q : Workqueue, !WorkqueueLaws Q}.
Implicit Types (app : Application) (s : Scheduler).

Lemma app_reconcile_steps s namespace name s' err p : AppReconcile s namespace name = (s', err) ->
  rtc QueueRuns.step (s_queue s, p) (s_queue s', p) /\ rtc cache_step (s_cache s) (s_cache s').
Proof.
  unfold AppReconcile. destruct (api_Get namespace name (s_client s)) as [client [app|e]].
  - destruct (needsScheduling app); intros [= <- <-]; simpl.
    + split; [apply rtc_once, QueueRuns.ev_add|done].
    + split; [done|apply rtc_once, step_remove_assumed].
  - intros [= <- <-]. simpl. split; [apply rtc_once, QueueRuns.ev_delete|apply rtc_once, step_remove_assumed].
Qed.

Lemma unwrap_step c (r : res clusterCache) : (forall c', r = Ok c' -> cache_step c c') -> rtc cache_step c (unwrap c r).
Proof. destruct r as [c'|]; simpl; [|done]. intros Hs. by apply rtc_once, Hs. Qed.

Lemma cluster_reconcile_steps s name s' err : ClusterReconcile s name = (s', err) ->
  s_queue s' = s_queue s /\ rtc cache_step (s_cache s) (s_cache s').
Proof.
  unfold ClusterReconcile. destruct (api_GetCluster name (s_client s)) as [client [cluster|e]]; intros [= <- <-]; simpl.
  - split; [done|]. destruct (mc_Deleting cluster); [apply unwrap_step; intros; by eapply step_remove|].
    destruct (AddCluster (s_cache s) cluster) as [c|] eqn:E; [apply rtc_once; by eapply step_add|].
    apply unwrap_step. intros c' Hc. by eapply (step_update _ cluster cluster).
  - split; [done|]. apply unwrap_step. intros c' Hc. by eapply step_remove.
Qed.

(** After the reconciliation of a cluster the cache agrees with what was
    read: a live cluster is filed with the object just read and keeps the
    resources promised on it, a cluster that is being deleted or cannot be read
    is gone, whatever the error, and the other clusters are as before. *)
Theorem cluster_reconcile_tracks s name s' err client got :
  api_GetCluster name (s_client s) = (client, got) -> ClusterReconcile s name = (s', err) ->
  clusters (s_cache s') !! name =
    match got with
    | Ok cluster =>
        if mc_Deleting cluster then None
        else Some (match clusters (s_cache s) !! name with
                   | Some info => mkClusterInfo cluster (RequestedResources info) (AssumedApplications info)
                   | None => NewClusterInfo cluster
                   end)
    | Err _ => None
    end /\
  (forall n, n ≠ name -> clusters (s_cache s') !! n = clusters (s_cache s) !! n) /\
  err = match got with Ok _ => None | Err e => if IsNotFound e then None else Some e end.
Proof.
  intros Hg. unfold ClusterReconcile. rewrite Hg. destruct got as [cluster|e]; intros [= <- <-]; simpl.
  - pose proof (api_GetCluster_name _ _ _ _ Hg) as <-. unfold RemoveCluster, AddCluster, UpdateCluster.
    destruct (clusters (s_cache s) !! mc_Name cluster) as [info|] eqn:E; destruct (mc_Deleting cluster); simpl;
      rewrite ?E; simpl; rewrite ?lookup_insert_eq, ?lookup_delete_eq; split_and!; try done;
      intros n Hn; by rewrite ?lookup_insert_ne, ?lookup_delete_ne.
  - unfold RemoveCluster. simpl. destruct (clusters (s_cache s) !! name) as [info|] eqn:E; simpl;
      rewrite ?lookup_delete_eq; split_and!; try done. intros n Hn. by rewrite lookup_delete_ne.
Qed.
End steps.

(** ** The scheduler among its event handlers *)

Section system.
Context `{G : GoRuntime, !GoRuntimeLaws G, K : Kubernetes, !KubernetesLaws K, Er : ApiErrors, A : !ApiClient, !ApiClientLaws A,
  Q : Workqueue, !WorkqueueLaws Q}.
Implicit Types (app : Application) (s : Scheduler).

(** A binding that places all wanted replicas settles the application: what
    is written to the API server (the latest version with the new placement and
    the phase Scheduled, nothing else changed) does not pass the event filters,
    so that the scheduler's own update does not queue it again. *)
Theorem binding_settles client app placement client' :
  bind client app placement = (client', None) ->
  exists client1 latest,
    api_Get (app_Namespace app) (app_Name app) client = (client1, Ok latest) /\
    api_StatusUpdate (bound_app latest placement) client1 = (client', None) /\
    appKey (bound_app latest placement) = appKey app /\ Spec (bound_app latest placement) = Spec latest /\
    (placement ≠ [] -> (forall t, t ∈ placement -> 0 <= ct_Replicas t) ->
     sumZ ct_Replicas placement = desired_replicas latest -> desired_replicas latest <= max_int32 ->
     forall old, UpdateFunc old (bound_app latest placement) = false /\ CreateFunc (bound_app latest placement) = false).
Proof.
  unfold bind. destruct (api_Get _ _ client) as [client1 [latest|e]] eqn:E; [|done]. intros Hu.
  exists client1, latest. destruct (api_Get_key _ _ _ _ _ E) as [Hns Hname].
  split_and!; [done|done|unfold appKey; simpl; congruence|done|]. intros Hne Hnn Hsum Hmax old.
  assert (needsScheduling (bound_app latest placement) = false) as Hs.
  { unfold needsScheduling. simpl. destruct placement as [|t ts]; [done|]. unfold desired_replicas in *.
    destruct (spec_Replicas (Spec latest)) as [r|]; [|done]. simpl default in *.
    rewrite sum32_exact, Hsum, Z.eqb_refl by (done || lia). done. }
  unfold UpdateFunc, CreateFunc. rewrite Hs. by destruct (String.eqb _ _).
Qed.

(** The API server changes, an Application or a ManagedCluster is reconciled, or
    the scheduler runs a cycle.  The API server validates requests. *)
Inductive system_step : Scheduler -> Scheduler -> Prop :=
| sys_world s client : system_step s (with_events s client (s_cache s) (s_queue s))
| sys_app s namespace name s' err :
    (forall app, (api_Get namespace name (s_client s)).2 = Ok app -> valid_requests app) ->
    AppReconcile s namespace name = (s', err) -> system_step s s'
| sys_cluster s name s' err : ClusterReconcile s name = (s', err) -> system_step s s'
| sys_cycle s result s' : scheduleOne s = Some (Ret (result, s')) -> system_step s s'.

Lemma filed_valid_delete q key w : filed_valid q -> filed_valid (mkQueue w (delete key (activeQ q))).
Proof. intros Hv app n k. simpl. rewrite lookup_delete_Some. intros [_ ?]. by eapply Hv. Qed.

Lemma filed_valid_add q app : filed_valid q -> valid_requests app -> filed_valid (SchedulingQueue.Add q app).
Proof.
  intros Hv Happ. unfold SchedulingQueue.Add. destruct (activeQ q !! appKey app); [done|].
  intros app' n k. simpl. rewrite lookup_insert_Some. intros [[_ [= <- _]]|[_ ?]]; [done|by eapply Hv].
Qed.

(** What the system keeps: reachable queue and cache, valid applications. *)
Definition system_inv s : Prop :=
  QueueRuns.reachable (s_queue s, QueueRuns.Idle) /\ reachable (s_cache s) /\ filed_valid (s_queue s).

Lemma system_step_inv s s' : system_inv s -> system_step s s' -> system_inv s'.
Proof.
  unfold system_inv, QueueRuns.reachable, reachable. intros (Hq & Hc & Hv) Hs. destruct Hs as
    [s client|s ns name s' err Hval Hrec|s name s' err Hrec|s result s' Hcyc].
  - done.
  - destruct (app_reconcile_steps _ _ _ _ _ QueueRuns.Idle Hrec) as [Hq' Hc'].
    split_and!; [by etransitivity|by etransitivity|]. revert Hrec Hval. unfold AppReconcile.
    destruct (api_Get ns name (s_client s)) as [client [app|e]]; simpl.
    + destruct (needsScheduling app); intros [= <- <-] Hval; [apply filed_valid_add; auto|done].
    + intros [= <- <-] _. by apply filed_valid_delete.
  - destruct (cluster_reconcile_steps _ _ _ _ Hrec) as [Hq' Hc']. rewrite Hq'.
    split_and!; [done|by etransitivity|done].
  - destruct (cycle_steps _ _ _ Hv Hcyc) as (Hq' & Hc' & Hv').
    split_and!; [by etransitivity|by etransitivity|done].
Qed.

Definition system_reachable (config : option SchedulerConfig) (client : api) : Scheduler -> Prop :=
  rtc system_step (NewSchedulerWithConfig client NewCache SchedulingQueue.New config).

Lemma system_reachable_inv config client s : system_reachable config client s -> system_inv s.
Proof.
  unfold system_reachable. intros Hr. set (s0 := NewSchedulerWithConfig _ _ _ _) in Hr.
  assert (system_inv s0) as H0.
  { subst s0. split_and!; [by constructor|by constructor|]. intros app n key. simpl. by rewrite lookup_empty. }
  clearbody s0. induction Hr as [s|s1 s2 s3 Hs Hr IH]; [done|]. apply IH. by eapply system_step_inv.
Qed.

(** C1: however the API server changes and the two reconcilers and the scheduling
    cycle take turns, from the start of the scheduler on: an application that is
    filed is pending in the workqueue, so that some later cycle pops it; on every
    cached cluster the promised resources are exactly those of the applications
    assumed there; and the pre-filter's index answers for the cached labels. *)
Theorem system_safe config client s : system_reachable config client s ->
  (forall key, is_Some (activeQ (s_queue s) !! key) -> key ∈ pending (queue (s_queue s))) /\
  (forall n info name, clusters (s_cache s) !! n = Some info ->
     amount (RequestedResources info) name = assumed_total (AssumedApplications info) name) /\
  LabelIndex (snap_Indexer (snapshot (s_cache s)))
    (fun name => (fun info => mc_Labels (Cluster info)) <$> Clusters (snapshot (s_cache s)) !! name).
Proof.
  intros (Hq & Hc & _)%system_reachable_inv. apply reachable_inv in Hc. split_and!.
  - intros key Hk. destruct (QueueRuns.run_inv _ Hq) as [[_ Hkept _] Hidle]. simpl in *.
    destruct (Hkept key Hk) as [|Hp]; [done|]. rewrite Hidle in Hp. by apply not_elem_of_empty in Hp.
  - intros n info name Hn. destruct (inv_info _ Hc n info Hn) as [_ [Hb _]]. apply Hb.
  - by apply snapshot_label_index.
Qed.
End system.

(** ** The properties at concrete schedulers *)

Lemma needsScheduling_iff_witness :
  needsScheduling (fleet_app 3) = true /\ needsScheduling (fleet_app 1) = false.
Proof.
  split.
  - apply (needsScheduling_iff (fleet_app 3)).
    + intros t Ht. apply list_elem_of_singleton in Ht as ->. simpl. lia.
    + vm_compute. discriminate.
    + right. split; [discriminate|]. exists 3. split; [reflexivity|discriminate].
  - vm_compute. reflexivity.
Defined.

(** A cluster [a] is read again after its labels changed in the cache. *)
Lemma cluster_reconcile_tracks_witness :
  is_Some (clusters (s_cache (ClusterReconcile (fleet 3) "a").1) !! "a") /\
  clusters (s_cache (ClusterReconcile (fleet 3) "gone").1) !! "gone" = None.
Proof.
  split.
  - destruct (ClusterReconcile (fleet 3) "a") as [s' err] eqn:E.
    destruct (cluster_reconcile_tracks (fleet 3) "a" s' err _ (Ok (sample_cluster "a" {[ "zone" := "z1" ]} 8)) eq_refl E) as [H _].
    cbn [fst]. rewrite H. eexists. reflexivity.
  - destruct (ClusterReconcile (fleet 3) "gone") as [s' err] eqn:E.
    exact (proj1 (cluster_reconcile_tracks (fleet 3) "gone" s' err _ (Err "not found") eq_refl E)).
Defined.

Definition fleet_api : @api _ _ sample_api := [fleet_app 3].

Lemma binding_settles_witness : exists client latest,
  bind fleet_api (fleet_app 3) [mkTopology "a" 2; mkTopology "b" 1] = (client, None) /\
  CreateFunc (bound_app latest [mkTopology "a" 2; mkTopology "b" 1]) = false /\ latest = fleet_app 3.
Proof.
  destruct (bind fleet_api (fleet_app 3) [mkTopology "a" 2; mkTopology "b" 1]) as [client err] eqn:E.
  assert (err = None) as -> by (injection E as _ <-; reflexivity).
  destruct (binding_settles _ _ _ _ E) as (client1 & latest & Hg & _ & _ & _ & Hs).
  exists client, latest. injection Hg as _ <-. split; [reflexivity|]. split; [|reflexivity].
  apply (Hs ltac:(discriminate)) with (old := fleet_app 3).
  - intros t Ht. apply elem_of_cons in Ht as [->|Ht]; [simpl; lia|]. apply list_elem_of_singleton in Ht as ->. simpl. lia.
  - reflexivity.
  - vm_compute. discriminate.
Defined.

Lemma system_safe_witness :
  let s0 := NewScheduler fleet_api NewCache SchedulingQueue.New in
  let s1 := (AppReconcile s0 "team" "web").1 in
  system_reachable None fleet_api s1 /\ appKey (fleet_app 3) ∈ pending (queue (s_queue s1)).
Proof.
  intros s0 s1. assert (system_reachable None fleet_api s1) as Hr.
  { apply rtc_once. destruct (AppReconcile s0 "team" "web") as [s' err] eqn:E. eapply sys_app; [|exact E].
    intros app Ha. injection Ha as <-.
    apply (valid_requests_template (fleet_app 3) (mkPodTemplate [cpu_request 1] [] [])); [|exact one_cpu_nonneg].
    vm_compute. reflexivity. }
  split; [exact Hr|]. apply (proj1 (system_safe None fleet_api s1 Hr)).
  eexists. reflexivity.
Defined.
