(* ===== verification/Sharding.v ===== *)
(** * Sharding

    sharding.go: which manager instance is responsible for a cluster, by the
    FNV-1a hash of its name ([hash/fnv] of the Go standard library). *)

From Stdlib Require Import Ascii.
From S2P Require Import Prelude.

(** ** fnv.New32a, Write, Sum32 *)

Definition offset32 : Z := 2166136261.
Definition prime32 : Z := 16777619.

Definition fnv_step (h : Z) (c : ascii) : Z := (Z.lxor h (Z.of_N (N_of_ascii c)) * prime32) mod 2 ^ 32.

Definition Sum32 (key : string) : Z := foldl fnv_step offset32 (String.list_ascii_of_string key).

(** Test vectors of the FNV reference implementation. *)
Example fnv_empty : Sum32 "" = 2166136261.
Proof. reflexivity. Qed.
Example fnv_a : Sum32 "a" = 3826002220.                            (* 0xe40c292c *)
Proof. reflexivity. Qed.
Example fnv_foobar : Sum32 "foobar" = 3214735720.                  (* 0xbf9cf968 *)
Proof. reflexivity. Qed.

(** ** ShardManager *)

Record ShardManager := mkShard { ShardID : Z; TotalShards : Z }.

Definition NewShardManager (shardID totalShards : Z) : ShardManager :=
  mkShard shardID (if totalShards <? 1 then 1 else totalShards).

Definition IsResponsibleFor (s : ShardManager) (key : string) : bool :=
  if TotalShards s <=? 1 then true else Z.rem (Sum32 key) (TotalShards s) =? ShardID s.

Lemma Sum32_range key : 0 <= Sum32 key < 2 ^ 32.
Proof.
  unfold Sum32. assert (0 <= offset32 < 2 ^ 32) as Ho by (unfold offset32; lia).
  revert Ho. generalize offset32. induction (String.list_ascii_of_string key) as [|c l IH]; intros h Hh; simpl; [done|].
  apply IH. apply Z.mod_pos_bound. lia.
Qed.

Lemma shard_of n key : 1 <= n ->
  exists i, 0 <= i < n /\ IsResponsibleFor (NewShardManager i n) key = true /\
    forall j, 0 <= j < n -> IsResponsibleFor (NewShardManager j n) key = true -> j = i.
Proof.
  intros Hn. pose proof (Sum32_range key). unfold IsResponsibleFor, NewShardManager. simpl.
  destruct (Z.ltb_spec n 1); [lia|]. destruct (Z.leb_spec n 1).
  - exists 0. split_and!; [lia|lia|done|intros; lia].
  - exists (Sum32 key mod n). rewrite Z.rem_mod_nonneg, Z.eqb_eq by lia. pose proof (Z.mod_pos_bound (Sum32 key) n ltac:(lia)).
    split_and!; [lia|lia|done|]. intros j Hj Hr. apply Z.eqb_eq in Hr. lia.
Qed.

(** The shards [0 .. n-1] of [n] managers divide the clusters among them:
    every key has exactly one responsible manager, so that no cluster's status is
    collected twice or by nobody. *)
Theorem shards_partition_keys n key : 1 <= n ->
  exists i, 0 <= i < n /\ IsResponsibleFor (NewShardManager i n) key = true /\
    forall j, 0 <= j < n -> IsResponsibleFor (NewShardManager j n) key = true -> j = i.
Proof. apply shard_of. Qed.

(** Cluster "member1" of three shards. *)
Lemma shards_partition_keys_witness :
  exists i, 0 <= i < 3 /\ IsResponsibleFor (NewShardManager i 3) "member1" = true.
Proof.
  destruct (shards_partition_keys 3 "member1" ltac:(lia)) as (i & Hi & Hr & _).
  exists i. split; [exact Hi|exact Hr].
Defined.
