(* ===== verification/ReplicaCalculator.v ===== *)
(** * The replica calculator of a rollout

    application/replica_calculator.go: how many canary replicas each cluster of an
    application runs when a given percentage of all replicas is to be updated. *)

From Stdlib Require Import QArith Qround Qabs Lqa Qpower.
From S2P Require Import Prelude Float64 GoRuntime Api.

(** ** Floors and ceilings of binary64 quotients of integers

    The replica calculator takes percentages and shares with
    [math.Ceil(float64(a) / float64(b))].  For integers below 2^53 the rounding of
    the division never changes the integer that comes out. *)

Section quotients.
#[local] Open Scope Q_scope.

(** An integer of at most 53 bits survives rounding, however it is written. *)
Lemma rnd_integral q k : (0 < k < 2 ^ 53)%Z -> q == inject_Z k -> rnd q == inject_Z k.
Proof.
  intros Hk Hq. set (j := Z.log2 k). destruct (Z.log2_spec k ltac:(lia)) as [Hj1 Hj2]. fold j in Hj1, Hj2.
  assert (0 <= j < 53)%Z as Hj by (split; [apply Z.log2_nonneg|apply Z.log2_lt_pow2; lia]).
  rewrite Zle_Qle, two_pow_inject in Hj1 by lia. rewrite Zlt_Qlt, two_pow_inject in Hj2 by lia.
  assert (2 ^ j <= q) as Hlow by (rewrite Hq; exact Hj1).
  destruct (rnd_multiple q j ltac:(lia) Hlow) as [m Hm].
  assert (2 ^ (-1022) <= q) as Hn by (pose proof (two_pow_le (-1022) j ltac:(lia)); lra).
  pose proof (rnd_rel q Hn) as Hr. pose proof (two_pow_pos (j - 52)) as Hg.
  assert (2 ^ (Z.succ j) * u == 2 ^ (j - 52)) as Eu.
  { replace (Z.succ j) with ((j - 52) + 53)%Z by lia. rewrite two_pow_add, <- Qmult_assoc.
    assert (2 ^ 53 * u == 1) as -> by reflexivity. ring. }
  assert (inject_Z k == inject_Z (k * 2 ^ (52 - j)) * 2 ^ (j - 52)) as Ek.
  { rewrite inject_Z_mult, two_pow_inject, <- Qmult_assoc, <- two_pow_add by lia.
    replace (52 - j + (j - 52))%Z with 0%Z by lia. ring. }
  set (kk := (k * 2 ^ (52 - j))%Z) in *. set (g := 2 ^ (j - 52)) in *.
  assert (inject_Z k * u < g) as Herr by (rewrite <- Eu; apply Qmult_lt_compat_r; [reflexivity|exact Hj2]).
  enough (m = kk) as -> by (rewrite Hm; symmetry; exact Ek).
  rewrite Hm, Hq in Hr.
  assert (inject_Z (kk + 1) * g == inject_Z kk * g + g) as E1 by (rewrite inject_Z_plus; ring).
  assert (inject_Z (kk - 1) * g == inject_Z kk * g - g) as E2 by (unfold Z.sub; rewrite inject_Z_plus, inject_Z_opp; ring).
  assert (inject_Z m * g < inject_Z (kk + 1) * g) as H1 by lra.
  assert (inject_Z (kk - 1) * g < inject_Z m * g) as H2 by lra.
  apply Qmult_lt_r in H1, H2; [|exact Hg|exact Hg]. rewrite <- Zlt_Qlt in H1, H2. lia.
Qed.

Lemma good_quotient a b : (0 < a < 2 ^ 53)%Z -> (0 < b <= 2 ^ 53)%Z -> good (inject_Z a / inject_Z b).
Proof.
  intros Ha Hb. assert (0 < inject_Z b) as Hb0 by (rewrite <- (Zlt_Qlt 0); lia).
  right. assert (1 <= inject_Z a) by (rewrite <- (Zle_Qle 1); lia).
  assert (inject_Z b <= inject_Z (2 ^ 53)) by (rewrite <- Zle_Qle; lia).
  assert (inject_Z a <= inject_Z (2 ^ 53)) by (rewrite <- Zle_Qle; lia).
  assert (1 <= inject_Z b) by (rewrite <- (Zle_Qle 1); lia).
  split; [apply Qle_shift_div_l|apply Qle_shift_div_r]; try done.
  - apply (Qle_trans _ ((1 # 2 ^ 1000) * inject_Z (2 ^ 53))); [apply Qmult_le_l; [reflexivity|done]|].
    apply (Qle_trans _ 1); [by vm_compute|done].
  - apply (Qle_trans _ (inject_Z (2 ^ 1000) * 1)); [|apply Qmult_le_l; [reflexivity|done]].
    apply (Qle_trans _ (inject_Z (2 ^ 53))); [done|by vm_compute].
Qed.

Lemma strictly_between k r : inject_Z k < r < inject_Z k + 1 -> Qfloor r = k /\ Qceiling r = (k + 1)%Z.
Proof.
  intros [Hl Hh]. split; apply Z.le_antisymm.
  - enough (Qfloor r < k + 1)%Z by lia. rewrite Zlt_Qlt, inject_Z_plus.
    pose proof (Qfloor_le r). change (inject_Z 1) with 1. lra.
  - rewrite <- (Qfloor_Z k). apply Qfloor_resp_le. lra.
  - rewrite <- (Qceiling_Z (k + 1)). apply Qceiling_resp_le. rewrite inject_Z_plus. change (inject_Z 1) with 1. lra.
  - enough (k < Qceiling r)%Z by lia. rewrite Zlt_Qlt. pose proof (Qle_ceiling r). lra.
Qed.

Lemma ceil_div b k m : (0 <= m < b)%Z -> ((b * k + m + b - 1) / b = if m =? 0 then k else k + 1)%Z.
Proof.
  intros Hm. destruct (Z.eqb_spec m 0) as [->|Hne].
  - replace (b * k + 0 + b - 1)%Z with (k * b + (b - 1))%Z by ring. rewrite Z.div_add_l, Z.div_small by lia. lia.
  - replace (b * k + m + b - 1)%Z with ((k + 1) * b + (m - 1))%Z by ring.
    rewrite Z.div_add_l, (Z.div_small (m - 1)) by lia. lia.
Qed.

Lemma f64_div_quotient a b : (0 < b)%Z ->
  f64_div (F64 (inject_Z a)) (F64 (inject_Z b)) = round64 (inject_Z a / inject_Z b).
Proof.
  intros Hb. unfold f64_div. destruct (Qeq_bool (inject_Z b) 0) eqn:E; [|done]. apply Qeq_bool_iff in E.
  rewrite Zlt_Qlt in Hb. change (inject_Z 0) with 0 in Hb. lra.
Qed.

(** The rounded quotient of positive integers, with [a = b * k + m]. *)
Lemma round_quotient a b k m : (0 < a < 2 ^ 53)%Z -> (0 < b <= 2 ^ 53)%Z -> (0 <= m < b)%Z -> (a = b * k + m)%Z ->
  exists r, round64 (inject_Z a / inject_Z b) = F64 r /\ 0 <= r /\
    if (m =? 0)%Z then r == inject_Z k else inject_Z k < r < inject_Z k + 1.
Proof.
  intros Ha Hb Hm Eab. set (q := inject_Z a / inject_Z b).
  assert (0 < inject_Z b) as Hb0 by (rewrite <- (Zlt_Qlt 0); lia).
  assert (q * inject_Z b == inject_Z a) as Eq by (unfold q; field; lra).
  destruct (round64_good q (good_quotient a b Ha Hb)) as (r & Er & Hr). exists r. split; [done|].
  assert (q * inject_Z b == inject_Z b * inject_Z k + inject_Z m) as Ekm
    by (rewrite Eq, Eab, inject_Z_plus, inject_Z_mult; reflexivity).
  assert (0 <= q) as Hq0 by (unfold q; apply Qle_shift_div_l; [done|]; rewrite Qmult_0_l, <- (Zle_Qle 0); lia).
  split; [pose proof u_bounds; nra|]. destruct (Z.eqb_spec m 0) as [Em|Em].
  - assert (q == inject_Z k) as Hqk.
    { rewrite Em in Ekm. apply (Qmult_inj_r _ _ (inject_Z b)); [lra|]. rewrite Ekm. change (inject_Z 0) with 0. ring. }
    assert (0 < k)%Z by nia. rewrite <- (rnd_integral q k); [|nia|done].
    unfold round64 in Er. destruct (Qle_bool _ _); [done|]. by injection Er as ->.
  - (* the rounding error, in units of 1/b *)
    assert (q * u * inject_Z b < 1) as Herr.
    { assert (q * u * inject_Z b == inject_Z a * u) as -> by (rewrite <- Eq; ring).
      assert (inject_Z a < inject_Z (2 ^ 53)) as Hlt by (rewrite <- Zlt_Qlt; lia).
      apply (Qlt_le_trans _ (inject_Z (2 ^ 53) * u)); [apply Qmult_lt_compat_r; [reflexivity|done]|by vm_compute]. }
    assert (1 <= inject_Z m <= inject_Z b - 1) as Hmq.
    { split; [rewrite <- (Zle_Qle 1); lia|]. change 1 with (inject_Z 1). unfold Qminus.
      rewrite <- inject_Z_opp, <- inject_Z_plus, <- Zle_Qle. lia. }
    split; nra.
Qed.

(** The quotient of two integers, rounded: nothing crosses an integer. *)
Lemma f64_div_ints a b : (0 <= a < 2 ^ 53)%Z -> (0 < b <= 2 ^ 53)%Z ->
  exists r, f64_div (F64 (inject_Z a)) (F64 (inject_Z b)) = F64 r /\ 0 <= r /\
    Qfloor r = (a / b)%Z /\ Qceiling r = ((a + b - 1) / b)%Z.
Proof.
  intros Ha Hb. rewrite f64_div_quotient by lia. destruct (Z.eq_dec a 0) as [->|Ha0].
  { exists 0. unfold round64. rewrite rnd_zero by (unfold Qdiv; apply Qmult_0_l).
    rewrite Z.div_0_l, (Z.div_small (0 + b - 1) b) by lia. by split_and!. }
  pose proof (Z.mod_pos_bound a b ltac:(lia)) as Hm. pose proof (Z.div_mod a b ltac:(lia)) as Eab.
  set (k := (a / b)%Z) in *. set (m := (a mod b)%Z) in *.
  destruct (round_quotient a b k m ltac:(lia) Hb Hm Eab) as (r & -> & Hr0 & Hr). exists r.
  split; [done|]. split; [done|]. rewrite Eab, ceil_div by done.
  destruct (m =? 0)%Z; [|by apply strictly_between]. rewrite Hr. split; [apply Qfloor_Z|apply Qceiling_Z].
Qed.

Lemma f64_mul_int a b : (0 <= a * b <= 2 ^ 53)%Z ->
  f64_mul (F64 (inject_Z a)) (F64 (inject_Z b)) = F64 (inject_Z (a * b)).
Proof. intros Hab. unfold f64_mul. rewrite <- round64_int by done. f_equal. Qed.

Lemma f64_trunc_int z : in_i32 z -> f64_trunc (F64 (inject_Z z)) = Some z.
Proof.
  intros [H1 H2]. unfold f64_trunc.
  assert ((if Qle_bool 0 (inject_Z z) then Qfloor (inject_Z z) else Qceiling (inject_Z z)) = z) as ->
    by (destruct (Qle_bool _ _); [apply Qfloor_Z|apply Qceiling_Z]).
  apply Z.leb_le in H1. apply Z.ltb_lt in H2. by rewrite H1, H2.
Qed.
End quotients.

(** ** The calculator *)

#[local] Open Scope Z_scope.

Record ClusterReplicaAssignment := mkAssignment {
  ClusterName : string;
  TotalReplicas : Z;
  CanaryReplicas : Z;
  StableReplicas : Z;
  ClusterIndex : Z }.

Abbreviation Assignments := (gmap string ClusterReplicaAssignment).

Section calculator.
Context `{GoRuntime}.

(** [result[t.Name] = ClusterReplicaAssignment{...}] *)
Definition assign (result : Assignments) (i : Z) (t : ClusterTopology) (clusterCanary clusterStable : Z) : Assignments :=
  <[ct_Name t := mkAssignment (ct_Name t) (ct_Replicas t) clusterCanary clusterStable i]> result.

(** [int32(math.Ceil(float64(a) * float64(b) / float64(c)))] *)
Definition ceil_share (a b c : Z) : Z :=
  f64_to_i32 (f64_ceil (f64_div (f64_mul (f64_of_int a) (f64_of_int b)) (f64_of_int c))).

(** The loop of both calculateProportional and calculateWeighted: every cluster
    but the last takes its share, the last what remains, capped at its replicas. *)
Fixpoint share_loop (share : ClusterTopology -> Z) (i : Z) (topology : list ClusterTopology)
    (remainingCanary : Z) (result : Assignments) : Assignments :=
  match topology with
  | [] => result
  | t :: rest =>
      let clusterCanary := share t in
      let clusterCanary := match rest with [] => remainingCanary | _ => clusterCanary end in
      let clusterCanary := if ct_Replicas t <? clusterCanary then ct_Replicas t else clusterCanary in
      share_loop share (i + 1) rest (i32 (remainingCanary - clusterCanary))
        (assign result i t clusterCanary (i32 (ct_Replicas t - clusterCanary)))
  end.

Definition calculateProportional (globalCanaryReplicas : Z) (topology : list ClusterTopology) : Assignments :=
  let totalReplicas := sum32 ct_Replicas topology in
  share_loop (fun t => ceil_share globalCanaryReplicas (ct_Replicas t) totalReplicas) 0 topology
    globalCanaryReplicas ∅.

Fixpoint equal_loop (canaryPerCluster remaining i : Z) (topology : list ClusterTopology) (result : Assignments)
    : Assignments :=
  match topology with
  | [] => result
  | t :: rest =>
      let clusterCanary := canaryPerCluster in
      let clusterCanary := if i <? remaining then i32 (clusterCanary + 1) else clusterCanary in
      let clusterCanary := if ct_Replicas t <? clusterCanary then ct_Replicas t else clusterCanary in
      equal_loop canaryPerCluster remaining (i + 1) rest
        (assign result i t clusterCanary (i32 (ct_Replicas t - clusterCanary)))
  end.

(** [topology] is not empty: [CalculateReplicas] has checked. *)
Definition calculateEqual (globalCanaryReplicas : Z) (topology : list ClusterTopology) : Assignments :=
  let n := i32 (Z.of_nat (length topology)) in
  equal_loop (Z.quot globalCanaryReplicas n) (Z.rem globalCanaryReplicas n) 0 topology ∅.

Definition calculateWeighted (globalCanaryReplicas : Z) (topology : list ClusterTopology)
    (weights : list ClusterReplicaWeight) : Assignments :=
  let weightMap := map_of crw_ClusterName crw_Weight weights in
  let totalWeight := sum32 crw_Weight weights in
  if totalWeight =? 0 then calculateEqual globalCanaryReplicas topology
  else share_loop (fun t => ceil_share globalCanaryReplicas (lookup0 weightMap (ct_Name t)) totalWeight) 0 topology
         globalCanaryReplicas ∅.

Fixpoint sequential_loop (globalCanaryReplicas i : Z) (topology : list ClusterTopology) (result : Assignments)
    : Assignments :=
  match topology with
  | [] => result
  | t :: rest =>
      let '(clusterCanary, clusterStable) :=
        if i =? 0 then
          let clusterCanary :=
            if ct_Replicas t <? globalCanaryReplicas then ct_Replicas t else globalCanaryReplicas in
          (clusterCanary, i32 (ct_Replicas t - clusterCanary))
        else (0, ct_Replicas t) in
      sequential_loop globalCanaryReplicas (i + 1) rest (assign result i t clusterCanary clusterStable)
  end.

Definition calculateSequential (globalCanaryReplicas : Z) (topology : list ClusterTopology) : Assignments :=
  sequential_loop globalCanaryReplicas 0 topology ∅.

(** [int32(math.Ceil(float64(totalReplicas) * float64(globalPercent) / 100.0))] *)
Definition global_canary (totalReplicas globalPercent : Z) : Z := ceil_share totalReplicas globalPercent 100.

Definition CalculateReplicas (globalPercent totalReplicas : Z) (topology : list ClusterTopology)
    (distribution : option GlobalReplicaDistribution) : res Assignments :=
  match topology with
  | [] => Err "topology cannot be empty"
  | _ =>
      let globalCanaryReplicas := global_canary totalReplicas globalPercent in
      match distribution with
      | None => Ok (calculateProportional globalCanaryReplicas topology)
      | Some d =>
          if String.eqb (Mode d) DistributionModeEqual then Ok (calculateEqual globalCanaryReplicas topology)
          else if String.eqb (Mode d) DistributionModeWeighted
          then Ok (calculateWeighted globalCanaryReplicas topology (ClusterWeights d))
          else if String.eqb (Mode d) DistributionModeSequential then Ok (calculateSequential globalCanaryReplicas topology)
          else Err ("unknown distribution mode: " +:+ Mode d)
      end
  end.

Definition CalculateGlobalProgress (assignments : Assignments) (totalReplicas : Z) : Z :=
  let updatedReplicas := foldl (fun u kv => i32 (u + CanaryReplicas kv.2)) 0 (go_range 80 assignments) in
  if totalReplicas =? 0 then 0
  else f64_to_i32 (f64_div (f64_mul (f64_of_int updatedReplicas) (f64_of_int 100)) (f64_of_int totalReplicas)).
End calculator.

(** ** The assignments as a list *)

(** The canary replicas of the clusters, in the order of the topology. *)
Fixpoint share_canaries (share : ClusterTopology -> Z) (ts : list ClusterTopology) (remaining : Z) : list Z :=
  match ts with
  | [] => []
  | t :: rest =>
      let c := Z.min (ct_Replicas t) (match rest with [] => remaining | _ => share t end) in
      c :: share_canaries share rest (i32 (remaining - c))
  end.

Fixpoint equal_canaries (perCluster remaining i : Z) (ts : list ClusterTopology) : list Z :=
  match ts with
  | [] => []
  | t :: rest =>
      Z.min (ct_Replicas t) (if i <? remaining then i32 (perCluster + 1) else perCluster)
        :: equal_canaries perCluster remaining (i + 1) rest
  end.

Fixpoint assign_list (i : Z) (ts : list ClusterTopology) (cs : list Z) (result : Assignments) : Assignments :=
  match ts, cs with
  | t :: ts, c :: cs => assign_list (i + 1) ts cs (assign result i t c (i32 (ct_Replicas t - c)))
  | _, _ => result
  end.

Definition canary_total (m : Assignments) : Z := sumZ (fun kv => CanaryReplicas kv.2) (map_to_list m).

Section lists.
Context `{G : GoRuntime, !GoRuntimeLaws G}.
Implicit Types (ts : list ClusterTopology) (result : Assignments).

Lemma cap_min r c : (if r <? c then r else c) = Z.min r c.
Proof. bool_cases; lia. Qed.

Lemma share_loop_list share i ts remaining result :
  share_loop share i ts remaining result = assign_list i ts (share_canaries share ts remaining) result.
Proof.
  revert i remaining result; induction ts as [|t ts IH]; intros i remaining result; [done|].
  cbn [share_loop share_canaries assign_list]. cbv zeta. rewrite cap_min. by rewrite IH.
Qed.

Lemma equal_loop_list per remaining i ts result :
  equal_loop per remaining i ts result = assign_list i ts (equal_canaries per remaining i ts) result.
Proof.
  revert i result; induction ts as [|t ts IH]; intros i result; [done|].
  cbn [equal_loop equal_canaries assign_list]. cbv zeta. rewrite cap_min. by rewrite IH.
Qed.

Lemma assign_list_other i ts cs result name : name ∉ ct_Name <$> ts -> assign_list i ts cs result !! name = result !! name.
Proof.
  revert i cs result; induction ts as [|t ts IH]; intros i [|c cs] result Hn; simpl; try done.
  rewrite fmap_cons, not_elem_of_cons in Hn. destruct Hn as [Hn1 Hn2]. rewrite IH by done.
  unfold assign. by rewrite lookup_insert_ne by congruence.
Qed.

Lemma assign_list_lookup i ts cs result (j : nat) t c : NoDup (ct_Name <$> ts) -> ts !! j = Some t -> cs !! j = Some c ->
  assign_list i ts cs result !! ct_Name t =
  Some (mkAssignment (ct_Name t) (ct_Replicas t) c (i32 (ct_Replicas t - c)) (i + Z.of_nat j)).
Proof.
  revert i cs result j; induction ts as [|t0 ts IH]; intros i [|c0 cs] result [|j] Hnd Ht Hc; simpl in *; try done.
  - injection Ht as <-. injection Hc as <-. apply NoDup_cons in Hnd as [Hn _]. rewrite assign_list_other by done.
    unfold assign. rewrite lookup_insert_eq. repeat f_equal. lia.
  - apply NoDup_cons in Hnd as [_ Hnd]. rewrite (IH _ _ _ j Hnd Ht Hc). do 2 f_equal. lia.
Qed.

Lemma assign_list_dom i ts cs result name : length cs = length ts ->
  is_Some (assign_list i ts cs result !! name) <-> is_Some (result !! name) \/ name ∈ ct_Name <$> ts.
Proof.
  revert i cs result; induction ts as [|t ts IH]; intros i [|c cs] result Hl; try done; simpl.
  - rewrite elem_of_nil. tauto.
  - rewrite IH by (simpl in Hl; lia). unfold assign. rewrite elem_of_cons, lookup_insert_is_Some.
    destruct (decide (ct_Name t = name)); naive_solver.
Qed.

Lemma assign_list_total i ts cs result : NoDup (ct_Name <$> ts) -> length cs = length ts ->
  (forall name, name ∈ ct_Name <$> ts -> result !! name = None) ->
  canary_total (assign_list i ts cs result) = canary_total result + sumZ id cs.
Proof.
  revert i cs result; induction ts as [|t ts IH]; intros i [|c cs] result Hnd Hl Hnew; try done; simpl.
  - lia.
  - rewrite fmap_cons in Hnd. apply NoDup_cons in Hnd as [Hn Hnd]. rewrite IH; [|done|simpl in Hl; lia|].
    + unfold canary_total, assign. rewrite map_to_list_insert by (apply Hnew; by left). rewrite !sumZ_cons. simpl. lia.
    + intros name Hname. unfold assign. rewrite lookup_insert_ne by (intros E; apply Hn; by rewrite E). apply Hnew. by right.
Qed.

Lemma share_canaries_length share ts remaining : length (share_canaries share ts remaining) = length ts.
Proof. revert remaining; induction ts as [|t ts IH]; intros; simpl; [done|]. by rewrite IH. Qed.
Lemma equal_canaries_length per remaining i ts : length (equal_canaries per remaining i ts) = length ts.
Proof. revert i; induction ts as [|t ts IH]; intros; simpl; [done|]. by rewrite IH. Qed.

(** ** The shares *)

Lemma ceil_share_exact a b c : 0 <= a -> 0 <= b -> a * b < 2 ^ 53 -> a <= 2 ^ 53 -> b <= 2 ^ 53 -> 0 < c <= 2 ^ 53 ->
  (a * b + c - 1) / c <= max_int32 -> ceil_share a b c = (a * b + c - 1) / c.
Proof.
  intros Ha Hb Hab Ha' Hb' Hc Hmax. unfold ceil_share.
  assert (0 <= a * b) by nia. rewrite !f64_of_int_eq, f64_mul_int by lia.
  destruct (f64_div_ints (a * b) c ltac:(lia) ltac:(lia)) as (r & -> & _ & _ & Hceil). unfold f64_to_i32. cbn [f64_ceil].
  rewrite Hceil, f64_trunc_int; [done|]. unfold in_i32, max_int32 in *.
  assert (0 <= (a * b + c - 1) / c) by (apply Z.div_pos; nia). lia.
Qed.

Lemma ceil_bounds x c : 0 < c -> x <= c * ((x + c - 1) / c) <= x + c - 1.
Proof.
  intros Hc. pose proof (Z.div_mod (x + c - 1) c ltac:(lia)). pose proof (Z.mod_pos_bound (x + c - 1) c Hc). lia.
Qed.
End lists.

(** ** Properties *)

(** A topology of distinct clusters with counts of machine size. *)
Record topology_ok (ts : list ClusterTopology) : Prop := {
  to_names : NoDup (ct_Name <$> ts);
  to_nonneg : forall t, t ∈ ts -> 0 <= ct_Replicas t;
  to_total : sumZ ct_Replicas ts <= max_int32 }.

Section properties.
Context `{G : GoRuntime, !GoRuntimeLaws G}.
Implicit Types (ts : list ClusterTopology).

Lemma replicas_range ts t : topology_ok ts -> t ∈ ts -> 0 <= ct_Replicas t <= max_int32.
Proof.
  intros [_ Hnn Htot] Ht. split; [by apply Hnn|]. pose proof (sumZ_ge_elem ct_Replicas ts t Hnn Ht). lia.
Qed.

(** Each mode, as a list of canaries that no cluster's replicas exceed. *)
Definition as_list ts (m : Assignments) : Prop :=
  exists cs, m = assign_list 0 ts cs ∅ /\ length cs = length ts /\
    forall j t c, ts !! j = Some t -> cs !! j = Some c -> c <= ct_Replicas t.

Lemma share_as_list share ts g : as_list ts (share_loop share 0 ts g ∅).
Proof.
  exists (share_canaries share ts g). split_and!; [apply share_loop_list|apply share_canaries_length|].
  revert g; induction ts as [|t0 ts IH]; intros g [|j] t c; simpl; try done.
  - intros [= <-] [= <-]. lia.
  - apply IH.
Qed.

Lemma equal_as_list per remaining ts : as_list ts (equal_loop per remaining 0 ts ∅).
Proof.
  exists (equal_canaries per remaining 0 ts). split_and!; [apply equal_loop_list|apply equal_canaries_length|].
  generalize 0. induction ts as [|t0 ts IH]; intros i [|j] t c; simpl; try done.
  - intros [= <-] [= <-]. lia.
  - apply IH.
Qed.

Lemma sequential_rest g i ts result : 0 < i -> (forall t, t ∈ ts -> in_i32 (ct_Replicas t)) ->
  sequential_loop g i ts result = assign_list i ts (replicate (length ts) 0) result.
Proof.
  revert i result; induction ts as [|t ts IH]; intros i result Hi Hr; [done|].
  cbn [sequential_loop assign_list length replicate]. destruct (Z.eqb_spec i 0); [lia|].
  rewrite Z.sub_0_r, i32_id by (apply Hr; by left). apply IH; [lia|intros; apply Hr; by right].
Qed.

Lemma sequential_list g t ts : (forall t', t' ∈ ts -> in_i32 (ct_Replicas t')) ->
  calculateSequential g (t :: ts) = assign_list 0 (t :: ts) (Z.min (ct_Replicas t) g :: replicate (length ts) 0) ∅.
Proof.
  intros Hr. unfold calculateSequential. cbn [sequential_loop assign_list Z.eqb]. rewrite cap_min.
  rewrite sequential_rest by (done || lia). done.
Qed.

Lemma sequential_as_list g ts : topology_ok ts -> as_list ts (calculateSequential g ts).
Proof.
  intros Hok. destruct ts as [|t ts]; [exists []; by split_and!|].
  assert (forall t', t' ∈ ts -> 0 <= ct_Replicas t' <= max_int32) as Hr
    by (intros; apply (replicas_range _ _ Hok); by right).
  exists (Z.min (ct_Replicas t) g :: replicate (length ts) 0). split_and!.
  - apply sequential_list. intros t' Ht. pose proof (Hr t' Ht). int_range.
  - simpl. by rewrite length_replicate.
  - intros [|j] t' c; simpl; [intros [= <-] [= <-]; lia|]. intros Ht Hc. apply lookup_replicate in Hc as [-> _].
    apply Hr. by eapply list_elem_of_lookup_2.
Qed.

Lemma calculate_as_list p R ts d m : topology_ok ts -> CalculateReplicas p R ts d = Ok m -> as_list ts m.
Proof.
  intros Hok. unfold CalculateReplicas. destruct ts as [|t0 ts']; [done|]. set (ts := t0 :: ts') in *.
  destruct d as [d|]; [|intros [= <-]; apply share_as_list].
  destruct (String.eqb _ DistributionModeEqual); [intros [= <-]; apply equal_as_list|].
  destruct (String.eqb _ DistributionModeWeighted).
  { intros [= <-]. unfold calculateWeighted. destruct (_ =? 0); [apply equal_as_list|apply share_as_list]. }
  destruct (String.eqb _ _); [|done]. intros [= <-]. by apply sequential_as_list.
Qed.

(** The global number of canaries is the exact ceiling of the percentage, in
    spite of the binary64 arithmetic: never more than all replicas, and at least
    one as soon as there is a replica and a percentage above zero. *)
Theorem global_canary_exact R p : 0 <= R <= max_int32 -> 0 <= p <= 100 ->
  global_canary R p = (R * p + 99) / 100 /\ 0 <= global_canary R p <= R /\
  (0 < R -> 0 < p -> 0 < global_canary R p).
Proof.
  intros HR Hp. unfold max_int32 in HR. assert (0 <= R * p <= R * 100)
    by (split; [apply Z.mul_nonneg_nonneg|apply Z.mul_le_mono_nonneg_l]; lia).
  assert ((R * p + 99) / 100 < R + 1) as Hle by (apply Z.div_lt_upper_bound; lia).
  assert (global_canary R p = (R * p + 99) / 100) as E.
  { unfold global_canary. replace (R * p + 99) with (R * p + 100 - 1) in * by lia.
    apply ceil_share_exact; unfold max_int32; lia. }
  rewrite E. assert (0 <= (R * p + 99) / 100) by (apply Z.div_pos; lia). split_and!; [done|lia|lia|].
  intros. assert (1 <= R * p) by (apply (Z.mul_le_mono_nonneg 1 R 1 p); lia). apply Z.div_str_pos. lia.
Qed.

(** In every mode the calculator answers for exactly the clusters of the
    topology, each at its index with its total, never with more canaries than
    replicas, and stable replicas making up the total; it fails exactly on an
    empty topology or an unknown mode. *)
Theorem calculate_replicas_shape p R ts d : topology_ok ts ->
  match CalculateReplicas p R ts d with
  | Ok m =>
      (forall name, is_Some (m !! name) <-> name ∈ ct_Name <$> ts) /\
      forall (j : nat) t, ts !! j = Some t -> exists c,
        m !! ct_Name t = Some (mkAssignment (ct_Name t) (ct_Replicas t) c (i32 (ct_Replicas t - c)) (Z.of_nat j)) /\
        c <= ct_Replicas t
  | Err _ => ts = [] \/ exists dist, d = Some dist /\
      Mode dist ∉ [DistributionModeEqual; DistributionModeWeighted; DistributionModeSequential]
  end.
Proof.
  intros Hok. destruct (CalculateReplicas p R ts d) as [m|msg] eqn:E.
  - destruct (calculate_as_list _ _ _ _ _ Hok E) as (cs & -> & Hl & Hc). split.
    + intros name. rewrite assign_list_dom, lookup_empty by done. split; [|tauto]. by intros [[? ?]|].
    + intros j t Ht. assert (is_Some (cs !! j)) as [c Hj].
      { apply lookup_lt_is_Some. rewrite Hl. apply lookup_lt_is_Some. by eexists. }
      exists c. split; [|by eapply Hc]. rewrite (assign_list_lookup _ _ _ _ j t c (to_names _ Hok) Ht Hj). by rewrite Z.add_0_l.
  - unfold CalculateReplicas in E. destruct ts as [|t ts]; [by left|]. right. destruct d as [d|]; [|done].
    exists d. split; [done|]. destruct (String.eqb_spec (Mode d) DistributionModeEqual); [done|].
    destruct (String.eqb_spec (Mode d) DistributionModeWeighted); [done|].
    destruct (String.eqb_spec (Mode d) DistributionModeSequential); [done|]. set_solver.
Qed.

(** ** The totals *)

Lemma share_canaries_total share ts remaining : ts ≠ [] ->
  (forall t, t ∈ ts -> 0 <= share t <= ct_Replicas t) -> remaining <= sumZ share ts -> remaining <= 2 ^ 30 ->
  - 2 ^ 30 <= remaining - sumZ share ts -> sumZ id (share_canaries share ts remaining) = remaining.
Proof.
  revert remaining; induction ts as [|t ts IH]; intros remaining Hne Hs Hle Hmax Hmin; [done|].
  rewrite sumZ_cons in *. pose proof (Hs t ltac:(by left)) as Ht. cbn [share_canaries].
  assert (forall t', t' ∈ ts -> 0 <= share t' <= ct_Replicas t') as Hts by (intros; apply Hs; by right).
  destruct ts as [|t2 ts]; [rewrite sumZ_cons; simpl in *; lia|]. rewrite Z.min_r by lia. rewrite sumZ_cons.
  assert (0 <= sumZ share (t2 :: ts)) by (apply sumZ_nonneg; intros; by apply Hts).
  rewrite IH; [|done|done|rewrite i32_id by int_range; lia|rewrite i32_id by int_range; lia|rewrite i32_id by int_range; lia].
  rewrite i32_id by int_range. simpl. lia.
Qed.

Lemma canary_total_list ts cs : NoDup (ct_Name <$> ts) -> length cs = length ts ->
  canary_total (assign_list 0 ts cs ∅) = sumZ id cs.
Proof.
  intros Hnd Hl. rewrite assign_list_total; [|done|done|by intros; rewrite lookup_empty].
  unfold canary_total. by rewrite map_to_list_empty.
Qed.

(** The exact shares of a topology of moderate size. *)
Lemma proportional_shares g ts t : topology_ok ts -> 0 <= g <= sumZ ct_Replicas ts -> 0 < sumZ ct_Replicas ts <= 2 ^ 26 ->
  t ∈ ts -> let T := sumZ ct_Replicas ts in
  ceil_share g (ct_Replicas t) T = (g * ct_Replicas t + T - 1) / T /\ 0 <= ceil_share g (ct_Replicas t) T <= ct_Replicas t.
Proof.
  intros Hok Hg HT Ht T. fold T in Hg, HT. pose proof (replicas_range _ _ Hok Ht) as Hr.
  pose proof (sumZ_ge_elem ct_Replicas ts t (to_nonneg _ Hok) Ht) as HrT. fold T in HrT.
  assert (0 <= g * ct_Replicas t <= T * ct_Replicas t) as Hp
    by (split; [apply Z.mul_nonneg_nonneg|apply Z.mul_le_mono_nonneg_r]; lia).
  assert (T * ct_Replicas t <= 2 ^ 26 * 2 ^ 26) as Hb by (apply Z.mul_le_mono_nonneg; lia).
  assert ((g * ct_Replicas t + T - 1) / T < ct_Replicas t + 1) as Hle by (apply Z.div_lt_upper_bound; lia).
  assert (0 <= (g * ct_Replicas t + T - 1) / T) by (apply Z.div_pos; lia).
  rewrite ceil_share_exact; unfold max_int32 in *; lia.
Qed.

(** The default distribution hits the global number exactly: the canaries of
    all clusters sum to it although every share is rounded up, for any topology
    of up to 2^26 replicas; every cluster but the last has the ceiling of its
    proportional share. *)
Theorem proportional_total ts g : topology_ok ts -> 0 < sumZ ct_Replicas ts <= 2 ^ 26 ->
  0 <= g <= sumZ ct_Replicas ts ->
  canary_total (calculateProportional g ts) = g /\
  forall j t, ts !! j = Some t -> (S j < length ts)%nat -> exists a,
    calculateProportional g ts !! ct_Name t = Some a /\
    CanaryReplicas a = (g * ct_Replicas t + sumZ ct_Replicas ts - 1) / sumZ ct_Replicas ts.
Proof.
  intros Hok HT Hg. unfold calculateProportional. rewrite sum32_exact by (apply Hok). rewrite share_loop_list.
  pose proof (proportional_shares g ts) as Hshare. set (T := sumZ ct_Replicas ts) in *.
  set (share := fun t => ceil_share g (ct_Replicas t) T).
  assert (forall t, t ∈ ts -> 0 <= share t <= ct_Replicas t) as Hs by (intros t Ht; by apply (Hshare t)).
  assert (g <= sumZ share ts) as Hge.
  { enough (g * T <= sumZ share ts * T) by nia. rewrite <- (Z.mul_comm T (sumZ share ts)).
    assert (forall l, (forall t, t ∈ l -> t ∈ ts) -> g * sumZ ct_Replicas l <= T * sumZ share l) as Hl; [|by apply Hl].
    induction l as [|t l IH]; intros Hin; [simpl; lia|]. rewrite !sumZ_cons.
    pose proof (IH ltac:(intros; apply Hin; by right)). destruct (Hshare t Hok Hg HT ltac:(apply Hin; by left)) as [E _].
    fold (share t) in E. pose proof (ceil_bounds (g * ct_Replicas t) T ltac:(lia)) as Hc. rewrite <- E in Hc. lia. }
  assert (sumZ share ts <= T) as Hle by (apply sumZ_le; intros t Ht; by apply Hs).
  split.
  - rewrite canary_total_list; [|apply Hok|apply share_canaries_length].
    apply share_canaries_total; [|done|done|lia|lia]. intros ->. unfold T in HT. simpl in HT. lia.
  - intros j t Ht Hj.
    assert (forall l k rem, l !! k = Some t -> (S k < length l)%nat -> (forall t, t ∈ l -> 0 <= share t <= ct_Replicas t) ->
      share_canaries share l rem !! k = Some (share t)) as Hlook.
    { induction l as [|x l IH]; intros [|k] rem; simpl; try done.
      - intros [= ->] Hlen Hl. destruct l; simpl in *; [lia|]. rewrite Z.min_r; [done|]. apply Hl. by left.
      - intros Hk Hlen Hl. apply IH; [done|lia|]. intros; apply Hl; by right. }
    erewrite assign_list_lookup; [|apply Hok|exact Ht|by apply Hlook]. eexists. split; [done|]. simpl.
    apply (Hshare t); try done. by eapply list_elem_of_lookup_2.
Qed.

(** Rounding every share up can leave less than nothing for the last cluster:
    half of four clusters with one replica each gives the last one -1 canaries
    and 2 stable replicas, although the total of 2 is right. *)
Theorem last_cluster_can_go_negative :
  exists m, CalculateReplicas 50 4 [mkTopology "a" 1; mkTopology "b" 1; mkTopology "c" 1; mkTopology "d" 1] None = Ok m /\
    m !! "d" = Some (mkAssignment "d" 1 (-1) 2 3) /\ canary_total m = 2.
Proof. eexists. split_and!; vm_compute; reflexivity. Qed.

Lemma equal_canaries_sum per remaining i ts : 0 <= i -> 0 <= per < max_int32 ->
  (forall t, t ∈ ts -> per + 1 <= ct_Replicas t \/ (per <= ct_Replicas t /\ remaining <= i)) ->
  sumZ id (equal_canaries per remaining i ts) =
    per * Z.of_nat (length ts) + Z.min (Z.of_nat (length ts)) (Z.max 0 (remaining - i)).
Proof.
  unfold max_int32. revert i; induction ts as [|t ts IH]; intros i Hi Hper Hr; cbn [equal_canaries]; [simpl; lia|].
  rewrite sumZ_cons, IH, length_cons; [|lia|done|].
  - pose proof (Hr t ltac:(by left)). rewrite i32_id by int_range. unfold id. bool_cases; lia.
  - intros t' Ht'. destruct (Hr t' ltac:(by right)); [by left|right; lia].
Qed.

Lemma equal_canaries_lookup per remaining i ts (j : nat) t : ts !! j = Some t ->
  equal_canaries per remaining i ts !! j =
  Some (Z.min (ct_Replicas t) (if i + Z.of_nat j <? remaining then i32 (per + 1) else per)).
Proof.
  revert i j; induction ts as [|x ts IH]; intros i [|j]; simpl; try done.
  - intros [= ->]. by rewrite Z.add_0_r.
  - intros Ht. rewrite (IH _ _ Ht). do 3 f_equal. by replace (i + 1 + Z.of_nat j) with (i + Z.of_nat (S j)) by lia.
Qed.

(** The Equal mode gives every cluster the same number of canaries, up to one
    more for the first clusters and the cap of the cluster's own replicas, and
    when no cap bites the total is the global number. *)
Theorem equal_distribution ts g : topology_ok ts -> ts ≠ [] -> 0 <= g < max_int32 -> Z.of_nat (length ts) <= max_int32 ->
  let n := Z.of_nat (length ts) in
  (forall (j : nat) t, ts !! j = Some t -> exists a, calculateEqual g ts !! ct_Name t = Some a /\
     CanaryReplicas a = Z.min (ct_Replicas t) (g / n + if Z.of_nat j <? g mod n then 1 else 0)) /\
  ((forall t, t ∈ ts -> g / n + 1 <= ct_Replicas t) -> canary_total (calculateEqual g ts) = g).
Proof.
  intros Hok Hne Hg Hlen n. assert (0 < n) as Hn by (unfold n; destruct ts; [done|simpl; lia]).
  pose proof (Z.div_mod g n ltac:(lia)) as Hdm. pose proof (Z.mod_pos_bound g n Hn) as Hm.
  assert (0 <= g / n <= g) as Hq.
  { split; [apply Z.div_pos; lia|]. apply Z.div_le_upper_bound; [lia|]. nia. }
  assert (calculateEqual g ts = assign_list 0 ts (equal_canaries (g / n) (g mod n) 0 ts) ∅) as ->.
  { unfold calculateEqual. fold n. rewrite (i32_id n) by int_range.
    rewrite Z.quot_div_nonneg, Z.rem_mod_nonneg by lia. apply equal_loop_list. }
  split.
  - intros j t Ht. erewrite assign_list_lookup; [|apply Hok|exact Ht|by apply equal_canaries_lookup].
    eexists. split; [done|]. simpl. rewrite i32_id by int_range. bool_cases; lia.
  - intros Hr. rewrite canary_total_list; [|apply Hok|apply equal_canaries_length].
    rewrite equal_canaries_sum; [fold n; lia|lia|lia|]. intros t Ht. left. by apply Hr.
Qed.

(** The Sequential mode updates the first cluster only: it gets all canaries,
    up to its replicas, and every other cluster stays stable. *)
Theorem sequential_first_only t ts g : topology_ok (t :: ts) ->
  canary_total (calculateSequential g (t :: ts)) = Z.min (ct_Replicas t) g /\
  forall t', t' ∈ ts -> exists a, calculateSequential g (t :: ts) !! ct_Name t' = Some a /\
    CanaryReplicas a = 0 /\ StableReplicas a = ct_Replicas t'.
Proof.
  intros Hok. assert (forall t', t' ∈ ts -> in_i32 (ct_Replicas t')) as Hr.
  { intros t' Ht. pose proof (replicas_range _ t' Hok ltac:(by right)). int_range. }
  rewrite sequential_list by done. split.
  - rewrite canary_total_list; [|apply Hok|simpl; by rewrite length_replicate].
    rewrite sumZ_cons, (sumZ_zero id); [unfold id; lia|]. intros z Hz. by apply elem_of_replicate in Hz as [-> _].
  - intros t' Ht. apply list_elem_of_lookup in Ht as [j Hj].
    erewrite (assign_list_lookup _ _ _ _ (S j) t'); [|apply Hok|done|].
    + eexists. split; [done|]. simpl. split; [done|]. rewrite Z.sub_0_r. apply i32_id, Hr.
      by eapply list_elem_of_lookup_2.
    + simpl. apply lookup_replicate. split; [done|]. apply lookup_lt_Some in Hj. done.
Qed.

(** The progress of a rollout is the exact integer part of the percentage of
    updated replicas, whatever the order of the map, and 100 only when all
    replicas are updated. *)
Theorem progress_exact m total :
  (forall n a, m !! n = Some a -> 0 <= CanaryReplicas a) -> canary_total m <= total -> 0 < total <= max_int32 ->
  CalculateGlobalProgress m total = (100 * canary_total m) / total /\
  0 <= CalculateGlobalProgress m total <= 100 /\
  (CalculateGlobalProgress m total = 100 <-> canary_total m = total).
Proof.
  intros Hnn Hle Ht. unfold max_int32 in Ht.
  assert (0 <= canary_total m) as H0.
  { apply sumZ_nonneg. intros [n a] Ha. apply elem_of_map_to_list in Ha. by eapply Hnn. }
  assert (CalculateGlobalProgress m total = (100 * canary_total m) / total) as ->.
  { unfold CalculateGlobalProgress. destruct (Z.eqb_spec total 0); [lia|].
    assert (foldl (fun u kv => i32 (u + CanaryReplicas kv.2)) 0 (go_range 80 m) = canary_total m) as ->.
    { change (sum32 (fun kv => CanaryReplicas kv.2) (go_range 80 m) = canary_total m).
      unfold canary_total in *. rewrite sum32_exact; rewrite ?go_range_perm; [done| |unfold max_int32; lia].
      intros [n' a] Ha. rewrite go_range_perm in Ha. apply elem_of_map_to_list in Ha. by eapply Hnn. }
    rewrite !f64_of_int_eq, f64_mul_int by lia. rewrite (Z.mul_comm 100).
    destruct (f64_div_ints (canary_total m * 100) total ltac:(lia) ltac:(lia)) as (r & -> & Hr & Hf & _).
    unfold f64_to_i32, f64_trunc. rewrite (proj2 (Qle_bool_iff 0 r) Hr), Hf.
    assert (0 <= canary_total m * 100 / total) by (apply Z.div_pos; lia).
    assert (canary_total m * 100 / total < 101) by (apply Z.div_lt_upper_bound; lia).
    destruct (_ && _) eqn:E; [done|]. apply andb_false_iff in E as [E%Z.leb_gt|E%Z.ltb_ge]; lia. }
  pose proof (Z.div_mod (100 * canary_total m) total ltac:(lia)) as Hd.
  pose proof (Z.mod_pos_bound (100 * canary_total m) total ltac:(lia)) as Hm.
  assert (0 <= 100 * canary_total m / total) by (apply Z.div_pos; lia).
  assert (100 * canary_total m / total < 101) by (apply Z.div_lt_upper_bound; lia).
  split_and!; [done|lia|lia|]. split; [intros E; rewrite E in Hd; lia|]. intros ->. apply Z.div_mul. lia.
Qed.
End properties.

(** ** The properties at concrete topologies *)

Definition three_clusters : list ClusterTopology := [mkTopology "a" 5; mkTopology "b" 3; mkTopology "c" 2].

Lemma three_clusters_ok : topology_ok three_clusters.
Proof.
  split.
  - apply (bool_decide_eq_true_1 (NoDup (ct_Name <$> three_clusters))). vm_compute. reflexivity.
  - intros t Ht. unfold three_clusters in Ht. repeat (apply elem_of_cons in Ht as [->|Ht]; [simpl; lia|]).
    by apply elem_of_nil in Ht.
  - vm_compute. discriminate.
Qed.

Lemma global_canary_exact_witness : global_canary 7 20 = 2 /\ 0 < global_canary 7 20.
Proof.
  destruct (global_canary_exact 7 20 ltac:(unfold max_int32; lia) ltac:(lia)) as (H1 & _ & H3).
  split; [rewrite H1; reflexivity|apply H3; lia].
Defined.

Lemma calculate_replicas_shape_witness : exists m,
  CalculateReplicas 20 10 three_clusters None = Ok m /\ (forall name, is_Some (m !! name) <-> name ∈ ["a"; "b"; "c"]).
Proof.
  destruct (CalculateReplicas 20 10 three_clusters None) as [m|msg] eqn:E; [|discriminate E].
  exists m. split; [reflexivity|]. pose proof (calculate_replicas_shape 20 10 three_clusters None three_clusters_ok) as H.
  rewrite E in H. exact (proj1 H).
Defined.

Lemma proportional_total_witness :
  canary_total (calculateProportional 4 three_clusters) = 4 /\
  exists a, calculateProportional 4 three_clusters !! "b" = Some a /\ CanaryReplicas a = 2.
Proof.
  assert (0 < sumZ ct_Replicas three_clusters <= 2 ^ 26) as H1 by (split; [reflexivity|vm_compute; discriminate]).
  assert (0 <= 4 <= sumZ ct_Replicas three_clusters) as H2 by (split; [lia|vm_compute; discriminate]).
  destruct (proportional_total three_clusters 4 three_clusters_ok H1 H2) as [Ht Hs]. split; [exact Ht|].
  exact (Hs 1%nat (mkTopology "b" 3) eq_refl ltac:(simpl; lia)).
Defined.

Lemma equal_distribution_witness : exists a,
  calculateEqual 7 three_clusters !! "a" = Some a /\ CanaryReplicas a = 3.
Proof.
  destruct (equal_distribution three_clusters 7 three_clusters_ok) as [H _]; [discriminate|unfold max_int32; lia|
    vm_compute; discriminate|].
  exact (H 0%nat (mkTopology "a" 5) eq_refl).
Defined.

Lemma sequential_first_only_witness : canary_total (calculateSequential 7 three_clusters) = 5.
Proof.
  exact (proj1 (sequential_first_only (mkTopology "a" 5) [mkTopology "b" 3; mkTopology "c" 2] 7 three_clusters_ok)).
Defined.

Lemma sequential_nonneg n a : calculateSequential 7 three_clusters !! n = Some a -> 0 <= CanaryReplicas a.
Proof.
  assert (bool_decide (map_Forall (fun _ x => 0 <= CanaryReplicas x) (calculateSequential 7 three_clusters)) = true) as Hb
    by (vm_compute; reflexivity).
  apply bool_decide_eq_true in Hb. apply (Hb n).
Qed.

Lemma progress_exact_witness : CalculateGlobalProgress (calculateSequential 7 three_clusters) 10 = 50.
Proof.
  destruct (progress_exact (calculateSequential 7 three_clusters) 10 sequential_nonneg) as [H _].
  - vm_compute. discriminate.
  - unfold max_int32. lia.
  - rewrite H. vm_compute. reflexivity.
Defined.
