(* ===== verification/Rollout.v ===== *)
(** * Rollouts

    application/rollout_builder.go, rollout_status.go and rollout_coordinator.go:
    the Rollout object of each cluster, the status read back from it, and the order
    in which the clusters of an application are updated.  The clusters are reached
    through the class [ClusterClients]. *)

From stdpp Require Import pretty.
From S2P Require Import Prelude Float64 GoRuntime Api Json Clients ReplicaCalculator.

(** ** rollout_builder.go *)

Section builder.
Context `{GoRuntime, Kubernetes}.

(** [spec[k] = v] *)
Definition set_field (k : string) (v : json) (j : json) : json :=
  match j with JObj m => JObj (<[k := v]> m) | _ => j end.
Definition set_field_if (b : bool) (k : string) (v : json) (j : json) : json :=
  if b then set_field k v j else j.

Definition buildTrafficRouting (tr : TrafficRouting) : json :=
  let traffic := obj [] in
  let traffic :=
    match Istio tr with
    | Some istio =>
        let istioConfig := obj [("virtualService", obj [("name", JStr (VirtualService istio))])] in
        let istioConfig := set_field_if (negb (String.eqb (DestinationRule istio) "")) "destinationRule"
          (obj [("name", JStr (DestinationRule istio))]) istioConfig in
        set_field "istio" istioConfig traffic
    | None => traffic
    end in
  match Nginx tr with
  | Some nginx => set_field "nginx" (obj [("annotation", obj [("name", JStr (Ingress nginx))])]) traffic
  | None => traffic
  end.

(** [fmt.Sprintf("%d%%", step.Weight)] *)
Definition percent (weight : Z) : string := pretty weight +:+ "%".

Definition build_step (step : CanaryStep) : json :=
  let stepObj := obj [("replicas", JStr (percent (step_Weight step)))] in
  match step_Pause step with
  | Some (mkPause (Some duration)) => set_field "pause" (obj [("duration", JInt duration)]) stepObj
  | _ => stepObj
  end.

Definition buildCanarySteps (steps : list CanaryStep) : list json := build_step <$> steps.

Definition buildCanaryStrategy (strategy : RolloutStrategy) (assignment : option ClusterReplicaAssignment)
    : option json :=
  match rs_Canary strategy with
  | None => None
  | Some c =>
      let steps :=
        match canary_GlobalReplicaDistribution c, assignment with
        | Some _, Some a => [obj [("replicas", JInt (CanaryReplicas a))]]
        | _, _ => buildCanarySteps (Steps c)
        end in
      let canary := obj [("steps", JArr steps)] in
      let canary :=
        match canary_TrafficRouting c with
        | Some tr => set_field "trafficRouting" (buildTrafficRouting tr) canary
        | None => canary
        end in
      Some (obj [("canary", canary)])
  end.

Definition buildBlueGreenStrategy (strategy : RolloutStrategy) : option json :=
  match rs_BlueGreen strategy with
  | None => None
  | Some bg =>
      let blueGreen := obj [("activeService", JStr (ActiveService bg))] in
      let blueGreen := set_field_if (negb (String.eqb (PreviewService bg) "")) "previewService"
        (JStr (PreviewService bg)) blueGreen in
      let blueGreen := set_field_if (AutoPromotionEnabled bg) "autoPromotionEnabled" (JBool true) blueGreen in
      let blueGreen := set_field_if (0 <? ScaleDownDelaySeconds bg) "scaleDownDelaySeconds"
        (JInt (ScaleDownDelaySeconds bg)) blueGreen in
      Some (obj [("blueGreen", blueGreen)])
  end.

(** [int32(float64(total) * float64(split) / 100.0)] for a candidate cluster. *)
Definition abtest_replicas (abt : ABTestStrategy) (a : ClusterReplicaAssignment) : Z :=
  if existsb (fun c => String.eqb c (ClusterName a)) (CandidateClusters abt)
  then f64_to_i32 (f64_div (f64_mul (f64_of_int (TotalReplicas a)) (f64_of_int (TrafficSplit abt))) (f64_of_int 100))
  else 0.

Definition buildABTestStrategy (strategy : RolloutStrategy) (assignment : option ClusterReplicaAssignment)
    : option json :=
  match rs_ABTest strategy, assignment with
  | Some abt, Some a =>
      Some (obj [("canary", obj [("steps", JArr [obj [("replicas", JInt (abtest_replicas abt a))]])])])
  | _, _ => None
  end.

Definition rollout_strategy_of (strategy : RolloutStrategy) (assignment : option ClusterReplicaAssignment)
    : option json :=
  if String.eqb (rs_Type strategy) RolloutTypeCanary then buildCanaryStrategy strategy assignment
  else if String.eqb (rs_Type strategy) RolloutTypeBlueGreen then buildBlueGreenStrategy strategy
  else if String.eqb (rs_Type strategy) RolloutTypeABTest then buildABTestStrategy strategy assignment
  else None.

Definition buildRolloutSpec (app : Application) (strategy : RolloutStrategy)
    (assignment : option ClusterReplicaAssignment) : json :=
  let spec := obj [("objectRef", obj [("workloadRef", obj [
    ("apiVersion", JStr (APIVersion (Workload (Spec app))));
    ("kind", JStr (Kind (Workload (Spec app))));
    ("name", JStr (app_Name app))])])] in
  match rollout_strategy_of strategy assignment with
  | Some s => set_field "strategy" s spec
  | None => spec
  end.

Definition BuildRollout (app : Application) (clusterName : string)
    (assignment : option ClusterReplicaAssignment) : res json :=
  match spec_RolloutStrategy (Spec app) with
  | None => Err "no rollout strategy specified"
  | Some strategy => Ok (obj [
      ("apiVersion", JStr "rollouts.kruise.io/v1alpha1");
      ("kind", JStr "Rollout");
      ("metadata", obj [
        ("name", JStr (app_Name app));
        ("namespace", JStr (app_Namespace app));
        ("labels", obj [
          ("app.kubernetes.io/name", JStr (app_Name app));
          ("app.kubernetes.io/managed-by", JStr "kumquat");
          ("kumquat.io/application", JStr (app_Name app));
          ("kumquat.io/cluster", JStr clusterName)]);
        ("ownerReferences", JArr [obj [
          ("apiVersion", JStr (id_APIVersion (app_Identity app)));
          ("blockOwnerDeletion", JBool true);
          ("controller", JBool true);
          ("kind", JStr (id_Kind (app_Identity app)));
          ("name", JStr (app_Name app));
          ("uid", JStr (id_UID (app_Identity app)))]])]);
      ("spec", buildRolloutSpec app strategy assignment)])
  end.

Definition BuildEmptyRollout (app : Application) : json := obj [
  ("apiVersion", JStr "rollouts.kruise.io/v1alpha1");
  ("kind", JStr "Rollout");
  ("metadata", obj [("name", JStr (app_Name app)); ("namespace", JStr (app_Namespace app))])].
End builder.

(** ** rollout_status.go *)

Section status.
Context `{Kubernetes, Unstructured, ApiErrors, !ClusterClients}.

Definition int32_at (j : json) (field : string) : Z :=
  match found (NestedInt64 j ["status"; field]) with Some z => i32 z | None => 0 end.

Definition extractRolloutStatus (rollout : json) : RolloutStatus := {|
  ro_Phase := default "" (found (NestedString rollout ["status"; "phase"]));
  ro_Message := default "" (found (NestedString rollout ["status"; "message"]));
  ro_CurrentStep := int32_at rollout "currentStepIndex";
  ro_CurrentStepWeight := int32_at rollout "currentStepWeight";
  ro_StableReplicas := int32_at rollout "stableReplicas";
  ro_CanaryReplicas := int32_at rollout "canaryReplicas";
  ro_UpdatedReplicas := int32_at rollout "updatedReplicas";
  ro_ReadyReplicas := int32_at rollout "readyReplicas";
  ro_LastUpdateTime := 0 |}.

Definition getRolloutStatus (w : remote) (clusterName : string) (app : Application) : remote * res RolloutStatus :=
  let '(w, got) := rc_Get clusterName "rollouts.kruise.io/v1alpha1" "Rollout" (app_Namespace app) (app_Name app) w in
  (w, match got with Ok rollout => Ok (extractRolloutStatus rollout) | Err e => Err e end).

(** The first entry of the cluster, or a new one at the end. *)
Fixpoint set_rollout (css : list ClusterStatus) (clusterName : string) (st : RolloutStatus) : list ClusterStatus :=
  match css with
  | [] => [mkClusterStatus clusterName "" 0 0 0 "" (Some st)]
  | cs :: rest =>
      if String.eqb (cs_ClusterName cs) clusterName
      then mkClusterStatus (cs_ClusterName cs) (cs_Phase cs) (cs_Replicas cs) (cs_ReadyReplicas cs)
             (cs_AvailableReplicas cs) (cs_Message cs) (Some st) :: rest
      else cs :: set_rollout rest clusterName st
  end.

Definition with_clusters_status (app : Application) (css : list ClusterStatus) : Application :=
  let st := Status app in
  mkApplication (app_Identity app) (app_Name app) (app_Namespace app) (app_ResourceVersion app)
    (app_Labels app) (app_Annotations app) (Spec app)
    (mkAppStatus (SchedulingPhase st) (HealthPhase st) (GlobalReadyReplicas st) (GlobalReplicas st) (Topology st)
       (AppliedClusters st) css (ObservedGeneration st) (Conditions st)).

Definition updateClusterRolloutStatus (app : Application) (clusterName : string) (st : RolloutStatus) : Application :=
  with_clusters_status app (set_rollout (ClustersStatus (Status app)) clusterName st).

(** The errors of one cluster are logged; the function itself returns nil. *)
Fixpoint aggregate_loop (w : remote) (app : Application) (clusters : list string) : remote * Application :=
  match clusters with
  | [] => (w, app)
  | clusterName :: rest =>
      let '(w, err) := GetClient clusterName w in
      match err with
      | Some _ => aggregate_loop w app rest
      | None =>
          let '(w, got) := getRolloutStatus w clusterName app in
          match got with
          | Err _ => aggregate_loop w app rest
          | Ok st => aggregate_loop w (updateClusterRolloutStatus app clusterName st) rest
          end
      end
  end.

Definition AggregateRolloutStatus (w : remote) (app : Application) (clusters : list string) : remote * Application :=
  match spec_RolloutStrategy (Spec app) with
  | None => (w, app)
  | Some _ => aggregate_loop w app clusters
  end.
End status.

(** ** rollout_coordinator.go *)

Section coordinator.
Context `{GoRuntime, Kubernetes, Unstructured, ApiErrors, !ClusterClients}.

Definition getCurrentStepPercent (app : Application) : Z :=
  match head (omap (fun status =>
    match cs_Rollout status with
    | Some ro => if 0 <? ro_CurrentStepWeight ro then Some (ro_CurrentStepWeight ro) else None
    | None => None
    end) (ClustersStatus (Status app))) with
  | Some weight => weight
  | None =>
      match spec_RolloutStrategy (Spec app) with
      | Some strategy =>
          match rs_Canary strategy with
          | Some c => match Steps c with step :: _ => step_Weight step | [] => 0 end
          | None => 0
          end
      | None => 0
      end
  end.

(** The first entry of the cluster that has a rollout decides. *)
Fixpoint rollout_complete_in (css : list ClusterStatus) (clusterName : string) : bool :=
  match css with
  | [] => false
  | status :: rest =>
      match cs_Rollout status with
      | Some ro =>
          if String.eqb (cs_ClusterName status) clusterName
          then String.eqb (ro_Phase ro) RolloutPhaseSucceeded || String.eqb (ro_Phase ro) RolloutPhaseInitial
          else rollout_complete_in rest clusterName
      | None => rollout_complete_in rest clusterName
      end
  end.

Definition isRolloutComplete (app : Application) (clusterName : string) : bool :=
  rollout_complete_in (ClustersStatus (Status app)) clusterName.

(** The error, if any. *)
Definition applyRollout (w : remote) (clusterName : string) (rollout : json) : remote * option string :=
  let '(w, err) := rc_Create clusterName rollout w in
  match err with
  | None => (w, None)
  | Some e =>
      if IsAlreadyExists e then
        let '(w, err) := rc_Update clusterName rollout w in
        (w, (fun e => "failed to update rollout: " +:+ e) <$> err)
      else (w, Some ("failed to create rollout: " +:+ e))
  end.

Definition is_sequential (strategy : RolloutStrategy) : bool :=
  match rs_ClusterOrder strategy with
  | Some order => String.eqb (order_Type order) ClusterOrderSequential
  | None => false
  end.

(** Both branches of the source list the clusters in the order of the topology. *)
Definition ordered_clusters (strategy : RolloutStrategy) (topology : list ClusterTopology) : list string :=
  if is_sequential strategy then ct_Name <$> topology else ct_Name <$> topology.

(** The assignments are nil unless a Canary has a global distribution. *)
Definition cluster_assignments (app : Application) (strategy : RolloutStrategy) (topology : list ClusterTopology)
    : res (option Assignments) :=
  if String.eqb (rs_Type strategy) RolloutTypeCanary then
    match rs_Canary strategy with
    | Some c =>
        match canary_GlobalReplicaDistribution c with
        | Some d =>
            match CalculateReplicas (getCurrentStepPercent app) (sum32 ct_Replicas topology) topology (Some d) with
            | Ok m => Ok (Some m)
            | Err e => Err ("failed to calculate replica distribution: " +:+ e)
            end
        | None => Ok None
        end
    | None => Ok None
    end
  else Ok None.

(** The body of the loop once the cluster's turn has come. *)
Definition rollout_cluster (w : remote) (app : Application) (assignments : option Assignments) (clusterName : string)
    : remote :=
  let '(w, err) := GetClient clusterName w in
  match err with
  | Some _ => w
  | None =>
      match BuildRollout app clusterName (assignments ≫= fun m => m !! clusterName) with
      | Err _ => w
      | Ok rollout => (applyRollout w clusterName rollout).1
      end
  end.

(** [prev] is [orderedClusters[i-1]], nothing for the first cluster. *)
Fixpoint rollout_loop (w : remote) (app : Application) (strategy : RolloutStrategy)
    (assignments : option Assignments) (prev : option string) (clusters : list string) : remote :=
  match clusters with
  | [] => w
  | clusterName :: rest =>
      let waits :=
        match prev with
        | Some prevCluster => is_sequential strategy && negb (isRolloutComplete app prevCluster)
        | None => false
        end in
      let w := if waits then w else rollout_cluster w app assignments clusterName in
      rollout_loop w app strategy assignments (Some clusterName) rest
  end.

Definition ReconcileRollout (w : remote) (app : Application) (topology : list ClusterTopology)
    : remote * option string :=
  match spec_RolloutStrategy (Spec app) with
  | None => (w, None)
  | Some strategy =>
      match cluster_assignments app strategy topology with
      | Err e => (w, Some e)
      | Ok assignments =>
          (rollout_loop w app strategy assignments None (ordered_clusters strategy topology), None)
      end
  end.

(** The error of a deletion is logged. *)
Definition DeleteRollout (w : remote) (app : Application) (clusters : list string) : remote :=
  foldl (fun w clusterName =>
    let '(w, err) := GetClient clusterName w in
    match err with
    | Some _ => w
    | None => (rc_Delete clusterName (BuildEmptyRollout app) w).1
    end) w clusters.
End coordinator.

(** ** Properties *)

Section properties.
Context `{G : GoRuntime, !GoRuntimeLaws G, K : Kubernetes, U : Unstructured, !UnstructuredLaws U, Er : ApiErrors, R : !ClusterClients}.
Implicit Types (app : Application) (strategy : RolloutStrategy).

(** The clusters whose turn has come: all of them in parallel; in sequence, the
    first, and those whose predecessor is complete. *)
Definition rollout_targets app strategy (names : list string) : list string :=
  if is_sequential strategy
  then omap (fun pc => match pc.1 with
    | Some prev => if isRolloutComplete app prev then Some pc.2 else None
    | None => Some pc.2 end) (zip (None :: (Some <$> names)) names)
  else names.

Lemma rollout_loop_targets app strategy assignments w prev names :
  rollout_loop w app strategy assignments prev names =
  foldl (fun w n => rollout_cluster w app assignments n) w
    (if is_sequential strategy
     then omap (fun pc => match pc.1 with
       | Some p => if isRolloutComplete app p then Some pc.2 else None
       | None => Some pc.2 end) (zip (prev :: (Some <$> names)) names)
     else names).
Proof.
  revert w prev; induction names as [|n names IH]; intros w prev.
  { cbn. by destruct (is_sequential strategy). }
  cbn [rollout_loop]. cbv zeta. rewrite IH. destruct (is_sequential strategy); simpl.
  - destruct prev as [p|]; simpl; [|done]. by destruct (isRolloutComplete app p).
  - by destruct prev.
Qed.

(** The coordinator touches exactly the clusters whose turn has come, once
    each, in the order of the topology, and each gets the Rollout built for it
    with its own share of the canaries; without a strategy, or when the shares
    cannot be computed, it touches nothing. *)
Theorem reconcile_rollout_targets w app topology :
  match spec_RolloutStrategy (Spec app) with
  | None => ReconcileRollout w app topology = (w, None)
  | Some strategy =>
      match cluster_assignments app strategy topology with
      | Err e => ReconcileRollout w app topology = (w, Some e)
      | Ok assignments => ReconcileRollout w app topology =
          (foldl (fun w n => rollout_cluster w app assignments n) w
             (rollout_targets app strategy (ct_Name <$> topology)), None)
      end
  end.
Proof.
  unfold ReconcileRollout, rollout_targets. destruct (spec_RolloutStrategy (Spec app)) as [strategy|]; [|done].
  destruct (cluster_assignments app strategy topology) as [m|e]; [|done].
  rewrite rollout_loop_targets. unfold ordered_clusters. by destruct (is_sequential strategy).
Qed.

(** An A/B test is never configured: the coordinator computes assignments for
    Canary only, and without an assignment the builder leaves the strategy out,
    so that every Rollout of an A/B test has no strategy at all. *)
Theorem abtest_has_no_strategy app strategy topology clusterName rollout assignments :
  spec_RolloutStrategy (Spec app) = Some strategy -> rs_Type strategy = RolloutTypeABTest ->
  cluster_assignments app strategy topology = Ok assignments ->
  BuildRollout app clusterName (assignments ≫= fun m => m !! clusterName) = Ok rollout ->
  at_path rollout ["spec"; "strategy"] = None /\
  found (NestedString rollout ["metadata"; "labels"; "kumquat.io/cluster"]) = Some clusterName.
Proof.
  intros Hs Ht Ha Hb. unfold cluster_assignments in Ha. rewrite Ht in Ha. injection Ha as <-.
  unfold BuildRollout in Hb. rewrite Hs in Hb. injection Hb as <-. rewrite NestedString_at, nested_as_found. split; [|done].
  unfold buildRolloutSpec, rollout_strategy_of, buildABTestStrategy. rewrite Ht. simpl.
  by destruct (rs_ABTest strategy).
Qed.

(** With a global distribution the Rollout of a cluster has the single step
    of the calculated canaries; without one (or without an assignment) it has
    each configured step, as a percentage, in order. *)
Theorem canary_steps_built app strategy c assignment clusterName :
  spec_RolloutStrategy (Spec app) = Some strategy -> rs_Type strategy = RolloutTypeCanary -> rs_Canary strategy = Some c ->
  exists rollout, BuildRollout app clusterName assignment = Ok rollout /\
    found (NestedString rollout ["metadata"; "name"]) = Some (app_Name app) /\
    found (NestedSlice rollout ["spec"; "strategy"; "canary"; "steps"]) =
      Some (match canary_GlobalReplicaDistribution c, assignment with
            | Some _, Some a => [obj [("replicas", JInt (CanaryReplicas a))]]
            | _, _ => buildCanarySteps (Steps c)
            end).
Proof.
  intros Hs Ht Hc. unfold BuildRollout. rewrite Hs. eexists. split; [done|].
  rewrite NestedString_at, NestedSlice_at, !nested_as_found. split; [done|].
  unfold buildRolloutSpec, rollout_strategy_of, buildCanaryStrategy. rewrite Ht, Hc. simpl.
  destruct (canary_TrafficRouting c); by destruct (canary_GlobalReplicaDistribution c), assignment.
Qed.

(** The status of one cluster is replaced, the others are kept. *)
Lemma set_rollout_spec css name st :
  (exists cs, cs ∈ set_rollout css name st /\ cs_ClusterName cs = name /\ cs_Rollout cs = Some st) /\
  (forall cs, cs_ClusterName cs ≠ name -> cs ∈ set_rollout css name st <-> cs ∈ css).
Proof.
  induction css as [|cs0 css [IH1 IH2]]; simpl.
  - split; [eexists; split; [by left|done]|]. intros cs Hn. rewrite list_elem_of_singleton, elem_of_nil.
    split; [|done]. intros ->. by destruct Hn.
  - destruct (String.eqb_spec (cs_ClusterName cs0) name) as [E|E].
    + split; [eexists; split; [by left|done]|]. intros cs Hn. rewrite !elem_of_cons. split; intros [->|]; auto.
      * by destruct Hn.
      * by destruct Hn.
    + destruct IH1 as (cs & Hin & Hcs). split; [exists cs; split; [by right|done]|].
      intros x Hn. rewrite !elem_of_cons. by rewrite IH2.
Qed.
End properties.

(** ** The properties at a concrete application *)

(** Clusters that hold one object each. *)
#[export] Instance sample_clusters : ClusterClients := {|
  remote := gmap string json;
  GetClient n w := (w, None);
  rc_Create n j w := match w !! n with Some _ => (w, Some "already exists") | None => (<[n := j]> w, None) end;
  rc_Update n j w := (<[n := j]> w, None);
  rc_Delete n j w := (delete n w, None);
  rc_Get n v k ns name w := (w, match w !! n with Some j => Ok j | None => Err "not found" end);
|}.

Definition no_rollouts : @remote _ sample_clusters := (∅ : gmap string json).

Definition sequential_canary : RolloutStrategy :=
  mkRolloutStrategy RolloutTypeCanary
    (Some (mkCanary [mkStep 20 None; mkStep 100 (Some (mkPause (Some 60)))] None
       (Some (mkDistribution DistributionModeEqual [] None))))
    None None (Some (mkClusterOrder ClusterOrderSequential [])) false false.
Definition ab_test : RolloutStrategy :=
  mkRolloutStrategy RolloutTypeABTest None None (Some (mkABTest "a" ["b"] 50)) None false false.
Definition rollout_done : RolloutStatus := mkRolloutStatus RolloutPhaseSucceeded 1 100 0 2 2 2 "" 0.

Definition app_with_rollout (strategy : RolloutStrategy) : Application :=
  mkApplication (mkIdentity "apps.kumquat.io/v1alpha1" "Application" "1" false [] 1) "web" "team" "1" ∅ ∅
    (mkAppSpec (mkGVK "apps/v1" "Deployment") None (Some 4) "one-cpu" "" None None None [] [] None (Some strategy))
    (mkAppStatus "" "" 0 0 [mkTopology "a" 2; mkTopology "b" 2] [] [] 0 []).
Definition rollout_app : Application := app_with_rollout sequential_canary.

(** Only the first cluster is updated before it reports a rollout. *)
Example sequential_first :
  (fun j => at_path j ["spec"; "strategy"; "canary"; "steps"]) <$>
    (ReconcileRollout no_rollouts rollout_app [mkTopology "a" 2; mkTopology "b" 2]).1 =
  {[ "a" := Some (JArr [obj [("replicas", JInt 1)]]) ]}.
Proof. vm_compute. reflexivity. Qed.

Lemma abtest_has_no_strategy_witness : exists rollout,
  BuildRollout (app_with_rollout ab_test) "b" None = Ok rollout /\ at_path rollout ["spec"; "strategy"] = None.
Proof.
  destruct (BuildRollout (app_with_rollout ab_test) "b" None) as [rollout|e] eqn:E; [|discriminate E].
  exists rollout. split; [reflexivity|].
  exact (proj1 (abtest_has_no_strategy (app_with_rollout ab_test) ab_test [mkTopology "a" 2; mkTopology "b" 2] "b"
    rollout None eq_refl eq_refl eq_refl E)).
Defined.

Lemma canary_steps_built_witness : exists rollout,
  BuildRollout rollout_app "a" (Some (mkAssignment "a" 2 1 1 0)) = Ok rollout /\
  found (NestedSlice rollout ["spec"; "strategy"; "canary"; "steps"]) = Some [obj [("replicas", JInt 1)]].
Proof.
  destruct (canary_steps_built rollout_app sequential_canary
    (mkCanary [mkStep 20 None; mkStep 100 (Some (mkPause (Some 60)))] None (Some (mkDistribution DistributionModeEqual [] None)))
    (Some (mkAssignment "a" 2 1 1 0)) "a" eq_refl eq_refl eq_refl) as (rollout & Hb & _ & Hs).
  exists rollout. split; [exact Hb|exact Hs].
Defined.
