(* ===== verification/StatusController.v ===== *)
(** * The status controller

    application/status_controller.go: each manager reads the workload of an
    application from the clusters of its shard and merges what it saw into the
    application's status.  The watches are in [StatusWatch]: whether one failed for want
    of a tunnel is an argument here. *)

From S2P Require Import Prelude GoRuntime Api Json Clients ReplicaCalculator Rollout Sharding.

Definition ClusterPhaseHealthy : string := "Healthy".
Definition ClusterPhaseProgressing : string := "Progressing".
Definition ClusterPhaseDegraded : string := "Degraded".
Definition ClusterPhaseUnknown : string := "Unknown".

Section controller.
Context `{GoRuntime, Kubernetes, Unstructured, ApiErrors, !ClusterClients}.

Definition calculatePhase (statuses : list ClusterStatus) : string :=
  match statuses with
  | [] => Unknown
  | _ =>
      let allHealthy := forallb (fun cs => String.eqb (cs_Phase cs) ClusterPhaseHealthy) statuses in
      let anyDegraded := existsb (fun cs => String.eqb (cs_Phase cs) ClusterPhaseDegraded) statuses in
      if anyDegraded then Degraded else if allHealthy then Healthy else Progressing
  end.

(** New entries replace the old ones; the order is that of a map. *)
Definition mergeClusterStatus (existing new : list ClusterStatus) : list ClusterStatus :=
  let statusMap := foldl (fun m s => <[cs_ClusterName s := s]> m) (∅ : gmap string ClusterStatus) existing in
  let statusMap := foldl (fun m s => <[cs_ClusterName s := s]> m) statusMap new in
  (go_range 90 statusMap).*2.

(** The signals of a failure in [status.conditions]: the last one wins. *)
Definition condition_step (acc : string * string) (cond : json) : string * string :=
  match cond with
  | JObj cMap =>
      let str f := match cMap !! f with Some (JStr s) => s | _ => "" end in
      let cType := str "type" in let cStatus := str "status" in
      if (String.eqb cType "Progressing" && String.eqb cStatus "False") ||
         (String.eqb cType "ReplicaFailure" && String.eqb cStatus "True")
      then (ClusterPhaseDegraded, str "message") else acc
  | _ => acc
  end.

Definition workload_status (clusterName : string) (u : json) : ClusterStatus :=
  let replicas := i32 (default 0 (found (NestedInt64 u ["spec"; "replicas"]))) in
  let readyReplicas := i32 (default 0 (found (NestedInt64 u ["status"; "readyReplicas"]))) in
  let phase := if (readyReplicas =? replicas) && (0 <? replicas) then ClusterPhaseHealthy else ClusterPhaseProgressing in
  let '(phase, message) :=
    foldl condition_step (phase, "") (default [] (found (NestedSlice u ["status"; "conditions"]))) in
  mkClusterStatus clusterName phase replicas readyReplicas 0 message None.

Definition unknown_status (clusterName message : string) : ClusterStatus :=
  mkClusterStatus clusterName ClusterPhaseUnknown 0 0 0 message None.

(** One applied cluster of this shard. *)
Definition cluster_status (w : remote) (app : Application) (clusterName : string) : remote * ClusterStatus :=
  let '(w, err) := GetClient clusterName w in
  match err with
  | Some e => (w, unknown_status clusterName ("Failed to get client: " +:+ e))
  | None =>
      let '(w, got) := rc_Get clusterName (APIVersion (Workload (Spec app))) (Kind (Workload (Spec app)))
                         (app_Namespace app) (app_Name app) w in
      (w, match got with
          | Ok u => workload_status clusterName u
          | Err e => unknown_status clusterName (if IsNotFound e then "Workload not found" else e)
          end)
  end.

Fixpoint aggregate_status_loop (shard : ShardManager) (w : remote) (app : Application) (applied : list string)
    : remote * list ClusterStatus :=
  match applied with
  | [] => (w, [])
  | clusterName :: rest =>
      if negb (IsResponsibleFor shard clusterName) then aggregate_status_loop shard w app rest
      else
        let '(w, cs) := cluster_status w app clusterName in
        let '(w, css) := aggregate_status_loop shard w app rest in
        (w, cs :: css)
  end.

(** The phase the source computes here is not used by its caller. *)
Definition aggregateStatus (shard : ShardManager) (w : remote) (app : Application) : remote * list ClusterStatus :=
  aggregate_status_loop shard w app (AppliedClusters (Status app)).

(** What [Reconcile] writes: the merged statuses and the phase. *)
Definition reconciled_status (shard : ShardManager) (w : remote) (app : Application) : remote * Application :=
  let '(w, new) := aggregateStatus shard w app in
  let css := mergeClusterStatus (ClustersStatus (Status app)) new in
  let st := Status app in
  (w, mkApplication (app_Identity app) (app_Name app) (app_Namespace app) (app_ResourceVersion app)
    (app_Labels app) (app_Annotations app) (Spec app)
    (mkAppStatus (SchedulingPhase st) (calculatePhase css) (GlobalReadyReplicas st) (GlobalReplicas st) (Topology st)
       (AppliedClusters st) css (ObservedGeneration st) (Conditions st))).

(** A requeue is asked for when a cluster is not connected. *)
Definition not_connected (css : list ClusterStatus) (watch_failed : bool) : bool :=
  watch_failed || existsb (fun cs => str_contains (cs_Message cs) "not connected via tunnel") css.

(** [None]: nothing is patched (deleted, or not applied anywhere yet). *)
Definition StatusReconcile (shard : ShardManager) (deleting watch_failed : bool)
    (w : remote) (app : Application) : remote * option (Application * bool) :=
  if deleting then (w, None)
  else
    match AppliedClusters (Status app) with
    | [] => (w, None)
    | _ =>
        let requeue := not_connected (aggregateStatus shard w app).2 watch_failed in
        let '(w, app) := reconciled_status shard w app in
        (w, Some (app, requeue))
    end.
End controller.

(** ** Properties *)

Section properties.
Context `{G : GoRuntime, !GoRuntimeLaws G, K : Kubernetes, U : Unstructured, !UnstructuredLaws U, Er : ApiErrors, R : !ClusterClients}.
Implicit Types (app : Application) (css : list ClusterStatus).

Lemma foldl_status_lookup (l : list ClusterStatus) (m : gmap string ClusterStatus) name cs :
  foldl (fun m s => <[cs_ClusterName s := s]> m) m l !! name = Some cs ->
  (cs ∈ l /\ cs_ClusterName cs = name) \/ (m !! name = Some cs /\ name ∉ cs_ClusterName <$> l).
Proof.
  revert m; induction l as [|s l IH]; intros m; simpl; [intros Hm; right; split; [done|apply not_elem_of_nil]|].
  intros Hl. destruct (IH _ Hl) as [[Hin Hn]|[Hm Hn]]; [left; split; [by right|done]|].
  apply lookup_insert_Some in Hm as [[<- <-]|[Hne Hm]]; [left; split; [by left|done]|].
  right. split; [done|]. rewrite not_elem_of_cons. by split.
Qed.

Lemma foldl_status_dom (l : list ClusterStatus) (m : gmap string ClusterStatus) name :
  is_Some (foldl (fun m s => <[cs_ClusterName s := s]> m) m l !! name) <->
  is_Some (m !! name) \/ name ∈ cs_ClusterName <$> l.
Proof.
  revert m; induction l as [|s l IH]; intros m; simpl; [rewrite elem_of_nil; tauto|].
  rewrite IH, elem_of_cons, lookup_insert_is_Some. destruct (decide (cs_ClusterName s = name)); naive_solver.
Qed.

Lemma merge_lookup existing new name cs :
  foldl (fun m s => <[cs_ClusterName s := s]> m)
    (foldl (fun m s => <[cs_ClusterName s := s]> m) (∅ : gmap string ClusterStatus) existing) new !! name = Some cs ->
  cs_ClusterName cs = name /\ (cs ∈ new \/ (cs ∈ existing /\ name ∉ cs_ClusterName <$> new)).
Proof.
  intros Hcs. apply foldl_status_lookup in Hcs as [[Hin Hn]|[Hcs Hn]]; [by split; [|left]|].
  apply foldl_status_lookup in Hcs as [[Hin Hc]|[Hcs _]]; [|by rewrite lookup_empty in Hcs].
  split; [done|]. by right.
Qed.

Lemma merge_elem existing new cs : cs ∈ mergeClusterStatus existing new ->
  cs ∈ new \/ (cs ∈ existing /\ cs_ClusterName cs ∉ cs_ClusterName <$> new).
Proof.
  unfold mergeClusterStatus. intros Hcs. apply list_elem_of_fmap in Hcs as ([n c] & -> & Hc). apply range_elem in Hc.
  destruct (merge_lookup _ _ _ _ Hc) as [<- [|]]; auto.
Qed.

(** Merging keeps one status for each cluster that either side knows: the new
    one when the shard reported the cluster, else the old one. *)
Theorem merge_cluster_status existing new :
  NoDup (cs_ClusterName <$> mergeClusterStatus existing new) /\
  (forall name, name ∈ cs_ClusterName <$> mergeClusterStatus existing new <->
     name ∈ cs_ClusterName <$> existing \/ name ∈ cs_ClusterName <$> new) /\
  forall cs, cs ∈ mergeClusterStatus existing new ->
    cs ∈ new \/ (cs ∈ existing /\ cs_ClusterName cs ∉ cs_ClusterName <$> new).
Proof.
  assert (cs_ClusterName <$> mergeClusterStatus existing new = range_keys 90
    (foldl (fun m s => <[cs_ClusterName s := s]> m)
       (foldl (fun m s => <[cs_ClusterName s := s]> m) (∅ : gmap string ClusterStatus) existing) new)) as E.
  { unfold mergeClusterStatus, range_keys. rewrite <- list_fmap_compose. apply list_fmap_ext. intros i [n cs] Hi. simpl.
    apply list_elem_of_lookup_2, range_elem in Hi. by apply (merge_lookup _ _ _ _ Hi). }
  split_and!.
  - rewrite E. apply range_keys_NoDup.
  - intros name. rewrite E, range_keys_elem, !foldl_status_dom, lookup_empty. split; [|tauto].
    by intros [[[? ?]|]|]; [| |]; auto.
  - intros cs. apply merge_elem.
Qed.

(** The health of an application: unknown without clusters, degraded exactly
    when some cluster is degraded, healthy exactly when there are clusters and all
    are healthy, and progressing otherwise. *)
Theorem calculate_phase_spec css :
  (calculatePhase css = Unknown <-> css = []) /\
  (calculatePhase css = Degraded <-> exists cs, cs ∈ css /\ cs_Phase cs = ClusterPhaseDegraded) /\
  (calculatePhase css = Healthy <-> css ≠ [] /\ forall cs, cs ∈ css -> cs_Phase cs = ClusterPhaseHealthy) /\
  calculatePhase css ∈ [Unknown; Degraded; Healthy; Progressing].
Proof.
  destruct css as [|cs0 css0]; [cbn; split_and!; [done|split; [done|intros (? & ?%elem_of_nil & _); done]|
    split; [done|by intros [? _]]|set_solver]|].
  unfold calculatePhase. set (css := cs0 :: css0).
  assert (existsb (fun cs => String.eqb (cs_Phase cs) ClusterPhaseDegraded) css = true <->
    exists cs, cs ∈ css /\ cs_Phase cs = ClusterPhaseDegraded) as Hd.
  { rewrite existsb_exists. setoid_rewrite list_elem_of_In. by setoid_rewrite String.eqb_eq. }
  assert (forallb (fun cs => String.eqb (cs_Phase cs) ClusterPhaseHealthy) css = true <->
    forall cs, cs ∈ css -> cs_Phase cs = ClusterPhaseHealthy) as Hh.
  { rewrite forallb_forall. setoid_rewrite list_elem_of_In. by setoid_rewrite String.eqb_eq. }
  destruct (existsb _ css).
  - destruct (proj1 Hd eq_refl) as (cs & Hin & Hp). split_and!; [done|split; [by exists cs|done]| |set_solver].
    split; [done|]. intros [_ Hall]. rewrite (Hall cs Hin) in Hp. done.
  - assert (¬ exists cs, cs ∈ css /\ cs_Phase cs = ClusterPhaseDegraded) as Hnd by (intros Hx; by apply Hd in Hx).
    destruct (forallb _ css).
    + split_and!; [done|split; [done|by intros ?%Hnd]|split; [intros _; split; [done|by apply Hh]|done]|set_solver].
    + split_and!; [done|split; [done|by intros ?%Hnd]| |set_solver]. split; [done|]. intros [_ Hall]. by apply Hh in Hall.
Qed.

Lemma aggregate_names shard w app applied :
  cs_ClusterName <$> (aggregate_status_loop shard w app applied).2 =
    filter (fun n => IsResponsibleFor shard n = true) applied /\
  forall cs, cs ∈ (aggregate_status_loop shard w app applied).2 -> cs_Rollout cs = None.
Proof.
  revert w; induction applied as [|n applied IH]; intros w; cbn [aggregate_status_loop].
  { split; [done|]. by intros cs ?%elem_of_nil. }
  rewrite filter_cons. destruct (IsResponsibleFor shard n) eqn:E; cbn [negb].
  - assert (forall w, cs_ClusterName (cluster_status w app n).2 = n /\ cs_Rollout (cluster_status w app n).2 = None) as Hc.
    { intros w'. unfold cluster_status. destruct (GetClient n w') as [w1 [e|]]; [done|].
      destruct (rc_Get n _ _ _ _ w1) as [w2 [u|e]]; [|done]. simpl. unfold workload_status.
      by destruct (foldl condition_step _ _). }
    destruct (cluster_status w app n) as [w1 cs] eqn:Ec. pose proof (Hc w) as Hn. rewrite Ec in Hn.
    destruct (IH w1) as [H1 H2]. destruct (aggregate_status_loop shard w1 app applied) as [w2 css].
    cbn [snd] in *. rewrite fmap_cons, H1, decide_True by done. destruct Hn as [-> Hr]. split; [done|].
    intros x [->|Hx]%elem_of_cons; [done|by apply H2].
  - rewrite decide_False by done. apply IH.
Qed.

(** A manager reports exactly the applied clusters of its shard, in their
    order, so that the managers together report every applied cluster once. *)
Theorem shards_report_all n w app name : 1 <= n -> NoDup (AppliedClusters (Status app)) ->
  name ∈ AppliedClusters (Status app) ->
  exists i, 0 <= i < n /\ forall j, 0 <= j < n ->
    (name ∈ cs_ClusterName <$> (aggregateStatus (NewShardManager j n) w app).2 <-> j = i) /\
    NoDup (cs_ClusterName <$> (aggregateStatus (NewShardManager j n) w app).2).
Proof.
  intros Hn Hnd Hin. destruct (shard_of n name Hn) as (i & Hi & Hr & Hu). exists i. split; [done|].
  intros j Hj. unfold aggregateStatus. rewrite (proj1 (aggregate_names _ w app _)). split; [|by apply NoDup_filter].
  rewrite list_elem_of_filter. split; [intros [Hx _]; by apply Hu|]. by intros ->.
Qed.

(** The status controller erases the rollout progress it does not know of: in
    the status it writes, no cluster it reports on has a rollout any more, so that
    the coordinator takes the rollout there for not complete and, in sequence,
    holds back the next cluster. *)
Theorem status_reconcile_erases_rollout shard w app name strategy next :
  name ∈ AppliedClusters (Status app) -> IsResponsibleFor shard name = true ->
  is_sequential strategy = true -> next ≠ name ->
  isRolloutComplete (reconciled_status shard w app).2 name = false /\
  next ∉ rollout_targets (reconciled_status shard w app).2 strategy [name; next].
Proof.
  intros Hin Hr Hs Hne. unfold reconciled_status. pose proof (aggregate_names shard w app (AppliedClusters (Status app))) as [Hn Hro].
  unfold aggregateStatus. destruct (aggregate_status_loop shard w app (AppliedClusters (Status app))) as [w1 new].
  simpl in Hn, Hro. set (app' := mkApplication _ _ _ _ _ _ _ _).
  assert (forall css, (forall cs, cs ∈ css -> cs_ClusterName cs = name -> cs_Rollout cs = None) ->
    rollout_complete_in css name = false) as Hfalse.
  { induction css as [|cs css IH]; intros Hcs; simpl; [done|].
    assert (rollout_complete_in css name = false) as Hrest by (apply IH; intros; apply Hcs; [by right|done]).
    destruct (cs_Rollout cs) eqn:E; [|done]. destruct (String.eqb_spec (cs_ClusterName cs) name); [|done].
    rewrite (Hcs cs) in E; [done|by left|done]. }
  assert (isRolloutComplete app' name = false) as Hc.
  { apply Hfalse. intros cs Hcs Hname. destruct (merge_elem _ _ _ Hcs) as [Hnew|[_ Hold]]; [by apply Hro|].
    exfalso. apply Hold. rewrite Hname, Hn. by apply list_elem_of_filter. }
  split; [exact Hc|]. unfold rollout_targets. rewrite Hs. cbn [snd].
  cbn [zip zip_with fmap list_fmap omap list_omap fst]. simpl. rewrite Hc. by rewrite list_elem_of_singleton.
Qed.
End properties.

(** ** The properties at a concrete application *)

Definition applied_app : Application :=
  let app := rollout_app in
  mkApplication (app_Identity app) (app_Name app) (app_Namespace app) (app_ResourceVersion app) ∅ ∅ (Spec app)
    (mkAppStatus "" "" 0 0 [mkTopology "a" 2; mkTopology "b" 2] ["a"; "b"]
       [mkClusterStatus "a" "Healthy" 2 2 2 "" (Some rollout_done)] 0 []).

Lemma status_reconcile_erases_rollout_witness :
  isRolloutComplete applied_app "a" = true /\
  isRolloutComplete (reconciled_status (NewShardManager 0 1) no_rollouts applied_app).2 "a" = false.
Proof.
  split; [reflexivity|].
  refine (proj1 (status_reconcile_erases_rollout (NewShardManager 0 1) no_rollouts applied_app "a"
    sequential_canary "b" _ eq_refl eq_refl _)); [by left|discriminate].
Defined.

Lemma shards_report_all_witness : exists i,
  0 <= i < 3 /\ "b" ∈ cs_ClusterName <$> (aggregateStatus (NewShardManager i 3) no_rollouts applied_app).2.
Proof.
  destruct (shards_report_all 3 no_rollouts applied_app "b") as (i & Hi & H).
  - lia.
  - apply (bool_decide_eq_true_1 (NoDup ["a"; "b"])). vm_compute. reflexivity.
  - by right; left.
  - exists i. split; [exact Hi|]. apply (proj1 (H i Hi)). reflexivity.
Defined.
