(* ===== verification/AppController.v ===== *)
(** * The application controller

    application/controller.go: deploys the workload of an application to the clusters
    it is placed on, cleans up where it no longer is, and records what it applied.
    The functions that build the object for a cluster are in [Manifest]. *)

From S2P Require Import Prelude GoRuntime Json Api Clients Manifest ReplicaCalculator Rollout StatusController.

Definition ApplicationFinalizer : string := "apps.kumquat.io/finalizer".

(** The same application with other conditions, finalizers, or another phase. *)
Definition with_conditions (st : ApplicationStatus) (conditions : list Condition) : ApplicationStatus :=
  mkAppStatus (SchedulingPhase st) (HealthPhase st) (GlobalReadyReplicas st) (GlobalReplicas st) (Topology st)
    (AppliedClusters st) (ClustersStatus st) (ObservedGeneration st) conditions.
Definition with_phase (st : ApplicationStatus) (phase : string) : ApplicationStatus :=
  mkAppStatus phase (HealthPhase st) (GlobalReadyReplicas st) (GlobalReplicas st) (Topology st)
    (AppliedClusters st) (ClustersStatus st) (ObservedGeneration st) (Conditions st).
Definition with_finalizers `{Kubernetes} (app : Application) (finalizers : list string) : Application :=
  let id := app_Identity app in
  with_identity app (mkIdentity (id_APIVersion id) (id_Kind id) (id_UID id) (id_Deleting id) finalizers (id_Generation id)).

(** The finalizer of the controller. *)
Definition has_finalizer `{Kubernetes, ObjectHelpers} (app : Application) : bool :=
  ContainsFinalizer (id_Finalizers (app_Identity app)) ApplicationFinalizer.
Definition add_finalizer `{Kubernetes, ObjectHelpers} (app : Application) : Application :=
  with_finalizers app (AddFinalizer (id_Finalizers (app_Identity app)) ApplicationFinalizer).
Definition remove_finalizer `{Kubernetes, ObjectHelpers} (app : Application) : Application :=
  with_finalizers app (RemoveFinalizer (id_Finalizers (app_Identity app)) ApplicationFinalizer).

Section controller.
Context `{GoRuntime, Kubernetes, ApiErrors, Unstructured, !Conversions, ObjectHelpers,
          A : !ApiClient, !HubWriter A, R : !ClusterClients, !ClusterWriter R}.

Abbreviation step := (action world).

Definition wrap_err (prefix : string) {X} (r : res X) : res X :=
  match r with Err e => Err (prefix +:+ e) | Ok x => Ok x end.

(** ** The workload on a cluster *)

(** A name of the workload: the object the calls for it are about. *)
Definition workload_object (app : Application) : json :=
  new_object (APIVersion (Workload (Spec app))) (Kind (Workload (Spec app))) (app_Name app) (app_Namespace app).

Definition initial_workload (app : Application) : json :=
  let u := workload_object app in SetLabels u (CopyBusinessIdentity (GetLabels u) (app_Labels app)).

Definition preserveLiveWorkloadSelector (cli : string) (desired : json) (selectorExplicit : bool) : step json :=
  live ← call (on_fleet (rc_Get cli (GetAPIVersion desired) (GetKind desired) (GetNamespace desired) (GetName desired)));
  match live with
  | Err e => if IsNotFound e then mret desired else fail ("read live workload selector: " +:+ e)
  | Ok live =>
      liveSelector ← of_res (wrap_err "read live workload selector: " (NestedMap live selector_path));
      match nonempty liveSelector with
      | None => mret desired
      | Some liveSelector =>
          desiredSelector ← of_res (NestedMap desired selector_path);
          let same := match desiredSelector with
                      | Some d => deep_equal (JObj liveSelector) (JObj d)
                      | None => false
                      end in
          if selectorExplicit && negb same
          then fail (NewBadRequest "unsupported immutable workload selector change")
          else of_res (SetNestedMap desired liveSelector selector_path)
      end
  end.

(** The object that is sent to the cluster. *)
Definition build_workload (cli : string) (app : Application) (cluster : ManagedCluster) (ordinalStart : Z) : step json :=
  u ← of_res (configureWorkload (initial_workload app) (Spec app) ordinalStart);
  u ← preserveLiveWorkloadSelector cli u (match Selector (Spec app) with Some _ => true | None => false end);
  u ← of_res (configureImmutablePodIdentity u (ImmutablePodIdentity (app_Labels app)));
  u ← of_outcome (ApplyOverrides u app (mc_Labels cluster));
  if is_hub_client cli then of_res (SetControllerReference app u) else mret u.

(** Server-side apply, or a creation where that is not supported. *)
Definition apply_workload (cli : string) (u : json) : step () :=
  err ← call (on_fleet (rc_Apply cli u));
  match err with
  | None => mret tt
  | Some e =>
      if IsNotFound e || str_contains e "apply patches are not supported"
      then check (on_fleet (rc_Create cli u)) else fail e
  end.

Definition deployed_condition (app : Application) (clusterName : string) (now : Z) : Condition :=
  let type := "ClusterStatus-" +:+ clusterName in
  let message := "Workload successfully deployed to cluster" in
  let transition :=
    match FindStatusCondition (Conditions (Status app)) type with
    | Some existing =>
        if String.eqb (cond_Status existing) "True" && String.eqb (cond_Reason existing) "WorkloadDeployed" &&
           String.eqb (cond_Message existing) message
        then cond_LastTransitionTime existing else now
    | None => now
    end in
  mkCondition type "True" "WorkloadDeployed" message 0 transition.

Definition record_deployed (app : Application) (clusterName : string) (now : Z) : step Application :=
  let condition := deployed_condition app clusterName now in
  let app := with_status app (with_conditions (Status app) (SetStatusCondition (Conditions (Status app)) condition)) in
  err ← call (on_hub (api_StatusApply (app_Namespace app) (app_Name app) [condition]
                        ("application-controller-" +:+ clusterName)));
  match err with
  | None => mret app
  | Some e =>
      if str_contains e "apply patches are not supported" then returns (on_hub (api_StatusWrite app)) else fail e
  end.

(** [now] is the time at which the workload of a cluster has been applied. *)
Definition reconcileWorkload (now : string -> Z) (cli : string) (app : Application) (cluster : ManagedCluster)
    (ordinalStart : Z) : step Application :=
  u ← build_workload cli app cluster ordinalStart;
  _ ← apply_workload cli u;
  record_deployed app (mc_Name cluster) (now (mc_Name cluster)).

Definition reconcileResiliency (cli : string) (app : Application) : step () :=
  match Resiliency (Spec app) with
  | None => mret tt
  | Some resiliency =>
      match ImmutablePodIdentity (app_Labels app) with
      | None => fail (NewBadRequest "application-id and workspace-id labels are required for resiliency")
      | Some matchLabels =>
          let pdb labels := mkPDB (app_Name app) (app_Namespace app) labels (MinAvailable resiliency)
                              (res_MaxUnavailable resiliency) matchLabels in
          check (on_fleet (rc_CreateOrUpdate cli (pdb ∅) (fun live =>
            mkPDB (pdb_Name live) (pdb_Namespace live) (AddManagedBy (pdb_Labels live)) (MinAvailable resiliency)
              (res_MaxUnavailable resiliency) matchLabels)))
      end
  end.

(** ** Reconcile *)

Definition is_stateful (app : Application) : bool := String.eqb (Kind (Workload (Spec app))) "StatefulSet".

(** The first status of the cluster says that it is healthy. *)
Definition cluster_healthy (app : Application) (clusterName : string) : bool :=
  match list_find (fun st => cs_ClusterName st = clusterName) (ClustersStatus (Status app)) with
  | Some (_, st) => String.eqb (cs_Phase st) ClusterPhaseHealthy
  | None => false
  end.

(** A StatefulSet is held back by the cluster before. *)
Definition paused (app : Application) (prev : option string) : bool :=
  is_stateful app && match prev with Some p => negb (cluster_healthy app p) | None => false end.

(** The clusters of the placement in the order of their names.  [current] are the
    clusters seen so far, [prev] is the name before. *)
Fixpoint deploy_loop (now : string -> Z) (app : Application) (current : gmap string ()) (cumulative : Z)
    (prev : option string) (topologyList : list ClusterTopology) : step (Application * gmap string ()) :=
  match topologyList with
  | [] => mret (app, current)
  | topology :: rest =>
      let name := ct_Name topology in
      let current := <[name := tt]> current in
      if paused app prev then mret (app, current)
      else
        cluster ← call (on_hub (api_GetCluster name));
        match cluster with
        | Err e => if IsNotFound e then deploy_loop now app current cumulative (Some name) rest else fail e
        | Ok cluster =>
            err ← call (on_fleet (GetClient name));
            match err with
            | Some _ => deploy_loop now app current cumulative (Some name) rest
            | None =>
                let ordinalStart := if is_stateful app then cumulative else 0 in
                let cumulative := if is_stateful app then i32 (cumulative + ct_Replicas topology) else cumulative in
                app ← reconcileWorkload now name app cluster ordinalStart;
                _ ← reconcileResiliency name app;
                _ ← match spec_RolloutStrategy (Spec app) with
                    | Some _ => check (on_fleet (fun r => ReconcileRollout r app (Topology (Status app))))
                    | None => mret tt
                    end;
                deploy_loop now app current cumulative (Some name) rest
            end
        end
  end.

(** The client of a cluster that is gone cannot be had. *)
Definition cluster_gone (e : string) : bool := IsNotFound e || str_contains e "not found".

(** [Delete], where an object that is not there is no error. *)
Definition delete_object (cli : string) (u : json) : step () :=
  err ← call (on_fleet (rc_Delete cli u));
  match err with
  | None => mret tt
  | Some e => if IsNotFound e then mret tt else fail e
  end.

Fixpoint cleanup_loop (app : Application) (current : gmap string ()) (applied : list string) : step () :=
  match applied with
  | [] => mret tt
  | oldCluster :: rest =>
      match current !! oldCluster with
      | Some _ => cleanup_loop app current rest
      | None =>
          err ← call (on_fleet (GetClient oldCluster));
          match err with
          | Some e => if cluster_gone e then cleanup_loop app current rest else fail e
          | None => _ ← delete_object oldCluster (workload_object app); cleanup_loop app current rest
          end
      end
  end.

(** What the clusters report. *)
Definition observed_status (clusterName : string) (u : json) : ClusterStatus :=
  let replicas := i32 (default 0 (found (NestedInt64 u ["status"; "replicas"]))) in
  let readyReplicas := i32 (default 0 (found (NestedInt64 u ["status"; "readyReplicas"]))) in
  let availableReplicas := i32 (default 0 (found (NestedInt64 u ["status"; "availableReplicas"]))) in
  let phase := if (replicas =? readyReplicas) && (0 <? replicas) then ClusterPhaseHealthy else ClusterPhaseProgressing in
  mkClusterStatus clusterName phase replicas readyReplicas availableReplicas "" None.

Definition observe_cluster (r : remote) (app : Application) (clusterName : string) : remote * ClusterStatus :=
  let '(r, err) := GetClient clusterName r in
  match err with
  | Some e => (r, unknown_status clusterName ("Failed to get client: " +:+ e))
  | None =>
      let '(r, got) := rc_Get clusterName (APIVersion (Workload (Spec app))) (Kind (Workload (Spec app)))
                         (app_Namespace app) (app_Name app) r in
      (r, match got with
          | Ok u => observed_status clusterName u
          | Err e => unknown_status clusterName ("Failed to get workload: " +:+ e)
          end)
  end.

Fixpoint observe_loop (r : remote) (app : Application) (applied : list string) : remote * list ClusterStatus :=
  match applied with
  | [] => (r, [])
  | clusterName :: rest =>
      let '(r, cs) := observe_cluster r app clusterName in
      let '(r, css) := observe_loop r app rest in
      (r, cs :: css)
  end.

(** [app.Status] after the fourth step. *)
Definition applied_status (app : Application) (applied : list string) (css : list ClusterStatus) : Application :=
  let st := Status app in
  with_status app (mkAppStatus (SchedulingPhase st) (HealthPhase st) (sum32 cs_ReadyReplicas css)
    (sum32 ct_Replicas (Topology st)) (Topology st) applied css (ObservedGeneration st) (Conditions st)).

Definition update_status (app : Application) (current : gmap string ()) : step () :=
  let newApplied := sort_strings (range_keys 102 current) in
  css ← call (on_fleet (fun r => observe_loop r app newApplied));
  let changed := applied_status app newApplied css in
  changed ← call (on_fleet (fun r => AggregateRolloutStatus r changed newApplied));
  check (on_hub (api_StatusPatch app changed)).

Definition topology_sorted (app : Application) : list ClusterTopology :=
  go_sort (fun a b => String.ltb (ct_Name a) (ct_Name b)) (Topology (Status app)).

(** The steps for an application that is not being deleted. *)
Definition reconcile_placed (now : string -> Z) (app : Application) : step () :=
  '(app, current) ← deploy_loop now app ∅ 0 None (topology_sorted app);
  _ ← cleanup_loop app current (AppliedClusters (Status app));
  update_status app current.

(** The errors of the clusters are collected. *)
Definition try_delete (cli : string) (u : json) (errs : list string) : step (list string) :=
  r ← attempt (delete_object cli u);
  mret (match r with Ok _ => errs | Err e => errs ++ [e] end).

Fixpoint delete_loop (app : Application) (applied : list string) (errs : list string) : step (list string) :=
  match applied with
  | [] => mret errs
  | clusterName :: rest =>
      err ← call (on_fleet (GetClient clusterName));
      match err with
      | Some e => delete_loop app rest (if cluster_gone e then errs else errs ++ [e])
      | None =>
          errs ← try_delete clusterName (workload_object app) errs;
          errs ← match Resiliency (Spec app) with
                 | Some _ => try_delete clusterName
                     (new_object "policy/v1" "PodDisruptionBudget" (app_Name app) (app_Namespace app)) errs
                 | None => mret errs
                 end;
          delete_loop app rest errs
      end
  end.

Definition reconcileDelete (app : Application) : step () :=
  errs ← delete_loop app (AppliedClusters (Status app)) [];
  match errs with
  | first :: _ => fail ("failed to clean up resources on " +:+ pretty (length errs) +:+ " clusters, first error: " +:+ first)
  | [] => check (on_hub (api_Update (remove_finalizer app)))
  end.

Definition invalid_spec (app : Application) : bool :=
  String.eqb (APIVersion (Workload (Spec app))) "" || String.eqb (Kind (Workload (Spec app))) "" ||
  String.eqb (Template (Spec app)) "".

Definition invalid_condition (app : Application) : Condition :=
  mkCondition "Validated" "False" "InvalidSpec" "Application spec is invalid: missing apiVersion, kind or template"
    (id_Generation (app_Identity app)) 0.

Definition reconcile_app (now : string -> Z) (app : Application) : step () :=
  if id_Deleting (app_Identity app) then reconcileDelete app
  else if negb (has_finalizer app) then check (on_hub (api_Update (add_finalizer app)))
  else if invalid_spec app then
    let st := with_phase (Status app) Failed in
    _ ← call (on_hub (api_StatusUpdate (with_status app
          (with_conditions st (SetStatusCondition (Conditions st) (invalid_condition app))))));
    mret tt
  else reconcile_placed now app.

(** An application that is not found is no error; the list is for a metric. *)
Definition Reconcile (now : string -> Z) (namespace name : string) : step () :=
  got ← call (on_hub (api_Get namespace name));
  match got with
  | Err e => if IsNotFound e then mret tt else fail e
  | Ok app => _ ← call (on_hub api_List); reconcile_app now app
  end.
End controller.

(** ** Properties *)

(** Which objects the clusters hold: by cluster, apiVersion, kind, namespace and name.
    An object whose deletion has been accepted is not held any more. *)
Definition object_key : Type := string * string * string * string.

Class FleetObjects `{ApiErrors} (R : ClusterClients) := { holds : remote -> string -> object_key -> bool }.

Definition key_of `{Unstructured} (u : json) : object_key := (GetAPIVersion u, GetKind u, GetNamespace u, GetName u).

(** Nobody else creates objects while the calls are made. *)
Class FleetObjectsLaws `{Unstructured, ApiErrors} {R : ClusterClients} (F : FleetObjects R) : Prop := {
  holds_GetClient n r c k : holds (GetClient n r).1 c k = holds r c k;
  holds_Get n v kind ns name r c k : holds (rc_Get n v kind ns name r).1 c k = holds r c k;
  holds_Delete_other n u r c k : (c, k) ≠ (n, key_of u) -> holds (rc_Delete n u r).1 c k = holds r c k;
  holds_Delete n u r : holds (rc_Delete n u r).1 n (key_of u) = true ->
    holds r n (key_of u) = true /\ exists e, (rc_Delete n u r).2 = Some e /\ IsNotFound e = false;
}.

Section deletion.
Context `{G : GoRuntime, K : Kubernetes, Er : ApiErrors, U : Unstructured, C : !Conversions, O : ObjectHelpers,
          A : !ApiClient, HW : !HubWriter A, R : !ClusterClients, CW : !ClusterWriter R, F : !FleetObjects R, !FleetObjectsLaws F}.
Implicit Types (app : Application) (w : world) (r : remote).

(** No object has been added. *)
Definition fewer (r' r : remote) : Prop := forall c k, holds r' c k = true -> holds r c k = true.

#[export] Instance fewer_preorder : PreOrder fewer.
Proof. split; [by intros r c k|]. intros r1 r2 r3 H1 H2 c k H3. by apply H2, H1. Qed.

Lemma fewer_GetClient n r : fewer (GetClient n r).1 r.
Proof. intros c k. by rewrite holds_GetClient. Qed.

Lemma fewer_Delete n u r : fewer (rc_Delete n u r).1 r.
Proof.
  intros c k Hk. destruct (decide ((c, k) = (n, key_of u))) as [[= -> ->]|Hne].
  - by apply holds_Delete in Hk as [? _].
  - by rewrite holds_Delete_other in Hk.
Qed.

(** A deletion that does not fail leaves no object. *)
Lemma delete_object_spec n u w : exists w' x, delete_object n u w = Ret (w', x) /\
  w_hub w' = w_hub w /\ fewer (w_fleet w') (w_fleet w) /\ (x = Ok tt -> holds (w_fleet w') n (key_of u) = false).
Proof.
  unfold delete_object.
  pose proof (fewer_Delete n u (w_fleet w)) as Hf. pose proof (holds_Delete n u (w_fleet w)) as Hd.
  destruct (rc_Delete n u (w_fleet w)) as [r' err] eqn:Er'. simpl in *.
  rewrite (action_bind_eq _ _ _ _ _ (call_fleet _ _ _ _ Er')). destruct err as [e|].
  - destruct (IsNotFound e) eqn:He; eexists _, _; (split_and!; [done|done|done|]); [|done].
    intros _. apply not_true_is_false. intros Hh. destruct (Hd Hh) as (_ & e' & [= <-] & He'). congruence.
  - eexists _, _. split_and!; [done|done|done|]. intros _. apply not_true_is_false.
    intros Hh. by destruct (Hd Hh) as (_ & e' & [=] & _).
Qed.

Lemma try_delete_spec n u errs w : exists w' errs', try_delete n u errs w = Ret (w', Ok errs') /\
  w_hub w' = w_hub w /\ fewer (w_fleet w') (w_fleet w) /\
  (errs' = [] -> errs = [] /\ holds (w_fleet w') n (key_of u) = false).
Proof.
  destruct (delete_object_spec n u w) as (w' & x & Hd & Hh & Hf & Hx).
  unfold try_delete, attempt, mbind, action_bind. rewrite Hd. eexists w', _. split_and!; [done|done|done|].
  destruct x as [[]|e]; [by auto|]. by intros [_ [=]]%app_nil.
Qed.

(** A cluster whose client could not be had because it was not found. *)
Definition unreachable (n : string) : Prop := exists r r' e, GetClient n r = (r', Some e) /\ cluster_gone e = true.

Definition pdb_object app : json := new_object "policy/v1" "PodDisruptionBudget" (app_Name app) (app_Namespace app).

(** Nothing of the application is on the cluster. *)
Definition cleaned app r (n : string) : Prop :=
  holds r n (key_of (workload_object app)) = false /\
  (is_Some (Resiliency (Spec app)) -> holds r n (key_of (pdb_object app)) = false).

Lemma cleaned_fewer app r r' n : fewer r' r -> cleaned app r n -> cleaned app r' n.
Proof.
  intros Hf [H1 H2]. split; [|intros Hs]; apply not_true_is_false; intros Hh%Hf; [congruence|].
  rewrite (H2 Hs) in Hh. done.
Qed.

Lemma delete_loop_spec app applied errs w : exists w' errs', delete_loop app applied errs w = Ret (w', Ok errs') /\
  w_hub w' = w_hub w /\ fewer (w_fleet w') (w_fleet w) /\
  (errs' = [] -> errs = [] /\ forall n, n ∈ applied -> unreachable n \/ cleaned app (w_fleet w') n).
Proof.
  revert errs w; induction applied as [|n applied IH]; intros errs w; cbn [delete_loop].
  { eexists w, errs. split_and!; [done..|]. intros ->. split; [done|]. by intros n ?%elem_of_nil. }
  pose proof (fewer_GetClient n (w_fleet w)) as Hf0.
  destruct (GetClient n (w_fleet w)) as [r0 err] eqn:Eg. simpl in Hf0.
  rewrite (action_bind_eq _ _ _ _ _ (call_fleet _ _ _ _ Eg)). destruct err as [e|].
  - destruct (IH (if cluster_gone e then errs else errs ++ [e]) (mkWorld (w_hub w) r0)) as (w' & errs' & Hl & Hh & Hf & Hc).
    exists w', errs'. split_and!; [exact Hl|done|by etrans|]. intros Hnil. destruct (Hc Hnil) as [He Hn].
    destruct (cluster_gone e) eqn:Eg2; [|by apply app_nil in He as [_ [=]]]. split; [done|].
    intros m [->|Hm]%elem_of_cons; [left; by exists (w_fleet w), r0, e|by apply Hn].
  - destruct (try_delete_spec n (workload_object app) errs (mkWorld (w_hub w) r0)) as (w1 & errs1 & H1 & Hh1 & Hf1 & Hc1).
    rewrite (action_bind_eq _ _ _ _ _ H1). fold (pdb_object app).
    assert (exists w2 errs2, (match Resiliency (Spec app) with
      | Some _ => try_delete n (pdb_object app) errs1 | None => mret errs1 end) w1 = Ret (w2, Ok errs2) /\
      w_hub w2 = w_hub w1 /\ fewer (w_fleet w2) (w_fleet w1) /\ (errs2 = [] -> errs1 = [] /\
        (is_Some (Resiliency (Spec app)) -> holds (w_fleet w2) n (key_of (pdb_object app)) = false))) as
      (w2 & errs2 & H2 & Hh2 & Hf2 & Hc2).
    { destruct (Resiliency (Spec app)) as [res|].
      - destruct (try_delete_spec n (pdb_object app) errs1 w1) as (w2 & errs2 & ? & ? & ? & Hc2). exists w2, errs2.
        split_and!; [done..|]. intros Hn. destruct (Hc2 Hn). auto.
      - exists w1, errs1. split_and!; [done..|]. intros ->. split; [done|]. by intros [? ?]. }
    rewrite (action_bind_eq _ _ _ _ _ H2).
    destruct (IH errs2 w2) as (w' & errs' & Hl & Hh & Hf & Hc). exists w', errs'.
    split_and!; [exact Hl|by rewrite Hh, Hh2, Hh1|by rewrite Hf, Hf2, Hf1|].
    intros Hnil. destruct (Hc Hnil) as [He2 Hn]. destruct (Hc2 He2) as [He1 Hp]. destruct (Hc1 He1) as [-> Hw].
    split; [done|]. intros m [->|Hm]%elem_of_cons; [right|by apply Hn].
    apply (cleaned_fewer _ (w_fleet w2)); [done|]. split; [|done]. apply not_true_is_false. intros Hx%Hf2. congruence.
Qed.

(** C19: a deleted application is released, by the removal of the controller's finalizer,
    only when nothing of it is left on the clusters it was applied to, those apart
    whose client cannot be had because something was not found; otherwise the hub is
    left alone and the deletion is tried again. *)
Theorem reconcileDelete_releases_when_clean app w : exists w' x, reconcileDelete app w = Ret (w', x) /\
  ((w_hub w' = w_hub w /\ exists e, x = Err e) \/
   (w_hub w' = (api_Update (remove_finalizer app) (w_hub w)).1 /\
    forall n, n ∈ AppliedClusters (Status app) -> unreachable n \/ cleaned app (w_fleet w') n)).
Proof.
  destruct (delete_loop_spec app (AppliedClusters (Status app)) [] w) as (w1 & errs & Hl & Hh & Hf & Hc).
  unfold reconcileDelete. rewrite (action_bind_eq _ _ _ _ _ Hl). destruct errs as [|e errs].
  - unfold check, on_hub. rewrite Hh. destruct (api_Update (remove_finalizer app) (w_hub w)) as [h err] eqn:E.
    eexists _, _. split; [done|]. right. split; [done|]. by apply Hc.
  - eexists w1, _. split; [done|]. left. split; [done|]. by eexists.
Qed.

(** ** Clean-up *)

(** The objects of a cluster that is not in the list stay; on the others only the
    workload may go. *)
Lemma delete_object_other n u w c k : (c, k) ≠ (n, key_of u) ->
  forall w' x, delete_object n u w = Ret (w', x) -> holds (w_fleet w') c k = holds (w_fleet w) c k.
Proof.
  intros Hne w' x. unfold delete_object. pose proof (holds_Delete_other n u (w_fleet w) c k Hne) as Ho.
  destruct (rc_Delete n u (w_fleet w)) as [r' err] eqn:E. simpl in Ho.
  rewrite (action_bind_eq _ _ _ _ _ (call_fleet _ _ _ _ E)). destruct err as [e|]; [|by intros [= <- _]].
  destruct (IsNotFound e); by intros [= <- _].
Qed.

Lemma cleanup_loop_spec app current applied w w' : cleanup_loop app current applied w = Ret (w', Ok tt) ->
  w_hub w' = w_hub w /\ fewer (w_fleet w') (w_fleet w) /\
  (forall n, n ∈ applied -> current !! n = None ->
     unreachable n \/ holds (w_fleet w') n (key_of (workload_object app)) = false) /\
  (forall n k, (current !! n ≠ None \/ n ∉ applied \/ k ≠ key_of (workload_object app)) ->
     holds (w_fleet w') n k = holds (w_fleet w) n k).
Proof.
  revert w; induction applied as [|n applied IH]; intros w; cbn [cleanup_loop].
  { intros [= <-]. split_and!; [done..|by intros n ?%elem_of_nil|done]. }
  destruct (current !! n) eqn:Hcur.
  { intros (H1 & H2 & H3 & H4)%IH. split_and!; [done..| |].
    - intros m [->|Hm]%elem_of_cons Hn; [congruence|by apply H3].
    - intros m k Hm. apply H4. destruct Hm as [?|[Hm|?]]; auto. right. left. set_solver. }
  pose proof (holds_GetClient n (w_fleet w)) as Hg. destruct (GetClient n (w_fleet w)) as [r0 err] eqn:Eg. simpl in Hg.
  rewrite (action_bind_eq _ _ _ _ _ (call_fleet _ _ _ _ Eg)). destruct err as [e|].
  - destruct (cluster_gone e) eqn:Egone; [|done]. intros (H1 & H2 & H3 & H4)%IH. split_and!; [done|..].
    + intros c k Hk%H2. by rewrite <- Hg.
    + intros m [->|Hm]%elem_of_cons Hn; [left; by exists (w_fleet w), r0, e|by apply H3].
    + intros m k Hm. rewrite H4, Hg; [done|]. destruct Hm as [?|[Hm|?]]; auto. right. left. set_solver.
  - destruct (delete_object_spec n (workload_object app) (mkWorld (w_hub w) r0)) as (w1 & x & Hd & Hh & Hf & Hx).
    intros (w2 & [] & Hd2 & Hrest)%action_bind_ok. rewrite Hd in Hd2. injection Hd2 as -> ->.
    destruct (IH _ Hrest) as (H1 & H2 & H3 & H4). split_and!.
    + by rewrite H1, Hh.
    + intros c k Hk%H2%Hf. simpl in Hk. by rewrite Hg in Hk.
    + intros m [->|Hm]%elem_of_cons Hn; [right|by apply H3]. apply not_true_is_false. intros Hx2%H2. rewrite Hx in Hx2; done.
    + intros m k Hm. rewrite H4 by (destruct Hm as [?|[Hm|?]]; auto; right; left; set_solver).
      rewrite (delete_object_other _ _ _ _ _) with (w' := w2) (x := Ok tt) (2 := Hd); [apply Hg|].
      intros [= -> ->]. destruct Hm as [?|[Hm|?]]; [congruence|set_solver|done].
Qed.
Lemma try_delete_other n u errs w c k w' errs' : (c, k) ≠ (n, key_of u) ->
  try_delete n u errs w = Ret (w', Ok errs') -> holds (w_fleet w') c k = holds (w_fleet w) c k.
Proof.
  intros Hne (w1 & x & Ha & H)%action_bind_ok. injection H as <- _. unfold attempt in Ha.
  destruct (delete_object n u w) as [[w2 y]|] eqn:Ed; [|done]. injection Ha as <- _.
  by apply (delete_object_other _ _ _ _ _ Hne _ _ Ed).
Qed.

Lemma delete_loop_other app applied errs w w' errs' n k :
  n ∉ applied \/ (k ≠ key_of (workload_object app) /\ k ≠ key_of (pdb_object app)) ->
  delete_loop app applied errs w = Ret (w', Ok errs') -> holds (w_fleet w') n k = holds (w_fleet w) n k.
Proof.
  intros Hn. revert errs w; induction applied as [|m applied IH]; intros errs w; cbn [delete_loop]; [by intros [= <- _]|].
  assert (n ∉ applied \/ (k ≠ key_of (workload_object app) /\ k ≠ key_of (pdb_object app))) as Hn'
    by (destruct Hn; [left; set_solver|by right]).
  assert (forall u, u = workload_object app \/ u = pdb_object app -> (n, k) ≠ (m, key_of u)) as Hne.
  { intros u Hu [= -> ->]. destruct Hn as [Hn|[H1 H2]]; [set_solver|]. by destruct Hu as [-> | ->]. }
  pose proof (holds_GetClient m (w_fleet w) n k) as Hg. destruct (GetClient m (w_fleet w)) as [r0 err] eqn:Eg. simpl in Hg.
  rewrite (action_bind_eq _ _ _ _ _ (call_fleet _ _ _ _ Eg)). destruct err as [e|]; [by intros ->%IH|].
  intros (w1 & errs1 & H1 & (w2 & errs2 & H2 & H)%action_bind_ok)%action_bind_ok. rewrite (IH Hn' _ _ H).
  trans (holds (w_fleet w1) n k).
  - destruct (Resiliency (Spec app)); [|by injection H2 as <- _]. eapply try_delete_other; [|exact H2]. apply Hne. by right.
  - rewrite <- Hg. eapply (try_delete_other _ _ _ (mkWorld (w_hub w) r0)); [|exact H1]. apply Hne. by left.
Qed.

(** A deletion leaves behind whatever is not recorded as applied, and every other
    object of the application: its Rollouts are never deleted, nor is a workload on a
    cluster that a failed reconciliation did not come to record. *)
Theorem deletion_leaves_the_rest app w w' x n k : reconcileDelete app w = Ret (w', x) ->
  n ∉ AppliedClusters (Status app) \/ (k ≠ key_of (workload_object app) /\ k ≠ key_of (pdb_object app)) ->
  holds (w_fleet w') n k = holds (w_fleet w) n k.
Proof.
  unfold reconcileDelete. destruct (delete_loop_spec app (AppliedClusters (Status app)) [] w) as (w1 & errs & Hl & _).
  rewrite (action_bind_eq _ _ _ _ _ Hl). intros Hr Hn. rewrite <- (delete_loop_other _ _ _ _ _ _ _ _ Hn Hl).
  destruct errs; [|by injection Hr as <- _]. unfold check, on_hub in Hr.
  destruct (api_Update _ (w_hub w1)) as [h err]. by injection Hr as <- _.
Qed.
End deletion.

Section deployment.
Context `{G : GoRuntime, K : Kubernetes, Er : ApiErrors, U : Unstructured, C : !Conversions, O : ObjectHelpers,
          A : !ApiClient, HW : !HubWriter A, !HubWriterLaws HW, R : !ClusterClients, CW : !ClusterWriter R}.
Implicit Types (app : Application) (w : world) (r : remote).

(** Deploying changes the conditions of the application in memory and nothing else of it. *)
Definition same_app app app' : Prop :=
  app_Name app' = app_Name app /\ app_Namespace app' = app_Namespace app /\ app_Labels app' = app_Labels app /\
  Spec app' = Spec app /\ Topology (Status app') = Topology (Status app) /\
  AppliedClusters (Status app') = AppliedClusters (Status app) /\
  ClustersStatus (Status app') = ClustersStatus (Status app).

#[export] Instance same_app_preorder : PreOrder same_app.
Proof. split; unfold same_app; [by intros app|]. intros x y z. intuition congruence. Qed.

Lemma record_deployed_app app n now w w' app' : record_deployed app n now w = Ret (w', Ok app') -> same_app app app'.
Proof.
  unfold record_deployed. intros (w1 & err & _ & H)%action_bind_ok. destruct err as [e|]; [|by injection H as _ <-].
  destruct (str_contains e _); [|done]. unfold returns, on_hub in H.
  destruct (api_StatusWrite _ (w_hub w1)) as [h got] eqn:E. injection H as _ ->.
  destruct (api_StatusWrite_stored _ _ _ _ E) as (H1 & H2 & H3 & H4 & H5). unfold same_app. by rewrite H1, H2, H3, H4, H5.
Qed.

Lemma reconcileWorkload_app now n app cluster start w w' app' :
  reconcileWorkload now n app cluster start w = Ret (w', Ok app') -> same_app app app'.
Proof.
  unfold reconcileWorkload. intros (w1 & u & _ & (w2 & [] & _ & H)%action_bind_ok)%action_bind_ok.
  by apply record_deployed_app in H.
Qed.

(** One turn of the loop: it ends there, or goes on with the next cluster. *)
Lemma deploy_loop_cons now app current cumulative prev t rest w w' app' current' :
  deploy_loop now app current cumulative prev (t :: rest) w = Ret (w', Ok (app', current')) ->
  (paused app prev = true /\ w' = w /\ app' = app /\ current' = <[ct_Name t := tt]> current) \/
  (paused app prev = false /\ exists app1 cumulative1 w1, same_app app app1 /\
     deploy_loop now app1 (<[ct_Name t := tt]> current) cumulative1 (Some (ct_Name t)) rest w1 = Ret (w', Ok (app', current'))).
Proof.
  cbn [deploy_loop]. destruct (paused app prev); [intros [= <- <- <-]; by left|]. intros H. right. split; [done|].
  apply action_bind_ok in H as (w1 & got & _ & H). destruct got as [cluster|e].
  - apply action_bind_ok in H as (w2 & err & _ & H). destruct err as [e|]; [by eexists app, cumulative, w2|].
    apply action_bind_ok in H as (w3 & app1 & H3%reconcileWorkload_app & H).
    apply action_bind_ok in H as (w4 & [] & _ & H). apply action_bind_ok in H as (w5 & [] & _ & H).
    by eexists app1, _, w5.
  - destruct (IsNotFound e); [|done]. by eexists app, cumulative, w1.
Qed.

Lemma cluster_healthy_same app app' n : same_app app app' -> cluster_healthy app' n = cluster_healthy app n.
Proof. intros (_ & _ & _ & _ & _ & _ & Hcs). unfold cluster_healthy. by rewrite Hcs. Qed.
Lemma is_stateful_same app app' : same_app app app' -> is_stateful app' = is_stateful app.
Proof. intros (_ & _ & _ & Hs & _). unfold is_stateful. by rewrite Hs. Qed.

Lemma deploy_loop_same now app current cumulative prev l w w' app' current' :
  deploy_loop now app current cumulative prev l w = Ret (w', Ok (app', current')) ->
  same_app app app' /\ (forall n, is_Some (current !! n) -> is_Some (current' !! n)) /\
  (forall n, is_Some (current' !! n) -> is_Some (current !! n) \/ n ∈ ct_Name <$> l) /\
  (is_stateful app = false -> forall n, n ∈ ct_Name <$> l -> is_Some (current' !! n)).
Proof.
  revert app current cumulative prev w; induction l as [|t l IH]; intros app current cumulative prev w.
  { intros [= <- <- <-]. split_and!; [done..|by auto|]. by intros _ n ?%elem_of_nil. }
  assert (forall n, is_Some (<[ct_Name t := tt]> current !! n) <-> n = ct_Name t \/ is_Some (current !! n)) as Hins.
  { intros n. rewrite lookup_insert_is_Some. destruct (decide (n = ct_Name t)); naive_solver. }
  intros [(Hp & -> & -> & ->)|(Hp & app1 & c1 & w1 & Hs & (H1 & H2 & H3 & H4)%IH)]%deploy_loop_cons.
  - split_and!; [done|intros n ?; apply Hins; auto|intros n [->|?]%Hins; [right; rewrite fmap_cons; by left|by left]|].
    intros Hst. unfold paused in Hp. by rewrite Hst in Hp.
  - split_and!; [by etrans|intros n ?; apply H2, Hins; auto| |].
    + intros n [[->|?]%Hins|?]%H3; rewrite fmap_cons, elem_of_cons; auto.
    + intros Hst n. rewrite fmap_cons. intros [->|Hn]%elem_of_cons; [apply H2, Hins; auto|].
      apply H4; [|done]. by rewrite (is_stateful_same _ _ Hs).
Qed.

(** A StatefulSet stops at the first cluster whose predecessor is not healthy: the
    clusters after it are not among the current ones. *)
Lemma deploy_loop_paused now app current cumulative prev pre t1 t2 rest w w' app' current' :
  is_stateful app = true -> cluster_healthy app (ct_Name t1) = false ->
  deploy_loop now app current cumulative prev (pre ++ t1 :: t2 :: rest) w = Ret (w', Ok (app', current')) ->
  forall n, is_Some (current' !! n) -> is_Some (current !! n) \/ n ∈ ct_Name <$> pre ++ [t1; t2].
Proof.
  revert app current cumulative prev w; induction pre as [|t pre IH]; intros app current cumulative prev w Hst Hh.
  - intros [(_ & -> & -> & ->)|(_ & app1 & c1 & w1 & Hs & H)]%deploy_loop_cons n.
    { rewrite lookup_insert_is_Some. cbn. set_solver. }
    apply deploy_loop_cons in H as [(_ & -> & -> & ->)|(Hp & _)].
    + rewrite !lookup_insert_is_Some. cbn. set_solver.
    + unfold paused in Hp. rewrite (is_stateful_same _ _ Hs), Hst, (cluster_healthy_same _ _ _ Hs), Hh in Hp. done.
  - intros [(_ & -> & -> & ->)|(_ & app1 & c1 & w1 & Hs & H)]%deploy_loop_cons n.
    { rewrite lookup_insert_is_Some. cbn. set_solver. }
    intros Hn. rewrite <- (is_stateful_same _ _ Hs) in Hst. rewrite <- (cluster_healthy_same _ _ _ Hs) in Hh.
    destruct (IH _ _ _ _ _ Hst Hh H n Hn) as [Hi|Hi]; [|right; cbn; set_solver].
    rewrite lookup_insert_is_Some in Hi. destruct Hi as [<-|[_ Hi]]; [right; cbn; set_solver|by left].
Qed.
End deployment.

(** ** The status *)

Section status.
Context `{G : GoRuntime, !GoRuntimeLaws G, K : Kubernetes, Er : ApiErrors, U : Unstructured, C : !Conversions,
          O : ObjectHelpers, A : !ApiClient, HW : !HubWriter A, R : !ClusterClients, CW : !ClusterWriter R}.
Implicit Types (app : Application) (w : world) (r : remote).

Lemma observe_loop_names r app applied : cs_ClusterName <$> (observe_loop r app applied).2 = applied.
Proof.
  revert r; induction applied as [|n applied IH]; intros r; [done|]. cbn [observe_loop].
  assert (cs_ClusterName (observe_cluster r app n).2 = n) as Hn.
  { unfold observe_cluster. destruct (GetClient n r) as [r1 [e|]]; [done|]. by destruct (rc_Get _ _ _ _ _ r1) as [r2 [u|e]]. }
  destruct (observe_cluster r app n) as [r1 cs]. pose proof (IH r1) as IHr.
  destruct (observe_loop r1 app applied) as [r2 css]. cbn [snd] in *. by rewrite fmap_cons, Hn, IHr.
Qed.

Lemma set_rollout_names css n st : n ∈ cs_ClusterName <$> css ->
  cs_ClusterName <$> set_rollout css n st = cs_ClusterName <$> css.
Proof.
  induction css as [|cs css IH]; [by intros ?%elem_of_nil|]. rewrite fmap_cons. intros Hn. cbn [set_rollout].
  destruct (String.eqb_spec (cs_ClusterName cs) n) as [E|E]; [done|]. rewrite fmap_cons, IH; [done|].
  by apply elem_of_cons in Hn as [->|].
Qed.

(** Reading the rollouts back changes the rollouts of the listed clusters only. *)
Lemma aggregate_loop_spec r app clusters :
  (forall n, n ∈ clusters -> n ∈ cs_ClusterName <$> ClustersStatus (Status app)) ->
  let app' := (aggregate_loop r app clusters).2 in
  cs_ClusterName <$> ClustersStatus (Status app') = cs_ClusterName <$> ClustersStatus (Status app) /\
  AppliedClusters (Status app') = AppliedClusters (Status app) /\
  GlobalReplicas (Status app') = GlobalReplicas (Status app) /\
  GlobalReadyReplicas (Status app') = GlobalReadyReplicas (Status app).
Proof.
  revert r app; induction clusters as [|n clusters IH]; intros r app Hin; [done|]. cbn [aggregate_loop].
  destruct (GetClient n r) as [r1 [e|]]; [apply IH; intros m ?; apply Hin; by right|].
  destruct (getRolloutStatus r1 n app) as [r2 [st|e]]; [|apply IH; intros m ?; apply Hin; by right].
  assert (cs_ClusterName <$> ClustersStatus (Status (updateClusterRolloutStatus app n st)) =
          cs_ClusterName <$> ClustersStatus (Status app)) as E by (apply set_rollout_names, Hin; by left).
  destruct (IH r2 (updateClusterRolloutStatus app n st)) as (-> & -> & -> & ->); [|done].
  intros m ?. rewrite E. apply Hin. by right.
Qed.

(** The status that is written lists the clusters of the placement, in order and
    once each, with a report for each; the desired replicas are those of the
    placement, and the ready replicas those the clusters report. *)
Theorem update_status_spec app current w : exists changed,
  (exists w' x, update_status app current w = Ret (w', x) /\ w_hub w' = (api_StatusPatch app changed (w_hub w)).1) /\
  StronglySorted String.le (AppliedClusters (Status changed)) /\ NoDup (AppliedClusters (Status changed)) /\
  (forall n, n ∈ AppliedClusters (Status changed) <-> is_Some (current !! n)) /\
  cs_ClusterName <$> ClustersStatus (Status changed) = AppliedClusters (Status changed) /\
  GlobalReplicas (Status changed) = sum32 ct_Replicas (Topology (Status app)).
Proof.
  unfold update_status. set (applied := sort_strings (range_keys 102 current)).
  pose proof (observe_loop_names (w_fleet w) app applied) as Hnames.
  destruct (observe_loop (w_fleet w) app applied) as [r1 css] eqn:E1. simpl in Hnames.
  assert (call (on_fleet (fun r => observe_loop r app applied)) w = Ret (mkWorld (w_hub w) r1, Ok css)) as C1
    by (by apply call_fleet).
  rewrite (action_bind_eq _ _ _ _ _ C1). set (base := applied_status app applied css).
  destruct (AggregateRolloutStatus r1 base applied) as [r2 changed] eqn:E2.
  assert (call (on_fleet (fun r => AggregateRolloutStatus r base applied)) (mkWorld (w_hub w) r1) =
    Ret (mkWorld (w_hub w) r2, Ok changed)) as C2 by exact (call_fleet _ (mkWorld (w_hub w) r1) _ _ E2).
  rewrite (action_bind_eq _ _ _ _ _ C2).
  assert (cs_ClusterName <$> ClustersStatus (Status changed) = applied /\ AppliedClusters (Status changed) = applied /\
    GlobalReplicas (Status changed) = sum32 ct_Replicas (Topology (Status app))) as (H1 & H2 & H3).
  { unfold AggregateRolloutStatus in E2. destruct (spec_RolloutStrategy _); [|by injection E2 as _ <-].
    assert (forall n, n ∈ applied -> n ∈ cs_ClusterName <$> ClustersStatus (Status base)) as Hin
      by (intros n Hn; simpl; by rewrite Hnames).
    pose proof (aggregate_loop_spec r1 base applied Hin) as Ha. rewrite E2 in Ha. cbn zeta in Ha.
    destruct Ha as (Ha1 & Ha2 & Ha3 & _). cbn [snd] in Ha1, Ha2, Ha3. rewrite Ha1, Ha2, Ha3. by split_and!. }
  exists changed. split; [|rewrite H1, H2; split_and!; [..|done|done]].
  - unfold check, on_hub. simpl. destruct (api_StatusPatch app changed (w_hub w)) as [h err]. by eexists _, _.
  - apply sort_strings_sorted.
  - unfold applied, sort_strings. rewrite go_sort_perm. apply range_keys_NoDup.
  - intros n. unfold applied, sort_strings. rewrite go_sort_elem. apply range_keys_elem.
Qed.
End status.

(** ** Clusters that are still in the placement *)

Section paused.
Context `{G : GoRuntime, !GoRuntimeLaws G, K : Kubernetes, Er : ApiErrors, U : Unstructured, C : !Conversions,
          O : ObjectHelpers, A : !ApiClient, HW : !HubWriter A, !HubWriterLaws HW, R : !ClusterClients,
          CW : !ClusterWriter R, F : !FleetObjects R, !FleetObjectsLaws F}.
Implicit Types (app : Application) (w : world) (r : remote).

Lemma fewer_Get n v k ns name r : fewer (rc_Get n v k ns name r).1 r.
Proof. intros c key. by rewrite holds_Get. Qed.

Lemma fewer_observe r app applied : fewer (observe_loop r app applied).1 r.
Proof.
  revert r; induction applied as [|n applied IH]; intros r; [done|]. cbn [observe_loop].
  assert (fewer (observe_cluster r app n).1 r) as Hn.
  { unfold observe_cluster. pose proof (fewer_GetClient n r) as H1. destruct (GetClient n r) as [r1 [e|]]; [done|].
    simpl in H1. pose proof (fewer_Get n (APIVersion (Workload (Spec app))) (Kind (Workload (Spec app))) (app_Namespace app) (app_Name app) r1).
    destruct (rc_Get _ _ _ _ _ r1) as [r2 ?]. by etrans. }
  destruct (observe_cluster r app n) as [r1 cs]. pose proof (IH r1) as IHr.
  destruct (observe_loop r1 app applied) as [r2 css]. by etrans.
Qed.

Lemma fewer_aggregate r app clusters : fewer (AggregateRolloutStatus r app clusters).1 r.
Proof.
  unfold AggregateRolloutStatus. destruct (spec_RolloutStrategy _); [|done].
  revert r app; induction clusters as [|n clusters IH]; intros r app; [done|]. cbn [aggregate_loop].
  pose proof (fewer_GetClient n r) as H1. destruct (GetClient n r) as [r1 [e|]]; [by rewrite IH|].
  unfold getRolloutStatus. pose proof (fewer_Get n "rollouts.kruise.io/v1alpha1" "Rollout" (app_Namespace app) (app_Name app) r1) as H2.
  destruct (rc_Get _ _ _ _ _ r1) as [r2 [u|e]]; simpl in *; by rewrite IH, H2.
Qed.

Lemma fewer_update_status app current w w' x : update_status app current w = Ret (w', x) -> fewer (w_fleet w') (w_fleet w).
Proof.
  unfold update_status. set (applied := sort_strings _).
  pose proof (fewer_observe (w_fleet w) app applied) as H1. destruct (observe_loop (w_fleet w) app applied) as [r1 css] eqn:E1.
  assert (call (on_fleet (fun r => observe_loop r app applied)) w = Ret (mkWorld (w_hub w) r1, Ok css)) as C1
    by (by apply call_fleet).
  rewrite (action_bind_eq _ _ _ _ _ C1). set (base := applied_status app applied css).
  pose proof (fewer_aggregate r1 base applied) as H2. destruct (AggregateRolloutStatus r1 base applied) as [r2 changed] eqn:E2.
  assert (call (on_fleet (fun r => AggregateRolloutStatus r base applied)) (mkWorld (w_hub w) r1) =
    Ret (mkWorld (w_hub w) r2, Ok changed)) as C2 by exact (call_fleet _ (mkWorld (w_hub w) r1) _ _ E2).
  rewrite (action_bind_eq _ _ _ _ _ C2). unfold check, on_hub. simpl.
  destruct (api_StatusPatch app changed (w_hub w)) as [h err]. intros [= <- _]. simpl in *. by etrans.
Qed.

Lemma workload_object_same app app' : same_app app app' -> workload_object app' = workload_object app.
Proof. intros (H1 & H2 & _ & H4 & _). unfold workload_object. by rewrite H1, H2, H4. Qed.

(** A cluster that is not among the current ones after the deployment loses the workload. *)
Lemma not_current_loses now app w w' n : reconcile_placed now app w = Ret (w', Ok tt) -> n ∈ AppliedClusters (Status app) ->
  (forall w1 app1 current, deploy_loop now app ∅ 0 None (topology_sorted app) w = Ret (w1, Ok (app1, current)) ->
     current !! n = None) ->
  unreachable n \/ holds (w_fleet w') n (key_of (workload_object app)) = false.
Proof.
  unfold reconcile_placed. intros (w1 & [app1 current] & Hd & H)%action_bind_ok Hn Hcur.
  apply action_bind_ok in H as (w2 & [] & Hc & Hu). specialize (Hcur _ _ _ Hd).
  destruct (deploy_loop_same _ _ _ _ _ _ _ _ _ _ Hd) as (Hs & _).
  destruct (cleanup_loop_spec _ _ _ _ _ Hc) as (_ & _ & Hgone & _).
  assert (n ∈ AppliedClusters (Status app1)) as Hn1 by (destruct Hs as (_ & _ & _ & _ & _ & -> & _); done).
  destruct (Hgone n Hn1 Hcur) as [|Hno]; [by left|right].
  rewrite (workload_object_same _ _ Hs) in Hno. apply not_true_is_false. intros Hh%(fewer_update_status _ _ _ _ _ Hu). congruence.
Qed.

(** A StatefulSet that is rolled out is removed where it already runs: when the
    roll-out stops at a cluster whose predecessor is not healthy, the clusters behind
    it, although they are in the placement, lose their workload. *)
Theorem paused_rollout_removes_workloads now app w w' pre t1 t2 rest n :
  topology_sorted app = pre ++ t1 :: t2 :: rest ->
  is_stateful app = true -> cluster_healthy app (ct_Name t1) = false ->
  n ∈ ct_Name <$> rest -> n ∉ ct_Name <$> pre ++ [t1; t2] -> n ∈ AppliedClusters (Status app) ->
  reconcile_placed now app w = Ret (w', Ok tt) ->
  unreachable n \/ holds (w_fleet w') n (key_of (workload_object app)) = false.
Proof.
  intros Ht Hst Hh Hn Hnot Happ Hr. apply (not_current_loses now _ w); [done..|]. intros w1 app1 current Hd.
  rewrite Ht in Hd. apply eq_None_not_Some. intros Hs.
  destruct (deploy_loop_paused _ _ _ _ _ _ _ _ _ _ _ _ _ Hst Hh Hd n Hs) as [[? Hx]|?]; [by rewrite lookup_empty in Hx|done].
Qed.

(** A cluster that is no longer in the placement loses the workload. *)
Theorem removed_cluster_is_cleaned now app w w' n :
  n ∈ AppliedClusters (Status app) -> n ∉ ct_Name <$> Topology (Status app) ->
  reconcile_placed now app w = Ret (w', Ok tt) ->
  unreachable n \/ holds (w_fleet w') n (key_of (workload_object app)) = false.
Proof.
  intros Happ Hnot Hr. apply (not_current_loses now _ w); [done..|]. intros w1 app1 current Hd.
  apply eq_None_not_Some. intros Hs. destruct (deploy_loop_same _ _ _ _ _ _ _ _ _ _ Hd) as (_ & _ & H3 & _).
  destruct (H3 n Hs) as [[? Hx]|Hin]; [by rewrite lookup_empty in Hx|]. apply Hnot.
  unfold topology_sorted in Hin. by rewrite go_sort_perm in Hin.
Qed.
End paused.

(** ** The object that is sent *)

(** Compares a path with one that depends on the kind. *)
Ltac by_kind := unfold labels_path, template_path; by destruct (String.eqb _ "CronJob").

Section sent.
Context `{G : GoRuntime, !GoRuntimeLaws G, K : Kubernetes, Er : ApiErrors, U : Unstructured, !UnstructuredLaws U,
          C : !Conversions, O : ObjectHelpers, A : !ApiClient, HW : !HubWriter A, R : !ClusterClients,
          CW : !ClusterWriter R, !ClusterWriterLaws CW}.
Implicit Types (app : Application) (w : world).

Lemma initial_workload_kind app : invalid_spec app = false -> app_Name app ≠ "" ->
  GetKind (initial_workload app) = Kind (Workload (Spec app)).
Proof.
  unfold invalid_spec. intros [[Hv Hk]%orb_false_iff _]%orb_false_iff Hn.
  apply String.eqb_neq in Hv, Hk. unfold initial_workload, workload_object.
  rewrite new_object_at, SetLabels_at, GetKind_at; [done| |done..]. unfold CopyBusinessIdentity. apply insert_non_empty.
Qed.

Lemma preserve_keeps cli u explicit w w' u' q : preserveLiveWorkloadSelector cli u explicit w = Ret (w', Ok u') ->
  diverge selector_path q = true -> at_path u' q = at_path u q.
Proof.
  unfold preserveLiveWorkloadSelector. intros (w1 & live & _ & H)%action_bind_ok Hd. destruct live as [live|e].
  - apply action_bind_ok in H as (w2 & sel & _ & H). destruct (nonempty sel) as [s|]; [|by injection H as _ ->].
    apply action_bind_ok in H as (w3 & d & _ & H). destruct (explicit && _); [done|].
    injection H as _ Hs%SetNestedMap_ok. by apply (set_field_other _ _ _ _ _ Hs).
  - destruct (IsNotFound e); [by injection H as _ ->|done].
Qed.

(** The parts of the construction. *)
Lemma build_workload_parts cli app cluster start w w' u : build_workload cli app cluster start w = Ret (w', Ok u) ->
  exists u1 u2 u3 w1 w2 u4, configureWorkload (initial_workload app) (Spec app) start = Ok u1 /\
    preserveLiveWorkloadSelector cli u1 (match Selector (Spec app) with Some _ => true | None => false end) w1 = Ret (w2, Ok u2) /\
    configureImmutablePodIdentity u2 (ImmutablePodIdentity (app_Labels app)) = Ok u3 /\
    ApplyOverrides u3 app (mc_Labels cluster) = Ret (Ok u4) /\
    forall q, diverge ["metadata"] q = true -> at_path u q = at_path u4 q.
Proof.
  unfold build_workload. intros (w1 & u1 & H1 & H)%action_bind_ok. injection H1 as <- H1.
  apply action_bind_ok in H as (w2 & u2 & H2 & H). apply action_bind_ok in H as (w3 & u3 & H3 & H). injection H3 as <- H3.
  apply action_bind_ok in H as (w4 & u4 & H4 & H). unfold of_outcome in H4.
  destruct (ApplyOverrides u3 app (mc_Labels cluster)) as [x|] eqn:E; [|done]. injection H4 as <- ->.
  exists u1, u2, u3, w, w2, u4. split_and!; [done..|]. intros q Hq. destruct (is_hub_client cli).
  - injection H as _ H. by apply (SetControllerReference_spec _ _ _ _ H).
  - by injection H as _ ->.
Qed.

Lemma identity_keeps u src u' q : configureImmutablePodIdentity u src = Ok u' ->
  diverge (labels_path (GetKind u)) q = true -> diverge selector_path q = true -> at_path u' q = at_path u q.
Proof.
  unfold configureImmutablePodIdentity. destruct (_ || _); [done|]. intros (cur & _ & (u1 & H1%SetNestedStringMap_ok & H)%res_bind_ok)%res_bind_ok Hl Hs.
  pose proof (set_field_other _ _ _ _ _ H1 Hl) as E1. destruct (selector_kind _); [|by injection H as ->].
  apply res_bind_ok in H as (sel & _ & H). destruct (nonempty sel).
  - apply res_bind_ok in H as (cur' & _ & H%SetNestedStringMap_ok). by rewrite (set_field_other _ _ _ _ _ H Hl).
  - apply SetNestedField_ok in H. by rewrite (set_field_other _ _ _ _ _ H Hs).
Qed.

Lemma GetKind_keeps u u' : at_path u' ["kind"] = at_path u ["kind"] -> GetKind u' = GetKind u.
Proof. intros E. rewrite !GetKind_at. unfold string_at. by rewrite E. Qed.

Lemma kind_apart : apart ["kind"].
Proof. by apply apart_by_compute. Qed.

(** The kind is never changed. *)
Lemma configured_kind app start u : invalid_spec app = false -> app_Name app ≠ "" ->
  configureWorkload (initial_workload app) (Spec app) start = Ok u -> GetKind u = Kind (Workload (Spec app)).
Proof.
  intros Hv Hn H. rewrite <- (initial_workload_kind app) by done. apply GetKind_keeps.
  refine (keeps_configure ["kind"] _ _ _ _ kind_apart _ H). by_kind.
Qed.

Lemma preserved_kind app start cli explicit w1 w2 u1 u2 : invalid_spec app = false -> app_Name app ≠ "" ->
  configureWorkload (initial_workload app) (Spec app) start = Ok u1 ->
  preserveLiveWorkloadSelector cli u1 explicit w1 = Ret (w2, Ok u2) -> GetKind u2 = Kind (Workload (Spec app)).
Proof.
  intros Hv Hn H1 H2. rewrite <- (configured_kind _ _ _ Hv Hn H1). apply GetKind_keeps.
  by apply (preserve_keeps _ _ _ _ _ _ ["kind"] H2).
Qed.

Lemma identity_configured_ext u u' kind identity :
  at_path u' (labels_path kind) = at_path u (labels_path kind) -> at_path u' selector_path = at_path u selector_path ->
  identity_configured u kind identity -> identity_configured u' kind identity.
Proof. intros E1 E2. unfold identity_configured. by rewrite E1, E2. Qed.


(** The workload sent to each cluster of the placement asks for the application's
    whole number of replicas, not for the cluster's share. *)
Theorem every_cluster_gets_all_replicas cli app cluster start w w' u n :
  invalid_spec app = false -> app_Name app ≠ "" -> replicated_kind (Kind (Workload (Spec app))) = true ->
  spec_Replicas (Spec app) = Some n -> build_workload cli app cluster start w = Ret (w', Ok u) ->
  at_path u ["spec"; "replicas"] = Some (JInt n).
Proof.
  intros Hv Hn Hk Hr (u1 & u2 & u3 & w1 & w2 & u4 & H1 & H2 & H3 & H4 & Hu)%build_workload_parts.
  rewrite Hu, (apply_overrides_frame _ _ _ _ _ H4) by done.
  assert (GetKind u2 = Kind (Workload (Spec app))) as Hk2.
  { by apply (preserved_kind _ _ _ _ _ _ _ _ Hv Hn H1 H2). }
  rewrite (identity_keeps _ _ _ _ H3) by (done || by_kind).
  rewrite (preserve_keeps _ _ _ _ _ _ _ H2) by done.
  apply (configureWorkload_parts _ _ _ _ H1); [|done]. by rewrite initial_workload_kind.
Qed.

(** The overrides of a CronJob are lost: its containers are those of the template
    on every cluster. *)
Theorem cronjob_overrides_are_lost cli app cluster start w w' u template :
  invalid_spec app = false -> app_Name app ≠ "" -> Kind (Workload (Spec app)) = "CronJob" ->
  unmarshal_object (Template (Spec app)) = Ok template -> build_workload cli app cluster start w = Ret (w', Ok u) ->
  at_path u ["spec"; "jobTemplate"; "spec"; "template"; "spec"; "containers"] = at_path (JObj template) ["spec"; "containers"].
Proof.
  intros Hv Hn Hk Ht (u1 & u2 & u3 & w1 & w2 & u4 & H1 & H2 & H3 & H4 & Hu)%build_workload_parts.
  assert (GetKind u2 = "CronJob") as Hk2.
  { rewrite <- Hk. by apply (preserved_kind _ _ _ _ _ _ _ _ Hv Hn H1 H2). }
  rewrite Hu, (apply_overrides_frame _ _ _ _ _ H4), (identity_keeps _ _ _ _ H3), (preserve_keeps _ _ _ _ _ _ _ H2)
    by (rewrite ?Hk2; done).
  destruct (proj1 (configureWorkload_parts _ _ _ _ H1)) as (t & Ht' & Hat). rewrite Ht in Ht'. injection Ht' as <-.
  rewrite initial_workload_kind, Hk in Hat by done. cbn in Hat.
  change ["spec"; "jobTemplate"; "spec"; "template"; "spec"; "containers"] with
    (["spec"; "jobTemplate"; "spec"; "template"] ++ ["spec"; "containers"]). rewrite at_path_app.
  cbn [at_path]. cbn. by rewrite Hat.
Qed.

(** Nothing is deployed, and nothing removed, before the application carries the
    controller's finalizer. *)
Theorem finalizer_before_deployment now ns name w w' x : Reconcile now ns name w = Ret (w', x) ->
  w_fleet w' = w_fleet w \/
  exists h app, api_Get ns name (w_hub w) = (h, Ok app) /\
    (id_Deleting (app_Identity app) = true \/ (has_finalizer app = true /\ invalid_spec app = false)).
Proof.
  unfold Reconcile. destruct (api_Get ns name (w_hub w)) as [h got] eqn:Eg.
  rewrite (action_bind_eq _ _ _ _ _ (call_hub _ _ _ _ Eg)). destruct got as [app|e].
  2: { destruct (IsNotFound e); intros [= <- _]; by left. }
  destruct (api_List h) as [h2 l] eqn:El.
  assert (call (on_hub api_List) (mkWorld h (w_fleet w)) = Ret (mkWorld h2 (w_fleet w), Ok l)) as C2 by
    exact (call_hub _ (mkWorld h (w_fleet w)) _ _ El).
  rewrite (action_bind_eq _ _ _ _ _ C2). unfold reconcile_app.
  destruct (id_Deleting (app_Identity app)) eqn:Ed; [right; eauto|].
  destruct (has_finalizer app) eqn:Ef; simpl.
  - destruct (invalid_spec app) eqn:Ei; [|right; eauto 6]. set (app' := with_status _ _).
    destruct (api_StatusUpdate app' h2) as [h3 err] eqn:Es.
    assert (call (on_hub (api_StatusUpdate app')) (mkWorld h2 (w_fleet w)) = Ret (mkWorld h3 (w_fleet w), Ok err)) as C3 by
      exact (call_hub _ (mkWorld h2 (w_fleet w)) _ _ Es).
    rewrite (action_bind_eq _ _ _ _ _ C3). intros [= <- _]. by left.
  - unfold check, on_hub. simpl. destruct (api_Update (add_finalizer app) h2) as [h3 err]. intros [= <- _]. by left.
Qed.
End sent.

(** ** The properties at a concrete application *)

(** The clusters as maps of their objects. *)
Abbreviation fleet_state := (gmap string (gmap object_key json)).

#[export] Instance sample_fleet : @ClusterClients sample_errors := {|
  remote := fleet_state;
  GetClient n r := (r, match r !! n with Some _ => None | None => Some ("cluster " +:+ n +:+ " not found") end);
  rc_Create n u r := (alter (<[key_of u := u]>) n r, None);
  rc_Update n u r := (alter (<[key_of u := u]>) n r, None);
  rc_Delete n u r := (alter (delete (key_of u)) n r, None);
  rc_Get n v k ns name r := (r, match r !! n ≫= (fun m => m !! ((v, k, ns, name) : object_key)) with
                               | Some u => Ok u | None => Err "not found" end);
|}.

#[export] Instance sample_writer : @ClusterWriter sample_kubernetes sample_errors sample_fleet := {|
  rc_Apply n u r := (alter (<[key_of u := u]>) n r, None);
  rc_CreateOrUpdate n pdb f r :=
    (alter (<[("policy/v1", "PodDisruptionBudget", pdb_Namespace pdb, pdb_Name pdb) := JNull]>) n r, None);
  is_hub_client n := false;
  SetControllerReference app u := Ok u;
|}.
#[export] Instance sample_writer_laws : ClusterWriterLaws sample_writer.
Proof. split. by intros app u u' path [= ->]. Qed.

#[export] Instance sample_objects : @FleetObjects sample_errors sample_fleet :=
  @Build_FleetObjects sample_errors sample_fleet (fun r c k =>
    match (r : fleet_state) !! c ≫= (fun m => m !! k) with Some _ => true | None => false end).

#[export] Instance sample_objects_laws : FleetObjectsLaws sample_objects.
Proof.
  split; [done..| |]; cbn [holds rc_Delete sample_fleet sample_objects fst snd].
  - intros n u r c k Hne. set (m := (r : gmap string (gmap object_key json))).
    change (alter (delete (key_of u)) n r) with (alter (delete (key_of u)) n m).
    destruct (decide (n = c)) as [->|Hc]; [|by rewrite lookup_alter_ne].
    rewrite lookup_alter_eq. destruct (m !! c) as [x|]; [|done]. cbn. rewrite lookup_delete_ne; [done|]. congruence.
  - intros n u r. set (m := (r : gmap string (gmap object_key json))).
    change (alter (delete (key_of u)) n r) with (alter (delete (key_of u)) n m).
    rewrite lookup_alter_eq. destruct (m !! n) as [x|]; [|done]. cbn. by rewrite lookup_delete_eq.
Qed.

Definition identified : gmap string string := {[ ApplicationIDKey := "app-1"; WorkspaceIDKey := "ws-1" ]}.

Definition managed_app (kind : string) (overrides : list PolicyOverride) (placed : list ClusterTopology)
    (applied : list string) (css : list ClusterStatus) : Application :=
  mkApplication (mkIdentity "apps.kumquat.io/v1alpha1" "Application" "1" false [ApplicationFinalizer] 1) "web" "team" "1"
    identified ∅
    (mkAppSpec (mkGVK "apps/v1" kind) None (Some 4) "nginx" "" None None None [] overrides None None)
    (mkAppStatus "" "" 0 0 placed applied css 0 []).

Definition three : list ClusterTopology := [mkTopology "a" 2; mkTopology "b" 1; mkTopology "c" 1].

(** A StatefulSet that runs on three clusters; the first one is not healthy. *)
Definition stateful_app : Application :=
  managed_app "StatefulSet" [] three ["a"; "b"; "c"] [mkClusterStatus "a" ClusterPhaseProgressing 2 1 1 "" None].

Definition workload_key : object_key := ("apps/v1", "StatefulSet", "team", "web").
Definition fleet_of (names : list string) : @remote _ sample_fleet :=
  (list_to_map ((fun n => (n, {[ workload_key := JNull ]})) <$> names) : fleet_state).
Definition hub_of (app : Application) : @api _ _ sample_api := [app].
Definition start_world (app : Application) (names : list string) : world := mkWorld (hub_of app) (fleet_of names).
Definition noon (n : string) : Z := 12.

Lemma paused_rollout_removes_workloads_witness : exists w',
  reconcile_placed noon stateful_app (start_world stateful_app ["a"; "b"; "c"]) = Ret (w', Ok tt) /\
  (unreachable "c" \/ holds (w_fleet w') "c" (key_of (workload_object stateful_app)) = false).
Proof.
  destruct (succeeded_ret (reconcile_placed noon stateful_app (start_world stateful_app ["a"; "b"; "c"]))) as (w' & [] & E).
  { vm_compute. reflexivity. }
  exists w'. split; [exact E|].
  refine (paused_rollout_removes_workloads noon stateful_app _ w' [] (mkTopology "a" 2) (mkTopology "b" 1) [mkTopology "c" 1] "c"
    _ _ _ _ _ _ E).
  - vm_compute. reflexivity.
  - reflexivity.
  - vm_compute. reflexivity.
  - by left.
  - apply (bool_decide_eq_true_1 ("c" ∉ ["a"; "b"])). vm_compute. reflexivity.
  - apply (bool_decide_eq_true_1 ("c" ∈ ["a"; "b"; "c"])). vm_compute. reflexivity.
Defined.

Lemma removed_cluster_is_cleaned_witness : exists w',
  reconcile_placed noon (managed_app "StatefulSet" [] [mkTopology "a" 4] ["a"; "z"] [])
    (start_world stateful_app ["a"; "z"]) = Ret (w', Ok tt) /\
  (unreachable "z" \/ holds (w_fleet w') "z" workload_key = false).
Proof.
  set (app := managed_app "StatefulSet" [] [mkTopology "a" 4] ["a"; "z"] []).
  destruct (succeeded_ret (reconcile_placed noon app (start_world stateful_app ["a"; "z"]))) as (w' & [] & E).
  { vm_compute. reflexivity. }
  exists w'. split; [exact E|]. refine (removed_cluster_is_cleaned noon app _ w' "z" _ _ E).
  - apply (bool_decide_eq_true_1 ("z" ∈ ["a"; "z"])). vm_compute. reflexivity.
  - apply (bool_decide_eq_true_1 ("z" ∉ ["a"])). vm_compute. reflexivity.
Defined.

Lemma reconcileDelete_releases_when_clean_witness : exists w' x,
  reconcileDelete stateful_app (start_world stateful_app ["a"; "b"]) = Ret (w', x) /\
  ((w_hub w' = hub_of stateful_app /\ exists e, x = Err e) \/
   (w_hub w' = hub_of (remove_finalizer stateful_app) /\
    forall n, n ∈ ["a"; "b"; "c"] -> unreachable n \/ cleaned stateful_app (w_fleet w') n)).
Proof.
  exact (reconcileDelete_releases_when_clean stateful_app (start_world stateful_app ["a"; "b"])).
Defined.

Lemma update_status_spec_witness : exists changed : Application,
  AppliedClusters (Status changed) = cs_ClusterName <$> ClustersStatus (Status changed) /\
  GlobalReplicas (Status changed) = 4.
Proof.
  destruct (update_status_spec stateful_app {[ "b" := tt; "a" := tt ]} (start_world stateful_app ["a"; "b"]))
    as (changed & _ & _ & _ & _ & Hc & Hg).
  exists changed. split; [symmetry; exact Hc|]. rewrite Hg. reflexivity.
Defined.

(** What is built for cluster [a]. *)
Definition built (app : Application) : outcome (world * res json) :=
  build_workload "a" app (sample_cluster "a" {[ "zone" := "z1" ]} 8) 0 (start_world app ["a"]).
Definition nginx_2 : PolicyOverride := mkOverride (Some [("zone", "z1")]) "nginx:2" [("A", "1")] None [] [].
Definition web_app : Application := managed_app "Deployment" [nginx_2] three [] [].
Definition cron_app : Application := managed_app "CronJob" [nginx_2] three [] [].


Lemma every_cluster_gets_all_replicas_witness : exists w' u, built web_app = Ret (w', Ok u) /\
  at_path u ["spec"; "replicas"] = Some (JInt 4) /\ sumZ ct_Replicas three = 4.
Proof.
  destruct (succeeded_ret (built web_app)) as (w' & u & E); [vm_compute; reflexivity|].
  exists w', u. split; [exact E|]. split; [|reflexivity].
  exact (every_cluster_gets_all_replicas "a" web_app _ 0 _ w' u 4 eq_refl ltac:(discriminate) eq_refl eq_refl E).
Defined.

Lemma cronjob_overrides_are_lost_witness : exists w' u, built cron_app = Ret (w', Ok u) /\
  at_path u ["spec"; "jobTemplate"; "spec"; "template"; "spec"; "containers"] =
    Some (JArr [obj [("name", JStr "main"); ("image", JStr "nginx")]]).
Proof.
  destruct (succeeded_ret (built cron_app)) as (w' & u & E); [vm_compute; reflexivity|].
  exists w', u. split; [exact E|].
  exact (cronjob_overrides_are_lost "a" cron_app _ 0 _ w' u _ eq_refl ltac:(discriminate) eq_refl eq_refl E).
Defined.

(** An application that has just been created. *)
Definition fresh_app : Application := with_finalizers web_app [].

Lemma finalizer_before_deployment_witness : exists w' x,
  Reconcile noon "team" "web" (start_world fresh_app ["a"]) = Ret (w', x) /\
  (w_fleet w' = fleet_of ["a"] \/ exists h app, api_Get "team" "web" (hub_of fresh_app) = (h, Ok app) /\
    (id_Deleting (app_Identity app) = true \/ (has_finalizer app = true /\ invalid_spec app = false))).
Proof.
  destruct (succeeded_ret (Reconcile noon "team" "web" (start_world fresh_app ["a"]))) as (w' & [] & E); [vm_compute; reflexivity|].
  exists w', (Ok tt). split; [exact E|]. exact (finalizer_before_deployment noon "team" "web" _ w' (Ok tt) E).
Defined.

Definition rollout_key : object_key := ("rollouts.kruise.io/v1alpha1", "Rollout", "team", "web").

Definition with_rollout : @remote _ sample_fleet := ({[ "a" := {[ rollout_key := JNull ]} ]} : fleet_state).

Lemma deletion_leaves_the_rest_witness : exists w' x,
  reconcileDelete stateful_app (mkWorld (hub_of stateful_app) with_rollout) = Ret (w', x) /\
  holds (w_fleet w') "a" rollout_key = true.
Proof.
  set (w := mkWorld (hub_of stateful_app) with_rollout).
  destruct (succeeded_ret (reconcileDelete stateful_app w)) as (w' & [] & E); [vm_compute; reflexivity|].
  exists w', (Ok tt). split; [exact E|]. refine (deletion_leaves_the_rest stateful_app w w' (Ok tt) "a" rollout_key E _).
  right. split; discriminate.
Defined.
