(* ===== verification/ClientManager.v ===== *)
(** * The clients of the managed clusters

    cluster/client_manager.go: how a cluster is reached, from its ManagedCluster and
    its Secret on the hub, and the cache of the accessors that were made.  The
    accessor itself (sigs.k8s.io/controller-runtime/pkg/cluster), the tunnel server
    and the in-cluster configuration are parameters.  [manager_clients] makes the
    manager an instance of [ClusterClients], so that the theorems of the
    controllers apply to it. *)

From S2P Require Import Prelude GoRuntime Json Api Clients Manifest AppController.

Definition ClusterConnectionModeHub : string := "Hub".
Definition ClusterConnectionModeEdge : string := "Edge".
Definition LocalAPIServer : string := "in-cluster://".
Definition DefaultAPIServerURL : string := "https://kubernetes.default.svc:443".

(** ** The hub, as the cluster controllers use it *)

Record Secret := mkSecret { sec_Annotations : gmap string string; sec_Data : gmap string string }.

Class ClusterHub `{Kubernetes, ApiErrors} := {
  chub : Type;
  ch_Get : string -> chub -> chub * res ManagedCluster;
  ch_List : chub -> chub * res (list ManagedCluster);
  ch_Update : ManagedCluster -> chub -> chub * option string;
  (** [Status().Patch(cluster, client.MergeFrom(base))]: base and changed object; the
      changed object takes the answer. *)
  ch_StatusPatch : ManagedCluster -> ManagedCluster -> chub -> chub * res ManagedCluster;
  ch_Delete : string -> chub -> chub * option string;
  ch_GetSecret : string -> string -> chub -> chub * res Secret;              (* namespace, name *)
  ch_CreateOrUpdateSecret : string -> string -> (Secret -> Secret) -> chub -> chub * option string;
  new_uuid : chub -> chub * string;
}.

Class ClusterHubLaws `{Kubernetes, ApiErrors} (H : ClusterHub) : Prop := {
  ch_Get_name name h h' cluster : ch_Get name h = (h', Ok cluster) -> mc_Name cluster = name;
}.

(** ** Configurations *)

Record RestConfig := mkConfig {
  cfg_Host : string; cfg_Tunnel : bool;            (* Dial goes through the tunnel *)
  cfg_CAData : string; cfg_CertData : string; cfg_KeyData : string; cfg_BearerToken : string;
  cfg_Insecure : bool }.

Definition plain_config (host : string) (tunnel : bool) : RestConfig := mkConfig host tunnel "" "" "" "" false.
Definition with_insecure (cfg : RestConfig) : RestConfig :=
  mkConfig (cfg_Host cfg) (cfg_Tunnel cfg) (cfg_CAData cfg) (cfg_CertData cfg) (cfg_KeyData cfg) (cfg_BearerToken cfg) true.

(** What is outside: the tunnel sessions, the accessors, and the clusters behind them. *)
Class Network `{Kubernetes, ApiErrors} := {
  net : Type;
  HasSession : string -> net -> bool;
  inClusterConfig : res RestConfig;
  accessor : Type;
  cluster_New : RestConfig -> net -> net * res accessor;
  acc_Create : accessor -> json -> net -> net * option string;
  acc_Update : accessor -> json -> net -> net * option string;
  acc_Delete : accessor -> json -> net -> net * option string;
  acc_Get : accessor -> string -> string -> string -> string -> net -> net * res json;
}.

Section manager.
Context `{Kubernetes, ApiErrors, !ClusterHub, !Network}.

(** A started accessor runs until its context is cancelled; [cm_running] are those
    that have not been, by the number of their start. *)
Record ClientManager := mkManager {
  cm_Namespace : string;
  cm_clusters : gmap string accessor;
  cm_cancels : gmap string nat;
  cm_running : gmap nat string;
  cm_next : nat }.

Definition NewClientManager (namespace : string) : ClientManager := mkManager namespace ∅ ∅ ∅ 0.

Definition RemoveClient (m : ClientManager) (clusterName : string) : ClientManager :=
  let running := match cm_cancels m !! clusterName with
                 | Some start => delete start (cm_running m)
                 | None => cm_running m
                 end in
  mkManager (cm_Namespace m) (delete clusterName (cm_clusters m)) (delete clusterName (cm_cancels m)) running (cm_next m).

(** The value under a key, when it is there and not empty. *)
Definition secret_value (data : gmap string string) (key : string) : string := default "" (data !! key).

Definition loadCredentials (m : ClientManager) (secretName : string) (cfg : RestConfig) (h : chub) : chub * res RestConfig :=
  let '(h, got) := ch_GetSecret (cm_Namespace m) secretName h in
  match got with
  | Err e => (h, Err ("failed to get secret " +:+ secretName +:+ ": " +:+ e))
  | Ok secret =>
      let value key old := let v := secret_value (sec_Data secret) key in if String.eqb v "" then old else v in
      let ca := secret_value (sec_Data secret) "caData" in
      let cfg := mkConfig (cfg_Host cfg) (cfg_Tunnel cfg) (value "caData" (cfg_CAData cfg))
        (value "certData" (cfg_CertData cfg)) (value "keyData" (cfg_KeyData cfg)) (value "token" (cfg_BearerToken cfg))
        (cfg_Insecure cfg || String.eqb ca "") in
      (h, Ok (if String.eqb (cfg_BearerToken cfg) "" && String.eqb (cfg_CertData cfg) "" then with_insecure cfg else cfg))
  end.

Definition secret_name (cluster : ManagedCluster) : string := default "" (SecretRef (mc_Access cluster)).

Definition buildHubModeConfig (m : ClientManager) (cluster : ManagedCluster) (h : chub) : chub * res RestConfig :=
  if String.eqb (APIServer (mc_Access cluster)) LocalAPIServer then
    (h, if String.eqb (secret_name cluster) "" then
          match inClusterConfig with
          | Ok cfg => Ok cfg
          | Err e => Err ("build in-cluster config for local hub " +:+ mc_Name cluster +:+ ": " +:+ e)
          end
        else Err ("local hub " +:+ mc_Name cluster +:+ " must not specify secretRef"))
  else if String.eqb (secret_name cluster) "" then (h, Err ("remote hub " +:+ mc_Name cluster +:+ " requires secretRef"))
  else loadCredentials m (secret_name cluster) (plain_config (APIServer (mc_Access cluster)) false) h.

Definition buildEdgeModeConfig (m : ClientManager) (cluster : ManagedCluster) (n : net) (h : chub) : chub * res RestConfig :=
  if negb (HasSession (mc_Name cluster) n) then
    (h, Err ("cluster " +:+ mc_Name cluster +:+ " is not connected via tunnel"))
  else
    let host := if String.eqb (APIServer (mc_Access cluster)) "" then DefaultAPIServerURL else APIServer (mc_Access cluster) in
    let cfg := plain_config host true in
    match SecretRef (mc_Access cluster) with
    | Some name => loadCredentials m name cfg h
    | None => (h, Ok (with_insecure cfg))
    end.

Definition build_config (m : ClientManager) (cluster : ManagedCluster) (n : net) (h : chub) : chub * res RestConfig :=
  if String.eqb (ConnectionMode (mc_Access cluster)) ClusterConnectionModeHub
  then buildHubModeConfig m cluster h else buildEdgeModeConfig m cluster n h.

(** The manager, the hub and the network. *)
Record manager_state := mkManagerState { ms_manager : ClientManager; ms_hub : chub; ms_net : net }.

(** The lock is held from the second look at the cache to the end. *)
Definition GetCluster (clusterName : string) (s : manager_state) : manager_state * res accessor :=
  let m := ms_manager s in
  match cm_clusters m !! clusterName with
  | Some c => (s, Ok c)
  | None =>
      let '(h, got) := ch_Get clusterName (ms_hub s) in
      match got with
      | Err e => (mkManagerState m h (ms_net s), Err ("failed to get cluster " +:+ clusterName +:+ ": " +:+ e))
      | Ok cluster =>
          let '(h, cfg) := build_config m cluster (ms_net s) h in
          match cfg with
          | Err e => (mkManagerState m h (ms_net s), Err e)
          | Ok cfg =>
              let '(n, c) := cluster_New cfg (ms_net s) in
              match c with
              | Err e => (mkManagerState m h n, Err ("failed to create cluster accessor for " +:+ clusterName +:+ ": " +:+ e))
              | Ok c =>
                  (mkManagerState (mkManager (cm_Namespace m) (<[clusterName := c]> (cm_clusters m))
                     (<[clusterName := cm_next m]> (cm_cancels m)) (<[cm_next m := clusterName]> (cm_running m))
                     (S (cm_next m))) h n, Ok c)
              end
          end
      end
  end.

(** A call goes to the accessor that [GetClient] has left in the cache. *)
Definition with_accessor {X} (clusterName : string) (none : X) (f : accessor -> net -> net * X) (s : manager_state)
    : manager_state * X :=
  match cm_clusters (ms_manager s) !! clusterName with
  | Some c => let '(n, x) := f c (ms_net s) in (mkManagerState (ms_manager s) (ms_hub s) n, x)
  | None => (s, none)
  end.

#[export] Instance manager_clients : ClusterClients := {|
  remote := manager_state;
  GetClient name s := let '(s, got) := GetCluster name s in (s, match got with Ok _ => None | Err e => Some e end);
  rc_Create name u := with_accessor name (Some "no client") (fun c => acc_Create c u);
  rc_Update name u := with_accessor name (Some "no client") (fun c => acc_Update c u);
  rc_Delete name u := with_accessor name (Some "no client") (fun c => acc_Delete c u);
  rc_Get name v k ns n := with_accessor name (Err "no client") (fun c => acc_Get c v k ns n);
|}.
End manager.

(** ** Properties *)

Section properties.
Context `{K : Kubernetes, Er : ApiErrors, HH : !ClusterHub, N : !Network}.
Implicit Types (m : ClientManager) (s : manager_state) (name : string).

(** Every cached accessor has its cancel function, every cancel function its running
    accessor, and no other accessor runs. *)
Record manager_inv m : Prop := {
  inv_cached : forall name, is_Some (cm_clusters m !! name) <-> is_Some (cm_cancels m !! name);
  inv_running : forall i name, cm_running m !! i = Some name <-> cm_cancels m !! name = Some i;
  inv_next : forall i name, cm_running m !! i = Some name -> (i < cm_next m)%nat;
}.

Lemma NewClientManager_inv ns : manager_inv (NewClientManager ns).
Proof. split; simpl; intros *; rewrite ?lookup_empty; done. Qed.

Lemma RemoveClient_inv m name : manager_inv m -> manager_inv (RemoveClient m name).
Proof.
  intros [Hc Hr Hn]. unfold RemoveClient. destruct (cm_cancels m !! name) as [i|] eqn:E; split; simpl.
  - intros x. destruct (decide (name = x)) as [->|Hx]; [by rewrite !lookup_delete_eq|by rewrite !lookup_delete_ne].
  - intros j x. rewrite !lookup_delete_Some, Hr. split; intros [H1 H2]; (split; [|done]); intros ->.
    + apply H1. congruence.
    + apply Hr in H2. apply Hr in E. apply H1. congruence.
  - intros j x [_ Hj]%lookup_delete_Some. by apply (Hn j x).
  - intros x. destruct (decide (name = x)) as [->|Hx]; [by rewrite !lookup_delete_eq|by rewrite !lookup_delete_ne].
  - intros j x. rewrite lookup_delete_Some, Hr. split; [intros Hx; split; [congruence|done]|by intros [_ ?]].
  - done.
Qed.

Lemma GetCluster_inv s name s' x : GetCluster name s = (s', x) -> manager_inv (ms_manager s) -> manager_inv (ms_manager s').
Proof.
  unfold GetCluster. intros H Hi. destruct (cm_clusters (ms_manager s) !! name) eqn:Ec; [by injection H as <- _|].
  destruct (ch_Get name (ms_hub s)) as [h [cluster|e]]; [|by injection H as <- _].
  destruct (build_config _ cluster _ h) as [h2 [cfg|e]]; [|by injection H as <- _].
  destruct (cluster_New cfg (ms_net s)) as [n [c|e]]; [|by injection H as <- _]. injection H as <- _. simpl.
  destruct Hi as [Hc Hr Hn]. assert (cm_cancels (ms_manager s) !! name = None) as Enone.
  { apply eq_None_not_Some. rewrite <- Hc, Ec. by intros [? ?]. }
  split; simpl.
  - intros y. destruct (decide (name = y)) as [->|Hy]; [by rewrite !lookup_insert_eq|by rewrite !lookup_insert_ne].
  - intros i y. destruct (decide (cm_next (ms_manager s) = i)) as [<-|Hne].
    + rewrite lookup_insert_eq. destruct (decide (name = y)) as [->|Hy]; [by rewrite lookup_insert_eq|].
      rewrite lookup_insert_ne by done. split; [by intros [= ->]|]. intros Hx%Hr%Hn. lia.
    + rewrite lookup_insert_ne, Hr by done. destruct (decide (name = y)) as [->|Hy].
      * rewrite lookup_insert_eq, Enone. split; [done|]. intros [= E]. done.
      * by rewrite lookup_insert_ne.
  - intros i y. destruct (decide (cm_next (ms_manager s) = i)) as [<-|Hne]; [lia|].
    rewrite lookup_insert_ne by done. intros Hx%Hn. lia.
Qed.

(** The manager, between whatever changes the hub and the network. *)
Inductive manager_step : manager_state -> manager_state -> Prop :=
| step_get name s s' x : GetCluster name s = (s', x) -> manager_step s s'
| step_remove name m h n : manager_step (mkManagerState m h n) (mkManagerState (RemoveClient m name) h n)
| step_others m h n h' n' : manager_step (mkManagerState m h n) (mkManagerState m h' n').

(** C22: no accessor is leaked: whatever the calls and whatever happens on the hub and in
    the network, the accessors that run are exactly those in the cache, one for each
    cluster. *)
Theorem no_accessor_is_leaked ns h n s :
  rtc manager_step (mkManagerState (NewClientManager ns) h n) s ->
  (forall name, is_Some (cm_clusters (ms_manager s) !! name) <-> exists i, cm_running (ms_manager s) !! i = Some name) /\
  (forall i j name, cm_running (ms_manager s) !! i = Some name -> cm_running (ms_manager s) !! j = Some name -> i = j).
Proof.
  intros Hr. assert (manager_inv (ms_manager s)) as [Hc Hrun Hn].
  { remember (mkManagerState (NewClientManager ns) h n) as s0 eqn:E0.
    assert (manager_inv (ms_manager s0)) as H0 by (rewrite E0; apply NewClientManager_inv). clear E0.
    induction Hr as [s|s s1 s2 Hs _ IH]; [done|]. apply IH.
    inversion Hs; subst; simpl in *; [by eapply GetCluster_inv|by apply RemoveClient_inv|done]. }
  split.
  - intros name. rewrite Hc. split; intros [i Hi]; exists i; by apply Hrun.
  - intros i j name H1%Hrun H2%Hrun. congruence.
Qed.

(** ** Credentials *)

(** The credentials of a cluster are those of its Secret. *)
Lemma loadCredentials_parts m name host tunnel h h' secret :
  ch_GetSecret (cm_Namespace m) name h = (h', Ok secret) ->
  exists cfg, loadCredentials m name (plain_config host tunnel) h = (h', Ok cfg) /\
    cfg_Host cfg = host /\ cfg_Tunnel cfg = tunnel /\
    cfg_CAData cfg = secret_value (sec_Data secret) "caData" /\ cfg_CertData cfg = secret_value (sec_Data secret) "certData" /\
    cfg_KeyData cfg = secret_value (sec_Data secret) "keyData" /\ cfg_BearerToken cfg = secret_value (sec_Data secret) "token" /\
    (cfg_Insecure cfg = false <-> cfg_CAData cfg ≠ "" /\ (cfg_BearerToken cfg ≠ "" \/ cfg_CertData cfg ≠ "")).
Proof.
  intros Hs. unfold loadCredentials. rewrite Hs. eexists. split; [done|]. cbn.
  set (ca := secret_value _ "caData"). set (cert := secret_value _ "certData").
  set (key := secret_value _ "keyData"). set (token := secret_value _ "token").
  destruct (String.eqb_spec ca "") as [->|Hca], (String.eqb_spec cert "") as [->|Hcert],
    (String.eqb_spec key "") as [->|Hkey], (String.eqb_spec token "") as [->|Htoken]; cbn;
    rewrite ?(proj2 (String.eqb_neq _ _) Htoken), ?(proj2 (String.eqb_neq _ _) Hcert); cbn; split_and!; naive_solver.
Qed.

(** The credentials of a cluster are those of its Secret; the server is verified
    exactly when there are a CA and a way to authenticate; so a Secret with a CA but
    neither a token nor a certificate gives a configuration that has a CA and is
    insecure at once, which the client library refuses. *)
Theorem loadCredentials_spec m name host tunnel h h' secret :
  ch_GetSecret (cm_Namespace m) name h = (h', Ok secret) ->
  exists cfg, loadCredentials m name (plain_config host tunnel) h = (h', Ok cfg) /\
    cfg_CAData cfg = secret_value (sec_Data secret) "caData" /\ cfg_BearerToken cfg = secret_value (sec_Data secret) "token" /\
    (cfg_Insecure cfg = false <-> cfg_CAData cfg ≠ "" /\ (cfg_BearerToken cfg ≠ "" \/ cfg_CertData cfg ≠ "")) /\
    (cfg_CAData cfg ≠ "" -> cfg_BearerToken cfg = "" -> cfg_CertData cfg = "" -> cfg_Insecure cfg = true).
Proof.
  intros Hs. destruct (loadCredentials_parts m name host tunnel _ _ _ Hs) as (cfg & Hl & _ & _ & Hca & _ & _ & Ht & Hi).
  exists cfg. split_and!; [done..|]. intros H1 H2 H3. destruct (cfg_Insecure cfg); [done|].
  destruct (proj1 Hi eq_refl) as [_ [?|?]]; done.
Qed.

(** A cluster without a connection mode is reached through the tunnel. *)
Lemma empty_mode_uses_tunnel m cluster n h cfg h' : ConnectionMode (mc_Access cluster) = "" ->
  build_config m cluster n h = (h', Ok cfg) -> cfg_Tunnel cfg = true /\ HasSession (mc_Name cluster) n = true.
Proof.
  intros Hm. unfold build_config. rewrite Hm. simpl. unfold buildEdgeModeConfig.
  destruct (HasSession (mc_Name cluster) n); [|done]. simpl. intros Hb. split; [|done].
  destruct (SecretRef (mc_Access cluster)) as [name|]; [|by injection Hb as _ <-].
  unfold loadCredentials in Hb. destruct (ch_GetSecret _ name h) as [h1 [secret|e]]; [|done].
  injection Hb as _ <-. by destruct (_ && _).
Qed.
End properties.

(** ** A missing Secret and a missing cluster *)

Section missing_secret.
Context `{K : Kubernetes, Er : ApiErrors, !ApiErrorsLaws Er, HH : !ClusterHub, N : !Network}.
Context `{G : GoRuntime, U : Unstructured, C : !Conversions, O : ObjectHelpers, A : !ApiClient, HW : !HubWriter A,
          CW : !ClusterWriter manager_clients}.
Implicit Types (s : manager_state).

(** The cluster exists, in the hub's mode, and the Secret it names does not. *)
Definition secret_missing (name : string) s : Prop :=
  cm_clusters (ms_manager s) !! name = None /\
  exists h1 h2 cluster e, ch_Get name (ms_hub s) = (h1, Ok cluster) /\
    ConnectionMode (mc_Access cluster) = ClusterConnectionModeHub /\ APIServer (mc_Access cluster) ≠ LocalAPIServer /\
    secret_name cluster ≠ "" /\ ch_GetSecret (cm_Namespace (ms_manager s)) (secret_name cluster) h1 = (h2, Err e) /\
    IsNotFound e = true.

Lemma missing_secret_error name s : secret_missing name s -> exists h e,
  GetClient name s = (mkManagerState (ms_manager s) h (ms_net s), Some e) /\ cluster_gone e = true.
Proof.
  intros (Hc & h1 & h2 & cluster & e & Hg & Hm & Ha & Hn & Hs & He). cbn [GetClient manager_clients].
  unfold GetCluster. rewrite Hc, Hg. unfold build_config. rewrite Hm. simpl. unfold buildHubModeConfig.
  rewrite (proj2 (String.eqb_neq _ _) Ha), (proj2 (String.eqb_neq _ _) Hn). unfold loadCredentials. rewrite Hs.
  eexists _, _. split; [done|]. unfold cluster_gone.
  set (text := "failed to get secret " +:+ secret_name cluster +:+ ": " +:+ e).
  assert (text = ("failed to get secret " +:+ secret_name cluster +:+ ": ") +:+ e) as ->.
  { unfold text. by rewrite !str_app_assoc. }
  by rewrite IsNotFound_wrap.
Qed.

(** A missing Secret passes for a missing cluster: a deleted application that runs on
    a cluster whose Secret cannot be found is released, and nothing is deleted on
    the cluster. *)
Theorem missing_secret_orphans_workload (app : Application) name (w : @world K Er A manager_clients) :
  AppliedClusters (Status app) = [name] -> secret_missing name (w_fleet w) ->
  exists w' x, reconcileDelete app w = Ret (w', x) /\ ms_net (w_fleet w') = ms_net (w_fleet w) /\
    w_hub w' = (api_Update (remove_finalizer app) (w_hub w)).1.
Proof.
  intros Hap Hm. destruct (missing_secret_error _ _ Hm) as (h & e & Hg & He).
  unfold reconcileDelete. rewrite Hap. cbn [delete_loop].
  pose proof (call_fleet (GetClient name) w _ _ Hg) as C1.
  unfold mbind, action_bind. rewrite C1, He. cbn. unfold check, on_hub. cbn.
  destruct (api_Update (remove_finalizer app) (w_hub w)) as [h' err]. by eexists _, _.
Qed.
End missing_secret.

(** ** The properties at a concrete hub *)

Record hub_objects := mkHubObjects { ho_clusters : gmap string (@ManagedCluster sample_kubernetes); ho_secrets : gmap string Secret }.

(** A merge patch: the fields of the status that differ. *)
Definition merge_state (base c x : @ManagedCluster sample_kubernetes) : @ManagedCluster sample_kubernetes :=
  let field (f : ClusterCondition -> string) :=
    if String.eqb (f (mc_State base)) (f (mc_State c)) then f (mc_State x) else f (mc_State c) in
  mkCluster (mc_Name x) (mc_Labels x) (mc_Deleting x) (mc_Taints x) (mc_ResourceSummary x) (mc_Conditions x) (mc_Access x)
    (mkClusterState (field State) (field ID) (field APIServerURL) (LastKeepAliveTime (mc_State x)) (mc_AddonStatus (mc_State x)) (mc_NodeSummary (mc_State x))).

#[export] Instance sample_chub : @ClusterHub sample_kubernetes sample_errors := {|
  chub := hub_objects;
  ch_Get name h := (h, match ho_clusters h !! name with Some c => Ok c | None => Err "not found" end);
  ch_List h := (h, Ok (map_to_list (ho_clusters h)).*2);
  ch_Update c h := (mkHubObjects (<[mc_Name c := c]> (ho_clusters h)) (ho_secrets h), None);
  ch_StatusPatch base c h := (mkHubObjects (alter (merge_state base c) (mc_Name c) (ho_clusters h)) (ho_secrets h), Ok c);
  ch_Delete name h := (mkHubObjects (delete name (ho_clusters h)) (ho_secrets h), None);
  ch_GetSecret ns name h := (h, match ho_secrets h !! name with Some s => Ok s | None => Err "secret not found" end);
  ch_CreateOrUpdateSecret ns name f h :=
    (mkHubObjects (ho_clusters h) (<[name := f (default (mkSecret ∅ ∅) (ho_secrets h !! name))]> (ho_secrets h)), None);
  new_uuid h := (h, "uuid");
|}.

(** The names of the clusters with a tunnel; every object is there. *)
#[export] Instance sample_network : @Network sample_kubernetes sample_errors := {|
  net := list string;
  HasSession name n := bool_decide (name ∈ n);
  inClusterConfig := Ok (plain_config "local" false);
  accessor := RestConfig;
  cluster_New cfg n := (n, Ok cfg);
  acc_Create c u n := (n, None);
  acc_Update c u n := (n, None);
  acc_Delete c u n := (n, None);
  acc_Get c v k ns name n := (n, Ok (obj []));
|}.

#[export] Instance sample_manager_writer : @ClusterWriter sample_kubernetes sample_errors manager_clients := {|
  rc_Apply name u s := (s, None);
  rc_CreateOrUpdate name pdb f s := (s, None);
  is_hub_client name := false;
  SetControllerReference app u := Ok u;
|}.

Definition reached_by (mode server : string) (secret : option string) : ManagedCluster :=
  mkCluster "a" ∅ false [] [] [] (mkAccess ∅ mode server secret []) no_state.
Definition hub_with (cluster : ManagedCluster) : @chub _ _ sample_chub := mkHubObjects {[ "a" := cluster ]} ∅.
Definition no_tunnels : @net _ _ sample_network := [].
Definition tunnel_a : @net _ _ sample_network := ["a"].
Definition token_secret : Secret := mkSecret ∅ {[ "caData" := "ca"; "token" := "t" ]}.

Definition secrets_only : @chub _ _ sample_chub := mkHubObjects ∅ {[ "s" := token_secret ]}.
Definition no_objects : @chub _ _ sample_chub := mkHubObjects ∅ ∅.

Lemma no_accessor_is_leaked_witness : exists s, 
  rtc manager_step (mkManagerState (NewClientManager "ns") (hub_with (reached_by "Edge" "" None)) tunnel_a) s /\
  exists i, cm_running (ms_manager s) !! i = Some "a".
Proof.
  destruct (GetCluster "a" (mkManagerState (NewClientManager "ns") (hub_with (reached_by "Edge" "" None)) tunnel_a)) as [s x] eqn:E.
  exists s. assert (rtc manager_step (mkManagerState (NewClientManager "ns") (hub_with (reached_by "Edge" "" None)) tunnel_a) s) as Hr.
  { apply rtc_once. exact (step_get _ _ _ _ E). }
  split; [exact Hr|]. apply (proj1 (no_accessor_is_leaked "ns" _ _ _ Hr)). apply (f_equal fst) in E. cbn [fst] in E. rewrite <- E.
  exists (with_insecure (plain_config DefaultAPIServerURL true)). reflexivity.
Defined.

Lemma loadCredentials_spec_witness : exists cfg,
  loadCredentials (NewClientManager "ns") "s" (plain_config "h" true) secrets_only =
    (secrets_only, Ok cfg) /\ cfg_CAData cfg = "ca" /\ cfg_BearerToken cfg = "t".
Proof.
  destruct (loadCredentials_spec (NewClientManager "ns") "s" "h" true secrets_only
    secrets_only token_secret eq_refl) as (cfg & Hl & Hca & Ht & _).
  exists cfg. split; [exact Hl|]. split; [rewrite Hca; reflexivity|rewrite Ht; reflexivity].
Defined.

Definition secretless : @remote _ manager_clients :=
  mkManagerState (NewClientManager "ns") (hub_with (reached_by "Hub" "https://a" (Some "s"))) no_tunnels.

Definition on_a : Application := managed_app "Deployment" [] [mkTopology "a" 4] ["a"] [].

Lemma missing_secret_orphans_workload_witness : exists w' x,
  reconcileDelete on_a (mkWorld (hub_of on_a) secretless) = Ret (w', x) /\ w_hub w' = hub_of (remove_finalizer on_a).
Proof.
  destruct (missing_secret_orphans_workload on_a "a" (mkWorld (hub_of on_a) secretless) eq_refl) as (w' & x & Hr & _ & Hh).
  - split; [reflexivity|]. eexists _, _, (reached_by "Hub" "https://a" (Some "s")), _.
    split; [reflexivity|]. split; [reflexivity|]. split; [discriminate|]. split; [discriminate|]. split; reflexivity.
  - exists w', x. split; [exact Hr|]. rewrite Hh. reflexivity.
Defined.
