(* ===== verification/GoStrings.v ===== *)
(** * Functions of the package strings

    HasPrefix, TrimPrefix, Split at a character and SplitN with two parts, with what the
    code relies on.  [strings.Contains] is [str_contains] of the prelude. *)

From S2P Require Import Prelude.
From Stdlib Require Import Ascii.

#[local] Arguments Ascii.eqb : simpl never.

(** What follows a prefix. *)
Fixpoint strip (p s : string) : option string :=
  match p, s with
  | "", _ => Some s
  | String c p, String d s => if Ascii.eqb c d then strip p s else None
  | String _ _, "" => None
  end.
Definition HasPrefix (s p : string) : bool := match strip p s with Some _ => true | None => false end.
Definition TrimPrefix (s p : string) : string := default s (strip p s).

(** [strings.Split(s, sep)] for a [sep] of one character. *)
Fixpoint Split (sep : ascii) (s : string) : list string :=
  match s with
  | "" => [""]
  | String c s =>
      if Ascii.eqb c sep then "" :: Split sep s
      else match Split sep s with [] => [String c ""] | x :: l => String c x :: l end
  end.
(** [strings.SplitN(s, sep, 2)]: the part before the first separator, and the rest. *)
Fixpoint Cut (sep : ascii) (s : string) : string * option string :=
  match s with
  | "" => ("", None)
  | String c s => if Ascii.eqb c sep then ("", Some s) else let '(a, b) := Cut sep s in (String c a, b)
  end.

Fixpoint free_of (sep : ascii) (s : string) : bool :=
  match s with "" => true | String c s => negb (Ascii.eqb c sep) && free_of sep s end.

Lemma strip_app p s : strip p (p +:+ s) = Some s.
Proof. induction p as [|c p IH]; [done|]. simpl. by rewrite Ascii.eqb_refl. Qed.
Lemma strip_Some p s t : strip p s = Some t <-> s = p +:+ t.
Proof.
  split; [|intros ->; apply strip_app]. revert s; induction p as [|c p IH]; intros s; simpl; [by intros [= ->]|].
  destruct s as [|d s]; [done|]. destruct (Ascii.eqb c d) eqn:E; [|done]. apply Ascii.eqb_eq in E as ->. by intros ->%IH.
Qed.
Lemma HasPrefix_iff s p : HasPrefix s p = true <-> exists t, s = p +:+ t.
Proof.
  unfold HasPrefix. destruct (strip p s) as [t|] eqn:E.
  - split; [|done]. intros _. exists t. by apply strip_Some.
  - split; [done|]. intros [t Ht]. apply strip_Some in Ht. congruence.
Qed.
Lemma TrimPrefix_app p s : TrimPrefix (p +:+ s) p = s.
Proof. unfold TrimPrefix. by rewrite strip_app. Qed.
Lemma TrimPrefix_none p s : HasPrefix s p = false -> TrimPrefix s p = s.
Proof. unfold HasPrefix, TrimPrefix. by destruct (strip p s). Qed.

Lemma Split_nonempty sep s : Split sep s <> [].
Proof. destruct s as [|c s]; cbn; [done|]. destruct (Ascii.eqb c sep); [done|]. by destruct (Split sep s). Qed.
Lemma Split_free sep s : free_of sep s = true -> Split sep s = [s].
Proof.
  induction s as [|c s IH]; [done|]. simpl. intros [Hc Hs]%andb_prop. apply negb_true_iff in Hc. by rewrite Hc, IH.
Qed.
Lemma Split_app sep a s : free_of sep a = true -> Split sep (a +:+ String sep s) = a :: Split sep s.
Proof.
  induction a as [|c a IH]; simpl; [by rewrite Ascii.eqb_refl|]. intros [Hc Ha]%andb_prop. apply negb_true_iff in Hc. by rewrite Hc, IH.
Qed.
Lemma Split_cons sep s a l : Split sep s = a :: l ->
  free_of sep a = true /\ match l with [] => s = a | _ => exists t, s = a +:+ String sep t /\ Split sep t = l end.
Proof.
  revert a l; induction s as [|c s IH]; intros a l; simpl; [by intros [= <- <-]|]. destruct (Ascii.eqb c sep) eqn:Ec.
  - intros [= <- <-]. apply Ascii.eqb_eq in Ec as ->. split; [done|]. destruct (Split sep s) eqn:E; [by apply Split_nonempty in E|]. by exists s.
  - destruct (Split sep s) as [|x k] eqn:E; [by apply Split_nonempty in E|]. intros [= <- <-]. destruct (IH x k eq_refl) as [Hf Hk]. split.
    + simpl. by rewrite Ec, Hf.
    + destruct k; [by rewrite Hk|]. destruct Hk as (t & -> & Ht). by exists t.
Qed.
(** Two parts and no more. *)
Lemma Split_two sep s a b : Split sep s = [a; b] <-> s = a +:+ String sep b /\ free_of sep a = true /\ free_of sep b = true.
Proof.
  split.
  - intros [Ha (t & -> & Ht)]%Split_cons. apply Split_cons in Ht as [Hb ->]. done.
  - intros (-> & Ha & Hb). rewrite Split_app by done. by rewrite Split_free.
Qed.

Lemma Cut_free sep s : free_of sep s = true -> Cut sep s = (s, None).
Proof.
  induction s as [|c s IH]; [done|]. simpl. intros [Hc Hs]%andb_prop. apply negb_true_iff in Hc. by rewrite Hc, IH.
Qed.
Lemma Cut_app sep a s : free_of sep a = true -> Cut sep (a +:+ String sep s) = (a, Some s).
Proof.
  induction a as [|c a IH]; simpl; [by rewrite Ascii.eqb_refl|]. intros [Hc Ha]%andb_prop. apply negb_true_iff in Hc. by rewrite Hc, IH.
Qed.

Lemma str_app_nil s : s +:+ "" = s.
Proof. induction s as [|c s IH]; [done|]. exact (f_equal (String c) IH). Qed.
Lemma free_of_app c a b : free_of c (a +:+ b) = free_of c a && free_of c b.
Proof. induction a as [|d a IH]; [done|]. simpl. by rewrite IH, andb_assoc. Qed.

(** ** encoding/base64

    [StdEncoding] of the Go standard library: [EncodeToString] and [DecodeString], on
    strings of bytes.  Decoding skips line breaks and asks for the padding. *)

Definition byte_of (c : ascii) : Z := Z.of_N (N_of_ascii c).
Definition byte (z : Z) : ascii := ascii_of_N (Z.to_N z).

Definition alphabet : list ascii :=
  String.list_ascii_of_string "ABCDEFGHIJKLMNOPQRSTUVWXYZabcdefghijklmnopqrstuvwxyz0123456789+/".

Definition b64_char (v : Z) : ascii := nth (Z.to_nat v) alphabet "="%char.
Definition b64_val (c : ascii) : option Z :=
  match list_find (fun a => a = c) alphabet with Some (i, _) => Some (Z.of_nat i) | None => None end.
Definition pad : ascii := "="%char.

(** Three bytes give four characters. *)
Fixpoint encode (l : list ascii) : list ascii :=
  match l with
  | [] => []
  | [a] => let a := byte_of a in [b64_char (a / 4); b64_char (a mod 4 * 16); pad; pad]
  | [a; b] =>
      let a := byte_of a in let b := byte_of b in
      [b64_char (a / 4); b64_char (a mod 4 * 16 + b / 16); b64_char (b mod 16 * 4); pad]
  | a :: b :: c :: rest =>
      let a := byte_of a in let b := byte_of b in let c := byte_of c in
      b64_char (a / 4) :: b64_char (a mod 4 * 16 + b / 16) :: b64_char (b mod 16 * 4 + c / 64) :: b64_char (c mod 64) ::
      encode rest
  end.

(** Four characters, the last one or two of the last four may be padding. *)
Fixpoint decode (l : list ascii) : option (list ascii) :=
  match l with
  | [] => Some []
  | w :: x :: y :: z :: rest =>
      w ← b64_val w; x ← b64_val x;
      if ascii_dec y pad then
        (if ascii_dec z pad then match rest with [] => Some [byte (w * 4 + x / 16)] | _ => None end else None)
      else
        y ← b64_val y;
        if ascii_dec z pad then
          match rest with [] => Some [byte (w * 4 + x / 16); byte (x mod 16 * 16 + y / 4)] | _ => None end
        else
          z ← b64_val z;
          bytes ← decode rest;
          Some (byte (w * 4 + x / 16) :: byte (x mod 16 * 16 + y / 4) :: byte (y mod 4 * 64 + z) :: bytes)
  | _ => None
  end.

Definition line_break (c : ascii) : bool := Ascii.eqb c "010"%char || Ascii.eqb c "013"%char.

Definition EncodeToString (s : string) : string :=
  String.string_of_list_ascii (encode (String.list_ascii_of_string s)).
Definition DecodeString (s : string) : res string :=
  match decode (List.filter (fun c => negb (line_break c)) (String.list_ascii_of_string s)) with
  | Some l => Ok (String.string_of_list_ascii l)
  | None => Err "illegal base64 data"
  end.

Example encode_kumquat : EncodeToString "kumquat" = "a3VtcXVhdA==".
Proof. vm_compute. reflexivity. Qed.
Example decode_kumquat : DecodeString "a3VtcXVhdA==" = Ok "kumquat" /\ DecodeString "a3Vt=" = Err "illegal base64 data".
Proof. split; vm_compute; reflexivity. Qed.

(** ** Round trip *)

Lemma byte_range c : 0 <= byte_of c < 256.
Proof. unfold byte_of. pose proof (N_ascii_bounded c). lia. Qed.

Lemma byte_byte_of c : byte (byte_of c) = c.
Proof. unfold byte, byte_of. rewrite N2Z.id. apply ascii_N_embedding. Qed.

(** The alphabet by computation. *)
Lemma alphabet_check : forallb (fun n => let v := Z.of_nat n in
  match b64_val (b64_char v) with Some u => u =? v | None => false end &&
  negb (Ascii.eqb (b64_char v) pad) && negb (line_break (b64_char v))) (seq 0 64) = true.
Proof. vm_compute. reflexivity. Qed.

Lemma alphabet_spec v : 0 <= v < 64 ->
  b64_val (b64_char v) = Some v /\ b64_char v ≠ pad /\ line_break (b64_char v) = false.
Proof.
  intros Hv. pose proof alphabet_check as Hc. rewrite forallb_forall in Hc.
  assert (In (Z.to_nat v) (seq 0 64)) as Hi by (apply in_seq; lia).
  specialize (Hc _ Hi). cbv zeta in Hc. rewrite Z2Nat.id in Hc by lia.
  apply andb_true_iff in Hc as [[H1 H2]%andb_true_iff H3]. destruct (b64_val (b64_char v)) as [u|]; [|done].
  apply Z.eqb_eq in H1 as ->. split; [done|]. split; [|by destruct (line_break _)].
  intros E. by rewrite E in H2.
Qed.

(** Induction by three. *)
Lemma list_ind3 (P : list ascii -> Prop) : P [] -> (forall a, P [a]) -> (forall a b, P [a; b]) ->
  (forall a b c l, P l -> P (a :: b :: c :: l)) -> forall l, P l.
Proof.
  intros H0 H1 H2 H3. fix IH 1. intros [|a [|b [|c l]]]; [exact H0|apply H1|apply H2|apply H3, IH].
Qed.

(** Splits a goal about sextets into the bounds [alphabet_spec] asks for. *)
Ltac sextet v := let H := fresh in
  assert (0 <= v < 64) as H by (Z.to_euclidean_division_equations; lia);
  destruct (alphabet_spec v H) as (?Hval & ?Hpad & ?Hlb); clear H.

Lemma encode_no_breaks l : List.filter (fun c => negb (line_break c)) (encode l) = encode l.
Proof.
  induction l as [|a|a b|a b c l IH] using list_ind3; [done| | |]; pose proof (byte_range a).
  - cbn [encode List.filter]. sextet (byte_of a / 4). sextet (byte_of a mod 4 * 16). by rewrite Hlb, Hlb0.
  - pose proof (byte_range b). cbn [encode List.filter]. sextet (byte_of a / 4).
    sextet (byte_of a mod 4 * 16 + byte_of b / 16). sextet (byte_of b mod 16 * 4). by rewrite Hlb, Hlb0, Hlb1.
  - pose proof (byte_range b). pose proof (byte_range c). cbn [encode List.filter]. sextet (byte_of a / 4).
    sextet (byte_of a mod 4 * 16 + byte_of b / 16). sextet (byte_of b mod 16 * 4 + byte_of c / 64).
    sextet (byte_of c mod 64). rewrite Hlb, Hlb0, Hlb1, Hlb2. cbn [negb]. by rewrite IH.
Qed.

(** The bytes again from their sextets. *)
Lemma sextets_back a b c : 0 <= a < 256 -> 0 <= b < 256 -> 0 <= c < 256 ->
  a / 4 * 4 + (a mod 4 * 16 + b / 16) / 16 = a /\
  (a mod 4 * 16 + b / 16) mod 16 * 16 + (b mod 16 * 4 + c / 64) / 4 = b /\
  (b mod 16 * 4 + c / 64) mod 4 * 64 + c mod 64 = c.
Proof. intros. Z.to_euclidean_division_equations. lia. Qed.

Lemma decode_encode l : decode (encode l) = Some l.
Proof.
  induction l as [|a|a b|a b c l IH] using list_ind3; [done| | |]; pose proof (byte_range a) as Ha.
  - cbn [encode decode]. sextet (byte_of a / 4). sextet (byte_of a mod 4 * 16). rewrite Hval, Hval0. cbn.
    destruct (sextets_back (byte_of a) 0 0) as (E & _); [lia..|]. change (0 / 16) with 0 in E. rewrite Z.add_0_r in E.
    by rewrite E, byte_byte_of.
  - pose proof (byte_range b) as Hb. cbn [encode decode]. sextet (byte_of a / 4).
    sextet (byte_of a mod 4 * 16 + byte_of b / 16). sextet (byte_of b mod 16 * 4). rewrite Hval, Hval0. cbn [mbind option_bind].
    destruct (ascii_dec (b64_char (byte_of b mod 16 * 4)) pad); [done|]. rewrite Hval1. cbn.
    destruct (sextets_back (byte_of a) (byte_of b) 0) as (E1 & E2 & _); [lia..|]. change (0 / 64) with 0 in E2.
    rewrite Z.add_0_r in E2. by rewrite E1, E2, !byte_byte_of.
  - pose proof (byte_range b) as Hb. pose proof (byte_range c) as Hc. cbn [encode decode]. sextet (byte_of a / 4).
    sextet (byte_of a mod 4 * 16 + byte_of b / 16). sextet (byte_of b mod 16 * 4 + byte_of c / 64).
    sextet (byte_of c mod 64). rewrite Hval, Hval0. cbn [mbind option_bind].
    destruct (ascii_dec (b64_char (byte_of b mod 16 * 4 + byte_of c / 64)) pad); [done|]. rewrite Hval1. cbn [mbind option_bind].
    destruct (ascii_dec (b64_char (byte_of c mod 64)) pad); [done|]. rewrite Hval2, IH. cbn [mbind option_bind].
    destruct (sextets_back (byte_of a) (byte_of b) (byte_of c)) as (E1 & E2 & E3); [lia..|].
    by rewrite E1, E2, E3, !byte_byte_of.
Qed.

(** Decoding what was encoded gives it back. *)
Lemma DecodeString_EncodeToString s : DecodeString (EncodeToString s) = Ok s.
Proof.
  unfold DecodeString, EncodeToString. rewrite String.list_ascii_of_string_of_list_ascii, encode_no_breaks, decode_encode.
  by rewrite String.string_of_list_ascii_of_string.
Qed.
