(* ===== verification/StatusWatch.v ===== *)
(** * The watches of the status controller

    application/status_controller.go: [ensureWatch] has every workload of the clusters of
    a shard watched once, through the informers of the accessors that
    [ClientManager] keeps; an event of a workload wakes the application it belongs to.
    [Reconcile] is [StatusReconcile] of [StatusController] behind these watches. *)

From S2P Require Import Prelude GoRuntime Json Api Clients Manifest Sharding StatusController ClientManager GoStrings.
From Stdlib Require Import Ascii.

(** The informers of the accessors, the controller that watches, and the applications of
    a namespace with an identity on the hub. *)
Class WatchRuntime `{Kubernetes, ApiErrors, !ClusterHub, !Network} := {
  GetInformer : accessor -> string -> string -> net -> net * option string;          (* apiVersion, kind: the error, if any *)
  ctrl_Watch : string -> net -> net * option string;
  ListApplications : string -> string -> chub -> chub * res (list string);           (* namespace, identity: the names *)
}.

Section watch.
Context `{GoRuntime, Kubernetes, Unstructured, ApiErrors, !ClusterHub, !Network, !WatchRuntime}.
Implicit Types (workload : WorkloadGVK).

(** [watchedClusters], and the sources the controller has: the start of the accessor
    whose informer they use, and the key. *)
Record watch_state := mkWatchState { ws_manager : manager_state; watchedClusters : gset string; ws_sources : list (nat * string) }.
Definition with_manager (m : manager_state) (s : watch_state) : watch_state := mkWatchState m (watchedClusters s) (ws_sources s).
Definition with_net (n : net) (m : manager_state) : manager_state := mkManagerState (ms_manager m) (ms_hub m) n.

Definition watch_key (clusterName : string) workload : string :=
  clusterName +:+ "/" +:+ APIVersion workload +:+ "/" +:+ Kind workload.
Definition start_of (clusterName : string) (m : manager_state) : nat := default 0%nat (cm_cancels (ms_manager m) !! clusterName).

(** The error, if any. *)
Definition ensureWatch (clusterName : string) workload (s : watch_state) : watch_state * option string :=
  let key := watch_key clusterName workload in
  if decide (key ∈ watchedClusters s) then (s, None) else
  let '(m, got) := GetCluster clusterName (ws_manager s) in
  match got with
  | Err e => (with_manager m s, Some e)
  | Ok c =>
      let '(n, err) := GetInformer c (APIVersion workload) (Kind workload) (ms_net m) in
      match err with
      | Some e => (with_manager (with_net n m) s, Some e)
      | None =>
          let '(n, err) := ctrl_Watch key n in
          match err with
          | Some e => (with_manager (with_net n m) s, Some e)
          | None => (mkWatchState (with_net n m) ({[key]} ∪ watchedClusters s) (ws_sources s ++ [(start_of clusterName m, key)]), None)
          end
      end
  end.

(** The requests for an event of an object. *)
Definition map_event (namespace : string) (objectLabels : gmap string string) (h : chub) : chub * list (string * string) :=
  let appID := get_str objectLabels ApplicationIDKey in
  if String.eqb appID "" then (h, []) else
  let '(h, got) := ListApplications namespace appID h in
  (h, match got with Ok [name] => [(namespace, name)] | _ => [] end).

Definition isTunnelNotConnected (err : option string) : bool :=
  match err with Some e => str_contains e "not connected via tunnel" | None => false end.

(** Whether a cluster was not connected. *)
Fixpoint ensure_watches (shard : ShardManager) workload (applied : list string) (s : watch_state) : watch_state * bool :=
  match applied with
  | [] => (s, false)
  | clusterName :: applied =>
      if negb (IsResponsibleFor shard clusterName) then ensure_watches shard workload applied s else
      let '(s, err) := ensureWatch clusterName workload s in
      let '(s, failed) := ensure_watches shard workload applied s in
      (s, isTunnelNotConnected err || failed)
  end.

(** For the application as it has been read: what is patched, and whether it is
    asked for again after 30 seconds. *)
Definition Reconcile (shard : ShardManager) (deleting : bool) (app : Application) (s : watch_state)
    : watch_state * option (Application * bool) :=
  if deleting then (s, None) else
  match AppliedClusters (Status app) with
  | [] => (s, None)
  | applied =>
      let '(s, failed) := ensure_watches shard (Workload (Spec app)) applied s in
      let '(m, x) := StatusReconcile shard false failed (ws_manager s) app in
      (with_manager m s, x)
  end.
End watch.

(** ** What is watched, and what only seems to be *)

Section properties.
Context `{G : GoRuntime, K : Kubernetes, U : Unstructured, Er : ApiErrors, HH : !ClusterHub, N : !Network, WR : !WatchRuntime}.
Implicit Types (s : watch_state) (workload : WorkloadGVK) (name : string).

(** Names of clusters and kinds have no slash: the key tells them apart, also from
    the slash of an API version. *)
Lemma watch_key_inj name workload name' workload' :
  free_of "/"%char name = true -> free_of "/"%char name' = true ->
  watch_key name workload = watch_key name' workload' -> name = name'.
Proof.
  intros Hn Hn' E. unfold watch_key in E.
  assert (Cut "/"%char (name +:+ String "/"%char (APIVersion workload +:+ "/" +:+ Kind workload)) =
    Cut "/"%char (name' +:+ String "/"%char (APIVersion workload' +:+ "/" +:+ Kind workload'))) as Ec by (f_equal; exact E).
  rewrite !Cut_app in Ec by done. by injection Ec.
Qed.

(** An event of the workload reaches the controller: it has a source for the key,
    whose informer is one of an accessor that runs. *)
Definition live s name workload : Prop := exists i, (i, watch_key name workload) ∈ ws_sources s /\
  cm_running (ms_manager (ws_manager s)) !! i = Some name.

Lemma GetCluster_cached name m m' c : GetCluster name m = (m', Ok c) -> cm_clusters (ms_manager m') !! name = Some c.
Proof.
  unfold GetCluster. destruct (cm_clusters (ms_manager m) !! name) eqn:E; [by intros [= <- <-]|].
  destruct (ch_Get _ _) as [h [cluster|e]]; [|done]. destruct (build_config _ _ _ _) as [h2 [cfg|e]]; [|done].
  destruct (cluster_New _ _) as [n [a|e]]; [|done]. intros [= <- <-]. cbn. by rewrite lookup_insert_eq.
Qed.
(** A cluster's accessor is looked up or started; none is stopped. *)
Lemma GetCluster_running name m m' x i y : manager_inv (ms_manager m) -> GetCluster name m = (m', x) ->
  (cm_running (ms_manager m) !! i = Some y -> cm_running (ms_manager m') !! i = Some y) /\
  (cm_next (ms_manager m) <= cm_next (ms_manager m'))%nat /\
  (cm_running (ms_manager m') !! i = Some y -> cm_running (ms_manager m) !! i = Some y \/ (cm_next (ms_manager m) <= i)%nat).
Proof.
  intros [_ _ Hn]. unfold GetCluster. destruct (cm_clusters (ms_manager m) !! name); [intros [= <- _]; by split_and!; [|lia|left]|].
  destruct (ch_Get _ _) as [h [cluster|e]]; [|intros [= <- _]; by split_and!; [|simpl; lia|left]].
  destruct (build_config _ _ _ _) as [h2 [cfg|e]]; [|intros [= <- _]; by split_and!; [|simpl; lia|left]].
  destruct (cluster_New _ _) as [n [a|e]]; [|intros [= <- _]; by split_and!; [|simpl; lia|left]]. intros [= <- _]. simpl.
  split_and!; [|lia|].
  - intros Hi. apply Hn in Hi as Hlt. rewrite lookup_insert_ne; [done|lia].
  - intros [[<- _]|[_ Hi]]%lookup_insert_Some; [by right|by left].
Qed.

Lemma start_of_running name m m' c : manager_inv (ms_manager m') -> GetCluster name m = (m', Ok c) ->
  cm_running (ms_manager m') !! start_of name m' = Some name.
Proof.
  intros [Hc Hr _] Hg%GetCluster_cached. unfold start_of. destruct (proj1 (Hc name) (ex_intro _ c Hg)) as [i Hi]. rewrite Hi. by apply Hr.
Qed.

Definition remove_client (name : string) (m : manager_state) : manager_state :=
  mkManagerState (RemoveClient (ms_manager m) name) (ms_hub m) (ms_net m).
(** How the state goes on, with the cluster whose client is removed, if one is: by
    [ensureWatch], by what else the manager does, and by what happens outside. *)
Inductive status_step : option string -> watch_state -> watch_state -> Prop :=
| step_ensure name workload s s' x : free_of "/"%char name = true -> ensureWatch name workload s = (s', x) -> status_step None s s'
| step_client name m x s : GetCluster name (ws_manager s) = (m, x) -> status_step None s (with_manager m s)
| step_removal name s : status_step (Some name) s (with_manager (remove_client name (ws_manager s)) s)
| step_outside h n s : status_step None s (with_manager (mkManagerState (ms_manager (ws_manager s)) h n) s).
(** Steps of which none removes a client that [ok] does not allow. *)
Definition runs (ok : string -> Prop) : relation watch_state :=
  rtc (fun s s' => exists r, status_step r s s' /\ forall name, r = Some name -> ok name).

(** Sources stand for keys that are watched, and for accessors started so far. *)
Record watch_inv s : Prop := {
  inv_manager : manager_inv (ms_manager (ws_manager s));
  inv_source : forall i key, (i, key) ∈ ws_sources s -> key ∈ watchedClusters s /\ (i < cm_next (ms_manager (ws_manager s)))%nat;
}.

(** What a call to [ensureWatch] comes to. *)
Lemma ensureWatch_cases name workload s s' x : watch_inv s -> ensureWatch name workload s = (s', x) ->
  (watch_key name workload ∈ watchedClusters s /\ s' = s /\ x = None) \/
  exists m y, (watch_key name workload ∉ watchedClusters s) /\ GetCluster name (ws_manager s) = (m, y) /\
    ms_manager (ws_manager s') = ms_manager m /\ manager_inv (ms_manager m) /\
    ((x = None /\ cm_running (ms_manager m) !! start_of name m = Some name /\
       watchedClusters s' = {[watch_key name workload]} ∪ watchedClusters s /\
       ws_sources s' = (ws_sources s ++ [(start_of name m, watch_key name workload)])) \/
     is_Some x /\ watchedClusters s' = watchedClusters s /\ ws_sources s' = ws_sources s).
Proof.
  intros [Hm Hs]. unfold ensureWatch. cbv zeta. destruct (decide _) as [Hin|Hout]; [intros [= <- <-]; by left|].
  destruct (GetCluster name (ws_manager s)) as [m y] eqn:Eg. assert (manager_inv (ms_manager m)) as Hm' by (by eapply GetCluster_inv).
  intros E. right. exists m, y. split; [done|]. split; [done|].
  destruct y as [c|e]; [|injection E as <- <-; split_and!; [done..|by right]].
  destruct (GetInformer _ _ _ _) as [n [e|]]; [injection E as <- <-; split_and!; [done..|by right]|].
  destruct (ctrl_Watch _ n) as [n' [e|]]; injection E as <- <-; [split_and!; [done..|by right]|].
  split; [done|]. split; [done|]. left. split; [done|]. split; [by eapply start_of_running|done].
Qed.

Lemma ensureWatch_inv name workload s s' x : watch_inv s -> ensureWatch name workload s = (s', x) -> watch_inv s'.
Proof.
  intros Hi E. destruct (ensureWatch_cases _ _ _ _ _ Hi E) as [(_ & -> & _)|(m & y & _ & Eg & Em & Hm & Hc)]; [done|].
  destruct Hi as [Hm0 Hs]. destruct (GetCluster_running _ _ _ _ 0%nat "" Hm0 Eg) as (_ & Hn & _). split; [by rewrite Em|].
  intros i key. rewrite Em. destruct Hc as [(_ & Hr & -> & ->)|(_ & -> & ->)].
  - intros [[? ?]%Hs|[= -> ->]%list_elem_of_singleton]%elem_of_app; (split; [set_solver|]); [lia|]. by apply (inv_next _ Hm _ name).
  - intros [? ?]%Hs. split; [done|lia].
Qed.

Lemma RemoveClient_running m other i name : manager_inv m ->
  (cm_running (RemoveClient m other) !! i = Some name <-> cm_running m !! i = Some name /\ name ≠ other).
Proof.
  intros [_ Hr _]. unfold RemoveClient. destruct (cm_cancels m !! other) as [j|] eqn:E; simpl.
  - rewrite lookup_delete_Some. split; intros [H1 H2]; split; try done; intros ->.
    + apply Hr in H2. apply H1. congruence.
    + apply Hr in E. apply H2. congruence.
  - split; [|by intros [? _]]. intros Hi. split; [done|]. intros ->. apply Hr in Hi. congruence.
Qed.

Lemma status_step_inv r s s' : status_step r s s' -> watch_inv s -> watch_inv s'.
Proof.
  intros Hs Hi. destruct Hs as [name workload s s' x _ E|name m x s E|name s|h n s].
  - by eapply ensureWatch_inv.
  - destruct Hi as [Hi Hsrc]. destruct (GetCluster_running _ _ _ _ 0%nat "" Hi E) as (_ & Hn & _).
    split; [by eapply GetCluster_inv|]. intros i key [? ?]%Hsrc. split; [done|simpl; lia].
  - destruct Hi as [Hi Hsrc]. split; [by apply RemoveClient_inv|]. intros i key [? ?]%Hsrc. split; done.
  - by destruct Hi.
Qed.
Lemma runs_inv ok s s' : runs ok s s' -> watch_inv s -> watch_inv s'.
Proof. induction 1 as [|s s1 s2 (r & Hs & _) _ IH]; [done|]. intros Hi. apply IH. by eapply status_step_inv. Qed.

(** A call that succeeds has the workload watched. *)
Lemma ensureWatch_live name workload s s' : watch_inv s -> watch_key name workload ∉ watchedClusters s ->
  ensureWatch name workload s = (s', None) -> live s' name workload.
Proof.
  intros Hi Hk E. destruct (ensureWatch_cases _ _ _ _ _ Hi E) as [(? & _)|(m & y & _ & _ & Em & _ & [(_ & Hr & _ & Es)|([? ?] & _)])]; [done| |done].
  exists (start_of name m). rewrite Em, Es. split; [|done]. apply elem_of_app. right. by left.
Qed.

Lemma live_ensured name workload other workload' s s' x : watch_inv s -> ensureWatch other workload' s = (s', x) ->
  live s name workload -> live s' name workload.
Proof.
  intros Hi E (i & Hin & Hr). destruct (ensureWatch_cases _ _ _ _ _ Hi E) as [(_ & -> & _)|(m & y & _ & Eg & Em & _ & Hc)]; [by exists i|].
  exists i. rewrite Em. destruct (GetCluster_running _ _ _ _ i name (inv_manager _ Hi) Eg) as (Hk & _ & _). split; [|by apply Hk].
  destruct Hc as [(_ & _ & _ & ->)|(_ & _ & ->)]; [|done]. apply elem_of_app. by left.
Qed.

(** While the client of a cluster is not removed, what is recorded as watched there is:
    an event of the workload reaches the controller. *)
Definition all_live name s : Prop := forall workload, watch_key name workload ∈ watchedClusters s -> live s name workload.

Lemma all_live_step name r s s' : free_of "/"%char name = true -> r ≠ Some name -> watch_inv s -> status_step r s s' ->
  all_live name s -> all_live name s'.
Proof.
  intros Hf Hne Hi Hs Ha workload Hk. pose proof (status_step_inv _ _ _ Hs Hi) as Hi'.
  destruct Hs as [other workload' s s' x Hf' E|other m x s E|other s|h n s].
  - destruct (decide (watch_key name workload ∈ watchedClusters s)) as [Hin|Hout]; [by eapply live_ensured, Ha|].
    destruct (ensureWatch_cases _ _ _ _ _ Hi E) as [(_ & -> & _)|(m & y & _ & _ & Em & _ & [(_ & Hr & Ew & Es)|(_ & Ew & _)])]; [done| |by rewrite Ew in Hk].
    rewrite Ew in Hk. apply elem_of_union in Hk as [Hk%elem_of_singleton|]; [|done]. pose proof (watch_key_inj _ _ _ _ Hf Hf' Hk) as <-.
    exists (start_of name m). rewrite Em, Es, Hk. split; [|done]. apply elem_of_app. right. by left.
  - destruct (Ha workload Hk) as (i & Hin & Hr). exists i. split; [done|].
    by apply (GetCluster_running _ _ _ _ i name (inv_manager _ Hi) E).
  - destruct (Ha workload Hk) as (i & Hin & Hr). exists i. split; [done|]. apply RemoveClient_running; [apply Hi|]. split; [done|congruence].
  - destruct (Ha workload Hk) as (i & Hin & Hr). by exists i.
Qed.

(** C23: Whatever the status controller, the manager, the hub and the network do, as long as
    the client of a cluster is not removed, every workload there for which [ensureWatch]
    has succeeded is watched: by an informer of an accessor that runs. *)
Theorem watched_workloads_are_live name ns h n s : free_of "/"%char name = true ->
  runs (fun other => other ≠ name) (mkWatchState (mkManagerState (NewClientManager ns) h n) ∅ []) s ->
  forall workload s', ensureWatch name workload s = (s', None) -> live s' name workload.
Proof.
  intros Hf Hr. assert (watch_inv s /\ all_live name s) as [Hi Ha].
  { remember (mkWatchState _ ∅ []) as s0 eqn:E0. assert (watch_inv s0 /\ all_live name s0) as H0.
    { rewrite E0. split; [|by intros ? ?%elem_of_empty]. split; [apply NewClientManager_inv|by intros ? ? ?%elem_of_nil]. }
    clear E0. induction Hr as [|s s1 s2 (r & Hs & Hok) _ IH]; [done|]. apply IH. destruct H0 as [Hi Ha].
    split; [by eapply status_step_inv|]. eapply all_live_step; [done| |done..]. intros ->. by eapply (Hok name). }
  intros workload s' E. destruct (decide (watch_key name workload ∈ watchedClusters s)) as [Hin|Hout]; [|by eapply ensureWatch_live].
  destruct (ensureWatch_cases _ _ _ _ _ Hi E) as [(_ & -> & _)|(m & y & Hn & _)]; [by apply Ha|done].
Qed.

(** Recorded as watched, with all sources from before the accessor [bound], of which
    none runs for the cluster. *)
Definition dead name workload (bound : nat) s : Prop :=
  watch_key name workload ∈ watchedClusters s /\ Nat.le bound (cm_next (ms_manager (ws_manager s))) /\
  (forall i, (i, watch_key name workload) ∈ ws_sources s -> Nat.lt i bound) /\
  forall i, Nat.lt i bound -> cm_running (ms_manager (ws_manager s)) !! i ≠ Some name.

(** Once the client of a cluster has been removed, as it is whenever an edge cluster
    comes up again, what was watched there is never watched again, while
    [ensureWatch] says that it is. *)
Theorem removed_client_is_never_watched_again ok name workload s s' : watch_inv s -> watch_key name workload ∈ watchedClusters s ->
  runs ok (with_manager (remove_client name (ws_manager s)) s) s' ->
  ensureWatch name workload s' = (s', None) /\ ~ live s' name workload.
Proof.
  intros Hi Hk Hr. set (s1 := with_manager _ s) in Hr. set (bound := cm_next (ms_manager (ws_manager s))).
  assert (watch_inv s' /\ dead name workload bound s') as [_ (Hk' & _ & Hsrc & Hrun)].
  { assert (watch_inv s1 /\ dead name workload bound s1) as H1.
    { split; [exact (status_step_inv _ _ _ (step_removal name s) Hi)|]. split; [done|]. split; [done|]. split.
      - intros i Hin. by apply (inv_source _ Hi) in Hin as [_ ?].
      - intros i _ Hx. apply RemoveClient_running in Hx as [_ ?]; [done|apply Hi]. }
    clearbody s1. induction Hr as [|s1 s2 s3 (r & Hs & _) _ IH]; [done|]. apply IH. destruct H1 as [H1 (Hk1 & Hb1 & Hsrc1 & Hrun1)].
    split; [by eapply status_step_inv|]. assert (forall other m x, GetCluster other (ws_manager s1) = (m, x) ->
      (bound <= cm_next (ms_manager m))%nat /\ forall i, (i < bound)%nat -> cm_running (ms_manager m) !! i ≠ Some name) as Hget.
    { intros other m x E. destruct (GetCluster_running _ _ _ _ 0%nat "" (inv_manager _ H1) E) as (_ & Hn & _). split; [lia|]. intros i Hlt Hx.
      apply (GetCluster_running _ _ _ _ i name (inv_manager _ H1) E) in Hx as [Hx|]; [by apply (Hrun1 i)|lia]. }
    destruct Hs as [other workload' s1 s2 x _ E|other m x s1 E|other s1|h n s1].
    - destruct (ensureWatch_cases _ _ _ _ _ H1 E) as [(_ & -> & _)|(m & y & Hn & Eg & Em & _ & Hc)]; [done|].
      destruct (Hget _ _ _ Eg) as [? ?]. unfold dead. rewrite Em. destruct Hc as [(_ & _ & -> & ->)|(_ & -> & ->)]; [|done].
      split; [set_solver|]. split; [done|]. split; [|done]. intros i [Hin|[= _ Hkey]%list_elem_of_singleton]%elem_of_app; [by apply Hsrc1|].
      destruct Hn. by rewrite <- Hkey.
    - destruct (Hget _ _ _ E) as [? ?]. by split_and!.
    - split; [done|]. split; [done|]. split; [done|]. intros i Hlt Hx. apply RemoveClient_running in Hx as [Hx _]; [by apply (Hrun1 i)|apply H1].
    - by split_and!. }
  split; [unfold ensureWatch; cbv zeta; by rewrite decide_True|]. intros (i & Hin & Hx). by apply (Hrun i (Hsrc i Hin)).
Qed.

(** ** Events *)

(** An event of a workload that carries the identity of an application in its
    namespace asks for this application when it is the only one with this identity, and
    for none when there are others. *)
Theorem workload_events_wake_their_application app dst h apps : get_str (app_Labels app) ApplicationIDKey ≠ "" ->
  (ListApplications (app_Namespace app) (get_str (app_Labels app) ApplicationIDKey) h).2 = Ok apps -> app_Name app ∈ apps ->
  (map_event (app_Namespace app) (CopyBusinessIdentity dst (app_Labels app)) h).2 =
    if decide (length apps = 1%nat) then [(app_Namespace app, app_Name app)] else [].
Proof.
  intros Hid Hl Hin. unfold map_event. cbv zeta.
  assert (get_str (CopyBusinessIdentity dst (app_Labels app)) ApplicationIDKey = get_str (app_Labels app) ApplicationIDKey) as ->.
  { unfold CopyBusinessIdentity. rewrite get_str_insert, decide_False by done. rewrite get_str_copy_keys.
    by rewrite (proj2 (String.eqb_neq _ _) Hid), bool_decide_eq_true_2 by by left. }
  rewrite (proj2 (String.eqb_neq _ _) Hid). destruct (ListApplications _ _ h) as [h' got]. cbn [snd] in *. subst got.
  destruct apps as [|a [|b apps]]; [by apply elem_of_nil in Hin| |done]. by apply list_elem_of_singleton in Hin as ->.
Qed.

Lemma start_inv ns h n : watch_inv (mkWatchState (mkManagerState (NewClientManager ns) h n) ∅ []).
Proof. split; [apply NewClientManager_inv|by intros ? ? ?%elem_of_nil]. Qed.

(** ** Rounds *)

Lemma ensure_watches_shard shard workload applied s : forall key, key ∈ watchedClusters (ensure_watches shard workload applied s).1 ->
  key ∈ watchedClusters s \/ exists name, name ∈ applied /\ IsResponsibleFor shard name = true /\ key = watch_key name workload.
Proof.
  revert s. induction applied as [|name applied IH]; intros s key; cbn [ensure_watches]; [by left|].
  destruct (IsResponsibleFor shard name) eqn:Eresp; cbn [negb].
  2:{ intros [?|(x & ? & ? & ?)]%IH; [by left|]. right. exists x. split; [by right|done]. }
  destruct (ensureWatch name workload s) as [s1 err] eqn:E. destruct (ensure_watches shard workload applied s1) as [s2 failed] eqn:E2.
  cbn [fst]. intros Hk. pose proof (IH s1 key) as Hx. rewrite E2 in Hx. destruct (Hx Hk) as [H1|(x & ? & ? & ?)].
  - assert (key ∈ watchedClusters s \/ key = watch_key name workload) as [?|?]; [|by left|right; exists name; split; [by left|done]].
    revert E H1. unfold ensureWatch. cbv zeta. case_decide; [intros [= <- _]; by left|]. destruct (GetCluster _ _) as [m [c|e]]; [|intros [= <- _]; by left].
    destruct (GetInformer _ _ _ _) as [n [e|]]; [intros [= <- _]; by left|]. destruct (ctrl_Watch _ n) as [n' [e|]]; intros [= <- _]; [by left|].
    cbn. intros [?%elem_of_singleton|?]%elem_of_union; [by right|by left].
  - right. exists x. split; [by right|done].
Qed.

(** A round leaves an application alone that is being deleted or placed nowhere; of any
    other it watches only the workload, only on applied clusters of the shard, and it
    asks again for an application with a cluster that has no tunnel. *)
Theorem round_watches_its_shard shard deleting app s s' x : Reconcile shard deleting app s = (s', x) ->
  (x = None <-> deleting = true \/ AppliedClusters (Status app) = []) /\ (x = None -> s' = s) /\
  (forall key, key ∈ watchedClusters s' -> key ∈ watchedClusters s \/
     exists name, name ∈ AppliedClusters (Status app) /\ IsResponsibleFor shard name = true /\ key = watch_key name (Workload (Spec app))) /\
  forall app' again, x = Some (app', again) -> (ensure_watches shard (Workload (Spec app)) (AppliedClusters (Status app)) s).2 = true -> again = true.
Proof.
  unfold Reconcile. destruct deleting; [intros [= <- <-]; by split_and!; [split; [by left|]|..|intros; left|]|].
  pose proof (ensure_watches_shard shard (Workload (Spec app)) (AppliedClusters (Status app)) s) as Hw.
  destruct (AppliedClusters (Status app)) as [|name applied] eqn:Ea; [intros [= <- <-]; by split_and!; [split; [by right|]|..|intros; left|]|].
  destruct (ensure_watches shard _ _ s) as [s1 failed] eqn:Ee. unfold StatusReconcile. rewrite Ea.
  destruct (reconciled_status shard _ app) as [m app'] eqn:Est. intros [= <- <-]. split_and!; [split; [done|by intros [?|?]]|done|exact Hw|].
  intros app2 again [= _ <-]. cbn [snd]. by intros ->.
Qed.
End properties.

(** ** A concrete cluster that comes back *)

#[export] Instance sample_watch : @WatchRuntime sample_kubernetes sample_errors sample_chub sample_network := {|
  GetInformer c v k n := (n, None);
  ctrl_Watch key n := (n, None);
  ListApplications ns id h := (h, Ok ["app"]);
|}.
Definition deployments : WorkloadGVK := mkGVK "apps/v1" "Deployment".
Definition unwatched : @watch_state sample_kubernetes sample_errors sample_chub sample_network :=
  mkWatchState (mkManagerState (NewClientManager "ns") (hub_with (reached_by "Edge" "" None)) tunnel_a) ∅ [].
Definition watched : @watch_state sample_kubernetes sample_errors sample_chub sample_network := (ensureWatch "a" deployments unwatched).1.
(** The client has been removed, and made again. *)
Definition back : @watch_state sample_kubernetes sample_errors sample_chub sample_network :=
  let s := with_manager (remove_client "a" (ws_manager watched)) watched in with_manager (GetCluster "a" (ws_manager s)).1 s.

Lemma watched_workloads_are_live_witness : live watched "a" deployments.
Proof.
  apply (watched_workloads_are_live "a" "ns" (hub_with (reached_by "Edge" "" None)) tunnel_a unwatched).
  - reflexivity.
  - apply rtc_refl.
  - reflexivity.
Defined.

Lemma removed_client_is_never_watched_again_witness : cm_running (ms_manager (ws_manager back)) !! 1%nat = Some "a" /\
  ensureWatch "a" deployments back = (back, None) /\ ~ live back "a" deployments.
Proof.
  split; [reflexivity|]. apply (removed_client_is_never_watched_again (fun _ => True) "a" deployments watched back).
  - apply (ensureWatch_inv "a" deployments unwatched watched None); [apply start_inv|reflexivity].
  - apply elem_of_union. left. by apply elem_of_singleton.
  - apply rtc_once. exists None. split; [|done]. unfold back. cbv zeta.
    apply (step_client "a" _ (GetCluster "a" (ws_manager (with_manager (remove_client "a" (ws_manager watched)) watched))).2). apply surjective_pairing.
Defined.

Definition labelled_app : Application :=
  mkApplication (app_Identity applied_app) "app" "default" "1" {[ApplicationIDKey := "app_1"]} ∅ (Spec applied_app) (Status applied_app).

Lemma workload_events_wake_their_application_witness :
  (@map_event sample_kubernetes sample_errors sample_chub sample_network sample_watch "default" (CopyBusinessIdentity ∅ (app_Labels labelled_app)) no_objects).2 = [("default", "app")].
Proof.
  exact (workload_events_wake_their_application labelled_app ∅ no_objects ["app"] ltac:(discriminate) eq_refl ltac:(by left)).
Defined.

Lemma round_watches_its_shard_witness : exists s' x, Reconcile (NewShardManager 0 1) false applied_app unwatched = (s', x) /\ is_Some x.
Proof.
  destruct (Reconcile (NewShardManager 0 1) false applied_app unwatched) as [s' x] eqn:E. exists s', x. split; [reflexivity|].
  destruct (round_watches_its_shard _ _ _ _ _ _ E) as [[Hn _] _]. destruct x; [by eexists|].
  destruct (Hn eq_refl) as [Hd|Ha]; [discriminate Hd|discriminate Ha].
Defined.
