(* ===== verification/ClusterController.v ===== *)
(** * The cluster controller

    cluster/controller.go: accepts clusters of the hub's mode, keeps the state of edge
    clusters by their heartbeats, and moves the credentials an agent publishes in
    annotations into a Secret. *)

From S2P Require Import Prelude GoRuntime Json Api Clients ClientManager GoStrings.

Definition ClusterPending : string := "Pending".
Definition ClusterReady : string := "Ready".
Definition ClusterOffline : string := "Offline".
Definition ClusterRejected : string := "Rejected".

(** pkg/constants/constants.go *)
Definition AnnotationCredentialsCA : string := "cluster.kumquat.io/credentials-ca".
Definition AnnotationCredentialsToken : string := "cluster.kumquat.io/credentials-token".
Definition AnnotationAPIServerURL : string := "cluster.kumquat.io/apiserver-url".
Definition AnnotationCredentialsCert : string := "cluster.kumquat.io/credentials-cert".
Definition AnnotationCredentialsKey : string := "cluster.kumquat.io/credentials-key".
Definition AnnotationCredentialsHash : string := "cluster.kumquat.io/credentials-hash".
Definition AnnotationCredentialsAppliedHash : string := "cluster.kumquat.io/credentials-applied-hash".
Definition DefaultNamespace : string := "kumquat-system".

(** ** Changes of a ManagedCluster *)

Section changes.
Context `{Kubernetes}.

Definition with_cluster_state (c : ManagedCluster) (st : ClusterCondition) : ManagedCluster :=
  mkCluster (mc_Name c) (mc_Labels c) (mc_Deleting c) (mc_Taints c) (mc_ResourceSummary c) (mc_Conditions c) (mc_Access c) st.
Definition with_access (c : ManagedCluster) (access : ClusterAccess) : ManagedCluster :=
  mkCluster (mc_Name c) (mc_Labels c) (mc_Deleting c) (mc_Taints c) (mc_ResourceSummary c) (mc_Conditions c) access (mc_State c).

(** [c.Status.State = state], [c.Status.ID = id], [c.Status.APIServerURL = url] *)
Definition set_State (c : ManagedCluster) (state : string) : ManagedCluster :=
  let st := mc_State c in
  with_cluster_state c (mkClusterState state (ID st) (APIServerURL st) (LastKeepAliveTime st) (mc_AddonStatus st) (mc_NodeSummary st)).
Definition set_ID (c : ManagedCluster) (id : string) : ManagedCluster :=
  let st := mc_State c in
  with_cluster_state c (mkClusterState (State st) id (APIServerURL st) (LastKeepAliveTime st) (mc_AddonStatus st) (mc_NodeSummary st)).
Definition set_APIServerURL (c : ManagedCluster) (url : string) : ManagedCluster :=
  let st := mc_State c in
  with_cluster_state c (mkClusterState (State st) (ID st) url (LastKeepAliveTime st) (mc_AddonStatus st) (mc_NodeSummary st)).

Definition state_of (c : ManagedCluster) : string := State (mc_State c).
Definition annotation (c : ManagedCluster) (key : string) : string := default "" (mc_Annotations (mc_Access c) !! key).
Definition has_secret_ref (c : ManagedCluster) : bool := negb (String.eqb (secret_name c) "").
End changes.

(** k8s.io/client-go/util/retry: at most five attempts, while the error is a conflict. *)
Class Retry := {
  IsConflict : string -> bool;
  RetryOnConflict : forall {W A}, action W A -> action W A;
}.

Fixpoint retry_loop `{Retry} {W A} (more : nat) (m : action W A) : action W A := fun w =>
  match m w with
  | Ret (w', Err e) =>
      match more with
      | S n => if IsConflict e then retry_loop n m w' else Ret (w', Err e)
      | O => Ret (w', Err e)
      end
  | r => r
  end.

Class RetryLaws (R : Retry) : Prop := {
  RetryOnConflict_loop : forall {W A} (m : action W A) w, RetryOnConflict m w = retry_loop 4 m w;
}.

Section controller.
Context `{GoRuntime, Kubernetes, ApiErrors, !ClusterHub, !Network, Retry}.

(** [r.Client] and [r.ClientManager]. *)
Record controller_state := mkController { cs_hub : chub; cs_manager : ClientManager }.

Definition at_hub {X} (f : chub -> chub * X) (s : controller_state) : controller_state * X :=
  let '(h, x) := f (cs_hub s) in (mkController h (cs_manager s), x).
Abbreviation step := (action controller_state).

Definition remove_client (name : string) : step () := fun s =>
  Ret (mkController (cs_hub s) (RemoveClient (cs_manager s) name), Ok tt).

(** ** Clusters of the hub's mode *)

(** The error of the list is dropped by the only caller. *)
Definition findClusterBySecretRef (secretName excludeName : string) : step (option ManagedCluster) :=
  list ← returns (at_hub ch_List);
  mret (head (filter (fun c => mc_Name c ≠ excludeName /\ SecretRef (mc_Access c) = Some secretName) list)).

Definition patchStatus (cluster original : ManagedCluster) : step ManagedCluster :=
  returns (at_hub (ch_StatusPatch original cluster)).

Definition ensure_id (cluster : ManagedCluster) : step ManagedCluster :=
  if String.eqb (ID (mc_State cluster)) "" then id ← call (at_hub new_uuid); mret (set_ID cluster id) else mret cluster.

Definition make_ready (cluster original : ManagedCluster) : step () :=
  cluster ← ensure_id cluster;
  _ ← patchStatus (set_State cluster ClusterReady) original;
  mret tt.

Definition reject (cluster original : ManagedCluster) : step () :=
  _ ← patchStatus (set_State cluster ClusterRejected) original; mret tt.

(** The copy the patch is computed from is made after the changes. *)
Definition adopt_existing (existing cluster : ManagedCluster) : step () :=
  existing ← ensure_id existing;
  let existing := set_State existing ClusterReady in
  _ ← patchStatus existing existing;
  check (at_hub (ch_Delete (mc_Name cluster))).

Definition reconcileHub (cluster original : ManagedCluster) : step () :=
  if String.eqb (APIServer (mc_Access cluster)) LocalAPIServer then
    if has_secret_ref cluster then reject cluster original
    else if String.eqb (state_of cluster) ClusterReady then mret tt
    else make_ready cluster original
  else if negb (has_secret_ref cluster) then reject cluster original
  else if String.eqb (state_of cluster) "" || String.eqb (state_of cluster) ClusterPending then
    existing ← attempt (findClusterBySecretRef (secret_name cluster) (mc_Name cluster));
    match existing with
    | Ok (Some existing) => adopt_existing existing cluster
    | _ => make_ready cluster original
    end
  else mret tt.

(** ** Credentials *)

Definition applied_secret (hash ca token cert key : string) : Secret :=
  mkSecret {[ AnnotationCredentialsAppliedHash := hash ]}
    (if String.eqb token "" then <["keyData" := key]> (<["certData" := cert]> {[ "caData" := ca ]})
     else <["token" := token]> {[ "caData" := ca ]}).

(** The annotations that hold what the agent published. *)
Definition published_keys : list string :=
  [AnnotationCredentialsCA; AnnotationCredentialsToken; AnnotationAPIServerURL; AnnotationCredentialsCert; AnnotationCredentialsKey].

Definition applied_cluster (latest : ManagedCluster) (secretName hash : string) : ManagedCluster :=
  let access := mc_Access latest in
  let annotations := foldl (fun m key => delete key m)
    (<[AnnotationCredentialsAppliedHash := hash]> (mc_Annotations access)) published_keys in
  with_access latest (mkAccess annotations (ConnectionMode access) (APIServer access) (Some secretName) (mc_Addons access)).

(** CA, certificate and key, decoded; the last two only without a token. *)
Definition decoded_credentials (live : ManagedCluster) : res (string * string * string) :=
  let ca := annotation live AnnotationCredentialsCA in
  let token := annotation live AnnotationCredentialsToken in
  let cert := annotation live AnnotationCredentialsCert in
  let key := annotation live AnnotationCredentialsKey in
  if String.eqb ca "" || (String.eqb token "" && (String.eqb cert "" || String.eqb key ""))
  then Err "published credentials are incomplete"
  else
    caData ← DecodeString ca;
    if String.eqb token "" then
      certData ← DecodeString cert; keyData ← DecodeString key; Ok (caData, certData, keyData)
    else Ok (caData, "", "").

(** One attempt: the API server's URL when the credentials have been applied. *)
Definition credentials_attempt (namespace name consumedHash : string) : step (option string) :=
  let secretName := "cluster-creds-" +:+ name in
  live ← returns (at_hub (ch_Get name));
  if negb (String.eqb (annotation live AnnotationCredentialsHash) consumedHash) then mret None
  else
    '(caData, certData, keyData) ← of_res (decoded_credentials live);
    let url := annotation live AnnotationAPIServerURL in
    let token := annotation live AnnotationCredentialsToken in
    _ ← check (at_hub (ch_CreateOrUpdateSecret namespace secretName
                (fun _ => applied_secret consumedHash caData token certData keyData)));
    latest ← returns (at_hub (ch_Get name));
    if negb (String.eqb (annotation latest AnnotationCredentialsHash) consumedHash) then mret None
    else
      _ ← check (at_hub (ch_Update (applied_cluster latest secretName consumedHash)));
      mret (Some url).

Definition handleEdgeCredentials (namespace : string) (consumed : ManagedCluster) : step () :=
  let consumedHash := annotation consumed AnnotationCredentialsHash in
  if String.eqb consumedHash "" then fail "published credential hash is required"
  else
    let namespace := if String.eqb namespace "" then DefaultNamespace else namespace in
    applied ← RetryOnConflict (credentials_attempt namespace (mc_Name consumed) consumedHash);
    match applied with
    | None => mret tt
    | Some url =>
        _ ← remove_client (mc_Name consumed);
        updated ← returns (at_hub (ch_Get (mc_Name consumed)));
        _ ← patchStatus (set_State (set_APIServerURL updated url) ClusterReady) updated;
        mret tt
    end.

(** ** Edge clusters *)

Definition hasCredentials (cluster : ManagedCluster) : bool :=
  existsb (fun key => negb (String.eqb (annotation cluster key) ""))
    [AnnotationCredentialsToken; AnnotationCredentialsCert; AnnotationCredentialsCA].

(** What the heartbeat makes of the state. *)
Definition heartbeat_state (now timeout : Z) (st : ClusterCondition) : string :=
  match LastKeepAliveTime st with
  | None => State st
  | Some t =>
      if timeout <? now - t then ClusterOffline
      else if String.eqb (State st) ClusterOffline then ClusterOffline
      else ClusterReady
  end.

Definition check_heartbeat (now timeout : Z) (cluster original : ManagedCluster) : step ManagedCluster :=
  let state := heartbeat_state now timeout (mc_State cluster) in
  if String.eqb state (state_of cluster) then mret cluster
  else patchStatus (set_State cluster state) original.

(** [true]: reconcile again in ten seconds. *)
Definition reconcileEdge (namespace : string) (now timeout : Z) (cluster original : ManagedCluster) : step bool :=
  if hasCredentials cluster then _ ← handleEdgeCredentials namespace cluster; mret false
  else
    cluster ← (if String.eqb (ID (mc_State cluster)) "" then
                 cluster ← ensure_id cluster; patchStatus cluster original
               else mret cluster);
    let previousState := state_of cluster in
    cluster ← check_heartbeat now timeout cluster original;
    _ ← (if String.eqb (state_of cluster) ClusterReady && negb (String.eqb previousState ClusterReady)
         then remove_client (mc_Name cluster) else mret tt);
    mret true.

Definition hub_mode (cluster : ManagedCluster) : bool :=
  let mode := ConnectionMode (mc_Access cluster) in
  String.eqb (if String.eqb mode "" then ClusterConnectionModeHub else mode) ClusterConnectionModeHub.

(** The list is for a metric. *)
Definition Reconcile (namespace : string) (now timeout : Z) (name : string) : step bool :=
  got ← call (at_hub (ch_Get name));
  match got with
  | Err e => if IsNotFound e then mret false else fail e
  | Ok cluster =>
      _ ← call (at_hub ch_List);
      if hub_mode cluster then _ ← reconcileHub cluster cluster; mret false
      else reconcileEdge namespace now timeout cluster cluster
  end.
End controller.

(** ** Properties *)

(** What the hub stores.  An empty patch changes nothing. *)
Class HubStore `{Kubernetes, ApiErrors} (H : ClusterHub) := { stored : chub -> string -> option ManagedCluster }.
Class HubStoreLaws `{Kubernetes, ApiErrors} {H : ClusterHub} (S : HubStore H) : Prop := {
  stored_List h : stored (ch_List h).1 = stored h;
  stored_uuid h : stored (new_uuid h).1 = stored h;
  stored_empty_patch c h : stored (ch_StatusPatch c c h).1 = stored h;
  stored_Delete name other h : other ≠ name -> stored (ch_Delete name h).1 other = stored h other;
}.

Section properties.
Context `{G : GoRuntime, K : Kubernetes, Er : ApiErrors, HH : !ClusterHub, N : !Network, Re : Retry, !RetryLaws Re}.
Implicit Types (c cluster live latest : ManagedCluster) (s : controller_state).

(** *** The modes *)

(** The two sides of the manager do not agree on a cluster without a connection mode:
    the controller reconciles it as a cluster of the hub's mode, and its clients are
    made for the tunnel. *)
Theorem modes_disagree m cluster n h cfg h' : ConnectionMode (mc_Access cluster) = "" ->
  build_config m cluster n h = (h', Ok cfg) -> hub_mode cluster = true /\ cfg_Tunnel cfg = true.
Proof.
  intros Hm Hb. split; [unfold hub_mode; by rewrite Hm|]. exact (proj1 (empty_mode_uses_tunnel _ _ _ _ _ _ Hm Hb)).
Qed.

(** A cluster that has been rejected stays rejected: once its credentials are named,
    reconciling it does nothing. *)
Theorem rejected_cluster_stays_rejected cluster original s :
  APIServer (mc_Access cluster) ≠ LocalAPIServer -> has_secret_ref cluster = true -> state_of cluster = ClusterRejected ->
  reconcileHub cluster original s = Ret (s, Ok tt).
Proof.
  intros Ha Hs Hst. unfold reconcileHub. rewrite (proj2 (String.eqb_neq _ _) Ha), Hs, Hst. reflexivity.
Qed.

(** When another cluster already uses the credentials of a new one, the new one is
    deleted, and the other, which the code means to make ready, keeps its state: the
    patch is computed from a copy made after the change. *)
Theorem existing_cluster_keeps_its_state `{ST : !HubStore HH, !HubStoreLaws ST} cluster original s s' name :
  APIServer (mc_Access cluster) ≠ LocalAPIServer -> has_secret_ref cluster = true -> state_of cluster = ClusterPending ->
  (exists h list, ch_List (cs_hub s) = (h, Ok list) /\
     exists c, c ∈ list /\ mc_Name c ≠ mc_Name cluster /\ SecretRef (mc_Access c) = Some (secret_name cluster)) ->
  reconcileHub cluster original s = Ret (s', Ok tt) -> name ≠ mc_Name cluster ->
  stored (cs_hub s') name = stored (cs_hub s) name.
Proof.
  intros Ha Hs Hst (h & list & Hl & c & Hc & Hn & Hsr) Hr Hname. unfold reconcileHub in Hr.
  rewrite (proj2 (String.eqb_neq _ _) Ha), Hs, Hst in Hr. cbn [negb orb] in Hr.
  pose proof (stored_List (cs_hub s)) as S1. rewrite Hl in S1. cbn [fst] in S1.
  assert (exists e, findClusterBySecretRef (secret_name cluster) (mc_Name cluster) s =
    Ret (mkController h (cs_manager s), Ok (Some e))) as (e & Hf).
  { unfold findClusterBySecretRef, returns, at_hub, mbind, action_bind. rewrite Hl.
    destruct (filter (fun c => mc_Name c ≠ mc_Name cluster /\ SecretRef (mc_Access c) = Some (secret_name cluster)) list)
      as [|e l] eqn:E; [|by exists e]. assert (c ∈ @nil ManagedCluster) as ?%elem_of_nil; [|done].
    rewrite <- E. by apply list_elem_of_filter. }
  change (String.eqb ClusterPending "" || String.eqb ClusterPending ClusterPending) with true in Hr. cbn iota in Hr.
  assert (attempt (findClusterBySecretRef (secret_name cluster) (mc_Name cluster)) s =
    Ret (mkController h (cs_manager s), Ok (Ok (Some e)))) as Hat by (unfold attempt; by rewrite Hf).
  rewrite (action_bind_eq _ _ _ _ _ Hat) in Hr. unfold adopt_existing in Hr.
  apply action_bind_ok in Hr as (s1 & e1 & H1 & Hr). assert (stored (cs_hub s1) = stored h) as S2.
  { unfold ensure_id in H1. destruct (String.eqb _ ""); [|by injection H1 as <- _].
    apply action_bind_ok in H1 as (s2 & id & H1 & H2). injection H2 as <- _. unfold call, at_hub in H1. cbn [cs_hub] in H1.
    pose proof (stored_uuid h) as Su. destruct (new_uuid h) as [h' i]. by injection H1 as <- _. }
  apply action_bind_ok in Hr as (s2 & e2 & H2 & Hr). unfold patchStatus, returns, at_hub in H2.
  pose proof (stored_empty_patch (set_State e1 ClusterReady) (cs_hub s1)) as S3.
  destruct (ch_StatusPatch _ _ (cs_hub s1)) as [h2 r]. injection H2 as <- _. unfold check, at_hub in Hr. cbn [cs_hub] in Hr.
  pose proof (stored_Delete (mc_Name cluster) name h2 Hname) as S4. destruct (ch_Delete _ h2) as [h3 err].
  injection Hr as <- _. cbn [cs_hub fst] in *. by rewrite S4, S3, S2, S1.
Qed.

(** *** Heartbeats *)

(** An edge cluster that is offline stays offline: fresh heartbeats change nothing. *)
Theorem offline_cluster_ignores_heartbeats namespace now timeout cluster s :
  hasCredentials cluster = false -> ID (mc_State cluster) ≠ "" -> state_of cluster = ClusterOffline ->
  reconcileEdge namespace now timeout cluster cluster s = Ret (s, Ok true).
Proof.
  intros Hc Hid Hst. unfold reconcileEdge. rewrite Hc, (proj2 (String.eqb_neq _ _) Hid).
  assert (heartbeat_state now timeout (mc_State cluster) = ClusterOffline) as Hh.
  { unfold heartbeat_state. unfold state_of in Hst. rewrite Hst. destruct (LastKeepAliveTime _); [|done]. by destruct (_ <? _). }
  unfold mbind, action_bind, mret, action_ret. unfold check_heartbeat. rewrite Hh, Hst. cbn. by rewrite Hst.
Qed.

(** The state of an edge cluster follows its heartbeats: late, it goes offline; in
    time, it becomes ready unless it is offline; without any, nothing changes.  The
    stale client is dropped exactly when the cluster comes up. *)
Theorem edge_heartbeat_spec namespace now timeout cluster s :
  hasCredentials cluster = false -> ID (mc_State cluster) ≠ "" ->
  (forall t, LastKeepAliveTime (mc_State cluster) = Some t -> timeout < now - t ->
     heartbeat_state now timeout (mc_State cluster) = ClusterOffline) /\
  (forall t, LastKeepAliveTime (mc_State cluster) = Some t -> now - t <= timeout -> state_of cluster ≠ ClusterOffline ->
     heartbeat_state now timeout (mc_State cluster) = ClusterReady) /\
  (LastKeepAliveTime (mc_State cluster) = None -> heartbeat_state now timeout (mc_State cluster) = state_of cluster) /\
  reconcileEdge namespace now timeout cluster cluster s =
    if String.eqb (heartbeat_state now timeout (mc_State cluster)) (state_of cluster) then Ret (s, Ok true)
    else
      let target := set_State cluster (heartbeat_state now timeout (mc_State cluster)) in
      let '(h, got) := ch_StatusPatch cluster target (cs_hub s) in
      match got with
      | Err e => Ret (mkController h (cs_manager s), Err e)
      | Ok written =>
          let came_up := String.eqb (state_of written) ClusterReady && negb (String.eqb (state_of cluster) ClusterReady) in
          Ret (mkController h (if came_up then RemoveClient (cs_manager s) (mc_Name written) else cs_manager s), Ok true)
      end.
Proof.
  intros Hc Hid. split_and!.
  - intros t Ht Hl. unfold heartbeat_state. by rewrite Ht, (proj2 (Z.ltb_lt _ _) Hl).
  - intros t Ht Hl Hn. unfold heartbeat_state. rewrite Ht, (proj2 (Z.ltb_ge _ _) Hl).
    apply String.eqb_neq in Hn. unfold state_of in Hn. by rewrite Hn.
  - intros Ht. unfold heartbeat_state. by rewrite Ht.
  - unfold reconcileEdge. rewrite Hc, (proj2 (String.eqb_neq _ _) Hid).
    rewrite (action_bind_eq _ _ s s cluster eq_refl). cbv zeta. unfold check_heartbeat.
    set (state := heartbeat_state now timeout (mc_State cluster)). destruct (String.eqb state (state_of cluster)).
    + rewrite (action_bind_eq _ _ s s cluster eq_refl). by destruct (String.eqb (state_of cluster) ClusterReady).
    + unfold patchStatus, returns, at_hub, mbind, action_bind. destruct (ch_StatusPatch _ _ _) as [h [written|e]]; [|done].
      by destruct (String.eqb (state_of written) ClusterReady && _).
Qed.

(** *** Credentials *)

(** The annotations of a cluster whose credentials have been applied. *)
Lemma applied_cluster_parts latest secretName hash :
  let c := applied_cluster latest secretName hash in
  hasCredentials c = false /\ SecretRef (mc_Access c) = Some secretName /\
  annotation c AnnotationCredentialsAppliedHash = hash /\
  (forall key, key ∈ published_keys -> mc_Annotations (mc_Access c) !! key = None) /\
  (forall key, key ∉ published_keys -> key ≠ AnnotationCredentialsAppliedHash ->
     mc_Annotations (mc_Access c) !! key = mc_Annotations (mc_Access latest) !! key) /\
  mc_State c = mc_State latest /\ mc_Name c = mc_Name latest.
Proof.
  cbv zeta. set (c := applied_cluster latest secretName hash).
  assert (forall key, key ∈ published_keys -> mc_Annotations (mc_Access c) !! key = None) as Hdel.
  { intros key Hk. unfold c, applied_cluster, published_keys in *. cbn [foldl mc_Access with_access mc_Annotations].
    repeat (apply elem_of_cons in Hk as [->|Hk]); [..|by apply elem_of_nil in Hk];
      by rewrite ?lookup_delete_ne, lookup_delete_eq by done. }
  split_and!; [|done| |done| |done..].
  - unfold hasCredentials, annotation. cbn [existsb]. by rewrite !Hdel by (unfold published_keys; set_solver).
  - unfold c, annotation, applied_cluster, published_keys. cbn [foldl mc_Access with_access mc_Annotations].
    by rewrite !lookup_delete_ne, lookup_insert_eq by done.
  - intros key Hk Hne. unfold c, applied_cluster, published_keys in *. cbn [foldl mc_Access with_access mc_Annotations].
    rewrite !lookup_delete_ne, lookup_insert_ne; [done|..]; set_solver.
Qed.

(** The Secret holds a CA, and a token or a certificate with its key. *)
Lemma applied_secret_values hash ca token cert key :
  let data := sec_Data (applied_secret hash ca token cert key) in
  secret_value data "caData" = ca /\ secret_value data "token" = token /\
  secret_value data "certData" = (if String.eqb token "" then cert else "") /\
  secret_value data "keyData" = (if String.eqb token "" then key else "").
Proof.
  cbv zeta. unfold applied_secret, secret_value. cbn [sec_Data].
  destruct (String.eqb_spec token "") as [->|Hne]; split_and!; reflexivity.
Qed.

(** A CA and a token published in the annotations are, once applied and read back from
    the Secret, the CA and the token of a configuration that verifies the server. *)
Lemma credentials_round_trip live ca token :
  annotation live AnnotationCredentialsCA = EncodeToString ca -> annotation live AnnotationCredentialsToken = token ->
  ca ≠ "" -> token ≠ "" ->
  decoded_credentials live = Ok (ca, "", "") /\
  forall m name host tunnel h h' hash,
    ch_GetSecret (cm_Namespace m) name h = (h', Ok (applied_secret hash ca token "" "")) ->
    exists cfg, loadCredentials m name (plain_config host tunnel) h = (h', Ok cfg) /\
      cfg_CAData cfg = ca /\ cfg_BearerToken cfg = token /\ cfg_CertData cfg = "" /\ cfg_Insecure cfg = false.
Proof.
  intros Hca Ht Hca' Ht'. split.
  - unfold decoded_credentials. rewrite Hca, Ht, (proj2 (String.eqb_neq _ _) Ht').
    destruct (String.eqb_spec (EncodeToString ca) "") as [E|E].
    + pose proof (DecodeString_EncodeToString ca) as Hr. rewrite E in Hr. by injection Hr as <-.
    + cbn. by rewrite DecodeString_EncodeToString.
  - intros m name host tunnel h h' hash Hs. destruct (loadCredentials_parts m name host tunnel _ _ _ Hs)
      as (cfg & Hl & _ & _ & H1 & H2 & _ & H3 & Hi).
    destruct (applied_secret_values hash ca token "" "") as (V1 & V2 & V3 & _). rewrite V1 in H1. rewrite V2 in H3.
    rewrite V3, (proj2 (String.eqb_neq _ _) Ht') in H2. exists cfg. split_and!; [done..|]. apply Hi. rewrite H1, H3. auto.
Qed.

(** *** Attempts *)

(** An attempt that ends in a conflict. *)
Definition conflicts {A} (m : action controller_state A) (s s' : controller_state) : Prop :=
  exists e, m s = Ret (s', Err e) /\ IsConflict e = true.

Lemma retry_loop_spec {A} more (m : action controller_state A) s : exists k s1,
  nsteps (conflicts m) k s s1 /\ (k <= more)%nat /\ retry_loop more m s = m s1 /\
  ((k < more)%nat -> forall s2, ¬ conflicts m s1 s2).
Proof.
  revert s; induction more as [|more IH]; intros s; cbn [retry_loop].
  - exists 0%nat, s. split_and!; [constructor|lia| |lia]. destruct (m s) as [[s' [a|e]]|]; done.
  - destruct (m s) as [[s' [a|e]]|] eqn:E.
    + exists 0%nat, s. split_and!; [constructor|lia|done|]. intros _ s2 (e & He & _). congruence.
    + destruct (IsConflict e) eqn:Ec.
      * destruct (IH s') as (k & s1 & Hk & Hle & Hr & Hn). exists (S k), s1. split_and!; [|lia|done|].
        { eapply nsteps_l; [|exact Hk]. by exists e. }
        intros Hlt. apply Hn. lia.
      * exists 0%nat, s. split_and!; [constructor|lia|done|]. intros _ s2 (e' & He & Hc). congruence.
    + exists 0%nat, s. split_and!; [constructor|lia|done|]. intros _ s2 (e & He & _). congruence.
Qed.

(** Applying credentials ends after at most five attempts: its result is that of the
    last one, those before it ended in a conflict, and it is not tried again unless
    there was one. *)
Theorem credentials_retry_terminates namespace name hash s :
  let m := credentials_attempt namespace name hash in
  exists k s1, nsteps (conflicts m) k s s1 /\ (k <= 4)%nat /\ RetryOnConflict m s = m s1 /\
    ((k < 4)%nat -> forall s2, ¬ conflicts m s1 s2).
Proof. cbv zeta. rewrite RetryOnConflict_loop. apply retry_loop_spec. Qed.

(** An attempt leaves the clients alone. *)
Lemma credentials_attempt_manager namespace name hash s s' x :
  credentials_attempt namespace name hash s = Ret (s', x) -> cs_manager s' = cs_manager s.
Proof.
  assert (forall A B (a : action controller_state A) (f : A -> action controller_state B) s s' x,
    (forall s s' y, a s = Ret (s', y) -> cs_manager s' = cs_manager s) ->
    (forall v s s' y, f v s = Ret (s', y) -> cs_manager s' = cs_manager s) ->
    (a ≫= f) s = Ret (s', x) -> cs_manager s' = cs_manager s) as Hbind.
  { intros A B a f t t' y Ha Hf [(t1 & v & H1 & H2)|(e & H1 & _)]%action_bind_ret; [|by apply Ha in H1].
    rewrite (Hf _ _ _ _ H2). by apply Ha in H1. }
  assert (forall A (f : chub -> chub * res A) t t' y, returns (at_hub f) t = Ret (t', y) -> cs_manager t' = cs_manager t) as Hret.
  { intros A f t t' y. unfold returns, at_hub. destruct (f (cs_hub t)). by intros [= <- _]. }
  assert (forall (f : chub -> chub * option string) t t' y, check (at_hub f) t = Ret (t', y) -> cs_manager t' = cs_manager t) as Hchk.
  { intros f t t' y. unfold check, at_hub. destruct (f (cs_hub t)). by intros [= <- _]. }
  assert (forall A (v : A) t t' y, mret (M := action controller_state) v t = Ret (t', y) -> cs_manager t' = cs_manager t) as Hmret
    by (by intros A v t t' y [= <- _]).
  unfold credentials_attempt. apply Hbind; [apply Hret|]. intros live t t' y. destruct (negb _); [apply Hmret|].
  revert t t' y. intros t t' y. apply Hbind; [by intros ??? [= <- _]|]. intros [[ca cert] key] t1 t1' y1.
  apply Hbind; [apply Hchk|]. intros [] t2 t2' y2. apply Hbind; [apply Hret|]. intros latest t3 t3' y3.
  destruct (negb _); [apply Hmret|]. apply Hbind; [apply Hchk|]. intros [] t4 t4' y4. apply Hmret.
Qed.

(** The calls of an attempt that applies the credentials. *)
Lemma credentials_attempt_applied namespace name hash s s' url :
  credentials_attempt namespace name hash s = Ret (s', Ok (Some url)) ->
  cs_manager s' = cs_manager s /\
  exists live latest ca cert key h1 h2 h3,
    ch_Get name (cs_hub s) = (h1, Ok live) /\ annotation live AnnotationCredentialsHash = hash /\
    decoded_credentials live = Ok (ca, cert, key) /\ url = annotation live AnnotationAPIServerURL /\
    ch_CreateOrUpdateSecret namespace ("cluster-creds-" +:+ name)
      (fun _ => applied_secret hash ca (annotation live AnnotationCredentialsToken) cert key) h1 = (h2, None) /\
    ch_Get name h2 = (h3, Ok latest) /\ annotation latest AnnotationCredentialsHash = hash /\
    ch_Update (applied_cluster latest ("cluster-creds-" +:+ name) hash) h3 = (cs_hub s', None).
Proof.
  unfold credentials_attempt. intros (s1 & live & H1 & H)%action_bind_ok. unfold returns, at_hub in H1.
  destruct (ch_Get name (cs_hub s)) as [h1 x1] eqn:E1. injection H1 as <- ->.
  destruct (String.eqb_spec (annotation live AnnotationCredentialsHash) hash) as [Eh|]; [|done]. cbn [negb] in H.
  apply action_bind_ok in H as (s2 & [[ca cert] key] & H2 & H). injection H2 as <- Hd.
  apply action_bind_ok in H as (s3 & [] & H3 & H). unfold check, at_hub in H3. cbn [cs_hub cs_manager] in H3.
  set (write := fun _ : Secret => _) in H3.
  destruct (ch_CreateOrUpdateSecret namespace ("cluster-creds-" +:+ name) write h1) as [h2 [e|]] eqn:E2; [done|].
  injection H3 as <-. apply action_bind_ok in H as (s4 & latest & H4 & H). unfold returns, at_hub in H4. cbn [cs_hub cs_manager] in H4.
  destruct (ch_Get name h2) as [h3 x3] eqn:E3. injection H4 as <- ->.
  destruct (String.eqb_spec (annotation latest AnnotationCredentialsHash) hash) as [Eh2|]; [|done]. cbn [negb] in H.
  apply action_bind_ok in H as (s5 & [] & H5 & H). unfold check, at_hub in H5. cbn [cs_hub cs_manager] in H5.
  destruct (ch_Update _ h3) as [h4 [e|]] eqn:E4; [done|]. injection H5 as <-. injection H as <- <-.
  split; [done|]. exists live, latest, ca, cert, key, h1, h2, h3. split_and!; done.
Qed.

(** Credentials are applied as they were published: when the controller drops the
    client of a cluster because of new credentials, their hash was the one it consumed
    both before the Secret was written and after, the Secret holds what the annotations
    decode to, and the cluster has been updated to refer to it. *)
Theorem handleEdgeCredentials_applies namespace consumed s s' :
  handleEdgeCredentials namespace consumed s = Ret (s', Ok tt) ->
  let hash := annotation consumed AnnotationCredentialsHash in
  hash ≠ "" /\
  (cs_manager s' = cs_manager s \/
   cs_manager s' = RemoveClient (cs_manager s) (mc_Name consumed) /\
   exists live latest ca cert key h0 h1 h2 h3 h4,
     ch_Get (mc_Name consumed) h0 = (h1, Ok live) /\ annotation live AnnotationCredentialsHash = hash /\
     decoded_credentials live = Ok (ca, cert, key) /\
     ch_CreateOrUpdateSecret (if String.eqb namespace "" then DefaultNamespace else namespace)
       ("cluster-creds-" +:+ mc_Name consumed)
       (fun _ => applied_secret hash ca (annotation live AnnotationCredentialsToken) cert key) h1 = (h2, None) /\
     ch_Get (mc_Name consumed) h2 = (h3, Ok latest) /\ annotation latest AnnotationCredentialsHash = hash /\
     ch_Update (applied_cluster latest ("cluster-creds-" +:+ mc_Name consumed) hash) h3 = (h4, None)).
Proof.
  unfold handleEdgeCredentials. intros H. cbv zeta. set (hash := annotation consumed AnnotationCredentialsHash) in *.
  destruct (String.eqb_spec hash "") as [|Hh]; [done|]. split; [done|].
  set (ns := if String.eqb namespace "" then DefaultNamespace else namespace) in *.
  apply action_bind_ok in H as (s1 & applied & H1 & H). rewrite RetryOnConflict_loop in H1.
  set (m := credentials_attempt ns (mc_Name consumed) hash) in *.
  destruct (retry_loop_spec 4 m s) as (k & s0 & Hk & _ & Hr & _). rewrite Hr in H1.
  assert (cs_manager s0 = cs_manager s /\ cs_manager s1 = cs_manager s0) as [M0 M1].
  { assert (forall sa sb x, m sa = Ret (sb, x) -> cs_manager sb = cs_manager sa) as Hm by apply credentials_attempt_manager.
    split; [|by apply (Hm _ _ _ H1)]. clear -Hk Hm. induction Hk as [|k a b c (e & He & _) _ IH]; [done|].
    by rewrite IH, (Hm _ _ _ He). }
  destruct applied as [url|]; [|injection H as <-; left; congruence]. right.
  destruct (credentials_attempt_applied _ _ _ _ _ _ H1) as (_ & live & latest & ca & cert & key & h1 & h2 & h3 & P).
  apply action_bind_ok in H as (s2 & [] & H2 & H). injection H2 as <-. cbn [cs_hub cs_manager] in H.
  apply action_bind_ok in H as (s3 & updated & H3 & H). unfold returns, at_hub in H3. cbn [cs_hub cs_manager] in H3.
  destruct (ch_Get _ (cs_hub s1)) as [h5 x5]. injection H3 as <- _.
  apply action_bind_ok in H as (s4 & u2 & H4 & H). unfold patchStatus, returns, at_hub in H4. cbn [cs_hub cs_manager] in H4.
  destruct (ch_StatusPatch _ _ h5) as [h6 x6]. injection H4 as <- _. injection H as <-. cbn [cs_manager].
  split; [by rewrite M1, M0|]. exists live, latest, ca, cert, key, (cs_hub s0), h1, h2, h3, (cs_hub s1).
  destruct P as (P1 & P2 & P3 & _ & P4 & P5 & P6 & P7). split_and!; done.
Qed.
End properties.

(** ** The properties at a concrete hub *)

#[export] Instance sample_retry : Retry := {|
  IsConflict e := String.eqb e "conflict";
  RetryOnConflict W A m := @retry_loop (Build_Retry (fun e => String.eqb e "conflict") (fun _ _ m => m)) W A 4 m;
|}.
#[export] Instance sample_retry_laws : RetryLaws sample_retry.
Proof.
  split. intros W A m w. cbn [RetryOnConflict sample_retry].
  assert (forall n w, @retry_loop (Build_Retry (fun e => String.eqb e "conflict") (fun _ _ m => m)) W A n m w = retry_loop n m w) as Hn.
  { intros n. induction n as [|n IH]; intros v; [done|]. cbn [retry_loop]. destruct (m v) as [[v' [a|e]]|]; [done| |done].
    cbn [IsConflict sample_retry]. by destruct (String.eqb e "conflict"). }
  apply Hn.
Qed.

#[export] Instance sample_store : @HubStore sample_kubernetes sample_errors sample_chub :=
  @Build_HubStore _ _ sample_chub (fun (h : hub_objects) name => ho_clusters h !! name).

#[export] Instance sample_store_laws : HubStoreLaws sample_store.
Proof.
  split; cbn; intros; [done|done| |].
  - rewrite alter_id; [done|]. intros [? ? ? ? ? ? ? [? ? ? ? ? ?]] _. unfold merge_state. cbn. by rewrite !String.eqb_refl.
  - by rewrite lookup_delete_ne.
Qed.

Definition cluster_named (name mode server : string) (secret : option string) (annotations : gmap string string)
    (st : ClusterCondition) : ManagedCluster :=
  mkCluster name ∅ false [] [] [] (mkAccess annotations mode server secret []) st.
Definition state_with (state id : string) (beat : option Z) : ClusterCondition := mkClusterState state id "" beat [] [].
Definition control (clusters : list ManagedCluster) : controller_state :=
  mkController (mkHubObjects (list_to_map ((fun c => (mc_Name c, c)) <$> clusters)) ∅ : @chub _ _ sample_chub)
    (NewClientManager "ns").

Definition offline_edge : ManagedCluster := cluster_named "e" "Edge" "" None ∅ (state_with ClusterOffline "1" (Some 100)).
Definition pending_edge : ManagedCluster := cluster_named "e" "Edge" "" None ∅ (state_with ClusterPending "1" (Some 100)).
Definition rejected_hub : ManagedCluster := cluster_named "h" "Hub" "https://h" (Some "s") ∅ (state_with ClusterRejected "1" None).
Definition published_edge : ManagedCluster := cluster_named "e" "Edge" "" None
  {[ AnnotationCredentialsCA := "Y2E="; AnnotationCredentialsToken := "t"; AnnotationCredentialsHash := "h1" ]}
  (state_with ClusterPending "1" None).

Lemma rejected_cluster_stays_rejected_witness :
  reconcileHub rejected_hub rejected_hub (control [rejected_hub]) = Ret (control [rejected_hub], Ok tt).
Proof. exact (rejected_cluster_stays_rejected rejected_hub rejected_hub _ ltac:(discriminate) eq_refl eq_refl). Defined.

Lemma offline_cluster_ignores_heartbeats_witness :
  reconcileEdge "ns" 101 30 offline_edge offline_edge (control [offline_edge]) = Ret (control [offline_edge], Ok true).
Proof. exact (offline_cluster_ignores_heartbeats "ns" 101 30 offline_edge _ eq_refl ltac:(discriminate) eq_refl). Defined.

Lemma edge_heartbeat_spec_witness :
  heartbeat_state 101 30 (mc_State pending_edge) = ClusterReady /\ heartbeat_state 131 30 (mc_State pending_edge) = ClusterOffline.
Proof.
  destruct (edge_heartbeat_spec "ns" 101 30 pending_edge (control []) eq_refl ltac:(discriminate)) as (_ & H & _).
  destruct (edge_heartbeat_spec "ns" 131 30 pending_edge (control []) eq_refl ltac:(discriminate)) as (H2 & _).
  split; [apply (H 100 eq_refl); [lia|discriminate]|apply (H2 100 eq_refl); lia].
Defined.

Lemma modes_disagree_witness : exists cfg h,
  build_config (NewClientManager "ns") (reached_by "" "https://a" None) tunnel_a no_objects = (h, Ok cfg) /\
  hub_mode (reached_by "" "https://a" None) = true /\ cfg_Tunnel cfg = true.
Proof.
  eexists _, _. split; [vm_compute; reflexivity|].
  exact (modes_disagree (NewClientManager "ns") (reached_by "" "https://a" None) tunnel_a no_objects _ _ eq_refl eq_refl).
Defined.

Lemma credentials_retry_terminates_witness : exists k s1,
  (k <= 4)%nat /\ RetryOnConflict (credentials_attempt "ns" "e" "h1") (control [published_edge]) = credentials_attempt "ns" "e" "h1" s1.
Proof.
  destruct (credentials_retry_terminates "ns" "e" "h1" (control [published_edge])) as (k & s1 & _ & Hk & Hr & _).
  exists k, s1. split; [exact Hk|exact Hr].
Defined.

(** The credentials are applied and the client is dropped. *)
Lemma handleEdgeCredentials_applies_witness : exists s',
  handleEdgeCredentials "ns" published_edge (control [published_edge]) = Ret (s', Ok tt) /\
  annotation published_edge AnnotationCredentialsHash ≠ "".
Proof.
  destruct (succeeded_ret (handleEdgeCredentials "ns" published_edge (control [published_edge]))) as (s' & [] & E);
    [vm_compute; reflexivity|].
  exists s'. split; [exact E|]. exact (proj1 (handleEdgeCredentials_applies "ns" published_edge _ s' E)).
Defined.

Definition hub_named (name state : string) : ManagedCluster :=
  cluster_named name "Hub" "https://h" (Some "s") ∅ (state_with state "" None).

(** The first of two clusters with one Secret stays pending. *)
Lemma existing_cluster_keeps_its_state_witness : exists s',
  reconcileHub (hub_named "h2" ClusterPending) (hub_named "h2" ClusterPending)
    (control [hub_named "h1" ClusterPending; hub_named "h2" ClusterPending]) = Ret (s', Ok tt) /\
  stored (cs_hub s') "h1" = Some (hub_named "h1" ClusterPending).
Proof.
  set (s := control [hub_named "h1" ClusterPending; hub_named "h2" ClusterPending]).
  destruct (succeeded_ret (reconcileHub (hub_named "h2" ClusterPending) (hub_named "h2" ClusterPending) s)) as (s' & [] & E);
    [vm_compute; reflexivity|].
  exists s'. split; [exact E|].
  refine (existing_cluster_keeps_its_state (hub_named "h2" ClusterPending) _ s s' "h1" _ eq_refl eq_refl _ E _);
    [discriminate| |discriminate].
  eexists _, _. split; [reflexivity|]. exists (hub_named "h1" ClusterPending).
  split; [by left|]. split; [discriminate|reflexivity].
Defined.
