(* ===== verification/Agent.v ===== *)
(** * The agent

    internal/agent/cluster/agent.go: the agent of an edge cluster registers it at the hub,
    publishes the credentials of its service account, and reports its resources with
    every heartbeat.  The files and the environment of the agent are the record
    [Host]; the digest of crypto/sha256 is a parameter.  The tunnel it keeps open is in
    [AgentTunnel]. *)

From Stdlib Require Import Ascii.
From S2P Require Import Prelude GoRuntime Json Api Clients Manifest ClientManager GoStrings ClusterController.

Definition LabelRegistrationSource : string := "kumquat.io/registration-source".
Definition RegistrationSourceAgent : string := "agent".

Record AgentOptions := mkAgentOptions {
  opt_HubURL : string; opt_TunnelURL : string; opt_ClusterName : string; opt_BootstrapToken : string; opt_BootstrapTokenFile : string;
  opt_HubCAFile : string; opt_TunnelCAFile : string; opt_HeartbeatInterval : Z (* nanoseconds *) }.

(** The service account's files, when they can be read, and the environment. *)
Record Host := mkHost {
  host_CA : option string; host_Token : option string;
  KUBERNETES_SERVICE_HOST : string; KUBERNETES_SERVICE_PORT : string }.

(** The local cluster's nodes and pods, as far as they are summed up. *)
Record Node `{Kubernetes} := mkNode { node_Allocatable : gmap string Quantity; node_Conditions : list Condition }.
Record Pod `{Kubernetes} := mkPod { pod_Phase : string; pod_Containers : list (Container Quantity) }.
Arguments mkNode {_}. Arguments mkPod {_}.

(** ** Strings *)

(** [strings.TrimSpace] on ASCII text. *)
Definition is_space (c : Ascii.ascii) : bool :=
  existsb (Ascii.eqb c) ["009"%char; "010"%char; "011"%char; "012"%char; "013"%char; " "%char].
Fixpoint trim_left (s : list Ascii.ascii) : list Ascii.ascii :=
  match s with c :: rest => if is_space c then trim_left rest else s | [] => [] end.
Definition TrimSpace (s : string) : string :=
  String.string_of_list_ascii (reverse (trim_left (reverse (trim_left (String.list_ascii_of_string s))))).

Definition NUL : string := String "000"%char EmptyString.

(** ** Credentials *)

Section credentials.
Context (sha256_hex : string -> string).
Implicit Types creds : gmap string string.

Definition cred creds (key : string) : string := default "" (creds !! key).

Definition credential_keys : list string :=
  [AnnotationAPIServerURL; AnnotationCredentialsCA; AnnotationCredentialsCert; AnnotationCredentialsKey; AnnotationCredentialsToken].

(** What is written to the hash, key by key. *)
Definition credentials_preimage creds : string :=
  foldr (fun key rest => key +:+ NUL +:+ cred creds key +:+ NUL +:+ rest) "" credential_keys.

Definition credentialsHash creds : string := "sha256:" +:+ sha256_hex (credentials_preimage creds).

Definition credentialsComplete creds : bool :=
  negb (String.eqb (cred creds AnnotationCredentialsCA) "") &&
  (negb (String.eqb (cred creds AnnotationCredentialsToken) "") ||
   (negb (String.eqb (cred creds AnnotationCredentialsCert) "") && negb (String.eqb (cred creds AnnotationCredentialsKey) ""))).

Definition getClusterCredentials (host : Host) : gmap string string :=
  let creds := match host_CA host with Some ca => {[ AnnotationCredentialsCA := EncodeToString ca ]} | None => ∅ end in
  let creds := match host_Token host with Some token => <[AnnotationCredentialsToken := token]> creds | None => creds end in
  let h := KUBERNETES_SERVICE_HOST host in
  let p := KUBERNETES_SERVICE_PORT host in
  <[AnnotationAPIServerURL :=
      if String.eqb h "" || String.eqb p "" then DefaultAPIServerURL else "https://" +:+ h +:+ ":" +:+ p]> creds.

Definition getRequiredClusterCredentials (host : Host) : res (gmap string string) :=
  match host_CA host, host_Token host with
  | None, _ => Err "read projected service account CA"
  | _, None => Err "read projected service account token"
  | Some ca, Some token =>
      let creds := getClusterCredentials host in
      let creds := <[AnnotationCredentialsCA := EncodeToString ca]> creds in
      let creds := <[AnnotationCredentialsToken := TrimSpace token]> creds in
      if credentialsComplete creds then Ok creds else Err "projected cluster credentials are incomplete"
  end.
End credentials.

(** ** Registration and heartbeats *)

(** What the agent calls besides the cluster controller. *)
Class AgentHub `{Kubernetes, ApiErrors} (H : ClusterHub) := {
  ah_Create : ManagedCluster -> chub -> chub * option string;
  (** [Patch(cluster, client.MergeFrom(base))]; the object takes the answer. *)
  ah_Patch : ManagedCluster -> ManagedCluster -> chub -> chub * res ManagedCluster;
  ah_StatusUpdate : ManagedCluster -> chub -> chub * res ManagedCluster;
}.

Section agent.
Context `{GoRuntime, Kubernetes, ApiErrors, HH : !ClusterHub, !AgentHub HH, Retry}.
Context (sha256_hex : string -> string).

Abbreviation step := (action chub).

Definition with_annotations (c : ManagedCluster) (annotations : gmap string string) : ManagedCluster :=
  let access := mc_Access c in
  with_access c (mkAccess annotations (ConnectionMode access) (APIServer access) (SecretRef access) (mc_Addons access)).
Definition with_mc_labels (c : ManagedCluster) (labels : gmap string string) : ManagedCluster :=
  mkCluster (mc_Name c) labels (mc_Deleting c) (mc_Taints c) (mc_ResourceSummary c) (mc_Conditions c) (mc_Access c) (mc_State c).

(** The cluster with the credentials and their hash in its annotations. *)
Definition publish (site : nat) (c : ManagedCluster) (creds : gmap string string) : ManagedCluster :=
  with_annotations c (<[AnnotationCredentialsHash := credentialsHash sha256_hex creds]>
    (set_all site creds (mc_Annotations (mc_Access c)))).
Definition published (c : ManagedCluster) (creds : gmap string string) : bool :=
  String.eqb (annotation c AnnotationCredentialsHash) (credentialsHash sha256_hex creds).

Definition new_edge_cluster (name : string) (creds : gmap string string) : ManagedCluster :=
  mkCluster name {[ LabelRegistrationSource := RegistrationSourceAgent ]} false [] [] []
    (mkAccess (<[AnnotationCredentialsHash := credentialsHash sha256_hex creds]> creds) ClusterConnectionModeEdge "" None [])
    no_state.

Definition registered_label (c : ManagedCluster) : bool :=
  String.eqb (default "" (mc_Labels c !! LabelRegistrationSource)) RegistrationSourceAgent.

Definition register_attempt (opts : AgentOptions) (creds : gmap string string) : step () :=
  let localReporter := String.eqb (opt_HubURL opts) "" in
  got ← call (ch_Get (opt_ClusterName opts));
  match got with
  | Err e =>
      if negb (IsNotFound e) then fail ("failed to get cluster: " +:+ e)
      else if localReporter then fail ("local Hub reporter requires existing cluster " +:+ opt_ClusterName opts)
      else check (ah_Create (new_edge_cluster (opt_ClusterName opts) creds))
  | Ok cluster =>
      if localReporter then
        (if String.eqb (ConnectionMode (mc_Access cluster)) ClusterConnectionModeHub &&
            String.eqb (APIServer (mc_Access cluster)) LocalAPIServer
         then mret tt else fail "local Hub reporter requires explicit local apiServer")
      else
        let relabelled := if registered_label cluster then cluster
          else with_mc_labels cluster (<[LabelRegistrationSource := RegistrationSourceAgent]> (mc_Labels cluster)) in
        let changed := if published cluster creds then relabelled else publish 103 relabelled creds in
        if registered_label cluster && published cluster creds then mret tt
        else _ ← returns (ah_Patch cluster changed); mret tt
  end.

Definition Register (opts : AgentOptions) (host : Host) : step () :=
  creds ← (if String.eqb (opt_HubURL opts) "" then mret ∅ else of_res (getRequiredClusterCredentials host));
  RetryOnConflict (register_attempt opts creds).

(** *** Summaries *)

(** [existing.Add(quantity)], or the first quantity of the name. *)
Definition add_quantity (total : gmap string Quantity) (kv : string * Quantity) : gmap string Quantity :=
  <[kv.1 := match total !! kv.1 with Some existing => qty_Add existing kv.2 | None => kv.2 end]> total.
Definition add_resources (site : nat) (total : gmap string Quantity) (m : gmap string Quantity) : gmap string Quantity :=
  foldl add_quantity total (go_range site m).

Definition counted_pod (pod : Pod) : bool :=
  String.eqb (pod_Phase pod) "Running" || String.eqb (pod_Phase pod) "Pending".

(** [None] is the nil summary: a list failed, or there is no node. *)
Definition collectResourceSummary (nodes : res (list Node)) (pods : res (list Pod)) : option (list ResourceSummary) :=
  match nodes, pods with
  | Ok nodes, Ok pods =>
      match nodes with
      | [] => None
      | _ =>
          let allocatable := foldl (fun t node => add_resources 104 t (node_Allocatable node)) ∅ nodes in
          let allocated := foldl (fun t pod =>
            if counted_pod pod then foldl (fun t c => add_resources 105 t (Requests c)) t (pod_Containers pod) else t) ∅ pods in
          Some [mkSummary allocatable ∅ allocated]
      end
  | _, _ => None
  end.

Definition node_ready (node : Node) : bool :=
  existsb (fun cond => String.eqb (cond_Type cond) "Ready" && String.eqb (cond_Status cond) "True") (node_Conditions node).

Definition collectNodeSummary (nodes : res (list Node)) : option (list NodeSummary) :=
  match nodes with
  | Ok nodes => Some [mkNodeSummary (Z.of_nat (length nodes))
                        (Z.of_nat (length (List.filter node_ready nodes)))]
  | Err _ => None
  end.

Definition with_heartbeat (c : ManagedCluster) (now : Z) (rs : option (list ResourceSummary)) (ns : option (list NodeSummary))
    : ManagedCluster :=
  let st := mc_State c in
  mkCluster (mc_Name c) (mc_Labels c) (mc_Deleting c) (mc_Taints c) (default (mc_ResourceSummary c) rs) (mc_Conditions c)
    (mc_Access c)
    (mkClusterState (State st) (ID st) (APIServerURL st) (Some now) (mc_AddonStatus st) (default (mc_NodeSummary st) ns)).

(** The credentials are published again when they are not those of the annotations. *)
Definition refresh_credentials (opts : AgentOptions) (host : Host) (cluster : ManagedCluster) : step ManagedCluster :=
  if String.eqb (opt_HubURL opts) "" then mret cluster
  else
    creds ← of_res (getRequiredClusterCredentials host);
    if published cluster creds then mret cluster
    else
      _ ← returns (ah_Patch cluster (publish 106 cluster creds));
      returns (ch_Get (opt_ClusterName opts)).

(** [local] is what the local cluster lists, twice for the nodes; none without a
    local client.  When the status cannot be updated, the whole object is. *)
Definition sendHeartbeat (opts : AgentOptions) (host : Host) (now : Z)
    (local : option (res (list Node) * res (list Pod) * res (list Node))) : step () :=
  cluster ← returns (ch_Get (opt_ClusterName opts));
  cluster ← refresh_credentials opts host cluster;
  let '(rs, ns) := match local with
                   | Some (nodes, pods, nodes') => (collectResourceSummary nodes pods, collectNodeSummary nodes')
                   | None => (None, None)
                   end in
  let cluster := with_heartbeat cluster now rs ns in
  r ← call (ah_StatusUpdate cluster);
  match r with
  | Ok _ => mret tt
  | Err _ => check (ch_Update cluster)
  end.

(** What wakes the loop of the heartbeats: the end of the context, or a tick, with the
    files, the time and the local cluster as they are then. *)
Inductive wake := CtxDone | Tick (host : Host) (now : Z) (local : option (res (list Node) * res (list Pod) * res (list Node))).

(** Up to the last of the wakes; an error of a heartbeat is logged. *)
Fixpoint heartbeat_loop (opts : AgentOptions) (wakes : list wake) : step () :=
  match wakes with
  | [] | CtxDone :: _ => mret tt
  | Tick host now local :: wakes => _ ← attempt (sendHeartbeat opts host now local); heartbeat_loop opts wakes
  end.
(** [time.NewTicker] panics for an interval that is not positive. *)
Definition StartHeartbeat (opts : AgentOptions) (wakes : list wake) : step () :=
  if opt_HeartbeatInterval opts <=? 0 then panic else heartbeat_loop opts wakes.
End agent.

(** ** Properties *)

(** Without NUL bytes in it. *)
Definition no_nul (s : string) : Prop := "000"%char ∉ String.list_ascii_of_string s.

Lemma split_at_nul a b r r' : no_nul a -> no_nul b -> a +:+ NUL +:+ r = b +:+ NUL +:+ r' -> a = b /\ r = r'.
Proof.
  unfold no_nul. revert b; induction a as [|x a IH]; intros [|y b] Ha Hb; simpl in *; intros H.
  - by injection H.
  - injection H as <- _. set_solver.
  - injection H as -> _. set_solver.
  - injection H as -> H. destruct (IH b) as [-> ->]; [set_solver..|exact H|done].
Qed.

Section properties.
Context (sha256_hex : string -> string).
Context `{G : GoRuntime, !GoRuntimeLaws G, K : Kubernetes, Er : ApiErrors, HH : !ClusterHub, N : !Network}.
Implicit Types (creds : gmap string string) (c : ManagedCluster).

(** The hash of the credentials is computed from a text that determines them: any
    rotated credential changes it. *)
Theorem credentials_preimage_injective creds creds' :
  (forall key, no_nul (cred creds key)) -> (forall key, no_nul (cred creds' key)) ->
  credentials_preimage creds = credentials_preimage creds' ->
  forall key, key ∈ credential_keys -> cred creds key = cred creds' key.
Proof.
  intros H1 H2. unfold credentials_preimage. generalize credential_keys as keys. intros keys.
  assert (forall keys, foldr (fun key rest => key +:+ NUL +:+ cred creds key +:+ NUL +:+ rest) "" keys =
    foldr (fun key rest => key +:+ NUL +:+ cred creds' key +:+ NUL +:+ rest) "" keys ->
    forall key, key ∈ keys -> cred creds key = cred creds' key) as Hk; [|by apply Hk].
  clear keys. intros keys. induction keys as [|k keys IH]; intros H key; [by intros ?%elem_of_nil|]. cbn [foldr] in H.
  assert (forall p x y, p +:+ x = p +:+ y -> x = y) as Hp.
  { intros p x y. induction p as [|z p IHp]; [done|]. intros [= E]. by apply IHp. }
  apply Hp, Hp in H. apply split_at_nul in H as [Hc H]; [|done..].
  intros [->|Hin]%elem_of_cons; [done|]. by apply IH.
Qed.

Lemma cred_insert creds k v k' : cred (<[k := v]> creds) k' = if decide (k = k') then v else cred creds k'.
Proof. unfold cred. rewrite lookup_insert. by case_decide. Qed.

(** The credentials of a service account. *)
Lemma required_credentials host ca token : host_CA host = Some ca -> host_Token host = Some token -> ca ≠ "" ->
  TrimSpace token ≠ "" -> exists creds, getRequiredClusterCredentials host = Ok creds /\
    cred creds AnnotationCredentialsCA = EncodeToString ca /\ cred creds AnnotationCredentialsToken = TrimSpace token.
Proof.
  intros Hca Ht Hne Hnt. unfold getRequiredClusterCredentials. rewrite Hca, Ht.
  set (creds := <[AnnotationCredentialsToken := _]> _).
  assert (cred creds AnnotationCredentialsCA = EncodeToString ca /\ cred creds AnnotationCredentialsToken = TrimSpace token) as [E1 E2].
  { unfold creds. rewrite !cred_insert. split; reflexivity. }
  assert (credentialsComplete creds = true) as ->; [|by exists creds].
  unfold credentialsComplete. rewrite E1, E2, (proj2 (String.eqb_neq _ _) Hnt).
  destruct (String.eqb_spec (EncodeToString ca) "") as [E|E]; [|done].
  pose proof (DecodeString_EncodeToString ca) as Hd. rewrite E in Hd. injection Hd as <-. done.
Qed.

Lemma publish_annotation site c creds key v : cred creds key = v -> v ≠ "" -> key ≠ AnnotationCredentialsHash ->
  annotation (publish sha256_hex site c creds) key = v.
Proof.
  intros Hv Hne Hk. unfold publish, annotation, with_annotations, with_access. cbn [mc_Access mc_Annotations].
  rewrite lookup_insert_ne by done. rewrite set_all_union. unfold cred in Hv.
  destruct (creds !! key) as [x|] eqn:E; simpl in Hv; [|by subst]. by rewrite (lookup_union_Some_l _ _ _ _ E).
Qed.

Lemma publish_hash site c creds :
  annotation (publish sha256_hex site c creds) AnnotationCredentialsHash = credentialsHash sha256_hex creds.
Proof. unfold publish, annotation, with_annotations, with_access. cbn [mc_Access mc_Annotations]. by rewrite lookup_insert_eq. Qed.


(** Publishing settles: once the controller has applied what was published, the agent
    sees its credentials as published and does not publish them again, and the
    controller sees none to apply. *)
Theorem publishing_settles opts host creds c site secretName now local h h1 :
  getRequiredClusterCredentials host = Ok creds ->
  let applied := applied_cluster (publish sha256_hex site c creds) secretName (credentialsHash sha256_hex creds) in
  ch_Get (opt_ClusterName opts) h = (h1, Ok applied) ->
  hasCredentials applied = false /\
  forall AH : AgentHub HH, sendHeartbeat sha256_hex opts host now local h =
    (let '(rs, ns) := match local with
                      | Some (nodes, pods, nodes') => (collectResourceSummary nodes pods, collectNodeSummary nodes')
                      | None => (None, None)
                      end in
     let '(h2, r) := ah_StatusUpdate (with_heartbeat applied now rs ns) h1 in
     match r with
     | Ok _ => Ret (h2, Ok tt)
     | Err _ => check (ch_Update (with_heartbeat applied now rs ns)) h2
     end).
Proof.
  intros Hr. cbv zeta. set (applied := applied_cluster _ _ _). intros Hg.
  assert (hasCredentials applied = false /\ annotation applied AnnotationCredentialsHash = credentialsHash sha256_hex creds) as [Hc Hh].
  { destruct (applied_cluster_parts (publish sha256_hex site c creds) secretName (credentialsHash sha256_hex creds))
      as (P1 & _ & _ & _ & P5 & _). split; [exact P1|]. rewrite <- (publish_hash site c creds). unfold annotation.
    rewrite <- P5; [done| |done]. unfold published_keys. set_solver. }
  split; [done|]. intros AH.
  assert (published sha256_hex applied creds = true) as Hp by (unfold published; rewrite Hh; apply String.eqb_refl).
  assert (refresh_credentials sha256_hex opts host applied h1 = Ret (h1, Ok applied)) as Href.
  { unfold refresh_credentials. destruct (String.eqb (opt_HubURL opts) ""); [done|]. rewrite Hr.
    rewrite (action_bind_eq _ _ h1 h1 creds eq_refl). by rewrite Hp. }
  assert (returns (ch_Get (opt_ClusterName opts)) h = Ret (h1, Ok applied)) as Hget by (unfold returns; by rewrite Hg).
  unfold sendHeartbeat. rewrite (action_bind_eq _ _ _ _ _ Hget), (action_bind_eq _ _ _ _ _ Href).
  destruct local as [[[nodes pods] nodes']|]; unfold call, mbind, action_bind;
    by destruct (ah_StatusUpdate _ h1) as [h2 [x|e]].
Qed.
End properties.

(** *** Summaries *)

Section summaries.
Context `{G : GoRuntime, !GoRuntimeLaws G, K : Kubernetes, KL : !KubernetesLaws K}.
Implicit Types (m total : gmap string Quantity) (nodes : list Node) (pods : list Pod).

Lemma add_resources_amount site total m name : amount (add_resources site total m) name = amount total name + amount m name.
Proof.
  unfold add_resources, amount, rl_get.
  rewrite (range_pointwise add_quantity
    (fun old q => Some (match old with Some existing => qty_Add existing q | None => q end))).
  - destruct (m !! name) as [q|], (total !! name) as [t|]; simpl; rewrite ?amt_Add, ?amt_zero; lia.
  - intros t k q k'. unfold add_quantity. cbn [fst snd]. destruct (decide (k = k')) as [->|Hne];
      [by rewrite lookup_insert_eq|by rewrite lookup_insert_ne].
Qed.

(** Summing up lists one after the other. *)
Lemma foldl_amount {X} (f : gmap string Quantity -> X -> gmap string Quantity) (g : X -> Z) l total name :
  (forall t x, amount (f t x) name = amount t name + g x) ->
  amount (foldl f total l) name = amount total name + sumZ g l.
Proof.
  intros Hf. revert total; induction l as [|x l IH]; intros total; [simpl; lia|].
  cbn [foldl]. rewrite IH, Hf, sumZ_cons. lia.
Qed.

(** The requests of a pod, or nothing for one that has ended. *)
Definition pod_requests (name : string) (pod : Pod) : Z :=
  if counted_pod pod then sumZ (fun c => amount (Requests c) name) (pod_Containers pod) else 0.

(** An agent reports what its cluster has: for every resource the allocatable amount
    is the sum over the nodes, the allocated amount the sum of the requests of the pods
    that run or wait, and nothing is reported as allocating. *)
Theorem collectResourceSummary_sums nodes pods : nodes ≠ [] ->
  exists s, collectResourceSummary (Ok nodes) (Ok pods) = Some [s] /\ Allocating s = ∅ /\
    forall name, amount (Allocatable s) name = sumZ (fun node => amount (node_Allocatable node) name) nodes /\
      amount (Allocated s) name = sumZ (pod_requests name) pods.
Proof.
  intros Hn. destruct nodes as [|node nodes]; [done|]. cbn [collectResourceSummary]. eexists. split; [done|].
  split; [done|]. intros name. cbn [Allocatable Allocated]. split.
  - rewrite (foldl_amount _ (fun node => amount (node_Allocatable node) name)), amount_empty; [lia|].
    intros t x. apply add_resources_amount.
  - rewrite (foldl_amount _ (pod_requests name)), amount_empty; [lia|]. intros t pod. unfold pod_requests.
    destruct (counted_pod pod); [|lia]. apply foldl_amount. intros t' c. apply add_resources_amount.
Qed.
End summaries.

(** ** The properties at a concrete host *)

#[export] Instance sample_agent_hub : @AgentHub sample_kubernetes sample_errors sample_chub := {|
  ah_Create c h := (mkHubObjects (<[mc_Name c := c]> (ho_clusters h)) (ho_secrets h), None);
  ah_Patch base c h := (mkHubObjects (<[mc_Name c := c]> (ho_clusters h)) (ho_secrets h), Ok c);
  ah_StatusUpdate c h := (mkHubObjects (<[mc_Name c := c]> (ho_clusters h)) (ho_secrets h), Ok c);
|}.

Definition no_digest (s : string) : string := s.
Definition token_host : Host := mkHost (Some "ca") (Some "t ") "10.0.0.1" "443".
Definition edge_options : AgentOptions := mkAgentOptions "https://hub" "https://hub:5443" "e" "" "/token" "/hub-ca.crt" "/tunnel-ca.crt" (60 * 10 ^ 9).


Definition only_token : gmap string string := {[ AnnotationCredentialsToken := "t" ]}.
Definition empty_ca : gmap string string := <[AnnotationCredentialsCA := ""]> only_token.

Lemma credentials_preimage_injective_witness : cred only_token AnnotationCredentialsToken = cred empty_ca AnnotationCredentialsToken.
Proof.
  assert (no_nul "") as H0 by (unfold no_nul; simpl; set_solver).
  assert (no_nul "t") as Ht by (unfold no_nul; simpl; set_solver).
  assert (forall key, no_nul (cred only_token key)) as H1.
  { intros key. unfold cred, only_token. destruct (decide (key = AnnotationCredentialsToken)) as [->|Hne];
      [by rewrite lookup_singleton_eq|by rewrite lookup_singleton_ne]. }
  apply (credentials_preimage_injective only_token empty_ca); [exact H1| | |].
  - intros key. unfold empty_ca. rewrite cred_insert. case_decide; [exact H0|apply H1].
  - vm_compute. reflexivity.
  - apply (bool_decide_eq_true_1 (AnnotationCredentialsToken ∈ credential_keys)). vm_compute. reflexivity.
Defined.

(** The credentials of [token_host] after one round. *)
Definition token_creds : gmap string string := unwrap ∅ (getRequiredClusterCredentials token_host).
Definition settled_cluster : ManagedCluster :=
  applied_cluster (publish no_digest 106 pending_edge token_creds) "cluster-creds-e" (credentialsHash no_digest token_creds).
Definition settled_hub : @chub _ _ sample_chub := mkHubObjects {[ "e" := settled_cluster ]} ∅.

Lemma publishing_settles_witness : hasCredentials settled_cluster = false /\
  succeeded (sendHeartbeat no_digest edge_options token_host 7 None settled_hub) = true.
Proof.
  destruct (publishing_settles no_digest edge_options token_host token_creds pending_edge 106 "cluster-creds-e" 7 None
    settled_hub settled_hub) as [Hc Hs].
  - vm_compute. reflexivity.
  - reflexivity.
  - split; [exact Hc|]. rewrite (Hs sample_agent_hub). reflexivity.
Defined.

Lemma collectResourceSummary_sums_witness : exists s,
  collectResourceSummary (Ok [mkNode {[ "cpu" := 4 ]} []; mkNode {[ "cpu" := 3 ]} []])
    (Ok [mkPod "Pending" [mkContainer {[ "cpu" := 2 ]}]; mkPod "Failed" [mkContainer {[ "cpu" := 9 ]}]]) = Some [s] /\
  amount (Allocatable s) "cpu" = 7 /\ amount (Allocated s) "cpu" = 2.
Proof.
  destruct (collectResourceSummary_sums [mkNode {[ "cpu" := 4 ]} []; mkNode {[ "cpu" := 3 ]} []]
    [mkPod "Pending" [mkContainer {[ "cpu" := 2 ]}]; mkPod "Failed" [mkContainer {[ "cpu" := 9 ]}]])
    as (s & Hs & _ & Hsum); [discriminate|].
  exists s. split; [exact Hs|]. destruct (Hsum "cpu") as [-> ->]. split; vm_compute; reflexivity.
Defined.
