(* ===== verification/EngineTypes.v ===== *)
(** * The engine's objects as other programs see them

    The specs and statuses of Applications and Workspaces the way the API server of
    the portal (src/apiserver) and the workspace controller handle them: here a nil
    slice and an empty one are different values, since [reflect.DeepEqual] tells them
    apart.  [encoding/json] and [apiequality.Semantic] are classes. *)

From S2P Require Import Prelude Api.

(** ** Slices, maps and codecs *)

(** [None] is the nil slice. *)
Definition slice (A : Type) : Type := option (list A).
Definition elems {A} (s : slice A) : list A := default [] s.

(** [out := make([]B, len(in)); for i := range in { out[i] = f(in[i]) }] *)
Definition make_map {A B} (f : A -> B) (s : slice A) : slice B := Some (f <$> elems s).
(** [var out []B; for _, x := range in { out = append(out, f(x)) }] *)
Definition append_map {A B} (f : A -> B) (s : slice A) : slice B :=
  match elems s with [] => None | l => Some (f <$> l) end.

Definition gomap : Type := option (gmap string string).
Definition entries (m : gomap) : gmap string string := default ∅ m.

(** Decoding an encoded value: fields with [omitempty] come back nil when they were empty. *)
Definition nil_if_empty {A} (s : slice A) : slice A := match elems s with [] => None | l => Some l end.
Definition nil_map (m : gomap) : gomap := if decide (entries m = ∅) then None else m.

Lemma elems_make_map {A B} (f : A -> B) s : elems (make_map f s) = f <$> elems s.
Proof. done. Qed.
Lemma elems_append_map {A B} (f : A -> B) s : elems (append_map f s) = f <$> elems s.
Proof. unfold append_map. by destruct (elems s). Qed.

(** [apiequality.Semantic.DeepEqual]: nil and empty slices and maps are equal. *)
Class Semantic (A : Type) := semantic_eq : A -> A -> bool.

(** [json.Marshal] and [json.Unmarshal] into a zero value, for a type; [Left] is what a
    failed [Unmarshal] has filled in. *)
Class Json (A : Type) := { Marshal : A -> res string; Unmarshal : string -> res A; Left : string -> A }.
(** [_ = json.Unmarshal(raw, &v)] *)
Definition Decode {A} `{Json A} (raw : string) : A := unwrap (Left raw) (Unmarshal raw).

(** What has been decoded can be encoded, to no empty text, and decoded again. *)
Class JsonLaws {A} (J : Json A) `{Semantic A} : Prop :=
  Marshal_decoded raw v : Unmarshal raw = Ok v -> exists raw' v', Marshal v = Ok raw' /\
    String.eqb raw' "" = false /\ Unmarshal raw' = Ok v' /\ semantic_eq v v' = true.

Definition option_eq {A} (eq : A -> A -> bool) (x y : option A) : bool :=
  match x, y with Some x, Some y => eq x y | None, None => true | _, _ => false end.
Fixpoint list_eq {A} (eq : A -> A -> bool) (l k : list A) : bool :=
  match l, k with
  | [], [] => true
  | x :: l, y :: k => eq x y && list_eq eq l k
  | _, _ => false
  end.

#[export] Instance semantic_string : Semantic string := String.eqb.
#[export] Instance semantic_Z : Semantic Z := Z.eqb.
#[export] Instance semantic_bool : Semantic bool := Bool.eqb.
#[export] Instance semantic_pointer {A} `{Semantic A} : Semantic (option A) | 2 := option_eq semantic_eq.
#[export] Instance semantic_slice {A} `{Semantic A} : Semantic (slice A) | 1 := fun s t =>
  list_eq semantic_eq (elems s) (elems t).
#[export] Instance semantic_map : Semantic gomap | 0 := fun m n => bool_decide (entries m = entries n).

(** What a semantic comparison promises. *)
Class SemanticLaws {A} (S : Semantic A) : Prop := semantic_eq_refl : forall x : A, semantic_eq x x = true.

Lemma list_eq_refl {A} (eq : A -> A -> bool) l : (forall x, x ∈ l -> eq x x = true) -> list_eq eq l l = true.
Proof.
  induction l as [|x l IH]; intros H; [done|]. simpl. rewrite (H x) by left. apply IH. intros y Hy. apply H. by right.
Qed.
Lemma option_eq_refl {A} (eq : A -> A -> bool) x : (forall y, x = Some y -> eq y y = true) -> option_eq eq x x = true.
Proof. destruct x; simpl; auto. Qed.

#[export] Instance semantic_string_laws : SemanticLaws semantic_string.
Proof. intros x. apply String.eqb_refl. Qed.
#[export] Instance semantic_Z_laws : SemanticLaws semantic_Z.
Proof. intros x. apply Z.eqb_refl. Qed.
#[export] Instance semantic_bool_laws : SemanticLaws semantic_bool.
Proof. by intros []. Qed.
#[export] Instance semantic_pointer_laws {A} (S : Semantic A) : SemanticLaws S -> SemanticLaws (@semantic_pointer A S).
Proof. intros H x. apply option_eq_refl. intros y _. apply H. Qed.
#[export] Instance semantic_slice_laws {A} (S : Semantic A) : SemanticLaws S -> SemanticLaws (@semantic_slice A S).
Proof. intros H x. apply list_eq_refl. intros y _. apply H. Qed.
#[export] Instance semantic_map_laws : SemanticLaws semantic_map.
Proof. intros x. by apply bool_decide_eq_true_2. Qed.

(** ** k8s.io/apimachinery and k8s.io/api/core/v1 *)

Record LabelSelectorRequirement := mkRequirement {
  lsr_Key : string; lsr_Operator : string; lsr_Values : slice string }.
Record LabelSelector := mkSelector {
  MatchLabels : gomap; ls_MatchExpressions : slice LabelSelectorRequirement }.

#[export] Instance LabelSelectorRequirement_eq_dec : EqDecision LabelSelectorRequirement.
Proof. solve_decision. Defined.
#[export] Instance LabelSelector_eq_dec : EqDecision LabelSelector.
Proof. solve_decision. Defined.
#[export] Instance JobAttributes_eq_dec : EqDecision JobAttributes.
Proof. solve_decision. Defined.
#[export] Instance WorkloadGVK_eq_dec : EqDecision WorkloadGVK.
Proof. solve_decision. Defined.
#[export] Instance IntOrString_eq_dec : EqDecision IntOrString.
Proof. solve_decision. Defined.
#[export] Instance ResiliencyPolicy_eq_dec : EqDecision ResiliencyPolicy.
Proof. solve_decision. Defined.

#[export] Instance semantic_requirement : Semantic LabelSelectorRequirement := fun x y =>
  semantic_eq (lsr_Key x) (lsr_Key y) && semantic_eq (lsr_Operator x) (lsr_Operator y) &&
  semantic_eq (lsr_Values x) (lsr_Values y).
#[export] Instance semantic_selector : Semantic LabelSelector := fun x y =>
  semantic_eq (MatchLabels x) (MatchLabels y) && semantic_eq (ls_MatchExpressions x) (ls_MatchExpressions y).

Record SecretKeySelector := mkSecretKey { sks_Name : string; sks_Key : string; sks_Optional : option bool }.
#[export] Instance SecretKeySelector_eq_dec : EqDecision SecretKeySelector.
Proof. solve_decision. Defined.

(** A toleration with all its fields. *)
Record ClusterToleration := mkClusterToleration { ct_Toleration : Toleration; TolerationSeconds : option Z }.
#[export] Instance Toleration_eq_dec : EqDecision Toleration.
Proof. solve_decision. Defined.
#[export] Instance ClusterToleration_eq_dec : EqDecision ClusterToleration.
Proof. solve_decision. Defined.

(** Values that are passed on without being read, and the fields of a container, a
    variable's source and a pod template that the portal's API does not have, with the
    zero values of these. *)
Class EngineTypes := {
  Affinity : Type; Rollout : Type; Resources : Type; Quota : Type; LimitRange : Type;
  SourceRest : Type; ContainerRest : Type; PodRest : Type;
  no_source : SourceRest; no_container : ContainerRest; no_pod : PodRest;
  affinity_eq_dec :: EqDecision Affinity; rollout_eq_dec :: EqDecision Rollout;
  resources_eq_dec :: EqDecision Resources; quota_eq_dec :: EqDecision Quota; limits_eq_dec :: EqDecision LimitRange;
  source_eq_dec :: EqDecision SourceRest;
  affinity_semantic :: Semantic Affinity; rollout_semantic :: Semantic Rollout; resources_semantic :: Semantic Resources;
  source_semantic :: Semantic SourceRest; container_semantic :: Semantic ContainerRest; pod_semantic :: Semantic PodRest;
  affinity_json :: Json Affinity; rollout_json :: Json Rollout; resources_json :: Json Resources;
}.

Section types.
Context `{EngineTypes}.

(** Of an EnvVarSource, the SecretKeyRef and the other sources: the reference to a
    config map, a field or a resource field, which are nil in [no_source]. *)
Record EnvVarSource := mkSource { SecretKeyRef : option SecretKeySelector; other_source : SourceRest }.
Record EnvVar := mkEnvVar { ev_Name : string; ev_Value : string; ev_ValueFrom : option EnvVarSource }.

Record Container := mkContainer {
  c_Name : string; c_Image : string; c_Command : slice string; c_Args : slice string; c_Env : slice EnvVar;
  other_container : ContainerRest }.

(** The labels, the containers, and the rest of metadata and spec. *)
Record PodTemplateSpec := mkPodTemplate { pt_Labels : gomap; pt_Containers : slice Container; other_pod : PodRest }.

(** ** The engine's API types *)

Record PolicyOverride := mkOverride {
  ov_ClusterSelector : option LabelSelector; ov_Image : string; ov_Env : slice EnvVar;
  ov_Resources : option Resources; ov_Command : slice string; ov_Args : slice string }.

Record ApplicationSpec := mkAppSpec {
  Workload : WorkloadGVK;
  Selector : option LabelSelector;
  Replicas : option Z;
  Template : string;                        (* the bytes of RawExtension.Raw *)
  Schedule : string;
  Suspend : option bool;
  JobAttrs : option JobAttributes;
  ClusterAffinity : option Affinity;
  ClusterTolerations : slice ClusterToleration;
  Overrides : slice PolicyOverride;
  Resiliency : option ResiliencyPolicy;
  RolloutStrategy : option Rollout }.

Record WorkspaceConstraints := mkConstraints { wc_Quota : option Quota; wc_LimitRange : option LimitRange }.
Record WorkspaceSpec := mkWorkspaceSpec {
  ws_Name : string; ws_ClusterSelector : option LabelSelector; ws_ResourceConstraints : option WorkspaceConstraints }.

Record ClusterError := mkClusterError { ce_Name : string; ce_Message : string; ce_LastTransitionTime : Z }.
Record WorkspaceStatus := mkWorkspaceStatus {
  wst_Conditions : list Condition; wst_AppliedClusters : slice string; wst_FailedClusters : slice ClusterError }.

#[export] Instance EnvVarSource_eq_dec : EqDecision EnvVarSource.
Proof. solve_decision. Defined.
#[export] Instance EnvVar_eq_dec : EqDecision EnvVar.
Proof. solve_decision. Defined.
#[export] Instance PolicyOverride_eq_dec : EqDecision PolicyOverride.
Proof. solve_decision. Defined.
#[export] Instance ApplicationSpec_eq_dec : EqDecision ApplicationSpec.
Proof. solve_decision. Defined.
#[export] Instance WorkspaceConstraints_eq_dec : EqDecision WorkspaceConstraints.
Proof. solve_decision. Defined.
#[export] Instance WorkspaceSpec_eq_dec : EqDecision WorkspaceSpec.
Proof. solve_decision. Defined.

(** ** Semantic equality *)

#[export] Instance semantic_job : Semantic JobAttributes := fun x y => bool_decide (x = y).
#[export] Instance semantic_workload : Semantic WorkloadGVK := fun x y => bool_decide (x = y).
#[export] Instance semantic_resiliency : Semantic ResiliencyPolicy := fun x y => bool_decide (x = y).
#[export] Instance semantic_toleration : Semantic ClusterToleration := fun x y => bool_decide (x = y).
#[export] Instance semantic_secret_key : Semantic SecretKeySelector := fun x y => bool_decide (x = y).

#[export] Instance semantic_source : Semantic EnvVarSource := fun x y =>
  semantic_eq (SecretKeyRef x) (SecretKeyRef y) && semantic_eq (other_source x) (other_source y).
#[export] Instance semantic_env : Semantic EnvVar := fun x y =>
  semantic_eq (ev_Name x) (ev_Name y) && semantic_eq (ev_Value x) (ev_Value y) &&
  semantic_eq (ev_ValueFrom x) (ev_ValueFrom y).
#[export] Instance semantic_container : Semantic Container := fun x y =>
  semantic_eq (c_Name x) (c_Name y) && semantic_eq (c_Image x) (c_Image y) && semantic_eq (c_Command x) (c_Command y) &&
  semantic_eq (c_Args x) (c_Args y) && semantic_eq (c_Env x) (c_Env y) && semantic_eq (other_container x) (other_container y).
#[export] Instance semantic_template : Semantic PodTemplateSpec := fun x y =>
  semantic_eq (pt_Labels x) (pt_Labels y) && semantic_eq (pt_Containers x) (pt_Containers y) &&
  semantic_eq (other_pod x) (other_pod y).
#[export] Instance semantic_override : Semantic PolicyOverride := fun x y =>
  semantic_eq (ov_ClusterSelector x) (ov_ClusterSelector y) && semantic_eq (ov_Image x) (ov_Image y) &&
  semantic_eq (ov_Env x) (ov_Env y) && semantic_eq (ov_Resources x) (ov_Resources y) &&
  semantic_eq (ov_Command x) (ov_Command y) && semantic_eq (ov_Args x) (ov_Args y).

(** Two specs without their templates. *)
Definition semantic_spec (x y : ApplicationSpec) : bool :=
  semantic_eq (Workload x) (Workload y) && semantic_eq (Selector x) (Selector y) &&
  semantic_eq (Replicas x) (Replicas y) && semantic_eq (Schedule x) (Schedule y) &&
  semantic_eq (Suspend x) (Suspend y) && semantic_eq (JobAttrs x) (JobAttrs y) &&
  semantic_eq (ClusterAffinity x) (ClusterAffinity y) && semantic_eq (ClusterTolerations x) (ClusterTolerations y) &&
  semantic_eq (Overrides x) (Overrides y) && semantic_eq (Resiliency x) (Resiliency y) &&
  semantic_eq (RolloutStrategy x) (RolloutStrategy y).
End types.
