(* ===== verification/Codec.v ===== *)
(** * A concrete codec

    [encoding/json] is a parameter of the development, with its laws; this file has a
    codec that satisfies them, for the witnesses.  A value becomes a list of tokens, and
    the tokens one text in which every character is marked. *)

From Stdlib Require Import Ascii.
From S2P Require Import Prelude Api EngineTypes.

(** Values as tokens. *)
Class Tokens (A : Type) := { put : A -> list string; get : list string -> option (A * list string) }.
Class TokensLaws {A} (T : Tokens A) : Prop := get_put (a : A) rest : get (put a ++ rest) = Some (a, rest).

(** ** Tokens as one text *)

Fixpoint mark (s tail : string) : string :=
  match s with "" => String ";"%char tail | String c s => String "c"%char (String c (mark s tail)) end.
Definition join (l : list string) : string := foldr mark "" l.

(** [acc] is the token that is being read. *)
Fixpoint split_at (s : string) : option (list string) :=
  match s with
  | "" => Some []
  | String k rest =>
      if Ascii.eqb k ";"%char then (l ← split_at rest; Some ("" :: l))
      else match rest with
           | "" => None
           | String c rest => l ← split_at rest; match l with t :: l => Some (String c t :: l) | [] => None end
           end
  end.

Lemma split_mark t tail l : split_at tail = Some l -> split_at (mark t tail) = Some (t :: l).
Proof. intros Ht. induction t as [|c t IH]; cbn [mark split_at]; [by rewrite Ht|]. by rewrite IH. Qed.
Lemma split_join l : split_at (join l) = Some l.
Proof. induction l as [|t l IH]; [done|]. by apply split_mark. Qed.

(** ** The types *)

#[export] Instance tokens_string : Tokens string := {|
  put s := [s]; get l := match l with s :: l => Some (s, l) | [] => None end |}.
#[export] Instance tokens_unit : Tokens () := {| put _ := []; get l := Some (tt, l) |}.
#[export] Instance tokens_pair {A B} `{Tokens A, Tokens B} : Tokens (A * B) := {|
  put p := put p.1 ++ put p.2;
  get l := ('(a, l) ← get l; '(b, l) ← get l; Some ((a, b), l)) |}.
#[export] Instance tokens_option {A} `{Tokens A} : Tokens (option A) := {|
  put o := match o with Some a => "s" :: put a | None => ["n"] end;
  get l := match l with
           | t :: l => if String.eqb t "s" then ('(a, l) ← get l; Some (Some a, l)) else Some (None, l)
           | [] => None
           end |}.

Fixpoint get_list {A} `{Tokens A} (fuel : nat) (l : list string) : option (list A * list string) :=
  match fuel, l with
  | S fuel, t :: l =>
      if String.eqb t "," then ('(a, l) ← get l; '(r, l) ← get_list fuel l; Some (a :: r, l)) else Some ([], l)
  | _, _ => None
  end.
#[export] Instance tokens_list {A} `{Tokens A} : Tokens (list A) := {|
  put r := foldr (fun a out => "," :: put a ++ out) ["."] r;
  get l := get_list (length l) l |}.

(** A type that is read through another one. *)
Definition tokens_via {A B} `{Tokens B} (to : A -> B) (from : B -> A) : Tokens A := {|
  put a := put (to a);
  get l := ('(b, l) ← get l; Some (from b, l)) |}.

#[export] Instance tokens_bool : Tokens bool := tokens_via (fun b : bool => if b then "t" else "f") (fun s => String.eqb s "t").
Fixpoint digits (p : positive) : string :=
  match p with xH => "1" | xO p => String "0"%char (digits p) | xI p => String "i"%char (digits p) end.
Fixpoint undigits (s : string) : positive :=
  match s with
  | String c rest => if Ascii.eqb c "0"%char then xO (undigits rest)
                     else if Ascii.eqb c "i"%char then xI (undigits rest) else xH
  | "" => xH
  end.
Lemma undigits_digits p : undigits (digits p) = p.
Proof. induction p as [p IH|p IH|]; cbn; [by rewrite IH..|done]. Qed.
#[export] Instance tokens_Z : Tokens Z :=
  tokens_via (fun z => match z with Z0 => "" | Zpos p => String "+"%char (digits p) | Zneg p => String "-"%char (digits p) end)
    (fun s => match s with "" => 0 | String c s => if Ascii.eqb c "+"%char then Zpos (undigits s) else Zneg (undigits s) end).
#[export] Instance tokens_map : Tokens (gmap string string) :=
  tokens_via (B := list (string * string)) (fun m : gmap string string => map_to_list m) (fun l => list_to_map l).

#[export] Instance tokens_string_laws : TokensLaws tokens_string.
Proof. done. Qed.
#[export] Instance tokens_unit_laws : TokensLaws tokens_unit.
Proof. by intros []. Qed.
#[export] Instance tokens_pair_laws {A B} (TA : Tokens A) (TB : Tokens B) :
  TokensLaws TA -> TokensLaws TB -> TokensLaws (@tokens_pair A B TA TB).
Proof. intros HA HB [a b] rest. cbn. rewrite <- app_assoc, get_put. cbn. by rewrite get_put. Qed.
#[export] Instance tokens_option_laws {A} (TA : Tokens A) : TokensLaws TA -> TokensLaws (@tokens_option A TA).
Proof. intros HA [a|] rest; cbn; [|done]. by rewrite get_put. Qed.
#[export] Instance tokens_list_laws {A} (TA : Tokens A) : TokensLaws TA -> TokensLaws (@tokens_list A TA).
Proof.
  intros HA r rest. cbn [put get tokens_list].
  enough (forall n, (length (foldr (fun a out => "," :: put a ++ out) ["."] r ++ rest) <= n)%nat ->
    get_list n (foldr (fun a out => "," :: put a ++ out) ["."] r ++ rest) = Some (r, rest)) as He by (by apply He).
  induction r as [|a r IH]; intros [|n]; cbn; try (intros; lia); [done|].
  intros Hn. rewrite <- app_assoc, get_put. cbn. rewrite IH; [done|]. rewrite !length_app in *. lia.
Qed.
Lemma tokens_via_laws {A B} (T : Tokens B) (to : A -> B) (from : B -> A) : TokensLaws T -> (forall a, from (to a) = a) ->
  TokensLaws (tokens_via to from).
Proof. intros HT Hof a rest. cbn. rewrite get_put. cbn. by rewrite Hof. Qed.
#[export] Instance tokens_bool_laws : TokensLaws tokens_bool.
Proof. apply tokens_via_laws; [apply _|]. by intros []. Qed.
#[export] Instance tokens_Z_laws : TokensLaws tokens_Z.
Proof. apply tokens_via_laws; [apply _|]. intros [|p|p]; cbn; by rewrite ?undigits_digits. Qed.
#[export] Instance tokens_map_laws : TokensLaws tokens_map.
Proof. apply tokens_via_laws; [apply _|]. intros m. apply list_to_map_to_list. Qed.

(** ** The codec *)

Definition parse {A} `{Tokens A} (s : string) : option A :=
  match split_at s ≫= get with Some (a, []) => Some a | _ => None end.
Definition tokens_json {A} `{Tokens A} (canon : A -> A) (zero : A) : Json A := {|
  Marshal a := Ok (join ("" :: put (canon a)));
  Unmarshal s := match s with
                 | "" => Err "unexpected end of JSON input"
                 | String _ s => match parse s with Some a => Ok a | None => Err "invalid character" end
                 end;
  Left _ := zero;
|}.

Lemma parse_join {A} (T : Tokens A) (a : A) : TokensLaws T -> parse (join (put a)) = Some a.
Proof. intros HT. unfold parse. rewrite split_join. cbn. rewrite <- (app_nil_r (put a)). by rewrite get_put. Qed.

Lemma tokens_round {A} (T : Tokens A) (canon : A -> A) zero (a : A) : TokensLaws T ->
  Unmarshal (Json := tokens_json canon zero) (join ("" :: put (canon a))) = Ok (canon a).
Proof. intros HT. cbn. by rewrite parse_join. Qed.

Lemma tokens_json_laws {A} (T : Tokens A) (S : Semantic A) (zero : A) : TokensLaws T -> SemanticLaws S ->
  JsonLaws (tokens_json id zero).
Proof.
  intros HT HS raw v _. exists (join ("" :: put v)), v. split_and!; [done|done| |apply HS].
  exact (tokens_round T id zero v HT).
Qed.
