(* ===== verification/EngineAdapter.v ===== *)
(** * The portal's requests and the engine's specs

    apiserver/pkg/dto/resources.go and apiserver/pkg/service/engine_adapter.go: the
    states a user may ask for, and their translation to the engine's specs and back.
    A [json.RawMessage] is a string, empty when it is absent. *)

From Stdlib Require Import Ascii.
From S2P Require Import Prelude Api EngineTypes Codec.

(** ** dto/resources.go *)

Module Dto.
Record LabelSelectorRequirement := mkRequirement { lsr_Key : string; lsr_Operator : string; lsr_Values : slice string }.
Record LabelSelector := mkSelector { MatchLabels : gomap; MatchExpressions : slice LabelSelectorRequirement }.

Record JobAttributes := mkJobAttributes {
  Completions : option Z; Parallelism : option Z; BackoffLimit : option Z;
  TTLSecondsAfterFinished : option Z; SuccessfulJobsHistoryLimit : option Z; FailedJobsHistoryLimit : option Z }.

Record Toleration := mkToleration {
  tol_Key : string; tol_Operator : string; tol_Value : string; tol_Effect : string; tol_Seconds : option Z }.

Record SecretKeyRef := mkSecretKeyRef { SecretName : string; sk_Key : string; sk_Optional : bool }.
Record EnvironmentVariable := mkEnv { env_Name : string; env_Value : string; ValueFrom : option SecretKeyRef }.

Record PolicyOverride := mkOverride {
  ov_ClusterSelector : option LabelSelector; ov_Image : string; ov_Env : slice EnvironmentVariable;
  ov_Resources : string; ov_Command : slice string; ov_Args : slice string }.

Record ResiliencyPolicy := mkResiliency { MinAvailable : string; MaxUnavailable : string }.

Record WorkloadRef := mkWorkload { APIVersion : string; Kind : string }.

Record Container := mkContainer {
  c_Name : string; c_Image : string; c_Command : slice string; c_Args : slice string; c_Env : slice EnvironmentVariable }.
Record PodTemplate := mkPodTemplate { Labels : gomap; Containers : slice Container }.

Record ApplicationDesired := mkApplication {
  Workload : WorkloadRef;
  Replicas : option Z;
  Template : PodTemplate;
  Schedule : string;
  Suspend : option bool;
  Selector : option LabelSelector;
  JobAttrs : option JobAttributes;
  ClusterAffinity : string;
  ClusterTolerations : slice Toleration;
  Overrides : slice PolicyOverride;
  Resiliency : option ResiliencyPolicy;
  RolloutStrategy : string }.

Record WorkspaceDesired := mkWorkspace {
  Namespace : string; ClusterMatchLabels : gomap; ClusterSelector : option LabelSelector; ResourceConstraints : string }.

Record DesiredState := mkDesired { Application : option ApplicationDesired; Workspace : option WorkspaceDesired }.

Record ClusterApplicationStatus := mkClusterStatus {
  cas_ClusterName : string; cas_Phase : string; cas_Replicas : Z; cas_ReadyReplicas : Z; cas_Message : string }.
Record ApplicationObserved := mkApplicationObserved {
  SchedulingPhase : string; HealthPhase : string; GlobalReplicas : Z; GlobalReadyReplicas : Z;
  Clusters : slice ClusterApplicationStatus }.
Record WorkspaceClusterError := mkClusterError { wce_Name : string; wce_Message : string; wce_LastTransitionTime : Z }.
Record WorkspaceObserved := mkWorkspaceObserved {
  Ready : bool; AppliedClusters : slice string; FailedClusters : slice WorkspaceClusterError }.
(** The versions of Kubernetes and of the agent, which the engine never sets, are left out. *)
Record ClusterObserved := mkClusterObserved {
  ConnectionMode : string; State : string; LastKeepAliveTime : option Z }.
Record ObservedState := mkObserved {
  ob_Application : option ApplicationObserved; ob_Workspace : option WorkspaceObserved; ob_Cluster : option ClusterObserved }.
End Dto.

(** The codecs of the values that cross the boundary.  [Marshal] of a value whose
    RawMessages are not JSON is an error. *)
Class AdapterJson `{EngineTypes} := {
  template_json :: Json PodTemplateSpec;
  dto_resiliency_json :: Json Dto.ResiliencyPolicy;
  resiliency_json :: Json ResiliencyPolicy;
  constraints_json :: Json WorkspaceConstraints;
}.

(** ** engine_adapter.go *)

Section adapter.
Context `{ET : EngineTypes, !AdapterJson}.

Definition requirement_to_engine (r : Dto.LabelSelectorRequirement) : LabelSelectorRequirement :=
  mkRequirement (Dto.lsr_Key r) (Dto.lsr_Operator r) (Dto.lsr_Values r).
Definition requirement_from_engine (r : LabelSelectorRequirement) : Dto.LabelSelectorRequirement :=
  Dto.mkRequirement (lsr_Key r) (lsr_Operator r) (lsr_Values r).

Definition selectorToEngine (sel : option Dto.LabelSelector) : option LabelSelector :=
  (fun s => mkSelector (Dto.MatchLabels s) (make_map requirement_to_engine (Dto.MatchExpressions s))) <$> sel.
Definition selectorFromEngine (sel : option LabelSelector) : option Dto.LabelSelector :=
  (fun s => Dto.mkSelector (MatchLabels s) (make_map requirement_from_engine (ls_MatchExpressions s))) <$> sel.

Definition env_to_engine (env : Dto.EnvironmentVariable) : EnvVar :=
  match Dto.ValueFrom env with
  | Some from =>
      let optional := if Dto.sk_Optional from then Some true else None in
      mkEnvVar (Dto.env_Name env) ""
        (Some (mkSource (Some (mkSecretKey (Dto.SecretName from) (Dto.sk_Key from) optional)) no_source))
  | None => mkEnvVar (Dto.env_Name env) (Dto.env_Value env) None
  end.
Definition envToEngine (envs : slice Dto.EnvironmentVariable) : slice EnvVar := make_map env_to_engine envs.

(** The references to a config map, a field or a resource field are in [other_source]. *)
Definition env_from_engine (env : EnvVar) : res Dto.EnvironmentVariable :=
  if negb (String.eqb (ev_Value env) "") then Err ("inline environment value " +:+ ev_Name env +:+ " is unsupported")
  else match ev_ValueFrom env with
       | Some (mkSource (Some ref) other) =>
           if decide (other = no_source) then
             Ok (Dto.mkEnv (ev_Name env) ""
                  (Some (Dto.mkSecretKeyRef (sks_Name ref) (sks_Key ref) (default false (sks_Optional ref)))))
           else Err ("environment " +:+ ev_Name env +:+ " must use secretKeyRef")
       | _ => Err ("environment " +:+ ev_Name env +:+ " must use secretKeyRef")
       end.

(** [out[i], err = f(in[i])] over a slice, the first error ends the loop. *)
Fixpoint map_res {A B} (f : A -> res B) (l : list A) : res (list B) :=
  match l with
  | [] => Ok []
  | x :: l => y ← f x; ys ← map_res f l; Ok (y :: ys)
  end.
Definition envFromEngine (envs : slice EnvVar) : res (slice Dto.EnvironmentVariable) :=
  out ← map_res env_from_engine (elems envs); Ok (Some out).

Definition container_to_engine (c : Dto.Container) : Container :=
  mkContainer (Dto.c_Name c) (Dto.c_Image c) (Dto.c_Command c) (Dto.c_Args c) (envToEngine (Dto.c_Env c)) no_container.
Definition podTemplateToEngine (t : Dto.PodTemplate) : PodTemplateSpec :=
  mkPodTemplate (Dto.Labels t) (make_map container_to_engine (Dto.Containers t)) no_pod.

Definition container_from_engine (c : Container) : res Dto.Container :=
  env ← envFromEngine (c_Env c); Ok (Dto.mkContainer (c_Name c) (c_Image c) (c_Command c) (c_Args c) env).
Definition podTemplateFromEngine (t : PodTemplateSpec) : res Dto.PodTemplate :=
  containers ← map_res container_from_engine (elems (pt_Containers t));
  let out := Dto.mkPodTemplate (pt_Labels t) (Some containers) in
  if semantic_eq t (podTemplateToEngine out) then Ok out
  else Err "PodTemplate contains fields outside the versioned API capability".

Definition job_to_engine (j : Dto.JobAttributes) : JobAttributes :=
  mkJobAttributes (Dto.Completions j) (Dto.Parallelism j) (Dto.BackoffLimit j) (Dto.TTLSecondsAfterFinished j)
    (Dto.SuccessfulJobsHistoryLimit j) (Dto.FailedJobsHistoryLimit j).
Definition job_from_engine (j : JobAttributes) : Dto.JobAttributes :=
  Dto.mkJobAttributes (Completions j) (Parallelism j) (BackoffLimit j) (TTLSecondsAfterFinished j)
    (SuccessfulJobsHistoryLimit j) (FailedJobsHistoryLimit j).

Definition toleration_to_engine (t : Dto.Toleration) : ClusterToleration :=
  mkClusterToleration (mkToleration (Dto.tol_Key t) (Dto.tol_Operator t) (Dto.tol_Value t) (Dto.tol_Effect t)) (Dto.tol_Seconds t).
Definition toleration_from_engine (t : ClusterToleration) : Dto.Toleration :=
  let tol := ct_Toleration t in
  Dto.mkToleration (tol_Key tol) (tol_Operator tol) (tol_Value tol) (tol_Effect tol) (TolerationSeconds t).

(** [if len(raw) > 0 { json.Unmarshal(raw, &v) }], with the error's prefix. *)
Definition decode_raw {A} `{Json A} (prefix raw : string) : res (option A) :=
  if String.eqb raw "" then Ok None
  else match Unmarshal raw with Ok v => Ok (Some v) | Err e => Err (prefix +:+ ": " +:+ e) end.
(** [if v != nil { raw, _ = json.Marshal(v) }] *)
Definition encode_raw {A} `{Json A} (v : option A) : string :=
  match v with Some v => unwrap "" (Marshal v) | None => "" end.

Definition override_to_engine (o : Dto.PolicyOverride) : res PolicyOverride :=
  resources ← decode_raw "override resources" (Dto.ov_Resources o);
  Ok (mkOverride (selectorToEngine (Dto.ov_ClusterSelector o)) (Dto.ov_Image o) (envToEngine (Dto.ov_Env o))
        resources (Dto.ov_Command o) (Dto.ov_Args o)).

(** A slice that is grown from nil. *)
Definition grown {A} (l : list A) : slice A := match l with [] => None | _ => Some l end.

Definition resiliency_to_engine (r : option Dto.ResiliencyPolicy) : res (option ResiliencyPolicy) :=
  match r with
  | None => Ok None
  | Some r =>
      match Unmarshal (unwrap "" (Marshal r)) with Ok p => Ok (Some p) | Err e => Err ("resiliency: " +:+ e) end
  end.

Definition applicationSpec (d : Dto.ApplicationDesired) : res ApplicationSpec :=
  raw ← Marshal (podTemplateToEngine (Dto.Template d));
  affinity ← decode_raw "clusterAffinity" (Dto.ClusterAffinity d);
  overrides ← map_res override_to_engine (elems (Dto.Overrides d));
  resiliency ← resiliency_to_engine (Dto.Resiliency d);
  rollout ← decode_raw "rolloutStrategy" (Dto.RolloutStrategy d);
  Ok (mkAppSpec (mkGVK (Dto.APIVersion (Dto.Workload d)) (Dto.Kind (Dto.Workload d))) (selectorToEngine (Dto.Selector d))
        (Dto.Replicas d) raw (Dto.Schedule d) (Dto.Suspend d) (job_to_engine <$> Dto.JobAttrs d) affinity
        (append_map toleration_to_engine (Dto.ClusterTolerations d)) (grown overrides) resiliency rollout).

Definition override_from_engine (o : PolicyOverride) : res Dto.PolicyOverride :=
  env ← envFromEngine (ov_Env o);
  Ok (Dto.mkOverride (selectorFromEngine (ov_ClusterSelector o)) (ov_Image o) env (encode_raw (ov_Resources o))
        (ov_Command o) (ov_Args o)).

Definition resiliency_from_engine (r : option ResiliencyPolicy) : option Dto.ResiliencyPolicy :=
  (fun r => Decode (unwrap "" (Marshal r))) <$> r.

Definition desired_of (spec : ApplicationSpec) (pod : Dto.PodTemplate) (overrides : list Dto.PolicyOverride)
    : Dto.ApplicationDesired :=
  Dto.mkApplication (Dto.mkWorkload (APIVersion (Workload spec)) (Kind (Workload spec))) (Replicas spec) pod
    (Schedule spec) (Suspend spec) (selectorFromEngine (Selector spec)) (job_from_engine <$> JobAttrs spec)
    (encode_raw (ClusterAffinity spec)) (append_map toleration_from_engine (ClusterTolerations spec))
    (grown overrides) (resiliency_from_engine (Resiliency spec)) (encode_raw (RolloutStrategy spec)).

(** The translation is undone and compared with what was translated. *)
Definition applicationDesired (spec : ApplicationSpec) : res Dto.ApplicationDesired :=
  template ← (Unmarshal (Template spec) : res PodTemplateSpec);
  pod ← podTemplateFromEngine template;
  overrides ← map_res override_from_engine (elems (Overrides spec));
  let out := desired_of spec pod overrides in
  rebuilt ← applicationSpec out;
  rebuiltTemplate ← (Unmarshal (Template rebuilt) : res PodTemplateSpec);
  if semantic_eq template rebuiltTemplate && semantic_spec spec rebuilt then Ok out
  else Err "ApplicationSpec contains fields outside the versioned API capability".

(** The error of the constraints' decoding is dropped. *)
Definition workspaceSpec (d : Dto.WorkspaceDesired) : WorkspaceSpec :=
  let selector := match selectorToEngine (Dto.ClusterSelector d) with
                  | Some s => Some s
                  | None => if decide (entries (Dto.ClusterMatchLabels d) = ∅) then None
                            else Some (mkSelector (Dto.ClusterMatchLabels d) None)
                  end in
  mkWorkspaceSpec (Dto.Namespace d) selector
    (if String.eqb (Dto.ResourceConstraints d) "" then None
     else Some (Decode (Dto.ResourceConstraints d))).

Definition workspaceDesired (spec : WorkspaceSpec) : Dto.WorkspaceDesired :=
  Dto.mkWorkspace (ws_Name spec) None (selectorFromEngine (ws_ClusterSelector spec)) (encode_raw (ws_ResourceConstraints spec)).

Definition applicationObserved (st : ApplicationStatus) : Dto.ApplicationObserved :=
  Dto.mkApplicationObserved (SchedulingPhase st) (HealthPhase st) (GlobalReplicas st) (GlobalReadyReplicas st)
    (Some ((fun c => Dto.mkClusterStatus (cs_ClusterName c) (cs_Phase c) (cs_Replicas c) (cs_ReadyReplicas c) (cs_Message c))
       <$> ClustersStatus st)).

Definition workspaceObserved (st : WorkspaceStatus) : Dto.WorkspaceObserved :=
  Dto.mkWorkspaceObserved
    (existsb (fun c => String.eqb (cond_Type c) "Ready" && String.eqb (cond_Status c) "True") (wst_Conditions st))
    (wst_AppliedClusters st)
    (make_map (fun c => Dto.mkClusterError (ce_Name c) (ce_Message c) (ce_LastTransitionTime c)) (wst_FailedClusters st)).

Definition clusterObserved `{Kubernetes} (c : ManagedCluster) : Dto.ClusterObserved :=
  Dto.mkClusterObserved (ConnectionMode (mc_Access c)) (State (mc_State c)) (LastKeepAliveTime (mc_State c)).
End adapter.

(** ** Properties *)

(** The fields that [omitempty] drops come back nil; that of the containers has none. *)
Definition canon_container `{EngineTypes} (c : Container) : Container :=
  mkContainer (c_Name c) (c_Image c) (nil_if_empty (c_Command c)) (nil_if_empty (c_Args c)) (nil_if_empty (c_Env c))
    (other_container c).
Definition canon_template `{EngineTypes} (t : PodTemplateSpec) : PodTemplateSpec :=
  mkPodTemplate (nil_map (pt_Labels t)) (match pt_Containers t with Some l => Some (canon_container <$> l) | None => None end) (other_pod t).

Class AdapterLaws `{ET : EngineTypes, !AdapterJson} : Prop := {
  source_refl :: SemanticLaws source_semantic;
  container_refl :: SemanticLaws container_semantic;
  pod_refl :: SemanticLaws pod_semantic;
  affinity_laws :: JsonLaws affinity_json;
  rollout_laws :: JsonLaws rollout_json;
  resources_laws :: JsonLaws resources_json;
  template_round t : other_pod t = no_pod -> (forall c, c ∈ elems (pt_Containers t) -> other_container c = no_container) ->
    exists raw, Marshal t = Ok raw /\ Unmarshal raw = Ok (canon_template t);
  (** An IntOrString is a number or a text on both sides. *)
  resiliency_round raw (p : ResiliencyPolicy) : Unmarshal raw = Ok p ->
    exists raw1 (r : Dto.ResiliencyPolicy) raw2, Marshal p = Ok raw1 /\ Unmarshal raw1 = Ok r /\
      Marshal r = Ok raw2 /\ Unmarshal raw2 = Ok p;
}.

Lemma map_res_fmap {A B} (f : A -> res B) (g : A -> B) l : (forall x, x ∈ l -> f x = Ok (g x)) -> map_res f l = Ok (g <$> l).
Proof.
  induction l as [|x l IH]; intros H; [done|]. cbn [map_res]. rewrite (H x) by left. cbn.
  rewrite IH; [done|]. intros y Hy. apply H. by right.
Qed.

Lemma map_res_Forall2 {A B} (f : A -> res B) l k : map_res f l = Ok k <-> Forall2 (fun x y => f x = Ok y) l k.
Proof.
  revert k; induction l as [|x l IH]; intros k; cbn [map_res].
  - split; [by intros [= <-]|]. by intros ->%Forall2_nil_inv_l.
  - rewrite res_bind_ok. setoid_rewrite res_bind_ok. split.
    + intros (y & Hy & ys & Hys & [= <-]). constructor; [done|]. by apply IH.
    + intros (y & ys & Hy & Hys & ->)%Forall2_cons_inv_l. exists y. split; [done|]. exists ys. split; [|done]. by apply IH.
Qed.

Lemma nil_if_empty_elems {A} (s : slice A) : elems (nil_if_empty s) = elems s.
Proof. unfold nil_if_empty. by destruct (elems s). Qed.
Lemma nil_if_empty_idemp {A} (s t : slice A) : elems s = elems t -> nil_if_empty s = nil_if_empty t.
Proof. unfold nil_if_empty. by intros ->. Qed.
Lemma entries_nil_map m : entries (nil_map m) = entries m.
Proof. unfold nil_map. case_decide as E; [by rewrite E|done]. Qed.
Lemma nil_map_idemp m : nil_map (nil_map m) = nil_map m.
Proof. unfold nil_map at 1. rewrite entries_nil_map. unfold nil_map. by case_decide. Qed.

Section semantic.
Context `{ET : EngineTypes, !AdapterJson, !AdapterLaws}.

(** Slices with equal elements are semantically equal. *)
Lemma slice_eq_elems {A} (S : Semantic A) (s t : slice A) : SemanticLaws S -> elems s = elems t ->
  @semantic_eq (slice A) semantic_slice s t = true.
Proof. intros Hr E. unfold semantic_eq, semantic_slice. rewrite E. apply list_eq_refl. intros x _. apply Hr. Qed.

#[export] Instance semantic_decided_laws {A} `{EqDecision A} : SemanticLaws (fun x y : A => bool_decide (x = y)).
Proof. intros x. by apply bool_decide_eq_true_2. Qed.
#[export] Instance semantic_requirement_laws : SemanticLaws semantic_requirement.
Proof. intros x. unfold semantic_eq, semantic_requirement. by rewrite !semantic_eq_refl. Qed.
#[export] Instance semantic_selector_laws : SemanticLaws semantic_selector.
Proof. intros x. unfold semantic_eq at 1, semantic_selector. by rewrite !semantic_eq_refl. Qed.
#[export] Instance semantic_source_laws : SemanticLaws semantic_source.
Proof. intros x. unfold semantic_eq at 1, semantic_source. by rewrite !semantic_eq_refl. Qed.
#[export] Instance semantic_env_laws : SemanticLaws semantic_env.
Proof. intros x. unfold semantic_eq at 1, semantic_env. by rewrite !semantic_eq_refl. Qed.
#[export] Instance semantic_container_laws : SemanticLaws semantic_container.
Proof. intros x. unfold semantic_eq at 1, semantic_container. by rewrite !semantic_eq_refl. Qed.
#[export] Instance semantic_template_laws : SemanticLaws semantic_template.
Proof. intros x. unfold semantic_eq at 1, semantic_template. by rewrite !semantic_eq_refl. Qed.
End semantic.

(** A variable that names a key of a Secret. *)
Definition by_reference (e : Dto.EnvironmentVariable) : Prop := is_Some (Dto.ValueFrom e).
Definition by_references (d : Dto.ApplicationDesired) : Prop :=
  (forall c, c ∈ elems (Dto.Containers (Dto.Template d)) -> Forall by_reference (elems (Dto.c_Env c))) /\
  (forall o, o ∈ elems (Dto.Overrides d) -> Forall by_reference (elems (Dto.ov_Env o))).

Definition drop_value (e : Dto.EnvironmentVariable) : Dto.EnvironmentVariable :=
  Dto.mkEnv (Dto.env_Name e) "" (Dto.ValueFrom e).
(** What is read back of a container and of a template. *)
Definition read_container (c : Dto.Container) : Dto.Container :=
  Dto.mkContainer (Dto.c_Name c) (Dto.c_Image c) (nil_if_empty (Dto.c_Command c)) (nil_if_empty (Dto.c_Args c))
    (Some (drop_value <$> elems (Dto.c_Env c))).
Definition read_template (t : Dto.PodTemplate) : Dto.PodTemplate :=
  Dto.mkPodTemplate (nil_map (Dto.Labels t)) (Some (read_container <$> elems (Dto.Containers t))).

Section round_trip.
Context `{ET : EngineTypes, !AdapterJson, !AdapterLaws}.

Lemma env_round e : by_reference e -> env_from_engine (env_to_engine e) = Ok (drop_value e).
Proof.
  intros [from Hf]. unfold env_to_engine, env_from_engine, drop_value. rewrite Hf. cbn. rewrite decide_True by done.
  destruct from as [name key []]; done.
Qed.

Lemma env_to_engine_drop e : by_reference e -> env_to_engine (drop_value e) = env_to_engine e.
Proof. intros [from Hf]. unfold env_to_engine, drop_value. cbn. by rewrite Hf. Qed.

Lemma envs_to_engine_drop l : Forall by_reference l -> env_to_engine <$> (drop_value <$> l) = env_to_engine <$> l.
Proof. induction 1 as [|e l He Hl IH]; [done|]. rewrite !fmap_cons, IH. by rewrite env_to_engine_drop. Qed.

Lemma envs_round s l : elems s = env_to_engine <$> l -> Forall by_reference l -> envFromEngine s = Ok (Some (drop_value <$> l)).
Proof.
  intros Hs Hl. unfold envFromEngine. rewrite Hs. clear Hs. enough (map_res env_from_engine (env_to_engine <$> l) = Ok (drop_value <$> l)) as -> by done.
  induction Hl as [|e l He Hl IH]; [done|]. rewrite !fmap_cons. cbn [map_res]. rewrite env_round by done. cbn. by rewrite IH.
Qed.

Lemma container_round c : Forall by_reference (elems (Dto.c_Env c)) ->
  container_from_engine (canon_container (container_to_engine c)) = Ok (read_container c).
Proof.
  intros Hc. unfold container_from_engine, canon_container, container_to_engine. cbn [c_Env c_Name c_Image c_Command c_Args].
  rewrite (envs_round _ (elems (Dto.c_Env c))); [done| |done]. by rewrite nil_if_empty_elems.
Qed.

(** Reading back loses nothing that is encoded. *)
Lemma canon_read_container c : Forall by_reference (elems (Dto.c_Env c)) ->
  canon_container (container_to_engine (read_container c)) = canon_container (container_to_engine c).
Proof.
  intros Hc. unfold canon_container, container_to_engine. cbn. f_equal; [apply nil_if_empty_idemp, nil_if_empty_elems..|].
  apply nil_if_empty_idemp. cbn. by apply envs_to_engine_drop.
Qed.

Lemma canon_read_template t : (forall c, c ∈ elems (Dto.Containers t) -> Forall by_reference (elems (Dto.c_Env c))) ->
  canon_template (podTemplateToEngine (read_template t)) = canon_template (podTemplateToEngine t).
Proof.
  intros Ht. unfold canon_template, podTemplateToEngine. cbn. rewrite nil_map_idemp. f_equal. f_equal.
  induction (elems (Dto.Containers t)) as [|c l IH]; [done|]. rewrite !fmap_cons. rewrite canon_read_container by (apply Ht; left).
  f_equal. apply IH. intros c' Hc'. apply Ht. by right.
Qed.

Lemma list_eq_fmap {A B} (eq : B -> B -> bool) (f g : A -> B) l :
  (forall x, x ∈ l -> eq (f x) (g x) = true) -> list_eq eq (f <$> l) (g <$> l) = true.
Proof.
  induction l as [|x l IH]; intros Hfg; [done|]. rewrite !fmap_cons. simpl. rewrite (Hfg x) by left.
  apply IH. intros y Hy. apply Hfg. by right.
Qed.

Lemma read_container_semantic c : Forall by_reference (elems (Dto.c_Env c)) ->
  semantic_eq (canon_container (container_to_engine c)) (container_to_engine (read_container c)) = true.
Proof.
  intros Hc. unfold semantic_eq at 1, semantic_container, canon_container, container_to_engine, envToEngine.
  cbn [c_Name c_Image c_Command c_Args c_Env other_container Dto.c_Name Dto.c_Image Dto.c_Command Dto.c_Args Dto.c_Env read_container].
  rewrite !semantic_eq_refl, andb_true_r. apply slice_eq_elems; [apply _|].
  rewrite nil_if_empty_elems. cbn. by rewrite envs_to_engine_drop.
Qed.

Lemma containers_from_engine l : (forall c, c ∈ l -> Forall by_reference (elems (Dto.c_Env c))) ->
  map_res container_from_engine (canon_container <$> (container_to_engine <$> l)) = Ok (read_container <$> l).
Proof.
  induction l as [|c l IH]; intros Hl; [done|]. rewrite !fmap_cons. cbn [map_res]. rewrite container_round by (apply Hl; left).
  cbn. rewrite IH; [done|]. intros c' Hc'. apply Hl. by right.
Qed.

Lemma read_template_semantic t : (forall c, c ∈ elems (Dto.Containers t) -> Forall by_reference (elems (Dto.c_Env c))) ->
  semantic_eq (canon_template (podTemplateToEngine t)) (podTemplateToEngine (read_template t)) = true.
Proof.
  intros Ht. unfold semantic_eq at 1, semantic_template.
  cbn [pt_Labels pt_Containers other_pod canon_template podTemplateToEngine read_template Dto.Labels Dto.Containers make_map].
  rewrite !semantic_eq_refl, andb_true_r. unfold semantic_eq, semantic_slice. cbn [andb].
  change (list_eq semantic_container (canon_container <$> (container_to_engine <$> elems (Dto.Containers t)))
    (container_to_engine <$> (read_container <$> elems (Dto.Containers t))) = true).
  rewrite <- !list_fmap_compose. apply list_eq_fmap. intros c Hc. apply read_container_semantic. by apply Ht.
Qed.

Lemma template_from_engine t : (forall c, c ∈ elems (Dto.Containers t) -> Forall by_reference (elems (Dto.c_Env c))) ->
  podTemplateFromEngine (canon_template (podTemplateToEngine t)) = Ok (read_template t).
Proof.
  intros Ht. unfold podTemplateFromEngine at 1.
  assert (elems (pt_Containers (canon_template (podTemplateToEngine t))) =
    canon_container <$> (container_to_engine <$> elems (Dto.Containers t))) as -> by done.
  rewrite containers_from_engine by done. cbn [mbind res_bind].
  change (Dto.mkPodTemplate _ _) with (read_template t). by rewrite read_template_semantic.
Qed.

Lemma decode_encode_raw {A} (J : Json A) (S : Semantic A) prefix raw v : JsonLaws J ->
  decode_raw prefix raw = Ok v -> exists v', decode_raw prefix (encode_raw v) = Ok v' /\ option_eq semantic_eq v v' = true.
Proof.
  intros HJ. unfold decode_raw at 1. destruct (String.eqb raw "") eqn:E.
  - intros [= <-]. by exists None.
  - destruct (Unmarshal raw) as [x|e] eqn:Hx; [|done]. intros [= <-].
    destruct (Marshal_decoded raw x Hx) as (raw' & x' & Hm & Hne & Hu & Hs). exists (Some x').
    unfold decode_raw, encode_raw. rewrite Hm. cbn [unwrap]. rewrite Hne, Hu. by split.
Qed.

Lemma selector_round (sel : option LabelSelector) :
  @semantic_eq (option LabelSelector) semantic_pointer sel (selectorToEngine (selectorFromEngine sel)) = true.
Proof.
  destruct sel as [[labels exprs]|]; [|done]. unfold semantic_eq, semantic_pointer, semantic_selector. cbn [option_eq selectorToEngine selectorFromEngine fmap option_fmap option_map].
  unfold semantic_eq at 1, semantic_selector. cbn [MatchLabels ls_MatchExpressions Dto.MatchLabels Dto.MatchExpressions].
  rewrite semantic_eq_refl. cbn [andb]. apply slice_eq_elems; [apply _|]. rewrite !elems_make_map, <- list_fmap_compose.
  symmetry. rewrite <- (list_fmap_id (elems exprs)) at 2. apply list_fmap_ext. by intros i [] _.
Qed.

Lemma override_round o eo : override_to_engine o = Ok eo -> Forall by_reference (elems (Dto.ov_Env o)) ->
  exists o' eo', override_from_engine eo = Ok o' /\ override_to_engine o' = Ok eo' /\ semantic_eq eo eo' = true /\
    Forall by_reference (elems (Dto.ov_Env o')).
Proof.
  unfold override_to_engine at 1. intros (resources & Hr & [= <-])%res_bind_ok He.
  unfold override_from_engine. cbn [ov_Env]. rewrite (envs_round _ (elems (Dto.ov_Env o))) by done.
  cbn [mbind res_bind ov_ClusterSelector ov_Image ov_Resources ov_Command ov_Args].
  destruct (decode_encode_raw resources_json _ _ _ _ resources_laws Hr) as (resources' & Hr' & Hs).
  eexists _, _. split; [done|]. unfold override_to_engine. cbn [Dto.ov_Resources]. rewrite Hr'. cbn [mbind res_bind]. split; [done|].
  unfold semantic_eq at 1, semantic_override.
  cbn [ov_ClusterSelector ov_Image ov_Env ov_Resources ov_Command ov_Args Dto.ov_ClusterSelector Dto.ov_Image Dto.ov_Env Dto.ov_Command Dto.ov_Args].
  split.
  - rewrite selector_round, !semantic_eq_refl. cbn [andb]. rewrite !andb_true_r. apply andb_true_iff. split; [|exact Hs].
    apply slice_eq_elems; [apply _|]. cbn. by rewrite envs_to_engine_drop.
  - cbn. rewrite Forall_fmap. exact He.
Qed.

Lemma overrides_round l el : map_res override_to_engine l = Ok el -> (forall o, o ∈ l -> Forall by_reference (elems (Dto.ov_Env o))) ->
  exists l' el', map_res override_from_engine el = Ok l' /\ map_res override_to_engine l' = Ok el' /\
    list_eq semantic_eq el el' = true.
Proof.
  rewrite map_res_Forall2. induction 1 as [|o eo l el Ho Hl IH]; intros Hr; [by exists [], []|].
  destruct (override_round o eo Ho) as (o' & eo' & H1 & H2 & H3 & _); [apply Hr; left|].
  destruct IH as (l' & el' & H4 & H5 & H6); [intros; apply Hr; by right|].
  exists (o' :: l'), (eo' :: el'). cbn [map_res]. rewrite H1, H2. cbn. rewrite H4, H5. cbn. rewrite H3. done.
Qed.

Lemma elems_grown {A} (l : list A) : elems (grown l) = l.
Proof. by destruct l. Qed.

Lemma toleration_round (l : slice ClusterToleration) :
  elems (append_map toleration_to_engine (append_map toleration_from_engine l)) = elems l.
Proof.
  rewrite !elems_append_map, <- list_fmap_compose. rewrite <- (list_fmap_id (elems l)) at 2.
  apply list_fmap_ext. by intros i [[] ?] _.
Qed.

Lemma resiliency_round_trip r p : resiliency_to_engine r = Ok p -> resiliency_to_engine (resiliency_from_engine p) = Ok p.
Proof.
  destruct r as [r|]; cbn [resiliency_to_engine]; [|by intros [= <-]].
  destruct (Unmarshal _) as [x|e] eqn:E; [|done]. intros [= <-].
  destruct (resiliency_round _ _ E) as (raw1 & r' & raw2 & H1 & H2 & H3 & H4).
  unfold resiliency_from_engine. cbn [fmap option_fmap option_map]. unfold Decode. rewrite H1. cbn [unwrap]. rewrite H2. cbn [unwrap].
  unfold resiliency_to_engine. rewrite H3. cbn [unwrap]. by rewrite H4.
Qed.

Lemma job_round (j : option Dto.JobAttributes) : job_to_engine <$> (job_from_engine <$> (job_to_engine <$> j)) = job_to_engine <$> j.
Proof. by destruct j as [[]|]. Qed.

(** The spec in terms of its parts. *)
Definition spec_of (d : Dto.ApplicationDesired) raw affinity overrides resiliency rollout : ApplicationSpec :=
  mkAppSpec (mkGVK (Dto.APIVersion (Dto.Workload d)) (Dto.Kind (Dto.Workload d))) (selectorToEngine (Dto.Selector d))
    (Dto.Replicas d) raw (Dto.Schedule d) (Dto.Suspend d) (job_to_engine <$> Dto.JobAttrs d) affinity
    (append_map toleration_to_engine (Dto.ClusterTolerations d)) (grown overrides) resiliency rollout.

Lemma applicationSpec_parts d spec : applicationSpec d = Ok spec <->
  exists raw affinity overrides resiliency rollout, Marshal (podTemplateToEngine (Dto.Template d)) = Ok raw /\
    decode_raw "clusterAffinity" (Dto.ClusterAffinity d) = Ok affinity /\
    map_res override_to_engine (elems (Dto.Overrides d)) = Ok overrides /\
    resiliency_to_engine (Dto.Resiliency d) = Ok resiliency /\
    decode_raw "rolloutStrategy" (Dto.RolloutStrategy d) = Ok rollout /\
    spec = spec_of d raw affinity overrides resiliency rollout.
Proof.
  unfold applicationSpec. split.
  - intros (raw & ? & (affinity & ? & (overrides & ? & (resiliency & ? & (rollout & ? & [= <-])
      %res_bind_ok)%res_bind_ok)%res_bind_ok)%res_bind_ok)%res_bind_ok.
    by exists raw, affinity, overrides, resiliency, rollout.
  - intros (raw & affinity & overrides & resiliency & rollout & -> & Ha & Ho & Hr & Hs & ->). cbn [mbind res_bind].
    rewrite Ha. cbn [mbind res_bind]. rewrite Ho. cbn [mbind res_bind]. rewrite Hr. cbn [mbind res_bind]. by rewrite Hs.
Qed.

Lemma template_encoded t : exists raw, Marshal (podTemplateToEngine t) = Ok raw /\
  Unmarshal raw = Ok (canon_template (podTemplateToEngine t)).
Proof. apply template_round; [done|]. by intros c (x & -> & _)%list_elem_of_fmap. Qed.

Lemma semantic_decided {A} `{EqDecision A} (x : A) : bool_decide (x = x) = true.
Proof. by apply bool_decide_eq_true_2. Qed.

(** Two specs of which one has been read from the other. *)
Lemma spec_of_semantic d raw affinity overrides resiliency rollout pod l' raw2 affinity' overrides' rollout' :
  option_eq semantic_eq affinity affinity' = true -> option_eq semantic_eq rollout rollout' = true ->
  list_eq semantic_eq overrides overrides' = true ->
  let spec := spec_of d raw affinity overrides resiliency rollout in
  semantic_spec spec (spec_of (desired_of spec pod l') raw2 affinity' overrides' resiliency rollout') = true.
Proof.
  intros Ha Hr Ho spec. unfold semantic_spec.
  repeat (apply andb_true_iff; split).
  - apply semantic_decided.
  - apply selector_round.
  - apply semantic_eq_refl.
  - apply semantic_eq_refl.
  - apply semantic_eq_refl.
  - change (option_eq semantic_eq (job_to_engine <$> Dto.JobAttrs d)
      (job_to_engine <$> (job_from_engine <$> (job_to_engine <$> Dto.JobAttrs d))) = true).
    rewrite job_round. apply option_eq_refl. intros. apply semantic_decided.
  - exact Ha.
  - apply slice_eq_elems; [apply _|]. symmetry. apply toleration_round.
  - change (list_eq semantic_eq (elems (grown overrides)) (elems (grown overrides')) = true). by rewrite !elems_grown.
  - apply option_eq_refl. intros. apply semantic_decided.
  - exact Hr.
Qed.

(** C27: what the portal's API can express, it can take over from the engine: the spec made
    from an application whose variables all refer to Secrets is accepted, with the same
    template, and gives an equal spec again. *)
Theorem applicationDesired_complete d spec : applicationSpec d = Ok spec -> by_references d ->
  exists d' spec', applicationDesired spec = Ok d' /\ Dto.Template d' = read_template (Dto.Template d) /\
    applicationSpec d' = Ok spec' /\ semantic_spec spec spec' = true.
Proof.
  intros (raw & affinity & overrides & resiliency & rollout & Hm & Ha & Ho & Hr & Hs & ->)%applicationSpec_parts [Hc Hov].
  destruct (template_encoded (Dto.Template d)) as (raw' & Hm' & Hu). rewrite Hm in Hm'. injection Hm' as <-.
  destruct (overrides_round _ _ Ho Hov) as (l' & el' & H1 & H2 & H3).
  destruct (decode_encode_raw affinity_json _ _ _ _ affinity_laws Ha) as (affinity' & Ha' & Hsa).
  destruct (decode_encode_raw rollout_json _ _ _ _ rollout_laws Hs) as (rollout' & Hs' & Hss).
  destruct (template_encoded (read_template (Dto.Template d))) as (raw2 & Hm2 & Hu2). rewrite canon_read_template in Hu2 by done.
  set (spec := spec_of _ _ _ _ _ _). set (d' := desired_of spec (read_template (Dto.Template d)) l').
  assert (applicationSpec d' = Ok (spec_of d' raw2 affinity' el' resiliency rollout')) as Hd'.
  { apply applicationSpec_parts. exists raw2, affinity', el', resiliency, rollout'. split_and!; [exact Hm2|exact Ha'| | |exact Hs'|done].
    - unfold d', desired_of. cbn [Dto.Overrides]. by rewrite elems_grown.
    - exact (resiliency_round_trip _ _ Hr). }
  pose proof (spec_of_semantic d raw affinity overrides resiliency rollout (read_template (Dto.Template d)) l' raw2 affinity'
    el' rollout' Hsa Hss H3) as Hsem.
  change (semantic_spec spec (spec_of d' raw2 affinity' el' resiliency rollout') = true) in Hsem.
  exists d', (spec_of d' raw2 affinity' el' resiliency rollout'). split_and!; [|done|done|exact Hsem].
  unfold applicationDesired. change (Template spec) with raw. rewrite Hu. cbn [mbind res_bind].
  rewrite template_from_engine by done. cbn [mbind res_bind].
  change (elems (Overrides spec)) with (elems (grown overrides)). rewrite elems_grown, H1. cbn [mbind res_bind].
  fold d'. rewrite Hd'. cbn [mbind res_bind].
  change (Template (spec_of d' raw2 affinity' el' resiliency rollout')) with raw2. rewrite Hu2. cbn [mbind res_bind].
  rewrite semantic_eq_refl. cbn [andb]. by rewrite Hsem.
Qed.

Lemma envFromEngine_references s envs : envFromEngine s = Ok envs ->
  Forall (fun e => by_reference e /\ Dto.env_Value e = "") (elems envs).
Proof.
  unfold envFromEngine. intros (out & Hout & [= <-])%res_bind_ok. apply map_res_Forall2 in Hout. cbn.
  induction Hout as [|e d l k He Hl IH]; constructor; [|exact IH].
  unfold env_from_engine in He. destruct (negb _); [done|]. destruct (ev_ValueFrom e) as [[[ref|] other]|]; [|done|done].
  case_decide; [|done]. injection He as <-. split; [by eexists|done].
Qed.

Definition references_only (envs : slice Dto.EnvironmentVariable) : Prop :=
  Forall (fun e => by_reference e /\ Dto.env_Value e = "") (elems envs).

(** No value of a variable enters the portal: every variable of an application that
    has been taken over from the engine, in its template and in its overrides, names a key
    of a Secret and has no value. *)
Theorem applicationDesired_has_no_values spec d : applicationDesired spec = Ok d ->
  (forall c, c ∈ elems (Dto.Containers (Dto.Template d)) -> references_only (Dto.c_Env c)) /\
  (forall o, o ∈ elems (Dto.Overrides d) -> references_only (Dto.ov_Env o)).
Proof.
  unfold applicationDesired. intros (template & _ & (pod & Hp & (ovs & Ho & (rebuilt & _ & (rt & _ & H3)
    %res_bind_ok)%res_bind_ok)%res_bind_ok)%res_bind_ok)%res_bind_ok.
  destruct (_ && _); [|done]. injection H3 as <-. unfold desired_of. cbn [Dto.Template Dto.Overrides]. split.
  - unfold podTemplateFromEngine in Hp. apply res_bind_ok in Hp as (containers & Hc & Hp).
    destruct (semantic_eq _ _); [|done]. injection Hp as <-. cbn. apply map_res_Forall2 in Hc.
    intros c Hin. apply list_elem_of_lookup in Hin as [i Hi]. destruct (Forall2_lookup_r _ _ _ _ _ Hc Hi) as (x & _ & Hx).
    unfold container_from_engine in Hx. apply res_bind_ok in Hx as (env & He & [= <-]). by apply (envFromEngine_references _ _ He).
  - rewrite elems_grown. apply map_res_Forall2 in Ho.
    intros o Hin. apply list_elem_of_lookup in Hin as [i Hi]. destruct (Forall2_lookup_r _ _ _ _ _ Ho Hi) as (x & _ & Hx).
    unfold override_from_engine in Hx. apply res_bind_ok in Hx as (env & He & [= <-]). by apply (envFromEngine_references _ _ He).
Qed.
End round_trip.

(** ** A concrete codec *)

#[export] Instance unit_semantic : Semantic () := fun _ _ => true.
#[export] Instance sample_types : EngineTypes := {|
  Affinity := string; Rollout := string; Resources := string; Quota := string; LimitRange := string;
  SourceRest := (); ContainerRest := (); PodRest := (); no_source := tt; no_container := tt; no_pod := tt;
  affinity_eq_dec := _; rollout_eq_dec := _; resources_eq_dec := _; quota_eq_dec := _; limits_eq_dec := _; source_eq_dec := _;
  affinity_semantic := semantic_string; rollout_semantic := semantic_string; resources_semantic := semantic_string;
  source_semantic := unit_semantic; container_semantic := unit_semantic; pod_semantic := unit_semantic;
  affinity_json := tokens_json id ""; rollout_json := tokens_json id ""; resources_json := tokens_json id "";
|}.

#[export] Instance tokens_secret_key : Tokens SecretKeySelector :=
  tokens_via (fun s => (sks_Name s, sks_Key s, sks_Optional s)) (fun '(n, k, o) => mkSecretKey n k o).
#[export] Instance tokens_env : Tokens EnvVar :=
  tokens_via (fun e => (ev_Name e, ev_Value e, (fun s => (SecretKeyRef s, other_source s)) <$> ev_ValueFrom e))
    (fun '(n, v, s) => mkEnvVar n v ((fun '(k, o) => mkSource k o) <$> s)).
#[export] Instance tokens_container : Tokens Container :=
  tokens_via (fun c => (c_Name c, c_Image c, (c_Command c : option (list string)), (c_Args c : option (list string)),
      (c_Env c : option (list EnvVar)), other_container c))
    (fun '(n, i, cmd, args, env, o) => mkContainer n i cmd args env o).
#[export] Instance tokens_template : Tokens PodTemplateSpec :=
  tokens_via (fun t => ((pt_Labels t : option (gmap string string)), (pt_Containers t : option (list Container)), other_pod t))
    (fun '(l, c, o) => mkPodTemplate l c o).
#[export] Instance tokens_dto_resiliency : Tokens Dto.ResiliencyPolicy :=
  tokens_via (fun r => (Dto.MinAvailable r, Dto.MaxUnavailable r)) (fun '(a, b) => Dto.mkResiliency a b).
#[export] Instance tokens_int_or_string : Tokens IntOrString :=
  tokens_via (fun v => match v with IntVal z => (Some z, "") | StrVal s => (None, s) end)
    (fun x => match x with (Some z, _) => IntVal z | (None, s) => StrVal s end).
#[export] Instance tokens_constraints : Tokens WorkspaceConstraints :=
  tokens_via (fun c => (wc_Quota c, wc_LimitRange c)) (fun '(a, b) => mkConstraints a b).

#[export] Instance tokens_secret_key_laws : TokensLaws tokens_secret_key.
Proof. apply tokens_via_laws; [apply _|]. by intros []. Qed.
#[export] Instance tokens_env_laws : TokensLaws tokens_env.
Proof. apply tokens_via_laws; [apply _|]. by intros [? ? [[]|]]. Qed.
#[export] Instance tokens_container_laws : TokensLaws tokens_container.
Proof. apply tokens_via_laws; [apply _|]. by intros []. Qed.
#[export] Instance tokens_template_laws : TokensLaws tokens_template.
Proof. apply tokens_via_laws; [apply _|]. by intros []. Qed.
#[export] Instance tokens_dto_resiliency_laws : TokensLaws tokens_dto_resiliency.
Proof. apply tokens_via_laws; [apply _|]. by intros []. Qed.
#[export] Instance tokens_int_or_string_laws : TokensLaws tokens_int_or_string.
Proof. apply tokens_via_laws; [apply _|]. by intros []. Qed.
#[export] Instance tokens_constraints_laws : TokensLaws tokens_constraints.
Proof. apply tokens_via_laws; [apply _|]. by intros []. Qed.

(** An IntOrString as a RawMessage, and back. *)
Definition raw_of (v : option IntOrString) : string := match v with Some v => join (put v) | None => "" end.
Definition of_raw (s : string) : res (option IntOrString) :=
  if String.eqb s "" then Ok None else match parse s with Some v => Ok (Some v) | None => Err "invalid IntOrString" end.

Lemma of_raw_of v : of_raw (raw_of v) = Ok v.
Proof.
  destruct v as [v|]; [|done]. unfold of_raw, raw_of. rewrite (parse_join tokens_int_or_string v _).
  by destruct v.
Qed.

#[export] Instance sample_adapter : AdapterJson := {|
  template_json := tokens_json canon_template (mkPodTemplate None None tt);
  dto_resiliency_json := tokens_json id (Dto.mkResiliency "" "");
  resiliency_json := {|
    Marshal p := Ok (join ("" :: put (Dto.mkResiliency (raw_of (MinAvailable p)) (raw_of (res_MaxUnavailable p)))));
    Unmarshal s :=
      (r ← Unmarshal (Json := tokens_json id (Dto.mkResiliency "" "")) s;
       a ← of_raw (Dto.MinAvailable r); b ← of_raw (Dto.MaxUnavailable r); Ok (mkResiliency a b));
    Left _ := mkResiliency None None |};
  constraints_json := tokens_json id (mkConstraints None None);
|}.

#[export] Instance sample_adapter_laws : AdapterLaws.
Proof.
  split; try apply tokens_json_laws; try apply _; try by intros [].
  - intros t _ _. exists (join ("" :: put (canon_template t))). split; [done|]. apply tokens_round. apply _.
  - intros raw p _. eexists _, _, _. split_and!; [done|apply (tokens_round _ id), _|done|].
    cbn [Unmarshal resiliency_json sample_adapter]. rewrite (tokens_round _ id) by apply _.
    cbn [mbind res_bind id Dto.MinAvailable Dto.MaxUnavailable]. rewrite !of_raw_of. by destruct p.
Qed.

Definition secret_env : Dto.EnvironmentVariable := Dto.mkEnv "PASSWORD" "" (Some (Dto.mkSecretKeyRef "db" "password" false)).
Definition web_template : Dto.PodTemplate :=
  Dto.mkPodTemplate None (Some [Dto.mkContainer "main" "nginx" None None (Some [secret_env])]).
Definition one_zone : Dto.LabelSelector := Dto.mkSelector (Some {[ "zone" := "z1" ]}) None.
Definition web_desired : Dto.ApplicationDesired :=
  Dto.mkApplication (Dto.mkWorkload "apps/v1" "Deployment") (Some 3) web_template "" None None None "" None
    (Some [Dto.mkOverride (Some one_zone) "nginx:2" None "" None None]) None "".
Definition web_spec : ApplicationSpec :=
  unwrap (mkAppSpec (mkGVK "" "") None None "" "" None None None None None None None) (applicationSpec web_desired).

Lemma applicationDesired_complete_witness : exists d', applicationDesired web_spec = Ok d' /\
  Dto.Template d' = read_template web_template.
Proof.
  destruct (applicationDesired_complete web_desired web_spec) as (d' & _ & Hd & Ht & _).
  - apply unwrap_ok. vm_compute. reflexivity.
  - split; [intros c [->|[]%not_elem_of_nil]%elem_of_cons|intros o [->|[]%not_elem_of_nil]%elem_of_cons]; repeat constructor. by eexists.
  - by exists d'.
Defined.

Lemma applicationDesired_has_no_values_witness : exists d, applicationDesired web_spec = Ok d /\
  forall c, c ∈ elems (Dto.Containers (Dto.Template d)) -> references_only (Dto.c_Env c).
Proof.
  exists (unwrap web_desired (applicationDesired web_spec)).
  assert (applicationDesired web_spec = Ok (unwrap web_desired (applicationDesired web_spec))) as Hd
    by (apply unwrap_ok; vm_compute; reflexivity).
  split; [exact Hd|]. exact (proj1 (applicationDesired_has_no_values _ _ Hd)).
Defined.
