(* ===== verification/Wp.v ===== *)
(** * Weakest preconditions of actions

    [wp m Q w]: started in [w], the action [m] ends without a panic, in a state and with
    a result for which [Q] holds. *)

From S2P Require Import Prelude.

Definition wp {W A} (m : action W A) (Q : W -> res A -> Prop) (w : W) : Prop :=
  match m w with Ret (w', r) => Q w' r | Panic => False end.

Section rules.
Context {W A B : Type}.
Implicit Types (w : W) (m : action W A) (Q : W -> res A -> Prop).

Lemma wp_elim m Q w w' r : wp m Q w -> m w = Ret (w', r) -> Q w' r.
Proof. unfold wp. intros Hm E. by rewrite E in Hm. Qed.

Lemma wp_ends m Q w : wp m Q w -> exists w' r, m w = Ret (w', r) /\ Q w' r.
Proof. unfold wp. destruct (m w) as [[w' r]|]; [eauto|done]. Qed.

Lemma wp_mono m Q Q' w : wp m Q w -> (forall w' r, Q w' r -> Q' w' r) -> wp m Q' w.
Proof. unfold wp. destruct (m w) as [[w' r]|]; auto. Qed.

Lemma wp_and m Q Q' w : wp m Q w -> wp m Q' w -> wp m (fun w' r => Q w' r /\ Q' w' r) w.
Proof. unfold wp. destruct (m w) as [[w' r]|]; auto. Qed.

Lemma wp_ret (a : A) Q w : wp (mret a) Q w <-> Q w (Ok a).
Proof. done. Qed.
Lemma wp_fail e Q w : wp (fail e) Q w <-> Q w (Err e).
Proof. done. Qed.
Lemma wp_of_res (r : res A) Q w : wp (of_res r) Q w <-> Q w r.
Proof. done. Qed.

Lemma wp_bind (m : action W B) (f : B -> action W A) Q w :
  wp (m ≫= f) Q w <-> wp m (fun w' r => match r with Ok b => wp (f b) Q w' | Err e => Q w' (Err e) end) w.
Proof. unfold wp, mbind, action_bind. by destruct (m w) as [[w' [b|e]]|]. Qed.

Lemma wp_attempt (m : action W B) (Q : W -> res (res B) -> Prop) w : wp (attempt m) Q w <-> wp m (fun w' r => Q w' (Ok r)) w.
Proof. unfold wp, attempt. by destruct (m w) as [[w' r]|]. Qed.

Lemma wp_call (f : W -> W * A) Q w : wp (call f) Q w <-> Q (f w).1 (Ok (f w).2).
Proof. unfold wp, call. by destruct (f w). Qed.
Lemma wp_returns (f : W -> W * res A) Q w : wp (returns f) Q w <-> Q (f w).1 (f w).2.
Proof. unfold wp, returns. by destruct (f w). Qed.
End rules.

Lemma wp_check {W} (f : W -> W * option string) Q w :
  wp (check f) Q w <-> Q (f w).1 (match (f w).2 with Some e => Err e | None => Ok tt end).
Proof. unfold wp, check. by destruct (f w). Qed.
Lemma wp_wrap_error {W A} prefix (m : action W A) (Q : W -> res A -> Prop) w :
  wp (wrap_error prefix m) Q w <-> wp m (fun w' r => Q w' (match r with Ok a => Ok a | Err e => Err (prefix +:+ e) end)) w.
Proof. unfold wp, wrap_error. by destruct (m w) as [[w' [a|e]]|]. Qed.

(** ** What an action may change *)

Definition within {W A} (R : relation W) (m : action W A) : Prop := forall w, wp m (fun w' _ => R w w') w.

Section within.
Context {W : Type} (R : relation W) `{!PreOrder R}.

Lemma within_ret {A} (a : A) : within R (mret a).
Proof. intros w. apply wp_ret. reflexivity. Qed.
Lemma within_fail {A} e : within R (fail e : action W A).
Proof. intros w. apply wp_fail. reflexivity. Qed.
Lemma within_of_res {A} (r : res A) : within R (of_res r).
Proof. intros w. apply wp_of_res. reflexivity. Qed.
Lemma within_bind {A B} (m : action W A) (f : A -> action W B) : within R m -> (forall a, within R (f a)) -> within R (m ≫= f).
Proof using All.
  intros Hm Hf w. apply wp_bind. eapply wp_mono; [apply Hm|]. intros w' [a|e] Hw; [|done]. eapply wp_mono; [apply Hf|].
  intros w2 r Hw2. by transitivity w'.
Qed.
(** With what is known of the result of the first. *)
Lemma within_bind_post {A B} (P : A -> Prop) (m : action W A) (f : A -> action W B) : within R m ->
  (forall w, wp m (fun _ x => forall a, x = Ok a -> P a) w) -> (forall a, P a -> within R (f a)) -> within R (m ≫= f).
Proof using All.
  intros Hm Hp Hf w. apply wp_bind. eapply wp_mono; [exact (wp_and _ _ _ _ (Hm w) (Hp w))|]. intros w' [a|e] [Hw Ha]; [|done].
  eapply wp_mono; [by apply Hf, Ha|]. intros w2 r Hw2. by transitivity w'.
Qed.
Lemma within_wrap_error {A} p (m : action W A) : within R m -> within R (wrap_error p m).
Proof using Type. intros Hm w. apply wp_wrap_error, Hm. Qed.
Lemma within_attempt {A} (m : action W A) : within R m -> within R (attempt m).
Proof using Type. intros Hm w. apply wp_attempt, Hm. Qed.
Lemma within_call {A} (f : W -> W * A) : (forall w, R w (f w).1) -> within R (call f).
Proof using Type. intros Hf w. apply wp_call, Hf. Qed.
Lemma within_returns {A} (f : W -> W * res A) : (forall w, R w (f w).1) -> within R (returns f).
Proof using Type. intros Hf w. apply wp_returns, Hf. Qed.
Lemma within_check f : (forall w, R w (f w).1) -> within R (check f).
Proof using Type. intros Hf w. apply wp_check, Hf. Qed.
End within.

Create HintDb within.
#[export] Hint Resolve within_ret within_fail within_of_res within_call within_returns within_check : within.
(** Through the binds and branches of an action. *)
Ltac solve_within := repeat first
  [ solve [auto with within typeclass_instances]
  | apply within_wrap_error | apply within_attempt
  | apply within_bind; [exact _| |intros ?]
  | match goal with |- within _ (if ?b then _ else _) => destruct b end
  | match goal with |- within _ (match ?x with _ => _ end) => destruct x end ].
