(* ===== verification/Store.v ===== *)
(** * Statements on a database

    The services of the portal work on their tables through gorm.  A table is the list of
    its rows in the order of their insertion.  Every statement takes the time it is made
    at and may fail with any error of the connection ([db_error], by the number of the
    statement), so that a theorem holds for every pattern of failures.  A transaction that
    fails leaves the tables as they were.  The database keeps its primary keys and unique
    indexes.  [D] is the type of the tables, [X] that of everything else. *)

From S2P Require Import Prelude GoRuntime Wp.

(** ** Time, randomness and failures *)

Class Ambient := {
  time_now : nat -> Z;                      (* time.Now, in nanoseconds *)
  random_hex : nat -> string;               (* twelve random bytes in hexadecimal *)
  db_error : nat -> option string;          (* the connection's error, if there is one *)
  duplicate_error : string;                 (* the driver's error for a unique index *)
  serial : nat -> positive;                 (* the value of an auto-increment column *)
}.

Definition ErrRecordNotFound : string := "record not found".

(** The errors of the connection are not gorm's ErrRecordNotFound. *)
Class AmbientLaws (A : Ambient) : Prop := { db_error_other : forall n e, db_error n = Some e -> e <> ErrRecordNotFound }.

(** The tables, what is outside of them, and the number of the next statement. *)
Record dbstore (D X : Type) := mkStore { g_db : D; g_outside : X; g_clock : nat }.
Arguments mkStore {D X}. Arguments g_db {D X}. Arguments g_outside {D X}. Arguments g_clock {D X}.

Section store.
Context {D X : Type} `{Ambient}.

Abbreviation step := (action (dbstore D X)).

Definition with_db (s : dbstore D X) (d : D) : dbstore D X := mkStore d (g_outside s) (g_clock s).
Definition tick (s : dbstore D X) : dbstore D X := mkStore (g_db s) (g_outside s) (S (g_clock s)).

Definition Now : step Z := fun s => Ret (tick s, Ok (time_now (g_clock s))).
Definition newPublicID (prefix : string) : step string := fun s =>
  Ret (tick s, Ok (prefix +:+ "_" +:+ random_hex (g_clock s))).
(** The primary key of a new row. *)
Definition next_serial : step Z := fun s => Ret (tick s, Ok (Z.pos (serial (g_clock s)))).

(** A statement at its time. *)
Definition stmt {A} (f : Z -> D -> D * res A) : step A := fun s =>
  match db_error (g_clock s) with
  | Some e => Ret (tick s, Err e)
  | None => let '(d, r) := f (time_now (g_clock s)) (g_db s) in Ret (with_db (tick s) d, r)
  end.

(** The commit of a transaction may fail like a statement. *)
Definition transaction {A} (m : step A) : step A := fun s =>
  match m s with
  | Ret (s', Ok a) =>
      match db_error (g_clock s') with
      | Some e => Ret (with_db (tick s') (g_db s), Err e)
      | None => Ret (tick s', Ok a)
      end
  | Ret (s', Err e) => Ret (with_db s' (g_db s), Err e)
  | Panic => Panic
  end.

(** Calls to what is outside of the database. *)
Definition outside {A} (f : X -> X * A) (s : dbstore D X) : dbstore D X * A :=
  let '(x, a) := f (g_outside s) in (mkStore (g_db s) x (g_clock s), a).
End store.

(** ** Statements *)

Record tableOf (D Row : Type) := mkTable {
  rows : D -> list Row;
  put_rows : list Row -> D -> D;
  clash : Row -> Row -> bool;               (* a primary key or a unique index *)
  row_before : Row -> Row -> bool;          (* the order of the primary key *)
}.
Arguments mkTable {D Row}. Arguments rows {D Row}. Arguments put_rows {D Row}. Arguments clash {D Row}. Arguments row_before {D Row}.

Fixpoint clash_free {Row} (c : Row -> Row -> bool) (l : list Row) : bool :=
  match l with [] => true | r :: l => negb (existsb (c r) l) && clash_free c l end.

(** The first row in an order. *)
Fixpoint least {Row} (before : Row -> Row -> bool) (l : list Row) : option Row :=
  match l with
  | [] => None
  | r :: l => match least before l with Some m => Some (if before m r then m else r) | None => Some r end
  end.

(** The rows where a condition holds, changed. *)
Definition changed {Row} (p : Row -> bool) (change : Row -> Row) (l : list Row) : list Row := (fun r => if p r then change r else r) <$> l.

Section statements.
Context {D X : Type} `{Ambient} {Row : Type} (t : tableOf D Row).

Abbreviation step := (action (dbstore D X)).

(** [Where(p).Order(before).First(&row)]; without an order, by primary key. *)
Definition FirstBy (before : Row -> Row -> bool) (p : Row -> bool) : step Row := stmt (fun _ d =>
  (d, match least before (List.filter p (rows t d)) with Some r => Ok r | None => Err ErrRecordNotFound end)).
Definition First (p : Row -> bool) : step Row := FirstBy (row_before t) p.
(** [Where(p).Find(&rows)] *)
Definition Find (p : Row -> bool) : step (list Row) := stmt (fun _ d => (d, Ok (List.filter p (rows t d)))).
Definition Count (p : Row -> bool) : step Z := stmt (fun _ d => (d, Ok (Z.of_nat (length (List.filter p (rows t d)))))).
(** [Create(&row)]; the row has its time of creation. *)
Definition Create (row : Z -> Row) : step Row := stmt (fun now d =>
  if existsb (clash t (row now)) (rows t d) then (d, Err duplicate_error)
  else (put_rows t (rows t d ++ [row now]) d, Ok (row now))).
(** [Where(p).Updates(change)], with the number of rows affected. *)
Definition Updates (p : Row -> bool) (change : Z -> Row -> Row) : step Z := stmt (fun now d =>
  let new := changed p (change now) (rows t d) in
  if clash_free (clash t) new then (put_rows t new d, Ok (Z.of_nat (length (List.filter p (rows t d)))))
  else (d, Err duplicate_error)).
End statements.
