(* ===== verification/StoreLogic.v ===== *)
(** * Reasoning about statements

    [db_spec m d Q]: whatever the time, the identifiers, the failures of the database and
    the answers of what is outside, the action [m] started on the tables [d] ends without a
    panic, with tables and a result for which [Q] holds. *)

From S2P Require Import Prelude Wp Store.

(** ** Tables without clashes *)

Lemma clash_free_app {Row} (c : Row -> Row -> bool) l row : (forall a b, c a b = c b a) ->
  clash_free c l = true -> existsb (c row) l = false -> clash_free c (l ++ [row]) = true.
Proof.
  intros Hsym. induction l as [|a l IH]; [done|]. cbn [clash_free existsb app]. rewrite orb_false_iff, !andb_true_iff.
  intros [Ha Hl] [Hrow Hex]. split; [|by apply IH]. rewrite existsb_app. apply negb_true_iff in Ha. rewrite Ha. cbn.
  by rewrite Hsym, Hrow.
Qed.

Lemma clash_free_unique {Row} (c : Row -> Row -> bool) l a b : (forall a b, c a b = c b a) ->
  clash_free c l = true -> a ∈ l -> b ∈ l -> c a b = true -> a = b.
Proof.
  intros Hsym. induction l as [|x l IH]; cbn [clash_free]; [by intros _ ?%elem_of_nil|].
  rewrite andb_true_iff, negb_true_iff. intros [Hx Hl].
  assert (forall y, y ∈ l -> c x y = false) as Hno.
  { intros y Hy. destruct (c x y) eqn:E; [|done]. rewrite <- Hx. symmetry. apply existsb_exists. exists y. by rewrite list_elem_of_In in Hy. }
  rewrite !elem_of_cons. intros [->|Ha] [->|Hb] Hc; [done| | |by apply IH].
  - by rewrite Hno in Hc.
  - by rewrite Hsym, Hno in Hc.
Qed.

Lemma clash_free_NoDup {Row} (c : Row -> Row -> bool) l : (forall r, c r r = true) -> clash_free c l = true -> NoDup l.
Proof.
  intros Hrefl. induction l as [|r l IH]; [constructor|]. cbn [clash_free]. rewrite andb_true_iff, negb_true_iff. intros [Hr Hl].
  constructor; [|by apply IH]. intros Hin. apply not_true_iff_false in Hr. apply Hr, existsb_exists. exists r.
  split; [by apply list_elem_of_In|done].
Qed.

(** ** Keys and filters *)

Lemma nodup_inj {A B} (f : A -> B) (l : list A) x y : NoDup (f <$> l) -> x ∈ l -> y ∈ l -> f x = f y -> x = y.
Proof.
  induction l as [|a l IH]; [by intros _ ?%elem_of_nil|]. rewrite fmap_cons, NoDup_cons, !elem_of_cons.
  intros [Ha Hl] [->|Hx] [->|Hy] E; [done|..|by apply IH]; exfalso; apply Ha; [rewrite E|rewrite <- E]; by apply list_elem_of_fmap_2.
Qed.

Lemma filter_bool_NoDup {A} (p : A -> bool) (l : list A) : NoDup l -> NoDup (List.filter p l).
Proof. rewrite !NoDup_ListNoDup. apply List.NoDup_filter. Qed.
Lemma filter_bool_sublist {A} (p : A -> bool) (l : list A) : List.filter p l `sublist_of` l.
Proof. induction l as [|a l IH]; [constructor|]. cbn. by destruct (p a); constructor. Qed.

Section logic.
Context {D X : Type} `{Ambient}.

Abbreviation step := (action (dbstore D X)).

Definition db_spec {A} (m : step A) (d : D) (Q : D -> res A -> Prop) : Prop :=
  forall s, g_db s = d -> wp m (fun s' r => Q (g_db s') r) s.

Implicit Types (d : D).

Lemma db_mono {A} (m : step A) d Q Q' : db_spec m d Q -> (forall d' r, Q d' r -> Q' d' r) -> db_spec m d Q'.
Proof. intros Hm HQ s Hs. eapply wp_mono; [by apply Hm|]. intros s' r. apply HQ. Qed.

Lemma db_ret {A} (a : A) d (Q : D -> res A -> Prop) : Q d (Ok a) -> db_spec (mret a) d Q.
Proof. intros HQ s <-. exact HQ. Qed.
Lemma db_fail {A} e d (Q : D -> res A -> Prop) : Q d (Err e) -> db_spec (fail e) d Q.
Proof. intros HQ s <-. exact HQ. Qed.
Lemma db_of_res {A} (r : res A) d (Q : D -> res A -> Prop) : Q d r -> db_spec (of_res r) d Q.
Proof. intros HQ s <-. exact HQ. Qed.

Lemma db_bind {A B} (m : step A) (f : A -> step B) d Q :
  db_spec m d (fun d' r => match r with Ok a => db_spec (f a) d' Q | Err e => Q d' (Err e) end) -> db_spec (m ≫= f) d Q.
Proof.
  intros Hm s Hs. apply wp_bind. eapply wp_mono; [by apply Hm|]. intros s' [a|e] HQ; [by apply HQ|exact HQ].
Qed.

Lemma db_attempt {A} (m : step A) d (Q : D -> res (res A) -> Prop) :
  db_spec m d (fun d' r => Q d' (Ok r)) -> db_spec (attempt m) d Q.
Proof. intros Hm s Hs. apply wp_attempt. by apply Hm. Qed.

Lemma db_wrap_error {A} prefix (m : step A) d (Q : D -> res A -> Prop) :
  db_spec m d (fun d' r => match r with Ok a => Q d' (Ok a) | Err e => Q d' (Err (prefix +:+ e)) end) -> db_spec (wrap_error prefix m) d Q.
Proof.
  intros Hm s Hs. specialize (Hm s Hs). unfold wp, wrap_error in *. by destruct (m s) as [[s' [a|e]]|].
Qed.

Lemma db_Now d (Q : D -> res Z -> Prop) : (forall t, Q d (Ok t)) -> db_spec Now d Q.
Proof. intros HQ s <-. apply HQ. Qed.
Lemma db_newPublicID prefix d (Q : D -> res string -> Prop) : (forall id, Q d (Ok id)) -> db_spec (newPublicID prefix) d Q.
Proof. intros HQ s <-. apply HQ. Qed.

Lemma db_next_serial d (Q : D -> res Z -> Prop) : (forall n, Q d (Ok (Z.pos n))) -> db_spec next_serial d Q.
Proof. intros HQ s <-. apply HQ. Qed.

Lemma db_stmt {A} (f : Z -> D -> D * res A) d Q : (forall e, Q d (Err e)) -> (forall now, Q (f now d).1 (f now d).2) ->
  db_spec (stmt f) d Q.
Proof.
  intros He Hf s <-. unfold wp, stmt. destruct (db_error _); [apply He|]. specialize (Hf (time_now (g_clock s))).
  destruct (f _ _). exact Hf.
Qed.

Lemma db_transaction {A} (m : step A) d (Q : D -> res A -> Prop) :
  (forall e, Q d (Err e)) -> db_spec m d (fun d' r => match r with Ok a => Q d' (Ok a) | Err _ => True end) -> db_spec (transaction m) d Q.
Proof.
  intros He Hm s Hs. specialize (Hm s Hs). unfold wp, transaction in *. destruct (m s) as [[s' [a|e]]|]; [| |done].
  - destruct (db_error _); [|exact Hm]. cbn. rewrite Hs. apply He.
  - cbn. rewrite Hs. apply He.
Qed.

Lemma db_call_outside {A} (f : X -> X * A) d (Q : D -> res A -> Prop) : (forall a, Q d (Ok a)) -> db_spec (call (outside f)) d Q.
Proof. intros HQ s <-. apply wp_call. unfold outside. destruct (f _). apply HQ. Qed.
Lemma db_returns_outside {A} (f : X -> X * res A) d (Q : D -> res A -> Prop) : (forall r, Q d r) -> db_spec (returns (outside f)) d Q.
Proof. intros HQ s <-. apply wp_returns. unfold outside. destruct (f _). apply HQ. Qed.
Lemma db_check_outside (f : X -> X * option string) d (Q : D -> res () -> Prop) : (forall r, Q d r) -> db_spec (check (outside f)) d Q.
Proof. intros HQ s <-. apply wp_check. unfold outside. destruct (f _). apply HQ. Qed.

(** ** Statements *)

Section tables.
Context {Row : Type} (t : tableOf D Row).

Lemma least_elem (before : Row -> Row -> bool) l r : least before l = Some r -> r ∈ l.
Proof.
  revert r; induction l as [|x l IH]; intros r; [done|]. cbn. destruct (least before l) as [m|] eqn:E.
  - destruct (before m x); intros [= <-]; [right; by apply IH|left].
  - intros [= <-]. left.
Qed.

Lemma filter_bool_elem (p : Row -> bool) l r : r ∈ List.filter p l <-> r ∈ l /\ p r = true.
Proof. by rewrite !list_elem_of_In, filter_In. Qed.

Lemma db_FirstBy before p d (Q : D -> res Row -> Prop) :
  (forall e, Q d (Err e)) -> (forall r, r ∈ rows t d -> p r = true -> Q d (Ok r)) -> db_spec (FirstBy t before p) d Q.
Proof.
  intros He Hf. apply db_stmt; [exact He|]. intros now. cbn. destruct (least _ _) as [r|] eqn:E; [|apply He].
  apply least_elem, filter_bool_elem in E as [? ?]. by apply Hf.
Qed.
Lemma db_First p d (Q : D -> res Row -> Prop) :
  (forall e, Q d (Err e)) -> (forall r, r ∈ rows t d -> p r = true -> Q d (Ok r)) -> db_spec (First t p) d Q.
Proof. apply db_FirstBy. Qed.

Lemma db_Find p d (Q : D -> res (list Row) -> Prop) :
  (forall e, Q d (Err e)) -> Q d (Ok (List.filter p (rows t d))) -> db_spec (Find t p) d Q.
Proof. intros He Hf. by apply db_stmt. Qed.

Lemma db_Count p d (Q : D -> res Z -> Prop) :
  (forall e, Q d (Err e)) -> Q d (Ok (Z.of_nat (length (List.filter p (rows t d))))) -> db_spec (Count t p) d Q.
Proof. intros He Hf. by apply db_stmt. Qed.

Lemma db_Create row d (Q : D -> res Row -> Prop) :
  (forall e, Q d (Err e)) ->
  (forall now, existsb (clash t (row now)) (rows t d) = false -> Q (put_rows t (rows t d ++ [row now]) d) (Ok (row now))) ->
  db_spec (Create t row) d Q.
Proof. intros He Hf. apply db_stmt; [exact He|]. intros now. destruct (existsb _ _) eqn:E; [apply He|by apply Hf]. Qed.

Lemma db_Updates p change d (Q : D -> res Z -> Prop) :
  (forall e, Q d (Err e)) ->
  (forall now, clash_free (clash t) (changed p (change now) (rows t d)) = true ->
     Q (put_rows t (changed p (change now) (rows t d)) d) (Ok (Z.of_nat (length (List.filter p (rows t d)))))) ->
  db_spec (Updates t p change) d Q.
Proof.
  intros He Hf. apply db_stmt; [exact He|]. intros now. cbv zeta. fold (changed p (change now) (rows t d)).
  destruct (clash_free (clash t) (changed p (change now) (rows t d))) eqn:E; [by apply Hf|apply He].
Qed.

Lemma changed_elem (p : Row -> bool) change l r' : r' ∈ changed p change l <-> exists r, r ∈ l /\ r' = if p r then change r else r.
Proof. unfold changed. rewrite list_elem_of_fmap. naive_solver. Qed.

(** A row is counted when a condition holds of it. *)
Lemma counted_elem p (l : list Row) : 0 < Z.of_nat (length (List.filter p l)) -> exists r, r ∈ l /\ p r = true.
Proof.
  destruct (List.filter p l) as [|r k] eqn:E; [simpl; lia|]. intros _. exists r. apply filter_bool_elem. rewrite E. left.
Qed.
End tables.

Lemma db_and {A} (m : step A) d (Q1 Q2 : D -> res A -> Prop) : db_spec m d Q1 -> db_spec m d Q2 ->
  db_spec m d (fun d' r => Q1 d' r /\ Q2 d' r).
Proof. intros H1 H2 s Hs. specialize (H1 s Hs). specialize (H2 s Hs). unfold wp in *. by destruct (m s) as [[s' r]|]. Qed.

(** An action that leaves the tables alone. *)
Definition reads {A} (m : step A) : Prop := forall d, db_spec m d (fun d' _ => d' = d).

Lemma db_reads {A} (m : step A) d (Q : D -> res A -> Prop) : reads m -> (forall r, Q d r) -> db_spec m d Q.
Proof. intros Hm HQ. eapply db_mono; [apply Hm|]. intros d' r ->. apply HQ. Qed.
Lemma reads_bind {A B} (m : step A) (f : A -> step B) : reads m -> (forall a, reads (f a)) -> reads (m ≫= f).
Proof. intros Hm Hf d. apply db_bind, db_reads; [done|]. intros [a|e]; [apply Hf|done]. Qed.
Lemma reads_attempt {A} (m : step A) : reads m -> reads (attempt m).
Proof. intros Hm d. by apply db_attempt, db_reads. Qed.
Lemma reads_wrap_error {A} prefix (m : step A) : reads m -> reads (wrap_error prefix m).
Proof. intros Hm d. apply db_wrap_error, db_reads; [done|]. by intros [a|e]. Qed.
Lemma reads_ret {A} (a : A) : reads (mret a).
Proof. intros d. by apply db_ret. Qed.
Lemma reads_fail {A} e : reads (fail e : step A).
Proof. intros d. by apply db_fail. Qed.
Lemma reads_of_res {A} (r : res A) : reads (of_res r).
Proof. intros d. by apply db_of_res. Qed.
Lemma reads_Now : reads Now.
Proof. intros d. by apply db_Now. Qed.
Lemma reads_newPublicID prefix : reads (newPublicID prefix).
Proof. intros d. by apply db_newPublicID. Qed.
Lemma reads_next_serial : reads next_serial.
Proof. intros d. by apply db_next_serial. Qed.
Lemma reads_First {Row} (t : tableOf D Row) p : reads (First t p).
Proof. intros d. by apply db_First. Qed.
Lemma reads_Find {Row} (t : tableOf D Row) p : reads (Find t p).
Proof. intros d. by apply db_Find. Qed.
Lemma reads_Count {Row} (t : tableOf D Row) p : reads (Count t p).
Proof. intros d. by apply db_Count. Qed.
Lemma reads_call {A} (f : X -> X * A) : reads (call (outside f)).
Proof. intros d. by apply db_call_outside. Qed.
Lemma reads_returns {A} (f : X -> X * res A) : reads (returns (outside f)).
Proof. intros d. by apply db_returns_outside. Qed.
Lemma reads_check f : reads (check (outside f)).
Proof. intros d. by apply db_check_outside. Qed.
Lemma reads_check_pure (o : option string) : reads (check (fun s => (s, o))).
Proof. intros d s <-. done. Qed.
(** *** Failures

    The rules above forget why a statement has failed; these do not. *)
Lemma db_First_exact {Row} (t : tableOf D Row) p d (Q : D -> res Row -> Prop) :
  (forall n e, db_error n = Some e -> Q d (Err e)) ->
  Q d (match least (row_before t) (List.filter p (rows t d)) with Some r => Ok r | None => Err ErrRecordNotFound end) ->
  db_spec (First t p) d Q.
Proof.
  intros He HQ s <-. unfold wp, First, FirstBy, stmt. destruct (db_error _) eqn:E; [by apply (He (g_clock s))|exact HQ].
Qed.
Lemma db_transaction_exact {A} (m : step A) d (Q : D -> res A -> Prop) :
  db_spec m d (fun d' r => match r with
    | Ok a => Q d' (Ok a) /\ forall n e, db_error n = Some e -> Q d (Err e) | Err e => Q d (Err e) end) -> db_spec (transaction m) d Q.
Proof.
  intros Hm s Hs. specialize (Hm s Hs). unfold wp, transaction in *. destruct (m s) as [[s' [a|e]]|]; [| |done].
  - destruct (db_error _) eqn:E; cbn; [rewrite Hs; by apply (proj2 Hm (g_clock s'))|apply Hm].
  - cbn. by rewrite Hs.
Qed.

(** *** Successful runs

    Inside of a transaction only the successful runs count. *)
Definition on_commit {A} (Q : D -> A -> Prop) (d : D) (r : res A) : Prop := match r with Ok a => Q d a | Err _ => True end.
Definition commit_spec {A} (m : step A) (d : D) (Q : D -> A -> Prop) : Prop := db_spec m d (on_commit Q).

Lemma c_mono {A} (m : step A) d (Q Q' : D -> A -> Prop) : commit_spec m d Q -> (forall d' a, Q d' a -> Q' d' a) -> commit_spec m d Q'.
Proof. intros Hm HQ. eapply db_mono; [exact Hm|]. intros d' [a|e]; [apply HQ|done]. Qed.
Lemma c_ret {A} (a : A) d (Q : D -> A -> Prop) : Q d a -> commit_spec (mret a) d Q.
Proof. intros HQ. by apply db_ret. Qed.
Lemma c_fail {A} e d (Q : D -> A -> Prop) : commit_spec (fail e) d Q.
Proof. by apply db_fail. Qed.
Lemma c_bind {A B} (m : step A) (f : A -> step B) d Q : commit_spec m d (fun d' a => commit_spec (f a) d' Q) -> commit_spec (m ≫= f) d Q.
Proof. intros Hm. apply db_bind. eapply db_mono; [exact Hm|]. by intros d' [a|e]. Qed.
Lemma c_of_res {A} (r : res A) d (Q : D -> A -> Prop) : (forall a, r = Ok a -> Q d a) -> commit_spec (of_res r) d Q.
Proof. intros HQ. apply db_of_res. destruct r; [by apply HQ|done]. Qed.
Lemma c_reads {A} (m : step A) d (Q : D -> A -> Prop) : reads m -> (forall a, Q d a) -> commit_spec m d Q.
Proof. intros Hm HQ. apply db_reads; [done|]. intros [a|e]; [apply HQ|done]. Qed.
Lemma c_attempt {A} (m : step A) d (Q : D -> res A -> Prop) : db_spec m d Q -> commit_spec (attempt m) d Q.
Proof. intros Hm. by apply db_attempt. Qed.
Lemma c_wrap_error {A} prefix (m : step A) d (Q : D -> A -> Prop) : commit_spec m d Q -> commit_spec (wrap_error prefix m) d Q.
Proof. intros Hm. apply db_wrap_error. eapply db_mono; [exact Hm|]. by intros d' [a|e]. Qed.
Lemma c_First {Row} (t : tableOf D Row) p d (Q : D -> Row -> Prop) :
  (forall r, r ∈ rows t d -> p r = true -> Q d r) -> commit_spec (First t p) d Q.
Proof. intros HQ. by apply db_First. Qed.
Lemma c_Count {Row} (t : tableOf D Row) p d (Q : D -> Z -> Prop) :
  Q d (Z.of_nat (length (List.filter p (rows t d)))) -> commit_spec (Count t p) d Q.
Proof. intros HQ. by apply db_Count. Qed.
Lemma c_Create {Row} (t : tableOf D Row) row d (Q : D -> Row -> Prop) :
  (forall now, existsb (clash t (row now)) (rows t d) = false -> Q (put_rows t (rows t d ++ [row now]) d) (row now)) ->
  commit_spec (Create t row) d Q.
Proof. intros HQ. by apply db_Create. Qed.
Lemma c_Updates {Row} (t : tableOf D Row) p change d (Q : D -> Z -> Prop) :
  (forall now, clash_free (clash t) (changed p (change now) (rows t d)) = true ->
     Q (put_rows t (changed p (change now) (rows t d)) d) (Z.of_nat (length (List.filter p (rows t d))))) ->
  commit_spec (Updates t p change) d Q.
Proof. intros HQ. by apply db_Updates. Qed.
Lemma commit_transaction {A} (m : step A) d (Q : D -> res A -> Prop) :
  (forall e, Q d (Err e)) -> commit_spec m d (fun d' a => Q d' (Ok a)) -> db_spec (transaction m) d Q.
Proof. intros He Hm. apply db_transaction; [done|]. exact Hm. Qed.
End logic.

Create HintDb reads.
#[export] Hint Resolve reads_bind reads_attempt reads_wrap_error reads_ret reads_fail reads_of_res reads_Now reads_newPublicID reads_next_serial reads_First
  reads_Find reads_Count reads_call reads_returns reads_check reads_check_pure : reads.

(** Decides that an action only reads, by its syntax. *)
Ltac solve_reads :=
  repeat first
    [ assumption
    | progress intros
    | apply reads_bind
    | solve [eauto 2 with reads]
    | match goal with |- reads (match ?x with _ => _ end) => destruct x end
    | match goal with |- reads (if ?x then _ else _) => destruct x end
    | match goal with |- reads (let '(_, _) := ?x in _) => destruct x end ].
