(* ===== verification/PortalStore.v ===== *)
(** * The tables of the resource gateway

    apiserver/pkg/model/resource.go, and of the projects and the users what the gateway
    reads. *)

From S2P Require Import Prelude Store.

(** ** model/resource.go *)

(** The fields of a ResourceRecord, in groups. *)
Record Identity := mkIdentity {
  ID : string; Kind : string; Name : string; EngineName : string; EngineNamespace : string;
  ActiveKey : option string }.
Record Ownership := mkOwnership {
  ParentID : string; ModuleID : option Z; ProjectID : option Z; ProjectPublicID : string; ModulePublicID : string }.
Record Desired := mkDesired { DesiredJSON : string; DesiredHash : string; DesiredRevision : Z }.
Record Observed := mkObserved { ObservedJSON : string; ObservedAt : option Z; CapabilityError : string }.
Record Progress := mkProgress {
  AppliedRevision : Z; SyncState : string; Source : string; State : string; ArchivedAt : option Z }.
Record ResourceRecord := mkRecord {
  r_Identity : Identity; r_Owner : Ownership; r_Desired : Desired; r_Observed : Observed; r_Progress : Progress;
  CreatedAt : Z; UpdatedAt : Z }.

Record Operation := mkOperation {
  op_ID : string; IdempotencyKey : string; ActorID : Z; op_ModulePublicID : string; Route : string; Fingerprint : string;
  op_ResourceID : string; op_Action : string; op_State : string; op_Error : string; op_CreatedAt : Z; op_UpdatedAt : Z }.

Record OutboxEvent := mkEvent {
  ev_ID : string; ev_OperationID : string; ev_ResourceID : string; ev_Action : string; ev_DesiredRevision : Z;
  Attempts : Z; LastError : string; AvailableAt : Z; ProcessedAt : option Z; ClaimToken : string; ClaimUntil : option Z;
  ev_CreatedAt : Z }.

(** Of a project and a user, what the gateway reads, with the associations it loads. *)
Record Project := mkProject { p_ID : Z; p_PublicID : string; p_ModuleID : Z; p_ModulePublicID : string }.
Record User := mkUser {
  u_ID : Z; u_RoleID : Z; u_RoleName : string; u_ModuleID : option Z; u_ModulePublicID : option string }.

Record db := mkDb {
  records : list ResourceRecord; operations : list Operation; outbox : list OutboxEvent;
  projects : list Project; users : list User }.

Abbreviation store := (dbstore db).
Abbreviation table := (tableOf db).

Definition records_table : table ResourceRecord := {|
  rows := records;
  put_rows l d := mkDb l (operations d) (outbox d) (projects d) (users d);
  clash r s := String.eqb (ID (r_Identity r)) (ID (r_Identity s)) ||
    match ActiveKey (r_Identity r), ActiveKey (r_Identity s) with Some a, Some b => String.eqb a b | _, _ => false end;
  row_before r s := String.ltb (ID (r_Identity r)) (ID (r_Identity s)) |}.
Definition operations_table : table Operation := {|
  rows := operations;
  put_rows l d := mkDb (records d) l (outbox d) (projects d) (users d);
  clash r s := String.eqb (op_ID r) (op_ID s) ||
    (String.eqb (IdempotencyKey r) (IdempotencyKey s) && (ActorID r =? ActorID s));
  row_before r s := String.ltb (op_ID r) (op_ID s) |}.
Definition outbox_table : table OutboxEvent := {|
  rows := outbox;
  put_rows l d := mkDb (records d) (operations d) l (projects d) (users d);
  clash r s := String.eqb (ev_ID r) (ev_ID s) || String.eqb (ev_OperationID r) (ev_OperationID s);
  row_before r s := String.ltb (ev_ID r) (ev_ID s) |}.
Definition projects_table : table Project := {|
  rows := projects;
  put_rows l d := mkDb (records d) (operations d) (outbox d) l (users d);
  clash r s := (p_ID r =? p_ID s) || String.eqb (p_PublicID r) (p_PublicID s);
  row_before r s := p_ID r <? p_ID s |}.
Definition users_table : table User := {|
  rows := users;
  put_rows l d := mkDb (records d) (operations d) (outbox d) (projects d) l;
  clash r s := u_ID r =? u_ID s;
  row_before r s := u_ID r <? u_ID s |}.
