(* ===== verification/Gateway.v ===== *)
(** * The resource gateway

    apiserver/pkg/service/resource_gateway.go.  The portal owns the desired state of
    workspaces and applications.  A request writes the record, an operation and an outbox
    event in one transaction; a worker claims the events, projects the record to the
    engine, and writes the outcome back.  The [sync.Mutex] of [ReconcileOne] has no
    counterpart: there may be several servers on one database, and the parts of
    [ReconcileOne] are definitions of their own. *)

From S2P Require Import Prelude GoRuntime Api Manifest Wp Store PortalStore EngineTypes EngineAdapter.

(** ** Parameters *)

Record WorkspaceObject `{EngineTypes} := mkWorkspaceObject {
  wo_Name : string; wo_ResourceVersion : string; wo_Labels : gmap string string;
  wo_Spec : WorkspaceSpec; wo_Status : WorkspaceStatus }.
Record ApplicationObject `{EngineTypes} := mkApplicationObject {
  ao_Name : string; ao_Namespace : string; ao_ResourceVersion : string; ao_Labels : gmap string string;
  ao_Spec : ApplicationSpec; ao_Status : ApplicationStatus }.

(** The client of the engine's API server. *)
Class EngineApi `{EngineTypes, Kubernetes, ApiErrors} := {
  engine : Type;
  eng_GetWorkspace : string -> engine -> engine * res WorkspaceObject;
  eng_CreateWorkspace : WorkspaceObject -> engine -> engine * option string;
  eng_UpdateWorkspace : WorkspaceObject -> engine -> engine * option string;
  eng_DeleteWorkspace : string -> engine -> engine * option string;
  eng_ListWorkspaces : engine -> engine * res (list WorkspaceObject);
  eng_GetApplication : string -> string -> engine -> engine * res ApplicationObject;
  eng_CreateApplication : ApplicationObject -> engine -> engine * option string;
  eng_UpdateApplication : ApplicationObject -> engine -> engine * option string;
  eng_DeleteApplication : string -> string -> engine -> engine * option string;
  eng_ListApplications : engine -> engine * res (list ApplicationObject);
  eng_GetCluster : string -> engine -> engine * res ManagedCluster;
  eng_UpdateCluster : ManagedCluster -> engine -> engine * option string;
  eng_ListClusters : engine -> engine * res (list ManagedCluster);
}.

Record ResourceInput := mkInput { in_Name : string; in_ProjectID : string; in_WorkspaceID : string; in_Desired : Dto.DesiredState }.

(** The codecs of the states and inputs, and SHA-256 in hexadecimal. *)
Class GatewayJson := {
  desired_json :: Json Dto.DesiredState;
  observed_json :: Json Dto.ObservedState;
  input_json :: Json ResourceInput;
  sha256_hex : string -> string;
}.

(** ** Constants and principals *)

Definition ErrParentImmutable : string := "parent association is immutable".
Definition ErrWorkspaceNamespaceInUse : string := "workspace namespace is immutable while applications exist".
Definition ErrForbidden : string := "resource is outside the actor scope".
Definition ErrIdempotencyConflict : string := "idempotency key was already used for a different request".
Definition ErrResourceArchived : string := "resource is archived".
Definition ErrConcurrentModification : string := "resource changed concurrently; retry with a new idempotency key".
Definition ErrParentUnavailable : string := "parent workspace is not active".

Definition ResourceCluster : string := "cluster".
Definition ResourceApplication : string := "application".
Definition ResourceWorkspace : string := "workspace".
Definition RoleAdmin : string := "admin".
Definition maxOutboxAttempts : Z := 3.
Definition second : Z := 1000000000.

Record Principal := mkPrincipal {
  UserID : Z; RoleID : Z; RoleName : string; pr_ModulePublicID : string; Admin : bool }.

(** [strings.ToLower] of ASCII text. *)
Definition to_lower_char (c : Ascii.ascii) : Ascii.ascii :=
  let n := Ascii.N_of_ascii c in if (65 <=? n)%N && (n <=? 90)%N then Ascii.ascii_of_N (n + 32) else c.
Fixpoint ToLower (s : string) : string :=
  match s with "" => "" | String c s => String (to_lower_char c) (ToLower s) end.

Definition isUniqueConflict (err : string) : bool :=
  let s := ToLower err in str_contains s "unique constraint" || str_contains s "duplicate key".

Definition NUL : string := String (Ascii.ascii_of_N 0) EmptyString.

(** ** Pure parts *)

Definition scope (p : Principal) (r : ResourceRecord) : bool :=
  Admin p || String.eqb (ModulePublicID (r_Owner r)) (pr_ModulePublicID p).
Definition resourceActive (r : ResourceRecord) : bool := match ArchivedAt (r_Progress r) with None => true | Some _ => false end.

Definition id_is (id : string) (r : ResourceRecord) : bool := String.eqb (ID (r_Identity r)) id.
Definition kind_is (kind : string) (r : ResourceRecord) : bool := String.eqb (Kind (r_Identity r)) kind.
Definition sync_is (s : string) (r : ResourceRecord) : bool := String.eqb (SyncState (r_Progress r)) s.
Definition state_is (s : string) (r : ResourceRecord) : bool := String.eqb (State (r_Progress r)) s.
Definition revision_is (n : Z) (r : ResourceRecord) : bool := DesiredRevision (r_Desired r) =? n.

(** Changes of the columns of a record; every update sets [updated_at]. *)
Definition with_progress (r : ResourceRecord) (p : Progress) (now : Z) : ResourceRecord :=
  mkRecord (r_Identity r) (r_Owner r) (r_Desired r) (r_Observed r) p (CreatedAt r) now.
Definition with_observed (r : ResourceRecord) (o : Observed) (now : Z) : ResourceRecord :=
  mkRecord (r_Identity r) (r_Owner r) (r_Desired r) o (r_Progress r) (CreatedAt r) now.
Definition with_desired (r : ResourceRecord) (d : Desired) (now : Z) : ResourceRecord :=
  mkRecord (r_Identity r) (r_Owner r) d (r_Observed r) (r_Progress r) (CreatedAt r) now.
Definition with_record_identity (r : ResourceRecord) (i : Identity) (now : Z) : ResourceRecord :=
  mkRecord i (r_Owner r) (r_Desired r) (r_Observed r) (r_Progress r) (CreatedAt r) now.
Definition with_owner (r : ResourceRecord) (o : Ownership) (now : Z) : ResourceRecord :=
  mkRecord (r_Identity r) o (r_Desired r) (r_Observed r) (r_Progress r) (CreatedAt r) now.
Definition set_sync (s : string) (now : Z) (r : ResourceRecord) : ResourceRecord :=
  let p := r_Progress r in with_progress r (mkProgress (AppliedRevision p) s (Source p) (State p) (ArchivedAt p)) now.

Definition activeIdentity (kind name namespace : string) : string :=
  if String.eqb kind ResourceApplication then kind +:+ ":" +:+ namespace +:+ ":" +:+ name
  else if String.eqb kind ResourceWorkspace then kind +:+ ":namespace:" +:+ namespace
  else kind +:+ ":" +:+ name.

Definition hasDesired (d : Dto.DesiredState) : bool :=
  match Dto.Workspace d, Dto.Application d with None, None => false | _, _ => true end.

Fixpoint validateEnvironment (envs : list Dto.EnvironmentVariable) : res () :=
  match envs with
  | [] => Ok tt
  | env :: rest =>
      if negb (String.eqb (Dto.env_Value env) "") then
        Err ("inline environment value for " +:+ Dto.env_Name env +:+ " is forbidden; use valueFrom.secretName/key")
      else
        let missing := match Dto.ValueFrom env with
                       | None => true
                       | Some from => String.eqb (Dto.SecretName from) "" || String.eqb (Dto.sk_Key from) ""
                       end in
        if missing then Err ("environment " +:+ Dto.env_Name env +:+ " requires valueFrom.secretName and key")
        else validateEnvironment rest
  end.

(** [for _, x := range l { if err := f(x); err != nil { return err } }] *)
Fixpoint check_all {A} (f : A -> res ()) (l : list A) : res () :=
  match l with [] => Ok tt | x :: l => _ ← f x; check_all f l end.

Definition validateDesired (kind : string) (d : Dto.DesiredState) (optional : bool) : res () :=
  if optional && negb (hasDesired d) then Ok tt
  else if String.eqb kind ResourceWorkspace then
    match Dto.Workspace d, Dto.Application d with
    | Some _, None => Ok tt
    | _, _ => Err "desired.workspace is required and must be the only desired state"
    end
  else if String.eqb kind ResourceApplication then
    match Dto.Application d, Dto.Workspace d with
    | Some app, None =>
        _ ← check_all (fun c => validateEnvironment (elems (Dto.c_Env c))) (elems (Dto.Containers (Dto.Template app)));
        check_all (fun o => validateEnvironment (elems (Dto.ov_Env o))) (elems (Dto.Overrides app))
    | _, _ => Err "desired.application is required and must be the only desired state"
    end
  else Err ("unsupported resource kind " +:+ kind).

Definition businessLabelsMatch (current expected : gmap string string) : bool :=
  forallb (fun kv => String.eqb (get_str current kv.1) kv.2) (map_to_list expected).

Definition add_label (key value : string) (m : gmap string string) : gmap string string :=
  if String.eqb value "" then m else <[key := value]> m.

Definition businessLabels (r : ResourceRecord) : gmap string string :=
  let m := {[ ManagedByKey := ManagedByValue ]} in
  let m := if kind_is ResourceApplication r
           then <[WorkspaceIDKey := ParentID (r_Owner r)]> (<[ApplicationIDKey := ID (r_Identity r)]> m) else m in
  let m := if kind_is ResourceWorkspace r then <[WorkspaceIDKey := ID (r_Identity r)]> m else m in
  add_label ModuleIDKey (ModulePublicID (r_Owner r)) (add_label ProjectIDKey (ProjectPublicID (r_Owner r)) m).

Section pure.
Context `{GatewayJson}.

Definition requestFingerprint (actor : Principal) (route action target : string) (payload : option ResourceInput) : string :=
  let b := match payload with Some i => unwrap "" (Marshal i) | None => "null" end in
  sha256_hex (pretty (UserID actor) +:+ NUL +:+ route +:+ NUL +:+ action +:+ NUL +:+ target +:+ NUL +:+ b).

Definition desiredDigest (raw : string) : string := sha256_hex raw.

Definition effectiveWorkspaceNamespace (r : ResourceRecord) : res string :=
  match Unmarshal (DesiredJSON (r_Desired r)) with
  | Err e => Err ("decode workspace desired state: " +:+ e)
  | Ok d =>
      match Dto.Workspace d with
      | None => Err "decode workspace desired state: workspace is missing"
      | Some w => Ok (if String.eqb (Dto.Namespace w) "" then EngineName (r_Identity r) else Dto.Namespace w)
      end
  end.

(** Values of variables do not leave the portal. *)
Definition strip_env (e : Dto.EnvironmentVariable) : Dto.EnvironmentVariable := Dto.mkEnv (Dto.env_Name e) "" (Dto.ValueFrom e).
(** Elements are changed in place: a nil slice stays nil. *)
Definition in_place {A} (f : A -> A) (s : slice A) : slice A := match s with Some l => Some (f <$> l) | None => None end.
Definition strip_application (a : Dto.ApplicationDesired) : Dto.ApplicationDesired :=
  let strip_c c := Dto.mkContainer (Dto.c_Name c) (Dto.c_Image c) (Dto.c_Command c) (Dto.c_Args c) (in_place strip_env (Dto.c_Env c)) in
  let strip_o o := Dto.mkOverride (Dto.ov_ClusterSelector o) (Dto.ov_Image o) (in_place strip_env (Dto.ov_Env o))
                     (Dto.ov_Resources o) (Dto.ov_Command o) (Dto.ov_Args o) in
  Dto.mkApplication (Dto.Workload a) (Dto.Replicas a)
    (Dto.mkPodTemplate (Dto.Labels (Dto.Template a)) (in_place strip_c (Dto.Containers (Dto.Template a))))
    (Dto.Schedule a) (Dto.Suspend a) (Dto.Selector a) (Dto.JobAttrs a) (Dto.ClusterAffinity a) (Dto.ClusterTolerations a)
    (in_place strip_o (Dto.Overrides a)) (Dto.Resiliency a) (Dto.RolloutStrategy a).

(** What a ResourceView shows of a record. *)
Record ResourceView := mkView {
  v_ID : string; v_Kind : string; v_Name : string; v_ParentID : string; v_ProjectID : string; v_ModuleID : string;
  v_Desired : Dto.DesiredState; v_Observed : Dto.ObservedState; v_ObservedAt : option Z;
  v_SyncState : string; v_Source : string; v_State : string }.

Definition decode_projection {A} `{Json A} (what : string) (zero : A) (raw : string) : res A :=
  if String.eqb raw "" then Ok zero
  else match Unmarshal raw with Ok v => Ok v | Err e => Err ("decode " +:+ what +:+ " projection: " +:+ e) end.

Definition recordView (r : ResourceRecord) : res ResourceView :=
  desired ← decode_projection "desired" (Dto.mkDesired None None) (DesiredJSON (r_Desired r));
  let desired := Dto.mkDesired (strip_application <$> Dto.Application desired) (Dto.Workspace desired) in
  observed ← decode_projection "observed" (Dto.mkObserved None None None) (ObservedJSON (r_Observed r));
  let i := r_Identity r in let o := r_Owner r in let p := r_Progress r in
  Ok (mkView (ID i) (Kind i) (Name i) (ParentID o) (ProjectPublicID o) (ModulePublicID o) desired observed
        (ObservedAt (r_Observed r)) (SyncState p) (Source p) (State p)).
End pure.

(** ** Requests *)

(** What is outside of the database: the engine, and the health of the worker. *)
Record portal_outside `{EngineApi} := mkOutside { po_engine : engine; workerStarted : bool; lastLoopError : option string }.
Arguments mkOutside {_ _ _ _}.

Section gateway.
Context `{GoRuntime, Ambient, GatewayJson, EngineTypes, !AdapterJson, Kubernetes, ApiErrors, !EngineApi}.

Abbreviation portal := (store portal_outside).
Abbreviation step := (action portal).

(** A call to the engine. *)
Definition on_engine {A} (f : engine -> engine * A) : portal -> portal * A :=
  outside (fun x => let '(e, a) := f (po_engine x) in (mkOutside e (workerStarted x) (lastLoopError x), a)).

Definition PrincipalForUser (userID : Z) : step Principal :=
  user ← First users_table (fun u => u_ID u =? userID);
  let admin := String.eqb (u_RoleName user) RoleAdmin in
  if admin then mret (mkPrincipal (u_ID user) (u_RoleID user) (u_RoleName user) "" true)
  else match u_ModuleID user, u_ModulePublicID user with
       | Some _, Some m =>
           if String.eqb m "" then fail ErrForbidden
           else mret (mkPrincipal (u_ID user) (u_RoleID user) (u_RoleName user) m false)
       | _, _ => fail ErrForbidden
       end.

Definition findIdempotent (actorID : Z) (key fingerprint : string) : step (option Operation) :=
  r ← attempt (First operations_table (fun o => (ActorID o =? actorID) && String.eqb (IdempotencyKey o) key));
  match r with
  | Err e => if String.eqb e ErrRecordNotFound then mret None else fail e
  | Ok op => if negb (String.eqb (Fingerprint op) fingerprint) then fail ErrIdempotencyConflict else mret (Some op)
  end.

(** The frame of every request that changes something: the operation of an earlier request
    with the same key is returned, also when that request has won the race to the
    unique index. *)
Definition idempotent (actor : Principal) (key fingerprint : string) (body : step Operation) : step Operation :=
  r ← attempt (transaction (
        found ← findIdempotent (UserID actor) key fingerprint;
        match found with Some op => mret op | None => body end));
  match r with
  | Ok op => mret op
  | Err err =>
      if isUniqueConflict err then
        found ← findIdempotent (UserID actor) key fingerprint;
        match found with Some op => mret op | None => fail err end
      else fail err
  end.

Definition key_or_new (key prefix : string) : step string :=
  if String.eqb key "" then newPublicID prefix else mret key.

(** The operation and its event. *)
Definition create_operation (key : string) (actorID : Z) (module_ route fingerprint resourceID action : string) (revision : Z)
    : step Operation :=
  opID ← newPublicID "op";
  op ← Create operations_table (fun now => mkOperation opID key actorID module_ route fingerprint resourceID action "pending" "" now now);
  evtID ← newPublicID "evt";
  available ← Now;
  _ ← Create outbox_table (fun now => mkEvent evtID opID resourceID action revision 0 "" available None "" None now);
  mret op.

Definition new_progress (applied : Z) (sync source state : string) : Progress := mkProgress applied sync source state None.

Definition live_workspace (id : string) (r : ResourceRecord) : bool :=
  id_is id r && kind_is ResourceWorkspace r && negb (sync_is "deleting" r) && negb (state_is "archived" r).

(** The owner and the namespace of a new record. *)
Definition place_workspace (actor : Principal) (input : ResourceInput) : step (Ownership * string) :=
  if String.eqb (in_ProjectID input) "" then fail "projectId is required"
  else
    r ← attempt (First projects_table (fun p => String.eqb (p_PublicID p) (in_ProjectID input) &&
                   (Admin actor || String.eqb (p_ModulePublicID p) (pr_ModulePublicID actor))));
    match r with
    | Err e => if String.eqb e ErrRecordNotFound then fail "project not found" else fail e
    | Ok project =>
        let asked := match Dto.Workspace (in_Desired input) with Some w => Dto.Namespace w | None => "" end in
        mret (mkOwnership (p_PublicID project) (Some (p_ModuleID project)) (Some (p_ID project)) (p_PublicID project)
                (p_ModulePublicID project),
              if String.eqb asked "" then in_Name input else asked)
    end.

Definition place_application (actor : Principal) (input : ResourceInput) : step (Ownership * string) :=
  if String.eqb (in_WorkspaceID input) "" then fail "workspaceId is required"
  else
    r ← attempt (First records_table (fun r => scope actor r && resourceActive r && live_workspace (in_WorkspaceID input) r));
    match r with
    | Err _ => fail "workspace not found"
    | Ok parent =>
        namespace ← of_res (effectiveWorkspaceNamespace parent);
        let o := r_Owner parent in
        mret (mkOwnership (ID (r_Identity parent)) (ModuleID o) (ProjectID o) (ProjectPublicID o) (ModulePublicID o), namespace)
    end.

(** The record of a request: its first revision, which is not applied yet. *)
Definition created_record (id kind name namespace : string) (owner : Ownership) (desired : string) (now : Z) : ResourceRecord :=
  mkRecord (mkIdentity id kind name name namespace (Some (activeIdentity kind name namespace))) owner
    (mkDesired desired (desiredDigest desired) 1) (mkObserved "" None "") (new_progress 0 "pending" "api" "") now now.

Definition create_body (actor : Principal) (kind : string) (input : ResourceInput) (desired key route fingerprint : string) : step Operation :=
  id ← newPublicID kind;
  '(owner, namespace) ← (if String.eqb kind ResourceWorkspace then place_workspace actor input
                         else if String.eqb kind ResourceApplication then place_application actor input
                         else fail ("unsupported resource kind " +:+ kind));
  _ ← Create records_table (created_record id kind (in_Name input) namespace owner desired);
  create_operation key (UserID actor) (ModulePublicID owner) route fingerprint id "apply" 1.

Definition CreateResource (actor : Principal) (kind : string) (input : ResourceInput) (idempotencyKey : string) : step Operation :=
  if String.eqb (in_Name input) "" then fail "name is required"
  else
    _ ← of_res (validateDesired kind (in_Desired input) false);
    desired ← of_res (match Marshal (in_Desired input) with Ok s => Ok s | Err e => Err ("encode desired state: " +:+ e) end);
    key ← key_or_new idempotencyKey "idem";
    let route := "/api/v1/" +:+ kind +:+ "s" in
    let fingerprint := requestFingerprint actor route "create" "" (Some input) in
    idempotent actor key fingerprint (create_body actor kind input desired key route fingerprint).

(** *** Update *)

(** The namespace of a workspace does not change under its applications. *)
Definition check_namespace (record : ResourceRecord) (kind : string) (input : ResourceInput) : step () :=
  if String.eqb kind ResourceWorkspace && hasDesired (in_Desired input) then
    currentNamespace ← of_res (effectiveWorkspaceNamespace record);
    encoded ← of_res (Marshal (in_Desired input));
    let d := r_Desired record in
    newNamespace ← of_res (effectiveWorkspaceNamespace
      (with_desired record (mkDesired encoded (DesiredHash d) (DesiredRevision d)) (UpdatedAt record)));
    if String.eqb currentNamespace newNamespace then mret tt
    else
      children ← Count records_table (fun r => String.eqb (ParentID (r_Owner r)) (ID (r_Identity record)) &&
                   kind_is ResourceApplication r && resourceActive r);
      if 0 <? children then fail ErrWorkspaceNamespaceInUse else mret tt
  else mret tt.

(** What is known before the transaction: the record that is to be changed. *)
Definition load_update (actor : Principal) (id kind : string) (input : ResourceInput) : step ResourceRecord :=
  record ← First records_table (fun r => scope actor r && resourceActive r && id_is id r && kind_is kind r &&
             negb (sync_is "deleting" r) && negb (state_is "archived" r));
  let expectedParent := if String.eqb kind ResourceWorkspace then in_ProjectID input else in_WorkspaceID input in
  if negb (String.eqb expectedParent "") && negb (String.eqb expectedParent (ParentID (r_Owner record))) then fail ErrParentImmutable
  else
    _ ← of_res (validateDesired kind (in_Desired input) true);
    if negb (String.eqb (in_Name input) "") && negb (String.eqb (in_Name input) (Name (r_Identity record)))
    then fail "resource name is immutable"
    else _ ← check_namespace record kind input; mret record.

(** [uint64] *)
Definition u64 (z : Z) : Z := z mod 2 ^ 64.

Definition next_desired (record : ResourceRecord) (input : ResourceInput) : res Desired :=
  if hasDesired (in_Desired input) then
    desired ← Marshal (in_Desired input);
    Ok (mkDesired desired (desiredDigest desired) (u64 (DesiredRevision (r_Desired record) + 1)))
  else Ok (r_Desired record).

(** The compare-and-set of an update, and its columns. *)
Definition update_guard (record r : ResourceRecord) : bool :=
  id_is (ID (r_Identity record)) r && resourceActive r && revision_is (DesiredRevision (r_Desired record)) r &&
  negb (sync_is "deleting" r) && negb (state_is "archived" r).
Definition update_change (desired : Desired) (identity : option (string * string)) (now : Z) (r : ResourceRecord) : ResourceRecord :=
  let r := set_sync "pending" now (with_desired r desired now) in
  match identity with
  | Some (namespace, active) =>
      let i := r_Identity r in
      with_record_identity r (mkIdentity (ID i) (Kind i) (Name i) (EngineName i) namespace (Some active)) now
  | None => r
  end.

Definition update_body (actor : Principal) (id kind : string) (input : ResourceInput) (record : ResourceRecord)
    (key route fingerprint : string) : step Operation :=
  desired ← of_res (next_desired record input);
  identity ← (if String.eqb kind ResourceWorkspace && hasDesired (in_Desired input) then
                namespace ← of_res (effectiveWorkspaceNamespace (with_desired record desired (UpdatedAt record)));
                mret (Some (namespace, activeIdentity kind (EngineName (r_Identity record)) namespace))
              else mret None);
  affected ← Updates records_table (update_guard record) (update_change desired identity);
  if affected =? 1 then
    create_operation key (UserID actor) (ModulePublicID (r_Owner record)) route fingerprint id "apply" (DesiredRevision desired)
  else fail ErrConcurrentModification.

Definition commit_update (actor : Principal) (id kind : string) (input : ResourceInput) (record : ResourceRecord) (idempotencyKey : string)
    : step Operation :=
  key ← key_or_new idempotencyKey "idem";
  let route := "/api/v1/" +:+ kind +:+ "s/" +:+ id in
  let fingerprint := requestFingerprint actor route "update" id (Some input) in
  idempotent actor key fingerprint (update_body actor id kind input record key route fingerprint).

Definition Update (actor : Principal) (id kind : string) (input : ResourceInput) (idempotencyKey : string) : step Operation :=
  record ← load_update actor id kind input;
  commit_update actor id kind input record idempotencyKey.

(** *** Delete *)

Definition delete_guard (id : string) (record r : ResourceRecord) : bool :=
  id_is id r && resourceActive r && revision_is (DesiredRevision (r_Desired record)) r && negb (sync_is "deleting" r).

Definition delete_body (actor : Principal) (id kind key route fingerprint : string) : step Operation :=
  record ← First records_table (fun r => scope actor r && resourceActive r && id_is id r && kind_is kind r);
  children ← Count records_table (fun r => resourceActive r && String.eqb (ParentID (r_Owner r)) id);
  if 0 <? children then fail "cannot delete resource with children"
  else
    affected ← Updates records_table (delete_guard id record) (set_sync "deleting");
    if affected =? 1 then
      create_operation key (UserID actor) (ModulePublicID (r_Owner record)) route fingerprint id "delete" (DesiredRevision (r_Desired record))
    else fail ErrConcurrentModification.

Definition Delete (actor : Principal) (id kind idempotencyKey : string) : step Operation :=
  key ← key_or_new idempotencyKey "idem";
  let route := "/api/v1/" +:+ kind +:+ "s/" +:+ id in
  let fingerprint := requestFingerprint actor route "delete" id None in
  idempotent actor key fingerprint (delete_body actor id kind key route fingerprint).

(** *** Reads *)

Definition Get (actor : Principal) (id kind : string) : step ResourceView :=
  r ← First records_table (fun r => scope actor r && resourceActive r && id_is id r && kind_is kind r);
  of_res (recordView r).

Definition List_ (actor : Principal) (kind : string) : step (list ResourceView) :=
  rs ← Find records_table (fun r => scope actor r && resourceActive r && kind_is kind r &&
         negb (String.eqb kind ResourceCluster && negb (Admin actor)));
  of_res (map_res recordView (go_sort (fun a b => CreatedAt b <? CreatedAt a) rs)).

Definition GetOperation (actor : Principal) (id : string) : step Operation :=
  First operations_table (fun o => String.eqb (op_ID o) id &&
    (Admin actor || ((ActorID o =? UserID actor) && String.eqb (op_ModulePublicID o) (pr_ModulePublicID actor)))).

(** *** Adoption *)

Definition adopt_guard (r x : ResourceRecord) : bool := id_is (ID (r_Identity r)) x && state_is "discovered" x && resourceActive x.
Definition adopt_change (now : Z) (x : ResourceRecord) : ResourceRecord :=
  let p := r_Progress x in with_progress x (mkProgress (AppliedRevision p) "pending" (Source p) "adopting" (ArchivedAt p)) now.

Definition adopt_body (actor : Principal) (id key route fingerprint : string) : step Operation :=
  r ← First records_table (fun r => id_is id r && kind_is ResourceCluster r);
  if negb (state_is "discovered" r) then fail "cluster is not awaiting adoption"
  else
    affected ← Updates records_table (adopt_guard r) adopt_change;
    if affected =? 1 then create_operation key (UserID actor) "" route fingerprint id "adopt" (DesiredRevision (r_Desired r))
    else fail ErrConcurrentModification.

Definition AdoptCluster (actor : Principal) (id idempotencyKey : string) : step Operation :=
  if negb (Admin actor) then fail ErrForbidden
  else
    key ← key_or_new idempotencyKey "idem";
    let route := "/api/v1/clusters/" +:+ id +:+ "/adopt" in
    let fingerprint := requestFingerprint actor route "adopt" id None in
    idempotent actor key fingerprint (adopt_body actor id key route fingerprint).

(** A parent that applications may be given to. *)
Definition adoptive_workspace (id : string) (r : ResourceRecord) : bool :=
  id_is id r && kind_is ResourceWorkspace r && resourceActive r && negb (sync_is "deleting" r) &&
  negb (state_is "unassigned" r || state_is "archived" r).

Definition adoptive_owner (r : ResourceRecord) (kind : string) (input : ResourceInput) : step Ownership :=
  if String.eqb kind ResourceWorkspace then
    if String.eqb (in_ProjectID input) "" then fail "projectId is required"
    else
      p ← attempt (First projects_table (fun p => String.eqb (p_PublicID p) (in_ProjectID input)));
      match p with
      | Err _ => fail "project not found"
      | Ok p => mret (mkOwnership (p_PublicID p) (Some (p_ModuleID p)) (Some (p_ID p)) (p_PublicID p) (p_ModulePublicID p))
      end
  else if String.eqb (in_WorkspaceID input) "" then fail "workspaceId is required"
  else
    parent ← attempt (First records_table (adoptive_workspace (in_WorkspaceID input)));
    match parent with
    | Err e => if String.eqb e ErrRecordNotFound then fail ErrParentUnavailable else fail e
    | Ok parent =>
        namespace ← of_res (effectiveWorkspaceNamespace parent);
        if negb (String.eqb namespace (EngineNamespace (r_Identity r)))
        then fail "application namespace does not match workspace namespace"
        else let o := r_Owner parent in
             mret (mkOwnership (ID (r_Identity parent)) (ModuleID o) (ProjectID o) (ProjectPublicID o) (ModulePublicID o))
    end.

Definition adopt_existing_guard (r x : ResourceRecord) : bool :=
  id_is (ID (r_Identity r)) x && state_is "unassigned" x && String.eqb (ParentID (r_Owner x)) "".
Definition adopt_existing_change (owner : Ownership) (now : Z) (x : ResourceRecord) : ResourceRecord :=
  let p := r_Progress x in
  with_owner (with_progress x (mkProgress (AppliedRevision p) "pending" "api" "adopting" (ArchivedAt p)) now) owner now.

Definition adopt_existing_body (actor : Principal) (id kind : string) (input : ResourceInput) (key route fingerprint : string)
    : step Operation :=
  r ← First records_table (fun r => resourceActive r && id_is id r && kind_is kind r && state_is "unassigned" r &&
        String.eqb (Source (r_Progress r)) "engine");
  if negb (String.eqb (CapabilityError (r_Observed r)) "")
  then fail ("unsupported Engine application cannot be adopted without loss: " +:+ CapabilityError (r_Observed r))
  else
    owner ← adoptive_owner r kind input;
    affected ← Updates records_table (adopt_existing_guard r) (adopt_existing_change owner);
    if affected =? 1 then
      create_operation key (UserID actor) (ModulePublicID owner) route fingerprint (ID (r_Identity r)) "adopt-existing"
        (DesiredRevision (r_Desired r))
    else
      parents ← (if String.eqb kind ResourceApplication then Count records_table (adoptive_workspace (in_WorkspaceID input))
                 else mret 1);
      fail (if parents =? 1 then ErrConcurrentModification else ErrParentUnavailable).

Definition AdoptExisting (actor : Principal) (id kind : string) (input : ResourceInput) (idempotencyKey : string) : step Operation :=
  if negb (Admin actor) then fail ErrForbidden
  else if negb (String.eqb kind ResourceWorkspace) && negb (String.eqb kind ResourceApplication)
  then fail "only discovered workspaces and applications can be adopted"
  else
    key ← key_or_new idempotencyKey "idem";
    let route := "/api/v1/" +:+ kind +:+ "s/" +:+ id +:+ "/adopt-existing" in
    let fingerprint := requestFingerprint actor route "adopt" id (Some input) in
    idempotent actor key fingerprint (adopt_existing_body actor id kind input key route fingerprint).

(** ** The worker *)

(** A result in which "not found" is no error. *)
Definition found_or {A} (r : res A) : step (option A) :=
  match r with Ok a => mret (Some a) | Err e => if IsNotFound e then mret None else fail e end.

Definition decode_desired (r : ResourceRecord) : step Dto.DesiredState := of_res (Unmarshal (DesiredJSON (r_Desired r))).

(** Whether the engine's object differs from what is desired. *)
Definition projectionDrifted (r : ResourceRecord) : step bool :=
  desired ← decode_desired r;
  let i := r_Identity r in
  if kind_is ResourceWorkspace r then
    got ← call (on_engine (eng_GetWorkspace (EngineName i)));
    current ← found_or got;
    match current, Dto.Workspace desired with
    | None, _ => mret true
    | Some _, None => fail "workspace desired state missing"
    | Some current, Some w =>
        mret (negb (bool_decide (wo_Spec current = workspaceSpec w)) || negb (businessLabelsMatch (wo_Labels current) (businessLabels r)))
    end
  else if kind_is ResourceApplication r then
    got ← call (on_engine (eng_GetApplication (EngineNamespace i) (EngineName i)));
    current ← found_or got;
    match current, Dto.Application desired with
    | None, _ => mret true
    | Some _, None => fail "application desired state missing"
    | Some current, Some a =>
        expected ← of_res (applicationSpec a);
        mret (negb (bool_decide (ao_Spec current = expected)) || negb (businessLabelsMatch (ao_Labels current) (businessLabels r)))
    end
  else mret false.

(** At most one repair is pending for a resource. *)
Definition enqueueRepair (r : ResourceRecord) : step () :=
  transaction (
    count ← Count outbox_table (fun e => String.eqb (ev_ResourceID e) (ID (r_Identity r)) &&
              match ProcessedAt e with None => true | Some _ => false end);
    if 0 <? count then mret tt
    else
      key ← newPublicID "repair";
      _ ← create_operation key 0 (ModulePublicID (r_Owner r)) "internal/reconcile" (DesiredHash (r_Desired r)) (ID (r_Identity r))
            "apply" (DesiredRevision (r_Desired r));
      mret tt).

Definition ensure_one (r : ResourceRecord) : step () :=
  let p := r_Progress r in
  backoff ← (if sync_is "failed" r then (now ← Now; mret (now - UpdatedAt r <? 30 * second)) else mret false);
  match backoff with
  | true => mret tt
  | false =>
      drifted ← projectionDrifted r;
      if negb drifted && (DesiredRevision (r_Desired r) <=? AppliedRevision p) then mret tt else enqueueRepair r
  end.

(** [for i := range l { if err := f(&l[i]); err != nil { return err } }] *)
Fixpoint for_each {A} (f : A -> step ()) (l : list A) : step () :=
  match l with [] => mret tt | x :: l => _ ← f x; for_each f l end.

(** [k8s] says whether there is a client for the engine. *)
Definition EnsureDesired (k8s : bool) : step () :=
  if negb k8s then mret tt
  else
    rs ← Find records_table (fun r => resourceActive r && (kind_is ResourceWorkspace r || kind_is ResourceApplication r) &&
           String.eqb (Source (r_Progress r)) "api" && negb (sync_is "deleting" r));
    for_each ensure_one rs.

(** *** Observation *)

Definition set_observed (json : string) (at_ : Z) (now : Z) (r : ResourceRecord) : ResourceRecord :=
  with_observed r (mkObserved json (Some at_) (CapabilityError (r_Observed r))) now.

(** The revision that was observed is still the desired one. *)
Definition observe_guard (r x : ResourceRecord) : bool :=
  id_is (ID (r_Identity r)) x && revision_is (DesiredRevision (r_Desired r)) x && resourceActive x.

Definition markMissingAndRepair (r : ResourceRecord) : step () :=
  if sync_is "deleting" r then mret tt
  else
    at_ ← Now;
    _ ← transaction (Updates records_table (observe_guard r) (fun now x => set_observed "" at_ now (set_sync "stale" now x)));
    if String.eqb (Source (r_Progress r)) "api" then enqueueRepair r else mret tt.

(** What the engine reports of a record: [None] when its object is missing. *)
Definition observe (r : ResourceRecord) : step (option Dto.ObservedState) :=
  let i := r_Identity r in
  if kind_is ResourceWorkspace r then
    got ← call (on_engine (eng_GetWorkspace (EngineName i)));
    obj ← found_or got;
    mret ((fun o => Dto.mkObserved None (Some (workspaceObserved (wo_Status o))) None) <$> obj)
  else if kind_is ResourceApplication r then
    got ← call (on_engine (eng_GetApplication (EngineNamespace i) (EngineName i)));
    obj ← found_or got;
    mret ((fun o => Dto.mkObserved (Some (applicationObserved (ao_Status o))) None None) <$> obj)
  else mret (Some (Dto.mkObserved None None None)).

Definition sync_one (r : ResourceRecord) : step () :=
  observed ← observe r;
  match observed with
  | None => markMissingAndRepair r
  | Some observed =>
      encoded ← of_res (Marshal observed);
      at_ ← Now;
      _ ← Updates records_table (observe_guard r) (set_observed encoded at_);
      mret tt
  end.

Definition SyncObserved (k8s : bool) : step () :=
  if negb k8s then mret tt
  else
    rs ← Find records_table (fun r => resourceActive r && (kind_is ResourceWorkspace r || kind_is ResourceApplication r));
    for_each sync_one rs.

(** *** Discovery *)

(** [Create], where a unique conflict is no error. *)
Definition create_if_new (row : Z -> ResourceRecord) : step () :=
  r ← attempt (Create records_table row);
  match r with Ok _ => mret tt | Err e => if isUniqueConflict e then mret tt else fail e end.

Definition unassigned : Ownership := mkOwnership "" None None "" "".

(** The record of an object of the engine: its first revision, which the engine has. *)
Definition discovered_record (id kind name namespace raw : string) (at_ : Z) (capabilityError sync : string) (now : Z) : ResourceRecord :=
  mkRecord (mkIdentity id kind name name namespace (Some (activeIdentity kind name namespace))) unassigned
    (mkDesired raw (desiredDigest raw) 1) (mkObserved "" (Some at_) capabilityError) (new_progress 1 sync "engine" "unassigned") now now.

Definition discover_workspace (w : WorkspaceObject) : step () :=
  count ← Count records_table (fun r => kind_is ResourceWorkspace r && String.eqb (EngineName (r_Identity r)) (wo_Name w));
  if 0 <? count then mret tt
  else
    let namespace := if String.eqb (ws_Name (wo_Spec w)) "" then wo_Name w else ws_Name (wo_Spec w) in
    let d := workspaceDesired (wo_Spec w) in
    let d := if String.eqb (Dto.Namespace d) "" then
               Dto.mkWorkspace namespace (Dto.ClusterMatchLabels d) (Dto.ClusterSelector d) (Dto.ResourceConstraints d) else d in
    let raw := unwrap "" (Marshal (Dto.mkDesired None (Some d))) in
    at_ ← Now;
    id ← newPublicID "workspace";
    create_if_new (discovered_record id ResourceWorkspace (wo_Name w) namespace raw at_ "" "synced").

Definition discover_application (a : ApplicationObject) : step () :=
  count ← Count records_table (fun r => kind_is ResourceApplication r && String.eqb (EngineName (r_Identity r)) (ao_Name a) &&
            String.eqb (EngineNamespace (r_Identity r)) (ao_Namespace a));
  if 0 <? count then mret tt
  else
    let '(raw, capabilityError, syncState) :=
      match applicationDesired (ao_Spec a) with
      | Ok desired => (unwrap "" (Marshal (Dto.mkDesired (Some desired) None)), "", "synced")
      | Err e => ("{}", e, "unsupported")
      end in
    at_ ← Now;
    id ← newPublicID "application";
    create_if_new (discovered_record id ResourceApplication (ao_Name a) (ao_Namespace a) raw at_ capabilityError syncState).

Definition DiscoverEngineResources (k8s : bool) : step () :=
  if negb k8s then mret tt
  else
    workspaces ← returns (on_engine eng_ListWorkspaces);
    _ ← for_each discover_workspace workspaces;
    applications ← returns (on_engine eng_ListApplications);
    for_each discover_application applications.

(** The columns that are not set take the defaults of the table: revision 1. *)
Definition cluster_record (id name observed : string) (at_ now : Z) : ResourceRecord :=
  mkRecord (mkIdentity id ResourceCluster name name "" (Some (activeIdentity ResourceCluster name ""))) unassigned
    (mkDesired "" "" 1) (mkObserved observed (Some at_) "") (new_progress 0 "synced" "agent" "discovered") now now.

Definition discover_cluster (c : ManagedCluster) : step () :=
  if negb (String.eqb (ConnectionMode (mc_Access c)) "Edge") ||
     negb (String.eqb (get_str (mc_Labels c) "kumquat.io/registration-source") "agent") then mret tt
  else
    observed ← of_res (Marshal (Dto.mkObserved None None (Some (clusterObserved c))));
    at_ ← Now;
    r ← attempt (First records_table (fun r => resourceActive r && kind_is ResourceCluster r &&
                   String.eqb (EngineName (r_Identity r)) (mc_Name c)));
    match r with
    | Err e =>
        if String.eqb e ErrRecordNotFound then
          id ← newPublicID "cluster";
          _ ← Create records_table (cluster_record id (mc_Name c) observed at_);
          mret tt
        else fail e
    | Ok r => _ ← Updates records_table (id_is (ID (r_Identity r))) (set_observed observed at_); mret tt
    end.

Definition DiscoverClusters (k8s : bool) : step () :=
  if negb k8s then mret tt
  else cs ← returns (on_engine eng_ListClusters); for_each discover_cluster cs.

(** *** Events *)

Definition pending (e : OutboxEvent) : bool := match ProcessedAt e with None => true | Some _ => false end.
Definition unclaimed (now : Z) (e : OutboxEvent) : bool := match ClaimUntil e with None => true | Some t => t <? now end.
Definition event_is (id : string) (e : OutboxEvent) : bool := String.eqb (ev_ID e) id.

(** [ORDER BY created_at], then by the primary key. *)
Definition event_before (a b : OutboxEvent) : bool :=
  (ev_CreatedAt a <? ev_CreatedAt b) || ((ev_CreatedAt a =? ev_CreatedAt b) && String.ltb (ev_ID a) (ev_ID b)).

Definition with_claim (e : OutboxEvent) (token : string) (until : option Z) : OutboxEvent :=
  mkEvent (ev_ID e) (ev_OperationID e) (ev_ResourceID e) (ev_Action e) (ev_DesiredRevision e) (Attempts e) (LastError e)
    (AvailableAt e) (ProcessedAt e) token until (ev_CreatedAt e).
(** The columns that are written when an attempt is over; the claim is given up. *)
Definition after_attempt (e : OutboxEvent) (attempts : Z) (error : string) (available : Z) (processed : option Z) : OutboxEvent :=
  mkEvent (ev_ID e) (ev_OperationID e) (ev_ResourceID e) (ev_Action e) (ev_DesiredRevision e) attempts error available processed
    "" None (ev_CreatedAt e).

(** The first available event, claimed for thirty seconds; [None] when there is none. *)
Definition claim_event (token : string) (now : Z) : step (option OutboxEvent) :=
  r ← attempt (transaction (
        candidate ← FirstBy outbox_table event_before (fun e => pending e && (AvailableAt e <=? now) && unclaimed now e);
        affected ← Updates outbox_table (fun e => event_is (ev_ID candidate) e && pending e && unclaimed now e)
                     (fun _ e => with_claim e token (Some (now + 30 * second)));
        if affected =? 1 then First outbox_table (event_is (ev_ID candidate)) else fail ErrRecordNotFound));
  match r with
  | Ok e => mret (Some e)
  | Err e => if String.eqb e ErrRecordNotFound then mret None else fail e
  end.

(** The event, if it is still claimed with the token and not processed. *)
Definition claimed_event (id token : string) : step (res OutboxEvent) :=
  attempt (First outbox_table (fun e => event_is id e && String.eqb (ClaimToken e) token && pending e)).

Definition save_event (e : OutboxEvent) : step () :=
  _ ← Updates outbox_table (event_is (ev_ID e)) (fun _ _ => e); mret tt.

Definition terminal (state : string) : bool := String.eqb state "succeeded" || String.eqb state "failed".
(** An operation that has not ended gets its state and its error. *)
Definition operation_guard (id : string) (o : Operation) : bool := String.eqb (op_ID o) id && negb (terminal (op_State o)).
Definition operation_change (state error : string) (now : Z) (o : Operation) : Operation :=
  mkOperation (op_ID o) (IdempotencyKey o) (ActorID o) (op_ModulePublicID o) (Route o) (Fingerprint o)
    (op_ResourceID o) (op_Action o) state error (op_CreatedAt o) now.
Definition set_operation (id state error : string) : step () :=
  _ ← Updates operations_table (operation_guard id) (operation_change state error); mret tt.

Definition operation_of (e : OutboxEvent) : step Operation := First operations_table (fun o => String.eqb (op_ID o) (ev_OperationID e)).

Definition discardEvent (e : OutboxEvent) (cause : string) : step () :=
  now ← Now;
  transaction (
    r ← claimed_event (ev_ID e) (ClaimToken e);
    match r with
    | Err err => if String.eqb err ErrRecordNotFound then mret tt else fail err
    | Ok claimed =>
        _ ← save_event (after_attempt claimed (Attempts claimed) cause (AvailableAt claimed) (Some now));
        set_operation (ev_OperationID claimed) "failed" cause
    end).

(** An attempt that has failed: the event is processed after the last one, and available
    again after a pause otherwise. *)
Definition failed_attempt (claimed : OutboxEvent) (cause : string) (processed from : Z) : OutboxEvent * string :=
  let attempts := Attempts claimed + 1 in
  if maxOutboxAttempts <=? attempts
  then (after_attempt claimed attempts cause (AvailableAt claimed) (Some processed), "failed")
  else (after_attempt claimed attempts cause (from + attempts * second) None, "retrying").

Definition failEvent (e : OutboxEvent) (cause : string) : step () :=
  now ← Now;
  transaction (
    r ← claimed_event (ev_ID e) (ClaimToken e);
    match r with
    | Err err => if String.eqb err ErrRecordNotFound then mret tt else fail err
    | Ok claimed =>
        op ← operation_of claimed;
        let '(claimed, state) := failed_attempt claimed cause now now in
        _ ← save_event claimed;
        set_operation (op_ID op) state cause
    end).

Definition applies (action : string) : bool := String.eqb action "apply" || String.eqb action "adopt-existing".

(** An apply may write to a record that is active, not being deleted, and the portal's. *)
Definition applicable (r : ResourceRecord) : bool :=
  resourceActive r && negb (sync_is "deleting" r) && negb (state_is "archived" r) && String.eqb (Source (r_Progress r)) "api".

(** The record an event is about, in the state the event is for. *)
Definition event_target (e : OutboxEvent) (r : ResourceRecord) : bool :=
  id_is (ev_ResourceID e) r &&
  (if applies (ev_Action e) then applicable r && revision_is (ev_DesiredRevision e) r
   else if String.eqb (ev_Action e) "delete" then resourceActive r && sync_is "deleting" r && revision_is (ev_DesiredRevision e) r
   else resourceActive r).

(** [None] when the event has been dealt with. *)
Definition load_target (k8s : bool) (e : OutboxEvent) : step (option ResourceRecord) :=
  r ← attempt (First records_table (event_target e));
  match r with
  | Ok r => if k8s then mret (Some r) else _ ← failEvent e "engine client unavailable"; mret None
  | Err err =>
      if String.eqb err ErrRecordNotFound then
        exists_ ← attempt (Count records_table (id_is (ev_ResourceID e)));
        _ ← match exists_ with
            | Err countErr => failEvent e countErr
            | Ok n => if n =? 0 then failEvent e ErrRecordNotFound else discardEvent e ErrResourceArchived
            end;
        mret None
      else _ ← failEvent e err; mret None
  end.

(** [client.IgnoreNotFound] *)
Definition ignore_not_found (err : option string) : option string :=
  match err with Some e => if IsNotFound e then None else Some e | None => None end.

Definition project_workspace (r : ResourceRecord) (action : string) : step () :=
  let name := EngineName (r_Identity r) in
  if String.eqb action "delete" then
    err ← call (on_engine (eng_DeleteWorkspace name));
    check (fun s => (s, ignore_not_found err))
  else
    desired ← of_res (match Unmarshal (DesiredJSON (r_Desired r)) with
                      | Ok d => Ok d | Err e => Err ("decode workspace desired state: " +:+ e) end);
    match Dto.Workspace desired with
    | None => fail "decode workspace desired state: workspace is missing"
    | Some w =>
        let spec := workspaceSpec w in let labels := businessLabels r in
        got ← call (on_engine (eng_GetWorkspace name));
        current ← found_or got;
        match current with
        | Some current =>
            if bool_decide (wo_Spec current = spec) && bool_decide (wo_Labels current = labels) then mret tt
            else check (on_engine (eng_UpdateWorkspace
                   (mkWorkspaceObject _ (wo_Name current) (wo_ResourceVersion current) labels spec (wo_Status current))))
        | None => check (on_engine (eng_CreateWorkspace (mkWorkspaceObject _ name "" labels spec (mkWorkspaceStatus [] None None))))
        end
    end.

Definition project_application (r : ResourceRecord) (action : string) : step () :=
  let name := EngineName (r_Identity r) in let namespace := EngineNamespace (r_Identity r) in
  if String.eqb action "delete" then
    err ← call (on_engine (eng_DeleteApplication namespace name));
    check (fun s => (s, ignore_not_found err))
  else
    desired ← of_res (match Unmarshal (DesiredJSON (r_Desired r)) with
                      | Ok d => Ok d | Err e => Err ("decode application desired state: " +:+ e) end);
    match Dto.Application desired with
    | None => fail "decode application desired state: application is missing"
    | Some a =>
        spec ← of_res (match applicationSpec a with Ok s => Ok s | Err e => Err ("adapt application desired state: " +:+ e) end);
        let labels := businessLabels r in
        got ← call (on_engine (eng_GetApplication namespace name));
        current ← found_or got;
        match current with
        | Some current =>
            if bool_decide (ao_Spec current = spec) && bool_decide (ao_Labels current = labels) then mret tt
            else check (on_engine (eng_UpdateApplication
                   (mkApplicationObject _ (ao_Name current) (ao_Namespace current) (ao_ResourceVersion current) labels spec (ao_Status current))))
        | None => check (on_engine (eng_CreateApplication
                    (mkApplicationObject _ name namespace "" labels spec (mkAppStatus "" "" 0 0 [] [] [] 0 []))))
        end
    end.

Definition with_managed_by (c : ManagedCluster) : ManagedCluster :=
  mkCluster (mc_Name c) (AddManagedBy (mc_Labels c)) (mc_Deleting c) (mc_Taints c) (mc_ResourceSummary c) (mc_Conditions c)
    (mc_Access c) (mc_State c).

(** What an event does to the engine. *)
Definition project (r : ResourceRecord) (action : string) : step () :=
  if String.eqb action "adopt" then
    c ← returns (on_engine (eng_GetCluster (EngineName (r_Identity r))));
    check (on_engine (eng_UpdateCluster (with_managed_by c)))
  else if kind_is ResourceWorkspace r then project_workspace r action
  else if kind_is ResourceApplication r then project_application r action
  else mret tt.

(** The record after an event: its columns that are written back. *)
Definition outcome_progress (r : ResourceRecord) (action sync : string) (now : Z) (success : bool) : Progress * option string :=
  let p := r_Progress r in
  let key := ActiveKey (r_Identity r) in
  if success then
    if String.eqb action "adopt" || String.eqb action "adopt-existing"
    then (mkProgress (AppliedRevision p) sync (Source p) "adopted" (ArchivedAt p), key)
    else if String.eqb action "delete" then (mkProgress (AppliedRevision p) sync (Source p) "archived" (Some now), None)
    else (mkProgress (AppliedRevision p) sync (Source p) (State p) (ArchivedAt p), key)
  else (mkProgress (AppliedRevision p) sync (Source p) (State p) (ArchivedAt p), key).

Definition write_back_guard (r : ResourceRecord) (action : string) (x : ResourceRecord) : bool :=
  id_is (ID (r_Identity r)) x && revision_is (DesiredRevision (r_Desired r)) x && (if applies action then applicable x else true).
(** [sync_state], [state], [archived_at], [active_key], and the revision that was applied. *)
Definition write_back_change (r : ResourceRecord) (action sync : string) (ended : Z) (success : bool) (now : Z) (x : ResourceRecord)
    : ResourceRecord :=
  let '(p, key) := outcome_progress r action sync ended success in
  let applied := if success && applies action then DesiredRevision (r_Desired r) else AppliedRevision (r_Progress x) in
  let i := r_Identity x in
  with_record_identity (with_progress x (mkProgress applied (SyncState p) (Source (r_Progress x)) (State p) (ArchivedAt p)) now)
    (mkIdentity (ID i) (Kind i) (Name i) (EngineName i) (EngineNamespace i) key) now.

Definition write_back (r : ResourceRecord) (action sync : string) (now : Z) (success : bool) : step () :=
  _ ← Updates records_table (write_back_guard r action) (write_back_change r action sync now success);
  mret tt.

Definition finish_event (e : OutboxEvent) (token : string) (r : ResourceRecord) (err : option string) : step () :=
  now ← Now;
  transaction (
    claimed ← claimed_event (ev_ID e) token;
    match claimed with
    | Err _ => mret tt
    | Ok claimed =>
        op ← operation_of e;
        match err with
        | Some err =>
            from ← Now;
            let '(claimed, state) := failed_attempt claimed err now from in
            _ ← save_event claimed;
            _ ← set_operation (op_ID op) state err;
            write_back r (ev_Action e) state now false
        | None =>
            _ ← save_event (after_attempt claimed (Attempts claimed) (LastError claimed) (AvailableAt claimed) (Some now));
            _ ← set_operation (op_ID op) "succeeded" (op_Error op);
            write_back r (ev_Action e) "synced" now true
        end
    end).

Definition ReconcileOne (k8s : bool) : step () :=
  token ← newPublicID "claim";
  now ← Now;
  event ← claim_event token now;
  match event with
  | None => mret tt
  | Some event =>
      target ← load_target k8s event;
      match target with
      | None => mret tt
      | Some r =>
          result ← attempt (project r (ev_Action event));
          finish_event event token r (match result with Ok _ => None | Err e => Some e end)
      end
  end.

(** *** The loop *)

(** One round of [Run]; the errors are joined and kept for [Ready]. *)
Definition run_round : step () :=
  let one (loopErr : option string) (work : step ()) : step (option string) :=
    r ← attempt work;
    mret (match r, loopErr with
          | Ok _, _ => loopErr
          | Err e, None => Some e
          | Err e, Some e' => Some (e' +:+ String (Ascii.ascii_of_N 10) e)
          end) in
  loopErr ← one None (DiscoverClusters true);
  loopErr ← one loopErr (DiscoverEngineResources true);
  loopErr ← one loopErr (EnsureDesired true);
  loopErr ← one loopErr (SyncObserved true);
  loopErr ← one loopErr (ReconcileOne true);
  call (outside (fun x => (mkOutside (po_engine x) true loopErr, tt))).

(** [ping] is the error of the connection. *)
Definition Ready (k8s : bool) (ping : option string) (s : portal) : res () :=
  if negb k8s then Err "engine client unavailable"
  else match ping with
       | Some e => Err e
       | None =>
           if negb (workerStarted (g_outside s)) then Err "resource worker not started"
           else match lastLoopError (g_outside s) with
                | Some e => Err ("resource worker unhealthy: " +:+ e)
                | None => Ok tt
                end
       end.
End gateway.
