(* ===== verification/GatewayMachine.v ===== *)
(** * The gateway as a machine on its tables

    What the operations of Gateway.v may do to the tables, whatever the engine answers and
    whichever statements fail: the relation [transition].  The primary keys and the unique
    indexes are kept by every statement ([indexes_ok]).  A record or an event that an
    operation has read in an earlier transaction is a snapshot: [known], [flight].  The
    lemmas show that every operation does nothing or one transition. *)

From S2P Require Import Prelude GoRuntime Api Wp Store PortalStore EngineTypes EngineAdapter Gateway StoreLogic.

Section machine.
Context `{GoRuntime, Ambient, GatewayJson, EngineTypes, !AdapterJson, Kubernetes, ApiErrors, !EngineApi}.

Implicit Types (d : db) (r x : ResourceRecord) (e : OutboxEvent) (op : Operation).

(** ** The machine *)

Definition with_records (l : list ResourceRecord) d : db := mkDb l (operations d) (outbox d) (projects d) (users d).
Definition with_started op e d : db := mkDb (records d) (operations d ++ [op]) (outbox d ++ [e]) (projects d) (users d).
Definition with_outbox (l : list OutboxEvent) d : db := mkDb (records d) (operations d) l (projects d) (users d).

Definition indexes_ok d : Prop :=
  clash_free (clash records_table) (records d) = true /\ clash_free (clash operations_table) (operations d) = true /\
  clash_free (clash outbox_table) (outbox d) = true.

(** An operation and its event for a revision of a record. *)
Record starts (id action : string) (revision : Z) op e : Prop := mkStarts {
  starts_op : op_ID op = ev_OperationID e;
  starts_resource : op_ResourceID op = id /\ ev_ResourceID e = id;
  starts_action : op_Action op = action /\ ev_Action e = action;
  starts_revision : ev_DesiredRevision e = revision;
  starts_pending : op_State op = "pending" /\ ProcessedAt e = None /\ Attempts e = 0 }.

Definition active_key (i : Identity) : option string := Some (activeIdentity (Kind i) (EngineName i) (EngineNamespace i)).

(** A record at its first revision. *)
Record first_version r : Prop := mkFirst {
  first_key : ActiveKey (r_Identity r) = active_key (r_Identity r);
  first_revision : DesiredRevision (r_Desired r) = 1;
  first_applied : AppliedRevision (r_Progress r) = 0 \/ AppliedRevision (r_Progress r) = 1;
  first_active : ArchivedAt (r_Progress r) = None;
  first_synced : SyncState (r_Progress r) = "synced" -> Kind (r_Identity r) = ResourceCluster \/ AppliedRevision (r_Progress r) = 1 }.

(** The new columns of an update of a record. *)
Definition updated_to (record : ResourceRecord) (desired : Desired) (place : option (string * string)) : Prop :=
  (desired = r_Desired record /\ place = None) \/
  (DesiredRevision desired = u64 (DesiredRevision (r_Desired record) + 1) /\
   match place with
   | None => Kind (r_Identity record) <> ResourceWorkspace
   | Some (namespace, key) => Kind (r_Identity record) = ResourceWorkspace /\
       key = activeIdentity ResourceWorkspace (EngineName (r_Identity record)) namespace
   end).

(** The event [e] as it is stored, and the state of its operation. *)
Definition settle e (id state error : string) (now : Z) d : db :=
  mkDb (records d) (changed (operation_guard id) (operation_change state error now) (operations d))
    (changed (event_is (ev_ID e)) (fun _ => e) (outbox d)) (projects d) (users d).

Definition written r (action sync : string) (ended : Z) (success : bool) (now : Z) d : db :=
  with_records (changed (write_back_guard r action) (write_back_change r action sync ended success now) (records d)) d.

(** The claimed event of the table. *)
Definition holds_claim d e (id token : string) : Prop :=
  e ∈ outbox d /\ ev_ID e = id /\ ClaimToken e = token /\ pending e = true.

Inductive transition (known : ResourceRecord -> Prop) (flight : OutboxEvent -> ResourceRecord -> Prop) : db -> db -> Prop :=
  | T_create row op e d : first_version row -> starts (ID (r_Identity row)) "apply" 1 op e ->
      transition known flight d (with_started op e (with_records (records d ++ [row]) d))
  | T_update r desired place now op e d : known r -> updated_to r desired place -> DesiredRevision (r_Desired r) + 1 < 2 ^ 64 ->
      starts (ID (r_Identity r)) "apply" (DesiredRevision desired) op e ->
      transition known flight d
        (with_started op e (with_records (changed (update_guard r) (update_change desired place now) (records d)) d))
  | T_delete r now op e d : r ∈ records d -> starts (ID (r_Identity r)) "delete" (DesiredRevision (r_Desired r)) op e ->
      transition known flight d
        (with_started op e (with_records (changed (delete_guard (ID (r_Identity r)) r) (set_sync "deleting" now) (records d)) d))
  | T_adopt r now op e d : r ∈ records d -> Kind (r_Identity r) = ResourceCluster ->
      starts (ID (r_Identity r)) "adopt" (DesiredRevision (r_Desired r)) op e ->
      transition known flight d (with_started op e (with_records (changed (adopt_guard r) (adopt_change now) (records d)) d))
  | T_adopt_existing r owner now op e d : r ∈ records d ->
      starts (ID (r_Identity r)) "adopt-existing" (DesiredRevision (r_Desired r)) op e ->
      transition known flight d
        (with_started op e (with_records (changed (adopt_existing_guard r) (adopt_existing_change owner now) (records d)) d))
  | T_repair r op e d : known r -> (forall e', e' ∈ outbox d -> ev_ResourceID e' = ID (r_Identity r) -> pending e' = false) ->
      starts (ID (r_Identity r)) "apply" (DesiredRevision (r_Desired r)) op e ->
      transition known flight d (with_started op e d)
  | T_stale r at_ now d : known r ->
      transition known flight d
        (with_records (changed (observe_guard r) (fun x => set_observed "" at_ now (set_sync "stale" now x)) (records d)) d)
  | T_observed guard json at_ now d :
      transition known flight d (with_records (changed guard (set_observed json at_ now) (records d)) d)
  | T_discovered row d : first_version row ->       transition known flight d (with_records (records d ++ [row]) d)
  | T_claim id token until now d :
      transition known flight d
        (with_outbox (changed (fun e => event_is id e && pending e && unclaimed now e)
                        (fun e => with_claim e token (Some until)) (outbox d)) d)
  | T_discarded e cause at_ now d : holds_claim d e (ev_ID e) (ClaimToken e) ->
      transition known flight d
        (settle (after_attempt e (Attempts e) cause (AvailableAt e) (Some at_)) (ev_OperationID e) "failed" cause now d)
  | T_failed e cause processed from now d : holds_claim d e (ev_ID e) (ClaimToken e) ->
      let next := failed_attempt e cause processed from in
      transition known flight d (settle next.1 (ev_OperationID e) next.2 cause now d)
  | T_finish_failed e r claimed cause processed from now now' d : flight e r -> holds_claim d claimed (ev_ID e) (ClaimToken claimed) ->
      let next := failed_attempt claimed cause processed from in
      transition known flight d
        (settle next.1 (ev_OperationID e) next.2 cause now (written r (ev_Action e) next.2 processed false now' d))
  | T_finished e r claimed at_ error now now' d : flight e r -> holds_claim d claimed (ev_ID e) (ClaimToken claimed) ->
      transition known flight d
        (settle (after_attempt claimed (Attempts claimed) (LastError claimed) (AvailableAt claimed) (Some at_)) (ev_OperationID e)
           "succeeded" error now (written r (ev_Action e) "synced" at_ true now' d)).
(** A transition after which the indexes are whole. *)
Definition moves known flight d d' : Prop := transition known flight d d' /\ indexes_ok d'.
Abbreviation runs known flight := (rtc (moves known flight)).

(** ** The indexes *)

Lemma records_clash_sym r x : clash records_table r x = clash records_table x r.
Proof.
  cbn. rewrite String.eqb_sym. f_equal. destruct (ActiveKey _), (ActiveKey _); try done. apply String.eqb_sym.
Qed.
Lemma operations_clash_sym a b : clash operations_table a b = clash operations_table b a.
Proof. cbn. by rewrite String.eqb_sym, (String.eqb_sym (IdempotencyKey a)), Z.eqb_sym. Qed.
Lemma outbox_clash_sym a b : clash outbox_table a b = clash outbox_table b a.
Proof. cbn. by rewrite String.eqb_sym, (String.eqb_sym (ev_OperationID a)). Qed.
(** ** Statements that keep the indexes *)

Section statements.
Abbreviation step := (action (store portal_outside)).

Lemma create_record_ok row d (Q : db -> res ResourceRecord -> Prop) : indexes_ok d -> (forall err, Q d (Err err)) ->
  (forall now, let d' := with_records (records d ++ [row now]) d in indexes_ok d' -> Q d' (Ok (row now))) ->
  db_spec (X := portal_outside) (Create records_table row) d Q.
Proof.
  intros (Hr & Ho & He) Herr HQ. apply db_Create; [done|]. intros now Hnew. apply HQ. split_and!; [|done|done].
  apply clash_free_app; [apply records_clash_sym|done..].
Qed.

Lemma update_records_ok p change d (Q : db -> res Z -> Prop) : indexes_ok d -> (forall err, Q d (Err err)) ->
  (forall now, let d' := with_records (changed p (change now) (records d)) d in
     indexes_ok d' -> Q d' (Ok (Z.of_nat (length (List.filter p (records d)))))) ->
  db_spec (X := portal_outside) (Updates records_table p change) d Q.
Proof. intros (Hr & Ho & He) Herr HQ. apply db_Updates; [done|]. intros now Hnew. by apply HQ. Qed.

Lemma update_outbox_ok p change d (Q : db -> res Z -> Prop) : indexes_ok d -> (forall err, Q d (Err err)) ->
  (forall now, let d' := with_outbox (changed p (change now) (outbox d)) d in
     indexes_ok d' -> Q d' (Ok (Z.of_nat (length (List.filter p (outbox d)))))) ->
  db_spec (X := portal_outside) (Updates outbox_table p change) d Q.
Proof. intros (Hr & Ho & He) Herr HQ. apply db_Updates; [done|]. intros now Hnew. by apply HQ. Qed.

Lemma update_operations_ok p change d (Q : db -> res Z -> Prop) : indexes_ok d -> (forall err, Q d (Err err)) ->
  (forall now, let d' := mkDb (records d) (changed p (change now) (operations d)) (outbox d) (projects d) (users d) in
     indexes_ok d' -> Q d' (Ok (Z.of_nat (length (List.filter p (operations d)))))) ->
  db_spec (X := portal_outside) (Updates operations_table p change) d Q.
Proof. intros (Hr & Ho & He) Herr HQ. apply db_Updates; [done|]. intros now Hnew. by apply HQ. Qed.

(** The operation of a request carries its key, its actor and its fingerprint. *)
Lemma create_operation_ok key actor m route fp id action revision d (Q : db -> Operation -> Prop) : indexes_ok d ->
  (forall op e, starts id action revision op e -> ActorID op = actor -> IdempotencyKey op = key -> Fingerprint op = fp ->
     op_ModulePublicID op = m -> indexes_ok (with_started op e d) -> Q (with_started op e d) op) ->
  commit_spec (X := portal_outside) (create_operation key actor m route fp id action revision) d Q.
Proof.
  intros (Hr & Ho & He) HQ. apply c_bind, c_reads; [auto with reads|]. intros opID.
  apply c_bind, c_Create. intros now Hop. apply c_bind, c_reads; [auto with reads|]. intros evtID.
  apply c_bind, c_reads; [auto with reads|]. intros available. apply c_bind, c_Create. intros now' Hev.
  apply c_ret. apply HQ; [by split|done..|]. cbn in Hop, Hev. split_and!; cbn; [done| |].
  - apply clash_free_app; [apply operations_clash_sym|done..].
  - apply clash_free_app; [apply outbox_clash_sym|done..].
Qed.

Lemma save_event_ok e d (Q : db -> () -> Prop) : indexes_ok d ->
  (let d' := with_outbox (changed (event_is (ev_ID e)) (fun _ => e) (outbox d)) d in indexes_ok d' -> Q d' tt) ->
  commit_spec (X := portal_outside) (save_event e) d Q.
Proof.
  intros Hd HQ. apply c_bind, update_outbox_ok; [done..|]. intros now d' Hd'. apply c_ret, HQ, Hd'.
Qed.

(** The end of an attempt: the event is stored and its operation set. *)
Lemma settle_ok e id state error d (Q : db -> () -> Prop) : indexes_ok d ->
  (forall now, indexes_ok (settle e id state error now d) -> Q (settle e id state error now d) tt) ->
  commit_spec (X := portal_outside) (_ ← save_event e; set_operation id state error) d Q.
Proof.
  intros Hd HQ. apply c_bind, save_event_ok; [done|]. intros d' Hd'. apply c_bind, update_operations_ok; [done..|].
  intros now d'' Hd''. apply c_ret. by apply HQ.
Qed.
(** ** Requests *)

Context (known : ResourceRecord -> Prop) (flight : OutboxEvent -> ResourceRecord -> Prop).

Definition runs_to {A} (m : step A) d : Prop := db_spec m d (fun d' _ => runs known flight d d').
Definition commits_to {A} (m : step A) d : Prop := commit_spec m d (fun d' _ => moves known flight d d').

Lemma runs_to_reads {A} (m : step A) d : reads m -> runs_to m d.
Proof. intros Hm. by apply db_reads. Qed.
Lemma runs_to_bind {A B} (m : step A) (f : A -> step B) d : reads m -> (forall a, runs_to (f a) d) -> runs_to (m ≫= f) d.
Proof. intros Hm Hf. apply db_bind, db_reads; [done|]. intros [a|err]; [apply Hf|done]. Qed.
Lemma runs_to_transaction {A} (m : step A) d : commit_spec m d (fun d' _ => d' = d \/ moves known flight d d') -> runs_to (transaction m) d.
Proof. intros Hm. apply commit_transaction; [done|]. eapply c_mono; [exact Hm|]. intros d' a [->|Hd']; [done|by apply rtc_once]. Qed.

Lemma findIdempotent_reads actor key fp : reads (findIdempotent actor key fp : step (option Operation)).
Proof. unfold findIdempotent. solve_reads. Qed.
Lemma key_or_new_reads key prefix : reads (key_or_new key prefix : step string).
Proof. unfold key_or_new. solve_reads. Qed.

(** A request does nothing, or what its body does. *)
Lemma idempotent_spec actor key fp (body : step Operation) d (P : db -> Prop) :
  P d -> commit_spec body d (fun d' _ => P d') -> db_spec (idempotent actor key fp body) d (fun d' _ => P d').
Proof.
  intros Hd Hbody. apply db_bind, db_attempt, commit_transaction.
  - intros err. destruct (isUniqueConflict err); [|by apply db_fail].
    apply db_reads; [|done]. apply reads_bind; [apply findIdempotent_reads|]. intros. solve_reads.
  - apply c_bind, c_reads; [apply findIdempotent_reads|]. intros [op|]; [by apply c_ret, db_ret|].
    eapply c_mono; [exact Hbody|]. intros d' a Hd'. by apply db_ret.
Qed.
Lemma idempotent_runs actor key fp (body : step Operation) d : commits_to body d -> runs_to (idempotent actor key fp body) d.
Proof.
  intros Hbody. apply idempotent_spec; [done|]. eapply c_mono; [exact Hbody|]. intros d' a Hd'. by apply rtc_once.
Qed.
End statements.
#[local] Hint Resolve findIdempotent_reads key_or_new_reads : reads.

Section requests.
Context (known : ResourceRecord -> Prop) (flight : OutboxEvent -> ResourceRecord -> Prop).
Abbreviation runs_to := (runs_to known flight).
Abbreviation commits_to := (commits_to known flight).

Lemma effective_namespace_reads r : reads (of_res (effectiveWorkspaceNamespace r) : action (store portal_outside) string).
Proof. solve_reads. Qed.

Lemma create_body_commits actor kind input desired key route fp d : indexes_ok d ->
  commits_to (create_body actor kind input desired key route fp) d.
Proof.
  intros Hd. apply c_bind, c_reads; [auto with reads|]. intros id. apply c_bind, c_reads.
  { unfold place_workspace, place_application. solve_reads. }
  intros [owner namespace]. apply c_bind, create_record_ok; [done..|]. intros now d' Hd'.
  apply create_operation_ok; [done|]. intros op e Hop _ _ _ _ Hd''. split; [|done].
  apply (T_create known flight (created_record id kind (in_Name input) namespace owner desired now)); [|exact Hop].
  split; [done|done|by left|done|done].
Qed.

Lemma CreateResource_runs actor kind input key d : indexes_ok d -> runs_to (CreateResource actor kind input key) d.
Proof.
  intros Hd. unfold CreateResource. destruct (String.eqb _ _); [by apply db_fail|].
  apply runs_to_bind; [solve_reads|]. intros _. apply runs_to_bind; [solve_reads|]. intros desired.
  apply runs_to_bind; [auto with reads|]. intros k. by apply idempotent_runs, create_body_commits.
Qed.

Lemma update_body_commits actor id kind input r key route fp d : indexes_ok d -> known r -> ID (r_Identity r) = id ->
  Kind (r_Identity r) = kind -> DesiredRevision (r_Desired r) + 1 < 2 ^ 64 -> commits_to (update_body actor id kind input r key route fp) d.
Proof.
  intros Hd Hr <- <- Hbound. apply c_bind, c_of_res. intros desired Hdesired.
  apply c_bind. eapply (c_mono _ _ (fun d' place => d' = d /\ updated_to r desired place)).
  - unfold next_desired in Hdesired. destruct (hasDesired (in_Desired input)).
    + destruct (Marshal _) as [raw|]; simplify_eq/=. destruct (String.eqb_spec (Kind (r_Identity r)) ResourceWorkspace) as [Hk|Hk].
      * apply c_bind, c_of_res. intros namespace _. apply c_ret. split; [done|]. right. by rewrite Hk.
      * apply c_ret. split; [done|]. by right.
    + rewrite andb_false_r. apply c_ret. split; [done|]. left. by simplify_eq.
  - intros d' place [-> Hplace]. apply c_bind, update_records_ok; [done..|]. intros now d' Hd'.
    unfold on_commit. destruct (_ =? 1); [|apply c_fail]. apply create_operation_ok; [done|].
    intros op e Hop _ _ _ _ Hd''. split; [|done]. by apply (T_update known flight r desired place now).
Qed.

Lemma commit_update_runs actor id kind input r key d : indexes_ok d -> known r -> ID (r_Identity r) = id ->
  Kind (r_Identity r) = kind -> DesiredRevision (r_Desired r) + 1 < 2 ^ 64 -> runs_to (commit_update actor id kind input r key) d.
Proof.
  intros Hd Hr Hid Hkind Hbound. apply runs_to_bind; [auto with reads|]. intros k. by apply idempotent_runs, update_body_commits.
Qed.

Lemma Delete_runs actor id kind key d : indexes_ok d -> runs_to (Delete actor id kind key) d.
Proof.
  intros Hd. apply runs_to_bind; [auto with reads|]. intros k. apply idempotent_runs.
  apply c_bind, c_First. intros r Hr [[[_ _]%andb_true_iff <-%String.eqb_eq]%andb_true_iff _]%andb_true_iff.
  apply c_bind, c_Count. destruct (0 <? _); [apply c_fail|]. apply c_bind, update_records_ok; [done..|]. intros now d' Hd'.
  unfold on_commit. destruct (_ =? 1); [|apply c_fail]. apply create_operation_ok; [done|].
  intros op e Hop _ _ _ _ Hd''. split; [|done]. by apply T_delete.
Qed.

Lemma AdoptCluster_runs actor id key d : indexes_ok d -> runs_to (AdoptCluster actor id key) d.
Proof.
  intros Hd. unfold AdoptCluster. destruct (negb (Admin actor)); [by apply db_fail|].
  apply runs_to_bind; [auto with reads|]. intros k. apply idempotent_runs.
  apply c_bind, c_First. intros r Hr [<-%String.eqb_eq Hk%String.eqb_eq]%andb_true_iff.
  destruct (negb (state_is "discovered" r)); [apply c_fail|]. apply c_bind, update_records_ok; [done..|]. intros now d' Hd'.
  unfold on_commit. destruct (_ =? 1); [|apply c_fail]. apply create_operation_ok; [done|].
  intros op e Hop _ _ _ _ Hd''. split; [|done]. by apply T_adopt.
Qed.

Lemma AdoptExisting_runs actor id kind input key d : indexes_ok d -> runs_to (AdoptExisting actor id kind input key) d.
Proof.
  intros Hd. unfold AdoptExisting. destruct (negb (Admin actor)); [by apply db_fail|]. destruct (_ && _); [by apply db_fail|].
  apply runs_to_bind; [auto with reads|]. intros k. apply idempotent_runs.
  apply c_bind, c_First. intros r Hr _.
  destruct (negb (String.eqb (CapabilityError _) "")); [apply c_fail|]. apply c_bind, c_reads; [unfold adoptive_owner; solve_reads|].
  intros owner. apply c_bind, update_records_ok; [done..|]. intros now d' Hd'. unfold on_commit. destruct (_ =? 1).
  - apply create_operation_ok; [done|]. intros op e Hop _ _ _ _ Hd''. split; [|done]. by apply T_adopt_existing.
  - apply c_bind, c_reads; [solve_reads|]. intros. apply c_fail.
Qed.
(** What an update has read before its transaction. *)
Definition loaded (actor : Principal) (id kind : string) d (r : ResourceRecord) : Prop :=
  r ∈ records d /\ ID (r_Identity r) = id /\ Kind (r_Identity r) = kind /\ scope actor r = true /\ resourceActive r = true.

Lemma check_namespace_reads r kind input : reads (check_namespace r kind input : action (store portal_outside) ()).
Proof. unfold check_namespace. solve_reads. Qed.
#[local] Hint Resolve check_namespace_reads : reads.

Lemma load_update_spec actor id kind input d :
  db_spec (load_update actor id kind input) d (fun d' o => d' = d /\ forall r, o = Ok r -> loaded actor id kind d r).
Proof.
  apply db_bind, db_First; [done|].
  intros r Hr [[[[[Hs Ha]%andb_true_iff Hid%String.eqb_eq]%andb_true_iff Hk%String.eqb_eq]%andb_true_iff _]%andb_true_iff
    _]%andb_true_iff.
  cbv zeta. set (parent := if String.eqb kind ResourceWorkspace then _ else _).
  destruct (negb (String.eqb parent "") && _); [by apply db_fail|]. apply db_bind, db_of_res. destruct (validateDesired _ _ _); [|done].
  destruct (_ && _); [by apply db_fail|]. apply db_bind, db_reads; [auto with reads|].
  intros [[]|err]; [|done]. apply db_ret. split; [done|]. by intros ? [= <-].
Qed.

(** ** The worker *)

Lemma projectionDrifted_reads r : reads (projectionDrifted r).
Proof. unfold projectionDrifted, decode_desired, found_or, on_engine. solve_reads. Qed.
Lemma observe_reads r : reads (observe r).
Proof. unfold observe, found_or, on_engine. solve_reads. Qed.

Lemma enqueueRepair_runs r d : indexes_ok d -> known r -> runs_to (enqueueRepair r) d.
Proof.
  intros Hd Hr. apply runs_to_transaction, c_bind, c_Count. destruct (0 <? _) eqn:Ecount; [apply c_ret; by left|].
  apply c_bind, c_reads; [auto with reads|]. intros key. apply c_bind, create_operation_ok; [done|].
  intros op e Hop _ _ _ _ Hd'. apply c_ret. right. split; [|done]. apply (T_repair known flight r); [done| |exact Hop].
  intros e' He' Hres. apply Z.ltb_ge in Ecount. destruct (pending e') eqn:Ep; [|done].
  assert (e' ∈ List.filter (fun e => String.eqb (ev_ResourceID e) (ID (r_Identity r)) && pending e) (outbox d)) as Hin.
  { apply filter_bool_elem. split; [done|]. by rewrite Hres, String.eqb_refl. }
  cbn in Ecount. unfold pending in *. destruct (List.filter _ _); [by apply elem_of_nil in Hin|cbn in Ecount; lia].
Qed.

Lemma ensure_one_runs r d : indexes_ok d -> known r -> runs_to (ensure_one r) d.
Proof.
  intros Hd Hr. apply runs_to_bind; [solve_reads|]. intros [|]; [by apply runs_to_reads; solve_reads|].
  apply runs_to_bind; [apply projectionDrifted_reads|]. intros drifted.
  destruct (_ && _); [by apply runs_to_reads; solve_reads|]. by apply enqueueRepair_runs.
Qed.

Lemma update_record_runs p change d : indexes_ok d ->
  (forall now, transition known flight d (with_records (changed p (change now) (records d)) d)) ->
  runs_to (Updates records_table p change) d.
Proof. intros Hd HT. apply update_records_ok; [done..|]. intros now d' Hd'. apply rtc_once. split; [apply HT|done]. Qed.

Lemma sync_one_runs r d : indexes_ok d -> known r -> runs_to (sync_one r) d.
Proof.
  intros Hd Hr. apply runs_to_bind; [apply observe_reads|]. intros [observed|].
  - apply runs_to_bind; [solve_reads|]. intros encoded. apply runs_to_bind; [auto with reads|]. intros at_.
    apply db_bind. eapply db_mono; [apply update_record_runs; [done|]; intros now; apply T_observed|].
    intros d' [n|err] Hd'; [by apply db_ret|done].
  - unfold markMissingAndRepair. destruct (sync_is "deleting" r); [by apply runs_to_reads; solve_reads|].
    apply runs_to_bind; [auto with reads|]. intros at_. apply db_bind, commit_transaction; [done|].
    apply update_records_ok; [done..|]. intros now d' Hd'. cbn [on_commit].
    assert (runs known flight d d') as Hrun by (apply rtc_once; split; [by apply T_stale|done]).
    destruct (String.eqb _ _); [|by apply db_ret].
    eapply db_mono; [by apply enqueueRepair_runs|]. intros d'' x Hx. by transitivity d'.
Qed.

Lemma create_if_new_runs row d : indexes_ok d -> (forall now, first_version (row now)) -> runs_to (create_if_new row) d.
Proof.
  intros Hd Hrow. apply db_bind, db_attempt, create_record_ok; [done| |].
  - intros err. destruct (isUniqueConflict err); [by apply db_ret|by apply db_fail].
  - intros now d' Hd'. apply db_ret, rtc_once. split; [by apply T_discovered|done].
Qed.

Lemma discover_workspace_runs w d : indexes_ok d -> runs_to (discover_workspace w) d.
Proof.
  intros Hd. apply runs_to_bind; [auto with reads|]. intros n. destruct (0 <? n); [by apply runs_to_reads; solve_reads|].
  apply runs_to_bind; [auto with reads|]. intros at_. apply runs_to_bind; [auto with reads|]. intros id.
  apply create_if_new_runs; [done|]. intros now. split; [done|done|by right|done|by right].
Qed.

Lemma discover_application_runs a d : indexes_ok d -> runs_to (discover_application a) d.
Proof.
  intros Hd. apply runs_to_bind; [auto with reads|]. intros n. destruct (0 <? n); [by apply runs_to_reads; solve_reads|].
  destruct (match applicationDesired _ with Ok _ => _ | Err _ => _ end) as [[raw cap] sync].
  apply runs_to_bind; [auto with reads|]. intros at_. apply runs_to_bind; [auto with reads|]. intros id.
  apply create_if_new_runs; [done|]. intros now. split; [done|done|by right|done|by right].
Qed.

Lemma discover_cluster_runs c d : indexes_ok d -> runs_to (discover_cluster c) d.
Proof.
  intros Hd. unfold discover_cluster. destruct (_ || _); [by apply runs_to_reads; solve_reads|].
  apply runs_to_bind; [solve_reads|]. intros observed. apply runs_to_bind; [auto with reads|]. intros at_.
  apply db_bind, db_attempt, db_reads; [auto with reads|]. intros [r|err].
  - apply db_bind. eapply db_mono; [apply update_record_runs; [done|]; intros now; apply T_observed|].
    intros d' [n|err'] Hd'; [by apply db_ret|done].
  - destruct (String.eqb _ _); [|by apply db_fail]. apply runs_to_bind; [auto with reads|]. intros id.
    apply db_bind, create_record_ok; [done..|]. intros now d' Hd'. apply db_ret, rtc_once. split; [|done].
    apply T_discovered. split; [done|done|by left|done|by left].
Qed.
Lemma claim_event_spec token now d : indexes_ok d ->
  db_spec (claim_event token now) d (fun d' o => runs known flight d d' /\
    forall e, o = Ok (Some e) -> e ∈ outbox d' /\ ClaimToken e = token /\ pending e = true).
Proof.
  intros Hd. apply db_bind, db_attempt, commit_transaction.
  { intros err. destruct (String.eqb _ _); [by apply db_ret|by apply db_fail]. }
  apply c_bind, db_FirstBy; [done|]. intros cand Hcand _. apply c_bind, update_outbox_ok; [done..|]. intros t d' Hd'.
  unfold on_commit. destruct (_ =? 1) eqn:En; [|apply c_fail]. apply Z.eqb_eq in En. apply c_First.
  intros e He Hid%String.eqb_eq. apply db_ret. split; [apply rtc_once; split; [apply T_claim|done]|].
  intros ? [= <-]. destruct (counted_elem (fun e => event_is (ev_ID cand) e && pending e && unclaimed now e) (outbox d)) as (e0 & He0 & Hp0).
  { rewrite En. lia. }
  assert (with_claim e0 token (Some (now + 30 * second)) ∈ outbox d') as He1.
  { apply changed_elem. exists e0. by rewrite Hp0. }
  apply andb_true_iff in Hp0 as [[Hid0%String.eqb_eq Hpend]%andb_true_iff _].
  rewrite (clash_free_unique _ _ _ _ outbox_clash_sym (proj2 (proj2 Hd')) He He1); [done|].
  cbn. by rewrite Hid, Hid0, String.eqb_refl.
Qed.

Lemma claimed_event_spec {A} id token (f : res OutboxEvent -> action (store portal_outside) A) d (Q : db -> A -> Prop) :
  (forall err, commit_spec (f (Err err)) d Q) ->
  (forall e, holds_claim d e id token -> commit_spec (f (Ok e)) d Q) ->
  commit_spec (r ← claimed_event id token; f r) d Q.
Proof.
  intros Herr Hok. apply c_bind, c_attempt, db_First; [exact Herr|].
  intros e He [[Hid%String.eqb_eq Htok%String.eqb_eq]%andb_true_iff Hp]%andb_true_iff. by apply Hok.
Qed.

Lemma discardEvent_runs e cause d : indexes_ok d -> runs_to (discardEvent e cause) d.
Proof.
  intros Hd. apply runs_to_bind; [auto with reads|]. intros at_. apply runs_to_transaction, claimed_event_spec.
  { intros err. destruct (String.eqb _ _); [apply c_ret; by left|apply c_fail]. }
  intros e' (He' & Hid & Htok & Hp). apply settle_ok; [done|]. intros now Hd'. right. split; [|done]. by apply T_discarded.
Qed.

Lemma failEvent_runs e cause d : indexes_ok d -> runs_to (failEvent e cause) d.
Proof.
  intros Hd. apply runs_to_bind; [auto with reads|]. intros at_. apply runs_to_transaction, claimed_event_spec.
  { intros err. destruct (String.eqb _ _); [apply c_ret; by left|apply c_fail]. }
  intros e' (He' & Hid & Htok & Hp). apply c_bind, c_First. intros op Hop ->%String.eqb_eq.
  destruct (failed_attempt e' cause at_ at_) as [next state] eqn:En. apply settle_ok; [done|]. intros now Hd'.
  right. split; [|done]. pose proof (T_failed known flight e' cause at_ at_ now d ltac:(done)) as HT. by rewrite En in HT.
Qed.

(** The record that is projected is the table's, in the state the event is for. *)
Lemma load_target_spec k8s e d : indexes_ok d ->
  db_spec (load_target k8s e) d (fun d' o => runs known flight d d' /\
    forall r, o = Ok (Some r) -> d' = d /\ r ∈ records d /\ event_target e r = true).
Proof.
  intros Hd.
  assert (forall m : action (store portal_outside) (), runs_to m d ->
    db_spec (_ ← m; mret None) d (fun d' o => runs known flight d d' /\
      forall r, o = Ok (Some r) -> d' = d /\ r ∈ records d /\ event_target e r = true)) as Hnone.
  { intros m Hm. apply db_bind. eapply db_mono; [exact Hm|]. intros d' [[]|err] Hd'; [|done]. by apply db_ret. }
  apply db_bind, db_attempt, db_First.
  - intros err. destruct (String.eqb _ _); [|by apply Hnone, failEvent_runs].
    apply db_bind, db_reads; [auto with reads|]. intros [n|err']; [|done].
    apply Hnone. destruct n as [n|err']; [|by apply failEvent_runs].
    destruct (n =? 0); [by apply failEvent_runs|by apply discardEvent_runs].
  - intros r Hr Ht. destruct k8s; [|by apply Hnone, failEvent_runs]. apply db_ret. split; [done|]. by intros ? [= <-].
Qed.

Lemma project_reads r action : reads (project r action).
Proof.
  unfold project, project_workspace, project_application, found_or, on_engine. solve_reads.
Qed.

Lemma write_back_ok r action sync ended success d (Q : db -> () -> Prop) : indexes_ok d ->
  (forall now, indexes_ok (written r action sync ended success now d) -> Q (written r action sync ended success now d) tt) ->
  commit_spec (write_back r action sync ended success) d Q.
Proof. intros Hd HQ. apply c_bind, update_records_ok; [done..|]. intros now d' Hd'. apply c_ret. by apply HQ. Qed.

Lemma finish_event_runs e token r err d : indexes_ok d -> flight e r -> runs_to (finish_event e token r err) d.
Proof.
  intros Hd Hf. apply runs_to_bind; [auto with reads|]. intros at_. apply runs_to_transaction, claimed_event_spec.
  { intros err'. apply c_ret. by left. }
  intros claimed (He & Hid & Htok & Hp). apply c_bind, c_First. intros op Hop ->%String.eqb_eq. destruct err as [err|].
  - apply c_bind, c_reads; [auto with reads|]. intros from. destruct (failed_attempt claimed err at_ from) as [next state] eqn:En.
    apply c_bind, save_event_ok; [done|]. intros d1 Hd1. apply c_bind, c_bind, update_operations_ok; [done..|].
    intros now d2 Hd2. apply c_ret, write_back_ok; [done|]. intros now' Hd3. right. split; [|done].
    pose proof (T_finish_failed known flight e r claimed err at_ from now now' d Hf ltac:(done)) as HT. by rewrite En in HT.
  - apply c_bind, save_event_ok; [done|]. intros d1 Hd1. apply c_bind, c_bind, update_operations_ok; [done..|].
    intros now d2 Hd2. apply c_ret, write_back_ok; [done|]. intros now' Hd3. right. split; [|done].
    exact (T_finished known flight e r claimed at_ (op_Error op) now now' d Hf ltac:(done)).
Qed.
End requests.
End machine.
#[export] Hint Resolve findIdempotent_reads key_or_new_reads check_namespace_reads projectionDrifted_reads observe_reads
  project_reads : reads.
