(* ===== verification/GatewayInvariants.v ===== *)
(** * Invariants of the gateway

    The invariant of the machine of GatewayMachine.v: every operation has one event and
    ends with it, and the records keep their identities and revisions apart.  The
    invariant is about the tables, the versions of records that have been in them, and the
    events and records that workers hold while they call the engine. *)

From S2P Require Import Prelude GoRuntime Api Wp Store PortalStore EngineTypes EngineAdapter Gateway StoreLogic GatewayMachine.

Section invariants.
Context `{GoRuntime, Ambient, GatewayJson, EngineTypes, !AdapterJson, Kubernetes, ApiErrors, !EngineApi}.

Implicit Types (d : db) (r x : ResourceRecord) (e : OutboxEvent) (op : Operation).

(** ** Operations and events *)

(** The operation of an event: it has ended when the event is processed. *)
Record follows op e : Prop := mkFollows {
  follows_id : op_ID op = ev_OperationID e;
  follows_resource : op_ResourceID op = ev_ResourceID e;
  follows_action : op_Action op = ev_Action e;
  follows_state : pending e = negb (terminal (op_State op));
  follows_attempts : 0 <= Attempts e <= maxOutboxAttempts;
  follows_pending : pending e = true -> Attempts e < maxOutboxAttempts }.

Definition outbox_ok d : Prop := Forall2 follows (operations d) (outbox d).

Lemma follows_starts id action revision op e : starts id action revision op e -> follows op e.
Proof.
  intros [Hid [Hr1 Hr2] [Ha1 Ha2] _ (Hs & Hp & Hn)]. split; [done|congruence|congruence|unfold pending; by rewrite Hp, Hs| |].
  - rewrite Hn. unfold maxOutboxAttempts. lia.
  - rewrite Hn. unfold maxOutboxAttempts. lia.
Qed.

(** The columns of an event that never change. *)
Definition same_event e e' : Prop :=
  ev_ID e = ev_ID e' /\ ev_OperationID e = ev_OperationID e' /\ ev_ResourceID e = ev_ResourceID e' /\
  ev_Action e = ev_Action e' /\ ev_DesiredRevision e = ev_DesiredRevision e'.

Lemma same_event_after e n cause at_ p : same_event e (after_attempt e n cause at_ p).
Proof. done. Qed.
Lemma same_event_failed e cause p from : same_event e (failed_attempt e cause p from).1.
Proof. unfold failed_attempt. by destruct (_ <=? _). Qed.

Lemma outbox_unique d e e' : indexes_ok d -> e ∈ outbox d -> e' ∈ outbox d -> ev_ID e = ev_ID e' -> e = e'.
Proof.
  intros (_ & _ & Hi) He He' Heq. apply (clash_free_unique _ _ _ _ outbox_clash_sym Hi He He'). cbn. by rewrite Heq, String.eqb_refl.
Qed.
Lemma outbox_unique_operation d e e' : indexes_ok d -> e ∈ outbox d -> e' ∈ outbox d -> ev_OperationID e = ev_OperationID e' -> e = e'.
Proof.
  intros (_ & _ & Hi) He He' Heq. apply (clash_free_unique _ _ _ _ outbox_clash_sym Hi He He'). cbn.
  by rewrite Heq, String.eqb_refl, orb_true_r.
Qed.
Lemma record_unique d r r' : indexes_ok d -> r ∈ records d -> r' ∈ records d -> ID (r_Identity r) = ID (r_Identity r') -> r = r'.
Proof.
  intros (Hi & _) Hr Hr' Heq. apply (clash_free_unique _ _ _ _ records_clash_sym Hi Hr Hr'). cbn. by rewrite Heq, String.eqb_refl.
Qed.

Lemma Forall2_with_elem {A B} (P : A -> B -> Prop) l k : Forall2 P l k -> Forall2 (fun a b => P a b /\ b ∈ k) l k.
Proof.
  induction 1 as [|a b l k Hab _ IH]; constructor; [split; [done|left]|].
  eapply Forall2_impl; [exact IH|]. intros a' b' [? ?]. split; [done|by right].
Qed.

(** A step in which one event ends an attempt, together with its operation. *)
Lemma settle_outbox d e e' state error now : indexes_ok d -> outbox_ok d -> e ∈ outbox d -> pending e = true -> same_event e e' ->
  pending e' = negb (terminal state) -> 0 <= Attempts e' <= maxOutboxAttempts -> (pending e' = true -> Attempts e' < maxOutboxAttempts) ->
  outbox_ok (settle e' (ev_OperationID e) state error now d).
Proof.
  intros Hi Ho He Hp (Sid & Sop & Sres & Sact & _) Hpe Hat Hlt.
  unfold outbox_ok, settle. cbn [operations outbox]. unfold changed. apply Forall2_fmap_2.
  eapply Forall2_impl; [apply Forall2_with_elem, Ho|].
  intros op x [Hf Hx]. unfold event_is, operation_guard. rewrite <- Sid. destruct (String.eqb_spec (ev_ID x) (ev_ID e)) as [Heq|Hne].
  - assert (x = e) as -> by by eapply outbox_unique. rewrite (follows_id _ _ Hf), String.eqb_refl. cbn [andb].
    rewrite <- (follows_state _ _ Hf), Hp. destruct Hf. split; cbn; congruence || done.
  - destruct (String.eqb_spec (op_ID op) (ev_OperationID e)) as [Heq|Hne']; [|exact Hf].
    exfalso. apply Hne. f_equal. eapply outbox_unique_operation; [done..|]. by rewrite <- (follows_id _ _ Hf).
Qed.

(** ** Records *)

(** What holds of every version of a record. *)
Record good r : Prop := mkGood {
  good_key : ActiveKey (r_Identity r) = if resourceActive r then active_key (r_Identity r) else None;
  good_revision : 0 <= DesiredRevision (r_Desired r) < 2 ^ 64;
  good_applied : 0 <= AppliedRevision (r_Progress r) <= DesiredRevision (r_Desired r);
  good_synced : SyncState (r_Progress r) = "synced" -> resourceActive r = true -> Kind (r_Identity r) <> ResourceCluster ->
    AppliedRevision (r_Progress r) = DesiredRevision (r_Desired r) }.

(** The next version of a record: of the same revision, or of the next one. *)
Definition evolves x x' : Prop :=
  ID (r_Identity x') = ID (r_Identity x) /\ Kind (r_Identity x') = Kind (r_Identity x) /\
  EngineName (r_Identity x') = EngineName (r_Identity x) /\
  ((DesiredRevision (r_Desired x') = DesiredRevision (r_Desired x) /\ EngineNamespace (r_Identity x') = EngineNamespace (r_Identity x)) \/
   DesiredRevision (r_Desired x') = DesiredRevision (r_Desired x) + 1) /\
  good x'.

Lemma evolves_refl x : good x -> evolves x x.
Proof. intros Hx. split_and!; [done..|by left|done]. Qed.

Lemma first_version_good row : first_version row -> good row.
Proof.
  intros [Hk Hr Ha Hact Hs]. split; unfold resourceActive; rewrite ?Hact, ?Hr; [by rewrite Hk|lia|destruct Ha; lia|].
  intros Hsync _ Hkind. by destruct (Hs Hsync).
Qed.

Record records_ok (d : db) (seen : list ResourceRecord) : Prop := mkRecordsOk {
  ok_seen : forall r, r ∈ records d -> r ∈ seen;
  ok_good : forall r, r ∈ seen -> good r;
  ok_versions : forall r r', r ∈ seen -> r' ∈ seen -> ID (r_Identity r) = ID (r_Identity r') ->
    Kind (r_Identity r) = Kind (r_Identity r') /\ EngineName (r_Identity r) = EngineName (r_Identity r') /\
    (DesiredRevision (r_Desired r) = DesiredRevision (r_Desired r') -> EngineNamespace (r_Identity r) = EngineNamespace (r_Identity r'));
  ok_latest : forall r, r ∈ seen -> exists x, x ∈ records d /\ ID (r_Identity x) = ID (r_Identity r) /\
    DesiredRevision (r_Desired r) <= DesiredRevision (r_Desired x) }.

(** The records of the next tables: they have evolved, or they are new. *)
Definition next_records d (l : list ResourceRecord) : Prop :=
  (forall x', x' ∈ l -> (exists x, x ∈ records d /\ evolves x x') \/
     (first_version x' /\ forall x, x ∈ records d -> ID (r_Identity x) <> ID (r_Identity x'))) /\
  (forall x, x ∈ records d -> exists x', x' ∈ l /\ evolves x x').

Lemma next_records_ok d d' seen : indexes_ok d -> indexes_ok d' -> records_ok d seen -> next_records d (records d') ->
  records_ok d' (seen ++ records d').
Proof.
  intros Hi Hi' [Hseen Hgood Hver Hlast] [Hnew Hold].
  assert (forall r, r ∈ seen -> exists x, x ∈ records d' /\ ID (r_Identity x) = ID (r_Identity r) /\
    DesiredRevision (r_Desired r) <= DesiredRevision (r_Desired x)) as Hlast'.
  { intros r Hr. destruct (Hlast r Hr) as (x & Hx & Hid & Hle). destruct (Hold x Hx) as (x' & Hx' & Eid & _ & _ & Erev & _).
    exists x'. split_and!; [done|congruence|]. destruct Erev as [[? _]|?]; lia. }
  assert (forall r x', r ∈ seen -> x' ∈ records d' -> ID (r_Identity r) = ID (r_Identity x') ->
    Kind (r_Identity r) = Kind (r_Identity x') /\ EngineName (r_Identity r) = EngineName (r_Identity x') /\
    (DesiredRevision (r_Desired r) = DesiredRevision (r_Desired x') -> EngineNamespace (r_Identity r) = EngineNamespace (r_Identity x')))
    as Hver'.
  { intros r x' Hr Hx' Hid. destruct (Hnew x' Hx') as [(x & Hx & Eid & Ek & En & Erev & _)|[_ Hfresh]].
    - destruct (Hver r x Hr (Hseen x Hx)) as (Vk & Vn & Vs); [congruence|]. split_and!; [congruence..|]. intros Hrev.
      destruct Erev as [[Erev Ens]|Erev]; [rewrite Ens; apply Vs; congruence|]. exfalso.
      destruct (Hlast r Hr) as (y & Hy & Hidy & Hle). assert (y = x) as -> by (apply (record_unique d); [done..|congruence]). lia.
    - exfalso. destruct (Hlast r Hr) as (y & Hy & Hidy & _). apply (Hfresh y Hy). congruence. }
  split.
  - intros r Hr. apply elem_of_app. by right.
  - intros r [Hr|Hr]%elem_of_app; [by apply Hgood|]. destruct (Hnew r Hr) as [(x & _ & Hx)|[Hf _]]; [by apply Hx|by apply first_version_good].
  - intros r r' [Hr|Hr]%elem_of_app [Hr'|Hr']%elem_of_app Hid; [by apply Hver|by apply Hver'| |].
    + destruct (Hver' r' r Hr' Hr) as (? & ? & Hns); [done|]. split_and!; [done..|]. intros Hrev. symmetry. by apply Hns.
    + by assert (r = r') as -> by by apply (record_unique d').
  - intros r [Hr|Hr]%elem_of_app; [by apply Hlast'|]. by exists r.
Qed.
Lemma next_changed d seen p f : records_ok d seen -> (forall x, x ∈ records d -> good x -> p x = true -> evolves x (f x)) ->
  next_records d (changed p f (records d)).
Proof.
  intros Hok Hf.
  assert (forall x, x ∈ records d -> evolves x (if p x then f x else x)) as Hev.
  { intros x Hx. assert (good x) by by apply (ok_good _ _ Hok), (ok_seen _ _ Hok). destruct (p x) eqn:E; [by apply Hf|by apply evolves_refl]. }
  split.
  - intros x' (x & Hx & ->)%changed_elem. left. exists x. split; [done|by apply Hev].
  - intros x Hx. exists (if p x then f x else x). split; [apply changed_elem; by exists x|by apply Hev].
Qed.

Lemma clash_free_app_inv {Row} (c : Row -> Row -> bool) l row : clash_free c (l ++ [row]) = true -> forall y, y ∈ l -> c y row = false.
Proof.
  induction l as [|a l IH]; cbn [clash_free app]; [by intros _ y ?%elem_of_nil|].
  intros [Ha Hl]%andb_true_iff y [->|Hy]%elem_of_cons; [|by apply IH].
  apply negb_true_iff in Ha. rewrite existsb_app in Ha. apply orb_false_iff in Ha as [_ Ha]. cbn in Ha. by rewrite orb_false_r in Ha.
Qed.

Lemma next_same d seen : records_ok d seen -> next_records d (records d).
Proof.
  intros Hok.
  assert (forall x, x ∈ records d -> evolves x x) as Hev by (intros x Hx; apply evolves_refl, (ok_good _ _ Hok), (ok_seen _ _ Hok), Hx).
  split; [|by eauto]. intros x Hx. left. by eauto.
Qed.

Lemma next_append d d' seen row : records_ok d seen -> indexes_ok d' -> records d' = records d ++ [row] -> first_version row ->
  next_records d (records d').
Proof.
  intros Hok (Hi & _) Heq Hrow. rewrite Heq in *.
  assert (forall x, x ∈ records d -> evolves x x) as Hev by (intros x Hx; apply evolves_refl, (ok_good _ _ Hok), (ok_seen _ _ Hok), Hx).
  split.
  - intros x [Hx|Hx]%elem_of_app; [left; by eauto|]. apply list_elem_of_singleton in Hx as ->. right. split; [done|].
    intros x Hx Hid. apply clash_free_app_inv with (y := x) in Hi; [|done]. cbn in Hi. by rewrite Hid, String.eqb_refl in Hi.
  - intros x Hx. exists x. split; [apply elem_of_app; by left|by apply Hev].
Qed.

(** *** The changes of the operations *)

Lemma evolves_progress x x' : good x -> r_Identity x' = r_Identity x -> r_Desired x' = r_Desired x ->
  AppliedRevision (r_Progress x') = AppliedRevision (r_Progress x) -> ArchivedAt (r_Progress x') = ArchivedAt (r_Progress x) ->
  (SyncState (r_Progress x') = "synced" -> SyncState (r_Progress x) = "synced") -> evolves x x'.
Proof.
  intros [Hk Hr Ha Hs] Hi Hd Hap Har Hsync. unfold evolves. rewrite Hi, Hd. split_and!; [done..|by left|].
  assert (resourceActive x' = resourceActive x) as Hact by (unfold resourceActive; by rewrite Har).
  split; rewrite ?Hi, ?Hd, ?Hap, ?Hact; auto.
Qed.

Lemma update_evolves r desired place now x : good x -> good r -> updated_to r desired place -> DesiredRevision (r_Desired r) + 1 < 2 ^ 64 ->
  Kind (r_Identity r) = Kind (r_Identity x) -> EngineName (r_Identity r) = EngineName (r_Identity x) ->
  update_guard r x = true -> evolves x (update_change desired place now x).
Proof.
  intros [Gk Gr Ga Gs] Hr Hto Hbound Hkind Hname Hguard.
  apply andb_true_iff in Hguard as [[[[_ Hact]%andb_true_iff Hrev%Z.eqb_eq]%andb_true_iff _]%andb_true_iff _].
  rewrite Hact in Gk. destruct Hto as [[-> ->]|[Hnext Hplace]].
  - split_and!; [done..|by left|]. 
    split; unfold resourceActive in *; cbn; [by rewrite Hact|rewrite <- Hrev; lia|rewrite <- Hrev; lia|by intros [=]].
  - pose proof (good_revision _ Hr). unfold u64 in Hnext. rewrite Z.mod_small in Hnext by lia.
    unfold update_change. destruct place as [[namespace key]|].
    + destruct Hplace as [Hw ->]. split_and!; [done..|right; cbn; lia|]. split; cbn; [|lia|lia|by intros [=]].
      assert (forall y, ArchivedAt (r_Progress y) = ArchivedAt (r_Progress x) -> resourceActive y = true) as Hay.
      { intros y Hy. unfold resourceActive in *. by rewrite Hy. }
      rewrite Hay by done. unfold active_key. cbn. by rewrite <- Hkind, Hw.
    + split_and!; [done..|right; cbn; lia|]. split; cbn; [|lia|lia|by intros [=]]. rewrite Gk.
      unfold resourceActive in *. cbn. by rewrite Hact.
Qed.

(** What an event in flight writes back: the record is the one it was loaded from, at the
    same revision. *)
Lemma write_back_evolves r action sync ended success now x : good x -> good r -> resourceActive r = true ->
  Kind (r_Identity r) = Kind (r_Identity x) -> EngineName (r_Identity r) = EngineName (r_Identity x) ->
  EngineNamespace (r_Identity r) = EngineNamespace (r_Identity x) -> DesiredRevision (r_Desired x) = DesiredRevision (r_Desired r) ->
  (action = "adopt" -> Kind (r_Identity x) = ResourceCluster) ->
  applies action = true \/ action = "delete" \/ action = "adopt" -> (success = false -> sync <> "synced") ->
  evolves x (write_back_change r action sync ended success now x).
Proof.
  intros [Gk Gr Ga Gs] Hr Hact Hkind Hname Hns Hrev Hadopt Haction Hsync.
  assert (ActiveKey (r_Identity r) = active_key (r_Identity x)) as Hkey.
  { rewrite (good_key _ Hr), Hact. unfold active_key. congruence. }
  unfold resourceActive in Hact. destruct (ArchivedAt (r_Progress r)) eqn:Har; [done|].
  unfold write_back_change, outcome_progress. destruct success; cbn [andb].
  - destruct (String.eqb action "adopt" || String.eqb action "adopt-existing") eqn:E1.
    { rewrite Har. split_and!; [done..|by left|]. destruct (applies action) eqn:Eap; split; cbn; try done; try lia.
      intros _ _ Hk. exfalso. apply Hk, Hadopt. apply orb_true_iff in E1 as [->%String.eqb_eq|E1]; [done|].
      apply String.eqb_eq in E1 as ->. done. }
    destruct (String.eqb action "delete") eqn:E2.
    { apply String.eqb_eq in E2 as ->. split_and!; [done..|by left|]. split; cbn; [done|lia|lia|done]. }
    rewrite Har. assert (applies action = true) as ->.
    { destruct Haction as [?|[->| ->]]; done. }
    split_and!; [done..|by left|]. split; cbn; [done|lia|lia|done].
  - rewrite Har. split_and!; [done..|by left|]. split; cbn; [done|lia|lia|]. intros Hs. by destruct (Hsync eq_refl).
Qed.

(** ** Events and flights *)

Definition event_ok d e : Prop :=
  (exists x, x ∈ records d /\ ID (r_Identity x) = ev_ResourceID e /\ (ev_Action e = "adopt" -> Kind (r_Identity x) = ResourceCluster)) /\
  (applies (ev_Action e) = true \/ ev_Action e = "delete" \/ ev_Action e = "adopt").

Definition flight_ok d (seen : list ResourceRecord) e r : Prop :=
  r ∈ seen /\ resourceActive r = true /\ ID (r_Identity r) = ev_ResourceID e /\ exists e', e' ∈ outbox d /\ same_event e e'.

Record gateway_ok (d : db) (seen : list ResourceRecord) (flight : list (OutboxEvent * ResourceRecord)) : Prop := mkGatewayOk {
  inv_indexes : indexes_ok d;
  inv_outbox : outbox_ok d;
  inv_records : records_ok d seen;
  inv_events : forall e, e ∈ outbox d -> event_ok d e;
  inv_flight : forall e r, (e, r) ∈ flight -> flight_ok d seen e r }.

(** The events of the next tables. *)
Definition next_outbox d d' : Prop :=
  (forall e', e' ∈ outbox d' -> (exists e, e ∈ outbox d /\ same_event e e') \/ event_ok d' e') /\
  (forall e, e ∈ outbox d -> exists e', e' ∈ outbox d' /\ same_event e e').

Lemma same_event_refl e : same_event e e.
Proof. done. Qed.
Lemma same_event_trans e1 e2 e3 : same_event e1 e2 -> same_event e2 e3 -> same_event e1 e3.
Proof. intros (? & ? & ? & ? & ?) (? & ? & ? & ? & ?). split_and!; congruence. Qed.

Lemma event_ok_next d d' e e' : next_records d (records d') -> same_event e e' -> event_ok d e -> event_ok d' e'.
Proof.
  intros [_ Hold] (_ & _ & Sres & Sact & _) [(x & Hx & Hid & Hk) Ha]. rewrite Sres, Sact in *. split; [|done].
  destruct (Hold x Hx) as (x' & Hx' & Eid & Ek & _). exists x'. split_and!; [done|congruence|]. intros Hadopt. rewrite Ek. by apply Hk.
Qed.

(** The invariant from its three parts. *)
Lemma gateway_ok_next d d' seen flight : gateway_ok d seen flight -> indexes_ok d' -> outbox_ok d' ->
  next_records d (records d') -> next_outbox d d' -> gateway_ok d' (seen ++ records d') flight.
Proof.
  intros [Hi Ho Hr He Hf] Hi' Ho' Hnr [Hnew Hold]. split; [done|done|by apply (next_records_ok d)| |].
  - intros e' He'. destruct (Hnew e' He') as [(e & Hin & Hs)|?]; [|done]. by apply (event_ok_next d _ e); [..|apply He].
  - intros e r Her. destruct (Hf e r Her) as (Hr' & Hact & Hid & e1 & He1 & Hs1). split_and!; [apply elem_of_app; by left|done|done|].
    destruct (Hold e1 He1) as (e2 & He2 & Hs2). exists e2. split; [done|]. by eapply same_event_trans.
Qed.

Lemma next_outbox_changed d d' p f : outbox d' = changed p f (outbox d) -> (forall e, e ∈ outbox d -> p e = true -> same_event e (f e)) ->
  next_outbox d d'.
Proof.
  intros Heq Hf. unfold next_outbox. rewrite Heq. split.
  - intros e' (e & He & ->)%changed_elem. left. exists e. split; [done|]. destruct (p e) eqn:E; [by apply Hf|done].
  - intros e He. exists (if p e then f e else e). split; [apply changed_elem; by exists e|]. destruct (p e) eqn:E; [by apply Hf|done].
Qed.

Lemma next_outbox_same d d' : outbox d' = outbox d -> next_outbox d d'.
Proof. intros Heq. unfold next_outbox. rewrite Heq. split; intros e He; [left|]; by exists e. Qed.

Lemma next_outbox_started d op e dr : outbox dr = outbox d -> event_ok (with_started op e dr) e -> next_outbox d (with_started op e dr).
Proof.
  intros Heq Hok. unfold next_outbox, with_started. cbn [outbox]. rewrite Heq. split.
  - intros e' [He|He]%elem_of_app; [left; by exists e'|]. apply list_elem_of_singleton in He as ->. by right.
  - intros e' He. exists e'. split; [apply elem_of_app; by left|done].
Qed.

(** A request or a repair: the records have a next version, and an operation starts. *)
Lemma started_ok d seen flight l id action revision op e x : gateway_ok d seen flight ->
  let d' := with_started op e (with_records l d) in
  indexes_ok d' -> starts id action revision op e -> next_records d l ->
  x ∈ l -> ID (r_Identity x) = id -> (action = "adopt" -> Kind (r_Identity x) = ResourceCluster) ->
  (applies action = true \/ action = "delete" \/ action = "adopt") ->
  gateway_ok d' (seen ++ records d') flight.
Proof.
  intros Hok d' Hi' Hst Hnr Hx Hid Hk Ha. apply (gateway_ok_next d); [done..| |exact Hnr|].
  - apply Forall2_app; [apply Hok|]. constructor; [by eapply follows_starts|done].
  - apply (next_outbox_started d); [done|]. destruct Hst as [_ [_ Hres] [_ Hact] _ _]. rewrite <- Hact in *. split; [|done].
    exists x. by rewrite Hres.
Qed.
Lemma next_has d seen l r : records_ok d seen -> next_records d l -> r ∈ seen ->
  exists x, x ∈ l /\ ID (r_Identity x) = ID (r_Identity r) /\ Kind (r_Identity x) = Kind (r_Identity r).
Proof.
  intros Hok [_ Hold] Hr. destruct (ok_latest _ _ Hok r Hr) as (x & Hx & Hid & _).
  destruct (Hold x Hx) as (x' & Hx' & Eid & Ek & _).
  destruct (ok_versions _ _ Hok x r) as (Hk & _); [by apply (ok_seen _ _ Hok)|done..|]. exists x'. split_and!; [done|congruence|congruence].
Qed.

Lemma settled_ok d seen flight e e' l state error now : gateway_ok d seen flight -> e ∈ outbox d -> pending e = true ->
  same_event e e' -> pending e' = negb (terminal state) -> 0 <= Attempts e' <= maxOutboxAttempts ->
  (pending e' = true -> Attempts e' < maxOutboxAttempts) -> next_records d l ->
  let d' := settle e' (ev_OperationID e) state error now (with_records l d) in
  indexes_ok d' -> gateway_ok d' (seen ++ records d') flight.
Proof.
  intros Hok He Hp Hs Hpe Hat Hlt Hnr d' Hi'. apply (gateway_ok_next d); [done..| |exact Hnr|].
  - by apply (settle_outbox d e e' state error now (inv_indexes _ _ _ Hok) (inv_outbox _ _ _ Hok)).
  - eapply next_outbox_changed; [done|]. intros x Hx Hid%String.eqb_eq.
    rewrite <- (proj1 Hs) in Hid. by assert (x = e) as -> by (eapply outbox_unique; [apply Hok|done..]).
Qed.

Lemma failed_attempt_facts e cause processed from : pending e = true -> 0 <= Attempts e < maxOutboxAttempts ->
  let next := failed_attempt e cause processed from in
  pending next.1 = negb (terminal next.2) /\ 0 <= Attempts next.1 <= maxOutboxAttempts /\
  (pending next.1 = true -> Attempts next.1 < maxOutboxAttempts) /\ next.2 <> "synced".
Proof.
  intros Hp Ha. unfold failed_attempt. destruct (Z.leb_spec maxOutboxAttempts (Attempts e + 1)); cbn; split_and!; (lia || done).
Qed.

Lemma held_event d seen flight e r claimed token : gateway_ok d seen flight -> (e, r) ∈ flight ->
  holds_claim d claimed (ev_ID e) token -> same_event e claimed.
Proof.
  intros Hok Her (Hin & Hid & _ & _). destruct (inv_flight _ _ _ Hok e r Her) as (_ & _ & _ & e' & He' & Hs).
  assert (e' = claimed) as ->; [|done]. eapply outbox_unique; [apply Hok|done..|]. rewrite Hid. symmetry. apply Hs.
Qed.

Lemma pending_attempts d seen flight e : gateway_ok d seen flight -> e ∈ outbox d -> pending e = true -> 0 <= Attempts e < maxOutboxAttempts.
Proof.
  intros Hok He Hp. apply list_elem_of_lookup in He as [i Hi].
  destruct (Forall2_lookup_r _ _ _ _ _ (inv_outbox _ _ _ Hok) Hi) as (op & _ & Hf). destruct Hf as [_ _ _ _ Ha Hlt].
  specialize (Hlt Hp). lia.
Qed.

Lemma next_written d seen flight e r claimed token sync ended success now : gateway_ok d seen flight -> (e, r) ∈ flight ->
  holds_claim d claimed (ev_ID e) token -> (success = false -> sync <> "synced") ->
  next_records d (records (written r (ev_Action e) sync ended success now d)).
Proof.
  intros Hok Her Hclaim Hsync. pose proof (held_event _ _ _ _ _ _ _ Hok Her Hclaim) as (_ & _ & Sres & Sact & _).
  destruct (inv_flight _ _ _ Hok e r Her) as (Hr & Hact & Hid & _). destruct (inv_events _ _ _ Hok claimed (proj1 Hclaim)) as [(y & Hy & Hidy & Hky) Ha].
  pose proof (inv_records _ _ _ Hok) as Hrec. apply (next_changed _ seen); [done|].
  intros x Hx Gx [[Hxid%String.eqb_eq Hrev%Z.eqb_eq]%andb_true_iff _]%andb_true_iff.
  destruct (ok_versions _ _ Hrec r x) as (Hk & Hn & Hns); [done|by apply (ok_seen _ _ Hrec)|congruence|].
  apply write_back_evolves; [done|by apply (ok_good _ _ Hrec)|done|done|done|by apply Hns|done| |by rewrite Sact|done].
  intros Hadopt. assert (y = x) as ->; [|by apply Hky; congruence]. eapply record_unique; [apply Hok|done..|congruence].
Qed.

Lemma next_progress d seen p f : records_ok d seen ->
  (forall x, r_Identity (f x) = r_Identity x /\ r_Desired (f x) = r_Desired x /\
     AppliedRevision (r_Progress (f x)) = AppliedRevision (r_Progress x) /\ ArchivedAt (r_Progress (f x)) = ArchivedAt (r_Progress x) /\
     (SyncState (r_Progress (f x)) = "synced" -> SyncState (r_Progress x) = "synced")) ->
  next_records d (changed p f (records d)).
Proof. intros Hok Hf. eapply next_changed; [done|]. intros x _ Gx _. destruct (Hf x) as (? & ? & ? & ? & ?). by apply evolves_progress. Qed.
(** ** Every transition keeps the invariant *)

Lemma next_update d seen r desired place now : records_ok d seen -> r ∈ seen -> updated_to r desired place ->
  DesiredRevision (r_Desired r) + 1 < 2 ^ 64 ->
  next_records d (changed (update_guard r) (update_change desired place now) (records d)).
Proof.
  intros Hrec Hr Hto Hbound. eapply next_changed; [done|]. intros x Hx Gx Hguard.
  destruct (ok_versions _ _ Hrec r x) as (Hk & Hn & _); [done|by apply (ok_seen _ _ Hrec)| |].
  - by apply andb_true_iff in Hguard as [[[[Hid%String.eqb_eq _]%andb_true_iff _]%andb_true_iff _]%andb_true_iff _].
  - apply (update_evolves r); try done. by apply (ok_good _ _ Hrec).
Qed.

Lemma claim_outbox d p token until : outbox_ok d -> outbox_ok (with_outbox (changed p (fun e => with_claim e token until) (outbox d)) d).
Proof.
  intros Ho. unfold outbox_ok, with_outbox, changed in *. cbn [operations outbox].
  apply Forall2_fmap_r. eapply Forall2_impl; [exact Ho|]. intros op e Hf. unfold compose. destruct (p e); [|exact Hf]. by destruct Hf.
Qed.

Lemma moves_ok d d' seen flight : gateway_ok d seen flight ->
  moves (fun r => r ∈ seen) (fun e r => (e, r) ∈ flight) d d' -> gateway_ok d' (seen ++ records d') flight.
Proof.
  intros Hok [HT Hi']. pose proof (inv_records _ _ _ Hok) as Hrec.
  destruct HT as [row op e d Hrow Hst|r desired place now op e d Hr Hto Hbound Hst|r now op e d Hr Hst|r now op e d Hr Hk Hst
    |r owner now op e d Hr Hst|r op e d Hr _ Hst|r at_ now d Hr|guard json at_ now d|row d Hrow|id token until now d
    |e cause at_ now d Hc|e cause processed from now d Hc next|e r claimed cause processed from now now' d Her Hc next
    |e r claimed at_ error now now' d Her Hc].
  - eapply started_ok; [exact Hok|exact Hi'|exact Hst| | |done|done|by left].
    + by eapply (next_append d (with_started op e (with_records (records d ++ [row]) d))).
    + apply elem_of_app. right. by left.
  - pose proof (next_update d seen r desired place now Hrec Hr Hto Hbound) as Hnr.
    destruct (next_has _ _ _ _ Hrec Hnr Hr) as (x & Hx & Hid & _).
    eapply started_ok; [exact Hok|exact Hi'|exact Hst|exact Hnr|exact Hx|done|done|by left].
  - assert (next_records d (changed (delete_guard (ID (r_Identity r)) r) (set_sync "deleting" now) (records d))) as Hnr.
    { by eapply next_progress. }
    destruct (next_has _ _ _ _ Hrec Hnr (ok_seen _ _ Hrec r Hr)) as (x & Hx & Hid & _).
    eapply started_ok; [exact Hok|exact Hi'|exact Hst|exact Hnr|exact Hx|done|done|by right; left].
  - assert (next_records d (changed (adopt_guard r) (adopt_change now) (records d))) as Hnr.
    { by eapply next_progress. }
    destruct (next_has _ _ _ _ Hrec Hnr (ok_seen _ _ Hrec r Hr)) as (x & Hx & Hid & Hkx).
    eapply started_ok; [exact Hok|exact Hi'|exact Hst|exact Hnr|exact Hx|done|congruence|by right; right].
  - assert (next_records d (changed (adopt_existing_guard r) (adopt_existing_change owner now) (records d))) as Hnr.
    { by eapply next_progress. }
    destruct (next_has _ _ _ _ Hrec Hnr (ok_seen _ _ Hrec r Hr)) as (x & Hx & Hid & _).
    eapply started_ok; [exact Hok|exact Hi'|exact Hst|exact Hnr|exact Hx|done|done|by left].
  - destruct (ok_latest _ _ Hrec r Hr) as (x & Hx & Hid & _).
    eapply (started_ok d seen flight (records d)); [exact Hok|exact Hi'|exact Hst|by eapply next_same|exact Hx|done|done|by left].
  - apply (gateway_ok_next d); [done|done|apply Hok| |by apply next_outbox_same]. by eapply next_progress.
  - apply (gateway_ok_next d); [done|done|apply Hok| |by apply next_outbox_same]. by eapply next_progress.
  - apply (gateway_ok_next d); [done|done|apply Hok| |by apply next_outbox_same]. by eapply next_append.
  - apply (gateway_ok_next d); [done|done| |exact (next_same _ _ Hrec)|by eapply next_outbox_changed].
    apply claim_outbox, Hok.
  - destruct Hc as (He & _ & _ & Hp). pose proof (pending_attempts _ _ _ _ Hok He Hp).
    eapply (settled_ok d seen flight e _ (records d)); [done..|cbn; lia|done|by eapply next_same|exact Hi'].
  - destruct Hc as (He & _ & _ & Hp). destruct (failed_attempt_facts e cause processed from Hp) as (? & ? & ? & ?).
    { by eapply pending_attempts. }
    eapply (settled_ok d seen flight e _ (records d)); [done..|apply same_event_failed|done|done|done|by eapply next_same|exact Hi'].
  - pose proof (held_event _ _ _ _ _ _ _ Hok Her Hc) as Hs. pose proof (proj1 Hc) as He. pose proof (proj2 (proj2 (proj2 Hc))) as Hp.
    destruct (failed_attempt_facts claimed cause processed from Hp) as (? & ? & ? & ?).
    { by eapply pending_attempts. }
    destruct Hs as (_ & Sop & _). rewrite Sop in *.
    eapply (settled_ok d seen flight claimed); [done..|apply same_event_failed|done|done|done|by eapply next_written|exact Hi'].
  - pose proof (held_event _ _ _ _ _ _ _ Hok Her Hc) as Hs. pose proof (proj1 Hc) as He. pose proof (proj2 (proj2 (proj2 Hc))) as Hp.
    pose proof (pending_attempts _ _ _ _ Hok He Hp). destruct Hs as (_ & Sop & _). rewrite Sop in *.
    eapply (settled_ok d seen flight claimed); [done..|cbn; lia|done|by eapply next_written|exact Hi'].
Qed.
(** The versions that nobody holds may be forgotten. *)
Lemma gateway_ok_sub d seen seen' flight : gateway_ok d seen flight -> (forall r, r ∈ seen' -> r ∈ seen) ->
  (forall r, r ∈ records d -> r ∈ seen') -> (forall e r, (e, r) ∈ flight -> r ∈ seen') -> gateway_ok d seen' flight.
Proof.
  intros [Hi Ho [Hs Hg Hv Hl] He Hf] Hsub Hrec Hfl. split; [done..| |done|].
  - split; auto.
  - intros e r Her. destruct (Hf e r Her) as (_ & ?). split; [by eapply Hfl|done].
Qed.

Lemma moves_mono known known' flight d d' : (forall r, known r -> known' r) -> moves known flight d d' -> moves known' flight d d'.
Proof. intros Hk [HT Hi]. split; [|done]. destruct HT; econstructor; eauto. Qed.

Lemma runs_ok d d' seen flight : gateway_ok d seen flight ->
  rtc (moves (fun r => r ∈ seen) (fun e r => (e, r) ∈ flight)) d d' -> gateway_ok d' (seen ++ records d') flight.
Proof.
  intros Hok Hruns.
  assert (exists seen', (forall r, r ∈ seen -> r ∈ seen') /\ gateway_ok d' seen' flight) as (seen' & Hsub & Hok').
  { revert d' Hruns. apply rtc_ind_r; [by exists seen|]. intros d1 d2 _ Hm (seen' & Hsub & Hok').
    exists (seen' ++ records d2). split; [intros r Hr; apply elem_of_app; by left; apply Hsub|].
    apply (moves_ok d1); [done|]. by apply (moves_mono (fun r => r ∈ seen)). }
  assert (forall r, r ∈ seen ++ records d' -> r ∈ seen').
  { intros r [Hr|Hr]%elem_of_app; [by apply Hsub|by apply (ok_seen _ _ (inv_records _ _ _ Hok'))]. }
  apply (gateway_ok_sub d' seen'); [done..| |].
  - intros r Hr. apply elem_of_app. by right.
  - intros e r Her. apply elem_of_app. left. by destruct (inv_flight _ _ _ Hok e r Her).
Qed.
End invariants.
