(* ===== verification/GatewaySpec.v ===== *)
(** * What the gateway promises

    The gateway with its servers and workers as a step relation over the definitions of
    Gateway.v, and the theorems about it.  A request is one step, an update two (it reads
    the record before its transaction), and a worker's parts are steps of their own, so
    that requests and several workers interleave. *)

From S2P Require Import Prelude GoRuntime Api Manifest Wp Store PortalStore EngineTypes EngineAdapter Gateway StoreLogic GatewayMachine GatewayInvariants.

Section spec.
Context `{GoRuntime, Ambient, GatewayJson, EngineTypes, !AdapterJson, Kubernetes, ApiErrors, !EngineApi}.

Abbreviation portal := (store portal_outside).
Abbreviation step := (action portal).

Implicit Types (d : db) (r : ResourceRecord) (e : OutboxEvent) (op : Operation).

(** ** Requests and work *)

Inductive request :=
  | RCreate (kind : string) (input : ResourceInput)
  | RDelete (id kind : string)
  | RAdoptCluster (id : string)
  | RAdoptExisting (id kind : string) (input : ResourceInput).

Definition serve (actor : Principal) (key : string) (q : request) : step Operation :=
  match q with
  | RCreate kind input => CreateResource actor kind input key
  | RDelete id kind => Delete actor id kind key
  | RAdoptCluster id => AdoptCluster actor id key
  | RAdoptExisting id kind input => AdoptExisting actor id kind input key
  end.

(** An item of the worker's loops, on a record that was listed before. *)
Inductive item :=
  | IEnsure r | ISync r
  | IWorkspace (w : WorkspaceObject) | IApplication (a : ApplicationObject) | ICluster (c : ManagedCluster).

Definition work (i : item) : step () :=
  match i with
  | IEnsure r => ensure_one r
  | ISync r => sync_one r
  | IWorkspace w => discover_workspace w
  | IApplication a => discover_application a
  | ICluster c => discover_cluster c
  end.
Definition item_record (i : item) : option ResourceRecord := match i with IEnsure r | ISync r => Some r | _ => None end.

(** ** The system

    [y_seen] are the versions of records that have been in the table, [y_claims] the
    events that a worker has claimed, [y_flight] the events it has loaded the record of. *)

Record sys := mkSys {
  y_portal : portal; y_seen : list ResourceRecord; y_claims : list OutboxEvent; y_flight : list (OutboxEvent * ResourceRecord) }.

Definition after (y : sys) (s : portal) : sys := mkSys s (y_seen y ++ records (g_db s)) (y_claims y) (y_flight y).

Inductive sys_step : sys -> sys -> Prop :=
  | S_request actor key q y s o : serve actor key q (y_portal y) = Ret (s, o) -> sys_step y (after y s)
  | S_update actor id kind input r key y s o : r ∈ y_seen y -> ID (r_Identity r) = id -> Kind (r_Identity r) = kind ->
      DesiredRevision (r_Desired r) + 1 < 2 ^ 64 ->
      commit_update actor id kind input r key (y_portal y) = Ret (s, o) -> sys_step y (after y s)
  | S_work i y s o : (forall r, item_record i = Some r -> r ∈ y_seen y) -> work i (y_portal y) = Ret (s, o) -> sys_step y (after y s)
  | S_claim token now y s o : claim_event token now (y_portal y) = Ret (s, o) ->
      sys_step y (let y' := after y s in
        mkSys (y_portal y') (y_seen y') (match o with Ok (Some e) => e :: y_claims y | _ => y_claims y end) (y_flight y'))
  | S_load k8s e y s o : e ∈ y_claims y -> load_target k8s e (y_portal y) = Ret (s, o) ->
      sys_step y (let y' := after y s in
        mkSys (y_portal y') (y_seen y') (y_claims y') (match o with Ok (Some r) => (e, r) :: y_flight y | _ => y_flight y end))
  | S_finish e token r err y s o : (e, r) ∈ y_flight y -> finish_event e token r err (y_portal y) = Ret (s, o) -> sys_step y (after y s)
  | S_outside x n y : sys_step y (mkSys (mkStore (g_db (y_portal y)) x n) (y_seen y) (y_claims y) (y_flight y)).

(** At the start there are projects and users, and the engine has what it has. *)
Definition initial (y : sys) : Prop :=
  exists ps us x, y = mkSys (mkStore (mkDb [] [] [] ps us) x 0) [] [] [].
Definition reachable (y : sys) : Prop := exists y0, initial y0 /\ rtc sys_step y0 y.

(** ** The invariant *)

Definition claim_ok d e : Prop := exists e', e' ∈ outbox d /\ same_event e e'.
Definition sys_ok (y : sys) : Prop :=
  gateway_ok (g_db (y_portal y)) (y_seen y) (y_flight y) /\ (forall e, e ∈ y_claims y -> claim_ok (g_db (y_portal y)) e).

Lemma initial_ok y : initial y -> sys_ok y.
Proof.
  intros (ps & us & x & ->). split; [split|]; cbn.
  - done.
  - constructor.
  - split; cbn; [by intros ? ?%elem_of_nil|by intros ? ?%elem_of_nil|by intros ? ? ?%elem_of_nil|by intros ? ?%elem_of_nil].
  - by intros ? ?%elem_of_nil.
  - by intros ? ? ?%elem_of_nil.
  - by intros ? ?%elem_of_nil.
Qed.

Abbreviation runs known flight := (rtc (moves known flight)).
Abbreviation machine y := (runs (fun r => r ∈ y_seen y) (fun e r => (e, r) ∈ y_flight y)).

(** Events are not lost. *)
Lemma settle_persists d e e' : indexes_ok d -> e ∈ outbox d -> same_event e e' ->
  forall x, x ∈ outbox d -> exists x', x' ∈ changed (event_is (ev_ID e')) (fun _ => e') (outbox d) /\ same_event x x'.
Proof.
  intros Hi He Hs. apply (next_outbox_changed d (with_outbox (changed (event_is (ev_ID e')) (fun _ => e') (outbox d)) d)
    (event_is (ev_ID e')) (fun _ => e')); [done|].
  intros x Hx Hid%String.eqb_eq. rewrite <- (proj1 Hs) in Hid. by assert (x = e) as -> by by apply (outbox_unique d).
Qed.

Lemma transition_persists known flight d d' : indexes_ok d -> transition known flight d d' ->
  forall e, e ∈ outbox d -> exists e', e' ∈ outbox d' /\ same_event e e'.
Proof.
  intros Hi HT.
  destruct HT as [| | | | | | | | |id token until now d|e cause at_ now d Hc|e cause processed from now d Hc next
    |e r claimed cause processed from now now' d Her Hc next|e r claimed at_ error now now' d Her Hc];
    try (intros x Hx; exists x; split; [first [exact Hx|apply elem_of_app; by left]|done]).
  - by eapply next_outbox_changed.
  - by apply (settle_persists d e); [|apply Hc|].
  - apply (settle_persists d e); [done|apply Hc|apply same_event_failed].
  - apply (settle_persists d claimed); [done|apply Hc|apply same_event_failed].
  - by apply (settle_persists d claimed); [|apply Hc|].
Qed.

Lemma claim_ok_runs known flight d d' e : indexes_ok d -> runs known flight d d' -> claim_ok d e -> claim_ok d' e.
Proof.
  intros Hi Hruns Hc. enough (claim_ok d' e /\ indexes_ok d') by tauto. revert d' Hruns. apply rtc_ind_r; [done|].
  intros d1 d2 _ [HT Hi2] [(e1 & He1 & Hs1) Hi1]. split; [|done].
  destruct (transition_persists _ _ _ _ Hi1 HT e1 He1) as (e2 & He2 & Hs2). exists e2. split; [done|]. by eapply same_event_trans.
Qed.

Lemma sys_ok_after y s : sys_ok y -> machine y (g_db (y_portal y)) (g_db s) -> sys_ok (after y s).
Proof.
  intros [Hok Hc] Hruns. split; [by apply (runs_ok (g_db (y_portal y)))|].
  intros e He. eapply claim_ok_runs; [apply Hok|exact Hruns|by apply Hc].
Qed.

(** ** The system refines the machine *)

Lemma db_ends {A} (m : step A) (s s' : portal) o Q : db_spec m (g_db s) Q -> m s = Ret (s', o) -> Q (g_db s') o.
Proof. intros Hm E. exact (wp_elim _ _ _ _ _ (Hm s eq_refl) E). Qed.

Lemma serve_runs known flight actor key q d : indexes_ok d -> runs_to known flight (serve actor key q) d.
Proof.
  intros Hd. destruct q; [by apply CreateResource_runs|by apply Delete_runs|by apply AdoptCluster_runs|by apply AdoptExisting_runs].
Qed.

Lemma work_runs known flight i d : indexes_ok d -> (forall r, item_record i = Some r -> known r) -> runs_to known flight (work i) d.
Proof.
  intros Hd Hi. destruct i; [apply ensure_one_runs|apply sync_one_runs|by apply discover_workspace_runs
    |by apply discover_application_runs|by apply discover_cluster_runs]; auto.
Qed.

Lemma sys_step_runs y y' : sys_ok y -> sys_step y y' -> machine y (g_db (y_portal y)) (g_db (y_portal y')).
Proof.
  intros [Hok _] Hstep. pose proof (inv_indexes _ _ _ Hok) as Hi.
  destruct Hstep as [actor key q y s o E|actor id kind input r key y s o Hr Hid Hk Hb E|i y s o Hr E|token now y s o E
    |k8s e y s o He E|e token r err y s o Her E|x n y]; cbn.
  - exact (db_ends _ _ _ _ _ (serve_runs _ _ actor key q _ Hi) E).
  - exact (db_ends _ _ _ _ _ (commit_update_runs _ _ actor id kind input r key _ Hi Hr Hid Hk Hb) E).
  - exact (db_ends _ _ _ _ _ (work_runs (fun r => r ∈ y_seen y) _ i _ Hi Hr) E).
  - exact (proj1 (db_ends _ _ _ _ _ (claim_event_spec _ _ token now _ Hi) E)).
  - exact (proj1 (db_ends _ _ _ _ _ (load_target_spec _ _ k8s e _ Hi) E)).
  - exact (db_ends _ _ _ _ _ (finish_event_runs _ (fun e r => (e, r) ∈ y_flight y) e token r err _ Hi Her) E).
  - done.
Qed.

Lemma target_active e r : event_target e r = true -> resourceActive r = true.
Proof.
  unfold event_target. intros [_ Ht]%andb_true_iff. destruct (applies _).
  - apply andb_true_iff in Ht as [Ht _]. unfold applicable in Ht. by repeat apply andb_true_iff in Ht as [Ht ?].
  - destruct (String.eqb _ _); [|done]. by repeat apply andb_true_iff in Ht as [Ht ?].
Qed.
Lemma target_id e r : event_target e r = true -> ID (r_Identity r) = ev_ResourceID e.
Proof. unfold event_target. by intros [Hid%String.eqb_eq _]%andb_true_iff. Qed.

Lemma sys_step_ok y y' : sys_ok y -> sys_step y y' -> sys_ok y'.
Proof.
  intros Hok Hstep. pose proof (sys_step_runs _ _ Hok Hstep) as Hruns. pose proof (inv_indexes _ _ _ (proj1 Hok)) as Hi.
  destruct Hstep as [actor key q y s o E|actor id kind input r key y s o Hr Hid Hk Hb E|i y s o Hr E|token now y s o E
    |k8s e y s o He E|e token r err y s o Her E|x n y]; try (by apply sys_ok_after).
  - pose proof (sys_ok_after _ _ Hok Hruns) as [Hok' Hc]. split; [exact Hok'|]. cbn.
    destruct (db_ends _ _ _ _ _ (claim_event_spec (fun r => r ∈ y_seen y) (fun e r => (e, r) ∈ y_flight y) token now _ Hi) E) as [_ Hnew].
    destruct o as [[e|]|]; [|exact Hc|exact Hc]. intros e' [->|He']%elem_of_cons; [|by apply Hc].
    destruct (Hnew e eq_refl) as (He & _). by exists e.
  - pose proof (sys_ok_after _ _ Hok Hruns) as [Hok' Hc]. split; [|exact Hc]. cbn.
    destruct (db_ends _ _ _ _ _ (load_target_spec (fun r => r ∈ y_seen y) (fun e r => (e, r) ∈ y_flight y) k8s e _ Hi) E) as [_ Hnew].
    destruct o as [[r|]|]; [|exact Hok'|exact Hok']. destruct (Hnew r eq_refl) as (Hd & Hr & Ht).
    destruct Hok' as [Hi' Ho' Hr' He' Hf']. split; [done..|].
    intros e1 r1 [[= -> ->]|Hold]%elem_of_cons; [|by apply Hf']. cbn in Hd. split_and!.
    + apply elem_of_app. right. by rewrite Hd.
    + by eapply target_active.
    + by eapply target_id.
    + exact (Hc e He).
  - split; [exact (proj1 Hok)|exact (proj2 Hok)].
Qed.

Lemma reachable_ok y : reachable y -> sys_ok y.
Proof.
  intros (y0 & Hinit & Hsteps). revert y Hsteps. apply rtc_ind_r; [by apply initial_ok|].
  intros y1 y2 _ Hstep Hok. by eapply sys_step_ok.
Qed.

(** ** Theorems about the reachable states *)

(** C5: whatever requests and workers do and in whichever order, every operation has one
    event and follows it: it has succeeded or failed exactly when the event is processed,
    and the event has had at most three attempts, fewer while it is pending. *)
Theorem operations_follow_their_events y op : reachable y -> op ∈ operations (g_db (y_portal y)) ->
  exists e, e ∈ outbox (g_db (y_portal y)) /\ follows op e /\
    forall e', e' ∈ outbox (g_db (y_portal y)) -> ev_OperationID e' = op_ID op -> e' = e.
Proof.
  intros [Hok _]%reachable_ok [i Hi]%list_elem_of_lookup.
  destruct (Forall2_lookup_l _ _ _ _ _ (inv_outbox _ _ _ Hok) Hi) as (e & He & Hf). exists e.
  pose proof (list_elem_of_lookup_2 _ _ _ He). split_and!; [done|done|]. intros e' He' Hid.
  eapply outbox_unique_operation; [apply Hok|done..|]. rewrite Hid. apply Hf.
Qed.


(** C6: the engine has never been given a revision the portal does not have, and a
    workspace or an application that is shown as synced has its last revision applied. *)
Theorem synced_means_applied y r : reachable y -> r ∈ records (g_db (y_portal y)) ->
  0 <= AppliedRevision (r_Progress r) <= DesiredRevision (r_Desired r) /\
  (SyncState (r_Progress r) = "synced" -> resourceActive r = true -> Kind (r_Identity r) <> ResourceCluster ->
   AppliedRevision (r_Progress r) = DesiredRevision (r_Desired r)).
Proof.
  intros [Hok _]%reachable_ok Hr. pose proof (inv_records _ _ _ Hok) as Hrec.
  destruct (ok_good _ _ Hrec r (ok_seen _ _ Hrec r Hr)) as [_ _ Ha Hs]. by split.
Qed.

(** C26: every step of the portal, with whatever failures of the database and answers of
    the engine, is a sequence of transitions of the machine on its tables. *)
Theorem portal_refines_machine y y' : reachable y -> sys_step y y' ->
  rtc (moves (fun r => r ∈ y_seen y) (fun e r => (e, r) ∈ y_flight y)) (g_db (y_portal y)) (g_db (y_portal y')).
Proof. intros Hy. apply sys_step_runs, reachable_ok, Hy. Qed.

(** ** Theorems about requests *)

(** What the fingerprint of a request is made of. *)
Definition fingerprint_of (actor : Principal) (q : request) : string :=
  match q with
  | RCreate kind input => requestFingerprint actor ("/api/v1/" +:+ kind +:+ "s") "create" "" (Some input)
  | RDelete id kind => requestFingerprint actor ("/api/v1/" +:+ kind +:+ "s/" +:+ id) "delete" id None
  | RAdoptCluster id => requestFingerprint actor ("/api/v1/clusters/" +:+ id +:+ "/adopt") "adopt" id None
  | RAdoptExisting id kind input =>
      requestFingerprint actor ("/api/v1/" +:+ kind +:+ "s/" +:+ id +:+ "/adopt-existing") "adopt" id (Some input)
  end.

(** The checks that come before the table of operations is looked at. *)
Definition accepted (actor : Principal) (q : request) : bool :=
  match q with
  | RCreate kind input => negb (String.eqb (in_Name input) "") &&
      match validateDesired kind (in_Desired input) false, Marshal (in_Desired input) with Ok _, Ok _ => true | _, _ => false end
  | RDelete _ _ => true
  | RAdoptCluster _ => Admin actor
  | RAdoptExisting _ kind _ => Admin actor && (String.eqb kind ResourceWorkspace || String.eqb kind ResourceApplication)
  end.

(** The possible results of a request whose key has been used for [op]. *)
Definition replays (op : Operation) (fingerprint : string) (o : res Operation) : Prop :=
  (o = Ok op /\ Fingerprint op = fingerprint) \/ (o = Err ErrIdempotencyConflict /\ Fingerprint op <> fingerprint) \/
  exists n err, db_error n = Some err /\ o = Err err.

Lemma least_unique {Row} (before p : _ -> _) (l : list Row) a : a ∈ l -> p a = true -> (forall b, b ∈ l -> p b = true -> b = a) ->
  least before (List.filter p l) = Some a.
Proof.
  intros Ha Hp Hu. destruct (least before (List.filter p l)) as [b|] eqn:E.
  - apply least_elem, filter_bool_elem in E as [Hb Hpb]. f_equal. by apply Hu.
  - assert (List.filter p l = []) as Hnil.
    { destruct (List.filter p l) as [|x k]; [done|]. cbn in E. by destruct (least before k). }
    assert (a ∈ List.filter p l) as Hin by by apply filter_bool_elem. rewrite Hnil in Hin. by apply elem_of_nil in Hin.
Qed.

Context `{!AmbientLaws _}.

Lemma findIdempotent_known op fp d (Q : db -> res (option Operation) -> Prop) : indexes_ok d -> op ∈ operations d ->
  (forall n err, db_error n = Some err -> Q d (Err err)) ->
  (Fingerprint op = fp -> Q d (Ok (Some op))) -> (Fingerprint op <> fp -> Q d (Err ErrIdempotencyConflict)) ->
  db_spec (findIdempotent (ActorID op) (IdempotencyKey op) fp) d Q.
Proof.
  intros (_ & Hi & _) Hop Herr Hsame Hdiff. apply db_bind, db_attempt, db_First_exact.
  - intros n err He. destruct (String.eqb_spec err ErrRecordNotFound) as [->|]; [by apply db_error_other in He|].
    by eapply db_fail, Herr.
  - cbn [rows operations_table]. rewrite (least_unique _ _ _ op); [|done|by rewrite Z.eqb_refl, String.eqb_refl|].
    + destruct (String.eqb_spec (Fingerprint op) fp); [by apply db_ret, Hsame|by apply db_fail, Hdiff].
    + intros b Hb [Ha%Z.eqb_eq Hk%String.eqb_eq]%andb_true_iff.
      eapply clash_free_unique; [apply operations_clash_sym|exact Hi|done..|]. cbn.
      by rewrite Ha, Hk, Z.eqb_refl, String.eqb_refl, orb_true_r.
Qed.

Lemma idempotent_replays actor op fp (body : step Operation) d : indexes_ok d -> op ∈ operations d -> ActorID op = UserID actor ->
  db_spec (idempotent actor (IdempotencyKey op) fp body) d (fun d' o => d' = d /\ replays op fp o).
Proof.
  intros Hi Hop Hactor. unfold idempotent. rewrite <- Hactor.
  assert (forall err, (err = ErrIdempotencyConflict /\ Fingerprint op <> fp) \/ (exists n, db_error n = Some err) ->
    db_spec (if isUniqueConflict err
             then (found ← findIdempotent (ActorID op) (IdempotencyKey op) fp; match found with Some op => mret op | None => fail err end)
             else fail err : step Operation) d (fun d' o => d' = d /\ replays op fp o)) as Hend.
  { intros err Herr. destruct (isUniqueConflict err) eqn:Eu.
    - apply db_bind, findIdempotent_known; [done..| | |].
      + intros n err' He. split; [done|]. right; right. by exists n, err'.
      + intros Hf. apply db_ret. split; [done|]. by left.
      + intros Hf. split; [done|]. right; left. by split.
    - apply db_fail. split; [done|]. destruct Herr as [[-> Hf]|[n He]]; [right; left; by split|right; right; by exists n, err]. }
  apply db_bind, db_attempt, db_transaction_exact, db_bind, findIdempotent_known; [done..| | |].
  - intros n err He. apply Hend. right. by exists n.
  - intros Hf. apply db_ret. split; [apply db_ret; split; [done|]; by left|]. intros n err He. apply Hend. right. by exists n.
  - intros Hf. apply Hend. by left.
Qed.


(** *** Scopes *)

(** From [d] to [d'] nothing outside of the actor's scope has changed. *)
Definition within (actor : Principal) d d' : Prop :=
  (forall r, r ∈ records d -> scope actor r = false -> r ∈ records d') /\
  (forall r, r ∈ records d' -> r ∈ records d \/ scope actor r = true).

Lemma within_refl actor d : within actor d d.
Proof. split; auto. Qed.

Lemma within_admin actor d d' : Admin actor = true -> within actor d d'.
Proof. intros Ha. unfold within, scope. rewrite Ha. cbn. split; [done|by right]. Qed.

(** A change of one record of the scope, which keeps its owner. *)
Lemma within_changed actor d r p f : indexes_ok d -> r ∈ records d -> scope actor r = true ->
  (forall x, p x = true -> ID (r_Identity x) = ID (r_Identity r)) -> (forall x, r_Owner (f x) = r_Owner x) ->
  within actor d (with_records (changed p f (records d)) d).
Proof.
  intros Hi Hr Hs Hp Hf.
  assert (forall x, x ∈ records d -> p x = true -> x = r) as Hx.
  { intros x Hx Hpx. eapply record_unique; [done..|]. by apply Hp. }
  split.
  - intros x Hin Hout. apply changed_elem. exists x. split; [done|]. destruct (p x) eqn:E; [|done].
    rewrite (Hx x Hin E) in Hout. by rewrite Hs in Hout.
  - intros x' (x & Hin & ->)%changed_elem. destruct (p x) eqn:E; [right|by left]. unfold scope in *. rewrite Hf. by rewrite (Hx x Hin E).
Qed.

Lemma create_body_within actor kind input desired key route fp d : indexes_ok d ->
  commit_spec (create_body actor kind input desired key route fp) d (fun d' _ => within actor d d').
Proof.
  intros Hi. apply c_bind, c_reads; [auto with reads|]. intros id.
  apply c_bind. eapply (c_mono _ _ (fun d' p => d' = d /\ (Admin actor || String.eqb (ModulePublicID p.1) (pr_ModulePublicID actor)) = true)).
  - destruct (String.eqb kind ResourceWorkspace).
    { unfold place_workspace. destruct (String.eqb _ _); [apply c_fail|]. apply c_bind, c_attempt, db_First.
      - intros err. destruct (String.eqb _ _); apply c_fail.
      - intros p _ [_ Hs]%andb_true_iff. by apply c_ret. }
    destruct (String.eqb kind ResourceApplication); [|apply c_fail].
    unfold place_application. destruct (String.eqb _ _); [apply c_fail|]. apply c_bind, c_attempt, db_First; [intros; apply c_fail|].
    intros r _ [[Hs _]%andb_true_iff _]%andb_true_iff. apply c_bind, c_of_res. intros ns _. by apply c_ret.
  - intros d' [owner ns] [-> Hs]. apply c_bind, create_record_ok; [done..|]. intros now d' Hd'.
    apply create_operation_ok; [done|]. intros op e _ _ _ _ _ _. split; cbn.
    + intros r Hr _. apply elem_of_app. by left.
    + intros r [Hr|Hr]%elem_of_app; [by left|]. apply list_elem_of_singleton in Hr as ->. by right.
Qed.

Lemma update_body_within actor id kind input r key route fp d : indexes_ok d -> r ∈ records d -> scope actor r = true ->
  commit_spec (update_body actor id kind input r key route fp) d (fun d' _ => within actor d d').
Proof.
  intros Hi Hr Hs. apply c_bind, c_of_res. intros desired _. apply c_bind, c_reads; [solve_reads|]. intros place.
  apply c_bind, update_records_ok; [done..|]. intros now d' Hd'. unfold on_commit. destruct (_ =? 1); [|apply c_fail].
  apply create_operation_ok; [done|]. intros op e _ _ _ _ _ _.
  apply (within_changed actor d r); [done..| |].
  - by intros x [[[[Hid%String.eqb_eq _]%andb_true_iff _]%andb_true_iff _]%andb_true_iff _]%andb_true_iff.
  - intros x. by destruct place as [[? ?]|].
Qed.

Lemma delete_body_within actor id kind key route fp d : indexes_ok d ->
  commit_spec (delete_body actor id kind key route fp) d (fun d' _ => within actor d d').
Proof.
  intros Hi. apply c_bind, c_First. intros r Hr [[[Hs _]%andb_true_iff Hid%String.eqb_eq]%andb_true_iff _]%andb_true_iff.
  apply c_bind, c_Count. destruct (0 <? _); [apply c_fail|]. apply c_bind, update_records_ok; [done..|]. intros now d' Hd'.
  unfold on_commit. destruct (_ =? 1); [|apply c_fail]. apply create_operation_ok; [done|]. intros op e _ _ _ _ _ _.
  apply (within_changed actor d r); [done..| |done].
  intros x [[[Hx%String.eqb_eq _]%andb_true_iff _]%andb_true_iff _]%andb_true_iff. congruence.
Qed.

Lemma serve_within actor key q d : indexes_ok d ->
  db_spec (serve actor key q) d (fun d' _ => within actor d d').
Proof.
  intros Hi.
  assert (forall prefix (f : string -> step Operation), (forall k, db_spec (f k) d (fun d' _ => within actor d d')) ->
    db_spec (key ← key_or_new key prefix; f key) d (fun d' _ => within actor d d')) as Hkey.
  { intros prefix f Hf. apply db_bind, db_reads; [auto with reads|]. intros [k|err]; [apply Hf|apply within_refl]. }
  destruct q as [kind input|id kind|id|id kind input]; cbn [serve].
  - unfold CreateResource. destruct (String.eqb _ _); [apply db_fail, within_refl|]. apply db_bind, db_of_res.
    destruct (validateDesired _ _ _); [|apply within_refl]. apply db_bind, db_of_res. destruct (Marshal _); [|apply within_refl].
    apply Hkey. intros k. apply (idempotent_spec _ _ _ _ _ (within actor d)); [apply within_refl|by apply create_body_within].
  - apply Hkey. intros k. apply (idempotent_spec _ _ _ _ _ (within actor d)); [apply within_refl|by apply delete_body_within].
  - destruct (Admin actor) eqn:Ha; [|unfold AdoptCluster; rewrite Ha; apply db_fail, within_refl].
    eapply db_mono; [by apply (AdoptCluster_runs (fun _ => False) (fun _ _ => False))|]. intros d' o _. by apply within_admin.
  - destruct (Admin actor) eqn:Ha; [|unfold AdoptExisting; rewrite Ha; apply db_fail, within_refl].
    eapply db_mono; [by apply (AdoptExisting_runs (fun _ => False) (fun _ _ => False))|]. intros d' o _. by apply within_admin.
Qed.

Lemma Update_within actor id kind input key d : indexes_ok d ->
  db_spec (Update actor id kind input key) d (fun d' _ => within actor d d').
Proof.
  intros Hi. apply db_bind. eapply db_mono; [apply load_update_spec|]. intros d' [r|err] [-> Hr]; [|apply within_refl].
  destruct (Hr r eq_refl) as (Hin & _ & _ & Hs & _). apply db_bind, db_reads; [auto with reads|]. intros [k|err]; [|apply within_refl].
  apply (idempotent_spec _ _ _ _ _ (within actor d)); [apply within_refl|by apply update_body_within].
Qed.
(** C25: a request never changes a record outside of the actor's scope, and the records it
    adds or changes are inside of it: a user who is no administrator only touches his
    module. *)
Theorem requests_stay_in_scope actor key d : indexes_ok d ->
  (forall q, db_spec (serve actor key q) d (fun d' _ => within actor d d')) /\
  (forall id kind input, db_spec (Update actor id kind input key) d (fun d' _ => within actor d d')).
Proof. intros Hi. split; [intros q; by apply serve_within|intros id kind input; by apply Update_within]. Qed.
End spec.
