(* ===== verification/GatewayWorker.v ===== *)
(** * The gateway's worker, and what leaves the portal

    Theorems about single operations of Gateway.v: the views, the comparison with the
    engine, and the attempts of the worker.  Without failures of the database a round of
    the worker uses up one attempt of an event that is due. *)

From S2P Require Import Prelude GoRuntime Api Manifest Wp Store PortalStore EngineTypes EngineAdapter Gateway StoreLogic GatewayMachine GatewayInvariants GatewaySpec.

Section worker.
Context `{GoRuntime, Ambient, GatewayJson, EngineTypes, !AdapterJson, Kubernetes, ApiErrors, !EngineApi}.

Abbreviation portal := (store portal_outside).
Abbreviation step := (action portal).

Implicit Types (d : db) (r x : ResourceRecord) (e : OutboxEvent).

(** ** Values of variables *)

Definition all_envs (a : Dto.ApplicationDesired) : list Dto.EnvironmentVariable :=
  (elems (Dto.Containers (Dto.Template a)) ≫= fun c => elems (Dto.c_Env c)) ++
  (elems (Dto.Overrides a) ≫= fun o => elems (Dto.ov_Env o)).

Lemma elems_in_place {A} (f : A -> A) s : elems (in_place f s) = f <$> elems s.
Proof. by destruct s. Qed.

Lemma strip_application_values a env : env ∈ all_envs (strip_application a) -> Dto.env_Value env = "".
Proof.
  unfold all_envs, strip_application. cbn [Dto.Template Dto.Containers Dto.Overrides]. rewrite !elems_in_place.
  intros [(c & Henv & Hc)%list_elem_of_bind|(o & Henv & Ho)%list_elem_of_bind]%elem_of_app.
  - apply list_elem_of_fmap in Hc as (c0 & -> & _). cbn [Dto.c_Env Dto.ov_Env] in Henv. rewrite elems_in_place in Henv.
    by apply list_elem_of_fmap in Henv as (e0 & -> & _).
  - apply list_elem_of_fmap in Ho as (o0 & -> & _). cbn [Dto.c_Env Dto.ov_Env] in Henv. rewrite elems_in_place in Henv.
    by apply list_elem_of_fmap in Henv as (e0 & -> & _).
Qed.

(** A view of a record shows no value of an environment variable, whatever the table
    has; everything else of the state that is desired is shown as it is stored. *)
Theorem views_hide_values r v : recordView r = Ok v ->
  (forall a env, Dto.Application (v_Desired v) = Some a -> env ∈ all_envs a -> Dto.env_Value env = "") /\
  forall stored, decode_projection "desired" (Dto.mkDesired None None) (DesiredJSON (r_Desired r)) = Ok stored ->
    Dto.Workspace (v_Desired v) = Dto.Workspace stored /\ Dto.Application (v_Desired v) = strip_application <$> Dto.Application stored.
Proof.
  unfold recordView. intros Hv. apply res_bind_ok in Hv as (desired & Hdes & Hv). apply res_bind_ok in Hv as (observed & _ & [= <-]).
  cbn [v_Desired Dto.Application Dto.Workspace]. split; [|intros stored Hs; rewrite Hdes in Hs; by injection Hs as <-].
  intros a env Ha Henv. destruct (Dto.Application desired); [|done]. injection Ha as <-. by eapply strip_application_values.
Qed.

(** What the validation of a request asks of a variable. *)
Definition secret_reference (env : Dto.EnvironmentVariable) : Prop :=
  Dto.env_Value env = "" /\ exists from, Dto.ValueFrom env = Some from /\ Dto.SecretName from <> "" /\ Dto.sk_Key from <> "".

Lemma validateEnvironment_references envs : validateEnvironment envs = Ok tt <-> Forall secret_reference envs.
Proof.
  induction envs as [|env envs IH]; cbn [validateEnvironment]; [by split|]. rewrite Forall_cons, <- IH. unfold secret_reference.
  destruct (String.eqb_spec (Dto.env_Value env) "") as [->|Hv]; cbn [negb].
  - destruct (Dto.ValueFrom env) as [from|]; [|split; [done|by intros [[_ (? & ? & _)] _]]].
    destruct (String.eqb_spec (Dto.SecretName from) "") as [Hs|Hs]; cbn [orb].
    { split; [done|]. intros [[_ (? & [= <-] & ? & _)] _]. done. }
    destruct (String.eqb_spec (Dto.sk_Key from) "") as [Hk|Hk].
    { split; [done|]. intros [[_ (? & [= <-] & _ & ?)] _]. done. }
    split; [|by intros []]. intros Henvs. split; [|done]. split; [done|]. by exists from.
  - split; [done|]. by intros [[? _] _].
Qed.

Lemma check_all_ok {A} (f : A -> res ()) l : check_all f l = Ok tt <-> forall a, a ∈ l -> f a = Ok tt.
Proof.
  induction l as [|a l IH]; cbn [check_all]; [split; [by intros _ ? ?%elem_of_nil|done]|].
  destruct (f a) as [[]|err] eqn:E; cbn [mbind res_bind].
  - rewrite IH. split; [intros Hl b [->|Hb]%elem_of_cons; auto|]. intros Hl b Hb. apply Hl. by right.
  - split; [done|]. intros Hl. specialize (Hl a (list_elem_of_here _ _)). congruence.
Qed.

(** A request for an application passes the validation exactly when it has one, no
    workspace, and every variable of a container or of an override is a reference to a
    key of a secret. *)
Theorem validateDesired_accepts_references desired : validateDesired ResourceApplication desired false = Ok tt <->
  Dto.Workspace desired = None /\ exists a, Dto.Application desired = Some a /\ Forall secret_reference (all_envs a).
Proof.
  unfold validateDesired. cbn. destruct (Dto.Application desired) as [a|]; [|split; [done|by intros [_ (? & ? & _)]]].
  destruct (Dto.Workspace desired); [split; [done|by intros [? _]]|].
  assert (forall A (l : list A) (f : A -> list Dto.EnvironmentVariable),
    check_all (fun y => validateEnvironment (f y)) l = Ok tt <-> Forall secret_reference (l ≫= f)) as Hall.
  { intros A l f. rewrite check_all_ok, Forall_forall. setoid_rewrite validateEnvironment_references. split.
    - intros Hl env (y & Henv & Hy)%list_elem_of_bind. specialize (Hl y Hy). rewrite Forall_forall in Hl. by apply Hl.
    - intros Hl y Hy. apply Forall_forall. intros env Henv. apply Hl, list_elem_of_bind. by exists y. }
  split.
  - destruct (check_all _ (elems (Dto.Containers _))) as [[]|] eqn:E1; [|done]. cbn [mbind res_bind]. intros E2.
    split; [done|]. exists a. split; [done|]. apply Forall_app. split; by apply Hall.
  - intros [_ (a' & [= <-] & [H1' H2']%Forall_app)]. by rewrite (proj2 (Hall _ _ _) H1'), (proj2 (Hall _ _ _) H2').
Qed.

(** ** Attempts *)

(** Some record of the table is what the event is for. *)
Definition has_target e d : Prop := exists x, x ∈ records d /\ event_target e x = true.

(** An attempt to delete that has failed is never repeated, although its event is
    made available again: the record is then "retrying" and not "deleting", so that no record of
    the table is what the event is for, and the event is discarded when it is claimed. *)
Theorem failed_delete_is_never_retried e token r err d : ev_Action e = "delete" -> event_target e r = true ->
  db_spec (finish_event e token r (Some err)) d (fun d' o => o = Ok tt -> d' <> d -> ~ has_target e d').
Proof.
  intros Hact Ht. apply db_bind, db_reads; [auto with reads|]. intros [at_|?]; [|done].
  apply commit_transaction; [done|]. apply claimed_event_spec; [by intros err'; apply c_ret|].
  intros claimed _. apply c_bind, c_First. intros op _ _. apply c_bind, c_reads; [auto with reads|]. intros from.
  destruct (failed_attempt claimed err at_ from) as [next state] eqn:En.
  assert (state = "retrying" \/ state = "failed") as Hstate.
  { unfold failed_attempt in En. destruct (_ <=? _); injection En as <- <-; [by right|by left]. }
  apply c_bind, c_bind, c_Updates. intros now1 _. apply c_ret, c_bind, c_bind, c_Updates. intros now2 _.
  apply c_ret, c_bind, c_Updates. intros now3 _. apply c_ret.
  intros _ _ (x & (x0 & _ & ->)%changed_elem & Hx). revert Hx. apply not_true_iff_false.
  unfold event_target in *. rewrite Hact in *. change (applies "delete") with false in *.
  change (String.eqb "delete" "delete") with true in *. cbn iota in *.
  apply andb_true_iff in Ht as [Hid%String.eqb_eq [_ Hrev%Z.eqb_eq]%andb_true_iff].
  destruct (write_back_guard r "delete" x0) eqn:Eg.
  - assert (sync_is "deleting" (write_back_change r "delete" state at_ false now3 x0) = false) as ->; [|by rewrite !andb_false_r].
    unfold sync_is. cbn. by destruct Hstate as [-> | ->].
  - unfold write_back_guard, id_is, revision_is in *. change (applies "delete") with false in Eg.
    rewrite Hid, Hrev, andb_true_r in Eg. apply andb_false_iff in Eg as [Eg|Eg]; rewrite Eg; [done|by rewrite !andb_false_r].
Qed.

(** A selector that was decoded from JSON has no empty slice of expressions. *)
Definition decoded (sel : option LabelSelector) : Prop :=
  match sel with Some s => ls_MatchExpressions s <> Some [] | None => True end.

(** A workspace with a selector of labels only is drifted at every round: the
    translation gives the selector an empty slice of expressions and the engine's object,
    which is decoded from JSON, has none; so that the loop starts a repair whenever none is
    pending. *)
Theorem labels_selector_always_drifts r desired w sel s : kind_is ResourceWorkspace r = true ->
  Unmarshal (DesiredJSON (r_Desired r)) = Ok desired -> Dto.Workspace desired = Some w -> Dto.ClusterSelector w = Some sel ->
  Dto.MatchExpressions sel = None ->
  (forall world current, (eng_GetWorkspace (EngineName (r_Identity r)) world).2 = Ok current -> decoded (ws_ClusterSelector (wo_Spec current))) ->
  wp (projectionDrifted r) (fun _ o => o <> Ok false) s.
Proof.
  intros Hkind Hdes Hw Hsel Hexpr Hengine. unfold projectionDrifted, decode_desired. rewrite Hdes, Hkind.
  apply wp_bind, wp_of_res, wp_bind, wp_call. unfold on_engine, outside.
  specialize (Hengine (po_engine (g_outside s))).
  destruct (eng_GetWorkspace _ _) as [world' [current|err]]; cbn [fst snd] in *; apply wp_bind; unfold found_or.
  - specialize (Hengine current eq_refl). rewrite Hw. apply wp_ret, wp_ret.
    assert (wo_Spec current <> workspaceSpec w) as Hneq.
    { intros Heq. rewrite Heq in Hengine. unfold workspaceSpec in Hengine. rewrite Hsel in Hengine. cbn in Hengine.
      by rewrite Hexpr in Hengine. }
    by rewrite bool_decide_eq_false_2 by exact Hneq.
  - destruct (IsNotFound err); [by apply wp_ret, wp_ret|by apply wp_fail].
Qed.
End worker.
