(* ===== verification/GatewayProgress.v ===== *)
(** * Progress of the gateway's worker

    When no statement fails, a round of [ReconcileOne] on tables with an event that is due
    ends and uses up one of the attempts that are left: the worker empties the outbox
    after as many rounds as there are attempts. *)

From S2P Require Import Prelude GoRuntime Api Manifest Wp Store PortalStore EngineTypes EngineAdapter Gateway StoreLogic GatewayMachine GatewayInvariants GatewaySpec.

Section progress.
Context `{GoRuntime, Ambient, GatewayJson, EngineTypes, !AdapterJson, Kubernetes, ApiErrors, !EngineApi}.

Abbreviation portal := (store portal_outside).
Abbreviation step := (action portal).

Implicit Types (d : db) (r x : ResourceRecord) (e : OutboxEvent).

(** ** Statements that succeed *)

Context (no_failure : forall n, db_error n = None).

(** [m] ends with a value. *)
Definition sure {A} (m : step A) d (Q : db -> A -> Prop) : Prop :=
  db_spec m d (fun d' o => match o with Ok a => Q d' a | Err _ => False end).

Lemma sure_mono {A} (m : step A) d (Q Q' : db -> A -> Prop) : sure m d Q -> (forall d' a, Q d' a -> Q' d' a) -> sure m d Q'.
Proof. intros Hm HQ. eapply db_mono; [exact Hm|]. intros d' [a|err]; [apply HQ|done]. Qed.
Lemma sure_ret {A} (a : A) d (Q : db -> A -> Prop) : Q d a -> sure (mret a) d Q.
Proof. intros HQ. by apply db_ret. Qed.
Lemma sure_bind {A B} (m : step A) (f : A -> step B) d Q : sure m d (fun d' a => sure (f a) d' Q) -> sure (m ≫= f) d Q.
Proof. intros Hm. apply db_bind. eapply db_mono; [exact Hm|]. by intros d' [a|err]. Qed.
Lemma sure_attempt {A} (m : step A) d (Q : db -> res A -> Prop) : db_spec m d Q -> sure (attempt m) d Q.
Proof. intros Hm. by apply db_attempt. Qed.
Lemma sure_Now d (Q : db -> Z -> Prop) : (forall n, Q d (time_now n)) -> sure Now d Q.
Proof. intros HQ s <-. apply HQ. Qed.
Lemma sure_newPublicID prefix d (Q : db -> string -> Prop) : (forall id, Q d id) -> sure (newPublicID prefix) d Q.
Proof. intros HQ. apply db_newPublicID, HQ. Qed.

Lemma sure_stmt {A} (f : Z -> db -> db * res A) d (Q : db -> A -> Prop) :
  (forall now, match (f now d).2 with Ok a => Q (f now d).1 a | Err _ => False end) -> sure (stmt f) d Q.
Proof. intros Hf s <-. unfold wp, stmt. rewrite no_failure. specialize (Hf (time_now (g_clock s))). by destruct (f _ _). Qed.

Lemma sure_transaction {A} (m : step A) d (Q : db -> A -> Prop) : sure m d Q -> sure (transaction m) d Q.
Proof.
  intros Hm s Hs. specialize (Hm s Hs). unfold wp, transaction in *. destruct (m s) as [[s' [a|err]]|]; [|done|done].
  by rewrite no_failure.
Qed.

Lemma sure_FirstBy {Row} (t : table Row) before p d (Q : db -> Row -> Prop) : (exists a, a ∈ rows t d /\ p a = true) ->
  (forall a, a ∈ rows t d -> p a = true -> Q d a) -> sure (FirstBy t before p) d Q.
Proof.
  intros (a & Ha & Hp) HQ. apply sure_stmt. intros now. cbn. destruct (least before (List.filter p (rows t d))) as [b|] eqn:E.
  - apply least_elem, filter_bool_elem in E as [Hb Hpb]. by apply HQ.
  - assert (a ∈ List.filter p (rows t d)) as Hin by by apply filter_bool_elem.
    destruct (List.filter p (rows t d)) as [|b l]; [by apply elem_of_nil in Hin|]. cbn in E. by destruct (least before l).
Qed.

Lemma sure_Updates {Row} (t : table Row) p change d (Q : db -> Z -> Prop) :
  (forall now, clash_free (clash t) (changed p (change now) (rows t d)) = true /\
     Q (put_rows t (changed p (change now) (rows t d)) d) (Z.of_nat (length (List.filter p (rows t d))))) ->
  sure (Updates t p change) d Q.
Proof.
  intros HQ. apply sure_stmt. intros now. destruct (HQ now) as [Hfree HQ']. cbv zeta. fold (changed p (change now) (rows t d)).
  by rewrite Hfree.
Qed.

(** Rows that keep their keys do not clash. *)
Lemma clash_free_map {Row} (c : Row -> Row -> bool) (f : Row -> Row) l :
  (forall a b, a ∈ l -> b ∈ l -> c (f a) (f b) = true -> c a b = true) -> clash_free c l = true -> clash_free c (f <$> l) = true.
Proof.
  induction l as [|a l IH]; [done|]. intros Hf [Ha Hl]%andb_true_iff. cbn [clash_free fmap list_fmap].
  apply andb_true_iff. split.
  - apply negb_true_iff, not_true_iff_false. intros (b & Hb & Hc)%existsb_exists. apply negb_true_iff in Ha.
    rewrite <- list_elem_of_In in Hb. apply list_elem_of_fmap in Hb as (b0 & -> & Hb0). apply Hf in Hc; [|by left|by right].
    enough (existsb (c a) l = true) by congruence. apply existsb_exists. exists b0. by rewrite list_elem_of_In in Hb0.
  - apply IH; [|done]. intros a' b' Ha' Hb'. apply Hf; by right.
Qed.

Lemma outbox_keys_free d (f : OutboxEvent -> OutboxEvent) : indexes_ok d ->
  (forall e, e ∈ outbox d -> ev_ID (f e) = ev_ID e /\ ev_OperationID (f e) = ev_OperationID e) ->
  clash_free (clash outbox_table) (f <$> outbox d) = true.
Proof.
  intros (_ & _ & Hi) Hf. apply clash_free_map; [|done]. intros a b Ha Hb. cbn.
  by rewrite (proj1 (Hf a Ha)), (proj2 (Hf a Ha)), (proj1 (Hf b Hb)), (proj2 (Hf b Hb)).
Qed.
Lemma operations_keys_free d (f : Operation -> Operation) : indexes_ok d ->
  (forall op, op_ID (f op) = op_ID op /\ IdempotencyKey (f op) = IdempotencyKey op /\ ActorID (f op) = ActorID op) ->
  clash_free (clash operations_table) (f <$> operations d) = true.
Proof.
  intros (_ & Hi & _) Hf. apply clash_free_map; [|done]. intros a b _ _. cbn.
  destruct (Hf a) as (-> & -> & ->). by destruct (Hf b) as (-> & -> & ->).
Qed.
Lemma records_keys_free d (f : ResourceRecord -> ResourceRecord) : indexes_ok d ->
  (forall x, x ∈ records d -> ID (r_Identity (f x)) = ID (r_Identity x) /\
     (ActiveKey (r_Identity (f x)) = ActiveKey (r_Identity x) \/ ActiveKey (r_Identity (f x)) = None)) ->
  clash_free (clash records_table) (f <$> records d) = true.
Proof.
  intros (Hi & _) Hf. apply clash_free_map; [|done]. intros a b Ha Hb. cbn.
  destruct (Hf a Ha) as (-> & Hka), (Hf b Hb) as (-> & Hkb). rewrite !orb_true_iff. intros [?|Hk]; [by left|right].
  destruct Hka as [Ea|Ea], Hkb as [Eb|Eb]; rewrite Ea, ?Eb in Hk; [done|by destruct (ActiveKey (r_Identity a))|done|done].
Qed.

(** ** Attempts that are left *)

Definition weight e : Z := if pending e then maxOutboxAttempts - Attempts e else 0.
Definition attempts_left (l : list OutboxEvent) : Z := foldr (fun e n => weight e + n) 0 l.

Lemma attempts_left_nonneg l : (forall e, e ∈ l -> 0 <= weight e) -> 0 <= attempts_left l.
Proof.
  induction l as [|e l IH]; intros Hl; cbn; [lia|]. pose proof (Hl e ltac:(by left)).
  assert (0 <= attempts_left l) by (apply IH; intros; apply Hl; by right). unfold attempts_left in *. lia.
Qed.
Lemma attempts_left_le (f : OutboxEvent -> OutboxEvent) l : (forall e, e ∈ l -> weight (f e) <= weight e) ->
  attempts_left (f <$> l) <= attempts_left l.
Proof.
  induction l as [|e l IH]; intros Hl; cbn; [lia|]. pose proof (Hl e ltac:(by left)).
  assert (attempts_left (f <$> l) <= attempts_left l) by (apply IH; intros; apply Hl; by right). unfold attempts_left in *. lia.
Qed.
Lemma attempts_left_lt (f : OutboxEvent -> OutboxEvent) l c : (forall e, e ∈ l -> weight (f e) <= weight e) -> c ∈ l ->
  weight (f c) < weight c -> attempts_left (f <$> l) < attempts_left l.
Proof.
  revert c. induction l as [|e l IH]; intros c Hl Hc Hlt; [by apply elem_of_nil in Hc|]. cbn. unfold attempts_left in *.
  pose proof (Hl e ltac:(by left)). apply elem_of_cons in Hc as [->|Hc].
  - assert (attempts_left (f <$> l) <= attempts_left l) by (apply attempts_left_le; intros; apply Hl; by right).
    unfold attempts_left in *. lia.
  - specialize (IH c ltac:(intros; apply Hl; by right) Hc Hlt). lia.
Qed.

Lemma attempts_left_same (f : OutboxEvent -> OutboxEvent) l : (forall e, weight (f e) = weight e) -> attempts_left (f <$> l) = attempts_left l.
Proof. intros Hf. induction l as [|e l IH]; [done|]. cbn. unfold attempts_left in IH. by rewrite IH, Hf. Qed.

(** *** The end of an attempt *)

Lemma sure_save c e' d (Q : db -> () -> Prop) : indexes_ok d -> c ∈ outbox d -> same_event c e' -> weight e' < weight c ->
  (forall d', indexes_ok d' -> records d' = records d -> operations d' = operations d ->
     attempts_left (outbox d') < attempts_left (outbox d) -> Q d' tt) ->
  sure (save_event e') d Q.
Proof.
  intros Hi Hc Hs Hw HQ.
  assert (forall e, e ∈ outbox d -> event_is (ev_ID e') e = true -> e = c) as Huniq.
  { intros e He Hid%String.eqb_eq. apply (outbox_unique d); [done..|]. rewrite Hid. symmetry. apply Hs. }
  apply sure_bind, sure_Updates. intros now.
  assert (clash_free (clash outbox_table) (changed (event_is (ev_ID e')) (fun _ => e') (outbox d)) = true) as Hfree.
  { apply (outbox_keys_free d); [done|]. intros e He. destruct (event_is _ e) eqn:E; [|done]. rewrite (Huniq e He E).
    destruct Hs as (? & ? & _). by split. }
  split; [exact Hfree|]. apply sure_ret, HQ; [by destruct Hi as (? & ? & _)|done|done|].
  apply (attempts_left_lt _ _ c); [|done|].
  - intros e He. destruct (event_is _ e) eqn:E; [|lia]. rewrite (Huniq e He E). lia.
  - unfold event_is. by rewrite (proj1 Hs), String.eqb_refl.
Qed.

Lemma sure_set_operation id state error d (Q : db -> () -> Prop) : indexes_ok d ->
  (forall d', indexes_ok d' -> records d' = records d -> outbox d' = outbox d -> Q d' tt) -> sure (set_operation id state error) d Q.
Proof.
  intros Hi HQ. apply sure_bind, sure_Updates. intros now.
  assert (clash_free (clash operations_table) (changed (operation_guard id) (operation_change state error now) (operations d)) = true) as Hfree.
  { apply (operations_keys_free d); [done|]. intros op. by destruct (operation_guard id op). }
  split; [exact Hfree|]. apply sure_ret, HQ; [by destruct Hi as (? & _ & ?)|done|done].
Qed.

Lemma sure_write_back r action sync ended success d (Q : db -> () -> Prop) : indexes_ok d -> r ∈ records d -> resourceActive r = true ->
  (forall d', outbox d' = outbox d -> Q d' tt) -> sure (write_back r action sync ended success) d Q.
Proof.
  intros Hi Hr Ha HQ. apply sure_bind, sure_Updates. intros now. split; [|by apply sure_ret, HQ].
  apply (records_keys_free d); [done|]. intros x Hx. destruct (write_back_guard r action x) eqn:Eg; [|by split; [|left]].
  apply andb_true_iff in Eg as [[Hid%String.eqb_eq _]%andb_true_iff _].
  assert (x = r) as -> by by apply (record_unique d).
  unfold write_back_change, outcome_progress.
  destruct success; [|by split; [|left]]. destruct (_ || _); [by split; [|left]|]. destruct (String.eqb _ _); split; [done|by right|done|by left].
Qed.

Lemma sure_claimed c id token d : indexes_ok d -> holds_claim d c id token ->
  db_spec (claimed_event id token) d (fun d' o => d' = d /\ o = Ok (Ok c)).
Proof.
  intros Hi (Hc & Hid & Htok & Hp). apply db_attempt. eapply db_mono.
  - apply (sure_FirstBy outbox_table _ _ _ (fun d' a => d' = d /\ a = c)).
    + exists c. split; [done|]. unfold event_is. by rewrite Hp, Htok, Hid, !String.eqb_refl.
    + intros e He [[Hide%String.eqb_eq _]%andb_true_iff _]%andb_true_iff. split; [done|]. apply (outbox_unique d); [done..|congruence].
  - intros d' [a|err]; [|done]. by intros [-> ->].
Qed.

Lemma sure_with_claim {A} c id token (f : res OutboxEvent -> step A) d Q : indexes_ok d -> holds_claim d c id token ->
  sure (f (Ok c)) d Q -> sure (r ← claimed_event id token; f r) d Q.
Proof. intros Hi Hc Hf. apply sure_bind. eapply db_mono; [by apply sure_claimed|]. by intros d' o [-> ->]. Qed.

Lemma sure_operation c d (Q : db -> Operation -> Prop) seen flight : gateway_ok d seen flight -> c ∈ outbox d ->
  (forall op, op_ID op = ev_OperationID c -> Q d op) -> sure (operation_of c) d Q.
Proof.
  intros Hok [i Hi]%list_elem_of_lookup HQ. destruct (Forall2_lookup_r _ _ _ _ _ (inv_outbox _ _ _ Hok) Hi) as (op & Hop & Hf).
  apply sure_FirstBy.
  - exists op. split; [by eapply list_elem_of_lookup_2|]. by rewrite (follows_id _ _ Hf), String.eqb_refl.
  - intros op' _ Hid%String.eqb_eq. by apply HQ.
Qed.

Lemma failed_weight c cause p from : pending c = true -> 0 <= Attempts c < maxOutboxAttempts ->
  weight (failed_attempt c cause p from).1 < weight c.
Proof.
  intros Hp Ha. unfold weight, failed_attempt. rewrite Hp. destruct (Z.leb_spec maxOutboxAttempts (Attempts c + 1)); cbn; lia.
Qed.
Lemma processed_weight c n cause at_ t : pending c = true -> 0 <= Attempts c < maxOutboxAttempts ->
  weight (after_attempt c n cause at_ (Some t)) < weight c.
Proof. intros Hp Ha. unfold weight. rewrite Hp. cbn. lia. Qed.

(** The tables after a round: an attempt is used up. *)
Definition used (d : db) {A} (d' : db) (_ : A) : Prop := attempts_left (outbox d') < attempts_left (outbox d).

Section round.
Context (d : db) (seen : list ResourceRecord) (flight : list (OutboxEvent * ResourceRecord)) (Hok : gateway_ok d seen flight).
Context (e : OutboxEvent) (token : string) (He : holds_claim d e (ev_ID e) token).

Lemma held_attempts : 0 <= Attempts e < maxOutboxAttempts.
Proof. destruct He as (Hin & _ & _ & Hp). by apply (pending_attempts d seen flight). Qed.

Lemma sure_discard cause : ClaimToken e = token -> sure (discardEvent e cause) d (used d).
Proof.
  intros Ht. pose proof held_attempts as Hat. pose proof He as (Hin & _ & _ & Hp). apply sure_bind, sure_Now. intros n. apply sure_transaction.
  rewrite Ht. apply (sure_with_claim e); [apply Hok|done|].
  apply sure_bind, (sure_save e); [apply Hok|done|done|by apply processed_weight|]. intros d' Hi' _ _ Hlt.
  apply sure_set_operation; [done|]. intros d'' _ _ Hout. unfold used. by rewrite Hout.
Qed.

Lemma sure_fail cause : ClaimToken e = token -> sure (failEvent e cause) d (used d).
Proof.
  intros Ht. pose proof held_attempts as Hat. pose proof He as (Hin & _ & _ & Hp). apply sure_bind, sure_Now. intros n. apply sure_transaction.
  rewrite Ht. apply (sure_with_claim e); [apply Hok|done|].
  apply sure_bind. eapply sure_operation; [exact Hok|done|]. intros op _.
  pose proof (failed_weight e cause (time_now n) (time_now n) Hp Hat) as Hw.
  pose proof (same_event_failed e cause (time_now n) (time_now n)) as Hs.
  destruct (failed_attempt _ _ _ _) as [next state]. cbn in Hw, Hs.
  apply sure_bind, (sure_save e); [apply Hok|done..|]. intros d' Hi' _ _ Hlt.
  apply sure_set_operation; [done|]. intros d'' _ _ Hout. unfold used. by rewrite Hout.
Qed.

Lemma sure_finish r err : r ∈ records d -> resourceActive r = true -> sure (finish_event e token r err) d (used d).
Proof.
  intros Hr Ha. pose proof held_attempts as Hat. pose proof He as (Hin & _ & _ & Hp). apply sure_bind, sure_Now. intros n. apply sure_transaction.
  apply (sure_with_claim e); [apply Hok|done|]. apply sure_bind. eapply sure_operation; [exact Hok|done|]. intros op _.
  destruct err as [err|].
  - apply sure_bind, sure_Now. intros m. pose proof (failed_weight e err (time_now n) (time_now m) Hp Hat) as Hw.
    pose proof (same_event_failed e err (time_now n) (time_now m)) as Hs. destruct (failed_attempt _ _ _ _) as [next state]. cbn in Hw, Hs.
    apply sure_bind, (sure_save e); [apply Hok|done..|]. intros d' Hi' Hrec _ Hlt.
    apply sure_bind, sure_set_operation; [done|]. intros d'' Hi'' Hrec' Hout.
    apply sure_write_back; [done|congruence|done|]. intros d3 Hout3. unfold used. by rewrite Hout3, Hout.
  - apply sure_bind, (sure_save e); [apply Hok|done|done|by apply processed_weight|]. intros d' Hi' Hrec _ Hlt.
    apply sure_bind, sure_set_operation; [done|]. intros d'' Hi'' Hrec' Hout.
    apply sure_write_back; [done|congruence|done|]. intros d3 Hout3. unfold used. by rewrite Hout3, Hout.
Qed.
End round.

(** *** The claim *)

Lemma filter_one {Row} (c : Row -> Row -> bool) p l a : clash_free c l = true -> a ∈ l -> p a = true ->
  (forall b b', p b = true -> p b' = true -> c b b' = true) -> length (List.filter p l) = 1%nat.
Proof.
  intros Hfree Ha Hp Hc. revert Hfree Ha. induction l as [|b l IH]; [by intros _ ?%elem_of_nil|].
  intros [Hb Hl]%andb_true_iff Ha. cbn. destruct (p b) eqn:Epb.
  - cbn. f_equal. destruct (List.filter p l) as [|b' k] eqn:E; [done|exfalso].
    assert (b' ∈ l /\ p b' = true) as [Hb' Hpb'] by (apply filter_bool_elem; rewrite E; left).
    apply negb_true_iff, not_true_iff_false in Hb. apply Hb, existsb_exists. exists b'. rewrite list_elem_of_In in Hb'. auto.
  - apply IH; [done|]. apply elem_of_cons in Ha as [->|?]; [congruence|done].
Qed.

Definition due (now : Z) e : bool := pending e && (AvailableAt e <=? now) && unclaimed now e.

Lemma sure_claim token n d seen flight : gateway_ok d seen flight -> (exists e, e ∈ outbox d /\ due (time_now n) e = true) ->
  sure (claim_event token (time_now n)) d (fun d1 o => attempts_left (outbox d1) = attempts_left (outbox d) /\
    exists e, o = Some e /\ gateway_ok d1 (seen ++ records d1) flight /\ holds_claim d1 e (ev_ID e) token).
Proof.
  intros Hok (e0 & He0 & Hdue). pose proof (inv_indexes _ _ _ Hok) as Hi. set (now := time_now n) in *.
  assert (sure (claim_event token now) d (fun d1 o => attempts_left (outbox d1) = attempts_left (outbox d) /\ is_Some o)) as Hsure.
  { apply sure_bind, sure_attempt. eapply db_mono.
    - apply sure_transaction, sure_bind, sure_FirstBy; [by exists e0|]. intros cand Hcand Hcdue.
      set (p := fun e => event_is (ev_ID cand) e && pending e && unclaimed now e).
      assert (p cand = true) as Hpc.
      { unfold due in Hcdue. apply andb_true_iff in Hcdue as [[Hp _]%andb_true_iff Hu]. unfold p, event_is. by rewrite Hp, Hu, String.eqb_refl. }
      apply sure_bind, sure_Updates. intros t. split.
      { apply (outbox_keys_free d); [done|]. intros e _. by destruct (p e). }
      fold p. cbn [rows outbox_table]. rewrite (filter_one (clash outbox_table) p _ cand); [|apply Hi|done..|].
      + apply (sure_FirstBy _ _ _ _ (fun d1 _ => attempts_left (outbox d1) = attempts_left (outbox d))).
        * exists (with_claim cand token (Some (now + 30 * second))). split; [|by unfold event_is; rewrite String.eqb_refl].
          apply changed_elem. exists cand. by rewrite Hpc.
        * intros e _ _. apply attempts_left_same. intros x. by destruct (p x).
      + intros b b' [[Hb%String.eqb_eq _]%andb_true_iff _]%andb_true_iff [[Hb'%String.eqb_eq _]%andb_true_iff _]%andb_true_iff.
        cbn. by rewrite Hb, Hb', String.eqb_refl.
    - intros d1 [e|err]; [|done]. intros Hatt. apply sure_ret. by split. }
  eapply db_mono; [apply db_and; [exact Hsure|exact (claim_event_spec (fun r => r ∈ seen) (fun e r => (e, r) ∈ flight) token now d Hi)]|].
  intros d1 [[e|]|err] [Hs [Hruns Hclaim]]; [|by destruct Hs as [_ [? [=]]]|done].
  split; [apply Hs|]. exists e. split; [done|]. split; [by apply (runs_ok d)|].
  destruct (Hclaim e eq_refl) as (? & ? & ?). by split.
Qed.

(** Whatever fails, a round keeps the invariant. *)
Lemma ReconcileOne_ok k8s d seen flight : gateway_ok d seen flight ->
  db_spec (ReconcileOne k8s) d (fun d' _ => exists seen' flight', gateway_ok d' seen' flight').
Proof.
  intros Hok. apply db_bind, db_newPublicID. intros token. apply db_bind, db_Now. intros now.
  apply db_bind. eapply db_mono; [apply (claim_event_spec (fun r => r ∈ seen) (fun e r => (e, r) ∈ flight)), Hok|].
  intros d1 o [Hruns He]. pose proof (runs_ok _ _ _ _ Hok Hruns) as Hok1.
  destruct o as [[e|]|err]; [|apply db_ret; by eexists _, _|by eexists _, _].
  destruct (He e eq_refl) as (Hin & _ & _). set (seen1 := seen ++ records d1) in *.
  apply db_bind. eapply db_mono; [apply (load_target_spec (fun r => r ∈ seen1) (fun e r => (e, r) ∈ flight)), Hok1|].
  intros d2 o [Hruns2 Hr]. pose proof (runs_ok _ _ _ _ Hok1 Hruns2) as Hok2.
  destruct o as [[r|]|err]; [|apply db_ret; by eexists _, _|by eexists _, _].
  destruct (Hr r eq_refl) as (-> & Hrin & Ht).
  assert (gateway_ok d1 seen1 ((e, r) :: flight)) as Hok3.
  { destruct Hok1 as [Hi Ho Hrec Hev Hf]. split; [done..|]. intros e1 r1 [[= -> ->]|Hold]%elem_of_cons; [|by apply Hf].
    split_and!; [by apply (ok_seen _ _ Hrec)|by eapply target_active|by eapply target_id|by exists e]. }
  apply db_bind, db_reads; [auto with reads|]. intros [o|err]; [|by eexists _, _].
  eapply db_mono; [apply (finish_event_runs (fun r => r ∈ seen1) (fun e' r' => (e', r') ∈ (e, r) :: flight)); [apply Hok1|left]|].
  intros d3 o' Hruns3. pose proof (runs_ok _ _ _ _ Hok3 Hruns3). by eexists _, _.
Qed.

(** C8: when no statement fails, a round of the worker that finds an event which is due,
    with or without a client for the engine and whatever the engine answers, ends without
    an error and uses up one of the attempts that are left; there are never fewer than
    none, so that the worker settles every event after as many rounds. *)
Theorem rounds_use_up_attempts k8s d seen flight : gateway_ok d seen flight ->
  (forall n, exists e, e ∈ outbox d /\ due (time_now n) e = true) ->
  db_spec (ReconcileOne k8s) d (fun d' o => o = Ok tt /\ 0 <= attempts_left (outbox d') < attempts_left (outbox d)).
Proof.
  intros Hok Hdue. pose proof (inv_indexes _ _ _ Hok) as Hi.
  assert (sure (ReconcileOne k8s) d (used d)) as Hsure.
  { apply sure_bind, sure_newPublicID. intros token. apply sure_bind, sure_Now. intros n.
    apply sure_bind. eapply sure_mono; [by eapply sure_claim|]. intros d1 o (Hatt & e & -> & Hok1 & He).
    pose proof (inv_indexes _ _ _ Hok1) as Hi1.
    assert (forall (m : step ()) d2, sure m d2 (used d1) -> sure m d2 (used d)) as Hused.
    { intros m d2 Hm. eapply sure_mono; [exact Hm|]. intros d3 a. unfold used. by rewrite Hatt. }
    apply sure_bind.
    assert (ClaimToken e = token) as Htok by apply He.
    apply sure_bind, sure_attempt, db_First_exact; [intros ? ? Hf; by rewrite no_failure in Hf|].
    destruct (least _ _) as [r|] eqn:E.
    - apply least_elem, filter_bool_elem in E as [Hr Ht]. pose proof (target_active _ _ Ht) as Ha.
      destruct k8s.
      + apply sure_ret, sure_bind, sure_attempt, db_reads; [apply project_reads|]. intros o.
        apply Hused. by apply (sure_finish d1 _ _ Hok1 e token He).
      + apply sure_bind. eapply sure_mono; [by apply (sure_fail d1 _ _ Hok1 e token He)|]. intros d2 [] Hlt.
        apply sure_ret, sure_ret. unfold used in *. by rewrite <- Hatt.
    - change (String.eqb ErrRecordNotFound ErrRecordNotFound) with true. cbn iota.
      apply sure_bind, sure_attempt, db_reads; [auto with reads|]. intros o. apply sure_bind.
      assert (forall m : step (), sure m d1 (used d1) -> sure m d1 (fun d' _ => sure (mret None) d' (fun d'0 a =>
        sure (match a with Some r => result ← attempt (project r (ev_Action e)); finish_event e token r (match result with Ok _ => None | Err err => Some err end)
              | None => mret tt end) d'0 (used d)))) as Hnone.
      { intros m Hm. eapply sure_mono; [exact Hm|]. intros d2 [] Hlt. apply sure_ret, sure_ret. unfold used in *. by rewrite <- Hatt. }
      destruct o as [m|err]; [destruct (m =? 0)|]; apply Hnone;
        [by apply (sure_fail d1 _ _ Hok1 e token He)|by apply (sure_discard d1 _ _ Hok1 e token He)|by apply (sure_fail d1 _ _ Hok1 e token He)]. }
  eapply db_mono; [apply db_and; [exact Hsure|exact (ReconcileOne_ok k8s d seen flight Hok)]|].
  intros d' [[]|err] [Hlt (seen' & flight' & Hok')]; [|done]. split; [done|]. split; [|exact Hlt].
  apply attempts_left_nonneg. intros e He. unfold weight. destruct (pending e) eqn:Ep; [|done].
  pose proof (pending_attempts _ _ _ _ Hok' He Ep). lia.
Qed.
End progress.
