(* ===== verification/GatewaySample.v ===== *)
(** * A portal with an engine in memory

    Instances of the parameters of Gateway.v, a run of it, and the witnesses of the
    theorems of GatewaySpec.v, GatewayWorker.v and GatewayProgress.v. *)

From S2P Require Import Prelude GoRuntime Api Manifest Wp Store PortalStore EngineTypes Codec EngineAdapter Gateway StoreLogic GatewayMachine GatewayInvariants GatewaySpec GatewayWorker GatewayProgress.

(** ** Codecs of the states *)

#[export] Instance tokens_dto_selector : Tokens Dto.LabelSelector :=
  tokens_via (B := option (gmap string string) * option (list (string * string * option (list string))))
    (fun s => (Dto.MatchLabels s, fmap (M := option) (fmap (M := list) (fun r => (Dto.lsr_Key r, Dto.lsr_Operator r, (Dto.lsr_Values r : option (list string)))))
       (Dto.MatchExpressions s)))
    (fun '(m, x) => Dto.mkSelector m (fmap (M := option) (fmap (M := list) (fun '(k, o, v) => Dto.mkRequirement k o v)) x)).
#[export] Instance tokens_dto_env : Tokens Dto.EnvironmentVariable :=
  tokens_via (fun e => (Dto.env_Name e, Dto.env_Value e,
      (fun s => (Dto.SecretName s, Dto.sk_Key s, Dto.sk_Optional s)) <$> Dto.ValueFrom e))
    (fun '(n, v, s) => Dto.mkEnv n v ((fun '(a, k, o) => Dto.mkSecretKeyRef a k o) <$> s)).
#[export] Instance tokens_dto_container : Tokens Dto.Container :=
  tokens_via (fun c => (Dto.c_Name c, Dto.c_Image c, (Dto.c_Command c : option (list string)), (Dto.c_Args c : option (list string)),
      (Dto.c_Env c : option (list Dto.EnvironmentVariable))))
    (fun '(n, i, cmd, args, env) => Dto.mkContainer n i cmd args env).
#[export] Instance tokens_dto_override : Tokens Dto.PolicyOverride :=
  tokens_via (fun o => (Dto.ov_ClusterSelector o, Dto.ov_Image o, (Dto.ov_Env o : option (list Dto.EnvironmentVariable)), Dto.ov_Resources o,
      (Dto.ov_Command o : option (list string)), (Dto.ov_Args o : option (list string))))
    (fun '(s, i, env, r, cmd, args) => Dto.mkOverride s i env r cmd args).
#[export] Instance tokens_dto_toleration : Tokens Dto.Toleration :=
  tokens_via (fun t => (Dto.tol_Key t, Dto.tol_Operator t, Dto.tol_Value t, Dto.tol_Effect t, Dto.tol_Seconds t))
    (fun '(k, o, v, e, s) => Dto.mkToleration k o v e s).
#[export] Instance tokens_dto_job : Tokens Dto.JobAttributes :=
  tokens_via (fun j => (Dto.Completions j, Dto.Parallelism j, Dto.BackoffLimit j, Dto.TTLSecondsAfterFinished j,
      Dto.SuccessfulJobsHistoryLimit j, Dto.FailedJobsHistoryLimit j))
    (fun '(a, b, c, d, e, f) => Dto.mkJobAttributes a b c d e f).
#[export] Instance tokens_dto_application : Tokens Dto.ApplicationDesired :=
  tokens_via (fun a => ((Dto.APIVersion (Dto.Workload a), Dto.Kind (Dto.Workload a)), Dto.Replicas a,
      ((Dto.Labels (Dto.Template a) : option (gmap string string)), (Dto.Containers (Dto.Template a) : option (list Dto.Container))),
      Dto.Schedule a, Dto.Suspend a, Dto.Selector a, Dto.JobAttrs a, Dto.ClusterAffinity a,
      (Dto.ClusterTolerations a : option (list Dto.Toleration)), (Dto.Overrides a : option (list Dto.PolicyOverride)), Dto.Resiliency a,
      Dto.RolloutStrategy a))
    (fun '((v, k), n, (l, c), s, u, sel, j, aff, tol, ov, res, ro) =>
       Dto.mkApplication (Dto.mkWorkload v k) n (Dto.mkPodTemplate l c) s u sel j aff tol ov res ro).
#[export] Instance tokens_dto_workspace : Tokens Dto.WorkspaceDesired :=
  tokens_via (fun w => (Dto.Namespace w, (Dto.ClusterMatchLabels w : option (gmap string string)), Dto.ClusterSelector w, Dto.ResourceConstraints w))
    (fun '(n, m, s, c) => Dto.mkWorkspace n m s c).
#[export] Instance tokens_dto_desired : Tokens Dto.DesiredState :=
  tokens_via (fun d => (Dto.Application d, Dto.Workspace d)) (fun '(a, w) => Dto.mkDesired a w).
#[export] Instance tokens_dto_cluster_status : Tokens Dto.ClusterApplicationStatus :=
  tokens_via (fun c => (Dto.cas_ClusterName c, Dto.cas_Phase c, Dto.cas_Replicas c, Dto.cas_ReadyReplicas c, Dto.cas_Message c))
    (fun '(n, p, r, rr, m) => Dto.mkClusterStatus n p r rr m).
#[export] Instance tokens_dto_application_observed : Tokens Dto.ApplicationObserved :=
  tokens_via (fun o => (Dto.SchedulingPhase o, Dto.HealthPhase o, Dto.GlobalReplicas o, Dto.GlobalReadyReplicas o,
      (Dto.Clusters o : option (list Dto.ClusterApplicationStatus))))
    (fun '(s, h, r, rr, c) => Dto.mkApplicationObserved s h r rr c).
#[export] Instance tokens_dto_cluster_error : Tokens Dto.WorkspaceClusterError :=
  tokens_via (fun c => (Dto.wce_Name c, Dto.wce_Message c, Dto.wce_LastTransitionTime c)) (fun '(n, m, t) => Dto.mkClusterError n m t).
#[export] Instance tokens_dto_workspace_observed : Tokens Dto.WorkspaceObserved :=
  tokens_via (fun o => (Dto.Ready o, (Dto.AppliedClusters o : option (list string)), (Dto.FailedClusters o : option (list Dto.WorkspaceClusterError))))
    (fun '(r, a, f) => Dto.mkWorkspaceObserved r a f).
#[export] Instance tokens_dto_cluster_observed : Tokens Dto.ClusterObserved :=
  tokens_via (fun o => (Dto.ConnectionMode o, Dto.State o, Dto.LastKeepAliveTime o)) (fun '(c, s, k) => Dto.mkClusterObserved c s k).
#[export] Instance tokens_dto_observed : Tokens Dto.ObservedState :=
  tokens_via (fun o => (Dto.ob_Application o, Dto.ob_Workspace o, Dto.ob_Cluster o)) (fun '(a, w, c) => Dto.mkObserved a w c).
#[export] Instance tokens_input : Tokens ResourceInput :=
  tokens_via (fun i => (in_Name i, in_ProjectID i, in_WorkspaceID i, in_Desired i)) (fun '(n, p, w, d) => mkInput n p w d).

#[export] Instance sample_gateway : GatewayJson := {|
  desired_json := tokens_json id (Dto.mkDesired None None);
  observed_json := tokens_json id (Dto.mkObserved None None None);
  input_json := tokens_json id (mkInput "" "" "" (Dto.mkDesired None None));
  sha256_hex s := s |}.

(** ** The surroundings *)

(** Statements never fail, and it is always the same second. *)
#[export] Instance sample_ambient : Ambient := {|
  time_now _ := 5 * second; random_hex n := pretty n; db_error _ := None; duplicate_error := "UNIQUE constraint failed"; serial n := Pos.of_succ_nat n |}.
#[export] Instance sample_ambient_laws : AmbientLaws sample_ambient.
Proof. by split. Qed.

Record Engine := mkEngine {
  en_workspaces : gmap string WorkspaceObject; en_applications : gmap string ApplicationObject; en_clusters : gmap string ManagedCluster;
  en_down : bool }.

(** An object that is read from JSON has no empty slice of expressions. *)
Definition read_selector (s : LabelSelector) : LabelSelector := mkSelector (MatchLabels s) (nil_if_empty (ls_MatchExpressions s)).
Definition read_workspace (w : WorkspaceObject) : WorkspaceObject :=
  let s := wo_Spec w in
  mkWorkspaceObject _ (wo_Name w) (wo_ResourceVersion w) (wo_Labels w)
    (mkWorkspaceSpec (ws_Name s) (read_selector <$> ws_ClusterSelector s) (ws_ResourceConstraints s)) (wo_Status w).

Definition unless_down {A} (e : Engine) (x : Engine * A) (down : A) : Engine * A := if en_down e then (e, down) else x.
Definition lookup_object {A} (m : gmap string A) (name : string) : res A :=
  match m !! name with Some o => Ok o | None => Err (name +:+ " not found") end.

#[export] Instance sample_engine : @EngineApi sample_types sample_kubernetes sample_errors := {|
  engine := Engine;
  eng_GetWorkspace name e := unless_down e (e, (o ← lookup_object (en_workspaces e) name; Ok (read_workspace o))) (Err "unavailable");
  eng_CreateWorkspace w e := unless_down e (mkEngine (<[wo_Name w := w]> (en_workspaces e)) (en_applications e) (en_clusters e) false, None) (Some "unavailable");
  eng_UpdateWorkspace w e := unless_down e (mkEngine (<[wo_Name w := w]> (en_workspaces e)) (en_applications e) (en_clusters e) false, None) (Some "unavailable");
  eng_DeleteWorkspace name e := unless_down e (mkEngine (delete name (en_workspaces e)) (en_applications e) (en_clusters e) false, None) (Some "unavailable");
  eng_ListWorkspaces e := unless_down e (e, Ok (read_workspace <$> (map_to_list (en_workspaces e)).*2)) (Err "unavailable");
  eng_GetApplication ns name e := unless_down e (e, lookup_object (en_applications e) (ns +:+ "/" +:+ name)) (Err "unavailable");
  eng_CreateApplication a e := unless_down e
    (mkEngine (en_workspaces e) (<[ao_Namespace a +:+ "/" +:+ ao_Name a := a]> (en_applications e)) (en_clusters e) false, None) (Some "unavailable");
  eng_UpdateApplication a e := unless_down e
    (mkEngine (en_workspaces e) (<[ao_Namespace a +:+ "/" +:+ ao_Name a := a]> (en_applications e)) (en_clusters e) false, None) (Some "unavailable");
  eng_DeleteApplication ns name e := unless_down e
    (mkEngine (en_workspaces e) (delete (ns +:+ "/" +:+ name) (en_applications e)) (en_clusters e) false, None) (Some "unavailable");
  eng_ListApplications e := unless_down e (e, Ok (map_to_list (en_applications e)).*2) (Err "unavailable");
  eng_GetCluster name e := unless_down e (e, lookup_object (en_clusters e) name) (Err "unavailable");
  eng_UpdateCluster c e := unless_down e (mkEngine (en_workspaces e) (en_applications e) (<[mc_Name c := c]> (en_clusters e)) false, None) (Some "unavailable");
  eng_ListClusters e := unless_down e (e, Ok (map_to_list (en_clusters e)).*2) (Err "unavailable") |}.

(** ** A run: a workspace is created and projected *)

Definition root : Principal := mkPrincipal 1 1 "admin" "" true.
Definition dev : Principal := mkPrincipal 2 2 "dev" "m1" false.

Definition portal : Type := store (@portal_outside _ _ _ sample_engine).
Definition no_operation : Operation := mkOperation "" "" 0 "" "" "" "" "" "" "" 0 0.

(** The state a run ends in, and its value. *)
Definition state_of {A} (r : outcome (portal * res A)) (s : portal) : portal := match r with Ret (s', _) => s' | Panic => s end.
Definition value_of {A} (r : outcome (portal * res A)) (a : A) : A := match r with Ret (_, Ok b) => b | _ => a end.
Lemma ran {A} (m : action portal A) (s : portal) (a : A) : succeeded (m s) = true -> m s = Ret (state_of (m s) s, Ok (value_of (m s) a)).
Proof. by destruct (m s) as [[s' [b|err]]|]. Qed.

Definition empty_engine : Engine := mkEngine ∅ ∅ ∅ false.
Definition start : portal := mkStore
  (mkDb [] [] [] [mkProject 1 "p1" 7 "m1"] [mkUser 2 2 "dev" (Some 7) (Some "m1")]) (mkOutside empty_engine false None) 0.
Definition shop_input : ResourceInput := mkInput "shop" "p1" "" (Dto.mkDesired None (Some (Dto.mkWorkspace "" None (Some one_zone) ""))).
Definition create_shop : request := RCreate ResourceWorkspace shop_input.

Definition y0 : sys := mkSys start [] [] [].
Definition s1 : portal := state_of (serve dev "k1" create_shop start) start.
Definition op1 : Operation := value_of (serve dev "k1" create_shop start) no_operation.
Definition y1 : sys := after y0 s1.
Definition no_event : OutboxEvent := mkEvent "" "" "" "" 0 0 "" 0 None "" None 0.
Definition no_record : ResourceRecord := mkRecord (mkIdentity "" "" "" "" "" None) unassigned (mkDesired "" "" 0) (mkObserved "" None "")
  (new_progress 0 "" "" "") 0 0.
Definition claim1 : action portal (option OutboxEvent) := claim_event "c1" (5 * second).
Definition s2 : portal := state_of (claim1 s1) s1.
Definition e1 : OutboxEvent := default no_event (value_of (claim1 s1) None).
Definition y2 : sys := mkSys s2 (y_seen (after y1 s2)) [e1] [].
Definition s3 : portal := state_of (load_target true e1 s2) s2.
Definition r1 : ResourceRecord := default no_record (value_of (load_target true e1 s2) None).
Definition y3 : sys := mkSys s3 (y_seen (after y2 s3)) [e1] [(e1, r1)].
Definition s4 : portal := state_of (finish_event e1 "c1" r1 None s3) s3.
Definition y4 : sys := after y3 s4.

Lemma reachable_y0 : reachable y0.
Proof. exists y0. split; [by eexists _, _, _|done]. Qed.
Lemma reachable_next y y' : reachable y -> sys_step y y' -> reachable y'.
Proof. intros (z & Hz & Hsteps) Hstep. exists z. split; [done|]. by eapply rtc_r. Qed.
Lemma reachable_y1 : reachable y1.
Proof. eapply reachable_next; [exact reachable_y0|]. apply (S_request dev "k1" create_shop y0 s1 (Ok op1)). apply ran. vm_compute. reflexivity. Qed.
Lemma reachable_y2 : reachable y2.
Proof.
  eapply reachable_next; [exact reachable_y1|]. apply (S_claim "c1" (5 * second) y1 s2 (Ok (Some e1))).
  change (claim1 s1 = Ret (s2, Ok (Some e1))). rewrite (ran claim1 s1 None) by (vm_compute; reflexivity).
  unfold s2, e1. by vm_compute (value_of (claim1 s1) None).
Qed.
Lemma some_default {A} (o : option A) a : bool_decide (is_Some o) = true -> o = Some (default a o).
Proof. intros Ho%bool_decide_eq_true. by destruct Ho as [b ->]. Qed.
Lemma reachable_y3 : reachable y3.
Proof.
  eapply reachable_next; [exact reachable_y2|]. apply (S_load true e1 y2 s3 (Ok (Some r1))); [left|].
  unfold r1. rewrite <- (some_default (value_of (load_target true e1 s2) None) no_record) by (vm_compute; reflexivity).
  apply ran. vm_compute. reflexivity.
Qed.
Lemma reachable_y4 : reachable y4.
Proof.
  eapply reachable_next; [exact reachable_y3|]. apply (S_finish e1 "c1" r1 None y3 s4 (Ok tt)); [left|].
  unfold s4. change (y_portal y3) with s3. destruct (value_of (finish_event e1 "c1" r1 None s3) tt) eqn:E. rewrite <- E.
  apply ran. vm_compute. reflexivity.
Qed.

(** ** Witnesses *)

Definition op4 : Operation := default no_operation (head (operations (g_db s4))).
Definition r4 : ResourceRecord := default no_record (head (records (g_db s4))).
Lemma head_in {A} (l : list A) a : negb (match l with [] => true | _ => false end) = true -> default a (head l) ∈ l.
Proof. destruct l as [|x l]; [done|]. intros _. left. Qed.
Lemma op4_in : op4 ∈ operations (g_db (y_portal y4)).
Proof. apply head_in. vm_compute. reflexivity. Qed.
Lemma r4_in : r4 ∈ records (g_db (y_portal y4)).
Proof. apply head_in. vm_compute. reflexivity. Qed.
Lemma op1_in : op1 ∈ operations (g_db s1).
Proof.
  assert (op1 = default no_operation (head (operations (g_db s1)))) as -> by (vm_compute; reflexivity).
  apply head_in. vm_compute. reflexivity.
Qed.
Lemma indexes_s1 : indexes_ok (g_db s1).
Proof. split_and!; vm_compute; reflexivity. Qed.

(** The operation of the request has succeeded, and its event is processed. *)
Lemma operations_follow_their_events_witness : op_State op4 = "succeeded" /\
  exists e, e ∈ outbox (g_db s4) /\ follows op4 e /\ pending e = false.
Proof.
  split; [vm_compute; reflexivity|].
  destruct (operations_follow_their_events y4 op4 reachable_y4 op4_in) as (e & He & Hf & _).
  exists e. split; [exact He|]. split; [exact Hf|]. rewrite (follows_state _ _ Hf). vm_compute. reflexivity.
Defined.


(** The workspace is synced, with revision 1. *)
Lemma synced_means_applied_witness : SyncState (r_Progress r4) = "synced" /\ AppliedRevision (r_Progress r4) = 1.
Proof.
  destruct (synced_means_applied y4 r4 reachable_y4 r4_in) as [_ Hs]. split; [vm_compute; reflexivity|].
  rewrite Hs; [vm_compute; reflexivity|vm_compute; reflexivity|vm_compute; reflexivity|]. vm_compute. discriminate.
Defined.

Lemma portal_refines_machine_witness :
  rtc (moves (fun r => r ∈ y_seen y0) (fun e r => (e, r) ∈ y_flight y0)) (g_db start) (g_db s1).
Proof.
  apply (portal_refines_machine y0 y1 reachable_y0).
  apply (S_request dev "k1" create_shop y0 s1 (Ok op1)). apply ran. vm_compute. reflexivity.
Defined.


Lemma requests_stay_in_scope_witness :
  db_spec (serve dev "k2" (RDelete "workspace_0" ResourceWorkspace)) (g_db s1) (fun d' _ => within dev (g_db s1) d') /\
  db_spec (Update dev "workspace_0" ResourceWorkspace shop_input "k2") (g_db s1) (fun d' _ => within dev (g_db s1) d').
Proof.
  destruct (requests_stay_in_scope dev "k2" (g_db s1) indexes_s1) as [Hserve Hupdate]. split; [apply Hserve|apply Hupdate].
Defined.

(** A record of before the validation, with a value in its state. *)
Definition plain_env : Dto.EnvironmentVariable := Dto.mkEnv "PASSWORD" "hunter2" None.
Definition plain_desired : Dto.ApplicationDesired :=
  Dto.mkApplication (Dto.mkWorkload "apps/v1" "Deployment") (Some 3)
    (Dto.mkPodTemplate None (Some [Dto.mkContainer "main" "nginx" None None (Some [plain_env])])) "" None None None "" None None None "".
Definition plain_record : ResourceRecord :=
  with_desired no_record (mkDesired (unwrap "" (Marshal (Dto.mkDesired (Some plain_desired) None))) "" 1) 0.
Definition plain_view : ResourceView :=
  unwrap (mkView "" "" "" "" "" "" (Dto.mkDesired None None) (Dto.mkObserved None None None) None "" "" "") (recordView plain_record).

Lemma views_hide_values_witness : plain_env ∈ all_envs plain_desired /\
  exists a, Dto.Application (v_Desired plain_view) = Some a /\ forall env, env ∈ all_envs a -> Dto.env_Value env = "".
Proof.
  split; [left|].
  assert (recordView plain_record = Ok plain_view) as Hv by (apply unwrap_ok; vm_compute; reflexivity).
  exists (strip_application plain_desired). assert (Dto.Application (v_Desired plain_view) = Some (strip_application plain_desired)) as Ha.
  { vm_compute. reflexivity. }
  split; [exact Ha|]. intros env Henv. exact (proj1 (views_hide_values plain_record plain_view Hv) _ env Ha Henv).
Defined.

(** The workspace is to be deleted; the first attempt fails. *)
Definition s5 : portal := state_of (serve dev "k2" (RDelete (ID (r_Identity r4)) ResourceWorkspace) s4) s4.
Definition claim2 : action portal (option OutboxEvent) := claim_event "c2" (5 * second).
Definition s6 : portal := state_of (claim2 s5) s5.
Definition e2 : OutboxEvent := default no_event (value_of (claim2 s5) None).
Definition r2 : ResourceRecord := default no_record (value_of (load_target true e2 s6) None).
Definition s7 : portal := state_of (finish_event e2 "c2" r2 (Some "unavailable") s6) s6.

(** The event waits for another attempt; the record is active, but no target of it. *)
Lemma failed_delete_is_never_retried_witness :
  (exists e, e ∈ outbox (g_db s7) /\ ev_ID e = ev_ID e2 /\ pending e = true) /\
  ~ has_target e2 (g_db s7) /\
  exists x, x ∈ records (g_db s7) /\ resourceActive x = true.
Proof.
  split; [|split].
  - exists (default no_event (head (List.filter pending (outbox (g_db s7))))). split; [|split; vm_compute; reflexivity].
    assert (default no_event (head (List.filter pending (outbox (g_db s7)))) ∈ List.filter pending (outbox (g_db s7))) as Hin.
    { apply head_in. vm_compute. reflexivity. }
    by apply filter_bool_elem in Hin as [? _].
  - assert (db_spec (finish_event e2 "c2" r2 (Some "unavailable")) (g_db s6)
      (fun d' o => o = Ok tt -> d' <> g_db s6 -> ~ has_target e2 d')) as Hspec.
    { apply failed_delete_is_never_retried; vm_compute; reflexivity. }
    assert (finish_event e2 "c2" r2 (Some "unavailable") s6 = Ret (s7, Ok tt)) as Hrun.
    { unfold s7. destruct (value_of (finish_event e2 "c2" r2 (Some "unavailable") s6) tt) eqn:E. rewrite <- E.
      apply ran. vm_compute. reflexivity. }
    refine (wp_elim _ _ _ _ _ (Hspec s6 eq_refl) Hrun eq_refl _).
    intros Heq. apply (f_equal (fun d => SyncState (r_Progress (default no_record (head (records d)))))) in Heq.
    vm_compute in Heq. discriminate.
  - exists (default no_record (head (records (g_db s7)))). split; [apply head_in|]; vm_compute; reflexivity.
Defined.

Lemma sample_decoded world name current : (eng_GetWorkspace (EngineApi := sample_engine) name world).2 = Ok current ->
  decoded (ws_ClusterSelector (wo_Spec current)).
Proof.
  cbn. unfold unless_down. destruct (en_down world); [done|]. cbn. destruct (lookup_object _ _) as [w|]; [|done]. intros [= <-].
  cbn. destruct (ws_ClusterSelector _) as [sel|]; [|done]. cbn. unfold nil_if_empty. by destruct (elems _).
Qed.

(** The workspace of the run is synced, and drifted. *)
Lemma labels_selector_always_drifts_witness : SyncState (r_Progress r4) = "synced" /\
  wp (projectionDrifted r4) (fun _ o => o <> Ok false) s4.
Proof.
  split; [vm_compute; reflexivity|].
  apply (labels_selector_always_drifts r4 (in_Desired shop_input) (Dto.mkWorkspace "" None (Some one_zone) "") one_zone s4).
  - vm_compute. reflexivity.
  - vm_compute. reflexivity.
  - reflexivity.
  - reflexivity.
  - reflexivity.
  - intros world current. apply sample_decoded.
Defined.

Lemma sample_no_failure n : db_error (Ambient := sample_ambient) n = None.
Proof. done. Qed.

(** The event of the request is due at every time. *)
Lemma rounds_use_up_attempts_witness :
  db_spec (ReconcileOne true) (g_db s1) (fun d' o => o = Ok tt /\ 0 <= attempts_left (outbox d') < 3).
Proof.
  assert (attempts_left (outbox (g_db s1)) = 3) as <- by (vm_compute; reflexivity).
  apply (rounds_use_up_attempts sample_no_failure true (g_db s1) (y_seen y1) (y_flight y1)).
  - exact (proj1 (reachable_ok y1 reachable_y1)).
  - intros n. exists (default no_event (head (outbox (g_db s1)))). split; [apply head_in|]; vm_compute; reflexivity.
Defined.
