(* ===== verification/Errors.v ===== *)
(** * Application errors and responses

    apiserver/pkg/errors and apiserver/pkg/utils: the errors the services return, with
    their codes, and the responses the handlers write. *)

From S2P Require Import Prelude.

(** ** errors/code.go *)

Definition CodeOK : Z := 0.
Definition CodeBadRequest : Z := 400.
Definition CodeUnauthorized : Z := 401.
Definition CodeForbidden : Z := 403.
Definition CodeNotFound : Z := 404.
Definition CodeConflict : Z := 409.
Definition CodeInternal : Z := 500.
Definition CodeUserNotFound : Z := 1001.
Definition CodeUserExists : Z := 1002.
Definition CodeInvalidPassword : Z := 1003.
Definition CodeUsernameExists : Z := 1004.
Definition CodeEmailExists : Z := 1005.
Definition CodeLastAdmin : Z := 1006.
Definition CodeRoleNotFound : Z := 1101.
Definition CodeDefaultRoleNotFound : Z := 1102.
Definition CodeModuleNotFound : Z := 1201.
Definition CodeModuleHasChildren : Z := 1202.
Definition CodeProjectNotFound : Z := 1301.
Definition CodeInvalidToken : Z := 1401.
Definition CodeTokenExpired : Z := 1402.
Definition CodeMissingAuthHeader : Z := 1403.

Definition codeMessages : list (Z * string) := [
  (CodeOK, "success"); (CodeBadRequest, "bad request"); (CodeUnauthorized, "unauthorized"); (CodeForbidden, "forbidden");
  (CodeNotFound, "not found"); (CodeConflict, "conflict"); (CodeInternal, "internal server error");
  (CodeUserNotFound, "user not found"); (CodeUserExists, "user already exists"); (CodeInvalidPassword, "invalid password");
  (CodeUsernameExists, "username already exists"); (CodeEmailExists, "email already exists");
  (CodeLastAdmin, "cannot delete the last admin"); (CodeRoleNotFound, "role not found");
  (CodeDefaultRoleNotFound, "default role not found"); (CodeModuleNotFound, "module not found");
  (CodeModuleHasChildren, "module has children, cannot delete"); (CodeProjectNotFound, "project not found");
  (CodeInvalidToken, "invalid token"); (CodeTokenExpired, "token expired");
  (CodeMissingAuthHeader, "missing authorization header")].

Definition GetMessage (code : Z) : string :=
  match List.find (fun m => m.1 =? code) codeMessages with Some (_, msg) => msg | None => "unknown error" end.

(** ** errors/errors.go *)

Record AppError := mkAppError { Code : Z; Message : string; Cause : option string }.

(** A Go [error]: an application error or another one, with its text. *)
Inductive error := App (e : AppError) | Plain (text : string).

Definition New (code : Z) (message : string) : error :=
  App (mkAppError code (if String.eqb message "" then GetMessage code else message) None).
Definition WrapCode (code : Z) (err : string) : error := App (mkAppError code (GetMessage code) (Some err)).

Definition AppError_Error (e : AppError) : string :=
  match Cause e with Some err => Message e +:+ ": " +:+ err | None => Message e end.
Definition Error (e : error) : string := match e with App e => AppError_Error e | Plain text => text end.

Definition AsAppError (e : error) : option AppError := match e with App e => Some e | Plain _ => None end.
Definition IsCode (e : error) (code : Z) : bool := match AsAppError e with Some e => Code e =? code | None => false end.

Definition HTTPStatus (e : AppError) : Z :=
  if 1000 <=? Code e then 400 else if 500 <=? Code e then Code e else if 400 <=? Code e then Code e else 500.

(** ** utils/response.go *)

(** A response: its status, and the code, the message and the data of its body. *)
Record Response (D : Type) := mkResponse { Status : Z; BodyCode : Z; BodyMessage : string; Data : option D }.
Arguments mkResponse {D}. Arguments Status {D}. Arguments BodyCode {D}. Arguments BodyMessage {D}. Arguments Data {D}.

Section responses.
Context {D : Type}.

Definition Success (data : D) : Response D := mkResponse 200 0 "success" (Some data).
Definition SuccessWithMessage (message : string) : Response D := mkResponse 200 0 message None.
Definition ErrorResponse (httpCode code : Z) (message : string) : Response D := mkResponse httpCode code message None.
Definition ErrorFromAppError (e : AppError) : Response D := ErrorResponse (HTTPStatus e) (Code e) (Message e).

Definition or_default (message default : string) : string := if String.eqb message "" then default else message.
Definition BadRequest (message : string) : Response D := ErrorResponse 400 400 message.
Definition Unauthorized (message : string) : Response D := ErrorResponse 401 401 (or_default message "unauthorized").
Definition Forbidden (message : string) : Response D := ErrorResponse 403 403 (or_default message "forbidden").
Definition NotFound (message : string) : Response D := ErrorResponse 404 404 (or_default message "not found").
Definition Conflict (message : string) : Response D := ErrorResponse 409 409 message.
Definition InternalError (message : string) : Response D := ErrorResponse 500 500 (or_default message "internal server error").

(** Some keyword is a substring. *)
Definition containsAny (s : string) (keywords : list string) : bool :=
  existsb (fun k => (String.length k <=? String.length s)%nat &&
    existsb (fun i => String.eqb (String.substring i (String.length k) s) k) (seq 0 (String.length s - String.length k + 1))) keywords.

Definition ErrorFromErr (e : error) : Response D :=
  match AsAppError e with
  | Some e => ErrorFromAppError e
  | None =>
      let msg := Error e in
      if containsAny msg ["not found"] then NotFound msg
      else if containsAny msg ["already exists"] then Conflict msg
      else if containsAny msg ["cannot delete"; "insufficient"; "not allowed"] then Forbidden msg
      else if containsAny msg ["invalid"; "incorrect"; "required"] then BadRequest msg
      else BadRequest msg
  end.
End responses.

Record PageResult (L : Type) := mkPage { Total : Z; Page : Z; Size : Z; List_ : list L }.
Arguments mkPage {L}. Arguments Total {L}. Arguments Page {L}. Arguments Size {L}. Arguments List_ {L}.

(** utils/page.go; the arguments are what [strconv.Atoi] made of the query, zero for a
    text that is no number. *)
Definition GetPageSize (page size : Z) : Z * Z :=
  (if page <? 1 then 1 else page, if (size <? 1) || (100 <? size) then 20 else size).

(** [Offset((page - 1) * size).Limit(size)]; an offset that is not positive is left out. *)
Definition paginate {A} (page size : Z) (l : list A) : list A :=
  take (Z.to_nat size) (drop (Z.to_nat (i64 (i64 (page - 1) * size))) l).

(** ** Facts *)

(** Every error is a response of a failure. *)
Lemma ErrorFromErr_fails {D} (e : error) : 400 <= @Status D (ErrorFromErr e).
Proof.
  destruct e as [e|text]; cbn.
  - unfold HTTPStatus. bool_cases; lia.
  - by repeat case_match.
Qed.

Lemma page_bounds page size : 1 <= (GetPageSize page size).1 /\ 1 <= (GetPageSize page size).2 <= 100.
Proof. unfold GetPageSize. simpl. destruct (size <? 1) eqn:?, (100 <? size) eqn:?; simpl; bool_cases; lia. Qed.

(** The pages of a list, one after the other, are the list. *)
Lemma pages_cover {A} (size : Z) (l : list A) (n : nat) :
  0 < size -> Z.of_nat (S n) * size <= max_int64 -> (length l <= n * Z.to_nat size)%nat ->
  concat ((fun i => paginate (Z.of_nat i + 1) size l) <$> seq 0 n) = l.
Proof.
  intros Hs Hb. unfold paginate.
  assert (forall k m, (m + k <= n)%nat ->
    concat ((fun i => take (Z.to_nat size) (drop (Z.to_nat (i64 (i64 (Z.of_nat i + 1 - 1) * size))) l)) <$> seq m k) =
    take (k * Z.to_nat size) (drop (m * Z.to_nat size) l)) as Hc.
  { induction k as [|k IH]; intros m Hm; [done|]. cbn [seq fmap list_fmap concat]. rewrite IH by lia.
    assert (0 <= Z.of_nat m * size <= max_int64) as Hr by nia.
    assert (Z.of_nat m <= max_int64) by nia.
    rewrite (i64_id (Z.of_nat m + 1 - 1)) by int_range.
    replace (Z.of_nat m + 1 - 1) with (Z.of_nat m) by lia. rewrite i64_id by int_range.
    replace (Z.to_nat (Z.of_nat m * size)) with (m * Z.to_nat size)%nat by lia.
    replace (S m * Z.to_nat size)%nat with (m * Z.to_nat size + Z.to_nat size)%nat by lia.
    by rewrite <- drop_drop, <- (take_take_drop _ (Z.to_nat size) (k * Z.to_nat size)). }
  intros Hl. rewrite Hc, drop_0 by lia. by apply take_ge.
Qed.
