(* ===== verification/Service.v ===== *)
(** * Service calls

    A service calls the database and answers with a value or with an [error].  [svc] is
    the monad of such calls over the statements of [Store]; [svc_spec m d Q]: whatever
    the time, the identifiers and the failures of the database, the call [m] started on
    the tables [d] ends without a panic, with tables and an answer for which [Q] holds. *)

From S2P Require Import Prelude Wp Store StoreLogic Errors.

Definition svc (D X A : Type) : Type := action (dbstore D X) (error + A).

Section svc.
Context {D X : Type}.

Abbreviation step := (action (dbstore D X)).

#[export] Instance svc_ret : MRet (svc D X) := fun A a => (mret (inr a) : step (error + A)).
#[export] Instance svc_bind : MBind (svc D X) := fun A B f m =>
  (m : step (error + A)) ≫= (fun r => match r with inl e => (mret (inl e) : step (error + B)) | inr a => f a end).

(** [return nil, err] *)
Definition throw {A} (e : error) : svc D X A := (mret (inl e) : step (error + A)).
(** [x, err := m; if err != nil { return nil, f(err) }] *)
Definition orElse {A} (m : step A) (f : string -> error) : svc D X A :=
  attempt m ≫= (fun r => (mret (match r with Ok a => inr a | Err e => inl (f e) end) : step (error + A))).
(** A call whose error the caller looks at. *)
Definition catch {A} (m : svc D X A) : svc D X (error + A) :=
  (m : step (error + A)) ≫= (fun r => (mret (inr r) : step (error + (error + A)))).
End svc.

Definition Internal (err : string) : error := WrapCode CodeInternal err.

Section rules.
Context {D X : Type} `{Ambient}.
Implicit Types (d : D).

Abbreviation step := (action (dbstore D X)).

Definition svc_spec {A} (m : svc D X A) d (Q : D -> error + A -> Prop) : Prop :=
  db_spec (m : step (error + A)) d (fun d' r => match r with Ok r => Q d' r | Err _ => False end).

Lemma svc_mono {A} (m : svc D X A) d Q Q' : svc_spec m d Q -> (forall d' r, Q d' r -> Q' d' r) -> svc_spec m d Q'.
Proof. intros Hm HQ. eapply db_mono; [exact Hm|]. intros d' [r|e]; [apply HQ|done]. Qed.
Lemma svc_mret {A} (a : A) d (Q : D -> error + A -> Prop) : Q d (inr a) -> svc_spec (mret a) d Q.
Proof. intros HQ. by apply db_ret. Qed.
Lemma svc_throw {A} e d (Q : D -> error + A -> Prop) : Q d (inl e) -> svc_spec (throw e) d Q.
Proof. intros HQ. by apply db_ret. Qed.
Lemma svc_mbind {A B} (m : svc D X A) (f : A -> svc D X B) d Q :
  svc_spec m d (fun d' r => match r with inr a => svc_spec (f a) d' Q | inl e => Q d' (inl e) end) -> svc_spec (m ≫= f) d Q.
Proof.
  intros Hm. apply db_bind. eapply db_mono; [exact Hm|]. intros d' [[e|a]|e] HQ; [|exact HQ|done].
  by apply db_ret.
Qed.
Lemma svc_orElse {A} (m : step A) f d (Q : D -> error + A -> Prop) :
  db_spec m d (fun d' r => match r with Ok a => Q d' (inr a) | Err e => Q d' (inl (f e)) end) -> svc_spec (orElse m f) d Q.
Proof.
  intros Hm. apply db_bind, db_attempt. eapply db_mono; [exact Hm|]. intros d' [a|e] HQ; apply db_ret; exact HQ.
Qed.
Lemma svc_catch {A} (m : svc D X A) d (Q : D -> error + (error + A) -> Prop) :
  svc_spec m d (fun d' r => Q d' (inr r)) -> svc_spec (catch m) d Q.
Proof. intros Hm. apply db_bind. eapply db_mono; [exact Hm|]. intros d' [r|e]; [by intros; apply db_ret|done]. Qed.

Lemma svc_and {A} (m : svc D X A) d (Q1 Q2 : D -> error + A -> Prop) : svc_spec m d Q1 -> svc_spec m d Q2 ->
  svc_spec m d (fun d' r => Q1 d' r /\ Q2 d' r).
Proof. intros H1 H2. eapply db_mono; [apply (db_and _ _ _ _ H1 H2)|]. intros d' [r|e]; [exact id|intros [[] _]]. Qed.

(** What a specification says of a run. *)
Lemma svc_elim {A} (m : svc D X A) (s : dbstore D X) Q : svc_spec m (g_db s) Q ->
  exists s' r, m s = Ret (s', Ok r) /\ Q (g_db s') r.
Proof.
  intros Hm. destruct (wp_ends _ _ _ (Hm s eq_refl)) as (s' & [r|e] & E & HQ); [|done]. by exists s', r.
Qed.

(** A call that leaves the tables alone. *)
Definition svc_reads {A} (m : svc D X A) : Prop := forall d, svc_spec m d (fun d' _ => d' = d).

Lemma svc_by_reads {A} (m : svc D X A) d (Q : D -> error + A -> Prop) : svc_reads m -> (forall r, Q d r) -> svc_spec m d Q.
Proof. intros Hm HQ. eapply svc_mono; [apply Hm|]. intros d' r ->. apply HQ. Qed.
Lemma svc_reads_bind {A B} (m : svc D X A) (f : A -> svc D X B) : svc_reads m -> (forall a, svc_reads (f a)) -> svc_reads (m ≫= f).
Proof. intros Hm Hf d. apply svc_mbind, svc_by_reads; [done|]. intros [e|a]; [reflexivity|apply Hf]. Qed.
Lemma svc_reads_ret {A} (a : A) : svc_reads (mret a).
Proof. intros d. by apply svc_mret. Qed.
Lemma svc_reads_throw {A} e : svc_reads (throw e : svc D X A).
Proof. intros d. by apply svc_throw. Qed.
Lemma svc_reads_orElse {A} (m : step A) f : reads m -> svc_reads (orElse m f).
Proof. intros Hm d. apply svc_orElse. eapply db_mono; [apply Hm|]. by intros d' [a|e]. Qed.
Lemma svc_reads_catch {A} (m : svc D X A) : svc_reads m -> svc_reads (catch m).
Proof. intros Hm d. apply svc_catch, Hm. Qed.
End rules.

#[export] Hint Resolve svc_reads_bind svc_reads_ret svc_reads_throw svc_reads_orElse svc_reads_catch : reads.

(** Decides that a call only reads, by its syntax. *)
Ltac solve_svc_reads :=
  repeat first
    [ assumption
    | progress intros
    | apply svc_reads_bind
    | apply svc_reads_orElse; solve_reads
    | solve [eauto 2 with reads]
    | match goal with |- svc_reads (match ?x with _ => _ end) => destruct x end
    | match goal with |- svc_reads (if ?x then _ else _) => destruct x end
    | match goal with |- svc_reads (let '(_, _) := ?x in _) => destruct x end ].
