(* ===== verification/Org.v ===== *)
(** * The tables of the organisation

    apiserver/pkg/model (base.go, module.go, project.go, user.go, role.go,
    permission.go), and apiserver/pkg/repository: modules, projects, users, roles and
    permissions, with gorm's soft delete.  A query sees the rows that are not deleted; a
    unique index covers all of them. *)

From S2P Require Import Prelude Store Json.
From S2P Require PortalStore.

(** ** model *)

Record Base := mkBase { ID : Z; CreatedAt : Z; UpdatedAt : Z; DeletedAt : option Z }.

(** Of a module, the columns. *)
Record Module_ := mkModule {
  m_Base : Base; m_PublicID : string; m_Name : string; m_ParentID : option Z; m_Level : Z; m_Sort : Z; m_Path : string }.
Record Project := mkProject {
  p_Base : Base; p_PublicID : string; p_Name : string; p_ModuleID : Z; p_Config : option (gmap string json) }.
Record User := mkUser {
  u_Base : Base; Username : string; Email : string; Password : string; Nickname : string; u_RoleID : Z; u_ModuleID : option Z }.
Record Role := mkRole { r_Base : Base; r_Name : string }.
Record Permission := mkPermission { pm_Base : Base; pm_RoleID : Z; Resource : string; Action : string; Effect : string }.

Record org := mkOrg {
  modules : list Module_; projects : list Project; users : list User; roles : list Role; permissions : list Permission;
  resources : list PortalStore.ResourceRecord }.

(** A model embeds [Base] and has a table. *)
Class Model (Row : Type) := { base : Row -> Base; with_base : Base -> Row -> Row; TableName : tableOf org Row }.

Definition same_id (b c : Base) : bool := ID b =? ID c.

#[export] Instance module_model : Model Module_ := {|
  base := m_Base;
  with_base b m := mkModule b (m_PublicID m) (m_Name m) (m_ParentID m) (m_Level m) (m_Sort m) (m_Path m);
  TableName := {|
    rows := modules;
    put_rows l d := mkOrg l (projects d) (users d) (roles d) (permissions d) (resources d);
    clash m n := same_id (m_Base m) (m_Base n) || String.eqb (m_PublicID m) (m_PublicID n);
    row_before m n := ID (m_Base m) <? ID (m_Base n) |} |}.
#[export] Instance project_model : Model Project := {|
  base := p_Base;
  with_base b p := mkProject b (p_PublicID p) (p_Name p) (p_ModuleID p) (p_Config p);
  TableName := {|
    rows := projects;
    put_rows l d := mkOrg (modules d) l (users d) (roles d) (permissions d) (resources d);
    clash p q := same_id (p_Base p) (p_Base q) || String.eqb (p_PublicID p) (p_PublicID q);
    row_before p q := ID (p_Base p) <? ID (p_Base q) |} |}.
#[export] Instance user_model : Model User := {|
  base := u_Base;
  with_base b u := mkUser b (Username u) (Email u) (Password u) (Nickname u) (u_RoleID u) (u_ModuleID u);
  TableName := {|
    rows := users;
    put_rows l d := mkOrg (modules d) (projects d) l (roles d) (permissions d) (resources d);
    clash u v := same_id (u_Base u) (u_Base v) || String.eqb (Username u) (Username v) || String.eqb (Email u) (Email v);
    row_before u v := ID (u_Base u) <? ID (u_Base v) |} |}.
#[export] Instance role_model : Model Role := {|
  base := r_Base;
  with_base b r := mkRole b (r_Name r);
  TableName := {|
    rows := roles;
    put_rows l d := mkOrg (modules d) (projects d) (users d) l (permissions d) (resources d);
    clash r s := same_id (r_Base r) (r_Base s) || String.eqb (r_Name r) (r_Name s);
    row_before r s := ID (r_Base r) <? ID (r_Base s) |} |}.
#[export] Instance permission_model : Model Permission := {|
  base := pm_Base;
  with_base b p := mkPermission b (pm_RoleID p) (Resource p) (Action p) (Effect p);
  TableName := {|
    rows := permissions;
    put_rows l d := mkOrg (modules d) (projects d) (users d) (roles d) l (resources d);
    clash p q := same_id (pm_Base p) (pm_Base q);
    row_before p q := ID (pm_Base p) <? ID (pm_Base q) |} |}.

(** ** Statements on a model *)

Section model.
Context {X : Type} `{Ambient} {Row : Type} `{Model Row}.

Abbreviation step := (action (dbstore org X)).

Definition live (r : Row) : bool := match DeletedAt (base r) with None => true | Some _ => false end.
Definition visible (p : Row -> bool) (r : Row) : bool := live r && p r.
Definition has_id (id : Z) (r : Row) : bool := ID (base r) =? id.
Definition in_ids (ids : list Z) (z : Z) : bool := existsb (Z.eqb z) ids.

Definition SelectFirst (p : Row -> bool) : step Row := First TableName (visible p).
Definition SelectAll (p : Row -> bool) : step (list Row) := Find TableName (visible p).
Definition SelectCount (p : Row -> bool) : step Z := Count TableName (visible p).
(** The row as it is inserted: the base of the argument is replaced. *)
Definition Insert (row : Row) : step Row :=
  id ← next_serial;
  Create TableName (fun now => with_base (mkBase id now now None) row).
Definition updated (now : Z) (r : Row) : Row :=
  with_base (mkBase (ID (base r)) (CreatedAt (base r)) now (DeletedAt (base r))) r.
Definition UpdateWhere (p : Row -> bool) (change : Row -> Row) : step Z :=
  Updates TableName (visible p) (fun now r => updated now (change r)).
Definition removed (now : Z) (r : Row) : Row :=
  with_base (mkBase (ID (base r)) (CreatedAt (base r)) (UpdatedAt (base r)) (Some now)) r.
Definition DeleteWhere (p : Row -> bool) : step Z := Updates TableName (visible p) removed.

(** [Save(&row)]: every column, and an insertion if no row was affected. *)
Definition Save (row : Row) : step () := stmt (fun now d =>
  let row := updated now row in
  let replace p := changed p (fun _ => row) (rows TableName d) in
  let new := if existsb (visible (has_id (ID (base row)))) (rows TableName d) then replace (visible (has_id (ID (base row))))
             else if existsb (has_id (ID (base row))) (rows TableName d) then replace (has_id (ID (base row)))
             else rows TableName d ++ [row] in
  if clash_free (clash TableName) new then (put_rows TableName new d, Ok tt) else (d, Err duplicate_error)).

(** [Preload]: the rows with the given keys, in one query unless there is no key. *)
Definition preload (ids : list Z) : step (Z -> option Row) :=
  match ids with
  | [] => mret (fun _ => None)
  | _ => rs ← SelectAll (fun r => in_ids ids (ID (base r))); mret (fun id => List.find (has_id id) rs)
  end.

(** ** repository/repository.go: BaseRepository *)

Definition GetByID (id : Z) : step Row := SelectFirst (has_id id).
Definition ListPage (paginate : list Row -> list Row) : step (list Row * Z) :=
  total ← SelectCount (fun _ => true);
  rs ← SelectAll (fun _ => true);
  mret (paginate rs, total).
Definition DeleteByID (id : Z) : step () := _ ← DeleteWhere (has_id id); mret tt.
End model.
