(* ===== verification/OrgLogic.v ===== *)
(** * Reasoning about the organisation's tables

    The rules of [StoreLogic] for the statements on a model with soft delete: what a
    query sees are the rows that are not deleted ([here]). *)

From S2P Require Import Prelude Wp Store StoreLogic Org.

Section rules.
Context {X : Type} `{Ambient} {Row : Type} `{!Model Row}.
Implicit Types (d : org) (p : Row -> bool).

Abbreviation step := (action (dbstore org X)).

(** The rows that are not deleted. *)
Definition here d : list Row := List.filter live (rows TableName d).

Lemma filter_visible p (l : list Row) : List.filter (visible p) l = List.filter p (List.filter live l).
Proof.
  induction l as [|r l IH]; [done|]. cbn. unfold visible at 1. destruct (live r); cbn; [|exact IH]. by rewrite IH.
Qed.

Lemma here_elem d r : r ∈ here d <-> r ∈ rows TableName d /\ live r = true.
Proof. apply filter_bool_elem. Qed.

Lemma visible_elem p (l : list Row) r : r ∈ List.filter (visible p) l <-> r ∈ l /\ live r = true /\ p r = true.
Proof. rewrite filter_bool_elem. unfold visible. by rewrite andb_true_iff. Qed.

Lemma db_SelectFirst p d (Q : org -> res Row -> Prop) : (forall e, Q d (Err e)) -> (forall r, r ∈ here d -> p r = true -> Q d (Ok r)) ->
  db_spec (X := X) (SelectFirst p) d Q.
Proof.
  intros He Hf. apply db_First; [done|]. intros r Hr Hp. unfold visible in Hp. apply andb_true_iff in Hp as [Hl Hp].
  apply Hf; [by apply here_elem|done].
Qed.
Lemma db_SelectAll p d (Q : org -> res (list Row) -> Prop) : (forall e, Q d (Err e)) -> Q d (Ok (List.filter p (here d))) ->
  db_spec (X := X) (SelectAll p) d Q.
Proof. intros He Hf. apply db_Find; [done|]. by rewrite filter_visible. Qed.
Lemma db_SelectCount p d (Q : org -> res Z -> Prop) : (forall e, Q d (Err e)) -> Q d (Ok (Z.of_nat (length (List.filter p (here d))))) ->
  db_spec (X := X) (SelectCount p) d Q.
Proof. intros He Hf. apply db_Count; [done|]. by rewrite filter_visible. Qed.
Lemma db_Insert row d (Q : org -> res Row -> Prop) : (forall e, Q d (Err e)) ->
  (forall id now, let r := with_base (mkBase (Z.pos id) now now None) row in
     existsb (clash TableName r) (rows TableName d) = false -> Q (put_rows TableName (rows TableName d ++ [r]) d) (Ok r)) ->
  db_spec (X := X) (Insert row) d Q.
Proof. intros He Hf. apply db_bind, db_next_serial. intros id. apply db_Create; [done|]. intros now. apply Hf. Qed.
Lemma db_UpdateWhere p change d (Q : org -> res Z -> Prop) : (forall e, Q d (Err e)) ->
  (forall now n, let new := changed (visible p) (fun r => updated now (change r)) (rows TableName d) in
     clash_free (clash TableName) new = true -> Q (put_rows TableName new d) (Ok n)) ->
  db_spec (X := X) (UpdateWhere p change) d Q.
Proof. intros He Hf. apply db_Updates; [done|]. intros now. apply Hf. Qed.
Lemma db_DeleteWhere p d (Q : org -> res Z -> Prop) : (forall e, Q d (Err e)) ->
  (forall now n, let new := changed (visible p) (removed now) (rows TableName d) in
     clash_free (clash TableName) new = true -> Q (put_rows TableName new d) (Ok n)) ->
  db_spec (X := X) (DeleteWhere p) d Q.
Proof. intros He Hf. apply db_Updates; [done|]. intros now. apply Hf. Qed.

Lemma c_SelectFirst p d (Q : org -> Row -> Prop) : (forall r, r ∈ here d -> p r = true -> Q d r) -> commit_spec (X := X) (SelectFirst p) d Q.
Proof. intros HQ. by apply db_SelectFirst. Qed.
Lemma c_SelectAll p d (Q : org -> list Row -> Prop) : Q d (List.filter p (here d)) -> commit_spec (X := X) (SelectAll p) d Q.
Proof. intros HQ. by apply db_SelectAll. Qed.
Lemma c_UpdateWhere p change d (Q : org -> Z -> Prop) :
  (forall now n, let new := changed (visible p) (fun r => updated now (change r)) (rows TableName d) in
     clash_free (clash TableName) new = true -> Q (put_rows TableName new d) n) ->
  commit_spec (X := X) (UpdateWhere p change) d Q.
Proof. intros HQ. by apply db_UpdateWhere. Qed.
Lemma c_DeleteWhere p d (Q : org -> Z -> Prop) :
  (forall now n, let new := changed (visible p) (removed now) (rows TableName d) in
     clash_free (clash TableName) new = true -> Q (put_rows TableName new d) n) ->
  commit_spec (X := X) (DeleteWhere p) d Q.
Proof. intros HQ. by apply db_DeleteWhere. Qed.
Lemma c_Insert row d (Q : org -> Row -> Prop) :
  (forall id now, let r := with_base (mkBase (Z.pos id) now now None) row in
     existsb (clash TableName r) (rows TableName d) = false -> Q (put_rows TableName (rows TableName d ++ [r]) d) r) ->
  commit_spec (X := X) (Insert row) d Q.
Proof. intros HQ. by apply db_Insert. Qed.

Lemma reads_SelectFirst p : reads (X := X) (SelectFirst p).
Proof. apply reads_First. Qed.
Lemma reads_SelectAll p : reads (X := X) (SelectAll p).
Proof. apply reads_Find. Qed.
Lemma reads_SelectCount p : reads (X := X) (SelectCount p).
Proof. apply reads_Count. Qed.
Lemma reads_preload ids : reads (X := X) (preload ids).
Proof. unfold preload. destruct ids; [apply reads_ret|]. apply reads_bind; [apply reads_SelectAll|]. intros rs. apply reads_ret. Qed.
Lemma reads_GetByID id : reads (X := X) (GetByID id).
Proof. apply reads_SelectFirst. Qed.
Lemma reads_ListPage f : reads (X := X) (ListPage f).
Proof.
  apply reads_bind; [apply reads_SelectCount|]. intros n. apply reads_bind; [apply reads_SelectAll|]. intros rs. apply reads_ret.
Qed.

Lemma in_ids_elem ids z : in_ids ids z = true <-> z ∈ ids.
Proof.
  unfold in_ids. rewrite existsb_exists. setoid_rewrite <- list_elem_of_In. split.
  - by intros (y & Hy & ->%Z.eqb_eq).
  - intros Hz. exists z. by rewrite Z.eqb_refl.
Qed.
End rules.

#[global] Arguments here : simpl never.
#[export] Hint Resolve reads_SelectFirst reads_SelectAll reads_SelectCount reads_preload reads_GetByID reads_ListPage : reads.
