(* ===== verification/Modules.v ===== *)
(** * The module service

    apiserver/pkg/service/module.go and the hook of model/module.go: the tree of modules.
    The recursions of the source ([rewriteChildPaths], [deleteChildrenTx], the loop of
    [descendantModuleIDs]) have as fuel the number of levels a tree may have; one that
    runs out of it panics, so that a specification, which excludes panics, shows that
    the code ends.  [buildTree] has as fuel the number of modules. *)

From S2P Require Import Prelude GoRuntime Wp Store StoreLogic Errors Service Org.

Definition MaxModuleLevel : Z := 5.
Definition module_fuel : nat := Z.to_nat MaxModuleLevel.

Definition parent_is (p : Z) (m : Module_) : bool := match m_ParentID m with Some q => q =? p | None => false end.
Definition parent_in (ps : list Z) (m : Module_) : bool := match m_ParentID m with Some q => in_ids ps q | None => false end.
Definition public_is (id : string) (m : Module_) : bool := String.eqb (m_PublicID m) id.

(** ** Trees *)

(** A module with its parent's public identifier, where it is loaded, and its children. *)
#[warnings="-register-all"] Inductive tree := Node (m : Module_) (parent : option string) (children : list tree).

Section build.
Context `{GoRuntime}.

Definition sort_less (m n : Module_) : bool := m_Sort m <? m_Sort n.
(** moduleMap[parent.ID] *)
Definition children_of (modules : list Module_) (m : Module_) : list Module_ :=
  List.filter (parent_is (ID (m_Base m))) modules.

Fixpoint buildChildren (fuel : nat) (modules : list Module_) (parent : option string) (m : Module_) : tree :=
  match fuel with
  | O => Node m parent []
  | S fuel => Node m parent (buildChildren fuel modules (Some (m_PublicID m)) <$> go_sort sort_less (children_of modules m))
  end.

Definition is_root (m : Module_) : bool := match m_ParentID m with None => true | Some _ => false end.
Definition buildTree (modules : list Module_) : list tree :=
  buildChildren (length modules) modules None <$> go_sort sort_less (List.filter is_root modules).
End build.

Section service.
Context {X : Type} `{Ambient}.

Abbreviation step := (action (dbstore org X)).
Abbreviation svc := (svc org X).

(** ** Statements over the tree *)

Fixpoint descendant_loop (fuel : nat) (ids frontier : list Z) : step (list Z) :=
  match frontier with
  | [] => mret ids
  | _ =>
      match fuel with
      | O => panic
      | S fuel =>
          children ← SelectAll (parent_in frontier);
          let frontier := (fun c => ID (m_Base c)) <$> children in
          descendant_loop fuel (ids ++ frontier) frontier
      end
  end.
Definition descendantModuleIDs (root : Z) : step (list Z) := descendant_loop module_fuel [root] [root].

Fixpoint for_each {A} (body : A -> step ()) (l : list A) : step () :=
  match l with [] => mret tt | a :: l => _ ← body a; for_each body l end.

Definition set_path (path : string) (m : Module_) : Module_ :=
  mkModule (m_Base m) (m_PublicID m) (m_Name m) (m_ParentID m) (m_Level m) (m_Sort m) path.
Definition set_name_sort (name : string) (sort : Z) (m : Module_) : Module_ :=
  mkModule (m_Base m) (m_PublicID m) (if String.eqb name "" then m_Name m else name) (m_ParentID m) (m_Level m) sort (m_Path m).

Fixpoint rewriteChildPaths (fuel : nat) (parentID : Z) (parentPath : string) : step () :=
  match fuel with
  | O => panic
  | S fuel =>
      children ← SelectAll (parent_is parentID);
      for_each (fun c =>
        let path := parentPath +:+ "/" +:+ m_Name c in
        _ ← UpdateWhere (has_id (ID (m_Base c))) (set_path path);
        rewriteChildPaths fuel (ID (m_Base c)) path) children
  end.

Fixpoint deleteChildrenTx (fuel : nat) (parentID : Z) : step () :=
  match fuel with
  | O => panic
  | S fuel =>
      children ← SelectAll (parent_is parentID);
      for_each (fun c : Module_ =>
        _ ← deleteChildrenTx fuel (ID (m_Base c));
        _ ← DeleteWhere (has_id (Row := Module_) (ID (m_Base c))); mret tt) children
  end.

(** ** model/module.go *)

Definition BeforeCreate (m : Module_) : step Module_ :=
  public ← (if String.eqb (m_PublicID m) "" then newPublicID "module" else mret (m_PublicID m));
  match m_ParentID m with
  | Some p =>
      parent ← wrap_error "parent module not found: " (SelectFirst (Row := Module_) (has_id p));
      let level := m_Level parent + 1 in
      if MaxModuleLevel <? level then fail "module level cannot exceed 5"
      else mret (mkModule (m_Base m) public (m_Name m) (m_ParentID m) level (m_Sort m) (m_Path parent +:+ "/" +:+ m_Name m))
  | None => mret (mkModule (m_Base m) public (m_Name m) None 1 (m_Sort m) ("/" +:+ m_Name m))
  end.

Definition no_base : Base := mkBase 0 0 0 None.

(** gorm runs the hook and the insertion in one transaction. *)
Definition create_tx (name : string) (parentID : option Z) (sort : Z) : step Module_ :=
  m ← BeforeCreate (mkModule no_base "" name parentID 0 sort "");
  Insert m.

(** ** service/module.go *)

Definition module_not_found (err : string) : error := New CodeModuleNotFound "".

Definition GetByPublicID (id : string) : svc (Module_ * option Module_) :=
  orElse (m ← SelectFirst (public_is id);
          parents ← preload (option_list (m_ParentID m));
          mret (m, m_ParentID m ≫= parents)) module_not_found.

Definition List_ `{GoRuntime} : svc (list tree) :=
  modules ← orElse (SelectAll (fun _ : Module_ => true)) Internal;
  mret (buildTree modules).

(** The root of a scope has no parent to be shown. *)
Definition as_root (root : Z) (m : Module_) : Module_ :=
  if ID (m_Base m) =? root
  then mkModule (m_Base m) (m_PublicID m) (m_Name m) None (m_Level m) (m_Sort m) (m_Path m) else m.

Definition ListScoped `{GoRuntime} (rootPublicID : string) : svc (list tree) :=
  r ← GetByPublicID rootPublicID;
  let root := ID (m_Base r.1) in
  ids ← orElse (descendantModuleIDs root) Internal;
  modules ← orElse (SelectAll (fun m : Module_ => in_ids ids (ID (m_Base m)))) Internal;
  mret (buildTree (as_root root <$> modules)).

Definition CanAccess (rootPublicID targetPublicID : string) : svc bool :=
  root ← GetByPublicID rootPublicID;
  target ← GetByPublicID targetPublicID;
  ids ← orElse (descendantModuleIDs (ID (m_Base root.1))) Plain;
  mret (in_ids ids (ID (m_Base target.1))).

Definition GetByID (id : Z) : svc Module_ :=
  orElse (GetByID id) (fun e => if String.eqb e ErrRecordNotFound then New CodeModuleNotFound "" else Internal e).

Definition GetChildren (id : Z) : svc (list Module_) :=
  _ ← GetByID id;
  orElse (SelectAll (parent_is id)) Internal.

(** The children with the public identifier of their parent. *)
Definition GetChildrenByPublicID (id : string) : svc (list tree) :=
  m ← GetByPublicID id;
  children ← GetChildren (ID (m_Base m.1));
  mret ((fun c => Node c (Some (m_PublicID m.1)) []) <$> children).

Definition Create (name : string) (parentID : option Z) (sort : Z) : svc Module_ :=
  _ ← match parentID with
      | Some p =>
          parent ← orElse (Org.GetByID p) (fun _ => New CodeModuleNotFound "parent module not found");
          if MaxModuleLevel <=? m_Level parent then throw (New CodeBadRequest "parent module already at max level") else mret tt
      | None => mret tt
      end;
  m ← orElse (transaction (create_tx name parentID sort)) Internal;
  orElse (Org.GetByID (ID (m_Base m))) Plain.

Definition CreateWithParentPublicID (name : string) (parentID : option string) (sort : Z) : svc (Module_ * option Module_) :=
  internal ← match parentID with
             | Some p => m ← GetByPublicID p; mret (Some (ID (m_Base m.1)))
             | None => mret None
             end;
  created ← Create name internal sort;
  GetByPublicID (m_PublicID created).

(** The transaction of an update; [module] is the row as it was read before. *)
Definition update_tx (module : Module_) (id : Z) (name : string) (sort : Z) : step () :=
  let renamed := negb (String.eqb name "") && negb (String.eqb name (m_Name module)) in
  _ ← UpdateWhere (has_id id) (set_name_sort name sort);
  if negb renamed then mret tt
  else
    newPath ← match m_ParentID module with
              | None => mret ("/" +:+ name)
              | Some p => parent ← SelectFirst (Row := Module_) (has_id p); mret (m_Path parent +:+ "/" +:+ name)
              end;
    _ ← UpdateWhere (has_id id) (set_path newPath);
    rewriteChildPaths module_fuel id newPath.

Definition Update (id : Z) (name : string) (sort : Z) : svc Module_ :=
  module ← orElse (Org.GetByID id) module_not_found;
  _ ← orElse (transaction (update_tx module id name sort)) Internal;
  orElse (Org.GetByID id) Plain.

Definition UpdateByPublicID (id name : string) (sort : Z) : svc (Module_ * option Module_) :=
  m ← GetByPublicID id;
  _ ← Update (ID (m_Base m.1)) name sort;
  GetByPublicID id.

Definition user_of_module (ids : list Z) (u : User) : bool := match u_ModuleID u with Some m => in_ids ids m | None => false end.
Definition project_of_module (ids : list Z) (p : Project) : bool := in_ids ids (p_ModuleID p).

(** What [Delete] looks at before its transaction. *)
Definition delete_check (id : Z) : svc () :=
  _ ← orElse (Org.GetByID (Row := Module_) id) module_not_found;
  ids ← orElse (descendantModuleIDs id) Internal;
  references ← orElse (SelectCount (project_of_module ids)) Internal;
  userReferences ← orElse (SelectCount (user_of_module ids)) Internal;
  if 0 <? references + userReferences then throw (New CodeConflict "module or descendants are still referenced") else mret tt.

Definition delete_tx (id : Z) : step () :=
  _ ← deleteChildrenTx module_fuel id;
  _ ← DeleteWhere (has_id (Row := Module_) id); mret tt.

Definition Delete (id : Z) : svc () :=
  _ ← delete_check id;
  orElse (transaction (delete_tx id)) Plain.

Definition DeleteByPublicID (id : string) : svc () :=
  m ← GetByPublicID id;
  Delete (ID (m_Base m.1)).
End service.
