(* ===== verification/ModuleTree.v ===== *)
(** * The tree of modules

    [tree_ok]: the modules that are not deleted form a forest of at most five levels,
    each with the level below its parent's.  The transactions of the service keep it,
    whatever they were computed from, so that it holds in every interleaving of them;
    and the recursions of the service end on it. *)

From S2P Require Import Prelude GoRuntime Wp Store StoreLogic Errors Service Org OrgLogic Modules.

Abbreviation mods := (here (Row := Module_)).
Abbreviation mid m := (ID (m_Base m)).

Record tree_ok (d : org) : Prop := {
  tree_index : clash_free (clash (TableName (Row := Module_))) (modules d) = true;
  tree_root : forall m, m ∈ mods d -> m_ParentID m = None -> m_Level m = 1;
  tree_parent : forall m p, m ∈ mods d -> m_ParentID m = Some p -> exists q, q ∈ mods d /\ mid q = p /\ m_Level m = m_Level q + 1;
  tree_level : forall m, m ∈ mods d -> 1 <= m_Level m <= MaxModuleLevel;
}.

(** The modules strictly below some of [F]. *)
Inductive under (d : org) (F : list Z) (m : Module_) : Prop :=
  | under_child p : m ∈ mods d -> m_ParentID m = Some p -> p ∈ F -> under d F m
  | under_step q : m ∈ mods d -> under d F q -> m_ParentID m = Some (mid q) -> under d F m.

Section tree.
Context {X : Type} `{Ambient}.
Implicit Types (d : org) (m q : Module_) (F : list Z).

Lemma modules_clash_sym m q : clash TableName m q = clash TableName q m.
Proof. cbn. unfold same_id. by rewrite Z.eqb_sym, String.eqb_sym. Qed.

Lemma modules_unique d m q : tree_ok d -> m ∈ modules d -> q ∈ modules d -> mid m = mid q -> m = q.
Proof.
  intros Hd Hm Hq E. apply (clash_free_unique _ _ _ _ modules_clash_sym (tree_index _ Hd) Hm Hq).
  cbn. unfold same_id. by rewrite E, Z.eqb_refl.
Qed.
Lemma mods_unique d m q : tree_ok d -> m ∈ mods d -> q ∈ mods d -> mid m = mid q -> m = q.
Proof. intros Hd [Hm _]%here_elem [Hq _]%here_elem. by apply modules_unique with d. Qed.

(** The tree depends on the modules only. *)
Lemma mods_same d d' : modules d' = modules d -> mods d' = mods d.
Proof. intros E. unfold here. cbn. by rewrite E. Qed.
Lemma tree_modules d d' : tree_ok d -> modules d' = modules d -> tree_ok d'.
Proof. intros [Hi Hr Hp Hl] E. split; rewrite ?(mods_same _ _ E); [by rewrite E|done..]. Qed.

Lemma parent_is_eq p m : parent_is p m = true <-> m_ParentID m = Some p.
Proof. unfold parent_is. destruct (m_ParentID m); rewrite ?Z.eqb_eq; naive_solver. Qed.
Lemma parent_in_eq F m : parent_in F m = true <-> exists p, m_ParentID m = Some p /\ p ∈ F.
Proof. unfold parent_in. destruct (m_ParentID m); rewrite ?in_ids_elem; naive_solver. Qed.

Lemma under_mods d F m : under d F m -> m ∈ mods d.
Proof. by destruct 1. Qed.
Lemma under_mono d F G m : (forall z, z ∈ F -> z ∈ G) -> under d F m -> under d G m.
Proof. intros HF Hm. induction Hm; [eapply under_child; eauto|eapply under_step; eauto]. Qed.

(** The children of [F], and what is below them. *)
Definition kids d F : list Module_ := List.filter (parent_in F) (mods d).
Lemma kids_elem d F m : m ∈ kids d F <-> m ∈ mods d /\ exists p, m_ParentID m = Some p /\ p ∈ F.
Proof. unfold kids. by rewrite filter_bool_elem, parent_in_eq. Qed.
Lemma under_kids d F m : under d F m <-> m ∈ kids d F \/ under d ((fun c => mid c) <$> kids d F) m.
Proof.
  split.
  - induction 1 as [m p Hm Hp HF|m q Hm Hq IH Hp].
    + left. apply kids_elem. eauto.
    + right. destruct IH as [Hk|Hu]; [|by eapply under_step].
      eapply under_child; [done..|]. by apply (list_elem_of_fmap_2 (fun c => mid c)).
  - intros [Hm|Hm].
    + apply kids_elem in Hm as (Hm & p & Hp & HF). by eapply under_child.
    + induction Hm as [m p Hm Hp HF|m q Hm Hq IH Hp]; [|by eapply under_step].
      apply list_elem_of_fmap in HF as (c & -> & Hc). apply kids_elem in Hc as (Hc & p & Hp' & HF).
      eapply under_step; [done| |done]. by eapply under_child.
Qed.

(** The level of a child. *)
Lemma child_level d m q : tree_ok d -> m ∈ mods d -> q ∈ mods d -> m_ParentID m = Some (mid q) -> m_Level m = m_Level q + 1.
Proof.
  intros Hd Hm Hq Hp. destruct (tree_parent _ Hd _ _ Hm Hp) as (q' & Hq' & E & ->).
  by rewrite (mods_unique _ _ _ Hd Hq' Hq E).
Qed.
Lemma under_level d r m : tree_ok d -> r ∈ mods d -> under d [mid r] m -> m_Level r < m_Level m.
Proof.
  intros Hd Hr Hm. induction Hm as [m p Hm Hp HF|m q Hm Hq IH Hp].
  - apply list_elem_of_singleton in HF as ->. rewrite (child_level d m r); [lia|done..].
  - rewrite (child_level d m q); [lia|done..|by apply under_mods in Hq|done].
Qed.

(** ** descendantModuleIDs *)

Lemma descendant_loop_spec d fuel ids F k : tree_ok d ->
  (forall m p, m ∈ mods d -> m_ParentID m = Some p -> p ∈ F -> m_Level m = k + 1) -> (F <> [] -> k <= MaxModuleLevel) ->
  MaxModuleLevel < k + Z.of_nat fuel ->
  db_spec (X := X) (descendant_loop fuel ids F) d (fun d' r => d' = d /\
    match r with
    | Ok out => exists more, out = ids ++ more /\ forall z, z ∈ more <-> exists m, under d F m /\ mid m = z
    | Err _ => True
    end).
Proof.
  intros Hd. revert ids F k; induction fuel as [|fuel IH]; intros ids F k Hk HF Hf; (destruct F as [|z0 F']; cbn [descendant_loop]).
  1, 3: apply db_ret; split; [done|]; exists []; rewrite app_nil_r; split; [done|]; intros z; split; [by intros ?%elem_of_nil|];
    intros (m & Hm & _); exfalso; clear -Hm; induction Hm; [by eapply not_elem_of_nil|done].
  1: specialize (HF ltac:(done)); lia.
  set (F := z0 :: F') in *. fold (kids d F). apply db_bind, db_SelectAll; [done|]. fold (kids d F).
  eapply db_mono.
  { apply (IH _ _ (k + 1)); [| |lia].
    - intros m p Hm Hp Hc. apply list_elem_of_fmap in Hc as (c & -> & Hc). apply kids_elem in Hc as (Hc & p & Hp' & HpF).
      by rewrite (child_level d m c), (Hk c p).
    - intros Hne. destruct (kids d F) as [|c l] eqn:E; [done|]. assert (c ∈ kids d F) as Hc by (rewrite E; left).
      apply kids_elem in Hc as (Hc & p & Hp & HpF). rewrite <- (Hk c p) by done. by apply (tree_level _ Hd). }
  intros d' r [-> Hr]. split; [done|]. destruct r as [out|]; [|done]. destruct Hr as (more & -> & Hmore).
  eexists. rewrite <- app_assoc. split; [reflexivity|]. intros z. rewrite elem_of_app, Hmore, list_elem_of_fmap. split.
  - intros [(c & -> & Hc)|(m & Hm & <-)]; eexists; (split; [apply under_kids; eauto|done]).
  - intros (m & [Hc|Hm]%under_kids & <-); eauto.
Qed.

Lemma descendants_spec d root : tree_ok d ->
  db_spec (X := X) (descendantModuleIDs root) d (fun d' r => d' = d /\
    match r with Ok ids => forall z, z ∈ ids <-> z = root \/ exists m, under d [root] m /\ mid m = z | Err _ => True end).
Proof.
  intros Hd. eapply db_mono.
  { apply (descendant_loop_spec d _ _ _ (match List.find (has_id root) (mods d) with Some r => m_Level r | None => 1 end) Hd).
    - intros m p Hm Hp ->%list_elem_of_singleton. destruct (tree_parent _ Hd _ _ Hm Hp) as (q & Hq & <- & ->). f_equal.
      destruct (List.find _ _) as [r|] eqn:E.
      + apply find_some in E as [Hr Hid]. apply Z.eqb_eq in Hid. rewrite <- list_elem_of_In in Hr. by rewrite (mods_unique d r q).
      + rewrite list_elem_of_In in Hq. pose proof (find_none _ _ E _ Hq) as Hn. cbn in Hn. unfold has_id in Hn. cbn in Hn. by rewrite Z.eqb_refl in Hn.
    - intros _. destruct (List.find _ _) as [r|] eqn:E; [|done]. apply find_some in E as [Hr _]. rewrite <- list_elem_of_In in Hr.
      by apply (tree_level _ Hd).
    - destruct (List.find _ _) as [r|] eqn:E; [|done]. apply find_some in E as [Hr _]. rewrite <- list_elem_of_In in Hr.
      pose proof (tree_level _ Hd _ Hr). unfold module_fuel, MaxModuleLevel in *. lia. }
  intros d' r [-> Hr]. split; [done|]. destruct r as [ids|]; [|done]. destruct Hr as (more & -> & Hmore). intros z.
  rewrite elem_of_app, list_elem_of_singleton, Hmore. done.
Qed.
(** ** Changes of the tables *)

(** The tables but for the modules. *)
Definition rest d := (projects d, users d, roles d, permissions d, resources d).

(** What the tree depends on. *)
Definition same_place m m' : Prop :=
  mid m' = mid m /\ live m' = live m /\ m_ParentID m' = m_ParentID m /\ m_Level m' = m_Level m.

Lemma mods_map (f : Module_ -> Module_) d : (forall m, m ∈ modules d -> same_place m (f m)) ->
  mods (put_rows TableName (f <$> modules d) d) = f <$> mods d.
Proof.
  unfold here. cbn. induction (modules d) as [|m l IH]; intros Hf; [done|]. cbn.
  destruct (Hf m ltac:(by left)) as (_ & -> & _). assert (forall m, m ∈ l -> same_place m (f m)) as Hl by (intros; apply Hf; by right).
  destruct (live m); rewrite (IH Hl); done.
Qed.

Lemma tree_map (f : Module_ -> Module_) d : tree_ok d -> (forall m, m ∈ modules d -> same_place m (f m)) ->
  clash_free (clash TableName) (f <$> modules d) = true -> tree_ok (put_rows TableName (f <$> modules d) d).
Proof.
  intros Hd Hf' Hc. assert (forall m, m ∈ mods d -> same_place m (f m)) as Hf by (intros m [Hm _]%here_elem; auto).
  split; [exact Hc|..]; rewrite (mods_map f d Hf').
  - intros m' (m & -> & Hm)%list_elem_of_fmap. destruct (Hf m Hm) as (_ & _ & -> & ->). by apply (tree_root _ Hd).
  - intros m' p (m & -> & Hm)%list_elem_of_fmap. destruct (Hf m Hm) as (_ & _ & -> & ->). intros Hp.
    destruct (tree_parent _ Hd _ _ Hm Hp) as (q & Hq & <- & ->). exists (f q). destruct (Hf q Hq) as (-> & _ & _ & ->).
    split; [by apply list_elem_of_fmap_2|done].
  - intros m' (m & -> & Hm)%list_elem_of_fmap. destruct (Hf m Hm) as (_ & _ & _ & ->). by apply (tree_level _ Hd).
Qed.

Lemma mods_insert d row : live row = true -> mods (put_rows TableName (modules d ++ [row]) d) = mods d ++ [row].
Proof. intros Hl. unfold here. cbn. rewrite List.filter_app. cbn. by rewrite Hl. Qed.

Lemma tree_insert d row : tree_ok d -> live row = true -> existsb (clash TableName row) (modules d) = false ->
  1 <= m_Level row <= MaxModuleLevel ->
  match m_ParentID row with
  | None => m_Level row = 1
  | Some p => exists q, q ∈ mods d /\ mid q = p /\ m_Level row = m_Level q + 1
  end -> tree_ok (put_rows TableName (modules d ++ [row]) d).
Proof.
  intros Hd Hl Hc Hlevel Hp. split; rewrite ?(mods_insert _ _ Hl).
  - apply clash_free_app; [apply modules_clash_sym|apply Hd|done].
  - intros m [Hm| ->%list_elem_of_singleton]%elem_of_app Hn; [by apply (tree_root _ Hd)|]. by rewrite Hn in Hp.
  - intros m p [Hm| ->%list_elem_of_singleton]%elem_of_app Hn.
    + destruct (tree_parent _ Hd _ _ Hm Hn) as (q & Hq & ?). exists q. rewrite elem_of_app. auto.
    + rewrite Hn in Hp. destruct Hp as (q & Hq & ?). exists q. rewrite elem_of_app. auto.
  - intros m [Hm| ->%list_elem_of_singleton]%elem_of_app; [by apply (tree_level _ Hd)|done].
Qed.

(** The deletion of one row. *)
Definition without (now id : Z) d : org := put_rows TableName (changed (visible (has_id id)) (removed now) (modules d)) d.

Lemma mods_without now id d m : m ∈ mods (without now id d) <-> m ∈ mods d /\ mid m <> id.
Proof.
  rewrite !here_elem. cbn. rewrite changed_elem. split.
  - intros [(r & Hr & ->) Hl]. unfold visible, has_id in *. destruct (live r) eqn:E; cbn in *.
    + destruct (ID (m_Base r) =? id) eqn:E'; cbn in *; [done|]. apply Z.eqb_neq in E'. auto.
    + congruence.
  - intros [[Hm Hl] Hid]. split; [|done]. exists m. split; [done|]. unfold visible, has_id. rewrite Hl. cbn.
    by rewrite (proj2 (Z.eqb_neq _ _) Hid).
Qed.

Lemma tree_without now id d : tree_ok d -> clash_free (clash TableName) (modules (without now id d)) = true ->
  (forall m, m ∈ mods d -> m_ParentID m <> Some id) -> tree_ok (without now id d).
Proof.
  intros Hd Hc Hno. split; [exact Hc|..].
  - intros m [Hm _]%mods_without. by apply (tree_root _ Hd).
  - intros m p [Hm Hid]%mods_without Hp. destruct (tree_parent _ Hd _ _ Hm Hp) as (q & Hq & <- & Hl).
    exists q. split; [|done]. apply mods_without. split; [done|]. intros E. apply (Hno m Hm). by rewrite Hp, E.
  - intros m [Hm _]%mods_without. by apply (tree_level _ Hd).
Qed.

(** ** Deletion *)

(** Only modules of which [gone] holds are no longer there. *)
Definition pruned d d' (gone : Module_ -> Prop) : Prop :=
  rest d' = rest d /\ (forall m, m ∈ mods d' -> m ∈ mods d) /\ forall m, m ∈ mods d -> m ∈ mods d' \/ gone m.

Lemma pruned_refl d gone : pruned d d gone.
Proof. repeat split; auto. Qed.
Lemma pruned_trans d1 d2 d3 (gone gone' : Module_ -> Prop) : pruned d1 d2 gone -> pruned d2 d3 gone' -> (forall m, gone' m -> gone m) ->
  pruned d1 d3 gone.
Proof.
  intros (Hr & Hs & Hk) (Hr' & Hs' & Hk') Hg. split; [by rewrite Hr'|]. split; [auto|].
  intros m [Hm|Hm]%Hk; [|by right]. destruct (Hk' _ Hm) as [?|?]; auto.
Qed.
Lemma under_sub d d' F m : (forall m, m ∈ mods d' -> m ∈ mods d) -> under d' F m -> under d F m.
Proof. intros Hs Hm. induction Hm; [eapply under_child; eauto|eapply under_step; eauto]. Qed.
Lemma under_trans d p c m : c ∈ mods d -> m_ParentID c = Some p -> under d [mid c] m -> under d [p] m.
Proof.
  intros Hc Hp Hm. induction Hm as [m z Hm Hz ->%list_elem_of_singleton|m q Hm Hq IH Hz]; [|by eapply under_step].
  eapply under_step; [done| |done]. eapply under_child; [done..|by left].
Qed.

Lemma deleteChildrenTx_commits n p d : tree_ok d -> n <> O ->
  (forall m, m ∈ mods d -> m_ParentID m = Some p -> MaxModuleLevel + 2 <= m_Level m + Z.of_nat n) ->
  commit_spec (X := X) (deleteChildrenTx n p) d (fun d' _ => tree_ok d' /\
    (forall m, m ∈ mods d' -> m_ParentID m <> Some p) /\ pruned d d' (under d [p])).
Proof.
  revert p d; induction n as [|n IH]; intros p d Hd Hn Hlevel; [done|]. cbn [deleteChildrenTx].
  apply c_bind, c_SelectAll. set (cs := List.filter (parent_is p) (mods d)).
  assert (forall c, c ∈ cs -> c ∈ mods d /\ m_ParentID c = Some p) as Hcs.
  { intros c [Hc Hp%parent_is_eq]%filter_bool_elem. auto. }
  enough (forall l di, (forall c, c ∈ l -> c ∈ cs) -> tree_ok di -> pruned d di (under d [p]) ->
    (forall m, m ∈ mods di -> m_ParentID m = Some p -> m ∈ l) ->
    commit_spec (X := X) (for_each (fun c : Module_ => _ ← deleteChildrenTx n (mid c);
       _ ← DeleteWhere (has_id (Row := Module_) (mid c)); mret tt) l) di (fun d' _ => tree_ok d' /\
      (forall m, m ∈ mods d' -> m_ParentID m <> Some p) /\ pruned d d' (under d [p]))) as Hloop.
  { apply Hloop; [done|done|apply pruned_refl|]. intros m Hm Hp. apply filter_bool_elem. by rewrite parent_is_eq. }
  induction l as [|c l IHl]; intros di Hl Hdi Hpr Hrest; cbn [for_each].
  - apply c_ret. split; [done|]. split; [|done]. intros m Hm Hp. by apply (not_elem_of_nil m), Hrest.
  - destruct (Hcs c) as [Hc Hcp]; [apply Hl; by left|]. pose proof (Hlevel c Hc Hcp) as Hcl. pose proof (tree_level _ Hd _ Hc).
    apply c_bind, c_bind. eapply c_mono.
    { apply IH; [done|lia|]. intros m Hm Hp. apply Hpr in Hm. rewrite (child_level d m c) by done. lia. }
    intros d1 _ (Hd1 & Hno & Hpr1). apply c_bind, c_DeleteWhere. intros now k new Hnew. apply c_ret.
    change (put_rows TableName new d1) with (without now (mid c) d1).
    assert (pruned d d1 (under d [p])) as Hpr'.
    { eapply pruned_trans; [exact Hpr|exact Hpr1|]. intros m Hm. eapply under_trans; [done..|]. eapply under_sub; [apply Hpr|done]. }
    assert (pruned d1 (without now (mid c) d1) (fun m => m = c)) as Hpr2.
    { split; [done|]. split; [by intros m [? _]%mods_without|]. intros m Hm. destruct (decide (mid m = mid c)) as [E|E].
      - right. apply (mods_unique d); [done| |done..]. by apply Hpr'.
      - left. by apply mods_without. }
    apply IHl.
    + intros c' Hc'. apply Hl. by right.
    + apply tree_without; [done|exact Hnew|exact Hno].
    + eapply pruned_trans; [exact Hpr'|exact Hpr2|]. intros m ->. eapply under_child; [done..|by left].
    + intros m [Hm Hid]%mods_without Hp. apply Hpr1 in Hm. apply Hrest in Hm; [|done].
      apply elem_of_cons in Hm as [->|Hm]; [done|exact Hm].
Qed.

Lemma delete_tx_commits id d : tree_ok d -> commit_spec (X := X) (delete_tx id) d (fun d' _ => tree_ok d' /\ rest d' = rest d /\
  forall m, m ∈ mods d' <-> m ∈ mods d /\ mid m <> id /\ ~ under d [id] m).
Proof.
  intros Hd. unfold delete_tx. apply c_bind. eapply c_mono.
  { apply deleteChildrenTx_commits; [done|by vm_compute|]. intros m Hm Hp.
    destruct (tree_parent _ Hd _ _ Hm Hp) as (q & Hq & _ & ->). pose proof (tree_level _ Hd _ Hq). unfold module_fuel, MaxModuleLevel in *. lia. }
  intros d1 _ (Hd1 & Hno & Hr & Hs & Hk). apply c_bind, c_DeleteWhere. intros now k new Hnew. apply c_ret.
  change (put_rows TableName new d1) with (without now id d1).
  assert (tree_ok (without now id d1)) as Hd2 by (apply tree_without; [done|exact Hnew|exact Hno]).
  split; [done|]. split; [done|]. intros m. split.
  - intros [Hm Hid]%mods_without. split; [auto|]. split; [done|]. intros Hu.
    enough (forall q, under d [id] q -> q ∉ mods d1) as Hgone by exact (Hgone _ Hu Hm). clear -Hno Hs Hd1 Hd.
    intros q Hq. induction Hq as [q z Hq Hz ->%list_elem_of_singleton|q r Hq Hr IH Hz]; intros Hq1; [by apply (Hno q)|].
    apply IH. destruct (tree_parent _ Hd1 _ _ Hq1 Hz) as (r' & Hr' & E & _).
    by rewrite <- (mods_unique d r' r Hd (Hs _ Hr') (under_mods _ _ _ Hr) E).
  - intros (Hm & Hid & Hu). apply mods_without. split; [|done]. by destruct (Hk _ Hm) as [?|?].
Qed.
End tree.
