(* ===== verification/ModulePaths.v ===== *)
(** * The paths of the modules

    The path of a module is its parent's path and its name ([paths_ok]).  The creation of
    a module computes it; [rewriteChildPaths] restores it below a module that got a new
    path. *)

From S2P Require Import Prelude GoRuntime Wp Store StoreLogic Errors Service Org OrgLogic Modules ModuleTree.

Definition path_ok (d : org) (m : Module_) : Prop :=
  match m_ParentID m with
  | None => m_Path m = "/" +:+ m_Name m
  | Some p => forall q, q ∈ mods d -> mid q = p -> m_Path m = m_Path q +:+ "/" +:+ m_Name m
  end.
Definition paths_ok (d : org) : Prop := forall m, m ∈ mods d -> path_ok d m.

(** Only paths have changed, and none at the level [k] or above. *)
Definition repathed (k : Z) (d d' : org) : Prop := exists f,
  d' = put_rows TableName (f <$> modules d) d /\
  forall m, m ∈ modules d -> same_place m (f m) /\ m_Name (f m) = m_Name m /\ (m_Level m <= k -> m_Path (f m) = m_Path m).

Section paths.
Context {X : Type} `{Ambient}.
Implicit Types (d : org) (m q c : Module_).

Lemma repathed_refl k d : repathed k d d.
Proof.
  exists id. rewrite list_fmap_id. split; [by destruct d|]. intros m Hm. repeat split.
Qed.
Lemma repathed_trans k d1 d2 d3 : repathed k d1 d2 -> repathed k d2 d3 -> repathed k d1 d3.
Proof.
  intros (f & -> & Hf) (g & -> & Hg). exists (g ∘ f). cbn in *. split; [by rewrite list_fmap_compose|]. intros m Hm.
  destruct (Hf m Hm) as ((E1 & E2 & E3 & E4) & En & Ep). destruct (Hg (f m)) as ((G1 & G2 & G3 & G4) & Gn & Gp);
    [by apply list_elem_of_fmap_2|]. cbn. split; [|split; [congruence|]].
  - split; [congruence|]. split; [congruence|]. split; congruence.
  - intros Hk. rewrite Gp by lia. by apply Ep.
Qed.
Lemma repathed_weaken k k' d d' : k' <= k -> repathed k d d' -> repathed k' d d'.
Proof.
  intros Hk (f & -> & Hf). exists f. split; [done|]. intros m Hm. destruct (Hf m Hm) as (? & ? & Hp). split; [done|]. split; [done|].
  intros. apply Hp. lia.
Qed.

(** The row that a row has become. *)
Lemma repathed_row k d d' m : tree_ok d -> repathed k d d' -> m ∈ mods d' ->
  exists m0, m0 ∈ mods d /\ same_place m0 m /\ m_Name m = m_Name m0 /\ (m_Level m0 <= k -> m_Path m = m_Path m0).
Proof.
  intros Hd (f & -> & Hf). rewrite mods_map by (intros n Hn; exact (proj1 (Hf n Hn))). intros (m0 & -> & Hm0)%list_elem_of_fmap.
  exists m0. split; [done|]. apply Hf. by apply here_elem in Hm0 as [? _].
Qed.
Lemma repathed_forth k d d' m : repathed k d d' -> m ∈ mods d ->
  exists m', m' ∈ mods d' /\ same_place m m' /\ m_Name m' = m_Name m /\ (m_Level m <= k -> m_Path m' = m_Path m).
Proof.
  intros (f & -> & Hf) Hm. exists (f m). split; [|apply Hf; by apply here_elem in Hm as [? _]].
  rewrite mods_map by (intros n Hn; exact (proj1 (Hf n Hn))). by apply list_elem_of_fmap_2.
Qed.

(** ** One row with a new path *)

Definition with_path (now id : Z) (path : string) d : org :=
  put_rows TableName (changed (visible (has_id id)) (fun r => updated now (set_path path r)) (modules d)) d.

Lemma with_path_rows now id path d m : tree_ok d -> m ∈ mods (with_path now id path d) ->
  (exists m0, m0 ∈ mods d /\ same_place m0 m /\ m_Name m = m_Name m0 /\ m_Path m = path /\ mid m = id) \/ (m ∈ mods d /\ mid m <> id).
Proof.
  intros Hd Hm. apply here_elem in Hm as [Hm Hl]. cbn in Hm. apply changed_elem in Hm as (r & Hr & ->).
  unfold visible, has_id in *. destruct (live r) eqn:E; cbn in *.
  - destruct (ID (m_Base r) =? id) eqn:E'; cbn in *.
    + left. exists r. apply Z.eqb_eq in E'. split; [by apply here_elem|]. repeat split. exact E'.
    + right. apply Z.eqb_neq in E'. split; [by apply here_elem|done].
  - congruence.
Qed.

Lemma with_path_repathed now id path d c : tree_ok d -> c ∈ mods d -> mid c = id ->
  repathed (m_Level c - 1) d (with_path now id path d).
Proof.
  intros Hd Hc Hid. eexists. split; [reflexivity|]. intros m Hm. cbn beta. unfold visible, has_id. cbn [base module_model].
  destruct (live m && (ID (m_Base m) =? id)) eqn:E; [|done]. apply andb_true_iff in E as [Hl E%Z.eqb_eq].
  repeat split. intros Hk. assert (m ∈ mods d) as Hm' by by apply here_elem.
  rewrite (mods_unique d m c Hd Hm' Hc) in Hk by congruence. lia.
Qed.

Lemma with_path_tree now id path d : tree_ok d -> clash_free (clash TableName) (modules (with_path now id path d)) = true ->
  tree_ok (with_path now id path d).
Proof.
  intros Hd Hc. apply tree_map; [done| |exact Hc]. intros m _. by destruct (visible (has_id id) m).
Qed.

Lemma with_path_forth now id path d m : tree_ok d -> m ∈ mods d -> exists m', m' ∈ mods (with_path now id path d) /\ mid m' = mid m.
Proof.
  intros Hd Hm. exists (if visible (has_id id) m then updated now (set_path path m) else m).
  split; [|by destruct (visible (has_id id) m)]. apply here_elem in Hm as [Hm Hl]. apply here_elem. split.
  - apply changed_elem. by exists m.
  - by destruct (visible (has_id id) m).
Qed.

(** ** rewriteChildPaths *)

(** The paths that may be wrong are those of [W], and of the children of [p]. *)
Definition wrong_only (W : list Z) (p : option Z) d : Prop :=
  forall m, m ∈ mods d -> (exists z, p = Some z /\ m_ParentID m = Some z) \/ mid m ∈ W \/ path_ok d m.

(** The path a row should get. *)
Definition good_path d c (path : string) : Prop :=
  match m_ParentID c with
  | None => path = "/" +:+ m_Name c
  | Some p => forall q, q ∈ mods d -> mid q = p -> mid q <> mid c /\ path = m_Path q +:+ "/" +:+ m_Name c
  end.

Lemma with_path_wrong now W l c c' path d : tree_ok d -> c' ∈ mods d -> mid c' = mid c -> good_path d c' path ->
  wrong_only (((fun m => mid m) <$> c :: l) ++ W) None d ->
  wrong_only (((fun m => mid m) <$> l) ++ W) (Some (mid c)) (with_path now (mid c) path d).
Proof.
  intros Hd Hc' Hid Hpath Hw m Hm. pose proof (with_path_rows _ _ _ _ _ Hd Hm) as [(m0 & Hm0 & (E1 & _ & E3 & _) & En & Ep & Em)|[Hm0 Hne]].
  - right. right. rewrite (mods_unique d m0 c') in * by congruence. unfold path_ok, good_path in *. rewrite E3, En, Ep.
    destruct (m_ParentID c') as [p|]; [|done]. intros q Hq Hqp.
    apply with_path_rows in Hq as [(q0 & Hq0 & (F1 & _) & _ & _ & Fm)|[Hq _]]; [|by apply Hpath|done].
    destruct (Hpath q0 Hq0) as [Hq0c _]; [congruence|]. congruence.
  - destruct (Hw _ Hm0) as [(z & [=] & _)|[[[E|Hin]%elem_of_cons|Hin]%elem_of_app|Hok]].
    + congruence.
    + right. left. apply elem_of_app. by left.
    + right. left. apply elem_of_app. by right.
    + destruct (m_ParentID m) as [z|] eqn:Ez; [destruct (decide (z = mid c)) as [->|Hz]|].
      * left. eauto.
      * right. right. unfold path_ok in *. rewrite Ez in *. intros q Hq Hqz.
        apply with_path_rows in Hq as [(q0 & _ & _ & _ & _ & Fm)|[Hq _]]; [congruence|by apply Hok|done].
      * right. right. unfold path_ok in *. by rewrite Ez in *.
Qed.
Lemma rewriteChildPaths_commits n p pp W k d : tree_ok d -> n <> O ->
  (forall m, m ∈ mods d -> m_ParentID m = Some p -> MaxModuleLevel + 2 <= m_Level m + Z.of_nat n) ->
  (forall q, q ∈ mods d -> mid q = p -> m_Path q = pp /\ m_Level q = k) -> wrong_only W (Some p) d ->
  commit_spec (X := X) (rewriteChildPaths n p pp) d (fun d' _ => tree_ok d' /\ repathed k d d' /\ wrong_only W None d').
Proof.
  revert p pp W k d; induction n as [|n IH]; intros p pp W k d Hd Hn Hlevel Hpp Hw; [done|]. cbn [rewriteChildPaths].
  apply c_bind, c_SelectAll. set (cs := List.filter (parent_is p) (mods d)).
  assert (forall c, c ∈ cs -> c ∈ mods d /\ m_ParentID c = Some p /\ m_Level c = k + 1) as Hcs.
  { intros c [Hc Hp%parent_is_eq]%filter_bool_elem. destruct (tree_parent _ Hd _ _ Hc Hp) as (q & Hq & Hqp & ->).
    by destruct (Hpp q Hq Hqp) as [_ ->]. }
  match goal with |- commit_spec (for_each ?b _) _ _ => set (body := b) end.
  enough (forall l di, (forall c, c ∈ l -> c ∈ cs) -> tree_ok di -> repathed k d di ->
    wrong_only (((fun m => mid m) <$> l) ++ W) None di ->
    commit_spec (X := X) (for_each body l) di (fun d' _ => tree_ok d' /\ repathed k d d' /\ wrong_only W None d')) as Hloop.
  { apply Hloop; [done|done|apply repathed_refl|]. intros m Hm. destruct (Hw m Hm) as [(z & [= <-] & Hz)|[Hin|Hok]].
    - right. left. apply elem_of_app. left. apply (list_elem_of_fmap_2 (fun m => mid m)), filter_bool_elem. by rewrite parent_is_eq.
    - right. left. apply elem_of_app. by right.
    - by right; right. }
  induction l as [|c l IHl]; intros di Hl Hdi Hr Hwi; cbn [for_each]; [by apply c_ret|].
  destruct (Hcs c) as (Hc & Hcp & Hck); [apply Hl; by left|]. pose proof (Hlevel c Hc Hcp) as Hcl. pose proof (tree_level _ Hd _ Hc).
  destruct (repathed_forth _ _ _ _ Hr Hc) as (c' & Hc' & (E1 & _ & E3 & E4) & En & _). rewrite Hcp in E3.
  apply c_bind. unfold body. apply c_bind, c_UpdateWhere. intros now j new Hnew. set (path := pp +:+ "/" +:+ m_Name c).
  change (put_rows TableName new di) with (with_path now (mid c) path di).
  assert (tree_ok (with_path now (mid c) path di)) as Hd1 by (apply with_path_tree; [done|exact Hnew]).
  pose proof (with_path_repathed now _ path di c' Hdi Hc' E1) as Hrc. rewrite E4, Hck in Hrc.
  assert (forall q, q ∈ mods di -> mid q = p -> m_Path q = pp /\ m_Level q = k) as Hpp'.
  { intros q Hq Hqp. destruct (repathed_row _ _ _ _ Hd Hr Hq) as (q0 & Hq0 & (F1 & _ & _ & F4) & _ & Fp).
    destruct (Hpp q0 Hq0) as [<- <-]; [congruence|]. by rewrite Fp by lia. }
  eapply c_mono.
  { apply (IH _ _ (((fun m => mid m) <$> l) ++ W) (k + 1)); [done|lia|..].
    - intros m Hm Hp. destruct (with_path_rows _ _ _ _ _ Hdi Hm) as [(m0 & Hm0 & (F1 & _ & F3 & ->) & _)|[Hm0 _]].
      + rewrite (child_level di m0 c' Hdi Hm0 Hc') by congruence. lia.
      + rewrite (child_level di m c' Hdi Hm0 Hc') by congruence. lia.
    - intros q Hq Hqp. destruct (with_path_rows _ _ _ _ _ Hdi Hq) as [(q0 & Hq0 & (F1 & _ & F3 & ->) & _ & Fp & _)|[_ ?]]; [|congruence].
      rewrite (mods_unique di q0 c') by congruence. split; [done|lia].
    - apply (with_path_wrong now W l c c'); [done..| |done]. unfold good_path. rewrite E3. intros q Hq Hqp. destruct (Hpp' q Hq Hqp) as [-> Hqk].
      rewrite En, E1. split; [|done]. intros E. assert (q = c') as -> by (apply (mods_unique di); [done..|congruence]). lia. }
  intros d2 _ (Hd2 & Hr2 & Hw2). apply IHl; [|done| |exact Hw2].
  - intros c'' Hc''. apply Hl. by right.
  - eapply repathed_trans; [exact Hr|]. eapply repathed_trans.
    + replace k with (k + 1 - 1) by lia. exact Hrc.
    + eapply repathed_weaken, Hr2. lia.
Qed.
End paths.
