(* ===== verification/ModuleForest.v ===== *)
(** * The trees the module service shows

    [buildTree] arranges the modules it is given: each of them occurs once, under its
    parent, and siblings are in the order of their sort numbers.  The fuel of
    [buildTree], the number of the modules, is enough, because a path from a root has no
    module twice. *)

From S2P Require Import Prelude GoRuntime Store StoreLogic Org OrgLogic Modules ModuleTree.

(** The modules of a tree. *)
Fixpoint flatten (t : tree) : list Module_ := match t with Node m _ cs => m :: flat_map flatten cs end.
Definition root_of (t : tree) : Module_ := match t with Node m _ _ => m end.
Definition parent_of (t : tree) : option string := match t with Node _ p _ => p end.

(** Children know their parent and are sorted. *)
#[warnings="-register-all"] Inductive linked : tree -> Prop :=
  | linked_node m parent cs :
      StronglySorted (fun a b => m_Sort (root_of a) <= m_Sort (root_of b)) cs ->
      (forall c, c ∈ cs -> parent_of c = Some (m_PublicID m) /\ m_ParentID (root_of c) = Some (mid m) /\ linked c) ->
      linked (Node m parent cs).

(** The roots are at the level [k], the others one below their parents. *)
Record forest_ok (k : Z) (l : list Module_) : Prop := {
  forest_ids : NoDup ((fun m => mid m) <$> l);
  forest_root : forall m, m ∈ l -> m_ParentID m = None -> m_Level m = k;
  forest_parent : forall m p, m ∈ l -> m_ParentID m = Some p -> exists q, q ∈ l /\ mid q = p /\ m_Level m = m_Level q + 1;
  forest_level : forall m, m ∈ l -> k <= m_Level m;
}.

Section forest.
Context `{GoRuntimeLaws}.
Implicit Types (l R : list Module_) (m q : Module_).

Lemma sort_less_weak l : strict_weak sort_less l.
Proof. split; unfold sort_less; intros *; rewrite ?Z.ltb_lt, ?Z.ltb_ge; lia. Qed.

Lemma sorted_by_sort l (f : Module_ -> tree) : (forall m, root_of (f m) = m) ->
  StronglySorted (fun a b => m_Sort (root_of a) <= m_Sort (root_of b)) (f <$> go_sort sort_less l).
Proof.
  intros Hf. pose proof (go_sort_sorted sort_less l (sort_less_weak l)) as Hs. unfold sorted_by in Hs.
  induction Hs as [|m k Hk IH Hm]; cbn; constructor; [exact IH|]. rewrite Forall_forall in Hm. apply Forall_forall.
  intros t (q & -> & Hq)%list_elem_of_fmap. rewrite !Hf. apply Hm in Hq. unfold sort_less in Hq. by apply Z.ltb_ge in Hq.
Qed.

Lemma buildChildren_root n l parent m : root_of (buildChildren n l parent m) = m /\ parent_of (buildChildren n l parent m) = parent.
Proof. by destruct n. Qed.

Lemma buildChildren_linked n l parent m : linked (buildChildren n l parent m).
Proof.
  revert parent m; induction n as [|n IH]; intros parent m; cbn [buildChildren]; constructor.
  - constructor.
  - by intros c ?%elem_of_nil.
  - apply sorted_by_sort. intros q. apply buildChildren_root.
  - intros c (q & -> & Hq)%list_elem_of_fmap. destruct (buildChildren_root n l (Some (m_PublicID m)) q) as [-> ->].
    split; [done|]. split; [|apply IH]. apply go_sort_elem, filter_bool_elem in Hq as [_ Hq]. by apply parent_is_eq.
Qed.

Lemma flatten_parent n l parent m : flatten (buildChildren n l parent m) = flatten (buildChildren n l None m).
Proof. by destruct n. Qed.

(** The modules of the trees below [R]. *)
Definition spread_out n l R : list Module_ := flat_map (fun m => flatten (buildChildren n l None m)) R.

Lemma spread_out_perm n l R R' : R ≡ₚ R' -> spread_out n l R ≡ₚ spread_out n l R'.
Proof. unfold spread_out. intros HR. by apply Permutation_flat_map. Qed.

Lemma spread_out_fmap n l parent R : flat_map flatten (buildChildren n l parent <$> R) = spread_out n l R.
Proof. unfold spread_out. induction R as [|m R IH]; [done|]. cbn. by rewrite flatten_parent, IH. Qed.

Lemma spread_out_cons n l m R : spread_out n l (m :: R) = flatten (buildChildren n l None m) ++ spread_out n l R.
Proof. done. Qed.
Lemma spread_out_app n l R R' : spread_out n l (R ++ R') = spread_out n l R ++ spread_out n l R'.
Proof. apply flat_map_app. Qed.

Lemma spread_out_S n l R : spread_out (S n) l R ≡ₚ R ++ spread_out n l (flat_map (children_of l) R).
Proof.
  induction R as [|m R IH]; [done|]. rewrite spread_out_cons. cbn [flat_map buildChildren flatten app].
  rewrite IH, spread_out_fmap, (spread_out_perm n l _ _ (go_sort_perm sort_less (children_of l m))), spread_out_app.
  constructor. rewrite !app_assoc. by rewrite (Permutation_app_comm R).
Qed.

Definition at_level (j : Z) l : list Module_ := List.filter (fun m => m_Level m =? j) l.
Lemma at_level_elem j l m : m ∈ at_level j l <-> m ∈ l /\ m_Level m = j.
Proof. unfold at_level. by rewrite filter_bool_elem, Z.eqb_eq. Qed.

Lemma filter_or_perm (p q r : Module_ -> bool) l : (forall m, m ∈ l -> r m = p m || q m) -> (forall m, m ∈ l -> p m = true -> q m = false) ->
  List.filter r l ≡ₚ List.filter p l ++ List.filter q l.
Proof.
  induction l as [|m l IH]; intros Hr Hpq; [done|]. cbn.
  assert (List.filter r l ≡ₚ List.filter p l ++ List.filter q l) as Hl by (apply IH; intros; [apply Hr|apply Hpq]; by try right).
  rewrite (Hr m) by left. specialize (Hpq m ltac:(by left)). destruct (p m); cbn.
  - rewrite Hpq by done. by rewrite Hl.
  - destruct (q m); [|done]. by rewrite Hl, Permutation_middle.
Qed.

(** The children of [R], in one query or one after the other. *)
Lemma children_of_perm l R : NoDup ((fun m => mid m) <$> R) ->
  flat_map (children_of l) R ≡ₚ List.filter (parent_in ((fun m => mid m) <$> R)) l.
Proof.
  induction R as [|m R IH]; intros Hnd.
  - cbn. induction l as [|q l IH]; [done|]. cbn. unfold parent_in. by destruct (m_ParentID q).
  - rewrite fmap_cons in *. apply NoDup_cons in Hnd as [Hm Hnd]. cbn [flat_map]. rewrite IH by done. unfold children_of.
    symmetry. apply filter_or_perm.
    + intros q _. unfold parent_in, parent_is, in_ids. destruct (m_ParentID q); [|done]. reflexivity.
    + intros q _ Hp%parent_is_eq. unfold parent_in. rewrite Hp. apply not_true_iff_false. by rewrite in_ids_elem.
Qed.

Lemma next_level k j l : forest_ok k l -> k <= j -> flat_map (children_of l) (at_level j l) ≡ₚ at_level (j + 1) l.
Proof.
  intros Hl Hj. rewrite children_of_perm.
  2: { unfold at_level. pose proof (forest_ids _ _ Hl) as Hnd. clear -Hnd. induction l as [|m l IH]; [constructor|].
       rewrite fmap_cons in Hnd. apply NoDup_cons in Hnd as [Hm Hnd]. cbn. destruct (m_Level m =? j); [|by apply IH].
       rewrite fmap_cons. constructor; [|by apply IH]. rewrite list_elem_of_fmap. intros (q & E & Hq). apply Hm.
       apply filter_bool_elem in Hq as [Hq _]. rewrite E. by apply (list_elem_of_fmap_2 (fun m => mid m)). }
  unfold at_level at 2. enough (List.filter (parent_in ((fun m => mid m) <$> at_level j l)) l = at_level (j + 1) l) as -> by done.
  unfold at_level at 2. apply filter_ext_in. intros m Hm. rewrite <- list_elem_of_In in Hm. apply eq_true_iff_eq.
  rewrite parent_in_eq, Z.eqb_eq. split.
  - intros (p & Hp & (q & -> & [Hq Hqj]%at_level_elem)%list_elem_of_fmap).
    destruct (forest_parent _ _ Hl _ _ Hm Hp) as (q' & Hq' & E & ->). f_equal.
    by rewrite (nodup_inj (fun m => mid m) l q' q (forest_ids _ _ Hl) Hq' Hq E).
  - intros Hlm. destruct (m_ParentID m) as [p|] eqn:Hp; [|rewrite (forest_root _ _ Hl) in Hlm by done; lia].
    destruct (forest_parent _ _ Hl _ _ Hm Hp) as (q & Hq & <- & E). exists (mid q). split; [done|].
    apply (list_elem_of_fmap_2 (fun m => mid m)), at_level_elem. split; [done|lia].
Qed.
(** The levels from [j] on, [n] of them. *)
Definition levels (n : nat) (j : Z) l : list Module_ := flat_map (fun i => at_level (j + Z.of_nat i) l) (seq 0 n).

Lemma levels_S n j l : levels (S n) j l = at_level j l ++ levels n (j + 1) l.
Proof.
  unfold levels. cbn [seq flat_map]. f_equal; [f_equal; lia|]. rewrite <- seq_shift, !flat_map_concat_map, map_map. f_equal.
  apply map_ext. intros i. f_equal. lia.
Qed.

Lemma spread_out_levels k n j l : forest_ok k l -> k <= j -> spread_out n l (at_level j l) ≡ₚ levels (S n) j l.
Proof.
  intros Hl. revert j; induction n as [|n IH]; intros j Hj.
  - rewrite levels_S. unfold levels. cbn [seq flat_map]. rewrite app_nil_r. unfold spread_out. cbn.
    induction (at_level j l) as [|m R IHR]; [done|]. cbn. by rewrite IHR.
  - rewrite spread_out_S, levels_S, (spread_out_perm n l _ _ (next_level k j l Hl Hj)), IH by lia. done.
Qed.

(** Every module is at one of the levels. *)
Lemma levels_all n j l : (forall m, m ∈ l -> j <= m_Level m < j + Z.of_nat n) -> levels n j l ≡ₚ l.
Proof.
  revert j l; induction n as [|n IH]; intros j l Hl.
  - destruct l as [|m l]; [done|]. specialize (Hl m ltac:(by left)). lia.
  - rewrite levels_S. transitivity (at_level j l ++ levels n (j + 1) (List.filter (fun m => negb (m_Level m =? j)) l)).
    + apply Permutation_app_head. enough (levels n (j + 1) l = levels n (j + 1) (List.filter (fun m => negb (m_Level m =? j)) l)) as -> by done.
      unfold levels. rewrite !flat_map_concat_map. f_equal. apply map_ext. intros i. unfold at_level. clear.
      induction l as [|m l IHl]; [done|]. cbn. destruct (m_Level m =? j) eqn:E; cbn.
      * apply Z.eqb_eq in E. rewrite (proj2 (Z.eqb_neq _ _)) by lia. exact IHl.
      * destruct (m_Level m =? j + 1 + Z.of_nat i); [by rewrite IHl|exact IHl].
    + rewrite IH.
      * symmetry. transitivity (List.filter (fun _ => true) l).
        { clear. induction l as [|m l IHl]; [done|]. cbn. by rewrite <- IHl. }
        apply filter_or_perm; [intros m _; by destruct (m_Level m =? j)|by intros m _ ->].
      * intros m [Hm Hj]%filter_bool_elem. apply negb_true_iff, Z.eqb_neq in Hj. specialize (Hl m Hm). lia.
Qed.

(** A path from a root to a module, which has no module twice. *)
Lemma path_exists k l n m : forest_ok k l -> m ∈ l -> m_Level m = k + Z.of_nat n ->
  exists path, NoDup path /\ length path = S n /\ forall q, q ∈ path -> q ∈ l /\ m_Level q <= m_Level m.
Proof.
  intros Hl. revert m; induction n as [|n IH]; intros m Hm Hn.
  - exists [m]. split; [apply NoDup_singleton|]. split; [done|]. by intros q ->%list_elem_of_singleton.
  - destruct (m_ParentID m) as [p|] eqn:Hp; [|rewrite (forest_root _ _ Hl) in Hn by done; lia].
    destruct (forest_parent _ _ Hl _ _ Hm Hp) as (q & Hq & _ & E). destruct (IH q Hq ltac:(lia)) as (path & Hnd & Hlen & Hpath).
    exists (m :: path). split; [|split; [by cbn; rewrite Hlen|]].
    + constructor; [|done]. intros Hin. apply Hpath in Hin as [_ ?]. lia.
    + intros r [->|Hr]%elem_of_cons; [done|]. destruct (Hpath r Hr). split; [done|lia].
Qed.

Lemma level_bound k l m : forest_ok k l -> m ∈ l -> m_Level m < k + Z.of_nat (length l).
Proof.
  intros Hl Hm. pose proof (forest_level _ _ Hl m Hm).
  destruct (path_exists k l (Z.to_nat (m_Level m - k)) m Hl Hm ltac:(lia)) as (path & Hnd & Hlen & Hpath).
  assert (length path <= length l)%nat; [|lia]. apply submseteq_length, NoDup_submseteq; [done|]. intros q Hq. by apply Hpath.
Qed.

Lemma buildTree_perm k l : forest_ok k l -> flat_map flatten (buildTree l) ≡ₚ l.
Proof.
  intros Hl. unfold buildTree. rewrite spread_out_fmap, (spread_out_perm _ l _ _ (go_sort_perm sort_less (List.filter is_root l))).
  assert (List.filter is_root l = at_level k l) as ->.
  { apply filter_ext_in. intros m Hm. rewrite <- list_elem_of_In in Hm. apply eq_true_iff_eq. rewrite Z.eqb_eq. unfold is_root.
    destruct (m_ParentID m) as [p|] eqn:Hp; [|by rewrite (forest_root _ _ Hl)]. split; [done|].
    destruct (forest_parent _ _ Hl _ _ Hm Hp) as (q & Hq & _ & ->). pose proof (forest_level _ _ Hl q Hq). lia. }
  rewrite (spread_out_levels k) by (done || lia). apply levels_all. intros m Hm.
  pose proof (forest_level _ _ Hl m Hm). pose proof (level_bound k l m Hl Hm). lia.
Qed.

Lemma buildTree_linked l : StronglySorted (fun a b => m_Sort (root_of a) <= m_Sort (root_of b)) (buildTree l) /\
  forall t, t ∈ buildTree l -> linked t.
Proof.
  unfold buildTree. split.
  - apply sorted_by_sort. intros m. apply buildChildren_root.
  - intros t (m & -> & _)%list_elem_of_fmap. apply buildChildren_linked.
Qed.

(** The modules of the database are a forest, and so is a part of it below a module. *)
Lemma tree_forest d : tree_ok d -> forest_ok 1 (mods d).
Proof.
  intros Hd. split; [|apply Hd|apply Hd|intros m Hm; by apply (tree_level _ Hd)].
  unfold here. pose proof (tree_index _ Hd) as Hi. change (rows TableName d) with (modules d). induction (modules d) as [|m l IH]; [constructor|].
  cbn [clash_free] in Hi. apply andb_true_iff in Hi as [Hm Hl]. cbn. destruct (live m); [|by apply IH].
  rewrite fmap_cons. constructor; [|by apply IH]. rewrite list_elem_of_fmap. intros (q & E & Hq). apply negb_true_iff in Hm.
  apply filter_bool_elem in Hq as [Hq _]. enough (existsb (clash TableName m) l = true) as E' by by rewrite E' in Hm.
  apply existsb_exists. exists q. split; [by apply list_elem_of_In|]. cbn. unfold same_id. by rewrite E, Z.eqb_refl.
Qed.
End forest.
