(* ===== verification/ModuleSpec.v ===== *)
(** * What the module service promises

    Its transactions keep the tree, whatever they were computed from; a request that runs
    alone also keeps the paths; a deletion removes a whole subtree that nothing refers
    to, and nothing else. *)

From S2P Require Import Prelude GoRuntime Wp Store StoreLogic Errors Service Org OrgLogic Modules ModuleTree ModulePaths ModuleForest.

Section transactions.
Context {X : Type} `{Ambient}.
Implicit Types (d : org) (m q : Module_).

(** ** The transactions *)

Definition child_of_parent d (m : Module_) : Prop :=
  match m_ParentID m with
  | None => m_Level m = 1 /\ m_Path m = "/" +:+ m_Name m
  | Some p => exists q, q ∈ mods d /\ mid q = p /\ m_Level m = m_Level q + 1 /\ m_Path m = m_Path q +:+ "/" +:+ m_Name m
  end.

Lemma create_tx_commits name parentID sort d : tree_ok d -> commit_spec (X := X) (create_tx name parentID sort) d (fun d' m =>
  d' = put_rows TableName (modules d ++ [m]) d /\ live m = true /\ existsb (clash TableName m) (modules d) = false /\
  m_Name m = name /\ m_ParentID m = parentID /\ m_Sort m = sort /\ child_of_parent d m /\ 1 <= m_Level m <= MaxModuleLevel).
Proof.
  intros Hd. unfold create_tx, BeforeCreate. cbn -[MaxModuleLevel]. apply c_bind, c_bind.
  apply c_reads; [solve_reads|]. intros public. destruct parentID as [p|].
  - apply c_bind, c_wrap_error, c_SelectFirst. intros q Hq Hid. apply Z.eqb_eq in Hid. destruct (MaxModuleLevel <? _) eqn:E; [by apply c_fail|].
    apply Z.ltb_ge in E. apply c_ret, c_Insert. intros id now m Hc. subst m. pose proof (tree_level _ Hd _ Hq).
    do 6 (split; [done|]). split; [|cbn; lia]. exists q. done.
  - apply c_ret, c_Insert. intros id now m Hc. subst m. do 6 (split; [done|]). split; [done|]. cbn. unfold MaxModuleLevel. lia.
Qed.

Lemma create_keeps_tree d m : tree_ok d -> live m = true -> existsb (clash TableName m) (modules d) = false ->
  child_of_parent d m -> 1 <= m_Level m <= MaxModuleLevel -> tree_ok (put_rows TableName (modules d ++ [m]) d).
Proof.
  intros Hd Hl Hc Hp Hlevel. apply tree_insert; [done..|]. unfold child_of_parent in Hp. destruct (m_ParentID m); naive_solver.
Qed.

Lemma create_keeps_paths d m : tree_ok d -> paths_ok d -> live m = true -> existsb (clash TableName m) (modules d) = false ->
  child_of_parent d m -> paths_ok (put_rows TableName (modules d ++ [m]) d).
Proof.
  intros Hd Hpaths Hl Hc Hp x Hx. rewrite (mods_insert _ _ Hl) in Hx.
  assert (forall q p, q ∈ mods (put_rows TableName (modules d ++ [m]) d) -> mid q = p -> (exists q0, q0 ∈ mods d /\ mid q0 = p) -> q ∈ mods d) as Hold.
  { intros q p Hq Hqp (q0 & Hq0 & Hq0p). rewrite (mods_insert _ _ Hl) in Hq. apply elem_of_app in Hq as [Hq| ->%list_elem_of_singleton]; [done|].
    exfalso. apply not_true_iff_false in Hc. apply Hc, existsb_exists. exists q0. split; [by apply list_elem_of_In; apply here_elem in Hq0 as [? _]|].
    cbn. unfold same_id. by rewrite Hqp, Hq0p, Z.eqb_refl. }
  apply elem_of_app in Hx as [Hx| ->%list_elem_of_singleton].
  - specialize (Hpaths x Hx). unfold path_ok in *. destruct (m_ParentID x) as [p|] eqn:E; [|done]. intros q Hq Hqp. apply Hpaths; [|done].
    apply (Hold q p Hq Hqp). destruct (tree_parent _ Hd _ _ Hx E) as (q0 & Hq0 & Hq0p & _). by exists q0.
  - unfold path_ok, child_of_parent in *. destruct (m_ParentID m) as [p|]; [|apply Hp]. destruct Hp as (q0 & Hq0 & Hqp & _ & ->).
    intros q Hq Hqp'. rewrite (mods_unique d q q0); [done|done| |done|congruence]. by apply (Hold q p Hq Hqp'); exists q0.
Qed.

(** The row with its new name and sort number. *)
Definition renamed_row (now id : Z) (name : string) (sort : Z) d : org :=
  put_rows TableName (changed (visible (has_id id)) (fun r => updated now (set_name_sort name sort r)) (modules d)) d.

Lemma renamed_row_rows now id name sort d m : m ∈ mods (renamed_row now id name sort d) ->
  (m ∈ mods d /\ mid m <> id) \/ exists m0, m0 ∈ mods d /\ mid m0 = id /\ same_place m0 m /\ m_Path m = m_Path m0 /\
    m_Name m = (if String.eqb name "" then m_Name m0 else name).
Proof.
  intros [Hm Hl]%here_elem. cbn in Hm. apply changed_elem in Hm as (r & Hr & ->). unfold visible, has_id in *. destruct (live r) eqn:E; cbn in *.
  - destruct (ID (m_Base r) =? id) eqn:E'; cbn in *.
    + right. exists r. apply Z.eqb_eq in E'. split; [by apply here_elem|]. done.
    + left. apply Z.eqb_neq in E'. split; [by apply here_elem|done].
  - congruence.
Qed.

Lemma renamed_row_tree now id name sort d : tree_ok d -> clash_free (clash TableName) (modules (renamed_row now id name sort d)) = true ->
  tree_ok (renamed_row now id name sort d).
Proof. intros Hd Hc. apply tree_map; [done| |exact Hc]. intros m _. by destruct (visible (has_id id) m). Qed.

Lemma renamed_row_self now id name sort d module : tree_ok d -> module ∈ mods d -> mid module = id ->
  exists r, r ∈ mods (renamed_row now id name sort d) /\ same_place module r /\
    m_Name r = (if String.eqb name "" then m_Name module else name).
Proof.
  intros Hd Hm Hid. exists (updated now (set_name_sort name sort module)). split; [|done].
  apply here_elem in Hm as [Hm Hl]. apply here_elem. split; [|exact Hl]. cbn. apply changed_elem. exists module. split; [done|].
  unfold visible, has_id. cbn. by rewrite Hl, (proj2 (Z.eqb_eq _ _) Hid).
Qed.

(** [module] need not be the row as it is now. *)
Lemma update_tx_commits module id name sort d : tree_ok d -> commit_spec (X := X) (update_tx module id name sort) d (fun d' _ =>
  tree_ok d' /\ rest d' = rest d /\ forall q, q ∈ mods d -> exists q', q' ∈ mods d' /\ mid q' = mid q).
Proof.
  intros Hd. unfold update_tx. cbv zeta. apply c_bind, c_UpdateWhere. intros now k new Hnew.
  change (put_rows TableName new d) with (renamed_row now id name sort d).
  assert (tree_ok (renamed_row now id name sort d)) as Hd1 by by apply renamed_row_tree.
  assert (forall q, q ∈ mods d -> exists q', q' ∈ mods (renamed_row now id name sort d) /\ mid q' = mid q) as Hk1.
  { intros q Hq. destruct (decide (mid q = id)) as [E|E].
    - destruct (renamed_row_self now id name sort d q Hd Hq E) as (q' & Hq' & (? & _) & _). by exists q'.
    - exists q. split; [|done]. apply here_elem in Hq as [Hq Hl]. apply here_elem. split; [|done]. apply changed_elem. exists q.
      split; [done|]. unfold visible, has_id. cbn. by rewrite (proj2 (Z.eqb_neq _ _) E), andb_false_r. }
  destruct (negb _); [by apply c_ret|]. apply c_bind, c_reads; [solve_reads|]. intros path.
  apply c_bind, c_UpdateWhere. intros now' k' new' Hnew'. set (d1 := renamed_row now id name sort d) in *.
  change (put_rows TableName new' d1) with (with_path now' id path d1).
  assert (tree_ok (with_path now' id path d1)) as Hd2 by by apply with_path_tree.
  eapply c_mono.
  { apply (rewriteChildPaths_commits module_fuel id path ((fun m => mid m) <$> mods (with_path now' id path d1))
      (match List.find (has_id id) (mods (with_path now' id path d1)) with Some q => m_Level q | None => 0 end)); [done|done|..].
    - intros m Hm Hp. destruct (tree_parent _ Hd2 _ _ Hm Hp) as (q & Hq & _ & ->). pose proof (tree_level _ Hd2 _ Hq).
      unfold module_fuel, MaxModuleLevel in *. lia.
    - intros q Hq Hqp. split.
      + by destruct (with_path_rows _ _ _ _ _ Hd1 Hq) as [(? & ? & ? & ? & ? & ?)|[_ ?]].
      + destruct (List.find _ _) as [r|] eqn:E.
        * apply find_some in E as [Hr Hid%Z.eqb_eq]. rewrite <- list_elem_of_In in Hr. cbn in Hid.
          by rewrite (mods_unique _ q r Hd2) by congruence.
        * rewrite list_elem_of_In in Hq. pose proof (find_none _ _ E _ Hq) as Hn. unfold has_id in Hn. cbn in Hn. by apply Z.eqb_neq in Hn.
    - intros m Hm. right. left. by apply (list_elem_of_fmap_2 (fun m => mid m)). }
  intros d' _ (Hd' & Hr & _). split; [exact Hd'|]. split; [by destruct Hr as (f & -> & _)|]. intros q Hq.
  destruct (Hk1 q Hq) as (q1 & Hq1 & <-). destruct (with_path_forth now' id path _ q1 Hd1 Hq1) as (q2 & Hq2 & <-).
  destruct (repathed_forth _ _ _ _ Hr Hq2) as (q3 & Hq3 & (? & _) & _). by exists q3.
Qed.
(** An update of the row as it is now. *)
Lemma renamed_row_paths now id name sort d m : tree_ok d -> paths_ok d -> m ∈ mods (renamed_row now id name sort d) ->
  mid m <> id \/ (forall m0, m0 ∈ mods d -> mid m0 = id -> (if String.eqb name "" then m_Name m0 else name) = m_Name m0) ->
  path_ok (renamed_row now id name sort d) m.
Proof.
  intros Hd Hpaths Hm Hname. assert (exists m0, m0 ∈ mods d /\ m_Path m = m_Path m0 /\ m_ParentID m = m_ParentID m0 /\ m_Name m = m_Name m0) as (m0 & Hm0 & Ep & Er & En).
  { destruct (renamed_row_rows _ _ _ _ _ _ Hm) as [[Hm0 Hne]|(m0 & Hm0 & Hid & (E1 & _ & E3 & _) & Ep & En)]; [by exists m|].
    exists m0. repeat split; [done..|]. rewrite En. destruct Hname as [Hne|Hname]; [congruence|by apply Hname]. }
  specialize (Hpaths m0 Hm0). unfold path_ok in *. rewrite Er, En, Ep. destruct (m_ParentID m0) as [p|]; [|done]. intros q Hq Hqp.
  destruct (renamed_row_rows _ _ _ _ _ _ Hq) as [[Hq0 _]|(q0 & Hq0 & _ & (E1 & _) & -> & _)]; apply Hpaths; [done..|congruence].
Qed.

Lemma update_tx_paths module id name sort d : tree_ok d -> paths_ok d -> module ∈ mods d -> mid module = id ->
  commit_spec (X := X) (update_tx module id name sort) d (fun d' _ => paths_ok d').
Proof.
  intros Hd Hpaths Hmod Hid. unfold update_tx. cbv zeta. apply c_bind, c_UpdateWhere. intros now k new Hnew.
  change (put_rows TableName new d) with (renamed_row now id name sort d). set (d1 := renamed_row now id name sort d) in *.
  assert (tree_ok d1) as Hd1 by by apply renamed_row_tree.
  destruct (negb (String.eqb name "") && negb (String.eqb name (m_Name module))) eqn:Eren; cbn [negb].
  2: { apply c_ret. intros m Hm. apply renamed_row_paths; [done..|]. right. intros m0 Hm0 E.
       rewrite (mods_unique d m0 module Hd Hm0 Hmod) by congruence. destruct (String.eqb name ""); [done|]. cbn in Eren.
       by apply negb_false_iff, String.eqb_eq in Eren. }
  apply andb_true_iff in Eren as [Ene%negb_true_iff _].
  destruct (renamed_row_self now id name sort d module Hd Hmod Hid) as (r & Hr & (Hrid & _ & Hparent & Hrlevel) & Hname). fold d1 in Hr.
  rewrite Ene in Hname.
  apply c_bind. apply (c_mono _ _ (fun d' path => d' = d1 /\ good_path d1 r path)).
  { unfold good_path. rewrite Hparent, Hname. destruct (m_ParentID module) as [p|] eqn:Ep; [|by apply c_ret].
    apply c_bind, c_SelectFirst. intros q Hq Hqp%Z.eqb_eq. apply c_ret. split; [done|]. intros q' Hq' Hqp'.
    pose proof (mods_unique d1 q' q Hd1 Hq' Hq ltac:(cbn in Hqp; congruence)) as ->. split; [|done]. intros E.
    assert (m_ParentID r = Some (mid r)) as Hs by congruence. pose proof (child_level d1 r r Hd1 Hr Hr Hs). lia. }
  intros ? path [-> Hpath]. apply c_bind, c_UpdateWhere. intros now' k' new' Hnew'.
  change (put_rows TableName new' d1) with (with_path now' id path d1).
  assert (tree_ok (with_path now' id path d1)) as Hd2 by by apply with_path_tree.
  eapply c_mono.
  { apply (rewriteChildPaths_commits module_fuel id path [] (m_Level module)); [done|done|..].
    - intros m Hm Hp. destruct (tree_parent _ Hd2 _ _ Hm Hp) as (q & Hq & _ & ->). pose proof (tree_level _ Hd2 _ Hq).
      unfold module_fuel, MaxModuleLevel in *. lia.
    - intros q Hq Hqp. destruct (with_path_rows _ _ _ _ _ Hd1 Hq) as [(q0 & Hq0 & (F1 & _ & _ & ->) & _ & Fp & _)|[_ ?]]; [|done].
      split; [done|]. by rewrite (mods_unique d1 q0 r Hd1 Hq0 Hr) by congruence.
    - rewrite <- Hid, <- Hrid. apply (with_path_wrong now' [] [] r r); [done..|]. intros m Hm. destruct (decide (mid m = mid r)) as [E|E].
      + right. left. rewrite E. by left.
      + right. right. apply renamed_row_paths; [done..|]. left. congruence. }
  intros d' _ (_ & _ & Hw) m Hm. destruct (Hw m Hm) as [(z & [=] & _)|[?%elem_of_nil|?]]; done.
Qed.
End transactions.

(** ** Interleaved transactions

    Requests that run at the same time mix the transactions they commit.  A step is one
    of them, with any arguments: what a request has read before may be out of date. *)

Definition committed `{Ambient} {A} (m : action (dbstore org ()) A) (d d' : org) : Prop :=
  exists s s' a, g_db s = d /\ transaction m s = Ret (s', Ok a) /\ g_db s' = d'.

Inductive tree_step `{Ambient} : org -> org -> Prop :=
  | T_create name parentID sort d d' : committed (create_tx name parentID sort) d d' -> tree_step d d'
  | T_update module id name sort d d' : committed (update_tx module id name sort) d d' -> tree_step d d'
  | T_delete id d d' : committed (delete_tx id) d d' -> tree_step d d'
  | T_other d d' : modules d' = modules d -> tree_step d d'.

Section interleaving.
Context `{Ambient}.

Lemma committed_spec {A} (m : action (dbstore org ()) A) d d' Q : commit_spec m d Q -> committed m d d' -> exists a, Q d' a.
Proof.
  intros Hm (s & s' & a & Hs & E & <-). specialize (Hm s Hs). unfold wp, transaction in *. destruct (m s) as [[s1 [b|e]]|]; [|done..].
  destruct (db_error _); [done|]. injection E as <- <-. by exists b.
Qed.

Lemma tree_step_ok d d' : tree_ok d -> tree_step d d' -> tree_ok d'.
Proof.
  intros Hd Hs. destruct Hs as [name p sort d d' Hc|module id name sort d d' Hc|id d d' Hc|d d' E].
  - destruct (committed_spec _ _ _ _ (create_tx_commits name p sort d Hd) Hc) as (m & -> & Hl & Hcl & _ & _ & _ & Hp & Hlevel).
    by apply create_keeps_tree.
  - by destruct (committed_spec _ _ _ _ (update_tx_commits module id name sort d Hd) Hc) as (? & ? & _).
  - by destruct (committed_spec _ _ _ _ (delete_tx_commits id d Hd) Hc) as (? & ? & _).
  - by apply (tree_modules d).
Qed.

(** C13: In every interleaving of the transactions of the module service, even with
    arguments that are out of date, the modules that are not deleted stay a forest: each
    parent is there, a module's level is one below its parent's, and no level is beyond
    the fifth. *)
Theorem modules_stay_a_tree d d' : tree_ok d -> rtc tree_step d d' -> tree_ok d'.
Proof. intros Hd Hs. induction Hs; [done|]. apply IHHs. by eapply tree_step_ok. Qed.
End interleaving.

Section requests.
Context {X : Type} `{Ambient}.
Implicit Types (d : org) (m q r : Module_).

Abbreviation svc_spec := (svc_spec (X := X)).

Lemma GetByPublicID_spec id d : svc_spec (GetByPublicID id) d (fun d' a => d' = d /\
  match a with inr m => m.1 ∈ mods d /\ m_PublicID m.1 = id | inl e => e = New CodeModuleNotFound "" end).
Proof.
  apply svc_orElse. apply db_bind, db_SelectFirst; [done|]. intros m Hm Hid%String.eqb_eq. apply db_bind, db_reads; [solve_reads|].
  intros [parents|e]; [|done]. apply db_ret. done.
Qed.

Lemma public_unique d m q : tree_ok d -> m ∈ mods d -> q ∈ mods d -> m_PublicID m = m_PublicID q -> m = q.
Proof.
  intros Hd [Hm _]%here_elem [Hq _]%here_elem E. apply (clash_free_unique _ _ _ _ modules_clash_sym (tree_index _ Hd) Hm Hq).
  cbn. by rewrite E, String.eqb_refl, orb_true_r.
Qed.

(** The module [r] and what is below it. *)
Definition within d (r m : Module_) : Prop := m ∈ mods d /\ (m = r \/ under d [mid r] m).

Lemma within_ids d r ids m : tree_ok d -> r ∈ mods d -> (forall z, z ∈ ids <-> z = mid r \/ exists q, under d [mid r] q /\ mid q = z) ->
  m ∈ mods d -> in_ids ids (mid m) = true <-> within d r m.
Proof.
  intros Hd Hr Hids Hm. rewrite in_ids_elem, Hids. unfold within. split.
  - intros [E|(q & Hq & E)]; (split; [done|]); [left|right].
    + by apply (mods_unique d).
    + by rewrite <- (mods_unique d q m Hd (under_mods _ _ _ Hq) Hm E).
  - intros [_ [->|Hu]]; [by left|right]. by exists m.
Qed.

(** A scope gives access to a module exactly when the module is its root or below it;
    access is never given when the database fails. *)
Lemma CanAccess_spec root target d : tree_ok d -> svc_spec (CanAccess root target) d (fun d' a => d' = d /\
  match a with
  | inr allowed => exists r t, r ∈ mods d /\ t ∈ mods d /\ m_PublicID r = root /\ m_PublicID t = target /\
      (allowed = true <-> within d r t)
  | inl _ => True
  end).
Proof.
  intros Hd. apply svc_mbind. eapply svc_mono; [apply GetByPublicID_spec|]. intros ? [e|r] [-> Hr]; [done|]. destruct Hr as [Hr Hrid].
  apply svc_mbind. eapply svc_mono; [apply GetByPublicID_spec|]. intros ? [e|t] [-> Ht]; [done|]. destruct Ht as [Ht Htid].
  apply svc_mbind, svc_orElse. eapply db_mono; [by apply descendants_spec|]. intros ? [ids|e] [-> Hids]; [|done].
  apply svc_mret. split; [done|]. exists r.1, t.1. do 4 (split; [done|]). by apply within_ids.
Qed.

Lemma Delete_spec id d : tree_ok d -> svc_spec (Delete id) d (fun d' a =>
  match a with
  | inr _ => exists r, r ∈ mods d /\ mid r = id /\ tree_ok d' /\ rest d' = rest d /\
      (forall m, m ∈ mods d' <-> m ∈ mods d /\ ~ within d r m) /\
      (forall p, p ∈ here (Row := Project) d -> forall m, within d r m -> p_ModuleID p <> mid m) /\
      (forall u, u ∈ here (Row := User) d -> forall m, within d r m -> u_ModuleID u <> Some (mid m))
  | inl _ => d' = d
  end).
Proof.
  intros Hd. unfold Delete, delete_check. apply svc_mbind, svc_mbind, svc_orElse, db_SelectFirst; [done|]. intros r Hr Hid%Z.eqb_eq.
  apply svc_mbind, svc_orElse. eapply db_mono; [by apply descendants_spec|]. intros ? [ids|e] [-> Hids]; [|done].
  apply svc_mbind, svc_orElse, db_SelectCount; [done|]. apply svc_mbind, svc_orElse, db_SelectCount; [done|].
  destruct (0 <? _) eqn:E; [by apply svc_throw|]. apply Z.ltb_ge in E. apply svc_mret, svc_orElse, commit_transaction; [done|].
  eapply c_mono; [by apply delete_tx_commits|]. intros d' _ (Hd' & Hrest & Hmods). cbn in Hid. subst id. exists r.
  do 4 (split; [done|]). split; [|split].
  - intros m. rewrite Hmods. unfold within. split.
    + intros (Hm & Hne & Hu). split; [done|]. intros [_ [->|?]]; done.
    + intros (Hm & Hw). split; [done|]. split; [|by intros Hu; apply Hw; auto].
      intros E'. apply Hw. split; [done|]. left. by apply (mods_unique d).
  - intros p Hp m Hm Eq. assert (p ∈ List.filter (project_of_module ids) (here d)) as Hin; [|destruct (List.filter _ (here d)); [by apply elem_of_nil in Hin|simpl in E; lia]].
    apply filter_bool_elem. split; [done|]. unfold project_of_module. rewrite Eq. by apply (within_ids d r); [..|apply Hm|].
  - intros u Hu m Hm Eq. assert (u ∈ List.filter (user_of_module ids) (here d)) as Hin; [|destruct (List.filter _ (here (Row := User) d)); [by apply elem_of_nil in Hin|simpl in E; lia]].
    apply filter_bool_elem. split; [done|]. unfold user_of_module. rewrite Eq. by apply (within_ids d r); [..|apply Hm|].
Qed.

(** What is left after a deletion has the paths it had. *)
Lemma Delete_paths id d : tree_ok d -> paths_ok d -> svc_spec (Delete id) d (fun d' _ => paths_ok d').
Proof.
  intros Hd Hp. eapply svc_mono; [by apply Delete_spec|]. intros d' [e|a]; [by intros ->|]. intros (r & _ & _ & _ & _ & Hmods & _) m Hm.
  assert (forall q, q ∈ mods d' -> q ∈ mods d) as Hs by (intros q Hq; by apply Hmods in Hq as [? _]).
  specialize (Hp m (Hs m Hm)). unfold path_ok in *. destruct (m_ParentID m); [|done]. intros q Hq. by apply Hp, Hs.
Qed.

(** C32: A deletion that succeeds removes the module and everything below it and nothing
    else, and no project and no user belonged to what it removed; one that fails changes
    nothing. *)
Theorem deletion_removes_the_subtree id d : tree_ok d -> svc_spec (DeleteByPublicID id) d (fun d' a =>
  match a with
  | inr _ => exists r, r ∈ mods d /\ m_PublicID r = id /\ rest d' = rest d /\
      (forall m, m ∈ mods d' <-> m ∈ mods d /\ ~ within d r m) /\
      (forall p, p ∈ here (Row := Project) d -> forall m, within d r m -> p_ModuleID p <> mid m) /\
      (forall u, u ∈ here (Row := User) d -> forall m, within d r m -> u_ModuleID u <> Some (mid m))
  | inl _ => d' = d
  end).
Proof.
  intros Hd. apply svc_mbind. eapply svc_mono; [apply GetByPublicID_spec|]. intros ? [e|m] [-> Hm]; [done|]. destruct Hm as [Hm Hid].
  eapply svc_mono; [by apply Delete_spec|]. intros d' [e|a]; [done|]. intros (r & Hr & E & _ & Hrest). exists r.
  by rewrite (mods_unique d r m.1 Hd Hr Hm E) in *.
Qed.

(** ** What is shown *)

Context `{GoRuntimeLaws}.

(** The modules of [l], each once, in trees that are in order. *)
Definition shows (forest : list tree) (l : list Module_) : Prop :=
  flat_map flatten forest ≡ₚ l /\ StronglySorted (fun a b => m_Sort (root_of a) <= m_Sort (root_of b)) forest /\
  forall t, t ∈ forest -> linked t.

Lemma buildTree_shows k l : forest_ok k l -> shows (buildTree l) l.
Proof. intros Hl. split; [by eapply buildTree_perm|]. apply buildTree_linked. Qed.

Lemma scope_forest d r (l : list Module_) : tree_ok d -> r ∈ mods d -> NoDup l -> (forall m, m ∈ l <-> within d r m) ->
  forest_ok (m_Level r) (as_root (mid r) <$> l).
Proof.
  intros Hd Hr Hnd Hl.
  assert (forall m, m ∈ l -> mid (as_root (mid r) m) = mid m /\ m_Level (as_root (mid r) m) = m_Level m) as Hsame
    by (intros m _; unfold as_root; by destruct (_ =? _)).
  split.
  - assert ((fun m => mid m) <$> (as_root (mid r) <$> l) = (fun m => mid m) <$> l) as ->.
    { rewrite <- list_fmap_compose. apply list_fmap_ext. intros i m _. unfold as_root. cbn. by destruct (_ =? _). }
    apply NoDup_fmap_2_strong; [|done]. intros x y Hx%Hl Hy%Hl E. by apply (mods_unique d); [|apply Hx|apply Hy|].
  - intros x (m & -> & Hm)%list_elem_of_fmap Hp. rewrite (proj2 (Hsame m Hm)). unfold as_root in Hp. destruct (_ =? _) eqn:E.
    + apply Z.eqb_eq in E. apply Hl in Hm as [Hm _]. by rewrite (mods_unique d m r Hd Hm Hr E).
    + apply Hl in Hm as [_ [->|Hu]]; [by rewrite Z.eqb_refl in E|]. destruct Hu; congruence.
  - intros x p (m & -> & Hm)%list_elem_of_fmap Hp. rewrite (proj2 (Hsame m Hm)). unfold as_root in Hp. destruct (_ =? _) eqn:E; [done|].
    apply Hl in Hm as [Hm [->|Hu]]; [by rewrite Z.eqb_refl in E|].
    destruct (tree_parent _ Hd _ _ Hm Hp) as (q & Hq & <- & Hlev). assert (q ∈ l) as Hql.
    { apply Hl. split; [done|]. destruct Hu as [z _ Hz' ->%list_elem_of_singleton|y _ Hy Hz'].
      - left. apply (mods_unique d); [done..|congruence].
      - right. rewrite (mods_unique d q y); [done..|by apply under_mods in Hy|congruence]. }
    exists (as_root (mid r) q). destruct (Hsame q Hql) as [-> ->]. split; [by apply list_elem_of_fmap_2|done].
  - intros x (m & -> & Hm)%list_elem_of_fmap. rewrite (proj2 (Hsame m Hm)). apply Hl in Hm as [_ [->|Hu]]; [done|].
    pose proof (under_level d r m Hd Hr Hu). lia.
Qed.

Lemma ListScoped_builds root d : tree_ok d -> svc_spec (ListScoped root) d (fun d' a => d' = d /\
  match a with
  | inr forest => exists r l, r ∈ mods d /\ m_PublicID r = root /\ NoDup l /\ (forall m, m ∈ l <-> within d r m) /\
      forest = buildTree (as_root (mid r) <$> l)
  | inl _ => True
  end).
Proof.
  intros Hd. apply svc_mbind. eapply svc_mono; [apply GetByPublicID_spec|]. intros ? [e|r] [-> Hr]; [done|]. destruct Hr as [Hr Hrid].
  apply svc_mbind, svc_orElse. eapply db_mono; [by apply descendants_spec|]. intros ? [ids|e] [-> Hids]; [|done].
  apply svc_mbind, svc_orElse, db_SelectAll; [done|]. apply svc_mret. split; [done|].
  exists r.1, (List.filter (fun m : Module_ => in_ids ids (mid m)) (mods d)). do 2 (split; [done|]). split.
  { apply filter_bool_NoDup. eapply NoDup_fmap_1, (forest_ids 1), tree_forest, Hd. }
  split; [|done]. intros y. rewrite filter_bool_elem. split.
  - intros [Hm Hin]. by apply (within_ids d r.1 ids y).
  - intros Hw. split; [apply Hw|]. apply (within_ids d r.1 ids y); [done..|apply Hw|done].
Qed.

(** The list of a scope shows the root of the scope and the modules below it, each
    once, under its parent and among its siblings in the order of the sort numbers. *)
Theorem scoped_list_is_the_subtree root d : tree_ok d -> svc_spec (ListScoped root) d (fun d' a => d' = d /\
  match a with
  | inr forest => exists r l, r ∈ mods d /\ m_PublicID r = root /\ (forall m, m ∈ l <-> within d r m) /\
      shows forest (as_root (mid r) <$> l)
  | inl _ => True
  end).
Proof.
  intros Hd. eapply svc_mono; [by apply ListScoped_builds|]. intros d' [e|forest] [-> Ha]; [done|]. split; [done|].
  destruct Ha as (r & l & Hr & Hrid & Hl & Hw & ->). exists r, l. do 3 (split; [done|]). by eapply buildTree_shows, scope_forest.
Qed.

Lemma List_spec d : tree_ok d -> svc_spec List_ d (fun d' a => d' = d /\ match a with inr forest => shows forest (mods d) | inl _ => True end).
Proof.
  intros Hd. apply svc_mbind, svc_orElse, db_SelectAll; [done|]. apply svc_mret. split; [done|].
  assert (List.filter (fun _ : Module_ => true) (mods d) = mods d) as ->.
  { induction (mods d) as [|m l IH]; [done|]. cbn. by rewrite IH. }
  by eapply buildTree_shows, tree_forest.
Qed.

(** ** Creation and update *)

Lemma Create_spec name p sort d : tree_ok d -> svc_spec (Create name p sort) d (fun d' a =>
  (d' = d /\ exists e, a = inl e) \/
  exists m, d' = put_rows TableName (modules d ++ [m]) d /\ tree_ok d' /\ (paths_ok d -> paths_ok d') /\ live m = true /\
    m_Name m = name /\ m_ParentID m = p /\ m_Sort m = sort /\ match a with inr m' => m' = m | inl _ => True end).
Proof.
  intros Hd. apply svc_mbind. apply svc_by_reads.
  { destruct p; [|apply svc_reads_ret]. apply svc_reads_bind; [apply svc_reads_orElse, reads_GetByID|]. intros q.
    destruct (_ <=? _); [apply svc_reads_throw|apply svc_reads_ret]. }
  intros [e|[]]; [left; eauto|]. apply svc_mbind, svc_orElse, commit_transaction; [left; eauto|].
  eapply c_mono; [by apply create_tx_commits|]. intros d' m (-> & Hl & Hc & Hname & Hp & Hsort & Hcp & Hlevel).
  pose proof (create_keeps_tree d m Hd Hl Hc Hcp Hlevel) as Hd'. apply svc_orElse.
  apply db_SelectFirst.
  - intros e. right. exists m. do 2 (split; [done|]). split; [|done]. intros. by apply create_keeps_paths.
  - intros m' Hm' Hid%Z.eqb_eq. right. exists m. do 2 (split; [done|]). split; [intros; by apply create_keeps_paths|]. do 4 (split; [done|]).
    apply (mods_unique _ m' m Hd' Hm'); [|exact Hid]. rewrite mods_insert by done. apply elem_of_app. right. by left.
Qed.

Lemma Update_spec id name sort d : tree_ok d -> svc_spec (Update id name sort) d (fun d' a =>
  d' = d \/ tree_ok d' /\ rest d' = rest d /\ (paths_ok d -> paths_ok d') /\
    forall q, q ∈ mods d -> exists q', q' ∈ mods d' /\ mid q' = mid q).
Proof.
  intros Hd. apply svc_mbind, svc_orElse, db_SelectFirst; [by left|]. intros m Hm Hid%Z.eqb_eq. cbn in Hid.
  apply svc_mbind, svc_orElse, commit_transaction; [by left|].
  eapply (c_mono _ _ (fun d' _ => tree_ok d' /\ rest d' = rest d /\ (paths_ok d -> paths_ok d') /\
    forall q, q ∈ mods d -> exists q', q' ∈ mods d' /\ mid q' = mid q)).
  { pose proof (update_tx_commits (X := X) m id name sort d Hd) as Hc. intros s Hs. specialize (Hc s Hs). unfold wp in *.
    destruct (update_tx m id name sort s) as [[s' [a|e]]|] eqn:E; [|done..]. destruct Hc as (? & ? & Hk). split; [done|]. split; [done|].
    split; [|exact Hk]. intros Hp. pose proof (update_tx_paths (X := X) m id name sort d Hd Hp Hm Hid s Hs) as Hc. unfold wp in Hc.
    by rewrite E in Hc. }
  intros d' [] Hd'. by apply svc_orElse, db_SelectFirst; intros; right.
Qed.
End requests.
