(* ===== verification/Accounts.v ===== *)
(** * Roles, users and authentication

    apiserver/pkg/service/role.go, user.go, auth.go and jwt.go, with the repositories
    they call and the hooks of model/user.go.  [Bcrypt] and [Jwt] are the libraries for
    passwords and tokens. *)

From S2P Require Import Prelude GoRuntime Wp Store StoreLogic Errors Service Org Modules.

(** ** model/permission.go *)

Definition RoleAdmin : string := "admin".
Definition RoleMember : string := "member".
Definition RoleGuest : string := "guest".
Definition EffectAllow : string := "allow".
Definition EffectDeny : string := "deny".

Definition allow (resource action : string) : string * string * string := (resource, action, EffectAllow).
(** Resource, action and effect of the permissions of a role. *)
Definition PredefinedPermissions (role : string) : list (string * string * string) :=
  if String.eqb role RoleAdmin then [allow "*" "*"]
  else if String.eqb role RoleMember then
    [allow "application" "*"; allow "workspace" "*"; allow "module" "read"; allow "project" "*"; allow "user" "read"; allow "role" "read"]
  else if String.eqb role RoleGuest then [allow "application" "read"; allow "workspace" "read"; allow "*" "read"]
  else [].

Definition MatchPermission (ruleResource ruleAction reqResource reqAction : string) : bool :=
  (String.eqb ruleResource "*" || String.eqb ruleResource reqResource) && (String.eqb ruleAction "*" || String.eqb ruleAction reqAction).

(** ** service/role.go *)

Section roles.
Context {X : Type} `{Ambient}.

Abbreviation step := (action (dbstore org X)).
Abbreviation svc := (svc org X).

Definition role_named (name : string) (r : Role) : bool := String.eqb (r_Name r) name.
Definition of_role (id : Z) (p : Permission) : bool := pm_RoleID p =? id.

Definition GetRoleByName (name : string) : step Role := SelectFirst (role_named name).
Definition GetPermissionsByRoleID (id : Z) : step (list Permission) := SelectAll (of_role id).
Definition CountPermissionsByRoleID (id : Z) : step Z := SelectCount (of_role id).

Definition ListRoles : svc (list Role) := orElse (SelectAll (fun _ : Role => true)) Internal.

Definition not_found_code (code : Z) (err : string) : error :=
  if String.eqb err ErrRecordNotFound then New code "" else Internal err.
Definition GetRole (id : Z) : svc Role := orElse (Org.GetByID id) (not_found_code CodeRoleNotFound).

Definition GetPermissions (id : Z) : svc (list Permission) :=
  _ ← orElse (Org.GetByID (Row := Role) id) Plain;
  orElse (GetPermissionsByRoleID id) Internal.

Definition init_role (roleName : string) : step () :=
  r ← attempt (GetRoleByName roleName);
  role ← match r with
         | Ok role => mret role
         | Err e => if String.eqb e ErrRecordNotFound then Insert (mkRole no_base roleName) else fail e
         end;
  count ← CountPermissionsByRoleID (ID (r_Base role));
  if count =? 0 then
    for_each (fun p : string * string * string =>
      _ ← Insert (mkPermission no_base (ID (r_Base role)) p.1.1 p.1.2 p.2); mret tt) (PredefinedPermissions roleName)
  else mret tt.

Definition InitRoles : svc () := orElse (transaction (for_each init_role [RoleAdmin; RoleMember; RoleGuest])) Plain.

(** The loop of [CheckPermission]: a match that denies ends it. *)
Fixpoint permission_loop (allowed : bool) (resource action : string) (perms : list Permission) : bool :=
  match perms with
  | [] => allowed
  | p :: perms =>
      if MatchPermission (Resource p) (Action p) resource action then
        if String.eqb (Effect p) EffectDeny then false else permission_loop true resource action perms
      else permission_loop allowed resource action perms
  end.

Definition CheckPermission (roleID : Z) (resource action : string) : svc bool :=
  perms ← orElse (GetPermissionsByRoleID roleID) Internal;
  mret (permission_loop false resource action perms).
End roles.

(** ** model/user.go *)

(** golang.org/x/crypto/bcrypt; the number stands for the salt. *)
Class Bcrypt := {
  GenerateFromPassword : nat -> string -> res string;
  CompareHashAndPassword : string -> string -> bool;
}.
Class BcryptLaws (B : Bcrypt) : Prop := {
  bcrypt_matches : forall n p h, GenerateFromPassword n p = Ok h -> CompareHashAndPassword h p = true;
  bcrypt_prefix : forall n p h, GenerateFromPassword n p = Ok h -> String.prefix "$2a$" h = true;
}.

(** github.com/golang-jwt/jwt; the times are seconds. *)
Record Claims := mkClaims {
  c_UserID : Z; c_Username : string; c_RoleID : Z; c_RoleName : string; ExpiresAt : Z; IssuedAt : Z; NotBefore : Z;
  Issuer : string; Subject : string }.
Class Jwt := {
  SignedString : string -> Claims -> res string;            (* with HS256 and a secret *)
  ParseWithClaims : string -> Z -> string -> res Claims;    (* with a secret, at a time in nanoseconds *)
}.
Definition second : Z := 1000000000.
Class JwtLaws (J : Jwt) : Prop := {
  jwt_parse : forall secret c t now, SignedString secret c = Ok t -> NotBefore c * second <= now < ExpiresAt c * second ->
    ParseWithClaims secret now t = Ok c;
  jwt_expired : forall secret now t c, ParseWithClaims secret now t = Ok c -> now < ExpiresAt c * second;
}.

(** The LIKE of the database. *)
Class SqlLike := { like : string -> string -> bool }.

(** ** service/jwt.go *)

Record JWTService := mkJWTService { secret : string; expireDuration : Z; resetExpireDuration : Z }.

(** [jwt.NewNumericDate] truncates to seconds. *)
Definition NumericDate (t : Z) : Z := t / second.

Definition claims_at (s : JWTService) (now userID : Z) (username : string) (roleID : Z) (roleName : string) : Claims :=
  mkClaims userID username roleID roleName (NumericDate (now + expireDuration s)) (NumericDate now) (NumericDate now) "kumquat-api" username.

Section users.
Context {X : Type} `{Ambient, Bcrypt, Jwt, SqlLike}.

Abbreviation step := (action (dbstore org X)).
Abbreviation svc := (svc org X).

Definition GenerateToken (s : JWTService) (userID : Z) (username : string) (roleID : Z) (roleName : string) : step string :=
  now ← Now; of_res (SignedString (secret s) (claims_at s now userID username roleID roleName)).
Definition ParseToken (s : JWTService) (tokenString : string) : step Claims :=
  now ← Now; of_res (ParseWithClaims (secret s) now tokenString).

Definition with_password (h : string) (u : User) : User :=
  mkUser (u_Base u) (Username u) (Email u) h (Nickname u) (u_RoleID u) (u_ModuleID u).
Definition generate (password : string) : step string := fun s => Ret (tick s, GenerateFromPassword (g_clock s) password).

Definition hashPasswordIfNeeded (u : User) : step User :=
  if negb (String.eqb (Password u) "") && negb (String.prefix "$2a$" (Password u))
  then h ← generate (Password u); mret (with_password h u)
  else mret u.
Definition CheckPassword (u : User) (password : string) : bool := CompareHashAndPassword (Password u) password.

(** ** repository/user.go *)

Definition username_is (name : string) (u : User) : bool := String.eqb (Username u) name.
Definition email_is (email : string) (u : User) : bool := String.eqb (Email u) email.
Definition has_role (id : Z) (u : User) : bool := u_RoleID u =? id.

Definition GetByUsername (name : string) : step User := SelectFirst (username_is name).
Definition GetByEmail (email : string) : step User := SelectFirst (email_is email).
Definition ExistsByUsername (name : string) : step bool := n ← SelectCount (username_is name); mret (0 <? n).
Definition ExistsByEmail (email : string) : step bool := n ← SelectCount (email_is email); mret (0 <? n).
Definition CountByRoleID (id : Z) : step Z := SelectCount (has_role id).

(** Users with their roles and modules. *)
Record UserView := mkView { v_User : User; v_Role : option Role; v_Module : option Module_ }.
Definition load_users (us : list User) : step (list UserView) :=
  roles ← preload (u_RoleID <$> us);
  mods ← preload (omap u_ModuleID us);
  mret ((fun u => mkView u (roles (u_RoleID u)) (u_ModuleID u ≫= mods)) <$> us).
Definition GetUserByID (id : Z) : step UserView :=
  u ← Org.GetByID id;
  roles ← preload [u_RoleID u];
  mods ← preload (option_list (u_ModuleID u));
  mret (mkView u (roles (u_RoleID u)) (u_ModuleID u ≫= mods)).
Definition page_of (p : User -> bool) (page size : Z) : step (list UserView * Z) :=
  total ← SelectCount p;
  us ← SelectAll p;
  vs ← load_users (paginate page size us);
  mret (vs, total).
Definition matches_keyword (keyword : string) (u : User) : bool :=
  let pattern := "%" +:+ keyword +:+ "%" in like pattern (Username u) || like pattern (Email u) || like pattern (Nickname u).

(** [Model(user).Updates(...)] runs the hook on the row that was read. *)
Definition update_user (u : User) (change : User -> User) : step () :=
  _ ← hashPasswordIfNeeded u;
  _ ← UpdateWhere (has_id (ID (u_Base u))) change; mret tt.
Definition create_user (u : User) : step User := u ← hashPasswordIfNeeded u; Insert u.

(** ** service/user.go *)

Definition ListUsers (page size : Z) : svc (list UserView * Z) := orElse (page_of (fun _ => true) page size) Internal.

Definition scope_root (modulePublicID : string) : step Module_ := SelectFirst (public_is modulePublicID).

Definition ListUsersScoped (modulePublicID : string) (page size : Z) : svc (list UserView * Z) :=
  root ← orElse (scope_root modulePublicID) module_not_found;
  ids ← orElse (descendantModuleIDs (ID (m_Base root))) Internal;
  orElse (page_of (user_of_module ids) page size) Internal.

Definition CanAccessUser (modulePublicID : string) (userID : Z) : svc bool :=
  root ← orElse (scope_root modulePublicID) Plain;
  ids ← orElse (descendantModuleIDs (ID (m_Base root))) Plain;
  count ← orElse (SelectCount (fun u : User => has_id userID u && user_of_module ids u)) Plain;
  mret (count =? 1).

Definition GetUser (id : Z) : svc UserView := orElse (GetUserByID id) (not_found_code CodeUserNotFound).

(** A module the caller names must be there. *)
Definition require_module (moduleID : option Z) : svc () :=
  match moduleID with
  | None => mret tt
  | Some m =>
      count ← orElse (SelectCount (has_id (Row := Module_) m)) Internal;
      if count =? 0 then throw (New CodeModuleNotFound "") else mret tt
  end.
Definition require_role (roleID : Z) : svc () :=
  _ ← orElse (Org.GetByID (Row := Role) roleID) (fun _ => New CodeRoleNotFound ""); mret tt.
Definition require_new (username email : string) : svc () :=
  taken ← orElse (ExistsByUsername username) Internal;
  if (taken : bool) then throw (New CodeUsernameExists "") else
  taken ← orElse (ExistsByEmail email) Internal;
  if (taken : bool) then throw (New CodeEmailExists "") else mret tt.

Definition CreateUser (username email password nickname : string) (roleID : Z) (moduleID : option Z) : svc UserView :=
  _ ← require_new username email;
  _ ← require_role roleID;
  _ ← require_module moduleID;
  u ← orElse (transaction (create_user (mkUser no_base username email password nickname roleID moduleID))) Internal;
  orElse (GetUserByID (ID (u_Base u))) Plain.

Definition set_user (nickname : string) (roleID : Z) (moduleID : option Z) (u : User) : User :=
  mkUser (u_Base u) (Username u) (Email u) (Password u) (if String.eqb nickname "" then Nickname u else nickname)
    (if 0 <? roleID then roleID else u_RoleID u) (match moduleID with Some m => Some m | None => u_ModuleID u end).

Definition UpdateUser (id : Z) (nickname : string) (roleID : Z) (moduleID : option Z) : svc UserView :=
  v ← orElse (GetUserByID id) (fun _ => New CodeUserNotFound "");
  _ ← (if 0 <? roleID then require_role roleID else mret tt : svc ());
  _ ← require_module moduleID;
  _ ← orElse (transaction (update_user (v_User v) (set_user nickname roleID moduleID))) Internal;
  orElse (GetUserByID id) Plain.

Definition admin_role_id : Z := 1.

(** What [Delete] looks at before it deletes. *)
Definition delete_user_check (id : Z) : svc () :=
  v ← orElse (GetUserByID id) (fun _ => New CodeUserNotFound "");
  if u_RoleID (v_User v) =? admin_role_id then
    count ← orElse (CountByRoleID admin_role_id) Internal;
    if count <=? 1 then throw (New CodeLastAdmin "") else mret tt
  else mret tt.
Definition DeleteUser (id : Z) : svc () :=
  _ ← delete_user_check id;
  orElse (DeleteByID (Row := User) id) Internal.

Definition SearchUsers (keyword : string) (page size : Z) : svc (list UserView * Z) :=
  orElse (page_of (matches_keyword keyword) page size) Internal.

(** ** service/auth.go *)

Definition Login (s : JWTService) (username password : string) : svc (string * UserView) :=
  u ← orElse (GetByUsername username) (fun e =>
    if String.eqb e ErrRecordNotFound then New CodeInvalidPassword "invalid username or password" else Internal e);
  if negb (CheckPassword u password) then throw (New CodeInvalidPassword "invalid username or password") else
  roles ← orElse (preload (Row := Role) [u_RoleID u]) Internal;
  token ← orElse (GenerateToken s (ID (u_Base u)) (Username u) (u_RoleID u) (match roles (u_RoleID u) with Some r => r_Name r | None => "" end)) Internal;
  mret (token, mkView u (roles (u_RoleID u)) None).

Definition Register (username email password nickname : string) : svc UserView :=
  _ ← require_new username email;
  r ← orElse (transaction (
        role ← SelectFirst (role_named RoleGuest);
        u ← create_user (mkUser no_base username email password nickname (ID (r_Base role)) None);
        mret (u, role))) Internal;
  mret (mkView r.1 (Some r.2) None).

Definition ChangePassword (userID : Z) (oldPassword newPassword : string) : svc () :=
  v ← orElse (GetUserByID userID) (fun _ => New CodeUserNotFound "");
  if negb (CheckPassword (v_User v) oldPassword) then throw (New CodeInvalidPassword "incorrect old password") else
  orElse (transaction (u ← hashPasswordIfNeeded (with_password newPassword (v_User v)); Save u)) Internal.

Definition InitAdminUser (username email password : string) : svc () :=
  if String.eqb username "" || String.eqb password "" then throw (Plain "bootstrap admin username and password are required") else
  adminRole ← orElse (GetRoleByName RoleAdmin) (fun e => Plain ("admin role not found: " +:+ e));
  r ← orElse (attempt (GetByUsername username)) Plain;
  match r with
  | Ok _ => throw (Plain "bootstrap admin username already exists; refusing to promote a preclaimed account")
  | Err e =>
      if negb (String.eqb e ErrRecordNotFound) then throw (Plain ("failed to check admin user: " +:+ e)) else
      _ ← orElse (transaction (create_user (mkUser no_base username email password "Administrator" (ID (r_Base adminRole)) None)))
            (fun e => Plain ("failed to create admin user: " +:+ e));
      mret tt
  end.

(** cmd/server/main.go: the user the environment asks for. *)
Definition bootstrap (username email password : string) : svc () :=
  if String.eqb password "" then mret tt else
  let username := if String.eqb username "" then "admin" else username in
  let email := if String.eqb email "" then username +:+ "@kumquat.local" else email in
  existing ← orElse (attempt (GetByUsername username)) Plain;
  match existing with
  | Err e =>
      if String.eqb e ErrRecordNotFound then InitAdminUser username email password
      else throw (Plain ("failed to inspect configured admin user: " +:+ e))
  | Ok u =>
      r ← orElse (attempt (GetRoleByName RoleAdmin)) Plain;
      match r with
      | Ok adminRole =>
          if negb (u_RoleID u =? ID (r_Base adminRole)) || negb (String.eqb (Email u) email)
          then throw (Plain "configured bootstrap username is already claimed by another identity") else mret tt
      | Err _ => throw (Plain "configured bootstrap username is already claimed by another identity")
      end
  end.
End users.
