(* ===== verification/Projects.v ===== *)
(** * The project service

    apiserver/pkg/service/project.go and repository/project.go. *)

From S2P Require Import Prelude GoRuntime Json Wp Store StoreLogic Errors Service Org Modules Accounts.
From S2P Require PortalStore Gateway.

Section projects.
Context {X : Type} `{GoRuntime, Ambient}.

Abbreviation step := (action (dbstore org X)).
Abbreviation svc := (svc org X).

(** A project with its module. *)
Record ProjectView := mkView { v_Project : Project; v_Module : option Module_ }.

Definition project_named (id : string) (p : Project) : bool := String.eqb (p_PublicID p) id.
Definition newest_first (p q : Project) : bool := CreatedAt (p_Base q) <? CreatedAt (p_Base p).

(** ** repository/project.go *)

Definition load_module (p : Project) : step ProjectView :=
  mods ← preload [p_ModuleID p]; mret (mkView p (mods (p_ModuleID p))).
Definition load_modules (ps : list Project) : step (list ProjectView) :=
  mods ← preload (p_ModuleID <$> ps); mret ((fun p => mkView p (mods (p_ModuleID p))) <$> ps).
Definition GetProjectByID (id : Z) : step ProjectView := p ← Org.GetByID id; load_module p.
(** The projects where [p] holds, in an order. *)
Definition project_page (p : Project -> bool) (order : list Project -> list Project) (page size : Z) : step (list ProjectView * Z) :=
  total ← SelectCount p;
  ps ← SelectAll p;
  vs ← load_modules (paginate page size (order ps));
  mret (vs, total).
Definition ListByModuleID (moduleID : Z) (page size : Z) : step (list ProjectView * Z) :=
  project_page (fun p => p_ModuleID p =? moduleID) id page size.
Definition ExistsModule (moduleID : Z) : step bool := count ← SelectCount (has_id (Row := Module_) moduleID); mret (0 <? count).

(** ** service/project.go *)

Definition ListProjects (page size : Z) : svc (list ProjectView * Z) :=
  orElse (project_page (fun _ => true) (go_sort newest_first) page size) Internal.

Definition scopedModuleIDs (publicID : string) : svc (list Z) :=
  root ← orElse (scope_root publicID) module_not_found;
  orElse (descendantModuleIDs (ID (m_Base root))) Internal.

Definition ListProjectsScoped (modulePublicID : string) (page size : Z) : svc (list ProjectView * Z) :=
  ids ← scopedModuleIDs modulePublicID;
  orElse (project_page (project_of_module ids) (go_sort newest_first) page size) Internal.

Definition CanAccessProject (modulePublicID projectPublicID : string) : svc bool :=
  ids ← scopedModuleIDs modulePublicID;
  count ← orElse (SelectCount (fun p => project_named projectPublicID p && project_of_module ids p)) Plain;
  mret (count =? 1).

Definition project_not_found (err : string) : error := New CodeProjectNotFound "".
Definition GetProject (id : Z) : svc ProjectView := orElse (GetProjectByID id) (not_found_code CodeProjectNotFound).
Definition GetProjectByPublicID (id : string) : svc ProjectView :=
  orElse (p ← SelectFirst (project_named id); load_module p) project_not_found.

(** The hook [BeforeCreate] gives the project its public identifier. *)
Definition create_project (p : Project) : step Project :=
  public ← (if String.eqb (p_PublicID p) "" then newPublicID "project" else mret (p_PublicID p));
  Insert (mkProject (p_Base p) public (p_Name p) (p_ModuleID p) (p_Config p)).

Definition CreateProject (name : string) (moduleID : Z) (config : option (gmap string json)) : svc ProjectView :=
  found ← orElse (ExistsModule moduleID) Internal;
  if negb found then throw (New CodeModuleNotFound "") else
  p ← orElse (transaction (create_project (mkProject no_base "" name moduleID config))) Internal;
  orElse (GetProjectByID (ID (p_Base p))) Plain.

Definition CreateWithModulePublicID (name moduleID : string) (config : option (gmap string json)) : svc ProjectView :=
  m ← orElse (scope_root moduleID) module_not_found;
  CreateProject name (ID (m_Base m)) config.

Definition set_project (name : string) (config : option (gmap string json)) (p : Project) : Project :=
  mkProject (p_Base p) (p_PublicID p) (if String.eqb name "" then p_Name p else name) (p_ModuleID p)
    (match config with Some c => Some c | None => p_Config p end).

Definition UpdateWithModule (id : Z) (name : string) (moduleID : Z) (config : option (gmap string json)) : svc ProjectView :=
  v ← orElse (GetProjectByID id) project_not_found;
  if negb (moduleID =? 0) && negb (moduleID =? p_ModuleID (v_Project v))
  then throw (New CodeConflict "project module association is immutable") else
  _ ← orElse (UpdateWhere (has_id (ID (p_Base (v_Project v)))) (set_project name config)) Internal;
  orElse (GetProjectByID id) Plain.
Definition UpdateProject (id : Z) (name : string) (config : option (gmap string json)) : svc ProjectView := UpdateWithModule id name 0 config.

Definition UpdateProjectByPublicID (id name moduleID : string) (config : option (gmap string json)) : svc ProjectView :=
  v ← GetProjectByPublicID id;
  if negb (String.eqb moduleID "") && negb (String.eqb moduleID (match v_Module v with Some m => m_PublicID m | None => "" end))
  then throw (New CodeConflict "project module association is immutable") else
  UpdateProject (ID (p_Base (v_Project v))) name config.

(** A workspace of the project that is not archived. *)
Definition workspace_of (id : Z) (r : PortalStore.ResourceRecord) : bool :=
  String.eqb (PortalStore.Kind (PortalStore.r_Identity r)) Gateway.ResourceWorkspace &&
  match PortalStore.ProjectID (PortalStore.r_Owner r) with Some p => p =? id | None => false end && Gateway.resourceActive r.

(** The table of the resource gateway; its rows have no soft delete. *)
Definition resources_table : tableOf org PortalStore.ResourceRecord := {|
  rows := resources;
  put_rows l d := mkOrg (modules d) (projects d) (users d) (roles d) (permissions d) l;
  clash := clash PortalStore.records_table;
  row_before := row_before PortalStore.records_table |}.

(** What [Delete] looks at before it deletes. *)
Definition delete_project_check (id : Z) : svc () :=
  _ ← orElse (GetProjectByID id) project_not_found;
  workspaces ← orElse (Count resources_table (workspace_of id)) Internal;
  if 0 <? workspaces then throw (New CodeConflict "project is still referenced by workspaces") else mret tt.
Definition DeleteProject (id : Z) : svc () :=
  _ ← delete_project_check id;
  orElse (DeleteByID (Row := Project) id) Internal.
Definition DeleteProjectByPublicID (id : string) : svc () :=
  v ← GetProjectByPublicID id;
  DeleteProject (ID (p_Base (v_Project v))).

Definition ListByModulePublicID (moduleID : string) (page size : Z) : svc (list ProjectView * Z) :=
  m ← orElse (scope_root moduleID) module_not_found;
  orElse (ListByModuleID (ID (m_Base m)) page size) Internal.
End projects.
