(* ===== verification/OrgSpec.v ===== *)
(** * The organisation as a whole

    [org_ok]: the modules are a tree with right paths; a project, and a user who has a
    module, refer to a module that is not deleted, a user to a role that is not deleted;
    and no password is stored as it was given.  Each request of the services that runs
    alone ends and keeps it, whatever the database does. *)

From S2P Require Import Prelude GoRuntime Json Wp Store StoreLogic Errors Service Org OrgLogic Modules ModuleTree ModulePaths ModuleForest ModuleSpec Accounts Projects.

(** A password that is empty or looks like a hash. *)
Definition hashed (p : string) : Prop := p = "" \/ String.prefix "$2a$" p = true.

Definition project_ok (d : org) (p : Project) : Prop := exists m, m ∈ mods d /\ mid m = p_ModuleID p.
Definition user_ok (d : org) (u : User) : Prop :=
  (exists r, r ∈ here (Row := Role) d /\ ID (r_Base r) = u_RoleID u) /\
  match u_ModuleID u with Some z => exists m, m ∈ mods d /\ mid m = z | None => True end.

Record org_ok (d : org) : Prop := {
  org_tree : tree_ok d;
  org_paths : paths_ok d;
  org_projects : forall p, p ∈ here d -> project_ok d p;
  org_users : forall u, u ∈ here d -> user_ok d u;
  org_passwords : forall u, u ∈ users d -> hashed (Password u);
  org_project_index : clash_free (clash TableName) (projects d) = true;
  org_user_index : clash_free (clash TableName) (users d) = true;
  org_role_index : clash_free (clash TableName) (roles d) = true;
}.

(** ** The requests *)

Inductive org_request :=
  | ListModulesR | ListModulesScopedR (root : string) | CanAccessModuleR (root target : string) | GetModuleR (id : string)
  | GetChildrenR (id : string) | CreateModuleR (name : string) (parent : option string) (sort : Z)
  | UpdateModuleR (id name : string) (sort : Z) | DeleteModuleR (id : string)
  | ListProjectsR (page size : Z) | ListProjectsScopedR (root : string) (page size : Z) | CanAccessProjectR (root id : string)
  | GetProjectR (id : string) | CreateProjectR (name module_ : string) (config : option (gmap string json))
  | UpdateProjectR (id name module_ : string) (config : option (gmap string json)) | DeleteProjectR (id : string)
  | ListByModuleR (id : string) (page size : Z)
  | ListUsersR (page size : Z) | ListUsersScopedR (root : string) (page size : Z) | CanAccessUserR (root : string) (id : Z)
  | GetUserR (id : Z) | SearchUsersR (keyword : string) (page size : Z)
  | CreateUserR (username email password nickname : string) (role : Z) (module_ : option Z)
  | UpdateUserR (id : Z) (nickname : string) (role : Z) (module_ : option Z) | DeleteUserR (id : Z)
  | ListRolesR | GetRoleR (id : Z) | GetPermissionsR (id : Z) | CheckPermissionR (role : Z) (resource action : string) | InitRolesR
  | LoginR (s : JWTService) (username password : string) | RegisterR (username email password nickname : string)
  | ChangePasswordR (id : Z) (old new : string) | BootstrapR (username email password : string).

Section requests.
Context {X : Type} `{GoRuntime, Ambient, Bcrypt, Jwt, SqlLike}.

Abbreviation svc := (svc org X).

Definition ignore {A} (m : svc A) : svc () := _ ← m; mret tt.

Definition serve (r : org_request) : svc () :=
  match r with
  | ListModulesR => ignore List_
  | ListModulesScopedR root => ignore (ListScoped root)
  | CanAccessModuleR root target => ignore (CanAccess root target)
  | GetModuleR id => ignore (GetByPublicID id)
  | GetChildrenR id => ignore (GetChildrenByPublicID id)
  | CreateModuleR name parent sort => ignore (CreateWithParentPublicID name parent sort)
  | UpdateModuleR id name sort => ignore (UpdateByPublicID id name sort)
  | DeleteModuleR id => DeleteByPublicID id
  | ListProjectsR page size => ignore (ListProjects page size)
  | ListProjectsScopedR root page size => ignore (ListProjectsScoped root page size)
  | CanAccessProjectR root id => ignore (CanAccessProject root id)
  | GetProjectR id => ignore (GetProjectByPublicID id)
  | CreateProjectR name m config => ignore (CreateWithModulePublicID name m config)
  | UpdateProjectR id name m config => ignore (UpdateProjectByPublicID id name m config)
  | DeleteProjectR id => DeleteProjectByPublicID id
  | ListByModuleR id page size => ignore (ListByModulePublicID id page size)
  | ListUsersR page size => ignore (ListUsers page size)
  | ListUsersScopedR root page size => ignore (ListUsersScoped root page size)
  | CanAccessUserR root id => ignore (CanAccessUser root id)
  | GetUserR id => ignore (GetUser id)
  | SearchUsersR keyword page size => ignore (SearchUsers keyword page size)
  | CreateUserR u e p n role m => ignore (CreateUser u e p n role m)
  | UpdateUserR id n role m => ignore (UpdateUser id n role m)
  | DeleteUserR id => DeleteUser id
  | ListRolesR => ignore ListRoles
  | GetRoleR id => ignore (GetRole id)
  | GetPermissionsR id => ignore (GetPermissions id)
  | CheckPermissionR role resource action => ignore (CheckPermission role resource action)
  | InitRolesR => InitRoles
  | LoginR s u p => ignore (Login s u p)
  | RegisterR u e p n => ignore (Register u e p n)
  | ChangePasswordR id old new => ChangePassword id old new
  | BootstrapR u e p => bootstrap u e p
  end.

(** ** Reading requests *)

(** A call that ends on a tree and changes nothing. *)
Definition quiet {A} (m : svc A) : Prop := forall d, tree_ok d -> svc_spec m d (fun d' _ => d' = d).

Lemma quiet_by_reads {A} (m : svc A) : svc_reads m -> quiet m.
Proof. intros Hm d _. apply Hm. Qed.
Lemma quiet_bind {A B} (m : svc A) (f : A -> svc B) : quiet m -> (forall a, quiet (f a)) -> quiet (m ≫= f).
Proof.
  intros Hm Hf d Hd. apply svc_mbind. eapply svc_mono; [by apply Hm|]. intros d' [e|a] ->; [done|by apply Hf].
Qed.
Lemma quiet_descendants root f : quiet (orElse (descendantModuleIDs root) f).
Proof. intros d Hd. apply svc_orElse. eapply db_mono; [by apply descendants_spec|]. by intros d' [ids|e] [-> _]. Qed.
Lemma quiet_ignore {A} (m : svc A) : quiet m -> quiet (ignore m).
Proof. intros Hm. apply quiet_bind; [done|]. intros a. apply quiet_by_reads, svc_reads_ret. Qed.

Lemma reads_load_users us : reads (X := X) (load_users us).
Proof. unfold load_users. solve_reads. Qed.
Lemma reads_GetUserByID id : reads (X := X) (GetUserByID id).
Proof. unfold GetUserByID. solve_reads. Qed.
Lemma reads_page_of p page size : reads (X := X) (page_of p page size).
Proof. unfold page_of. apply reads_bind; [apply reads_SelectCount|intros]. apply reads_bind; [apply reads_SelectAll|intros]. apply reads_bind; [apply reads_load_users|intros]. apply reads_ret. Qed.
Lemma reads_load_module p : reads (X := X) (load_module p).
Proof. unfold load_module. solve_reads. Qed.
Lemma reads_GetProjectByID id : reads (X := X) (GetProjectByID id).
Proof. unfold GetProjectByID. apply reads_bind; [apply reads_GetByID|intros; apply reads_load_module]. Qed.
Lemma reads_project_page p order page size : reads (X := X) (project_page p order page size).
Proof. unfold project_page, load_modules. solve_reads. Qed.
Lemma reads_scope_root id : reads (X := X) (scope_root id).
Proof. apply reads_SelectFirst. Qed.
Lemma svc_reads_GetByPublicID id : svc_reads (X := X) (GetByPublicID id).
Proof. unfold GetByPublicID. solve_svc_reads. Qed.
Lemma svc_reads_GetProjectByPublicID id : svc_reads (X := X) (GetProjectByPublicID id).
Proof. unfold GetProjectByPublicID. apply svc_reads_orElse, reads_bind; [apply reads_SelectFirst|intros; apply reads_load_module]. Qed.
Lemma quiet_scopedModuleIDs id : quiet (scopedModuleIDs id).
Proof. apply quiet_bind; [apply quiet_by_reads, svc_reads_orElse, reads_scope_root|]. intros m. apply quiet_descendants. Qed.
Lemma svc_reads_require_module m : svc_reads (X := X) (require_module m).
Proof. unfold require_module. solve_svc_reads. Qed.
Lemma svc_reads_require_role r : svc_reads (X := X) (require_role r).
Proof. unfold require_role. solve_svc_reads. Qed.
Lemma reads_ExistsBy p : reads (X := X) (n ← SelectCount (Row := User) p; mret (0 <? n)).
Proof. solve_reads. Qed.
Lemma svc_reads_require_new u e : svc_reads (X := X) (require_new u e).
Proof.
  unfold require_new. apply svc_reads_bind; [apply svc_reads_orElse, reads_ExistsBy|]. intros [|]; [apply svc_reads_throw|].
  apply svc_reads_bind; [apply svc_reads_orElse, reads_ExistsBy|]. intros [|]; [apply svc_reads_throw|apply svc_reads_ret].
Qed.
#[local] Hint Resolve reads_load_users reads_GetUserByID reads_page_of reads_load_module reads_GetProjectByID reads_project_page
  reads_scope_root svc_reads_GetByPublicID svc_reads_GetProjectByPublicID : reads.

Ltac solve_quiet := repeat first
  [ apply quiet_descendants | apply quiet_scopedModuleIDs | apply quiet_by_reads; solve [solve_svc_reads] | progress intros
  | apply quiet_bind
  | match goal with |- quiet (match ?x with _ => _ end) => destruct x end
  | match goal with |- quiet (if ?x then _ else _) => destruct x end ].

Definition reading (r : org_request) : bool :=
  match r with
  | CreateModuleR _ _ _ | UpdateModuleR _ _ _ | DeleteModuleR _ | CreateProjectR _ _ _ | UpdateProjectR _ _ _ _ | DeleteProjectR _
  | CreateUserR _ _ _ _ _ _ | UpdateUserR _ _ _ _ | DeleteUserR _ | InitRolesR | RegisterR _ _ _ _ | ChangePasswordR _ _ _
  | BootstrapR _ _ _ => false
  | _ => true
  end.

Lemma reading_quiet r : reading r = true -> quiet (serve r).
Proof.
  destruct r; intros Hr; try discriminate Hr; cbn [serve]; apply quiet_ignore; unfold List_, ListScoped, CanAccess, GetChildrenByPublicID,
    GetChildren, Modules.GetByID, ListProjects, ListProjectsScoped, CanAccessProject, ListByModulePublicID, ListByModuleID, ListUsers,
    ListUsersScoped, CanAccessUser, GetUser, SearchUsers, ListRoles, GetRole, GetPermissions, CheckPermission, GetPermissionsByRoleID,
    Login, GetByUsername, GenerateToken; solve_quiet.
Qed.
(** ** Changes of one table *)

Lemma paths_modules d d' : paths_ok d -> modules d' = modules d -> paths_ok d'.
Proof.
  intros Hp E m Hm. rewrite (mods_same _ _ E) in Hm. specialize (Hp m Hm). unfold path_ok in *. destruct (m_ParentID m); [|done].
  intros q Hq. rewrite (mods_same _ _ E) in Hq. by apply Hp.
Qed.

Lemma projects_clash_sym p q : clash (TableName (Row := Project)) p q = clash TableName q p.
Proof. cbn. unfold same_id. by rewrite Z.eqb_sym, String.eqb_sym. Qed.
Lemma users_clash_sym u v : clash (TableName (Row := User)) u v = clash TableName v u.
Proof. cbn. unfold same_id. by rewrite Z.eqb_sym, (String.eqb_sym (Username u)), (String.eqb_sym (Email u)). Qed.
Lemma roles_clash_sym r q : clash (TableName (Row := Role)) r q = clash TableName q r.
Proof. cbn. unfold same_id. by rewrite Z.eqb_sym, String.eqb_sym. Qed.

Lemma org_put_users d l : org_ok d -> (forall u, u ∈ l -> live u = true -> user_ok d u) -> (forall u, u ∈ l -> hashed (Password u)) ->
  clash_free (clash TableName) l = true -> org_ok (put_rows TableName l d).
Proof.
  intros Hd Hl Hh Hi. split; [by apply (tree_modules d); [apply Hd|]|by apply (paths_modules d); [apply Hd|]|apply Hd| |exact Hh|apply Hd|exact Hi|apply Hd].
  intros u [Hu Hlive]%here_elem. by apply Hl.
Qed.
Lemma org_put_projects d l : org_ok d -> (forall p, p ∈ l -> live p = true -> project_ok d p) -> clash_free (clash TableName) l = true ->
  org_ok (put_rows TableName l d).
Proof.
  intros Hd Hl Hi. split; [by apply (tree_modules d); [apply Hd|]|by apply (paths_modules d); [apply Hd|]| |apply Hd|apply Hd|exact Hi|apply Hd..].
  intros p [Hp Hlive]%here_elem. by apply Hl.
Qed.
Lemma org_put_permissions d (l : list Permission) : org_ok d -> org_ok (put_rows TableName l d).
Proof. intros Hd. split; [by apply (tree_modules d); [apply Hd|]|by apply (paths_modules d); [apply Hd|]|apply Hd..]. Qed.
Lemma org_add_role d (r : Role) : org_ok d -> existsb (clash TableName r) (roles d) = false -> org_ok (put_rows TableName (roles d ++ [r]) d).
Proof.
  intros Hd Hc. split; [by apply (tree_modules d); [apply Hd|]|by apply (paths_modules d); [apply Hd|]|apply Hd| |apply Hd|apply Hd|apply Hd|].
  - intros u Hu. destruct (org_users _ Hd u Hu) as [(q & Hq & E) Hm]. split; [|exact Hm]. exists q. split; [|done].
    apply here_elem in Hq as [Hq Hl]. apply here_elem. split; [|done]. apply elem_of_app. by left.
  - apply clash_free_app; [apply roles_clash_sym|apply Hd|exact Hc].
Qed.

(** The modules change, but none of those that rows refer to. *)
Lemma org_put_modules d d' : org_ok d -> tree_ok d' -> paths_ok d' -> rest d' = rest d ->
  (forall m, m ∈ mods d -> (exists p, p ∈ here d /\ p_ModuleID p = mid m) \/ (exists u, u ∈ here d /\ u_ModuleID u = Some (mid m)) ->
     exists m', m' ∈ mods d' /\ mid m' = mid m) -> org_ok d'.
Proof.
  intros Hd Ht Hp Hrest Hkeep. unfold rest in Hrest. injection Hrest as Epr Eus Ero Epe Ers.
  assert (here (Row := Project) d' = here d) as Hpr by (unfold here; cbn; by rewrite Epr).
  assert (here (Row := User) d' = here d) as Hus by (unfold here; cbn; by rewrite Eus).
  assert (here (Row := Role) d' = here d) as Hro by (unfold here; cbn; by rewrite Ero).
  split; [done|done|..].
  - intros p Hin. rewrite Hpr in Hin. destruct (org_projects _ Hd p Hin) as (m & Hm & E).
    destruct (Hkeep m Hm) as (m' & Hm' & E'); [left; eauto|]. exists m'. split; [done|congruence].
  - intros u Hin. rewrite Hus in Hin. destruct (org_users _ Hd u Hin) as [Hr Hm]. split; [by rewrite Hro|].
    destruct (u_ModuleID u) as [z|] eqn:Ez; [|done]. destruct Hm as (m & Hm & <-).
    destruct (Hkeep m Hm) as (m' & Hm' & E'); [right; eauto|]. by exists m'.
  - intros u. rewrite Eus. apply Hd.
  - rewrite Epr. apply Hd.
  - rewrite Eus. apply Hd.
  - rewrite Ero. apply Hd.
Qed.

(** The deletion of rows of a table nothing refers to. *)
Lemma org_delete_users now p d : org_ok d -> clash_free (clash TableName) (changed (visible p) (removed now) (users d)) = true -> org_ok (put_rows TableName (changed (visible p) (removed now) (users d)) d).
Proof.
  intros Hd Hi. apply org_put_users; [done| | |exact Hi]; intros u (v & Hv & ->)%changed_elem.
  - destruct (visible p v) eqn:E; [done|]. intros Hl. apply (org_users _ Hd), here_elem. done.
  - assert (Password (if visible p v then removed now v else v) = Password v) as -> by by destruct (visible p v). by apply (org_passwords _ Hd).
Qed.
Lemma org_delete_projects now p d : org_ok d -> clash_free (clash TableName) (changed (visible p) (removed now) (projects d)) = true -> org_ok (put_rows TableName (changed (visible p) (removed now) (projects d)) d).
Proof.
  intros Hd Hi. apply org_put_projects; [done| |exact Hi]. intros q (v & Hv & ->)%changed_elem. destruct (visible p v) eqn:E; [done|].
  intros Hl. apply (org_projects _ Hd), here_elem. done.
Qed.
(** ** Writing requests *)

Definition keeps {A} (m : svc A) : Prop := forall d, org_ok d -> svc_spec m d (fun d' _ => org_ok d').

Lemma keeps_quiet {A} (m : svc A) : quiet m -> keeps m.
Proof. intros Hm d Hd. eapply svc_mono; [apply Hm, Hd|]. by intros d' r ->. Qed.
Lemma keeps_reads {A} (m : svc A) : svc_reads m -> keeps m.
Proof. intros Hm. by apply keeps_quiet, quiet_by_reads. Qed.
Lemma keeps_mbind {A B} (m : svc A) (f : A -> svc B) : keeps m -> (forall a, keeps (f a)) -> keeps (m ≫= f).
Proof. intros Hm Hf d Hd. apply svc_mbind. eapply svc_mono; [by apply Hm|]. intros d' [e|a] Hd'; [done|by apply Hf]. Qed.
Lemma keeps_ignore {A} (m : svc A) : keeps m -> keeps (ignore m).
Proof. intros Hm. apply keeps_mbind; [done|]. intros a. apply keeps_reads, svc_reads_ret. Qed.
Lemma keeps_transaction {A} (m : action (dbstore org X) A) f :
  (forall d, org_ok d -> commit_spec m d (fun d' _ => org_ok d')) -> keeps (orElse (transaction m) f).
Proof. intros Hm d Hd. apply svc_orElse, commit_transaction; [done|]. by apply Hm. Qed.
(** A check, and what it found. *)
Lemma keeps_checked {A B} (m : svc A) (f : A -> svc B) (P : org -> A -> Prop) :
  (forall d, org_ok d -> svc_spec m d (fun d' r => d' = d /\ match r with inr a => P d a | inl _ => True end)) ->
  (forall d a, org_ok d -> P d a -> svc_spec (f a) d (fun d' _ => org_ok d')) -> keeps (m ≫= f).
Proof. intros Hm Hf d Hd. apply svc_mbind. eapply svc_mono; [by apply Hm|]. intros d' [e|a] [-> Hr]; [done|]. by apply Hf. Qed.

Lemma require_module_spec m d : svc_spec (X := X) (require_module m) d (fun d' r => d' = d /\
  match r with inr _ => match m with Some z => exists q, q ∈ mods d /\ mid q = z | None => True end | inl _ => True end).
Proof.
  destruct m as [z|]; [|by apply svc_mret]. apply svc_mbind, svc_orElse, db_SelectCount; [done|]. destruct (_ =? 0) eqn:E.
  - by apply svc_throw.
  - apply svc_mret. split; [done|]. apply Z.eqb_neq in E. destruct (counted_elem (has_id z) (mods d)) as (q & Hq & Hid); [lia|].
    exists q. split; [done|]. by apply Z.eqb_eq.
Qed.
Lemma require_role_spec id d : svc_spec (X := X) (require_role id) d (fun d' r => d' = d /\
  match r with inr _ => exists q, q ∈ here (Row := Role) d /\ ID (r_Base q) = id | inl _ => True end).
Proof.
  apply svc_mbind, svc_orElse, db_SelectFirst; [done|]. intros q Hq Hid%Z.eqb_eq. apply svc_mret. split; [done|]. by exists q.
Qed.

Context `{!BcryptLaws H1}.

Lemma hash_spec u d : db_spec (X := X) (hashPasswordIfNeeded u) d (fun d' r => d' = d /\
  match r with Ok u' => hashed (Password u') /\ u' = with_password (Password u') u | Err _ => True end).
Proof.
  unfold hashPasswordIfNeeded. destruct (negb (String.eqb (Password u) "") && negb (String.prefix "$2a$" (Password u))) eqn:E.
  - intros s <-. apply wp_bind. unfold wp, generate. cbn. destruct (GenerateFromPassword _ _) as [h|e] eqn:Eh; [|done]. cbn.
    split; [done|]. split; [|done]. right. by eapply bcrypt_prefix.
  - apply db_ret. split; [done|]. split; [|by destruct u]. apply andb_false_iff in E as [E|E]; apply negb_false_iff in E.
    + left. by apply String.eqb_eq.
    + by right.
Qed.

Lemma create_user_keeps u d : org_ok d -> (exists q, q ∈ here (Row := Role) d /\ ID (r_Base q) = u_RoleID u) ->
  match u_ModuleID u with Some z => exists q, q ∈ mods d /\ mid q = z | None => True end ->
  commit_spec (X := X) (create_user u) d (fun d' _ => org_ok d').
Proof.
  intros Hd Hr Hm. apply c_bind. eapply db_mono; [apply hash_spec|]. intros d' [u'|e] [-> Hu]; [|done]. destruct Hu as [Hh Eu].
  apply c_Insert. intros id now row Hc. apply org_put_users; [done| | |by apply clash_free_app; [apply users_clash_sym|apply Hd|]]; intros v [Hv| ->%list_elem_of_singleton]%elem_of_app.
  - intros Hl. by apply (org_users _ Hd), here_elem.
  - intros _. unfold row. rewrite Eu. done.
  - by apply (org_passwords _ Hd).
  - exact Hh.
Qed.

Lemma keeps_create_user u f d : org_ok d -> (exists q, q ∈ here (Row := Role) d /\ ID (r_Base q) = u_RoleID u) ->
  match u_ModuleID u with Some z => exists q, q ∈ mods d /\ mid q = z | None => True end ->
  svc_spec (X := X) (orElse (transaction (create_user u)) f) d (fun d' _ => org_ok d').
Proof. intros. apply svc_orElse, commit_transaction; [done|]. by apply create_user_keeps. Qed.

Lemma keeps_GetUserByID id f : keeps (orElse (GetUserByID id) f).
Proof. apply keeps_reads, svc_reads_orElse, reads_GetUserByID. Qed.

Lemma CreateUser_keeps username email password nickname role m : keeps (CreateUser username email password nickname role m).
Proof.
  apply keeps_mbind; [apply keeps_reads, svc_reads_require_new|]. intros _. eapply keeps_checked; [intros d _; apply require_role_spec|].
  intros d [] Hd Hr. apply svc_mbind. eapply svc_mono; [apply require_module_spec|]. intros ? [e|[]] [-> Hm]; [done|].
  apply svc_mbind. eapply svc_mono; [by apply keeps_create_user|]. intros d' [e|u] Hd'; [done|]. by apply keeps_GetUserByID.
Qed.

Lemma update_user_keeps u change d : org_ok d -> (forall v, Password (change v) = Password v) ->
  (forall v, v ∈ here d -> user_ok d (change v)) -> commit_spec (X := X) (update_user u change) d (fun d' _ => org_ok d').
Proof.
  intros Hd Hp Hu. apply c_bind. eapply db_mono; [apply hash_spec|]. intros d' [u'|e] [-> _]; [|done].
  apply c_bind, c_UpdateWhere. intros now n new Hnew. apply c_ret. apply org_put_users; [done| | |exact Hnew]; intros v (w & Hw & ->)%changed_elem.
  - destruct (visible _ w) eqn:E; intros Hl; [|by apply (org_users _ Hd), here_elem].
    apply andb_true_iff in E as [E _]. destruct (Hu w) as [? ?]; [by apply here_elem|]. done.
  - destruct (visible _ w); [cbn; rewrite Hp|]; by apply (org_passwords _ Hd).
Qed.

Lemma UpdateUser_keeps id nickname role m : keeps (UpdateUser id nickname role m).
Proof.
  apply keeps_mbind; [apply keeps_GetUserByID|]. intros v.
  apply (keeps_checked _ _ (fun d _ => 0 < role -> exists q, q ∈ here (Row := Role) d /\ ID (r_Base q) = role)).
  { intros d Hd. destruct (0 <? role) eqn:E; [|apply svc_mret; split; [done|]; apply Z.ltb_ge in E; lia].
    eapply svc_mono; [apply require_role_spec|]. by intros d' [e|[]] [-> Hr]. }
  intros d [] Hd Hr. apply svc_mbind. eapply svc_mono; [apply require_module_spec|]. intros ? [e|[]] [-> Hm]; [done|].
  apply svc_mbind, svc_orElse, commit_transaction; [done|]. eapply c_mono; [apply update_user_keeps; [done..|]|].
  - intros w Hw. destruct (org_users _ Hd w Hw) as [Hwr Hwm]. unfold user_ok, set_user. cbn. destruct (0 <? role) eqn:E.
    + apply Z.ltb_lt in E. split; [by apply Hr|]. by destruct m.
    + split; [done|]. by destruct m.
  - intros d' a Hd'. by apply keeps_GetUserByID.
Qed.

Lemma DeleteUser_keeps id : keeps (DeleteUser id).
Proof.
  apply keeps_mbind.
  - apply keeps_reads. unfold delete_user_check. apply svc_reads_bind; [apply svc_reads_orElse, reads_GetUserByID|]. intros v. solve_svc_reads.
  - intros _ d Hd. apply svc_orElse, db_bind, db_DeleteWhere; [done|]. intros now n new Hnew. apply db_ret. by apply org_delete_users.
Qed.

Lemma Register_keeps username email password nickname : keeps (Register username email password nickname).
Proof.
  apply keeps_mbind; [apply keeps_reads, svc_reads_require_new|]. intros _. apply keeps_mbind.
  - apply keeps_transaction. intros d Hd. apply c_bind, c_SelectFirst. intros r Hr _. apply c_bind. eapply c_mono.
    { apply create_user_keeps; [done|by exists r|done]. }
    intros d' u Hd'. by apply c_ret.
  - intros r. apply keeps_reads, svc_reads_ret.
Qed.

Lemma ChangePassword_keeps id old new : keeps (ChangePassword id old new).
Proof.
  eapply (keeps_checked _ _ (fun d v => v_User v ∈ here d)).
  - intros d _. apply svc_orElse. unfold GetUserByID. apply db_bind, db_SelectFirst; [done|]. intros u Hu _.
    apply db_bind, db_reads; [apply reads_preload|]. intros [roles|e]; [|done]. apply db_bind, db_reads; [apply reads_preload|].
    intros [ms|e]; [|done]. by apply db_ret.
  - intros d v Hd Hv. destruct (negb _); [by apply svc_throw|]. apply svc_orElse, commit_transaction; [done|].
    apply c_bind. eapply db_mono; [apply hash_spec|]. intros d' [u'|e] [-> Hu]; [|done]. destruct Hu as [Hh Eu].
    apply db_stmt; [done|]. intros now. cbn zeta. destruct (clash_free _ _) eqn:Hnew; [|done]. cbn.
    assert (live u' = true /\ user_ok d u') as [Hl Ho].
    { rewrite Eu. split; [by apply here_elem in Hv as [_ ?]|]. exact (org_users _ Hd _ Hv). }
    set (row := updated now u'). assert (user_ok d row /\ hashed (Password row)) as [Hro Hrh] by done.
    assert (forall p, forall w, w ∈ changed p (fun _ => row) (users d) -> w = row \/ w ∈ users d) as Hch.
    { intros p w (x & Hx & ->)%changed_elem. destruct (p x); auto. }
    match goal with |- org_ok (mkOrg _ _ ?l _ _ _) => assert (forall w, w ∈ l -> w = row \/ w ∈ users d) as Hall end.
    { intros w. destruct (existsb _ (users d)); [apply Hch|]. destruct (existsb _ (users d)); [apply Hch|].
      intros [Hx| ->%list_elem_of_singleton]%elem_of_app; auto. }
    apply (org_put_users d); [done| | |exact Hnew]; intros w [->|Hw]%Hall; [done| |done|by apply (org_passwords _ Hd)].
    intros. by apply (org_users _ Hd), here_elem.
Qed.
Lemma keeps_GetByPublicID id : keeps (GetByPublicID id).
Proof. apply keeps_reads, svc_reads_GetByPublicID. Qed.

Lemma CreateModule_keeps name p sort : keeps (Create name p sort).
Proof.
  intros d Hd. eapply svc_mono; [apply Create_spec, Hd|]. intros d' a [[-> _]|(m & E & Ht & Hp & Hl & _)]; [done|].
  apply (org_put_modules d); [done|exact Ht|apply Hp, Hd|by rewrite E|]. intros q Hq _. exists q. split; [|done].
  rewrite E, mods_insert by done. apply elem_of_app. by left.
Qed.

Lemma UpdateModule_keeps id name sort : keeps (Update id name sort).
Proof.
  intros d Hd. eapply svc_mono; [apply (Update_spec id name sort d), Hd|]. intros d' a [->|(Ht & Hrest & Hp & Hk)]; [done|].
  apply (org_put_modules d); [done|done|apply Hp, Hd|done|]. intros q Hq _. by apply Hk.
Qed.

Lemma DeleteModule_keeps id : keeps (Delete id).
Proof.
  intros d Hd. eapply svc_mono.
  { apply svc_and; [apply (Delete_spec id d), Hd|]. exact (Delete_paths id d (org_tree _ Hd) (org_paths _ Hd)). }
  intros d' [e|a] [Hs Hp]; [by rewrite Hs|]. destruct Hs as (r & Hr & _ & Ht & Hrest & Hmods & Hps & Hus).
  apply (org_put_modules d); [done|done|exact Hp|done|]. intros m Hm Href. exists m. split; [|done]. apply Hmods. split; [done|].
  intros Hw. destruct Href as [(p & Hp' & E)|(u & Hu & E)]; [by apply (Hps p Hp' m)|by apply (Hus u Hu m)].
Qed.

Lemma CreateProject_keeps name m config : keeps (CreateWithModulePublicID name m config).
Proof.
  apply keeps_mbind; [apply keeps_reads, svc_reads_orElse, reads_scope_root|]. intros q. unfold CreateProject.
  eapply (keeps_checked _ _ (fun d found => found = true -> exists r, r ∈ mods d /\ mid r = ID (m_Base q))).
  - intros d _. apply svc_orElse. unfold ExistsModule. apply db_bind, db_SelectCount; [done|]. apply db_ret. split; [done|].
    intros Hn%Z.ltb_lt. apply counted_elem in Hn as (r & Hr & Hid%Z.eqb_eq). by exists r.
  - intros d found Hd Hf. destruct found; cbn [negb]; [|by apply svc_throw].
    apply svc_mbind, svc_orElse, commit_transaction; [done|]. apply c_bind, c_reads; [solve_reads|]. intros public.
    apply c_Insert. intros id now row Hc. apply svc_orElse. eapply db_mono; [apply reads_GetProjectByID|].
    assert (org_ok (put_rows TableName (rows TableName d ++ [row]) d)) as Hd'; [|by intros d' [a|e] ->].
    apply (org_put_projects d); [done| |by apply clash_free_app; [apply projects_clash_sym|apply Hd|]]. intros p [Hp| ->%list_elem_of_singleton]%elem_of_app Hl.
    + by apply (org_projects _ Hd), here_elem.
    + destruct (Hf eq_refl) as (r & Hr & E). by exists r.
Qed.

Lemma UpdateProject_keeps id name m config : keeps (UpdateProjectByPublicID id name m config).
Proof.
  apply keeps_mbind; [apply keeps_reads, svc_reads_GetProjectByPublicID|]. intros v. destruct (_ && _); [apply keeps_reads, svc_reads_throw|].
  apply keeps_mbind; [apply keeps_reads, svc_reads_orElse, reads_GetProjectByID|]. intros w.
  destruct (_ && _); [apply keeps_reads, svc_reads_throw|]. apply keeps_mbind; [|intros; apply keeps_reads, svc_reads_orElse, reads_GetProjectByID].
  intros d Hd. apply svc_orElse, db_UpdateWhere; [done|]. intros now n new Hnew. apply (org_put_projects d); [done| |exact Hnew].
  intros p (x & Hx & ->)%changed_elem. destruct (visible _ x) eqn:E; intros Hl.
  - exact (org_projects _ Hd x (proj2 (here_elem d x) (conj Hx Hl))).
  - by apply (org_projects _ Hd), here_elem.
Qed.

Lemma DeleteProject_keeps id : keeps (DeleteProjectByPublicID id).
Proof.
  apply keeps_mbind; [apply keeps_reads, svc_reads_GetProjectByPublicID|]. intros v. apply keeps_mbind.
  - apply keeps_reads. unfold delete_project_check. apply svc_reads_bind; [apply svc_reads_orElse, reads_GetProjectByID|]. intros w.
    solve_svc_reads.
  - intros _ d Hd. apply svc_orElse, db_bind, db_DeleteWhere; [done|]. intros now n new Hnew. apply db_ret. by apply org_delete_projects.
Qed.

Lemma c_for_each {A} (body : A -> action (dbstore org X) ()) l (I : org -> Prop) d :
  (forall a d, I d -> commit_spec (body a) d (fun d' _ => I d')) -> I d -> commit_spec (for_each body l) d (fun d' _ => I d').
Proof.
  intros Hb. revert d; induction l as [|a l IH]; intros d Hd; cbn [for_each]; [by apply c_ret|].
  apply c_bind. eapply c_mono; [by apply Hb|]. intros d' b Hd'. by apply IH.
Qed.

Lemma init_role_keeps name d : org_ok d -> commit_spec (X := X) (init_role name) d (fun d' _ => org_ok d').
Proof.
  intros Hd. unfold init_role. apply c_bind, c_attempt. eapply db_mono; [apply reads_SelectFirst|]. intros ? r ->.
  apply c_bind. apply (c_mono _ _ (fun d' _ => org_ok d')).
  { destruct r as [role|e]; [by apply c_ret|]. destruct (String.eqb _ _); [|by apply c_fail]. apply c_Insert. intros id now row Hc. by apply org_add_role. }
  intros d' role Hd'. apply c_bind, c_reads; [apply reads_SelectCount|]. intros n. destruct (n =? 0); [|by apply c_ret].
  apply c_for_each; [|done]. intros p d1 Hd1. apply c_bind, c_Insert. intros id now row Hc. apply c_ret. by apply org_put_permissions.
Qed.

Lemma InitRoles_keeps : keeps InitRoles.
Proof. apply keeps_transaction. intros d Hd. apply c_for_each; [|done]. intros. by apply init_role_keeps. Qed.

Lemma InitAdminUser_keeps username email password : keeps (InitAdminUser username email password).
Proof.
  unfold InitAdminUser. destruct (_ || _); [apply keeps_reads, svc_reads_throw|].
  eapply (keeps_checked _ _ (fun d r => r ∈ here d)).
  { intros d _. apply svc_orElse. unfold GetRoleByName. by apply db_SelectFirst. }
  intros d role Hd Hr. apply svc_mbind, svc_orElse, db_attempt. eapply db_mono; [apply reads_SelectFirst|].
  intros ? [u|e] ->; [by apply svc_throw|]. destruct (negb _); [by apply svc_throw|].
  apply svc_mbind. eapply svc_mono; [apply keeps_create_user; [done|by exists role|done]|]. intros d' [e'|u] Hd'; [done|by apply svc_mret].
Qed.

Lemma bootstrap_keeps username email password : keeps (bootstrap username email password).
Proof.
  unfold bootstrap. destruct (String.eqb password ""); [apply keeps_reads, svc_reads_ret|]. cbv zeta.
  apply keeps_mbind; [apply keeps_reads, svc_reads_orElse, reads_attempt, reads_SelectFirst|]. intros [u|e].
  - apply keeps_reads, svc_reads_bind; [apply svc_reads_orElse, reads_attempt, reads_SelectFirst|]. intros [r|e]; solve_svc_reads.
  - destruct (String.eqb e _); [apply InitAdminUser_keeps|apply keeps_reads, svc_reads_throw].
Qed.

Lemma serve_keeps r : keeps (serve r).
Proof.
  destruct (reading r) eqn:Er; [by apply keeps_quiet, reading_quiet|]. destruct r; try discriminate Er; cbn [serve]; try apply keeps_ignore.
  - apply keeps_mbind; [|intros p; apply keeps_mbind; [apply CreateModule_keeps|intros; apply keeps_GetByPublicID]].
    destruct parent; [|apply keeps_reads, svc_reads_ret]. apply keeps_mbind; [apply keeps_GetByPublicID|]. intros. apply keeps_reads, svc_reads_ret.
  - apply keeps_mbind; [apply keeps_GetByPublicID|]. intros m. apply keeps_mbind; [apply UpdateModule_keeps|]. intros. apply keeps_GetByPublicID.
  - apply keeps_mbind; [apply keeps_GetByPublicID|]. intros m. apply DeleteModule_keeps.
  - apply CreateProject_keeps.
  - apply UpdateProject_keeps.
  - apply DeleteProject_keeps.
  - apply CreateUser_keeps.
  - apply UpdateUser_keeps.
  - apply DeleteUser_keeps.
  - apply InitRoles_keeps.
  - apply Register_keeps.
  - apply ChangePassword_keeps.
  - apply bootstrap_keeps.
Qed.

End requests.
