(* ===== verification/AccountsSpec.v ===== *)
(** * What roles, users and authentication promise *)

From S2P Require Import Prelude GoRuntime Json Wp Store StoreLogic Errors Service Org OrgLogic Modules ModuleTree ModulePaths ModuleForest ModuleSpec Accounts Projects OrgSpec.

(** ** Permissions *)

(** A rule of the role matches the request. *)
Definition matches (resource action : string) (p : Permission) : bool :=
  MatchPermission (Resource p) (Action p) resource action.

Lemma permission_loop_spec allowed resource action perms :
  permission_loop allowed resource action perms = true <->
  (allowed = true \/ exists p, p ∈ perms /\ matches resource action p = true) /\
  forall p, p ∈ perms -> matches resource action p = true -> Effect p <> EffectDeny.
Proof.
  revert allowed; induction perms as [|p l IH]; intros allowed; cbn [permission_loop].
  - split; [intros ->; split; [by left|by intros p Hp%elem_of_nil]|]. intros [[?|(p & Hp & _)] _]; [done|by apply elem_of_nil in Hp].
  - fold (matches resource action p). setoid_rewrite elem_of_cons. destruct (matches resource action p) eqn:E.
    + destruct (String.eqb (Effect p) EffectDeny) eqn:Ed.
      * split; [done|]. intros [_ Hno]. apply String.eqb_eq in Ed. destruct (Hno p (or_introl eq_refl) E Ed).
      * rewrite IH. apply String.eqb_neq in Ed. split.
        -- intros [_ Hno]. split; [right; exists p; auto|]. intros q [->|Hq] Hm; [done|by apply Hno].
        -- intros [_ Hno]. split; [by left|]. intros q Hq. apply Hno. by right.
    + rewrite IH. split.
      * intros [Hp Hno]. split; [destruct Hp as [?|(q & ? & ?)]; [by left|right; exists q; auto]|].
        intros q [->|Hq] Hm; [congruence|by apply Hno].
      * intros [Hp Hno]. split; [|intros q Hq; apply Hno; by right]. destruct Hp as [?|(q & [->|Hq] & Hm)]; [by left|congruence|].
        right. by exists q.
Qed.

Section accounts.
Context {X : Type} `{GoRuntime, Ambient, Bcrypt, Jwt, SqlLike}.

Abbreviation svc_spec := (svc_spec (X := X)).

(** The rules of a role that are not deleted allow an action. *)
Definition granted d role resource action : Prop :=
  (exists p, p ∈ here (Row := Permission) d /\ pm_RoleID p = role /\ matches resource action p = true) /\
  forall p, p ∈ here (Row := Permission) d -> pm_RoleID p = role -> matches resource action p = true -> Effect p <> EffectDeny.

Lemma CheckPermission_spec role resource action d : svc_spec (CheckPermission role resource action) d (fun d' a => d' = d /\
  match a with inr allowed => allowed = true <-> granted d role resource action | inl e => exists err, e = Internal err end).
Proof.
  apply svc_mbind, svc_orElse, db_SelectAll; [eauto|]. apply svc_mret. split; [done|]. rewrite permission_loop_spec.
  assert (forall p, p ∈ List.filter (of_role role) (here d) <-> p ∈ here d /\ pm_RoleID p = role) as Hf
    by (intros p; unfold of_role; by rewrite filter_bool_elem, Z.eqb_eq).
  unfold granted. setoid_rewrite Hf. naive_solver.
Qed.

(** A role may do something exactly when a rule of it that is not deleted matches the
    resource and the action and no such rule denies it: a denial wins over any number of
    permissions, and nothing is allowed without a rule. *)
Theorem denial_wins role resource action d : svc_spec (CheckPermission role resource action) d (fun d' a => d' = d /\
  match a with
  | inr allowed => (allowed = true <-> granted d role resource action) /\
      (forall p, p ∈ here (Row := Permission) d -> pm_RoleID p = role -> matches resource action p = true -> Effect p = EffectDeny -> allowed = false)
  | inl e => exists err, e = Internal err
  end).
Proof.
  eapply svc_mono; [apply CheckPermission_spec|]. intros d' [e|allowed] [-> Ha]; (split; [done|]); [exact Ha|]. split; [exact Ha|].
  intros p Hp Hr Hm Hd. apply not_true_iff_false. intros Hall. by apply Ha in Hall as [_ Hno]; apply (Hno p).
Qed.

(** ** The last administrator *)

Definition admins (d : org) : list User := List.filter (has_role admin_role_id) (here d).

Lemma GetUserByID_spec id d : db_spec (X := X) (GetUserByID id) d (fun d' a => d' = d /\
  match a with Ok v => v_User v ∈ here d /\ ID (u_Base (v_User v)) = id | Err _ => True end).
Proof.
  unfold GetUserByID. apply db_bind, db_SelectFirst; [done|]. intros u Hu Hid%Z.eqb_eq.
  apply db_bind, db_reads; [apply reads_preload|]. intros [roles|e]; [|done]. apply db_bind, db_reads; [apply reads_preload|].
  intros [ms|e]; [|done]. by apply db_ret.
Qed.

Lemma users_unique d u v : clash_free (clash TableName) (users d) = true -> u ∈ here d -> v ∈ here d ->
  ID (u_Base u) = ID (u_Base v) -> u = v.
Proof.
  intros Hi [Hu _]%here_elem [Hv _]%here_elem E. apply (clash_free_unique _ _ _ _ users_clash_sym Hi Hu Hv).
  cbn. unfold same_id. by rewrite E, Z.eqb_refl.
Qed.

(** The deletion of a user that runs alone never removes the last administrator: if
    there was one before, there is one after. *)
Theorem deletion_spares_the_last_admin id d : clash_free (clash TableName) (users d) = true ->
  svc_spec (DeleteUser id) d (fun d' _ => admins d <> [] -> admins d' <> []).
Proof.
  intros Hi. apply svc_mbind, svc_mbind, svc_orElse. eapply db_mono; [apply GetUserByID_spec|]. intros ? [v|e] [-> Hv]; [|done].
  destruct Hv as [Hv Hid].
  assert (forall n : Z, (u_RoleID (v_User v) = admin_role_id -> 1 < Z.of_nat (length (admins d))) ->
    svc_spec (orElse (DeleteByID (Row := User) id) Internal) d (fun d' _ => admins d <> [] -> admins d' <> [])) as Hdel.
  { intros _ Hadmin. apply svc_orElse, db_bind, db_DeleteWhere; [done|]. intros now n new Hnew. apply db_ret. intros Hne.
    assert (exists w, w ∈ admins d /\ ID (u_Base w) <> id) as (w & Hw & Hwid).
    { destruct (decide (u_RoleID (v_User v) = admin_role_id)) as [E|E].
      - specialize (Hadmin E). destruct (admins d) as [|a [|b l]] eqn:Ea; [simpl in Hadmin; lia..|].
        destruct (decide (ID (u_Base a) = id)) as [Eid|]; [|exists a; split; [by left|done]].
        exists b. split; [right; by left|]. intros Eb. enough (a = b) as ->.
        { assert (NoDup (admins d)) as Hnd; [|rewrite Ea in Hnd; apply NoDup_cons in Hnd as [Hnd _]; apply Hnd; by left].
          unfold admins. apply filter_bool_NoDup. unfold here. apply filter_bool_NoDup. by apply clash_free_NoDup with (2 := Hi); intros u; cbn; unfold same_id; rewrite Z.eqb_refl. }
        assert (a ∈ admins d /\ b ∈ admins d) as [Ha Hb] by (rewrite Ea; split; [by left|right; by left]).
        apply filter_bool_elem in Ha as [Ha _]. apply filter_bool_elem in Hb as [Hb _]. apply (users_unique d); congruence || done.
      - destruct (admins d) as [|w l] eqn:Ea; [done|]. exists w. split; [by left|]. intros Ew.
        assert (w ∈ admins d) as Hw by (rewrite Ea; by left). apply filter_bool_elem in Hw as [Hw Hr%Z.eqb_eq].
        rewrite (users_unique d w (v_User v)) in Hr by congruence. done. }
    apply filter_bool_elem in Hw as [[Hw Hl]%here_elem Hr]. intros Enil. apply (not_elem_of_nil w). rewrite <- Enil.
    apply filter_bool_elem. split; [|done]. apply here_elem. split; [|done]. apply changed_elem. exists w. split; [done|].
    unfold visible, has_id. cbn. by rewrite (proj2 (Z.eqb_neq _ _) Hwid), andb_false_r. }
  destruct (u_RoleID (v_User v) =? admin_role_id) eqn:E.
  - apply svc_mbind, svc_orElse, db_SelectCount; [done|]. fold (admins d). destruct (_ <=? 1) eqn:E1; [by apply svc_throw|].
    apply Z.leb_gt in E1. by apply svc_mret, Hdel.
  - apply Z.eqb_neq in E. by apply svc_mret, Hdel.
Qed.
(** ** Registration and login *)

Context `{!AmbientLaws H0, !BcryptLaws H1, !JwtLaws H2}.

Lemma db_SelectFirst_exact {Row} `{!Model Row} (p : Row -> bool) d (Q : org -> res Row -> Prop) :
  (forall n e, db_error n = Some e -> Q d (Err e)) ->
  (forall r, r ∈ here d -> p r = true -> Q d (Ok r)) ->
  ((forall r, r ∈ here d -> p r = false) -> Q d (Err ErrRecordNotFound)) -> db_spec (X := X) (SelectFirst p) d Q.
Proof.
  intros He Hr Hn. apply db_First_exact; [done|]. destruct (least _ _) as [r|] eqn:E.
  - apply least_elem, filter_bool_elem in E as [Hin Hv]. unfold visible in Hv. apply andb_true_iff in Hv as [Hl Hp].
    apply Hr; [by apply here_elem|done].
  - apply Hn. intros r [Hin Hl]%here_elem. apply not_true_iff_false. intros Hp.
    assert (r ∈ List.filter (visible p) (rows TableName d)) as Hf by (apply visible_elem; auto).
    revert E Hf. generalize (List.filter (visible p) (rows TableName d)). intros [|x l]; [by intros _ ?%elem_of_nil|].
    cbn. by destruct (least _ l).
Qed.

Lemma db_hash_new u d (Q : org -> res User -> Prop) : Password u <> "" -> String.prefix "$2a$" (Password u) = false ->
  (forall e, Q d (Err e)) -> (forall h, CompareHashAndPassword h (Password u) = true -> Q d (Ok (with_password h u))) ->
  db_spec (X := X) (hashPasswordIfNeeded u) d Q.
Proof.
  intros Hne Hp He Hh. unfold hashPasswordIfNeeded. rewrite Hp, (proj2 (String.eqb_neq _ _) Hne). intros s <-. apply wp_bind.
  unfold wp, generate. cbn. destruct (GenerateFromPassword _ _) as [h|e] eqn:E; [|apply He]. apply Hh. by eapply bcrypt_matches.
Qed.

(** The user [u], alone to have the name, and a password that matches. *)
Definition registered (d : org) (u : User) (password : string) : Prop :=
  u ∈ here d /\ CompareHashAndPassword (Password u) password = true /\
  forall v, v ∈ here d -> Username v = Username u -> v = u.

Lemma Register_spec username email password nickname d : password <> "" -> String.prefix "$2a$" password = false ->
  svc_spec (Register username email password nickname) d (fun d' a => forall v, a = inr v ->
    registered d' (v_User v) password /\ Username (v_User v) = username /\
    roles d' = roles d /\ exists r, r ∈ here d' /\ r_Name r = RoleGuest /\ ID (r_Base r) = u_RoleID (v_User v)).
Proof.
  intros Hne Hpre. apply svc_mbind, svc_by_reads; [apply svc_reads_require_new|]. intros [e|[]]; [done|].
  apply svc_mbind, svc_orElse, commit_transaction; [done|]. apply c_bind, c_SelectFirst. intros r Hr Hname%String.eqb_eq.
  apply c_bind, c_bind, db_hash_new; [done|done|done|]. intros h Hh. apply c_Insert. intros id now row Hc. apply c_ret, svc_mret.
  intros v [= <-]. cbn [v_User]. split; [|split; [done|split; [done|by exists r]]].
  split; [apply here_elem; split; [apply elem_of_app; right; by left|done]|]. split; [exact Hh|].
  intros v [[Hv| ->%list_elem_of_singleton]%elem_of_app _]%here_elem E; [|done]. exfalso. apply not_true_iff_false in Hc. apply Hc, existsb_exists.
  exists v. split; [by apply list_elem_of_In|]. cbn. cbn in E. by rewrite E, String.eqb_refl, orb_true_r.
Qed.

(** The token names the user, with the role of guests, as long as it is valid. *)
Definition names_guest js (token : string) (u : User) : Prop := exists c, c_UserID c = ID (u_Base u) /\ c_RoleID c = u_RoleID u /\
  c_RoleName c = RoleGuest /\ forall now, NotBefore c * second <= now < ExpiresAt c * second -> ParseWithClaims (secret js) now token = Ok c.

End accounts.
