(* ===== verification/OrgSample.v ===== *)
(** * A sample organisation

    Concrete libraries and a run of requests from an empty database, with the witnesses
    of the theorems on the organisation; and runs in which requests that mix their
    statements break what each of them keeps alone. *)

From S2P Require Import Prelude GoRuntime Json Wp Store StoreLogic Errors Service Org OrgLogic Modules ModuleTree ModulePaths ModuleForest ModuleSpec Accounts Projects OrgSpec AccountsSpec.
From Stdlib Require Import Ascii.

(** ** Libraries *)

#[export] Instance org_ambient : Ambient := {|
  time_now n := Z.of_nat n * second; random_hex n := pretty n; db_error _ := None; duplicate_error := "UNIQUE constraint failed";
  serial n := Pos.of_nat n |}.
#[export] Instance org_ambient_laws : AmbientLaws org_ambient.
Proof. by split. Qed.

#[export] Instance sample_bcrypt : Bcrypt := {|
  GenerateFromPassword _ p := Ok ("$2a$" +:+ p); CompareHashAndPassword h p := String.eqb h ("$2a$" +:+ p) |}.
#[export] Instance sample_bcrypt_laws : BcryptLaws sample_bcrypt.
Proof. split; intros n p h [= <-]; [apply String.eqb_refl|exact (prefix_app "$2a$" p)]. Qed.

#[export] Instance sample_like : SqlLike := {| like pattern text := str_contains text pattern |}.

(** A token is the secret and the claims, in binary digits. *)
Fixpoint to_digits (p : positive) : string :=
  match p with xH => "" | xO p => String "0"%char (to_digits p) | xI p => String "1"%char (to_digits p) end.
Fixpoint of_digits (s : string) : positive :=
  match s with "" => xH | String "0"%char s => xO (of_digits s) | String _ s => xI (of_digits s) end.
Lemma digits_back p : of_digits (to_digits p) = p.
Proof. induction p as [p IH|p IH|]; cbn; by rewrite ?IH. Qed.

Definition claims_tuple (c : Claims) : Z * string * Z * string * Z * Z * Z * string * string :=
  (c_UserID c, c_Username c, c_RoleID c, c_RoleName c, ExpiresAt c, IssuedAt c, NotBefore c, Issuer c, Subject c).
Definition tuple_claims (t : Z * string * Z * string * Z * Z * Z * string * string) : Claims :=
  let '(a, b, c, d, e, f, g, h, i) := t in mkClaims a b c d e f g h i.
#[export] Instance claims_eq_dec : EqDecision Claims.
Proof. solve_decision. Defined.
#[export] Instance claims_countable : Countable Claims.
Proof. refine (inj_countable' claims_tuple tuple_claims _). by intros []. Defined.

#[export] Instance sample_jwt : Jwt := {|
  SignedString k c := Ok (to_digits (encode (k, c)));
  ParseWithClaims k now t :=
    match decode (A := string * Claims) (of_digits t) with
    | Some (k', c) => if String.eqb k k' && (NotBefore c * second <=? now) && (now <? ExpiresAt c * second) then Ok c else Err "invalid token"
    | None => Err "malformed token"
    end |}.
#[export] Instance sample_jwt_laws : JwtLaws sample_jwt.
Proof.
  split.
  - intros k c t now [= <-] [Hn He]. cbn -[encode decode]. rewrite digits_back, decode_encode, String.eqb_refl.
    by rewrite (proj2 (Z.leb_le _ _) Hn), (proj2 (Z.ltb_lt _ _) He).
  - intros k now t c. cbn -[decode]. destruct (decode _) as [[k' c']|]; [|done]. destruct (_ && _) eqn:E; [|done].
    intros [= <-]. apply andb_true_iff in E as [_ E]. by apply Z.ltb_lt.
Qed.

(** ** A run *)

Definition no_rows : org := mkOrg [] [] [] [] [] [].
Definition sample_request : list org_request := [
  InitRolesR; BootstrapR "" "" "secret"; CreateModuleR "infra" None 2; CreateModuleR "apps" None 1;
  RegisterR "ann" "ann@example.org" "secret" "Ann"; CreateModuleR "db" (Some "module_40") 1].

Definition state_of {A} (m : action (dbstore org ()) A) (s : dbstore org ()) : dbstore org () :=
  match m s with Ret (s', _) => s' | Panic => s end.
Definition serve_all (rs : list org_request) (s : dbstore org ()) : dbstore org () := foldl (fun s r => state_of (serve r) s) s rs.
Definition s0 : dbstore org () := mkStore no_rows () 0.
Definition s1 : dbstore org () := Eval vm_compute in serve_all sample_request s0.

Lemma serve_all_ok rs s : org_ok (g_db s) -> org_ok (g_db (serve_all rs s)).
Proof.
  revert s; induction rs as [|r rs IH]; intros s Hs; [done|]. cbn. apply IH. unfold state_of.
  destruct (svc_elim _ s _ (serve_keeps r (g_db s) Hs)) as (s' & a & -> & Hs'). exact Hs'.
Qed.

Lemma empty_ok : org_ok no_rows.
Proof.
  split; [split; [done|..]|..|done|done|done]; [intros m H|intros m p H|intros m H|intros m H|intros p H|intros u H|intros u H]; by apply elem_of_nil in H.
 Qed.
Lemma sample_ok : org_ok (g_db s1).
Proof. assert (s1 = serve_all sample_request s0) as -> by by vm_compute. apply serve_all_ok, empty_ok. Qed.


Lemma deletion_removes_the_subtree_witness : tree_ok (g_db s1) /\
  exists s', DeleteByPublicID "module_40" s1 = Ret (s', Ok (inr tt)) /\ (m_Name <$> mods (g_db s')) = ["apps"].
Proof.
  split; [exact (org_tree _ sample_ok)|].
  destruct (svc_elim _ s1 _ (deletion_removes_the_subtree "module_40" (g_db s1) (org_tree _ sample_ok))) as (s' & a & E & _).
  vm_compute in E. injection E as <- <-. eexists. split; vm_compute; reflexivity.
Defined.

Lemma scoped_list_is_the_subtree_witness : tree_ok (g_db s1) /\
  exists s' forest, ListScoped "module_40" s1 = Ret (s', Ok (inr forest)) /\ (m_Name <$> flat_map flatten forest) = ["infra"; "db"].
Proof.
  split; [exact (org_tree _ sample_ok)|].
  destruct (svc_elim _ s1 _ (scoped_list_is_the_subtree "module_40" (g_db s1) (org_tree _ sample_ok))) as (s' & a & E & _).
  vm_compute in E. injection E as <- <-. do 2 eexists. split; vm_compute; reflexivity.
Defined.

Lemma modules_stay_a_tree_witness : rtc tree_step (g_db s1) (g_db (state_of (transaction (delete_tx 41)) s1)) /\
  tree_ok (g_db (state_of (transaction (delete_tx 41)) s1)).
Proof.
  assert (rtc tree_step (g_db s1) (g_db (state_of (transaction (delete_tx 41)) s1))) as Hs.
  { apply rtc_once. apply (T_delete 41). exists s1. do 2 eexists. split; [done|]. split; vm_compute; reflexivity. }
  split; [exact Hs|]. apply (modules_stay_a_tree (g_db s1)); [exact (org_tree _ sample_ok)|exact Hs].
Defined.

Lemma deletion_spares_the_last_admin_witness : clash_free (clash TableName) (users (g_db s1)) = true /\
  exists s', DeleteUser 37 s1 = Ret (s', Ok (inl (New CodeLastAdmin ""))) /\ admins (g_db s') <> [].
Proof.
  split; [vm_compute; reflexivity|].
  destruct (svc_elim _ s1 _ (deletion_spares_the_last_admin 37 (g_db s1) ltac:(vm_compute; reflexivity))) as (s' & a & E & Ha).
  vm_compute in E. injection E as <- <-. eexists. split; [vm_compute; reflexivity|]. apply Ha. by vm_compute.
Defined.

Definition sample_service : JWTService := mkJWTService "key" (86400 * second) (600 * second).

(** ** Where the organisation can break

    The services look at the tables before they change them, in statements of their own.
    Runs in which the statements of two requests mix, and requests that run alone, that
    break what one would expect.  Each of them is a run of the sample. *)

(** ** Mixed requests *)

(** A deletion counts the projects of the modules before the transaction that removes
    them: a project created in between is left in a module that is deleted. *)
Theorem deletion_races_with_creation : exists s2 s3 s4 v,
  delete_check 47 s1 = Ret (s2, Ok (inr tt)) /\
  CreateWithModulePublicID "shop" "module_46" None s2 = Ret (s3, Ok (inr v)) /\
  transaction (delete_tx 47) s3 = Ret (s4, Ok tt) /\
  v_Project v ∈ here (g_db s4) /\ ~ project_ok (g_db s4) (v_Project v).
Proof.
  do 4 eexists. split; [vm_compute; reflexivity|]. split; [vm_compute; reflexivity|]. split; [vm_compute; reflexivity|]. split.
  - by left.
  - intros (m & Hm & E). cbn in E. apply elem_of_cons in Hm as [->|Hm]; [by vm_compute in E|].
    apply elem_of_cons in Hm as [->|Hm]; [by vm_compute in E|]. by apply elem_of_nil in Hm.
Qed.

(** The sample with a second administrator. *)
Definition s2 : dbstore org () := Eval vm_compute in state_of (CreateUser "eve" "eve@example.org" "secret" "Eve" 1 None) s1.
Definition second_admin : Z := Eval vm_compute in match admins (g_db s2) with [_; u] => ID (u_Base u) | _ => 0 end.

(** Two deletions of the last two administrators that count before either of them
    deletes leave no administrator. *)
Theorem deletions_race_for_the_last_admin : exists sa sb sc sd,
  delete_user_check 37 s2 = Ret (sa, Ok (inr tt)) /\ delete_user_check second_admin sa = Ret (sb, Ok (inr tt)) /\
  DeleteByID (Row := User) 37 sb = Ret (sc, Ok tt) /\ DeleteByID (Row := User) second_admin sc = Ret (sd, Ok tt) /\
  length (admins (g_db s2)) = 2%nat /\ admins (g_db sd) = [].
Proof. do 4 eexists. repeat (split; [vm_compute; reflexivity|]). vm_compute. reflexivity. Qed.

(** A change of the sort number of a module that has read the module before it is
    renamed writes the old name back and leaves the new path. *)
Theorem updates_race_for_the_path : exists m sa sb,
  m ∈ mods (g_db s1) /\ mid m = 47 /\ m_Name m = "apps" /\
  transaction (update_tx m 47 "web" 1) s1 = Ret (sa, Ok tt) /\ transaction (update_tx m 47 "apps" 5) sa = Ret (sb, Ok tt) /\
  ~ paths_ok (g_db sb).
Proof.
  do 3 eexists. split; [right; left|]. do 2 (split; [reflexivity|]).
  split; [vm_compute; reflexivity|]. split; [vm_compute; reflexivity|].
  intros Hp. specialize (Hp _ (list_elem_of_further _ _ _ (list_elem_of_here _ _))). by vm_compute in Hp.
Qed.

(** ** Requests alone *)

(** An update can take the role from the last administrator. *)
Theorem last_admin_can_be_demoted : exists s' v, UpdateUser 37 "" 23 None s1 = Ret (s', Ok (inr v)) /\
  length (admins (g_db s1)) = 1%nat /\ admins (g_db s') = [].
Proof. do 2 eexists. repeat (split; [vm_compute; reflexivity|]). vm_compute. reflexivity. Qed.

(** The name of a deleted user stays taken, and a registration under it fails with an
    internal error: the check sees no such user, the unique index does. *)
Theorem deleted_name_stays_taken : exists sa sb,
  DeleteUser 56 s1 = Ret (sa, Ok (inr tt)) /\ (exists sc, ExistsByUsername "ann" sa = Ret (sc, Ok false)) /\
  Register "ann" "ann@example.org" "secret" "Ann" sa = Ret (sb, Ok (inl (Internal "UNIQUE constraint failed"))).
Proof.
  do 2 eexists. split; [vm_compute; reflexivity|]. split; [eexists; vm_compute; reflexivity|]. vm_compute. reflexivity.
Qed.

(** A password that looks like a hash is stored as it is given: the user cannot log
    in with it. *)
Theorem hash_shaped_password_is_stored : exists sa v sb, Register "bob" "bob@example.org" "$2a$word" "Bob" s1 = Ret (sa, Ok (inr v)) /\
  Password (v_User v) = "$2a$word" /\
  Login sample_service "bob" "$2a$word" sa = Ret (sb, Ok (inl (New CodeInvalidPassword "invalid username or password"))).
Proof. do 3 eexists. repeat (split; [vm_compute; reflexivity|]). vm_compute. reflexivity. Qed.
