(* ===== verification/Http.v ===== *)
(** * The administrative API

    The middleware that authenticates and authorises (apiserver/pkg/middleware/auth.go),
    the handlers of modules, projects, users, roles and authentication
    (apiserver/pkg/handler), and the routes of cmd/server/main.go that lead to them.  A
    request is what gin hands to the handlers: the header, the parameters of the path and
    of the query, and the body as it was bound, or the error of the binding. *)

From S2P Require Import Prelude GoRuntime Json Wp Store StoreLogic Errors Service Org Modules Accounts Projects.
From S2P Require Gateway.

Abbreviation Principal := Gateway.Principal.

(** ** Data of the responses *)

(** dto/business.go; [ToResponse] of a module has the same fields. *)
#[warnings="-register-all"] Inductive ModuleDTO := mkModuleDTO
  (id name parent_id : string) (level sort : Z) (path : string) (children : list ModuleDTO) (created updated : Z).
Fixpoint ModuleFromModel (t : tree) : ModuleDTO :=
  match t with
  | Node m parent children =>
      mkModuleDTO (m_PublicID m) (m_Name m) (default "" parent) (m_Level m) (m_Sort m) (m_Path m) (map ModuleFromModel children)
        (CreatedAt (m_Base m)) (UpdatedAt (m_Base m))
  end.
(** A module with its parent, where it is loaded. *)
Definition single (m : Module_ * option Module_) : tree := Node m.1 (m_PublicID <$> m.2) [].

Record ProjectDTO := mkProjectDTO {
  pd_id : string; pd_name : string; pd_module_id : string; pd_module : option ModuleDTO; pd_config : option (gmap string json);
  pd_created : Z; pd_updated : Z }.
Definition Project_ToResponse (v : ProjectView) : ProjectDTO :=
  let p := v_Project v in
  mkProjectDTO (p_PublicID p) (p_Name p) (match v_Module v with Some m => m_PublicID m | None => "" end)
    ((fun m => ModuleFromModel (Node m None [])) <$> v_Module v) (p_Config p) (CreatedAt (p_Base p)) (UpdatedAt (p_Base p)).

Record RoleDTO := mkRoleDTO { rd_id : Z; rd_name : string; rd_created : Z; rd_updated : Z }.
Definition Role_ToResponse (r : Role) : RoleDTO := mkRoleDTO (ID (r_Base r)) (r_Name r) (CreatedAt (r_Base r)) (UpdatedAt (r_Base r)).

Record UserDTO := mkUserDTO {
  ud_id : Z; ud_username : string; ud_email : string; ud_nickname : string; ud_role_id : Z; ud_role : option RoleDTO;
  ud_module_id : option Z; ud_module : option ModuleDTO; ud_created : Z; ud_updated : Z }.
Definition User_ToResponse (v : UserView) : UserDTO :=
  let u := v_User v in
  mkUserDTO (ID (u_Base u)) (Username u) (Email u) (Nickname u) (u_RoleID u) (Role_ToResponse <$> v_Role v)
    (match Accounts.v_Module v with Some _ => u_ModuleID u | None => None end)
    ((fun m => ModuleFromModel (Node m None [])) <$> Accounts.v_Module v) (CreatedAt (u_Base u)) (UpdatedAt (u_Base u)).

(** Resource, action and effect. *)
Definition PermissionFromModel (p : Permission) : string * string * string := (Resource p, Action p, Effect p).

#[warnings="-register-all"] Inductive body :=
  | BModules (l : list ModuleDTO) | BModule (m : ModuleDTO)
  | BProjects (p : PageResult ProjectDTO) | BProject (p : ProjectDTO)
  | BUsers (p : PageResult UserDTO) | BUser (u : UserDTO)
  | BRoles (l : list RoleDTO) | BRole (r : RoleDTO) | BPermissions (l : list (string * string * string))
  | BLogin (token : string) (u : UserDTO).

(** [strconv.ParseUint(s, 10, 32)] *)
Definition digit (c : Ascii.ascii) : option Z :=
  let n := Z.of_nat (Ascii.nat_of_ascii c) - 48 in if (0 <=? n) && (n <=? 9) then Some n else None.
Fixpoint parse_digits (acc : Z) (s : string) : option Z :=
  match s with "" => Some acc | String c s => match digit c with Some n => parse_digits (10 * acc + n) s | None => None end end.
Definition ParseUint32 (s : string) : option Z :=
  if String.eqb s "" then None
  else match parse_digits 0 s with Some n => if n <? 2 ^ 32 then Some n else None | None => None end.

(** ** The context of a request *)

(** What the middleware has put into it; an absent key reads as zero or empty. *)
Record context := mkContext { cx_UserID : Z; cx_RoleID : Z; cx_RoleName : string; cx_Principal : Principal }.

(** [PrincipalFromContext] of a context without a principal. *)
Definition internal_principal : Principal := Gateway.mkPrincipal 0 0 RoleAdmin "" true.

Section middleware.
Context {X : Type} `{GoRuntime, Ambient, Bcrypt, Jwt, SqlLike} {B : Type}.

Abbreviation step := (action (dbstore org X)).
Abbreviation svc := (svc org X).
Abbreviation response := (Response B).

(** A handler looks at the error of the service. *)
Definition respond {A} (m : svc A) (err : error -> response) (ok : A -> response) : step response :=
  (m : step (Errors.error + A)) ≫= (fun r => mret (match r with inl e => err e | inr a => ok a end)).
Definition continue {A} (m : svc A) (err : error -> response) (ok : A -> step response) : step response :=
  (m : step (Errors.error + A)) ≫= (fun r => match r with inl e => mret (err e) | inr a => ok a end).

(** ** middleware/auth.go *)

(** [strings.SplitN(header, " ", 2)] *)
Definition split_space (s : string) : option (string * string) :=
  match String.index 0 " " s with
  | Some i => Some (String.substring 0 i s, String.substring (i + 1) (String.length s - (i + 1)) s)
  | None => None
  end.

Definition Auth (js : JWTService) (header : string) (k : context -> step response) : step response :=
  if String.eqb header "" then mret (Unauthorized "missing authorization header") else
  match split_space header with
  | Some (scheme, token) =>
      if negb (String.eqb (Gateway.ToLower scheme) "bearer") then mret (Unauthorized "invalid authorization header format") else
      r ← attempt (ParseToken js token);
      match r with
      | Err _ => mret (Unauthorized "invalid or expired token")
      | Ok c => k (mkContext (c_UserID c) (c_RoleID c) (c_RoleName c) internal_principal)
      end
  | None => mret (Unauthorized "invalid authorization header format")
  end.

Definition RequireRole (role : string) (cx : context) (k : step response) : step response :=
  if String.eqb (cx_RoleName cx) role then k else mret (Forbidden "insufficient permissions").

Definition RequirePermission (resource action : string) (cx : context) (k : step response) : step response :=
  continue (CheckPermission (cx_RoleID cx) resource action) (fun _ => InternalError "permission check failed")
    (fun allowed : bool => if negb allowed then mret (Forbidden "insufficient permissions") else k).

(** service/resource_gateway.go and handler/resource_gateway.go: the scope of the user as
    it is now; it replaces the role of the token. *)
Definition PrincipalForUser (userID : Z) : step Principal :=
  v ← GetUserByID userID;
  let u := v_User v in
  let roleName := match v_Role v with Some r => r_Name r | None => "" end in
  if String.eqb roleName RoleAdmin then mret (Gateway.mkPrincipal (ID (u_Base u)) (u_RoleID u) roleName "" true)
  else match u_ModuleID u, Accounts.v_Module v with
       | Some _, Some m =>
           if String.eqb (m_PublicID m) "" then fail Gateway.ErrForbidden
           else mret (Gateway.mkPrincipal (ID (u_Base u)) (u_RoleID u) roleName (m_PublicID m) false)
       | _, _ => fail Gateway.ErrForbidden
       end.

Definition WithPrincipal (cx : context) (k : context -> step response) : step response :=
  r ← attempt (PrincipalForUser (cx_UserID cx));
  match r with
  | Err e => mret (if String.eqb e Gateway.ErrForbidden then Forbidden e else InternalError "failed to resolve actor scope")
  | Ok p => k (mkContext (cx_UserID cx) (Gateway.RoleID p) (Gateway.RoleName p) p)
  end.

(** handler/scope.go *)
Definition requireScopedAccess (p : Principal) (access : svc bool) (k : step response) : step response :=
  if Gateway.Admin p then k
  else continue access (fun _ => InternalError "failed to evaluate business scope")
         (fun allowed : bool => if negb allowed then mret (Forbidden Gateway.ErrForbidden) else k).

(** A body that could not be bound. *)
Definition bind {A} (req : res A) (k : A -> step response) : step response :=
  match req with Err e => mret (BadRequest e) | Ok a => k a end.
Definition path_id (id : string) (k : Z -> step response) : step response :=
  match ParseUint32 id with Some n => k n | None => mret (BadRequest "invalid id") end.

End middleware.

Abbreviation response := (Response body).

Section http.
Context {X : Type} `{GoRuntime, Ambient, Bcrypt, Jwt, SqlLike}.

Abbreviation step := (action (dbstore org X)).
Abbreviation svc := (svc org X).

(** ** handler/module.go *)

Definition scope (cx : context) : string := Gateway.pr_ModulePublicID (cx_Principal cx).
Definition is_admin (cx : context) : bool := Gateway.Admin (cx_Principal cx).

Definition module_List (cx : context) : step response :=
  respond (if is_admin cx then List_ else ListScoped (scope cx)) (fun e => InternalError (Error e))
    (fun ms => Success (BModules (ModuleFromModel <$> ms))).
Definition module_Get (cx : context) (id : string) : step response :=
  requireScopedAccess (cx_Principal cx) (CanAccess (scope cx) id)
    (respond (GetByPublicID id) (fun _ => NotFound "module not found") (fun m => Success (BModule (ModuleFromModel (single m))))).
Definition module_Create (req : res (string * option string * Z)) : step response :=
  bind req (fun '(name, parent, sort) =>
    respond (CreateWithParentPublicID name parent sort) (fun e => Conflict (Error e)) (fun m => Success (BModule (ModuleFromModel (single m))))).
Definition module_Update (id : string) (req : res (string * option string * Z)) : step response :=
  bind req (fun '(name, parent, sort) =>
    let update := respond (UpdateByPublicID id name sort) (fun e => NotFound (Error e)) (fun m => Success (BModule (ModuleFromModel (single m)))) in
    match parent with
    | None => update
    | Some p =>
        continue (GetByPublicID id) ErrorFromErr (fun current =>
          match current.2 with
          | Some q => if String.eqb (m_PublicID q) p then update else mret (Conflict "module parent association is immutable")
          | None => mret (Conflict "module parent association is immutable")
          end)
    end).
Definition module_Delete (id : string) : step response :=
  respond (DeleteByPublicID id) (fun e => Conflict (Error e)) (fun _ => SuccessWithMessage "deleted").
(** main.go: /modules/:id/children *)
Definition module_Children (cx : context) (id : string) : step response :=
  requireScopedAccess (cx_Principal cx) (CanAccess (scope cx) id)
    (respond (GetChildrenByPublicID id) ErrorFromErr (fun ms => Success (BModules (ModuleFromModel <$> ms)))).

(** ** handler/project.go *)

Definition projects_body (page size : Z) (r : list ProjectView * Z) : response :=
  Success (BProjects (mkPage r.2 page size (Project_ToResponse <$> r.1))).

Definition project_List (cx : context) (query : Z * Z) : step response :=
  let '(page, size) := GetPageSize query.1 query.2 in
  respond (if is_admin cx then ListProjects page size else ListProjectsScoped (scope cx) page size)
    (fun e => InternalError (Error e)) (projects_body page size).
Definition project_Get (cx : context) (id : string) : step response :=
  requireScopedAccess (cx_Principal cx) (CanAccessProject (scope cx) id)
    (respond (GetProjectByPublicID id) (fun _ => NotFound "project not found") (fun v => Success (BProject (Project_ToResponse v)))).
Definition project_Create (req : res (string * string * option (gmap string json))) : step response :=
  bind req (fun '(name, moduleID, config) =>
    if String.eqb moduleID "" then mret (BadRequest "moduleId is required") else
    respond (CreateWithModulePublicID name moduleID config) (fun e => Conflict (Error e)) (fun v => Success (BProject (Project_ToResponse v)))).
Definition project_Update (id : string) (req : res (string * string * option (gmap string json))) : step response :=
  bind req (fun '(name, moduleID, config) =>
    respond (UpdateProjectByPublicID id name moduleID config) ErrorFromErr (fun v => Success (BProject (Project_ToResponse v)))).
Definition project_Delete (id : string) : step response :=
  respond (DeleteProjectByPublicID id) (fun e => NotFound (Error e)) (fun _ => SuccessWithMessage "deleted").
(** main.go: /projects/module/:moduleId *)
Definition project_ByModule (cx : context) (moduleID : string) (query : Z * Z) : step response :=
  let '(page, size) := GetPageSize query.1 query.2 in
  requireScopedAccess (cx_Principal cx) (CanAccess (scope cx) moduleID)
    (respond (ListByModulePublicID moduleID page size) ErrorFromErr (projects_body page size)).

(** ** handler/user.go *)

Definition users_body (page size : Z) (r : list UserView * Z) : response :=
  Success (BUsers (mkPage r.2 page size (User_ToResponse <$> r.1))).

Definition user_List (cx : context) (query : Z * Z) : step response :=
  let '(page, size) := GetPageSize query.1 query.2 in
  respond (if is_admin cx then ListUsers page size else ListUsersScoped (scope cx) page size)
    (fun e => InternalError (Error e)) (users_body page size).
Definition user_Get (cx : context) (id : string) : step response :=
  path_id id (fun n => requireScopedAccess (cx_Principal cx) (CanAccessUser (scope cx) n)
    (respond (GetUser n) (fun _ => NotFound "user not found") (fun v => Success (BUser (User_ToResponse v))))).

Record UserRequest := mkUserRequest {
  rq_Username : string; rq_Email : string; rq_Password : string; rq_Nickname : string; rq_RoleID : Z; rq_ModuleID : option Z }.
Definition user_Create (req : res UserRequest) : step response :=
  bind req (fun r =>
    respond (CreateUser (rq_Username r) (rq_Email r) (rq_Password r) (rq_Nickname r) (rq_RoleID r) (rq_ModuleID r))
      (fun e => Conflict (Error e)) (fun v => Success (BUser (User_ToResponse v)))).
Definition user_Update (id : string) (req : res (string * Z * option Z)) : step response :=
  path_id id (fun n => bind req (fun '(nickname, roleID, moduleID) =>
    respond (UpdateUser n nickname roleID moduleID) (fun e => NotFound (Error e)) (fun v => Success (BUser (User_ToResponse v))))).
(** [errors.Is(err, errors.New(...))] compares with an error of its own: it is false, so
    that the response of the first branch is never sent. *)
Definition is_new_error (e : error) (text : string) : bool := false.
Definition user_Delete (id : string) : step response :=
  path_id id (fun n => respond (DeleteUser n)
    (fun e => if is_new_error e "cannot delete last admin" then Forbidden (Error e) else NotFound (Error e))
    (fun _ => SuccessWithMessage "deleted")).

(** ** handler/role.go, and main.go: /roles/:id/permissions *)

Definition role_List : step response := respond ListRoles (fun e => InternalError (Error e)) (fun rs => Success (BRoles (Role_ToResponse <$> rs))).
Definition role_Get (id : string) : step response :=
  path_id id (fun n => respond (GetRole n) (fun _ => NotFound "role not found") (fun r => Success (BRole (Role_ToResponse r)))).
Definition role_Permissions (id : string) : step response :=
  path_id id (fun n => respond (GetPermissions n) ErrorFromErr (fun ps => Success (BPermissions (PermissionFromModel <$> ps)))).

(** ** handler/auth.go *)

Definition auth_Login (js : JWTService) (req : res (string * string)) : step response :=
  bind req (fun '(username, password) =>
    respond (Login js username password) (fun e => Unauthorized (Error e)) (fun r => Success (BLogin r.1 (User_ToResponse r.2)))).
Definition auth_Register (req : res UserRequest) : step response :=
  bind req (fun r =>
    respond (Register (rq_Username r) (rq_Email r) (rq_Password r) (rq_Nickname r))
      (fun e => Conflict (Error e)) (fun v => Success (BUser (User_ToResponse v)))).
Definition auth_Me (cx : context) : step response :=
  respond (GetUser (cx_UserID cx)) (fun _ => NotFound "user not found") (fun v => Success (BUser (User_ToResponse v))).
Definition auth_ChangePassword (cx : context) (req : res (string * string)) : step response :=
  bind req (fun '(old, new) =>
    respond (ChangePassword (cx_UserID cx) old new) (fun e => Forbidden (Error e)) (fun _ => SuccessWithMessage "password changed successfully")).

(** ** cmd/server/main.go: the routes *)

Inductive route :=
  | GET_modules | GET_module (id : string) | GET_children (id : string) | POST_modules (req : res (string * option string * Z))
  | PUT_module (id : string) (req : res (string * option string * Z)) | DELETE_module (id : string)
  | GET_projects (query : Z * Z) | GET_project (id : string) | GET_module_projects (id : string) (query : Z * Z)
  | POST_projects (req : res (string * string * option (gmap string json)))
  | PUT_project (id : string) (req : res (string * string * option (gmap string json))) | DELETE_project (id : string)
  | GET_users (query : Z * Z) | GET_user (id : string) | POST_users (req : res UserRequest)
  | PUT_user (id : string) (req : res (string * Z * option Z)) | DELETE_user (id : string)
  | GET_roles | GET_role (id : string) | GET_role_permissions (id : string)
  | POST_login (req : res (string * string)) | POST_register (req : res UserRequest) | GET_me
  | PUT_change_password (req : res (string * string)).

Section routes.
Variables (js : JWTService) (header : string).

Definition read (resource : string) (h : context -> step response) : step response :=
  Auth js header (fun cx => WithPrincipal cx (fun cx => RequirePermission resource "read" cx (h cx))).
Definition admin (h : step response) : step response :=
  Auth js header (fun cx => WithPrincipal cx (fun cx => RequireRole RoleAdmin cx h)).

Definition handle (r : route) : step response :=
  match r with
  | GET_modules => read "module" module_List
  | GET_module id => read "module" (fun cx => module_Get cx id)
  | GET_children id => read "module" (fun cx => module_Children cx id)
  | POST_modules req => admin (module_Create req)
  | PUT_module id req => admin (module_Update id req)
  | DELETE_module id => admin (module_Delete id)
  | GET_projects query => read "project" (fun cx => project_List cx query)
  | GET_project id => read "project" (fun cx => project_Get cx id)
  | GET_module_projects id query => read "project" (fun cx => project_ByModule cx id query)
  | POST_projects req => admin (project_Create req)
  | PUT_project id req => admin (project_Update id req)
  | DELETE_project id => admin (project_Delete id)
  | GET_users query => read "user" (fun cx => user_List cx query)
  | GET_user id => read "user" (fun cx => user_Get cx id)
  | POST_users req => admin (user_Create req)
  | PUT_user id req => admin (user_Update id req)
  | DELETE_user id => admin (user_Delete id)
  | GET_roles => admin role_List
  | GET_role id => admin (role_Get id)
  | GET_role_permissions id => Auth js header (fun cx => RequireRole RoleAdmin cx (role_Permissions id))
  | POST_login req => auth_Login js req
  | POST_register req => auth_Register req
  | GET_me => Auth js header auth_Me
  | PUT_change_password req => Auth js header (fun cx => auth_ChangePassword cx req)
  end.
End routes.
End http.
