(* ===== verification/HttpSpec.v ===== *)
(** * Who may do what

    Through the routes of the administrative API only an administrator, by the role that
    the database has now, changes the organisation, but for those who register or change
    their own passwords; and whoever is no administrator is shown nothing outside of the
    subtree of the own module. *)

From S2P Require Import Prelude GoRuntime Json Wp Store StoreLogic Errors Service Org OrgLogic Modules ModuleTree ModulePaths ModuleForest ModuleSpec Accounts Projects OrgSpec Http.
From S2P Require Gateway.

Section spec.
Context {X : Type} `{GoRuntimeLaws, Ambient, Bcrypt, Jwt, SqlLike}.
Context `{!BcryptLaws H1} {B : Type}.

Abbreviation step := (action (dbstore org X)).
Abbreviation svc := (svc org X).
Abbreviation response := (Response B).

(** ** Callers *)

(** The user a token names, as the database has it now. *)
Definition caller (d : org) (js : JWTService) (header : string) (u : User) : Prop :=
  exists scheme token now c, split_space header = Some (scheme, token) /\ ParseWithClaims (secret js) now token = Ok c /\
    u ∈ here d /\ ID (u_Base u) = c_UserID c.
Definition has_role_named (d : org) (u : User) (name : string) : Prop :=
  exists r, r ∈ here (Row := Role) d /\ ID (r_Base r) = u_RoleID u /\ r_Name r = name.

(** ** Rules *)

Lemma db_respond {A} (m : svc A) err ok d (Q : org -> res response -> Prop) :
  svc_spec m d (fun d' r => Q d' (Ok (match r with inl e => err e | inr a => ok a end))) -> db_spec (respond m err ok) d Q.
Proof. intros Hm. apply db_bind. eapply db_mono; [exact Hm|]. intros d' [[e|a]|e] HQ; [by apply db_ret..|done]. Qed.
Lemma db_continue {A} (m : svc A) err ok d (Q : org -> res response -> Prop) :
  svc_spec m d (fun d' r => match r with inl e => Q d' (Ok (err e)) | inr a => db_spec (ok a) d' Q end) -> db_spec (continue m err ok) d Q.
Proof. intros Hm. apply db_bind. eapply db_mono; [exact Hm|]. intros d' [[e|a]|e] HQ; [by apply db_ret|exact HQ|done]. Qed.

Lemma db_preload {Row} `{!Model Row} ids d (Q : org -> res (Z -> option Row) -> Prop) : (forall e, Q d (Err e)) ->
  (forall f, (forall id r, f id = Some r -> r ∈ here d /\ ID (base r) = id) -> Q d (Ok f)) -> db_spec (X := X) (preload ids) d Q.
Proof.
  intros He Hf. unfold preload. destruct ids as [|z ids]; [apply db_ret, Hf; done|]. apply db_bind, db_SelectAll; [done|].
  apply db_ret, Hf. intros id r [Hr Hid%Z.eqb_eq]%find_some. apply list_elem_of_In, filter_bool_elem in Hr as [Hr _]. done.
Qed.

(** What a request of the services does to the database, its operation does. *)
Lemma svc_ignored {A} (m : svc A) d (P : org -> Prop) :
  svc_spec (ignore m) d (fun d' _ => P d') -> svc_spec m d (fun d' _ => P d').
Proof.
  intros Hm s Hs. specialize (Hm s Hs). unfold ignore in Hm. apply wp_bind in Hm. eapply wp_mono; [exact Hm|]. by intros s' [[e|a]|e].
Qed.
Lemma svc_quiet {A} (m : svc A) rq d : serve (X := X) rq = ignore m -> reading rq = true -> tree_ok d -> svc_spec m d (fun d' _ => d' = d).
Proof. intros E Hr Hd. apply svc_ignored. rewrite <- E. by apply reading_quiet. Qed.
Lemma svc_keeps {A} (m : svc A) rq d : serve (X := X) rq = ignore m -> org_ok d -> svc_spec m d (fun d' _ => org_ok d').
Proof. intros E Hd. apply svc_ignored. rewrite <- E. by apply serve_keeps. Qed.

(** A response without data, which is all a refusal is. *)
Definition no_data (a : res response) : Prop := match a with Ok r => Data r = None | Err _ => True end.

Lemma db_Auth js header k d (Q : org -> res response -> Prop) : (forall a, no_data a -> Q d a) ->
  (forall cx, (forall u, u ∈ here d -> ID (u_Base u) = cx_UserID cx -> caller d js header u) -> db_spec (X := X) (k cx) d Q) ->
  db_spec (Auth js header k) d Q.
Proof.
  intros Hn Hk. unfold Auth. destruct (String.eqb header ""); [by apply db_ret, Hn|]. destruct (split_space header) as [[scheme token]|] eqn:E; [|by apply db_ret, Hn].
  destruct (negb _); [by apply db_ret, Hn|]. apply db_bind, db_attempt. unfold ParseToken. apply db_bind, db_Now. intros now.
  apply db_of_res. destruct (ParseWithClaims _ _ _) as [c|e] eqn:Ep; [|by apply db_ret, Hn]. apply Hk. cbn. intros u Hu Hid.
  by exists scheme, token, now, c.
Qed.

(** The scope of a caller. *)
Definition principal_of (d : org) (u : User) (p : Principal) : Prop :=
  Gateway.RoleID p = u_RoleID u /\ (Gateway.RoleName p = RoleAdmin -> has_role_named d u RoleAdmin) /\
  (if Gateway.Admin p then has_role_named d u RoleAdmin
   else exists m, m ∈ mods d /\ u_ModuleID u = Some (mid m) /\ Gateway.pr_ModulePublicID p = m_PublicID m).

Lemma PrincipalForUser_spec userID d : db_spec (X := X) (PrincipalForUser userID) d (fun d' r => d' = d /\
  forall p, r = Ok p -> exists u, u ∈ here d /\ ID (u_Base u) = userID /\ Gateway.UserID p = userID /\ principal_of d u p).
Proof.
  unfold PrincipalForUser, GetUserByID. apply db_bind, db_bind, db_SelectFirst; [done|]. intros u Hu Hid%Z.eqb_eq.
  apply db_bind, db_preload; [done|]. intros roles Hroles. apply db_bind, db_preload; [done|]. intros ms Hms. apply db_ret.
  cbn [v_User v_Role Accounts.v_Module]. set (name := match roles (u_RoleID u) with Some r => r_Name r | None => "" end).
  assert (name = RoleAdmin -> has_role_named d u RoleAdmin) as Hadmin.
  { unfold name. destruct (roles (u_RoleID u)) as [r|] eqn:E; [|done]. intros En. apply Hroles in E as [? ?]. by exists r. }
  destruct (String.eqb name RoleAdmin) eqn:En.
  - apply String.eqb_eq in En. apply db_ret. split; [done|]. intros p [= <-]. exists u. split_and!; [done..|]. split; [done|]. split; [done|]. by apply Hadmin.
  - destruct (u_ModuleID u) as [z|] eqn:Ez; [|by apply db_fail]. cbn. destruct (ms z) as [m|] eqn:Em; [|by apply db_fail].
    destruct (String.eqb (m_PublicID m) ""); [by apply db_fail|]. apply Hms in Em as [Hm E]. apply db_ret. split; [done|]. intros p [= <-].
    exists u. split_and!; [done..|]. split; [done|]. split; [done|]. exists m. cbn in E. by rewrite Ez, <- E.
Qed.
Lemma db_WithPrincipal cx k d (Q : org -> res response -> Prop) : (forall a, no_data a -> Q d a) ->
  (forall p u, u ∈ here d -> ID (u_Base u) = cx_UserID cx -> principal_of d u p ->
     db_spec (X := X) (k (mkContext (cx_UserID cx) (Gateway.RoleID p) (Gateway.RoleName p) p)) d Q) ->
  db_spec (WithPrincipal cx k) d Q.
Proof.
  intros Hn Hk. apply db_bind, db_attempt. eapply db_mono; [apply PrincipalForUser_spec|]. intros d' [p|e] [-> Hp].
  - destruct (Hp p eq_refl) as (u & Hu & Hid & _ & Hpu). by apply (Hk p u).
  - apply db_ret, Hn. by destruct (String.eqb _ _).
Qed.

Lemma db_RequireRole role cx k d (Q : org -> res response -> Prop) : (forall a, no_data a -> Q d a) ->
  (cx_RoleName cx = role -> db_spec (X := X) k d Q) -> db_spec (RequireRole role cx k) d Q.
Proof. intros Hn Hk. unfold RequireRole. destruct (String.eqb _ _) eqn:E; [by apply Hk, String.eqb_eq|by apply db_ret, Hn]. Qed.

Lemma db_RequirePermission resource act cx k d (Q : org -> res response -> Prop) : (forall a, no_data a -> Q d a) ->
  db_spec (X := X) k d Q -> db_spec (RequirePermission resource act cx k) d Q.
Proof.
  intros Hn Hk. apply db_continue. unfold CheckPermission. apply svc_mbind, svc_orElse, db_SelectAll; [by intros; apply Hn|].
  apply svc_mret. destruct (negb _); [by apply db_ret, Hn|exact Hk].
Qed.

Lemma db_scoped p access k d (Q : org -> res response -> Prop) : (forall a, no_data a -> Q d a) ->
  (Gateway.Admin p = true -> db_spec (X := X) k d Q) ->
  (Gateway.Admin p = false -> svc_spec access d (fun d' r => d' = d /\ match r with inr true => db_spec (X := X) k d Q | _ => True end)) ->
  db_spec (requireScopedAccess p access k) d Q.
Proof.
  intros Hn Ha Hs. unfold requireScopedAccess. destruct (Gateway.Admin p); [by apply Ha|]. apply db_continue.
  eapply svc_mono; [by apply Hs|]. intros d' [e|[|]] [-> Hr]; [by apply Hn|done|by apply db_ret, Hn].
Qed.
End spec.
