(* ===== verification/HttpScope.v ===== *)
(** * What a scope shows

    Whoever is no administrator is shown, by the routes of the modules, the projects and
    the users, nothing outside of the subtree of the own module. *)

From S2P Require Import Prelude GoRuntime Json Wp Store StoreLogic Errors Service Org OrgLogic Modules ModuleTree ModulePaths ModuleForest ModuleSpec Accounts Projects OrgSpec AccountsSpec Http HttpSpec.
From S2P Require Gateway.

(** ** Inside of the scope of a module *)

(** The identifiers of the modules a response shows. *)
Fixpoint dto_ids (m : ModuleDTO) : list string :=
  match m with mkModuleDTO id _ _ _ _ _ children _ _ => id :: flat_map dto_ids children end.

Definition module_in (d : org) (r : Module_) (id : string) : Prop := exists m, within d r m /\ m_PublicID m = id.
Definition project_in (d : org) (r : Module_) (q : ProjectDTO) : Prop :=
  exists p m, p ∈ here d /\ p_PublicID p = pd_id q /\ within d r m /\ p_ModuleID p = mid m.
Definition user_in (d : org) (r : Module_) (q : UserDTO) : Prop :=
  exists u m, u ∈ here d /\ ID (u_Base u) = ud_id q /\ within d r m /\ u_ModuleID u = Some (mid m).

Definition in_scope (d : org) (r : Module_) (b : body) : Prop :=
  match b with
  | BModules l => forall m id, m ∈ l -> id ∈ dto_ids m -> module_in d r id
  | BModule m => forall id, id ∈ dto_ids m -> module_in d r id
  | BProjects p => forall q, q ∈ Errors.List_ p -> project_in d r q
  | BProject q => project_in d r q
  | BUsers p => forall q, q ∈ Errors.List_ p -> user_in d r q
  | BUser q => user_in d r q
  | _ => False
  end.

(** The routes under /modules, /projects and /users that read. *)
Definition scoped_route (rt : route) : bool :=
  match rt with
  | GET_modules | GET_module _ | GET_children _ | GET_projects _ | GET_project _ | GET_module_projects _ _ | GET_users _ | GET_user _ => true
  | _ => false
  end.

Lemma dto_ids_flatten t : dto_ids (ModuleFromModel t) = (fun m => m_PublicID m) <$> flatten t.
Proof.
  revert t. fix IH 1. intros [m parent cs]. cbn [ModuleFromModel dto_ids flatten]. rewrite fmap_cons. f_equal.
  induction cs as [|c cs IHcs]; [done|]. cbn [map flat_map]. by rewrite fmap_app, IH, IHcs.
Qed.
Lemma as_root_public z m : m_PublicID (as_root z m) = m_PublicID m.
Proof. unfold as_root. by destruct (_ =? _). Qed.

Lemma paginate_elem {A} page size (l : list A) x : x ∈ paginate page size l -> x ∈ l.
Proof. unfold paginate. intros Hx%elem_of_take. destruct Hx as (i & Hi & _). rewrite lookup_drop in Hi. by eapply list_elem_of_lookup_2. Qed.

Section spec.
Context {X : Type} `{GoRuntimeLaws, Ambient, Bcrypt, Jwt, SqlLike}.
Context `{!BcryptLaws H1}.

Abbreviation svc_spec := (svc_spec (X := X)).
Implicit Types (d : org) (r : Module_).

(** ** What the services give *)

Lemma CanAccess_gives r target d : tree_ok d -> r ∈ mods d -> svc_spec (CanAccess (m_PublicID r) target) d (fun d' a => d' = d /\
  match a with inr true => module_in d r target | _ => True end).
Proof.
  intros Hd Hr. eapply svc_mono; [by apply CanAccess_spec|]. intros d' [e|[|]] [-> Ha]; [done| |done]. split; [done|].
  destruct Ha as (r' & t & Hr' & _ & Eid & Et & Ha). rewrite <- (public_unique d r' r) by done. exists t. split; [by apply Ha|done].
Qed.

(** The identifiers of the subtree. *)
Definition subtree_ids d r (ids : list Z) : Prop := forall z, z ∈ ids <-> z = mid r \/ exists q, under d [mid r] q /\ mid q = z.

Lemma subtree_ids_within d r ids z : tree_ok d -> r ∈ mods d -> subtree_ids d r ids -> in_ids ids z = true ->
  exists m, within d r m /\ z = mid m.
Proof.
  intros Hd Hr Hids Hz. apply in_ids_elem, Hids in Hz as [->|(q & Hq & <-)].
  - exists r. split; [|done]. by split; [|left].
  - exists q. split; [|done]. split; [by eapply under_mods|by right].
Qed.

Lemma scopedModuleIDs_spec r d : tree_ok d -> r ∈ mods d -> svc_spec (scopedModuleIDs (m_PublicID r)) d (fun d' a => d' = d /\
  match a with inr ids => subtree_ids d r ids | inl _ => True end).
Proof.
  intros Hd Hr. apply svc_mbind, svc_orElse, db_SelectFirst; [done|]. intros r' Hr' Eid%String.eqb_eq.
  apply (public_unique d) in Eid as ->; [|done..]. apply svc_orElse. eapply db_mono; [by apply descendants_spec|].
  by intros d' [ids|e] [-> Hids].
Qed.

Lemma project_page_spec p order page size d : (forall l x, x ∈ order l -> x ∈ l) ->
  db_spec (X := X) (project_page p order page size) d (fun d' a => d' = d /\
    match a with Ok (vs, _) => forall v, v ∈ vs -> v_Project v ∈ here d /\ p (v_Project v) = true | Err _ => True end).
Proof.
  intros Ho. apply db_bind, db_SelectCount; [done|]. apply db_bind, db_SelectAll; [done|]. apply db_bind. unfold load_modules.
  apply db_bind, db_preload; [done|]. intros f _. apply db_ret, db_ret. split; [done|].
  intros v (q & -> & Hq)%list_elem_of_fmap. cbn. by apply filter_bool_elem, Ho, (paginate_elem page size).
Qed.
Lemma user_page_spec p page size d : db_spec (X := X) (page_of p page size) d (fun d' a => d' = d /\
    match a with Ok (vs, _) => forall v, v ∈ vs -> v_User v ∈ here d /\ p (v_User v) = true | Err _ => True end).
Proof.
  apply db_bind, db_SelectCount; [done|]. apply db_bind, db_SelectAll; [done|]. apply db_bind. unfold load_users.
  apply db_bind, db_preload; [done|]. intros f _. apply db_bind, db_preload; [done|]. intros g _. apply db_ret, db_ret. split; [done|].
  intros v (q & -> & Hq)%list_elem_of_fmap. cbn. by apply filter_bool_elem, (paginate_elem page size).
Qed.

Lemma project_of_scope d r ids p : tree_ok d -> r ∈ mods d -> subtree_ids d r ids -> p ∈ here d -> project_of_module ids p = true ->
  forall v, v_Project v = p -> project_in d r (Project_ToResponse v).
Proof.
  intros Hd Hr Hids Hp Hm v Ev. destruct (subtree_ids_within d r ids (p_ModuleID p)) as (m & Hw & E); [done..|].
  exists p, m. cbn. by rewrite Ev.
Qed.
Lemma user_of_scope d r ids u : tree_ok d -> r ∈ mods d -> subtree_ids d r ids -> u ∈ here d -> user_of_module ids u = true ->
  forall v, v_User v = u -> user_in d r (User_ToResponse v).
Proof.
  intros Hd Hr Hids Hu Hm v Ev. unfold user_of_module in Hm. destruct (u_ModuleID u) as [z|] eqn:Ez; [|done].
  destruct (subtree_ids_within d r ids z) as (m & Hw & ->); [done..|]. exists u, m. cbn. by rewrite Ev.
Qed.

Lemma one_counted {A} (f : A -> bool) (l : list A) : (Z.of_nat (length (List.filter f l)) =? 1) = true -> exists x, x ∈ l /\ f x = true.
Proof. intros Hn%Z.eqb_eq. apply counted_elem. lia. Qed.

Lemma CanAccessProject_gives r id d : tree_ok d -> r ∈ mods d -> svc_spec (CanAccessProject (m_PublicID r) id) d (fun d' a => d' = d /\
  match a with inr true => exists p m, p ∈ here d /\ p_PublicID p = id /\ within d r m /\ p_ModuleID p = mid m | _ => True end).
Proof.
  intros Hd Hr. apply svc_mbind. eapply svc_mono; [by apply scopedModuleIDs_spec|]. intros ? [e|ids] [-> Hids]; [done|].
  apply svc_mbind, svc_orElse, db_SelectCount; [done|]. apply svc_mret. split; [done|]. destruct (_ =? 1) eqn:E; [|done].
  apply one_counted in E as (p & Hp & [Hn%String.eqb_eq Hm]%andb_true_iff).
  destruct (subtree_ids_within d r ids (p_ModuleID p)) as (m & Hw & Em); [done..|]. by exists p, m.
Qed.
Lemma CanAccessUser_gives r id d : tree_ok d -> r ∈ mods d -> svc_spec (CanAccessUser (m_PublicID r) id) d (fun d' a => d' = d /\
  match a with inr true => exists u m, u ∈ here d /\ ID (u_Base u) = id /\ within d r m /\ u_ModuleID u = Some (mid m) | _ => True end).
Proof.
  intros Hd Hr. apply svc_mbind, svc_orElse, db_SelectFirst; [done|]. intros r' Hr' Eid%String.eqb_eq.
  apply (public_unique d) in Eid as ->; [|done..]. apply svc_mbind, svc_orElse. eapply db_mono; [by apply descendants_spec|].
  intros d' [ids|e] [-> Hids]; [|done]. apply svc_mbind, svc_orElse, db_SelectCount; [done|]. apply svc_mret. split; [done|].
  destruct (_ =? 1) eqn:E; [|done]. apply one_counted in E as (u & Hu & [Hn%Z.eqb_eq Hm]%andb_true_iff).
  unfold user_of_module in Hm. destruct (u_ModuleID u) as [z|] eqn:Ez; [|done].
  destruct (subtree_ids_within d r ids z) as (m & Hw & ->); [done..|]. by exists u, m.
Qed.

(** A row that is read again is the row that was checked. *)
Lemma projects_unique d p q : org_ok d -> p ∈ here d -> q ∈ here d -> p_PublicID p = p_PublicID q -> p = q.
Proof.
  intros Hd [Hp _]%here_elem [Hq _]%here_elem E. apply (clash_free_unique _ _ _ _ projects_clash_sym (org_project_index _ Hd) Hp Hq).
  cbn. by rewrite E, String.eqb_refl, orb_true_r.
Qed.
Lemma GetProjectByPublicID_spec id d : svc_spec (GetProjectByPublicID id) d (fun d' a => d' = d /\
  match a with inr v => v_Project v ∈ here d /\ p_PublicID (v_Project v) = id | inl _ => True end).
Proof.
  apply svc_orElse, db_bind, db_SelectFirst; [done|]. intros p Hp Hn%String.eqb_eq. apply db_bind, db_preload; [done|].
  intros f _. by apply db_ret.
Qed.
Lemma GetUser_spec id d : svc_spec (GetUser id) d (fun d' a => d' = d /\
  match a with inr v => v_User v ∈ here d /\ ID (u_Base (v_User v)) = id | inl _ => True end).
Proof.
  apply svc_orElse, db_bind, db_SelectFirst; [done|]. intros u Hu Hn%Z.eqb_eq. apply db_bind, db_preload; [done|].
  intros f _. apply db_bind, db_preload; [done|]. intros g _. by apply db_ret.
Qed.

(** ** What the handlers answer *)

(** The data of an answer satisfies [P]. *)
Definition answers (P : body -> Prop) (a : res response) : Prop := forall resp b, a = Ok resp -> Data resp = Some b -> P b.

Lemma answers_no_data P a : no_data a -> answers P a.
Proof. intros Hn resp b -> Hb. cbn in Hn. congruence. Qed.
Lemma ErrorFromErr_no_data e : no_data (Ok (ErrorFromErr e : response)).
Proof. destruct e as [e|text]; cbn; [done|]. by repeat case_match. Qed.
Lemma answers_data (P : body -> Prop) b : P b -> answers P (Ok (Success b)).
Proof. by intros Hb resp b' [= <-] [= <-]. Qed.

Definition answer_spec (m : action (dbstore org X) response) d (P : body -> Prop) : Prop :=
  db_spec m d (fun d' a => d' = d /\ answers P a).

Lemma answer_respond {A} (m : svc org X A) err ok d (P : body -> Prop) : (forall e, no_data (Ok (err e))) ->
  svc_spec m d (fun d' x => d' = d /\ match x with inr a => answers P (Ok (ok a)) | inl _ => True end) ->
  answer_spec (respond m err ok) d P.
Proof.
  intros He Hm. apply db_respond. eapply svc_mono; [exact Hm|]. intros d' [e|a] [-> Hr]; (split; [done|]); [|exact Hr].
  by apply answers_no_data, He.
Qed.

(** Without a scope any answer will do. *)
Lemma answer_any {A} (m : svc org X A) err ok d rq : tree_ok d -> serve (X := X) rq = ignore m -> reading rq = true ->
  answer_spec (respond m err ok) d (fun _ => True).
Proof. intros Hd E Hr. apply db_respond. eapply svc_mono; [by apply (svc_quiet m rq)|]. intros d' x ->. split; [done|by intros ? ?]. Qed.

Lemma answer_scoped p (access : svc org X bool) k d (P : body -> Prop) (Granted : Prop) : Gateway.Admin p = false ->
  svc_spec access d (fun d' a => d' = d /\ match a with inr true => Granted | _ => True end) ->
  (Granted -> answer_spec k d P) -> answer_spec (requireScopedAccess p access k) d P.
Proof.
  intros Hp Ha Hk. apply db_scoped; [intros a Hn; split; [done|by apply answers_no_data]|congruence|]. intros _.
  eapply svc_mono; [exact Ha|]. intros d' [e|[|]] [-> HG]; (split; [done|]); [done|by apply Hk|done].
Qed.
Lemma answer_admin p (access : svc org X bool) k d (P : body -> Prop) : Gateway.Admin p = true ->
  answer_spec k d P -> answer_spec (requireScopedAccess p access k) d P.
Proof. intros Hp Hk. unfold requireScopedAccess. by rewrite Hp. Qed.


Section caller.
Variables (d : org) (cx : context).
Hypothesis Hd : org_ok d.

(** For an administrator. *)
Section admin.
Hypothesis Hadmin : is_admin cx = true.

Ltac any rq := eapply (answer_any _ _ _ _ rq); [apply Hd|reflexivity|reflexivity].

Lemma admin_modules : answer_spec (module_List cx) d (fun _ => True).
Proof. unfold module_List. rewrite Hadmin. any ListModulesR. Qed.
Lemma admin_module id : answer_spec (module_Get cx id) d (fun _ => True).
Proof. apply answer_admin; [done|]. any (GetModuleR id). Qed.
Lemma admin_children id : answer_spec (module_Children cx id) d (fun _ => True).
Proof. apply answer_admin; [done|]. any (GetChildrenR id). Qed.
Lemma admin_projects query : answer_spec (project_List cx query) d (fun _ => True).
Proof. unfold project_List. destruct (GetPageSize _ _) as [page size]. rewrite Hadmin. any (ListProjectsR page size). Qed.
Lemma admin_project id : answer_spec (project_Get cx id) d (fun _ => True).
Proof. apply answer_admin; [done|]. any (GetProjectR id). Qed.
Lemma admin_module_projects id query : answer_spec (project_ByModule cx id query) d (fun _ => True).
Proof. unfold project_ByModule. destruct (GetPageSize _ _) as [page size]. apply answer_admin; [done|]. any (ListByModuleR id page size). Qed.
Lemma admin_users query : answer_spec (user_List cx query) d (fun _ => True).
Proof. unfold user_List. destruct (GetPageSize _ _) as [page size]. rewrite Hadmin. any (ListUsersR page size). Qed.
Lemma admin_user id : answer_spec (user_Get cx id) d (fun _ => True).
Proof.
  unfold user_Get, path_id. destruct (ParseUint32 id) as [n|]; [|apply db_ret; split; [done|by apply answers_no_data]].
  apply answer_admin; [done|]. any (GetUserR n).
Qed.
End admin.

(** For the others. *)
Section member.
Variable r : Module_.
Hypothesis Hmember : is_admin cx = false.
Hypothesis Hr : r ∈ mods d.
Hypothesis Hscope : scope cx = m_PublicID r.

Let Ht : tree_ok d := org_tree _ Hd.

Lemma access_module id : svc_spec (CanAccess (scope cx) id) d (fun d' a => d' = d /\ match a with inr true => module_in d r id | _ => True end).
Proof. rewrite Hscope. by apply CanAccess_gives. Qed.

Lemma member_modules : answer_spec (module_List cx) d (in_scope d r).
Proof.
  unfold module_List. rewrite Hmember, Hscope. apply answer_respond; [done|]. eapply svc_mono; [by apply ListScoped_builds|].
  intros d' [e|forest] [-> Ha]; (split; [done|]); [done|]. destruct Ha as (r' & l & Hr' & Eid & Hnd & Hl & ->).
  apply (public_unique d) in Eid as ->; [|done..]. apply answers_data. intros m id (t & -> & Ht')%list_elem_of_fmap. rewrite dto_ids_flatten.
  intros (q & -> & Hq)%list_elem_of_fmap.
  assert (q ∈ as_root (mid r) <$> l) as (m & -> & Hm)%list_elem_of_fmap.
  { rewrite <- (buildTree_perm (m_Level r)) by (eapply scope_forest; done). apply list_elem_of_In, in_flat_map. exists t.
    split; by apply list_elem_of_In. }
  exists m. rewrite as_root_public. split; [by apply Hl|done].
Qed.

Lemma member_module id : answer_spec (module_Get cx id) d (in_scope d r).
Proof.
  eapply answer_scoped; [done|apply access_module|]. intros Hin. apply answer_respond; [done|].
  eapply svc_mono; [apply GetByPublicID_spec|]. intros d' [e|m] [-> Hm]; (split; [done|]); [done|]. apply answers_data.
  intros q. cbn. intros ->%list_elem_of_singleton. by rewrite (proj2 Hm).
Qed.

Lemma child_within m c : within d r m -> c ∈ mods d -> m_ParentID c = Some (mid m) -> within d r c.
Proof.
  intros [Hm [->|Hu]] Hc Hp; (split; [done|right]).
  - eapply under_child; [done..|]. by apply list_elem_of_singleton.
  - by eapply under_step.
Qed.

Lemma member_children id : answer_spec (module_Children cx id) d (in_scope d r).
Proof.
  eapply answer_scoped; [done|apply access_module|]. intros (m & Hw & Em). apply answer_respond; [by intros e; apply ErrorFromErr_no_data|].
  apply svc_mbind. eapply svc_mono; [apply GetByPublicID_spec|]. intros ? [e|q] [-> Hq]; [done|]. destruct Hq as [Hq Eq].
  assert (q.1 = m) as Eqm by (apply (public_unique d); [done..|apply Hw|congruence]).
  apply svc_mbind. unfold GetChildren. apply svc_mbind. eapply svc_mono; [by apply (svc_reads_orElse _ _ (reads_GetByID _))|]. intros ? [e|g] ->; [done|].
  apply svc_orElse, db_SelectAll; [done|]. apply svc_mret. split; [done|]. apply answers_data.
  intros dto pid (t & -> & (c & -> & [Hc Hp]%filter_bool_elem)%list_elem_of_fmap)%list_elem_of_fmap. cbn. intros ->%list_elem_of_singleton.
  exists c. split; [|done]. apply (child_within m); [done..|]. unfold parent_is in Hp. rewrite Eqm in Hp.
  destruct (m_ParentID c) as [z|]; [|done]. apply Z.eqb_eq in Hp as ->. done.
Qed.

Lemma member_projects query : answer_spec (project_List cx query) d (in_scope d r).
Proof.
  unfold project_List. destruct (GetPageSize _ _) as [page size]. rewrite Hmember, Hscope. apply answer_respond; [done|].
  apply svc_mbind. eapply svc_mono; [by apply scopedModuleIDs_spec|]. intros ? [e|ids] [-> Hids]; [done|].
  apply svc_orElse. eapply db_mono; [apply project_page_spec; intros l x; apply go_sort_elem|].
  intros d' [[vs n]|e] [-> Hv]; (split; [done|]); [|done]. apply answers_data. intros q (v & -> & Hq)%list_elem_of_fmap.
  destruct (Hv v Hq) as [Hin Hm]. by apply (project_of_scope d r ids (v_Project v)).
Qed.

Lemma member_project id : answer_spec (project_Get cx id) d (in_scope d r).
Proof.
  eapply answer_scoped; [done|rewrite Hscope; by apply CanAccessProject_gives|]. intros (p & m & Hp & Ep & Hw & Em).
  apply answer_respond; [done|]. eapply svc_mono; [apply GetProjectByPublicID_spec|]. intros ? [e|v] [-> Hv]; (split; [done|]); [done|].
  destruct Hv as [Hv Ev]. apply answers_data. assert (p = v_Project v) as -> by (apply (projects_unique d); [done..|congruence]).
  by exists (v_Project v), m.
Qed.

Lemma member_module_projects id query : answer_spec (project_ByModule cx id query) d (in_scope d r).
Proof.
  unfold project_ByModule. destruct (GetPageSize _ _) as [page size]. eapply answer_scoped; [done|apply access_module|]. intros (m & Hw & Em).
  apply answer_respond; [by intros e; apply ErrorFromErr_no_data|]. apply svc_mbind, svc_orElse, db_SelectFirst; [done|].
  intros q Hq Eq%String.eqb_eq. assert (q = m) as -> by (apply (public_unique d); [done..|apply Hw|congruence]).
  apply svc_orElse. eapply db_mono; [by apply project_page_spec|]. intros d' [[vs n]|e] [-> Hv]; (split; [done|]); [|done].
  apply answers_data. intros dto (v & -> & Hin)%list_elem_of_fmap. destruct (Hv v Hin) as [Hp Hm%Z.eqb_eq]. by exists (v_Project v), m.
Qed.

Lemma member_users query : answer_spec (user_List cx query) d (in_scope d r).
Proof.
  unfold user_List. destruct (GetPageSize _ _) as [page size]. rewrite Hmember, Hscope. apply answer_respond; [done|].
  apply svc_mbind, svc_orElse, db_SelectFirst; [done|]. intros r' Hr' Eid%String.eqb_eq. apply (public_unique d) in Eid as ->; [|done..].
  apply svc_mbind, svc_orElse. eapply db_mono; [by apply descendants_spec|]. intros d' [ids|e] [-> Hids]; [|done].
  apply svc_orElse. eapply db_mono; [apply user_page_spec|]. intros d' [[vs n]|e] [-> Hv]; (split; [done|]); [|done].
  apply answers_data. intros q (v & -> & Hq)%list_elem_of_fmap. destruct (Hv v Hq) as [Hin Hm]. by apply (user_of_scope d r ids (v_User v)).
Qed.

Lemma member_user id : answer_spec (user_Get cx id) d (in_scope d r).
Proof.
  unfold user_Get, path_id. destruct (ParseUint32 id) as [n|]; [|apply db_ret; split; [done|by apply answers_no_data]].
  eapply answer_scoped; [done|rewrite Hscope; by apply CanAccessUser_gives|]. intros (u & m & Hu & Eu & Hw & Em).
  apply answer_respond; [done|]. eapply svc_mono; [apply GetUser_spec|]. intros ? [e|v] [-> Hv]; (split; [done|]); [done|].
  destruct Hv as [Hv Ev]. apply answers_data. assert (u = v_User v) as -> by (apply (users_unique d); [apply Hd|done..|congruence]).
  by exists (v_User v), m.
Qed.
End member.

(** A handler behind the checks of a reading route. *)
Definition handler_ok (h : context -> action (dbstore org X) response) : Prop := forall cx,
  (is_admin cx = true -> answer_spec (h cx) d (fun _ => True)) /\
  (forall r, is_admin cx = false -> r ∈ mods d -> scope cx = m_PublicID r -> answer_spec (h cx) d (in_scope d r)).
End caller.

(** Who may see it: an administrator, or a user with the scope. *)
Definition entitled (d : org) (js : JWTService) (header : string) (b : body) : Prop :=
  exists u, caller d js header u /\ (has_role_named d u RoleAdmin \/
    exists r, r ∈ mods d /\ u_ModuleID u = Some (mid r) /\ in_scope d r b).

Lemma read_entitled js header resource h d : handler_ok d h -> answer_spec (read js header resource h) d (entitled d js header).
Proof.
  intros Hh. assert (forall a, no_data a -> d = d /\ answers (entitled d js header) a) as Hn by (split; [done|by apply answers_no_data]).
  apply db_Auth; [done|]. intros cx Hc. apply db_WithPrincipal; [done|]. intros p u Hu Hid (Er & _ & Hp).
  apply db_RequirePermission; [done|]. specialize (Hc u Hu Hid). set (cx' := mkContext _ _ _ _). destruct (Gateway.Admin p) eqn:Ea.
  - eapply db_mono; [exact (proj1 (Hh cx') Ea)|]. intros d' a [-> _]. split; [done|]. intros resp b _ _. exists u. auto.
  - destruct Hp as (r & Hr & Em & Es). eapply db_mono; [exact (proj2 (Hh cx') r Ea Hr Es)|]. intros d' a [-> Ha]. split; [done|].
    intros resp b Ea' Hb. exists u. split; [done|]. right. exists r. split; [done|]. split; [done|]. by eapply Ha.
Qed.

Lemma scoped_answers js header rt d : org_ok d -> scoped_route rt = true -> answer_spec (handle js header rt) d (entitled d js header).
Proof.
  intros Hd Hrt. destruct rt; try discriminate Hrt; cbn [handle]; apply read_entitled; intros cx; split; intros;
    auto using admin_modules, admin_module, admin_children, admin_projects, admin_project, admin_module_projects, admin_users, admin_user,
      member_modules, member_module, member_children, member_projects, member_project, member_module_projects, member_users, member_user.
Qed.

(** C10: What a reading route of the modules, the projects or the users shows goes to a
    bearer of a valid token whose user, as the database has it now, is an administrator or
    has a module, and in the second case it is data of this module, of the modules below
    it, of their projects or of their users only.  Nothing is changed, and the route ends,
    whatever fails. *)
Theorem nobody_sees_beyond_the_scope js header rt d : org_ok d -> scoped_route rt = true ->
  db_spec (X := X) (handle js header rt) d (fun d' a => d' = d /\
    forall resp b, a = Ok resp -> Data resp = Some b -> entitled d js header b).
Proof. apply scoped_answers. Qed.
End spec.
