(* ===== verification/HttpWrites.v ===== *)
(** * Who changes the organisation

    Through the administrative API only an administrator, by the role that the database
    has now, changes the organisation, but for those who register and those who change
    their own passwords. *)

From S2P Require Import Prelude GoRuntime Json Wp Store StoreLogic Errors Service Org OrgLogic Modules ModuleTree ModulePaths ModuleForest ModuleSpec Accounts Projects OrgSpec AccountsSpec Http HttpSpec HttpScope.
From S2P Require Gateway.

(** The same account but for its password. *)
Definition same_account (u v : User) : Prop :=
  ID (u_Base v) = ID (u_Base u) /\ Username v = Username u /\ Email v = Email u /\ Nickname v = Nickname u /\
  u_RoleID v = u_RoleID u /\ u_ModuleID v = u_ModuleID u.

(** What one may do without being an administrator. *)
Definition own_change (d : org) `{Jwt} (js : JWTService) (header : string) (rt : route) (d' : org) : Prop :=
  match rt with
  | POST_register _ => exists u r, d' = put_rows TableName (users d ++ [u]) d /\ r ∈ here d /\ r_Name r = RoleGuest /\
      u_RoleID u = ID (r_Base r) /\ u_ModuleID u = None
  | PUT_change_password _ => exists u v, caller d js header u /\ same_account u v /\
      d' = put_rows TableName (changed (visible (has_id (ID (u_Base u)))) (fun _ => v) (users d)) d
  | _ => False
  end.

Section spec.
Context {X : Type} `{GoRuntimeLaws, Ambient, Bcrypt, Jwt, SqlLike}.
Context `{!BcryptLaws H1}.

Abbreviation svc := (svc org X).
Abbreviation step := (action (dbstore org X)).

(** ** Handlers of administrators *)

Definition keeps_org (m : step response) : Prop := forall d, org_ok d -> db_spec m d (fun d' _ => org_ok d').

Lemma keeps_respond {A} (m : svc A) err ok : keeps m -> keeps_org (respond m err ok).
Proof. intros Hm d Hd. apply db_respond. eapply svc_mono; [by apply Hm|]. by intros d' [e|a]. Qed.
Lemma keeps_continue {A} (m : svc A) err ok : keeps m -> (forall a, keeps_org (ok a)) -> keeps_org (continue m err ok).
Proof. intros Hm Hk d Hd. apply db_continue. eapply svc_mono; [by apply Hm|]. intros d' [e|a] Hd'; [done|by apply Hk]. Qed.
Lemma keeps_response a : keeps_org (mret a).
Proof. intros d Hd. by apply db_ret. Qed.
Lemma keeps_bound {A} (req : res A) k : (forall a, keeps_org (k a)) -> keeps_org (bind req k).
Proof. intros Hk. destruct req; [apply Hk|apply keeps_response]. Qed.
Lemma keeps_path id k : (forall n, keeps_org (k n)) -> keeps_org (path_id id k).
Proof. intros Hk. unfold path_id. destruct (ParseUint32 id); [apply Hk|apply keeps_response]. Qed.

Lemma keeps_request {A} (m : svc A) rq : serve (X := X) rq = ignore m -> keeps m.
Proof. intros E d Hd. by apply (svc_keeps m rq). Qed.

Ltac served rq := apply keeps_respond, (keeps_request _ rq); reflexivity.

Lemma module_Create_keeps req : keeps_org (module_Create req).
Proof. apply keeps_bound. intros [[name parent] sort]. served (CreateModuleR name parent sort). Qed.
Lemma module_Update_keeps id req : keeps_org (module_Update id req).
Proof.
  apply keeps_bound. intros [[name parent] sort]. cbv zeta.
  assert (forall m : svc (Module_ * option Module_), m = UpdateByPublicID id name sort -> keeps_org (respond m (fun e => NotFound (Error e))
    (fun m => Success (BModule (ModuleFromModel (single m)))))) as Hu by (intros m ->; served (UpdateModuleR id name sort)).
  destruct parent as [p|]; [|by apply Hu]. apply keeps_continue; [by apply (keeps_request _ (GetModuleR id))|]. intros current.
  destruct (current.2); [|apply keeps_response]. destruct (String.eqb _ _); [by apply Hu|apply keeps_response].
Qed.
Lemma module_Delete_keeps id : keeps_org (module_Delete id).
Proof. apply keeps_respond. exact (serve_keeps (DeleteModuleR id)). Qed.
Lemma project_Create_keeps req : keeps_org (project_Create req).
Proof.
  apply keeps_bound. intros [[name m] config]. destruct (String.eqb m ""); [apply keeps_response|]. served (CreateProjectR name m config).
Qed.
Lemma project_Update_keeps id req : keeps_org (project_Update id req).
Proof. apply keeps_bound. intros [[name m] config]. served (UpdateProjectR id name m config). Qed.
Lemma project_Delete_keeps id : keeps_org (project_Delete id).
Proof. apply keeps_respond. exact (serve_keeps (DeleteProjectR id)). Qed.
Lemma user_Create_keeps req : keeps_org (user_Create req).
Proof. apply keeps_bound. intros [u e p n role m]. served (CreateUserR u e p n role m). Qed.
Lemma user_Update_keeps id req : keeps_org (user_Update id req).
Proof. apply keeps_path. intros z. apply keeps_bound. intros [[n role] m]. served (UpdateUserR z n role m). Qed.
Lemma user_Delete_keeps id : keeps_org (user_Delete id).
Proof. apply keeps_path. intros z. apply keeps_respond. exact (serve_keeps (DeleteUserR z)). Qed.

(** ** Requests that only read *)

Definition still (m : step response) : Prop := forall d, tree_ok d -> db_spec m d (fun d' _ => d' = d).

Lemma still_request {A} (m : svc A) err ok rq : serve (X := X) rq = ignore m -> reading rq = true -> still (respond m err ok).
Proof. intros E Hr d Hd. apply db_respond. eapply svc_mono; [by apply (svc_quiet m rq)|]. by intros d' [e|a]. Qed.
Lemma still_response a : still (mret a).
Proof. intros d Hd. by apply db_ret. Qed.
Lemma still_path id k : (forall n, still (k n)) -> still (path_id id k).
Proof. intros Hk. unfold path_id. destruct (ParseUint32 id); [apply Hk|apply still_response]. Qed.

Lemma role_List_still : still role_List.
Proof. by apply (still_request _ _ _ ListRolesR). Qed.
Lemma role_Get_still id : still (role_Get id).
Proof. apply still_path. intros n. by apply (still_request _ _ _ (GetRoleR n)). Qed.
Lemma role_Permissions_still id : still (role_Permissions id).
Proof. apply still_path. intros n. by apply (still_request _ _ _ (GetPermissionsR n)). Qed.
Lemma auth_Me_still cx : still (auth_Me cx).
Proof. by apply (still_request _ _ _ (GetUserR (cx_UserID cx))). Qed.
Lemma auth_Login_still js req : still (auth_Login js req).
Proof.
  destruct req as [[username password]|e]; [|apply still_response]. by apply (still_request _ _ _ (LoginR js username password)).
Qed.

(** ** What everyone may do *)

Lemma Register_changes username email password nickname d : org_ok d ->
  svc_spec (X := X) (Register username email password nickname) d (fun d' _ => d' = d \/
    exists u r, d' = put_rows TableName (users d ++ [u]) d /\ r ∈ here d /\ r_Name r = RoleGuest /\
      u_RoleID u = ID (r_Base r) /\ u_ModuleID u = None).
Proof.
  intros Hd. apply svc_mbind, svc_by_reads; [apply svc_reads_require_new|]. intros [e|[]]; [by left|].
  apply svc_mbind, svc_orElse, commit_transaction; [by left|]. apply c_bind, c_SelectFirst. intros r Hr Hname%String.eqb_eq.
  apply c_bind, c_bind. eapply db_mono; [apply hash_spec|]. intros d' [u|e] [-> Hu]; [|done]. destruct Hu as [_ Eu].
  apply c_Insert. intros id now row Hc. apply c_ret, svc_mret. right. exists row, r. unfold row. rewrite Eu. done.
Qed.

Lemma ChangePassword_changes id old new d : org_ok d ->
  svc_spec (X := X) (ChangePassword id old new) d (fun d' _ => d' = d \/
    exists u v, u ∈ here d /\ ID (u_Base u) = id /\ same_account u v /\
      d' = put_rows TableName (changed (visible (has_id id)) (fun _ => v) (users d)) d).
Proof.
  intros Hd. apply svc_mbind, svc_orElse. eapply db_mono; [apply GetUserByID_spec|]. intros ? [v|e] [-> Hv]; [|by left].
  destruct Hv as [Hv Hid]. destruct (negb _); [by apply svc_throw; left|].
  apply svc_orElse, commit_transaction; [by left|]. apply c_bind. eapply db_mono; [apply hash_spec|].
  intros d' [u'|e] [-> Hu]; [|done]. destruct Hu as [_ Eu]. apply db_stmt; [done|]. intros now. cbv zeta.
  destruct (clash_free _ _) eqn:Hnew; [|done]. right. exists (v_User v), (updated now u'). do 2 (split; [done|]).
  split; [by rewrite Eu|]. cbn [fst]. f_equal.
  assert (ID (base (updated now u')) = id) as E by (rewrite Eu; exact Hid).
  match goal with |- (if existsb ?p ?l then _ else _) = _ => assert (existsb p l = true) as -> end; [|by rewrite E]. rewrite E.
  apply existsb_exists. apply here_elem in Hv as [Hv Hl]. exists (v_User v). split; [by apply list_elem_of_In|].
  unfold visible. rewrite Hl. by apply Z.eqb_eq.
Qed.

(** ** The routes *)

Section route.
Variables (js : JWTService) (header : string) (d : org).
Hypothesis Hd : org_ok d.

Definition allowed (rt : route) (d' : org) : Prop := org_ok d' /\ (d' = d \/ own_change d js header rt d' \/
  exists u, caller d js header u /\ has_role_named d u RoleAdmin).

Lemma allowed_same rt : allowed rt d.
Proof. split; [done|by left]. Qed.

Lemma db_still rt m : still m -> db_spec m d (fun d' _ => allowed rt d').
Proof. intros Hm. eapply db_mono; [apply Hm, Hd|]. intros d' a ->. apply allowed_same. Qed.

Lemma db_admin rt h : keeps_org h -> db_spec (admin js header h) d (fun d' _ => allowed rt d').
Proof.
  intros Hh. apply db_Auth; [intros; apply allowed_same|]. intros cx Hc. apply db_WithPrincipal; [intros; apply allowed_same|].
  intros p u Hu Hid (_ & Hadmin & _). apply db_RequireRole; [intros; apply allowed_same|]. intros Hrole.
  eapply db_mono; [by apply Hh|]. intros d' a Hd'. split; [done|]. right. right. exists u. split; [by apply Hc|by apply Hadmin].
Qed.
Lemma db_admin_still rt h : still h -> db_spec (admin js header h) d (fun d' _ => allowed rt d').
Proof.
  intros Hh. apply db_Auth; [intros; apply allowed_same|]. intros cx _. apply db_WithPrincipal; [intros; apply allowed_same|].
  intros p u _ _ _. apply db_RequireRole; [intros; apply allowed_same|]. intros _. by apply db_still.
Qed.

(** C9: Whatever a request to the administrative API carries and whatever fails, it ends
    and keeps the organisation whole.  It changes something only if the token is valid and
    its user is an administrator, by the role the database has now, or if it is a
    registration, which adds one user, who has the role of guests and no module, or the
    change of the password of the user of the token. *)
Theorem only_admins_write rt : db_spec (X := X) (handle js header rt) d (fun d' _ => org_ok d' /\
  (d' = d \/ own_change d js header rt d' \/ exists u, caller d js header u /\ has_role_named d u RoleAdmin)).
Proof.
  change (db_spec (X := X) (handle js header rt) d (fun d' _ => allowed rt d')). destruct (scoped_route rt) eqn:Er.
  { eapply db_mono; [by apply scoped_answers|]. intros d' a [-> _]. apply allowed_same. }
  destruct rt; try discriminate Er; cbn [handle];
    auto using db_admin, module_Create_keeps, module_Update_keeps, module_Delete_keeps, project_Create_keeps, project_Update_keeps,
      project_Delete_keeps, user_Create_keeps, user_Update_keeps, user_Delete_keeps, db_admin_still, role_List_still, role_Get_still.
  - apply db_Auth; [intros; apply allowed_same|]. intros cx _. apply db_RequireRole; [intros; apply allowed_same|]. intros _.
    apply db_still, role_Permissions_still.
  - apply db_still, auth_Login_still.
  - destruct req as [[u e p n role m]|e]; [|apply db_ret, allowed_same]. apply db_respond.
    eapply svc_mono; [apply svc_and; [by apply (svc_keeps _ (RegisterR u e p n))|by apply Register_changes]|].
    intros d' a [Hk [->|Hc]]; [apply allowed_same|]. split; [done|]. by right; left.
  - apply db_Auth; [intros; apply allowed_same|]. intros cx _. apply db_still, auth_Me_still.
  - apply db_Auth; [intros; apply allowed_same|]. intros cx Hc. destruct req as [[old new]|e]; [|apply db_ret, allowed_same].
    apply db_respond. eapply svc_mono; [apply svc_and; [exact (serve_keeps (ChangePasswordR (cx_UserID cx) old new) d Hd)|by apply ChangePassword_changes]|].
    intros d' a [Hk [->|Hch]]; [apply allowed_same|]. split; [done|]. right. left. destruct Hch as (u & v & Hu & Hid & Hs & ->).
    exists u, v. split; [by apply Hc|]. split; [done|]. by rewrite Hid.
Qed.
End route.
End spec.
