(* ===== verification/HttpSample.v ===== *)
(** * The administrative API on the sample organisation

    A member and an administrator log in and send requests: the witnesses of the theorems
    on the routes, and a token that says more than its user may do by now. *)

From S2P Require Import Prelude GoRuntime Json Wp Store StoreLogic Errors Service Org OrgLogic Modules ModuleTree ModulePaths ModuleForest ModuleSpec Accounts Projects OrgSpec AccountsSpec OrgSample Http HttpSpec HttpScope HttpWrites.
From S2P Require Gateway.

Abbreviation answer rt header s := (handle (X := ()) sample_service header rt s).

(** A member of the module infra, and logins. *)
Definition s2 : dbstore org () := Eval vm_compute in state_of (serve (CreateUserR "mo" "mo@example.org" "secret" "Mo" 7 (Some 41))) s1.
Definition logged_in (name : string) (s : dbstore org ()) : dbstore org () * string :=
  match answer (POST_login (Ok (name, "secret"))) "" s with
  | Ret (s, Ok r) => (s, match Data r with Some (BLogin token _) => "Bearer " +:+ token | _ => "" end)
  | Ret (s, Err _) => (s, "")
  | Panic => (s, "")
  end.
Definition mo : string := (logged_in "mo" s2).2.
Definition s3 : dbstore org () := Eval vm_compute in (logged_in "mo" s2).1.
Definition boss : string := (logged_in "admin" s3).2.
Definition s4 : dbstore org () := Eval vm_compute in (logged_in "admin" s3).1.

Lemma state_of_ok {A} (m : svc org () A) s : keeps m -> org_ok (g_db s) -> org_ok (g_db (state_of m s)).
Proof. intros Hm Hs. unfold state_of. by destruct (svc_elim _ s _ (Hm (g_db s) Hs)) as (s' & a & -> & Hs'). Qed.
Lemma s2_ok : org_ok (g_db s2).
Proof.
  assert (s2 = state_of (serve (CreateUserR "mo" "mo@example.org" "secret" "Mo" 7 (Some 41))) s1) as -> by by vm_compute.
  apply state_of_ok; [apply serve_keeps|exact sample_ok].
Qed.
Lemma s4_ok : org_ok (g_db s4).
Proof. assert (g_db s4 = g_db s2) as -> by by vm_compute. exact s2_ok. Qed.

Lemma nobody_sees_beyond_the_scope_witness : exists s' resp l, answer GET_modules mo s4 = Ret (s', Ok resp) /\
  Data resp = Some (BModules l) /\ flat_map dto_ids l = ["module_40"; "module_61"] /\ entitled (g_db s4) sample_service mo (BModules l).
Proof.
  pose proof (wp_ends _ _ s4 (nobody_sees_beyond_the_scope sample_service mo GET_modules (g_db s4) s4_ok eq_refl s4 eq_refl)) as (s' & a & E & _ & Ha).
  vm_compute in E. injection E as <- <-. do 3 eexists. split; [vm_compute; reflexivity|]. split; [reflexivity|].
  split; [vm_compute; reflexivity|]. by eapply Ha.
Defined.

Lemma only_admins_write_witness : exists s' resp, answer (POST_modules (Ok ("web", Some "module_46", 1))) boss s4 = Ret (s', Ok resp) /\
  Status resp = 200 /\ org_ok (g_db s') /\ exists u, caller (g_db s4) sample_service boss u /\ has_role_named (g_db s4) u RoleAdmin.
Proof.
  pose proof (wp_ends _ _ s4 (only_admins_write sample_service boss (g_db s4) s4_ok (POST_modules (Ok ("web", Some "module_46", 1))) s4 eq_refl))
    as (s' & a & E & Hok & Ha).
  vm_compute in E. injection E as <- <-. do 2 eexists. split; [vm_compute; reflexivity|]. split; [reflexivity|]. split; [exact Hok|].
  destruct Ha as [Ha|[[]|Ha]]; [|exact Ha]. exfalso. apply (f_equal (fun d => length (modules d))) in Ha. by vm_compute in Ha.
Defined.

(** The user a token names. *)
Definition bearer (header : string) : option Z :=
  match split_space header with Some (_, token) => (fun p => c_UserID p.2) <$> decode (A := string * Claims) (of_digits token) | None => None end.
Lemma caller_bearer d js header u : caller d js header u -> bearer header = Some (ID (u_Base u)).
Proof.
  intros (scheme & token & now & c & Es & Ep & _ & ->). unfold bearer. rewrite Es. cbn -[decode] in Ep.
  destruct (decode _) as [[k c']|]; [|done]. destruct (_ && _); [|done]. by injection Ep as ->.
Qed.

(** The route of the permissions of a role looks at the role in the token and not at
    the user: an administrator who has been made a guest still reads them with the token
    of before, while a role is shown to administrators of now only. *)
Theorem demoted_admin_keeps_reading :
  let demoted := state_of (serve (UpdateUserR 37 "" 23 None)) s4 in
  (exists s' perms, answer (GET_role_permissions "1") boss demoted = Ret (s', Ok (Success (BPermissions perms)))) /\
  (exists s', answer (GET_role "1") boss demoted = Ret (s', Ok (Forbidden Gateway.ErrForbidden))) /\
  forall u, caller (g_db demoted) sample_service boss u -> ~ has_role_named (g_db demoted) u RoleAdmin.
Proof.
  cbv zeta. split; [do 2 eexists; vm_compute; reflexivity|]. split; [eexists; vm_compute; reflexivity|].
  intros u Hc (r & Hr & Er & En). assert (bearer boss = Some 37) as Hb by by vm_compute.
  pose proof (caller_bearer _ _ _ _ Hc) as Hu. rewrite Hb in Hu. injection Hu as Hu. destruct Hc as (_ & _ & _ & _ & _ & _ & Hin & _).
  assert (u_RoleID u = 23) as E.
  { revert Hin. vm_compute. intros Hin. repeat (apply elem_of_cons in Hin as [->|Hin]; [try done|]); by apply elem_of_nil in Hin. }
  rewrite E in Er. revert Hr. vm_compute. intros Hr.
  repeat (apply elem_of_cons in Hr as [->|Hr]; [done|]). by apply elem_of_nil in Hr.
Qed.

(** The refusal to delete the last administrator is answered as a user who is not
    found, since the error is compared with one made on the spot. *)
Theorem last_admin_is_not_found : exists s' message, answer (DELETE_user "37") boss s4 = Ret (s', Ok (NotFound message)) /\
  message = Error (New CodeLastAdmin "") /\ length (admins (g_db s4)) = 1%nat.
Proof.
  exists (state_of (handle (X := ()) sample_service boss (DELETE_user "37")) s4), (Error (New CodeLastAdmin "")). split; [vm_compute; reflexivity|].
  split; [reflexivity|vm_compute; reflexivity].
Qed.
