(* ===== verification/HttpGateway.v ===== *)
(** * The routes of the resource gateway

    handler/resource_gateway.go: the requests of workspaces, applications, clusters and
    operations as [Register] composes them, from the header of a request to its response.
    The database is the organisation with its records; the operations and the outbox are
    the tables beside it that only the gateway looks at.  The service takes its actor from
    the context of gin, which asks the context of the request, where the principal is,
    only when the engine is configured so ([ContextWithFallback]). *)

From S2P Require Import Prelude GoRuntime Json Api Clients EngineTypes EngineAdapter Wp Store StoreLogic Errors Service Org OrgLogic Modules ModuleTree ModulePaths ModuleForest ModuleSpec Accounts Projects OrgSpec AccountsSpec Http HttpSpec.
From S2P Require PortalStore Gateway GatewayMachine GatewaySpec GatewayWorker GatewaySample OrgSample HttpSample.

Abbreviation ResourceView := Gateway.ResourceView.
Abbreviation Operation := PortalStore.Operation.
Abbreviation ResourceRecord := PortalStore.ResourceRecord.

(** ** Responses *)

Inductive gateway_body := GItems (l : list ResourceView) | GItem (v : ResourceView) | GOperation (op : Operation).
Abbreviation gateway_response := (Response gateway_body).

Fixpoint contains (s sub : string) : bool :=
  String.prefix sub s || match s with "" => false | String _ s => contains s sub end.

(** The sentinels are returned as they are, so that [errors.Is] compares texts. *)
Definition writeError (err : string) : gateway_response :=
  if String.eqb err Gateway.ErrForbidden then Forbidden err
  else if String.eqb err Gateway.ErrIdempotencyConflict then Conflict err
  else if existsb (String.eqb err) [Gateway.ErrParentImmutable; Gateway.ErrWorkspaceNamespaceInUse; Gateway.ErrConcurrentModification; Gateway.ErrParentUnavailable]
  then Conflict err
  else if String.eqb err ErrRecordNotFound then NotFound "resource not found"
  else if existsb (contains err) ["immutable"; "cannot delete"; "awaiting adoption"; "unsupported Engine"] then Conflict err
  else BadRequest err.

Definition accepted (op : Operation) : gateway_response := mkResponse 202 0 "accepted" (Some (GOperation op)).

(** ** The gateway on the tables of the organisation *)

(** Of a project and a user, what the gateway reads, with the associations it loads. *)
Definition project_row (d : org) (p : Project) : PortalStore.Project :=
  PortalStore.mkProject (ID (p_Base p)) (p_PublicID p) (p_ModuleID p) (default "" (m_PublicID <$> List.find (has_id (p_ModuleID p)) (here d))).
Definition user_row (d : org) (u : User) : PortalStore.User :=
  PortalStore.mkUser (ID (u_Base u)) (u_RoleID u) (default "" (r_Name <$> List.find (has_id (u_RoleID u)) (here (Row := Role) d))) (u_ModuleID u)
    (z ← u_ModuleID u; m_PublicID <$> List.find (has_id z) (here d)).

(** gin's setting, which the server that main.go builds brings along. *)
Class HttpEngine := { ContextWithFallback : bool }.

Section gateway.
Context `{GoRuntime, Ambient, Bcrypt, Jwt, SqlLike}.
Context `{Gateway.GatewayJson, EngineTypes, !AdapterJson, Kubernetes, ApiErrors, !Gateway.EngineApi, HttpEngine}.

(** What is beside the organisation. *)
Record gateway_rest := mkGatewayRest {
  gr_operations : list Operation; gr_outbox : list PortalStore.OutboxEvent; gr_outside : Gateway.portal_outside }.
Abbreviation step := (action (dbstore org gateway_rest)).

Definition gateway_db (d : org) (x : gateway_rest) : PortalStore.db :=
  PortalStore.mkDb (resources d) (gr_operations x) (gr_outbox x) (project_row d <$> here d) (user_row d <$> here d).
Definition with_resources (l : list ResourceRecord) (d : org) : org := mkOrg (modules d) (projects d) (users d) (roles d) (permissions d) l.
(** A call of the service; projects and users it only reads. *)
Definition on_gateway {A} (m : action (PortalStore.store Gateway.portal_outside) A) : step A := fun s =>
  match m (mkStore (gateway_db (g_db s) (g_outside s)) (gr_outside (g_outside s)) (g_clock s)) with
  | Ret (s', r) => Ret (mkStore (with_resources (PortalStore.records (g_db s')) (g_db s))
      (mkGatewayRest (PortalStore.operations (g_db s')) (PortalStore.outbox (g_db s')) (g_outside s')) (g_clock s'), r)
  | Panic => Panic
  end.

(** ** Handlers *)

(** [principalFrom(ctx)] of a gin context. *)
Definition PrincipalFromContext (p : Principal) : Principal := if ContextWithFallback then p else internal_principal.
Definition service_actor (cx : context) : Principal := PrincipalFromContext (cx_Principal cx).

Definition answer_with {A} (m : action (PortalStore.store Gateway.portal_outside) A) (err : string -> gateway_response) (ok : A -> gateway_response) :
    step gateway_response :=
  r ← attempt (on_gateway m); mret (match r with Ok a => ok a | Err e => err e end).

Definition list_ (kind : string) (cx : context) : step gateway_response :=
  answer_with (Gateway.List_ (service_actor cx) kind) InternalError (fun items => Success (GItems items)).
Definition get (kind id : string) (cx : context) : step gateway_response :=
  answer_with (Gateway.Get (service_actor cx) id kind) writeError (fun item => Success (GItem item)).
Definition create (kind : string) (req : res Gateway.ResourceInput) (key : string) (cx : context) : step gateway_response :=
  bind req (fun input => answer_with (Gateway.CreateResource (service_actor cx) kind input key) writeError accepted).
Definition update (kind id : string) (req : res Gateway.ResourceInput) (key : string) (cx : context) : step gateway_response :=
  bind req (fun input => answer_with (Gateway.Update (service_actor cx) id kind input key) writeError accepted).
Definition delete_ (kind id key : string) (cx : context) : step gateway_response :=
  answer_with (Gateway.Delete (service_actor cx) id kind key) writeError accepted.
Definition adopt (id key : string) (cx : context) : step gateway_response :=
  answer_with (Gateway.AdoptCluster (service_actor cx) id key) writeError accepted.
(** The body has a project and a workspace. *)
Definition adoptExisting (kind id : string) (req : res (string * string)) (key : string) (cx : context) : step gateway_response :=
  bind req (fun '(project, workspace) =>
    answer_with (Gateway.AdoptExisting (service_actor cx) id kind (Gateway.mkInput "" project workspace (EngineAdapter.Dto.mkDesired None None)) key)
      writeError accepted).
Definition operation (id : string) (cx : context) : step gateway_response :=
  answer_with (Gateway.GetOperation (service_actor cx) id) writeError (fun op => Success (GOperation op)).

(** ** Routes *)

Inductive gateway_kind := Workspaces | Applications.
Definition kind_name (k : gateway_kind) : string := match k with Workspaces => Gateway.ResourceWorkspace | Applications => Gateway.ResourceApplication end.

Inductive gateway_route :=
| GET_resources (k : gateway_kind) | POST_resources (k : gateway_kind) (req : res Gateway.ResourceInput) (key : string)
| GET_resource (k : gateway_kind) (id : string) | PUT_resource (k : gateway_kind) (id : string) (req : res Gateway.ResourceInput) (key : string)
| DELETE_resource (k : gateway_kind) (id key : string)
| POST_adopt_existing (k : gateway_kind) (id : string) (req : res (string * string)) (key : string)
| GET_clusters | GET_cluster (id : string) | POST_adopt (id key : string) | GET_operation (id : string).

(** Resource and action of [authorize]; the route of operations has none. *)
Definition permission (rt : gateway_route) : option (string * string) :=
  match rt with
  | GET_resources k | GET_resource k _ => Some (kind_name k, "read")
  | POST_resources k _ _ | PUT_resource k _ _ _ | DELETE_resource k _ _ | POST_adopt_existing k _ _ _ => Some (kind_name k, "write")
  | GET_clusters | GET_cluster _ => Some (Gateway.ResourceCluster, "read")
  | POST_adopt _ _ => Some (Gateway.ResourceCluster, "write")
  | GET_operation _ => None
  end.
Definition handler (rt : gateway_route) (cx : context) : step gateway_response :=
  match rt with
  | GET_resources k => list_ (kind_name k) cx
  | POST_resources k req key => create (kind_name k) req key cx
  | GET_resource k id => get (kind_name k) id cx
  | PUT_resource k id req key => update (kind_name k) id req key cx
  | DELETE_resource k id key => delete_ (kind_name k) id key cx
  | POST_adopt_existing k id req key => adoptExisting (kind_name k) id req key cx
  | GET_clusters => list_ Gateway.ResourceCluster cx
  | GET_cluster id => get Gateway.ResourceCluster id cx
  | POST_adopt id key => adopt id key cx
  | GET_operation id => operation id cx
  end.

Definition authorize (rt : gateway_route) (cx : context) (k : step gateway_response) : step gateway_response :=
  match permission rt with Some (resource, action) => RequirePermission resource action cx k | None => k end.
(** [Register] *)
Definition serve_gateway (js : JWTService) (header : string) (rt : gateway_route) : step gateway_response :=
  Auth js header (fun cx => WithPrincipal cx (fun cx => authorize rt cx (handler rt cx))).
End gateway.

(** ** Actions of the gateway *)

Section actions.
Context `{GoRuntime, Ambient, Gateway.GatewayJson, EngineTypes, !AdapterJson, Kubernetes, ApiErrors, !Gateway.EngineApi}.
Abbreviation portal := (PortalStore.store Gateway.portal_outside).
Abbreviation step := (action portal).

(** The service leaves projects and users alone. *)
Definition same_people : relation portal := fun s s' =>
  PortalStore.projects (g_db s') = PortalStore.projects (g_db s) /\ PortalStore.users (g_db s') = PortalStore.users (g_db s).
#[local] Instance same_people_preorder : PreOrder same_people.
Proof. split; [by split|]. intros s1 s2 s3 [E1 E2] [E3 E4]. split; congruence. Qed.

Lemma people_stmt {A} (f : Z -> PortalStore.db -> PortalStore.db * res A) :
  (forall now d, PortalStore.projects (f now d).1 = PortalStore.projects d /\ PortalStore.users (f now d).1 = PortalStore.users d) ->
  Wp.within same_people (stmt f).
Proof.
  intros Hf s. unfold wp, stmt. destruct (db_error _); [by split|]. specialize (Hf (time_now (g_clock s)) (g_db s)). by destruct (f _ _).
Qed.
Lemma people_transaction {A} (m : step A) : Wp.within same_people m -> Wp.within same_people (transaction m).
Proof.
  intros Hm s. specialize (Hm s). unfold wp, transaction in *. destruct (m s) as [[s' [a|e]]|]; [|by split|done]. by destruct (db_error _).
Qed.
Lemma people_First {Row} (t : PortalStore.table Row) p : Wp.within same_people (Store.First t p).
Proof. by apply people_stmt. Qed.
Lemma people_Count {Row} (t : PortalStore.table Row) p : Wp.within same_people (Store.Count t p).
Proof. by apply people_stmt. Qed.
Lemma people_Create {Row} (t : PortalStore.table Row) row :
  (forall l d, PortalStore.projects (put_rows t l d) = PortalStore.projects d /\ PortalStore.users (put_rows t l d) = PortalStore.users d) ->
  Wp.within same_people (Store.Create t row).
Proof. intros Ht. apply people_stmt. intros now d. destruct (existsb _ _); [done|apply Ht]. Qed.
Lemma people_Updates {Row} (t : PortalStore.table Row) p change :
  (forall l d, PortalStore.projects (put_rows t l d) = PortalStore.projects d /\ PortalStore.users (put_rows t l d) = PortalStore.users d) ->
  Wp.within same_people (Store.Updates t p change).
Proof. intros Ht. apply people_stmt. intros now d. cbv zeta. destruct (clash_free _ _); [apply Ht|done]. Qed.
Lemma people_newPublicID prefix : Wp.within same_people (newPublicID prefix).
Proof. by intros s. Qed.
Lemma people_Now : Wp.within same_people Now.
Proof. by intros s. Qed.
#[local] Hint Resolve people_First people_Count people_newPublicID people_Now : within.
#[local] Hint Extern 1 (Wp.within _ (Store.Create _ _)) => by apply people_Create : within.
#[local] Hint Extern 1 (Wp.within _ (Store.Updates _ _ _)) => by apply people_Updates : within.

Ltac people := repeat first [progress solve_within | apply people_transaction].

Lemma requests_leave_people actor key q : Wp.within same_people (GatewaySpec.serve actor key q).
Proof.
  destruct q; cbn [GatewaySpec.serve]; unfold Gateway.CreateResource, Gateway.Delete, Gateway.AdoptCluster, Gateway.AdoptExisting, Gateway.idempotent,
    Gateway.key_or_new, Gateway.findIdempotent, Gateway.create_body, Gateway.delete_body, Gateway.adopt_body, Gateway.adopt_existing_body,
    Gateway.adoptive_owner, Gateway.place_workspace, Gateway.place_application, Gateway.create_operation; people.
Qed.
Lemma update_leaves_people actor id kind input key : Wp.within same_people (Gateway.Update actor id kind input key).
Proof.
  unfold Gateway.Update, Gateway.load_update, Gateway.commit_update, Gateway.check_namespace, Gateway.idempotent, Gateway.key_or_new,
    Gateway.findIdempotent, Gateway.update_body, Gateway.create_operation; people.
Qed.

(** *** Whose operation a request gets *)

(** A value that is returned satisfies [P]. *)
Definition yields {A} (P : A -> Prop) (m : step A) : Prop := forall s, wp m (fun _ r => forall a, r = Ok a -> P a) s.

Lemma yields_bind {A B} (P : B -> Prop) (m : step A) (f : A -> step B) : Wp.within same_people m -> (forall a, yields P (f a)) -> yields P (m ≫= f).
Proof. intros Hm Hf s. apply wp_bind. eapply wp_mono; [apply Hm|]. intros s' [a|e] _; [apply Hf|done]. Qed.
Lemma yields_post {A B} (P0 : A -> Prop) (P : B -> Prop) (m : step A) (f : A -> step B) : yields P0 m -> (forall a, P0 a -> yields P (f a)) -> yields P (m ≫= f).
Proof. intros Hm Hf s. apply wp_bind. eapply wp_mono; [apply Hm|]. intros s' [a|e] Ha; [by apply Hf, Ha|done]. Qed.
Lemma yields_ret {A} (P : A -> Prop) a : P a -> yields P (mret a).
Proof. intros Hp s a' [= <-]. exact Hp. Qed.
Lemma yields_fail {A} (P : A -> Prop) e : yields P (fail e).
Proof. by intros s a'. Qed.
Lemma yields_attempt {A} (P : A -> Prop) (m : step A) : yields P m -> yields (fun r => forall a, r = Ok a -> P a) (attempt m).
Proof. intros Hm s. apply wp_attempt. eapply wp_mono; [apply Hm|]. intros s' r Hr ? [= <-]. exact Hr. Qed.
Lemma yields_transaction {A} (P : A -> Prop) (m : step A) : yields P m -> yields P (transaction m).
Proof. intros Hm s. specialize (Hm s). unfold wp, transaction in *. destruct (m s) as [[s' [a|e]]|]; [|done..]. by destruct (db_error _). Qed.
Lemma yields_First {Row} (t : PortalStore.table Row) p : yields (fun r => p r = true) (Store.First t p).
Proof.
  intros s. unfold wp, Store.First, FirstBy, stmt. destruct (db_error _); [done|]. destruct (least _ _) as [r|] eqn:E; [|done].
  intros ? [= <-]. apply least_elem, filter_bool_elem in E. apply E.
Qed.
Lemma yields_Create {Row} (t : PortalStore.table Row) row : yields (fun r => exists now, r = row now) (Store.Create t row).
Proof. intros s. unfold wp, Store.Create, stmt. destruct (db_error _); [done|]. destruct (existsb _ _); [done|]. intros ? [= <-]. by eexists. Qed.

Definition by_actor (actor : Principal) (op : Operation) : Prop := PortalStore.ActorID op = Gateway.UserID actor.

Lemma findIdempotent_by actor key fp :
  yields (fun found => forall op, found = Some op -> by_actor actor op) (Gateway.findIdempotent (Gateway.UserID actor) key fp).
Proof.
  eapply yields_post; [apply yields_attempt, yields_First|]. intros [op|e] Hop; [|destruct (String.eqb _ _); [by apply yields_ret|apply yields_fail]].
  destruct (negb _); [apply yields_fail|]. apply yields_ret. intros ? [= <-]. specialize (Hop op eq_refl). cbn in Hop.
  apply andb_prop in Hop as [Hop _]. by apply Z.eqb_eq.
Qed.
Lemma idempotent_by actor key fp body : yields (by_actor actor) body -> yields (by_actor actor) (Gateway.idempotent actor key fp body).
Proof.
  intros Hb. eapply yields_post; [apply yields_attempt, yields_transaction|].
  - eapply yields_post; [apply findIdempotent_by|]. intros [op|] Hop; [by apply yields_ret, Hop|exact Hb].
  - intros [op|e] Hr; [by apply yields_ret, Hr|]. destruct (Gateway.isUniqueConflict e); [|apply yields_fail].
    eapply yields_post; [apply findIdempotent_by|]. intros [op|] Hop; [by apply yields_ret, Hop|apply yields_fail].
Qed.
Lemma create_operation_by actor key m route fp id action revision :
  yields (by_actor actor) (Gateway.create_operation key (Gateway.UserID actor) m route fp id action revision).
Proof.
  apply yields_bind; [solve_within|]. intros opID. eapply yields_post; [apply yields_Create|]. intros op [now ->].
  do 3 (apply yields_bind; [solve_within|]; intros ?). by apply yields_ret.
Qed.
Create HintDb yields.
#[local] Hint Resolve create_operation_by yields_fail : yields.

(** Through the binds and branches of the body of a request. *)
Ltac solve_yields := repeat first
  [ solve [auto with yields] | apply idempotent_by | apply yields_bind; [solve [people]|intros ?]
  | match goal with |- yields _ (if ?b then _ else _) => destruct b end | match goal with |- yields _ (let '(_, _) := ?x in _) => destruct x end ].

Lemma requests_get_their_operation actor key q : yields (by_actor actor) (GatewaySpec.serve actor key q).
Proof.
  destruct q; cbn [GatewaySpec.serve]; unfold Gateway.CreateResource, Gateway.Delete, Gateway.AdoptCluster, Gateway.AdoptExisting,
    Gateway.key_or_new, Gateway.create_body, Gateway.delete_body, Gateway.adopt_body, Gateway.adopt_existing_body,
    Gateway.adoptive_owner, Gateway.place_workspace, Gateway.place_application; solve_yields.
Qed.
Lemma update_gets_its_operation actor id kind input key : yields (by_actor actor) (Gateway.Update actor id kind input key).
Proof.
  unfold Gateway.Update, Gateway.load_update, Gateway.commit_update, Gateway.check_namespace, Gateway.key_or_new, Gateway.update_body; solve_yields.
Qed.
End actions.

(** ** From the header to the records *)

Section routes.
Context `{GoRuntimeLaws, Ambient, Bcrypt, Jwt, SqlLike} `{!BcryptLaws H1}.
Context `{Gateway.GatewayJson, EngineTypes, !AdapterJson, Kubernetes, ApiErrors, !Gateway.EngineApi, HttpEngine}.
Abbreviation step := (action (dbstore org gateway_rest)).
Implicit Types (s : dbstore org gateway_rest) (rt : gateway_route) (p : Principal).

(** *** The middleware leaves the tables of the gateway alone *)

Definition same_rest : relation (dbstore org gateway_rest) := fun s s' => g_outside s' = g_outside s.
#[local] Instance same_rest_preorder : PreOrder same_rest.
Proof. split; [done|]. intros s1 s2 s3 E1 E2. by transitivity (g_outside s2). Qed.

Lemma rest_stmt {A} (f : Z -> org -> org * res A) : Wp.within same_rest (stmt f).
Proof. intros s. unfold wp, stmt. destruct (db_error _); [done|]. by destruct (f _ _). Qed.
Lemma rest_SelectFirst {Row} `{!Model Row} q : Wp.within same_rest (SelectFirst (X := gateway_rest) q).
Proof. apply rest_stmt. Qed.
Lemma rest_SelectAll {Row} `{!Model Row} q : Wp.within same_rest (SelectAll (X := gateway_rest) q).
Proof. apply rest_stmt. Qed.
#[local] Hint Resolve rest_SelectFirst rest_SelectAll : within.

Lemma PrincipalForUser_rest id : Wp.within same_rest (PrincipalForUser (X := gateway_rest) id).
Proof. unfold PrincipalForUser, GetUserByID, Org.GetByID, preload. solve_within. Qed.
Lemma CheckPermission_rest role resource action : Wp.within same_rest (CheckPermission (X := gateway_rest) role resource action : step _).
Proof.
  unfold CheckPermission, GetPermissionsByRoleID. apply within_bind; [exact _| |].
  - apply within_bind; [exact _|apply within_attempt, rest_SelectAll|]. intros [a|e]; solve_within.
  - by intros [e|a] s.
Qed.

(** *** What a response shows *)

Definition shows s p (b : gateway_body) : Prop :=
  let shown v := exists r, r ∈ resources (g_db s) /\ Gateway.scope p r = true /\ Gateway.recordView r = Ok v in
  match b with
  | GItems l => forall v, v ∈ l -> shown v
  | GItem v => shown v
  | GOperation op => Gateway.Admin p = true \/ PortalStore.ActorID op = Gateway.UserID p
  end.

(** Whoever is served: the bearer, as the tables have the user now, with what the role may do. *)
Record served js header rt s p u : Prop := mkServed {
  served_caller : caller (g_db s) js header u;
  served_scope : principal_of (g_db s) u p;
  served_user : Gateway.UserID p = ID (u_Base u);
  served_granted : forall resource action, permission rt = Some (resource, action) -> granted (g_db s) (u_RoleID u) resource action;
}.
Definition same_tables s s' : Prop :=
  g_db s' = g_db s /\ gr_operations (g_outside s') = gr_operations (g_outside s) /\ gr_outbox (g_outside s') = gr_outbox (g_outside s).
(** The records, the operations and the outbox have changed, the records inside of the scope. *)
Definition changed_within p s s' : Prop :=
  g_db s' = with_resources (resources (g_db s')) (g_db s) /\
  GatewaySpec.within p (gateway_db (g_db s) (g_outside s)) (gateway_db (g_db s') (g_outside s')).

(** *** The steps of a request *)

Implicit Types (Q : dbstore org gateway_rest -> res gateway_response -> Prop).

Lemma same_tables_of s s' : g_db s' = g_db s -> g_outside s' = g_outside s -> same_tables s s'.
Proof. intros E1 E2. split; [exact E1|]. by rewrite E2. Qed.
Lemma db_to_wp {A} (m : step A) (P : org -> res A -> Prop) s : db_spec m (g_db s) P -> Wp.within same_rest m ->
  wp m (fun s' r => P (g_db s') r /\ g_outside s' = g_outside s) s.
Proof. intros Hd Hr. apply wp_and; [by apply Hd|apply Hr]. Qed.

Lemma wp_Auth js header k Q s : (forall s' a, same_tables s s' -> no_data a -> Q s' a) ->
  (forall cx s', same_tables s s' -> (forall u, u ∈ here (g_db s) -> ID (u_Base u) = cx_UserID cx -> caller (g_db s) js header u) -> wp (k cx) Q s') ->
  wp (Auth js header k) Q s.
Proof.
  intros Hn Hk. unfold Auth. destruct (String.eqb header ""); [by apply wp_ret, Hn|]. destruct (split_space header) as [[scheme token]|] eqn:E; [|by apply wp_ret, Hn].
  destruct (negb _); [by apply wp_ret, Hn|]. apply wp_bind, wp_attempt. unfold ParseToken. apply wp_bind. unfold wp at 1, Now.
  apply wp_of_res. destruct (ParseWithClaims _ _ _) as [c|e] eqn:Ep; [|by apply wp_ret, Hn]. apply Hk; [done|]. cbn. intros u Hu Hid.
  by exists scheme, token, (time_now (g_clock s)), c.
Qed.

Lemma wp_WithPrincipal cx k Q s : (forall s' a, same_tables s s' -> no_data a -> Q s' a) ->
  (forall p u s', same_tables s s' -> u ∈ here (g_db s) -> ID (u_Base u) = cx_UserID cx -> Gateway.UserID p = cx_UserID cx -> principal_of (g_db s) u p ->
     wp (k (mkContext (cx_UserID cx) (Gateway.RoleID p) (Gateway.RoleName p) p)) Q s') ->
  wp (WithPrincipal cx k) Q s.
Proof.
  intros Hn Hk. apply wp_bind, wp_attempt. eapply wp_mono; [apply db_to_wp; [apply PrincipalForUser_spec|apply PrincipalForUser_rest]|].
  intros s' [p|e] [[Hd Hp] Hx].
  - destruct (Hp p eq_refl) as (u & Hu & Hid & Hpid & Hpu). apply (Hk p u); [by apply same_tables_of|done..].
  - apply wp_ret, Hn; [by apply same_tables_of|]. by destruct (String.eqb _ _).
Qed.

Lemma wp_authorize rt cx k Q s : (forall s' a, same_tables s s' -> no_data a -> Q s' a) ->
  (forall s', same_tables s s' ->
     (forall resource action, permission rt = Some (resource, action) -> granted (g_db s) (cx_RoleID cx) resource action) -> wp k Q s') ->
  wp (authorize rt cx k) Q s.
Proof.
  intros Hn Hk. unfold authorize. destruct (permission rt) as [[resource action]|]; [|by apply Hk]. apply wp_bind.
  eapply wp_mono; [apply db_to_wp; [apply CheckPermission_spec|apply CheckPermission_rest]|]. intros s' [[e|allowed]|e] [Hr Hx]; [|..|done].
  - destruct Hr as [Hd _]. apply wp_ret, Hn; [by apply same_tables_of|done].
  - destruct Hr as [Hd Hg]. destruct allowed; cbn [negb]; [|apply wp_ret, Hn; [by apply same_tables_of|done]]. apply Hk; [by apply same_tables_of|]. intros ? ? [= <- <-]. by apply Hg.
Qed.

Lemma wp_answer {A} (m : action (PortalStore.store Gateway.portal_outside) A) err ok (P : PortalStore.db -> res A -> Prop) Q s :
  db_spec m (gateway_db (g_db s) (g_outside s)) P ->
  (forall s' d' r, P d' r -> g_db s' = with_resources (PortalStore.records d') (g_db s) ->
     gr_operations (g_outside s') = PortalStore.operations d' -> gr_outbox (g_outside s') = PortalStore.outbox d' ->
     Q s' (Ok match r with Ok a => ok a | Err e => err e end)) -> wp (answer_with m err ok) Q s.
Proof.
  intros Hm HQ. apply wp_bind, wp_attempt. specialize (Hm (mkStore (gateway_db (g_db s) (g_outside s)) (gr_outside (g_outside s)) (g_clock s)) eq_refl).
  unfold wp at 1. unfold wp in Hm. unfold on_gateway. destruct (m _) as [[s' r]|]; [|done]. apply wp_ret. by apply (HQ _ (g_db s')).
Qed.

Lemma writeError_no_data e : no_data (Ok (writeError e)).
Proof. unfold writeError. by repeat case_match. Qed.
Lemma with_resources_same d : with_resources (resources d) d = d.
Proof. by destruct d. Qed.

(** *** Reading *)

Lemma reading s p {A} (m : action (PortalStore.store Gateway.portal_outside) A) err (ok : A -> gateway_response) :
  (forall e, no_data (Ok (err e))) ->
  db_spec m (gateway_db (g_db s) (g_outside s)) (fun d' r => d' = gateway_db (g_db s) (g_outside s) /\
    forall a b, r = Ok a -> Data (ok a) = Some b -> shows s p b) ->
  wp (answer_with m err ok) (fun s' a => same_tables s s' /\ forall resp b, a = Ok resp -> Data resp = Some b -> shows s p b) s.
Proof.
  intros Hn Hm. eapply wp_answer; [exact Hm|]. intros s' d' r [-> Hr] Hd Ho He. cbn in Hd, Ho, He. rewrite with_resources_same in Hd. split; [done|].
  intros resp b [= <-] Hb. destruct r as [a|e]; [by eapply Hr|]. specialize (Hn e). cbn in Hn. congruence.
Qed.

Lemma list_reads kind s p : db_spec (Gateway.List_ p kind) (gateway_db (g_db s) (g_outside s)) (fun d' r => d' = gateway_db (g_db s) (g_outside s) /\
  forall a b, r = Ok a -> Data (Success (GItems a)) = Some b -> shows s p b).
Proof.
  apply db_bind, db_Find; [done|]. apply db_of_res. split; [done|]. intros a b Ha [= <-] v Hv.
  apply EngineAdapter.map_res_Forall2 in Ha. apply list_elem_of_lookup in Hv as [i Hi].
  destruct (Forall2_lookup_r _ _ _ _ _ Ha Hi) as (r & Hr & Hrv). apply list_elem_of_lookup_2, go_sort_elem, filter_bool_elem in Hr as [Hr Hc].
  exists r. split; [exact Hr|]. split; [|exact Hrv]. by repeat (apply andb_prop in Hc as [Hc _]).
Qed.
Lemma get_reads kind id s p : db_spec (Gateway.Get p id kind) (gateway_db (g_db s) (g_outside s)) (fun d' r => d' = gateway_db (g_db s) (g_outside s) /\
  forall a b, r = Ok a -> Data (Success (GItem a)) = Some b -> shows s p b).
Proof.
  apply db_bind, db_First; [done|]. intros r Hr Hc. apply db_of_res. split; [done|]. intros a b Ha [= <-]. exists r. split; [exact Hr|]. split; [|exact Ha].
  by repeat (apply andb_prop in Hc as [Hc _]).
Qed.
Lemma operation_reads id s p : db_spec (Gateway.GetOperation p id) (gateway_db (g_db s) (g_outside s)) (fun d' r => d' = gateway_db (g_db s) (g_outside s) /\
  forall a b, r = Ok a -> Data (Success (GOperation a)) = Some b -> shows s p b).
Proof.
  apply db_First; [done|]. intros op Hop Hc. split; [done|]. intros a b [= <-] [= <-]. cbn. apply andb_prop in Hc as [_ Hc].
  apply orb_prop in Hc as [?|[?%Z.eqb_eq _]%andb_prop]; [by left|by right].
Qed.

(** *** Writing *)

Lemma writing s p (m : action (PortalStore.store Gateway.portal_outside) Operation) :
  db_spec m (gateway_db (g_db s) (g_outside s)) (fun d' _ => GatewaySpec.within p (gateway_db (g_db s) (g_outside s)) d') -> yields (by_actor p) m ->
  wp (answer_with m writeError accepted) (fun s' a => changed_within p s s' /\ forall resp b, a = Ok resp -> Data resp = Some b -> shows s p b) s.
Proof.
  intros Hm Hy. eapply wp_answer; [apply db_and; [exact Hm|]|].
  { refine ((_ : db_spec m _ (fun _ r => forall op, r = Ok op -> by_actor p op))). intros s0 _. apply Hy. }
  intros s' d' r [Hw Hr] Hd Ho He. split.
  - split; [by rewrite Hd|]. rewrite Hd. exact Hw.
  - intros resp b [= <-] Hb. destruct r as [op|e]; [|pose proof (writeError_no_data e) as Hn; cbn in Hn; congruence].
    injection Hb as <-. right. by apply Hr.
Qed.
(** *** The routes *)

Definition writes rt : bool := match permission rt with Some (_, action) => String.eqb action "write" | None => false end.
(** What a request has done in the scope of [p], and what it shows. *)
Definition outcome_in p rt s s' (a : res gateway_response) : Prop :=
  (same_tables s s' \/ writes rt = true /\ changed_within p s s') /\ forall resp b, a = Ok resp -> Data resp = Some b -> shows s p b.

Lemma outcome_refused p rt s s' a : same_tables s s' -> no_data a -> outcome_in p rt s s' a.
Proof. intros Hs Hn. split; [by left|]. intros resp b -> Hb. cbn in Hn. congruence. Qed.
Lemma outcome_from p rt s0 s s' a : same_tables s0 s -> outcome_in p rt s s' a -> outcome_in p rt s0 s' a.
Proof.
  intros (Ed & Eo & Ee) [Hc Hs]. assert (gateway_db (g_db s) (g_outside s) = gateway_db (g_db s0) (g_outside s0)) as Eg by (unfold gateway_db; congruence).
  split.
  - destruct Hc as [(? & ? & ?)|[Hw [H1' H2']]]; [left; split_and!; congruence|]. right. split; [exact Hw|]. unfold changed_within. by rewrite <- Eg, <- Ed.
  - intros resp b Ea Hb. specialize (Hs resp b Ea Hb). unfold shows in *. by rewrite <- Ed.
Qed.

Lemma handler_outcome rt cx s : GatewayMachine.indexes_ok (gateway_db (g_db s) (g_outside s)) ->
  wp (handler rt cx) (outcome_in (service_actor cx) rt s) s.
Proof.
  intros Hi.
  assert (forall m, wp m (fun s' a => same_tables s s' /\ forall resp b, a = Ok resp -> Data resp = Some b -> shows s (service_actor cx) b) s ->
    wp m (outcome_in (service_actor cx) rt s) s) as Hread by (intros m Hm; eapply wp_mono; [exact Hm|]; intros s' a [? ?]; split; [by left|done]).
  assert (forall m, writes rt = true -> wp m (fun s' a => changed_within (service_actor cx) s s' /\
      forall resp b, a = Ok resp -> Data resp = Some b -> shows s (service_actor cx) b) s ->
    wp m (outcome_in (service_actor cx) rt s) s) as Hwrite by (intros m Hw Hm; eapply wp_mono; [exact Hm|]; intros s' a [? ?]; split; [by right|done]).
  assert (forall A (req : res A) k, (forall x, wp (k x) (outcome_in (service_actor cx) rt s) s) -> wp (bind req k) (outcome_in (service_actor cx) rt s) s) as Hbind.
  { intros A req k Hk. destruct req; [apply Hk|]. by apply wp_ret, outcome_refused. }
  assert (forall key q, db_spec (GatewaySpec.serve (service_actor cx) key q) (gateway_db (g_db s) (g_outside s))
    (fun d' _ => GatewaySpec.within (service_actor cx) (gateway_db (g_db s) (g_outside s)) d')) as Hserve by (intros; by apply GatewaySpec.serve_within).
  destruct rt as [k|k req key|k id|k id req key|k id key|k id req key| |id|id key|id]; cbn [handler];
    unfold list_, create, get, update, delete_, adoptExisting, adopt, operation.
  - apply Hread, reading; [done|apply list_reads].
  - apply Hbind. intros input. apply Hwrite, writing; [done|exact (Hserve key (GatewaySpec.RCreate _ _))|exact (requests_get_their_operation _ key (GatewaySpec.RCreate _ _))].
  - apply Hread, reading; [apply writeError_no_data|apply get_reads].
  - apply Hbind. intros input. apply Hwrite, writing; [done|by apply GatewaySpec.Update_within|apply update_gets_its_operation].
  - apply Hwrite, writing; [done|exact (Hserve key (GatewaySpec.RDelete _ _))|exact (requests_get_their_operation _ key (GatewaySpec.RDelete _ _))].
  - apply Hbind. intros [project workspace].
    apply Hwrite, writing; [done|exact (Hserve key (GatewaySpec.RAdoptExisting _ _ _))|exact (requests_get_their_operation _ key (GatewaySpec.RAdoptExisting _ _ _))].
  - apply Hread, reading; [done|apply list_reads].
  - apply Hread, reading; [apply writeError_no_data|apply get_reads].
  - apply Hwrite, writing; [done|exact (Hserve key (GatewaySpec.RAdoptCluster _))|exact (requests_get_their_operation _ key (GatewaySpec.RAdoptCluster _))].
  - apply Hread, reading; [apply writeError_no_data|apply operation_reads].
Qed.

(** C11: A request to the resource gateway ends, whatever fails, and changes records or
    shows something only for the user its token names, as the database has this user now,
    and only when the role allows the action on the resource.  It then leaves the
    organisation as it is, every record that is changed or added is inside of the scope
    the service acts in before and after, records outside are kept, and what is shown are
    records of that scope or operations of its actor.  The scope is that of the user where
    gin's context falls back to that of the request, and everything where it does not. *)
Theorem gateway_requests_stay_in_scope js header rt s : GatewayMachine.indexes_ok (gateway_db (g_db s) (g_outside s)) ->
  wp (serve_gateway js header rt) (fun s' a =>
    same_tables s s' /\ no_data a \/ exists p u, served js header rt s p u /\ outcome_in (PrincipalFromContext p) rt s s' a) s.
Proof.
  intros Hi. apply wp_Auth; [by left|]. intros cx s1 Hs1 Hcaller.
  assert (forall s0 s2 s3, same_tables s0 s2 -> same_tables s2 s3 -> same_tables s0 s3) as Htrans
    by (intros s0 s2 s3 (? & ? & ?) (? & ? & ?); split_and!; congruence).
  apply wp_WithPrincipal; [intros s2 a Hs2 Hn; left; split; [by eapply Htrans|exact Hn]|]. intros p u s2 Hs2 Hu Hid Hpid Hp.
  pose proof (Htrans _ _ _ Hs1 Hs2) as Hs02. apply wp_authorize; [intros s3 a Hs3 Hn; left; split; [by eapply Htrans|exact Hn]|]. intros s3 Hs3 Hg.
  pose proof (Htrans _ _ _ Hs02 Hs3) as Hs03. destruct Hs1 as (Ed1 & _), Hs2 as (Ed2 & _). rewrite Ed1 in Hu, Hp.
  eapply wp_mono; [apply handler_outcome|].
  { destruct Hs03 as (Ed & Eo & Ee). unfold GatewayMachine.indexes_ok, gateway_db in *. cbn in *. by rewrite Ed, Eo, Ee. }
  intros s' a Ho. right. exists p, u. split; [|by eapply outcome_from].
  split; [by apply Hcaller|exact Hp|congruence|]. intros resource action E. specialize (Hg resource action E). cbn in Hg.
  destruct Hp as [Er _]. by rewrite Ed2, Ed1, Er in Hg.
Qed.
End routes.

(** ** On the sample organisation *)

#[local] Existing Instances OrgSample.org_ambient OrgSample.sample_bcrypt OrgSample.sample_jwt OrgSample.sample_like
  OrgSample.sample_bcrypt_laws GatewaySample.sample_gateway GatewaySample.sample_engine.
Definition on_sample (fallback : bool) (header : string) (rt : gateway_route) : action (dbstore org gateway_rest) gateway_response :=
  let engine := {| ContextWithFallback := fallback |} in serve_gateway OrgSample.sample_service header rt.

(** The modules infra and apps get a project each. *)
Definition s5 : dbstore org () := Eval vm_compute in
  OrgSample.state_of (OrgSpec.serve (OrgSpec.CreateProjectR "shop" "module_40" None))
    (OrgSample.state_of (OrgSpec.serve (OrgSpec.CreateProjectR "till" "module_46" None)) HttpSample.s4).
Definition project_ids : list string := p_PublicID <$> projects (g_db s5).
Definition workspace_input (name project : string) : Gateway.ResourceInput :=
  Gateway.mkInput name project "" (EngineAdapter.Dto.mkDesired None (Some (EngineAdapter.Dto.mkWorkspace "" None None ""))).
Definition portal_state : Type := dbstore org gateway_rest.
Definition run_of (fallback : bool) (header : string) (rt : gateway_route) (s : portal_state) : portal_state :=
  match on_sample fallback header rt s with Ret (s', _) => s' | Panic => s end.
Definition answer_of (fallback : bool) (header : string) (rt : gateway_route) (s : portal_state) : option gateway_response :=
  match on_sample fallback header rt s with Ret (_, Ok resp) => Some resp | _ => None end.

Definition g0 : portal_state := mkStore (g_db s5) (mkGatewayRest [] [] (Gateway.mkOutside GatewaySample.empty_engine false None)) (g_clock s5).
Definition by_boss : gateway_route := POST_resources Workspaces (Ok (workspace_input "till" "project_88")) "k1".
Definition by_mo : gateway_route := POST_resources Workspaces (Ok (workspace_input "shop" "project_96")) "k2".
Definition g1 : portal_state := run_of true HttpSample.boss by_boss g0.
Definition g2 : portal_state := run_of true HttpSample.mo by_mo g1.

Lemma gateway_requests_stay_in_scope_witness : exists s' resp, on_sample true HttpSample.mo by_mo g1 = Ret (s', Ok resp) /\
  Status resp = 202 /\ length (resources (g_db s')) = 2%nat /\
  exists p u, served OrgSample.sample_service HttpSample.mo by_mo g1 p u /\ outcome_in p by_mo g1 s' (Ok resp).
Proof.
  assert (GatewayMachine.indexes_ok (gateway_db (g_db g1) (g_outside g1))) as Hi by (split_and!; vm_compute; reflexivity).
  pose proof (gateway_requests_stay_in_scope (H10 := {| ContextWithFallback := true |}) OrgSample.sample_service HttpSample.mo by_mo g1 Hi) as Hw.
  apply wp_ends in Hw as (s' & a & E & Ha). assert (answer_of true HttpSample.mo by_mo g1 = match a with Ok resp => Some resp | Err _ => None end) as Er
    by (unfold answer_of, on_sample; by rewrite E).
  assert (Status <$> answer_of true HttpSample.mo by_mo g1 = Some 202) as Es by (vm_compute; reflexivity). rewrite Er in Es.
  destruct a as [resp|]; [|done]. injection Es as Es.
  assert (length (resources (g_db (run_of true HttpSample.mo by_mo g1))) = 2%nat) as El by (vm_compute; reflexivity).
  assert (run_of true HttpSample.mo by_mo g1 = s') as Erun by (unfold run_of, on_sample; by rewrite E). rewrite Erun in El.
  exists s', resp. split; [exact E|]. split; [exact Es|]. split; [exact El|]. destruct Ha as [[[Hs _] _]|Ha]; [|exact Ha].
  exfalso. rewrite Hs in El. assert (length (resources (g_db g1)) = 1%nat) as El1 by (vm_compute; reflexivity). rewrite El1 in El. discriminate El.
Defined.

(** Without the setting, which nothing in the repository turns on, the service never
    sees the principal: whoever has the permission acts on everything, and a member
    of one module lists the workspaces of another. *)
Theorem without_fallback_members_act_as_administrators :
  (forall fallback (He : HttpEngine), He = {| ContextWithFallback := fallback |} -> fallback = false ->
     forall rt cx cx', handler rt cx = handler rt cx') /\
  exists l v, answer_of false HttpSample.mo (GET_resources Workspaces) g2 = Some (Success (GItems l)) /\
    answer_of true HttpSample.mo (GET_resources Workspaces) g2 = Some (Success (GItems [v])) /\ length l = 2%nat.
Proof.
  split.
  - intros ? ? -> -> rt cx cx'. by destruct rt.
  - assert (exists l, answer_of false HttpSample.mo (GET_resources Workspaces) g2 = Some (Success (GItems l)) /\ length l = 2%nat) as (l & E & El).
    { eexists. split; [vm_compute; reflexivity|reflexivity]. }
    assert (exists v, answer_of true HttpSample.mo (GET_resources Workspaces) g2 = Some (Success (GItems [v]))) as (v & Ev).
    { eexists. vm_compute; reflexivity. }
    exists l, v. split; [exact E|split; [exact Ev|exact El]].
Qed.
