(* ===== verification/Migration.v ===== *)
(** * The migration of the portal's database

    apiserver/pkg/migration/migration.go.  The schema is what the migration looks at: of
    modules and projects the column public_id with its index and its constraint, the two
    superseded indexes, and of records and events the columns that are filled in later.
    A column that an old database does not have is read as NULL.  A statement may fail;
    gorm's questions to the schema then answer no.  AutoMigrate is gorm's.  The values
    written to public_id are never empty, so its constraint is not checked there. *)

From S2P Require Import Prelude GoRuntime Wp Store StoreLogic.
From S2P Require Gateway GatewaySample OrgSample.

(** ** The schema *)

Record id_row := mkIDRow { row_ID : Z; PublicID : option string }.
(** The triggers of SQLite, or the NOT NULL of the column, for insertions and updates. *)
Record id_table := mkIDTable {
  tb_exists : bool; tb_column : bool; tb_index : bool; on_insert : bool; on_update : bool; tb_rows : list id_row }.

Record identity_row := mkIdentityRow {
  ID : string; Kind : string; EngineName : string; EngineNamespace : string; ActiveKey : option string;
  DesiredJSON : string; DesiredHash : option string; DesiredRevision : Z; ArchivedAt : option Z }.
Record event_row := mkEventRow { ev_ID : string; ResourceID : string; ev_DesiredRevision : Z }.

Record schema := mkSchema {
  sc_modules : id_table; sc_projects : id_table;
  idx_resource_kind_name : bool; idx_operations_idempotency_key : bool;
  resource_records : list identity_row; outbox_events : list event_row }.

(** One of the two tables with public identifiers. *)
Inductive identified := Module_ | Project_.
#[export] Instance identified_eq_dec : EqDecision identified.
Proof. solve_decision. Defined.
Definition table_name (t : identified) : string := match t with Module_ => "modules" | Project_ => "projects" end.
Definition id_prefix (t : identified) : string := match t with Module_ => "module" | Project_ => "project" end.
Definition model_name (t : identified) : string := match t with Module_ => "Module" | Project_ => "Project" end.
Definition the_table (t : identified) (d : schema) : id_table := match t with Module_ => sc_modules d | Project_ => sc_projects d end.
Definition with_table (t : identified) (x : id_table) (d : schema) : schema :=
  match t with
  | Module_ => mkSchema x (sc_projects d) (idx_resource_kind_name d) (idx_operations_idempotency_key d) (resource_records d) (outbox_events d)
  | Project_ => mkSchema (sc_modules d) x (idx_resource_kind_name d) (idx_operations_idempotency_key d) (resource_records d) (outbox_events d)
  end.
Definition with_rows (l : list id_row) (x : id_table) : id_table := mkIDTable (tb_exists x) (tb_column x) (tb_index x) (on_insert x) (on_update x) l.
Definition with_index (x : id_table) : id_table := mkIDTable (tb_exists x) (tb_column x) true (on_insert x) (on_update x) (tb_rows x).
Definition with_constraint (insert update : bool) (x : id_table) : id_table :=
  mkIDTable (tb_exists x) (tb_column x) (tb_index x) (insert || on_insert x) (update || on_update x) (tb_rows x).
Definition with_records (l : list identity_row) (d : schema) : schema :=
  mkSchema (sc_modules d) (sc_projects d) (idx_resource_kind_name d) (idx_operations_idempotency_key d) l (outbox_events d).
Definition with_events (l : list event_row) (d : schema) : schema :=
  mkSchema (sc_modules d) (sc_projects d) (idx_resource_kind_name d) (idx_operations_idempotency_key d) (resource_records d) l.
Definition without_indexes (kind_name key : bool) (d : schema) : schema :=
  mkSchema (sc_modules d) (sc_projects d) (idx_resource_kind_name d && negb kind_name) (idx_operations_idempotency_key d && negb key)
    (resource_records d) (outbox_events d).

(** In a unique index NULL is not equal to NULL. *)
Definition same_value (a b : option string) : bool := match a, b with Some a, Some b => String.eqb a b | _, _ => false end.
Definition same_public_id (r r' : id_row) : bool := same_value (PublicID r) (PublicID r').
Definition same_active_key (r r' : identity_row) : bool := same_value (ActiveKey r) (ActiveKey r').
Definition unidentified (r : id_row) : bool := match PublicID r with Some id => String.eqb id "" | None => true end.

Class Gorm := {
  sqlite : bool;                                             (* Dialector.Name() == sqlite *)
  AutoMigrate : list string -> nat -> schema -> schema * res (); (* at a time, since its statements may fail *)
  payload_namespace : string -> option string;               (* of the workspace in a desired state, if it is read *)
}.

(** ** The migration *)

Section migration.
Context {X : Type} `{Ambient, Gateway.GatewayJson, Gorm}.
Abbreviation step := (action (dbstore schema X)).

(** HasTable, HasColumn and HasIndex drop the error of their query. *)
Definition ask (f : schema -> bool) : step bool := fun s =>
  Ret (tick s, Ok match db_error (g_clock s) with Some _ => false | None => f (g_db s) end).
Definition change (f : schema -> schema * res ()) : step () := stmt (fun _ => f).

Definition auto_migrate (models : list string) : step () := fun s =>
  let '(d, r) := AutoMigrate models (g_clock s) (g_db s) in Ret (with_db (tick s) d, r).

Definition AddColumn (t : identified) : step () := change (fun d =>
  let x := the_table t d in
  if tb_column x then (d, Err "duplicate column name: public_id")
  else (with_table t (mkIDTable (tb_exists x) true (tb_index x) (on_insert x) (on_update x) (tb_rows x)) d, Ok tt)).
Definition CreateIndex (t : identified) : step () := change (fun d =>
  let x := the_table t d in
  if tb_index x then (d, Err "index already exists")
  else if clash_free same_public_id (tb_rows x) then (with_table t (with_index x) d, Ok tt) else (d, Err duplicate_error)).
Definition AlterColumn (t : identified) : step () := change (fun d =>
  let x := the_table t d in
  if forallb (fun r => bool_decide (is_Some (PublicID r))) (tb_rows x) then (with_table t (with_constraint true true x) d, Ok tt)
  else (d, Err "Invalid use of NULL value")).
Definition CreateTrigger (t : identified) (insert : bool) : step () := change (fun d =>
  (with_table t (with_constraint insert (negb insert) (the_table t d)) d, Ok tt)).

Definition unidentified_rows (t : identified) : step (list id_row) := stmt (fun _ d => (d, Ok (List.filter unidentified (tb_rows (the_table t d))))).
Definition update_public_id (t : identified) (id : Z) (public_id : string) : step () := change (fun d =>
  let x := the_table t d in
  let rows := changed (fun r => row_ID r =? id) (fun r => mkIDRow (row_ID r) (Some public_id)) (tb_rows x) in
  if tb_index x && negb (clash_free same_public_id rows) then (d, Err duplicate_error) else (with_table t (with_rows rows x) d, Ok tt)).

Fixpoint backfill_loop (t : identified) (rows : list id_row) : step () :=
  match rows with
  | [] => mret tt
  | row :: rows => public_id ← newPublicID (id_prefix t); _ ← update_public_id t (row_ID row) public_id; backfill_loop t rows
  end.

Definition ensure_index (t : identified) : step () :=
  present ← ask (fun d => tb_index (the_table t d));
  if (present : bool) then mret tt else wrap_error ("create " +:+ table_name t +:+ ".public_id unique index: ") (CreateIndex t).

Definition enforcePublicIDConstraint (t : identified) : step () :=
  _ ← ensure_index t;
  if sqlite then
    let wrapped := wrap_error ("enforce " +:+ table_name t +:+ ".public_id with SQLite trigger: ") in
    _ ← wrapped (CreateTrigger t true); wrapped (CreateTrigger t false)
  else wrap_error ("enforce " +:+ table_name t +:+ ".public_id constraint: ") (AlterColumn t).

Definition migratePublicID (t : identified) : step () :=
  present ← ask (fun d => tb_exists (the_table t d));
  if negb present then auto_migrate [model_name t] else
  column ← ask (fun d => tb_column (the_table t d));
  _ ← (if (column : bool) then mret tt else wrap_error ("add nullable " +:+ table_name t +:+ ".public_id: ") (AddColumn t));
  _ ← wrap_error ("backfill " +:+ table_name t +:+ ".public_id: ") (transaction (rows ← unidentified_rows t; backfill_loop t rows));
  _ ← ensure_index t;
  enforcePublicIDConstraint t.

Definition migratePublicIDs : step () := _ ← migratePublicID Module_; migratePublicID Project_.

(** *** Records and events *)

Definition lacks_identity (r : identity_row) : bool :=
  bool_decide (ArchivedAt r = None) &&
  (bool_decide (ActiveKey r = None) || bool_decide (ActiveKey r = Some "") || bool_decide (DesiredHash r = Some "") || (DesiredRevision r =? 0)).
Definition record_namespace (r : identity_row) : string :=
  if String.eqb (Kind r) Gateway.ResourceWorkspace && String.eqb (EngineNamespace r) "" then
    let namespace := default "" (payload_namespace (DesiredJSON r)) in
    if String.eqb namespace "" then EngineName r else namespace
  else EngineNamespace r.
Definition record_key (r : identity_row) : string :=
  if String.eqb (Kind r) Gateway.ResourceApplication then Kind r +:+ ":" +:+ record_namespace r +:+ ":" +:+ EngineName r
  else if String.eqb (Kind r) Gateway.ResourceWorkspace then Kind r +:+ ":namespace:" +:+ record_namespace r
  else Kind r +:+ ":" +:+ EngineName r.
Definition with_identity (r : identity_row) (x : identity_row) : identity_row :=
  mkIdentityRow (ID x) (Kind x) (EngineName x) (record_namespace r) (Some (record_key r)) (DesiredJSON x)
    (Some (Gateway.sha256_hex (DesiredJSON r))) (if DesiredRevision r =? 0 then 1 else DesiredRevision r) (ArchivedAt x).

Definition update_identity (r : identity_row) : step () := change (fun d =>
  let rows := changed (fun x => String.eqb (ID x) (ID r)) (with_identity r) (resource_records d) in
  if clash_free same_active_key rows then (with_records rows d, Ok tt) else (d, Err duplicate_error)).
Fixpoint identity_loop (rows : list identity_row) : step () :=
  match rows with
  | [] => mret tt
  | r :: rows => _ ← wrap_error ("backfill resource " +:+ ID r +:+ " identity: ") (update_identity r); identity_loop rows
  end.
Definition backfillResourceIdentity : step () :=
  rows ← stmt (fun _ d => (d, Ok (List.filter lacks_identity (resource_records d)))); identity_loop rows.

Definition with_event_revision (records : list identity_row) (ev : event_row) : event_row :=
  if ev_DesiredRevision ev =? 0 then
    match List.find (fun r => String.eqb (ID r) (ResourceID ev)) records with
    | Some r => mkEventRow (ev_ID ev) (ResourceID ev) (DesiredRevision r)
    | None => ev
    end
  else ev.
Definition backfillOutboxRevisions : step () := change (fun d =>
  (with_events (with_event_revision (resource_records d) <$> outbox_events d) d, Ok tt)).

(** *** Migrate *)

Definition drop_index (present : schema -> bool) (kind_name : bool) : step () :=
  b ← ask present; if (b : bool) then change (fun d => (without_indexes kind_name (negb kind_name) d, Ok tt)) else mret tt.

Definition all_models : list string := ["User"; "Role"; "Permission"; "Module"; "Project"; "ResourceRecord"; "Operation"; "OutboxEvent"].
Definition Migrate : step () :=
  _ ← migratePublicIDs;
  _ ← drop_index idx_resource_kind_name true;
  _ ← drop_index idx_operations_idempotency_key false;
  _ ← auto_migrate all_models;
  _ ← backfillResourceIdentity;
  _ ← backfillOutboxRevisions;
  _ ← enforcePublicIDConstraint Module_;
  enforcePublicIDConstraint Project_.
End migration.

(** ** What a migration preserves *)

Definition id_kept (r r' : id_row) : Prop := row_ID r' = row_ID r /\ (unidentified r = false -> PublicID r' = PublicID r).
(** The identity and the desired state of a record are not touched; what is filled in is. *)
Definition record_kept (r r' : identity_row) : Prop :=
  ID r' = ID r /\ Kind r' = Kind r /\ EngineName r' = EngineName r /\ DesiredJSON r' = DesiredJSON r /\ ArchivedAt r' = ArchivedAt r /\
  (EngineNamespace r <> "" -> EngineNamespace r' = EngineNamespace r) /\ (DesiredRevision r <> 0 -> DesiredRevision r' = DesiredRevision r).
Definition event_kept (e e' : event_row) : Prop :=
  ev_ID e' = ev_ID e /\ ResourceID e' = ResourceID e /\ (ev_DesiredRevision e <> 0 -> ev_DesiredRevision e' = ev_DesiredRevision e).
Definition table_rows (t : identified) (d : schema) : list id_row := tb_rows (the_table t d).
Record kept (d d' : schema) : Prop := mkKept {
  kept_ids t : Forall2 id_kept (table_rows t d) (table_rows t d');
  kept_records : Forall2 record_kept (resource_records d) (resource_records d');
  kept_events : Forall2 event_kept (outbox_events d) (outbox_events d') }.
(** The primary keys. *)
Definition keys_ok (d : schema) : Prop := (forall t, NoDup (row_ID <$> table_rows t d)) /\ NoDup (ID <$> resource_records d).

(** ** What it reaches *)

Definition identifies (x : id_table) : Prop := (forall r, r ∈ tb_rows x -> unidentified r = false) /\ NoDup (omap PublicID (tb_rows x)).
(** As the current models have it. *)
Definition current_table (x : id_table) : Prop := tb_exists x = true /\ tb_column x = true /\ tb_index x = true.
Record migrated (d : schema) : Prop := mkMigrated {
  migrated_tables t : current_table (the_table t d) /\ on_insert (the_table t d) = true /\ on_update (the_table t d) = true /\ identifies (the_table t d);
  migrated_indexes : idx_resource_kind_name d = false /\ idx_operations_idempotency_key d = false;
  migrated_records r : r ∈ resource_records d -> lacks_identity r = false;
  migrated_events : with_event_revision (resource_records d) <$> outbox_events d = outbox_events d }.

(** gorm adds what the models have and the database has not, and takes away nothing. *)
Definition table_upgraded (x x' : id_table) : Prop :=
  (tb_exists x = true -> tb_exists x' = true) /\ (tb_column x = true -> tb_column x' = true) /\ (tb_index x = true -> tb_index x' = true) /\
  Forall2 id_kept (tb_rows x) (tb_rows x').
(** A revision whose column is added has its default. *)
Definition record_upgraded (r r' : identity_row) : Prop := r' = r \/ DesiredRevision r = 0 /\
  r' = mkIdentityRow (ID r) (Kind r) (EngineName r) (EngineNamespace r) (ActiveKey r) (DesiredJSON r) (DesiredHash r) 1 (ArchivedAt r).
Record upgraded (models : list string) (d d' : schema) : Prop := mkUpgraded {
  upgraded_tables t : table_upgraded (the_table t d) (the_table t d');
  upgraded_others t : model_name t ∉ models -> the_table t d' = the_table t d;
  upgraded_indexes : idx_resource_kind_name d' = idx_resource_kind_name d /\ idx_operations_idempotency_key d' = idx_operations_idempotency_key d;
  upgraded_records : Forall2 record_upgraded (resource_records d) (resource_records d');
  upgraded_events : outbox_events d' = outbox_events d }.
Class GormLaws `(Ambient, Gorm) : Prop := {
  AutoMigrate_upgrades models n d : upgraded models d (AutoMigrate models n d).1;
  AutoMigrate_completes models n d : db_error n = None -> (forall t, model_name t ∈ models -> tb_exists (the_table t d) = true -> identifies (the_table t d)) ->
    (AutoMigrate models n d).2 = Ok tt /\ forall t, model_name t ∈ models -> current_table (the_table t (AutoMigrate models n d).1);
  AutoMigrate_settled models n d : db_error n = None -> migrated d -> AutoMigrate models n d = (d, Ok tt) }.

(** ** Lists and rows *)

#[export] Instance id_kept_preorder : PreOrder id_kept.
Proof.
  split; [by intros r|]. intros a b c [E1 K1] [E2 K2]. split; [congruence|]. intros Ha. pose proof (K1 Ha) as E.
  rewrite K2; [exact E|]. unfold unidentified in *. by rewrite E.
Qed.
#[export] Instance record_kept_preorder : PreOrder record_kept.
Proof.
  split; [by intros r|]. unfold record_kept. intros a b c (?&?&?&?&?&Kn&Kr) (?&?&?&?&?&Ln&Lr). split_and!; try congruence.
  - intros Hn. by rewrite Ln; rewrite Kn.
  - intros Hn. by rewrite Lr; rewrite Kr.
Qed.
#[export] Instance event_kept_preorder : PreOrder event_kept.
Proof. split; [by intros r|]. unfold event_kept. intros a b c (?&?&K) (?&?&L). split_and!; try congruence. intros Hn. by rewrite L; rewrite K. Qed.
#[export] Instance kept_preorder : PreOrder kept.
Proof. split; [intros d; split; [intros t|..]; reflexivity|]. intros a b c [K1 K2 K3] [L1 L2 L3]. split; [intros t|..]; etransitivity; eauto. Qed.

Lemma fmap_kept {A B} (f : A -> B) (R : relation A) l l' : (forall a a', R a a' -> f a' = f a) -> Forall2 R l l' -> f <$> l' = f <$> l.
Proof. intros Hf Hl. induction Hl as [|a a' l l' Ha _ IH]; [done|]. by rewrite !fmap_cons, (Hf a a' Ha), IH. Qed.

Lemma kept_keys_ok d d' : kept d d' -> keys_ok d -> keys_ok d'.
Proof.
  intros [K1 K2 _] [Hi Hr]. split.
  - intros t. rewrite (fmap_kept row_ID id_kept _ _ ltac:(by intros ? ? [? _]) (K1 t)). apply Hi.
  - rewrite (fmap_kept ID record_kept _ _ ltac:(by intros ? ? [? _]) K2). exact Hr.
Qed.

Lemma the_with_table t t' x d : the_table t (with_table t' x d) = if decide (t = t') then x else the_table t d.
Proof. by destruct t, t'. Qed.

(** Of the row with a primary key. *)
Lemma changed_at {Row Key} (key : Row -> Key) (p : Row -> bool) f l1 x l2 : NoDup (key <$> l1 ++ x :: l2) ->
  (forall r, p r = true <-> key r = key x) -> changed p f (l1 ++ x :: l2) = l1 ++ f x :: l2.
Proof.
  intros Hn Hp. unfold changed. rewrite fmap_app, fmap_cons, (proj2 (Hp x) eq_refl). rewrite fmap_app, fmap_cons in Hn. apply NoDup_app in Hn as (_ & H1 & [H2 _]%NoDup_cons).
  assert (forall l : list Row, key x ∉ (key <$> l) -> ((fun r => if p r then f r else r) <$> l) = l) as Hsame.
  { intros l Hl. rewrite <- (list_fmap_id l) at 2. apply list_fmap_ext. intros i r Hr. destruct (p r) eqn:E; [|done]. exfalso. apply Hl.
    apply list_elem_of_fmap. exists r. split; [symmetry; by apply Hp|]. by eapply list_elem_of_lookup_2. }
  rewrite !Hsame; [done|exact H2|]. intros Hin. by apply (H1 (key x) Hin), list_elem_of_here.
Qed.
Lemma omap_same {A B} (f g : A -> option B) (l : list A) : (forall x, x ∈ l -> f x = g x) -> omap f l = omap g l.
Proof.
  induction l as [|x l IH]; [done|]. intros Hl. cbn. rewrite (Hl x (list_elem_of_here x l)), IH; [done|].
  intros y Hy. by apply Hl, list_elem_of_further.
Qed.
Lemma NoDup_omap_put {A B} (f : A -> option B) (l1 : list A) x x' v (l2 : list A) : NoDup (omap f (l1 ++ x :: l2)) -> f x' = Some v ->
  (forall y, y ∈ l1 ++ x :: l2 -> f y <> Some v) -> NoDup (omap f (l1 ++ x' :: l2)).
Proof.
  rewrite !omap_app. cbn. intros Hn -> Hv. rewrite <- Permutation_middle. apply NoDup_cons. split.
  - rewrite <- omap_app, list_elem_of_omap. intros (y & Hy & E). apply (Hv y); [|exact E]. rewrite elem_of_app in *. rewrite elem_of_cons. tauto.
  - destruct (f x); [|exact Hn]. rewrite <- Permutation_middle in Hn. by apply NoDup_cons in Hn as [_ Hn].
Qed.
Lemma clash_free_values {Row} (f : Row -> option string) l : clash_free (fun r r' => same_value (f r) (f r')) l = true <-> NoDup (omap f l).
Proof.
  induction l as [|r l IH]; [split; [constructor|done]|]. cbn [clash_free]. rewrite andb_true_iff, negb_true_iff, IH. cbn.
  assert (existsb (fun r' => same_value (f r) (f r')) l = false <-> forall v, f r = Some v -> v ∉ omap f l) as ->.
  { rewrite <- not_true_iff_false, existsb_exists. unfold same_value. split.
    - intros Hn v Ev Hv. apply Hn. apply list_elem_of_omap in Hv as (r' & Hr' & Er'). exists r'. rewrite Ev, Er', String.eqb_refl.
      split; [by apply list_elem_of_In|done].
    - intros Hv (r' & Hr' & E). destruct (f r) as [v|]; [|done]. destruct (f r') as [v'|] eqn:Er'; [|done]. apply String.eqb_eq in E as ->.
      apply (Hv v' eq_refl), list_elem_of_omap. exists r'. split; [by apply list_elem_of_In|done]. }
  destruct (f r) as [v|]; [rewrite NoDup_cons|].
  - split; [intros [Hv Hl]; split; [by apply Hv|done]|]. intros [Hv Hl]. split; [|done]. by intros ? [= <-].
  - split; [by intros [_ ?]|]. intros Hl. by split.
Qed.

Lemma ids_clash_free l : NoDup (omap PublicID l) -> clash_free same_public_id l = true.
Proof. apply (clash_free_values PublicID). Qed.
Lemma active_keys_clash_free l : NoDup (omap ActiveKey l) -> clash_free same_active_key l = true.
Proof. apply (clash_free_values ActiveKey). Qed.

(** ** What is there is kept *)

Create HintDb keeping.

Section keeping.
Context {X : Type} `{Am : Ambient, Gateway.GatewayJson, G : Gorm, !GormLaws Am G}.
Abbreviation step := (action (dbstore schema X)).
Implicit Types (s : dbstore schema X) (d : schema).

(** Of tables with primary keys. *)
Definition preserves {A} (m : step A) : Prop := forall s, keys_ok (g_db s) -> wp m (fun s' _ => kept (g_db s) (g_db s')) s.

Lemma preserves_ret {A} (a : A) : preserves (mret a).
Proof using Type. intros s _. by apply wp_ret. Qed.
Lemma preserves_bind {A B} (m : step A) (f : A -> step B) : preserves m -> (forall a, preserves (f a)) -> preserves (m ≫= f).
Proof using Type.
  intros Hm Hf s Hs. apply wp_bind. eapply wp_mono; [by apply Hm|]. intros s' [a|e] Hk; [|done].
  eapply wp_mono; [by eapply Hf, kept_keys_ok|]. intros s2 r Hk2. by etransitivity.
Qed.
Lemma preserves_wrap_error {A} p (m : step A) : preserves m -> preserves (wrap_error p m).
Proof using Type. intros Hm s Hs. by apply wp_wrap_error, Hm. Qed.
Lemma preserves_transaction {A} (m : step A) : preserves m -> preserves (transaction m).
Proof using Type. intros Hm s Hs. specialize (Hm s Hs). unfold wp, transaction in *. destruct (m s) as [[s' [a|e]]|]; [|done..]. by destruct (db_error _). Qed.
Lemma preserves_ask f : preserves (ask f).
Proof using Type. by intros s _. Qed.

Lemma preserves_change f : (forall d, kept d (f d).1) -> preserves (change f).
Proof using Type. intros Hf s _. unfold wp, change, stmt. destruct (db_error _); [done|]. specialize (Hf (g_db s)). by destruct (f (g_db s)). Qed.
Lemma preserves_auto_migrate models : preserves (auto_migrate models).
Proof using All.
  intros s _. unfold wp, auto_migrate. destruct (AutoMigrate_upgrades models (g_clock s) (g_db s)) as [Ht _ _ Hr He].
  destruct (AutoMigrate _ _ _) as [d r]. split.
  - intros t. apply (Ht t).
  - eapply Forall2_impl; [exact Hr|]. intros r1 r2 [->|[E ->]]; [done|]. by split_and!.
  - cbn in *. by rewrite He.
Qed.

Lemma kept_table t x d : Forall2 id_kept (table_rows t d) (tb_rows x) -> kept d (with_table t x d).
Proof using Type.
  intros Hx. split; [|by destruct t|by destruct t]. intros t'. unfold table_rows. rewrite the_with_table. by destruct (decide (t' = t)) as [->|].
Qed.
Lemma kept_records_of d l : Forall2 record_kept (resource_records d) l -> kept d (with_records l d).
Proof using Type. by split. Qed.
Lemma Forall2_fmap_self {A} (R : relation A) (f : A -> A) l : (forall x, x ∈ l -> R x (f x)) -> Forall2 R l (f <$> l).
Proof using Type.
  induction l as [|x l IH]; [constructor|]. intros Hf. rewrite fmap_cons. constructor; [apply Hf, list_elem_of_here|].
  apply IH. intros y Hy. by apply Hf, list_elem_of_further.
Qed.

Lemma wp_change f (Q : dbstore schema X -> res () -> Prop) s : (forall e, db_error (g_clock s) = Some e -> Q (tick s) (Err e)) ->
  (db_error (g_clock s) = None -> Q (with_db (tick s) (f (g_db s)).1) (f (g_db s)).2) -> wp (change f) Q s.
Proof using Type. intros He Hf. unfold wp, change, stmt. destruct (db_error _) as [e|]; [by apply He|]. specialize (Hf eq_refl). by destruct (f (g_db s)). Qed.

(** The rows that are still to be filled in are as they were read. *)
Lemma keep_backfill_loop t rows s : NoDup (row_ID <$> rows) ->
  (forall r x, r ∈ rows -> x ∈ table_rows t (g_db s) -> row_ID x = row_ID r -> unidentified x = true) ->
  wp (backfill_loop t rows) (fun s' _ => kept (g_db s) (g_db s')) s.
Proof using Type.
  revert s; induction rows as [|r rows IH]; intros s Hn Hu; [by apply wp_ret|]. rewrite fmap_cons in Hn. apply NoDup_cons in Hn as [Hr Hn].
  apply wp_bind. unfold wp at 1, newPublicID. set (id := id_prefix t +:+ _). apply wp_bind, wp_change; [done|]. intros _. cbn [g_db tick].
  set (rows' := changed _ _ _).
  assert (Forall2 id_kept (table_rows t (g_db s)) rows') as Hrows'.
  { apply Forall2_fmap_self. intros x Hx. destruct (Z.eqb_spec (row_ID x) (row_ID r)) as [E|]; [|done]. split; [done|].
    by rewrite (Hu r x (list_elem_of_here r rows) Hx E). }
  destruct (_ && _); cbn [fst snd]; [done|].
  assert (kept (g_db s) (with_table t (with_rows rows' (the_table t (g_db s))) (g_db s))) as Hs by by apply kept_table.
  eapply wp_mono; [apply (IH (with_db (tick (tick s)) _)); [exact Hn|]|].
  - intros q x Hq Hx E. unfold table_rows in Hx. cbn in Hx. rewrite the_with_table, decide_True in Hx by done. apply list_elem_of_fmap in Hx as (y & -> & Hy).
    destruct (Z.eqb_spec (row_ID y) (row_ID r)) as [Ey|]; [|by eapply Hu; [by apply list_elem_of_further|..]]. exfalso. apply Hr. cbn in E.
    rewrite <- Ey, E. by apply list_elem_of_fmap_2.
  - intros s' a Hs'. by etransitivity.
Qed.
Lemma keep_backfill t : preserves (rows ← unidentified_rows t; backfill_loop t rows).
Proof using Type.
  intros s [Hk _]. apply wp_bind. unfold wp at 1, unidentified_rows, stmt. destruct (db_error _); [done|].
  apply (keep_backfill_loop t _ (with_db (tick s) (g_db s))).
  - eapply sublist_NoDup; [apply (Hk t)|]. apply fmap_sublist, filter_bool_sublist.
  - intros r x Hr Hx E. apply filter_bool_elem in Hr as [Hr Hu]. by rewrite (nodup_inj row_ID _ x r (Hk t) Hx Hr E).
Qed.

Lemma with_identity_kept r : record_kept r (with_identity r r).
Proof using Type.
  split_and!; try done.
  - cbn. intros Hn%String.eqb_neq. unfold record_namespace. by rewrite Hn, andb_false_r.
  - cbn. by intros Hn%Z.eqb_neq; rewrite Hn.
Qed.
Lemma keep_identity_loop rows s : NoDup (ID <$> rows) ->
  (forall r x, r ∈ rows -> x ∈ resource_records (g_db s) -> ID x = ID r -> x = r) ->
  wp (identity_loop rows) (fun s' _ => kept (g_db s) (g_db s')) s.
Proof using Type.
  revert s; induction rows as [|r rows IH]; intros s Hn Hu; [by apply wp_ret|]. rewrite fmap_cons in Hn. apply NoDup_cons in Hn as [Hr Hn].
  apply wp_bind, wp_wrap_error, wp_change; [done|]. intros _. set (rows' := changed _ _ _).
  assert (kept (g_db s) (with_records rows' (g_db s))) as Hs.
  { apply kept_records_of, Forall2_fmap_self. intros x Hx. destruct (String.eqb_spec (ID x) (ID r)) as [E|]; [|done].
    rewrite (Hu r x (list_elem_of_here r rows) Hx E). apply with_identity_kept. }
  cbn beta zeta. fold rows'. destruct (clash_free same_active_key rows'); cbn [fst snd]; [|done]. eapply wp_mono; [apply (IH (with_db (tick s) _)); [exact Hn|]|].
  - intros q x Hq Hx E. apply list_elem_of_fmap in Hx as (y & -> & Hy). destruct (String.eqb_spec (ID y) (ID r)) as [Ey|].
    + exfalso. apply Hr. cbn in E. rewrite <- Ey, E. by apply list_elem_of_fmap_2.
    + by apply Hu; [apply list_elem_of_further|..].
  - intros s' a Hs'. by etransitivity.
Qed.
Lemma keep_identities : preserves backfillResourceIdentity.
Proof using Type.
  intros s [_ Hk]. apply wp_bind. unfold wp at 1, stmt. destruct (db_error _); [done|].
  apply (keep_identity_loop _ (with_db (tick s) (g_db s))).
  - eapply sublist_NoDup; [apply Hk|]. apply fmap_sublist, filter_bool_sublist.
  - intros r x Hr Hx E. apply filter_bool_elem in Hr as [Hr _]. by rewrite (nodup_inj ID _ x r Hk Hx Hr E).
Qed.
Lemma keep_events : preserves backfillOutboxRevisions.
Proof using Type.
  apply preserves_change. intros d. split; [done|reflexivity|]. apply Forall2_fmap_self. intros e _. unfold with_event_revision.
  destruct (Z.eqb_spec (ev_DesiredRevision e) 0); [|done]. by destruct (List.find _ _).
Qed.

Lemma keep_AddColumn t : preserves (AddColumn t).
Proof using Type. apply preserves_change. intros d. cbv zeta. destruct (tb_column _); [done|]. by apply kept_table. Qed.
Lemma keep_CreateIndex t : preserves (CreateIndex t).
Proof using Type. apply preserves_change. intros d. cbv zeta. destruct (tb_index _); [done|]. destruct (clash_free _ _); [by apply kept_table|done]. Qed.
Lemma keep_AlterColumn t : preserves (AlterColumn t).
Proof using Type. apply preserves_change. intros d. cbv zeta. destruct (forallb _ _); [by apply kept_table|done]. Qed.
Lemma keep_CreateTrigger t b : preserves (CreateTrigger t b).
Proof using Type. apply preserves_change. intros d. by apply kept_table. Qed.
Lemma keep_drop_index present b : preserves (drop_index present b).
Proof using Type. apply preserves_bind; [apply preserves_ask|]. intros []; [|apply preserves_ret]. by apply preserves_change. Qed.
#[local] Hint Resolve preserves_ret preserves_ask keep_AddColumn keep_CreateIndex keep_AlterColumn keep_CreateTrigger keep_drop_index keep_identities keep_events
  keep_backfill preserves_auto_migrate : keeping.
Ltac solve_preserves := repeat first
  [ solve [auto with keeping] | apply preserves_wrap_error | apply preserves_transaction | apply preserves_bind; [|intros ?]
  | match goal with |- preserves (if ?b then _ else _) => destruct b end ].

(** Whatever fails in it, a migration ends, loses no module, project, record or event,
    changes no public identifier and no revision that is there, and leaves the identity
    and the desired state of every record as they are. *)
Theorem migration_keeps_what_is_there s : keys_ok (g_db s) -> wp Migrate (fun s' _ => kept (g_db s) (g_db s')) s.
Proof.
  revert s. change (preserves (Migrate (X := X))).

  unfold Migrate, migratePublicIDs, migratePublicID, enforcePublicIDConstraint, ensure_index. solve_preserves.
Qed.
End keeping.

(** ** A migration of an old database *)

(** What an old database is like: tables that are not there have no rows, the identifiers
    and the keys that are there are distinct, and where an active record has a key it is
    the one it gets. *)
Definition known (r : id_row) : option string := if unidentified r then None else PublicID r.
Section records.
Context `{Gateway.GatewayJson, Gorm}.
Definition target_key (r : identity_row) : option string := if decide (ArchivedAt r = None) then Some (record_key r) else None.
Definition keyed (l : list identity_row) : Prop :=
  NoDup (ID <$> l) /\ NoDup (omap target_key l) /\ forall r, r ∈ l -> ActiveKey r = None \/ ActiveKey r = target_key r.

Lemma record_namespace_again r : record_namespace (with_identity r r) = record_namespace r.
Proof.
  unfold record_namespace at 1. cbn. destruct (String.eqb (Kind r) _ && String.eqb (record_namespace r) "") eqn:E; [|done].
  apply andb_prop in E as [Ek En]. unfold record_namespace in *. rewrite Ek in *. cbn [andb] in *. destruct (String.eqb_spec (EngineNamespace r) ""); [done|].
  by apply String.eqb_eq in En.
Qed.
Lemma target_key_again r : target_key (with_identity r r) = target_key r.
Proof. unfold target_key, record_key. by rewrite record_namespace_again. Qed.
Lemma target_key_upgraded r r' : record_upgraded r r' -> target_key r' = target_key r.
Proof. by intros [->|[_ ->]]. Qed.
Lemma record_key_nonempty r : record_key r <> "".
Proof. assert (forall k c t, k +:+ String c t <> "") as Hne by (intros [] ? ?; discriminate). unfold record_key. repeat case_match; apply Hne. Qed.

Lemma keyed_upgraded l l' : Forall2 record_upgraded l l' -> keyed l -> keyed l'.
Proof.
  intros Hl (Hn & Ht & Hk). split_and!.
  - by rewrite (fmap_kept ID record_upgraded _ _ ltac:(by intros ? ? [->|[_ ->]]) Hl).
  - assert (omap target_key l' = omap target_key l) as ->; [|exact Ht]. clear Hn Ht Hk.
    induction Hl as [|r r' l l' Hr _ IH]; [done|]. cbn. by rewrite (target_key_upgraded r r' Hr), IH.
  - intros r' Hr'. apply list_elem_of_lookup in Hr' as [i Hi]. destruct (Forall2_lookup_r _ _ _ _ _ Hl Hi) as (r & Hr & Hu).
    rewrite (target_key_upgraded r r' Hu). apply list_elem_of_lookup_2, Hk in Hr. by destruct Hu as [->|[_ ->]].
Qed.
(** The keys of a table on its way are distinct. *)
Lemma keyed_keys l : keyed l -> NoDup (omap ActiveKey l).
Proof.
  intros (_ & Ht & Hk). eapply sublist_NoDup; [exact Ht|]. clear Ht. induction l as [|r l IH]; [done|].
  assert (omap ActiveKey l `sublist_of` omap target_key l) as Hl by (apply IH; intros x Hx; by apply Hk, list_elem_of_further).
  cbn. destruct (Hk r (list_elem_of_here r l)) as [E|E]; rewrite E; destruct (target_key r); first [exact Hl|by constructor].
Qed.
Lemma keyed_with_identity l1 r l2 : ArchivedAt r = None -> keyed (l1 ++ r :: l2) -> keyed (l1 ++ with_identity r r :: l2).
Proof.
  intros Ha (Hn & Ht & Hk). split_and!.
  - by rewrite fmap_app, fmap_cons in *.
  - rewrite omap_app in *. cbn in *. by rewrite target_key_again.
  - intros x Hx. rewrite elem_of_app, elem_of_cons in Hx.
    destruct Hx as [Hx|[->|Hx]]; [apply Hk; rewrite elem_of_app; by left| |apply Hk; rewrite elem_of_app, elem_of_cons; by right; right].
    right. rewrite target_key_again. unfold target_key. by rewrite decide_True.
Qed.

Lemma with_event_revision_again l e : with_event_revision l (with_event_revision l e) = with_event_revision l e.
Proof.
  unfold with_event_revision at 2 3. destruct (ev_DesiredRevision e =? 0) eqn:E.
  - destruct (List.find _ l) as [r|] eqn:Ef; unfold with_event_revision; cbn; [|by rewrite E, Ef].
    rewrite Ef. by destruct (DesiredRevision r =? 0).
  - unfold with_event_revision. by rewrite E.
Qed.
End records.

Section completing.
Context {X : Type} `{Am : Ambient, GJ : Gateway.GatewayJson, G : Gorm, !GormLaws Am G}.
Context (never : forall n, db_error n = None) (distinct : forall m n, random_hex m = random_hex n -> m = n).
Context (hashed : forall text, Gateway.sha256_hex text <> "").
Abbreviation step := (action (dbstore schema X)).
Implicit Types (s : dbstore schema X) (d : schema) (t : identified).

(** No identifier that is made from now on is taken. *)
Definition fresh t s : Prop := forall n r, (g_clock s <= n)%nat -> r ∈ table_rows t (g_db s) -> PublicID r <> Some (id_prefix t +:+ "_" +:+ random_hex n).
Record old_table t (x : id_table) : Prop := mkOldTable {
  old_absent : tb_exists x = false -> tb_rows x = [];
  old_primary : NoDup (row_ID <$> tb_rows x);
  old_known : NoDup (omap known (tb_rows x));
  old_index : tb_index x = true -> NoDup (omap PublicID (tb_rows x)) }.

(** *** Statements that do not fail *)

Lemma wp_ask f (Q : dbstore schema X -> res bool -> Prop) s : Q (tick s) (Ok (f (g_db s))) -> wp (ask f) Q s.
Proof using never. unfold wp, ask. by rewrite never. Qed.
Lemma wp_changes f (Q : dbstore schema X -> res () -> Prop) s : Q (with_db (tick s) (f (g_db s)).1) (f (g_db s)).2 -> wp (change f) Q s.
Proof using never. intros HQ. apply wp_change; [|done]. intros e. by rewrite never. Qed.
Lemma wp_transaction {A} (m : step A) (Q : dbstore schema X -> res A -> Prop) s :
  wp m (fun s' r => exists a, r = Ok a /\ Q (tick s') (Ok a)) s -> wp (transaction m) Q s.
Proof using never. unfold wp, transaction. destruct (m s) as [[s' r]|]; [|done]. intros (a & -> & HQ). by rewrite never. Qed.
(** In sequence. *)
Lemma wp_then {A B} (m : step A) (f : A -> step B) (Q : dbstore schema X -> res B -> Prop) P s :
  wp m (fun s' r => exists a, r = Ok a /\ P s' a) s -> (forall s' a, P s' a -> wp (f a) Q s') -> wp (m ≫= f) Q s.
Proof using Type. intros Hm Hf. apply wp_bind. eapply wp_mono; [exact Hm|]. intros s' r (a & -> & HP). by apply Hf. Qed.

Lemma string_app_inj (p a b : string) : p +:+ a = p +:+ b -> a = b.
Proof using Type. induction p as [|c p IH]; [done|]. by intros [= E%IH]. Qed.
Lemma with_rows_same t d : with_table t (with_rows (tb_rows (the_table t d)) (the_table t d)) d = d.
Proof using Type. by destruct t, d as [[] [] ? ? ? ?]. Qed.
Lemma with_rows_twice t l l' d : with_table t (with_rows l' (the_table t (with_table t (with_rows l (the_table t d)) d))) (with_table t (with_rows l (the_table t d)) d) =
  with_table t (with_rows l' (the_table t d)) d.
Proof using Type. by destruct t. Qed.

(** The rows that are left are those without an identifier. *)
Record to_fill t (rows : list id_row) s : Prop := mkToFill {
  fill_primary : NoDup (row_ID <$> table_rows t (g_db s));
  fill_rows : NoDup (row_ID <$> rows);
  fill_found r : r ∈ rows -> exists y, y ∈ table_rows t (g_db s) /\ row_ID y = row_ID r /\ unidentified y = true;
  fill_all y : y ∈ table_rows t (g_db s) -> unidentified y = true -> row_ID y ∈ row_ID <$> rows;
  fill_known : NoDup (omap known (table_rows t (g_db s)));
  fill_index : tb_index (the_table t (g_db s)) = true -> NoDup (omap PublicID (table_rows t (g_db s)));
  fill_fresh : fresh t s }.

(** The table and the state after the first of them is filled in. *)
Definition filled t r s : list id_row := changed (fun q => row_ID q =? row_ID r)
  (fun q => mkIDRow (row_ID q) (Some (id_prefix t +:+ "_" +:+ random_hex (g_clock s)))) (table_rows t (g_db s)).
Definition after_fill t r s : dbstore schema X := with_db (tick (tick s)) (with_table t (with_rows (filled t r s) (the_table t (g_db s))) (g_db s)).

Lemma to_fill_split t r rows s : to_fill t (r :: rows) s -> exists l1 y l2, table_rows t (g_db s) = l1 ++ y :: l2 /\ row_ID y = row_ID r /\
  filled t r s = l1 ++ mkIDRow (row_ID y) (Some (id_prefix t +:+ "_" +:+ random_hex (g_clock s))) :: l2.
Proof using Type.
  intros [Hp _ Hr _ _ _ _]. destruct (Hr r (list_elem_of_here r rows)) as (y & Hin & Ey & _). apply list_elem_of_split in Hin as (l1 & l2 & Es).
  exists l1, y, l2. split; [exact Es|]. split; [exact Ey|]. unfold filled. rewrite Es in *.
  apply (changed_at row_ID _ (fun q => mkIDRow (row_ID q) (Some (id_prefix t +:+ "_" +:+ random_hex (g_clock s)))) l1 y l2 Hp).
  intros q. by rewrite Z.eqb_eq, Ey.
Qed.
Lemma fill_fits t r rows s : to_fill t (r :: rows) s -> tb_index (the_table t (g_db s)) && negb (clash_free same_public_id (filled t r s)) = false.
Proof using Type.
  intros Hf. destruct (to_fill_split t r rows s Hf) as (l1 & y & l2 & Es & _ & ->). destruct (tb_index _) eqn:E; [|done].
  apply negb_false_iff, ids_clash_free. eapply NoDup_omap_put; [rewrite <- Es; by apply (fill_index _ _ _ Hf)|done|].
  rewrite <- Es. intros z Hz. by apply (fill_fresh _ _ _ Hf (g_clock s) z).
Qed.
Lemma fill_next t r rows s : to_fill t (r :: rows) s -> to_fill t rows (after_fill t r s).
Proof using distinct.
  intros Hf. destruct (to_fill_split t r rows s Hf) as (l1 & y & l2 & Es & Ey & El). destruct Hf as [Hp [Hr0 Hn]%NoDup_cons Hr Hy Hk Hi Hf].
  assert (forall z, z ∈ l1 ++ y :: l2 <-> z ∈ l1 \/ z = y \/ z ∈ l2) as Hl0 by (intros z; by rewrite elem_of_app, elem_of_cons).
  assert (the_table t (g_db (after_fill t r s)) = with_rows (filled t r s) (the_table t (g_db s))) as E1 by (cbn; by rewrite the_with_table, decide_True).
  assert (table_rows t (g_db (after_fill t r s)) = filled t r s) as E2 by (unfold table_rows; by rewrite E1).
  assert (forall z, z ∈ table_rows t (g_db s) -> PublicID z <> Some (id_prefix t +:+ "_" +:+ random_hex (g_clock s))) as Hid by (intros z Hz; by apply Hf).
  rewrite Es in *. set (id := id_prefix t +:+ _) in *. set (y' := mkIDRow _ _) in El.
  assert (forall z, z ∈ filled t r s <-> z ∈ l1 \/ z = y' \/ z ∈ l2) as Hl by (intros z; by rewrite El, elem_of_app, elem_of_cons).
  split; rewrite ?E1, ?E2; cbn [tb_index with_rows]; [|exact Hn|..].
  - rewrite El, fmap_app, fmap_cons in *. exact Hp.
  - intros q Hq. destruct (Hr q (list_elem_of_further _ _ _ Hq)) as (z & Hz & Ez & Hu). exists z. split; [|done]. apply Hl.
    apply Hl0 in Hz as [?|[->|?]]; [by left| |by right; right]. exfalso. apply Hr0. rewrite <- Ey, Ez. by apply list_elem_of_fmap_2.
  - intros z Hz Hu. apply Hl in Hz as [Hz|[->|Hz]]; [|by destruct t|].
    all: assert (row_ID z ∈ row_ID <$> r :: rows) as Hin by (apply Hy; [rewrite Hl0; tauto|exact Hu]).
    all: rewrite fmap_cons in Hin; apply elem_of_cons in Hin as [Ez|Hin]; [|exact Hin]; exfalso.
    all: rewrite fmap_app, fmap_cons in Hp; apply NoDup_app in Hp as (_ & Hd & [Hd2 _]%NoDup_cons).
    + apply (Hd (row_ID z)); [by apply list_elem_of_fmap_2|]. rewrite Ez, <- Ey. apply list_elem_of_here.
    + apply Hd2. rewrite Ey, <- Ez. by apply list_elem_of_fmap_2.
  - rewrite El. eapply (NoDup_omap_put known _ _ _ id); [exact Hk|by destruct t|]. intros z Hz. unfold known. destruct (unidentified z); [done|by apply Hid].
  - intros Hx. rewrite El. eapply (NoDup_omap_put PublicID _ _ _ id); [by apply Hi|done|exact Hid].
  - intros n z Hc Hz. rewrite E2 in Hz. cbn in Hc. apply Hl in Hz as [Hz|[->|Hz]]; [by apply (Hf n z); [lia|]; rewrite Es, Hl0; left| |
      by apply (Hf n z); [lia|]; rewrite Es, Hl0; right; right].
    cbn. intros [= E%string_app_inj]. apply (string_app_inj "_") in E. apply distinct in E. lia.
Qed.

Lemma backfill_completes t rows s : to_fill t rows s ->
  wp (backfill_loop t rows) (fun s' a => a = Ok tt /\ exists l, g_db s' = with_table t (with_rows l (the_table t (g_db s))) (g_db s) /\
    identifies (with_rows l (the_table t (g_db s))) /\ (g_clock s <= g_clock s')%nat) s.
Proof using never distinct.
  revert s; induction rows as [|r rows IH]; intros s Hf.
  - apply wp_ret. split; [done|]. exists (table_rows t (g_db s)). split; [symmetry; apply with_rows_same|]. split; [|lia].
    assert (forall y, y ∈ table_rows t (g_db s) -> unidentified y = false) as Hall.
    { intros y Hin. destruct (unidentified y) eqn:E; [|done]. by apply (fill_all _ _ _ Hf y Hin), elem_of_nil in E. }
    split; [exact Hall|]. pose proof (fill_known _ _ _ Hf) as Hk. rewrite (omap_same known PublicID) in Hk; [exact Hk|].
    intros y Hin. unfold known. by rewrite (Hall y Hin).
  - apply wp_bind. unfold wp at 1, newPublicID. apply wp_bind, wp_changes. cbn [g_db tick]. fold (table_rows t (g_db s)). fold (filled t r s).
    rewrite (fill_fits t r rows s Hf). cbn [fst snd]. fold (after_fill t r s). eapply wp_mono; [by apply IH, fill_next|].
    intros s' a (-> & l' & E & [Ha Hb] & Hc). split; [done|]. exists l'. cbn in E, Hc. rewrite with_rows_twice in E. split; [exact E|]. split; [by split|lia].
Qed.

Lemma with_table_twice t x y d : with_table t x (with_table t y d) = with_table t x d.
Proof using Type. by destruct t. Qed.
Lemma with_table_same t d : with_table t (the_table t d) d = d.
Proof using Type. by destruct t, d. Qed.
Lemma the_with_table_same t x d : the_table t (with_table t x d) = x.
Proof using Type. by rewrite the_with_table, decide_True. Qed.

Lemma ensure_index_completes t s : identifies (the_table t (g_db s)) ->
  wp (ensure_index t) (fun s' a => exists u, a = Ok u /\ g_db s' = with_table t (with_index (the_table t (g_db s))) (g_db s) /\ (g_clock s <= g_clock s')%nat) s.
Proof using never.
  intros [_ Hn]. apply wp_bind, wp_ask. cbn [g_db tick]. destruct (tb_index (the_table t (g_db s))) eqn:Ei.
  - apply wp_ret. exists tt. split; [done|]. split; [|cbn; lia]. cbn. assert (with_index (the_table t (g_db s)) = the_table t (g_db s)) as ->; [|by rewrite with_table_same].
    destruct (the_table t (g_db s)). cbn in Ei. by subst.
  - apply wp_wrap_error, wp_changes. cbn [g_db tick]. rewrite Ei, (ids_clash_free _ Hn). exists tt. split; [done|]. split; [done|cbn; lia].
Qed.
Lemma enforce_completes t s : identifies (the_table t (g_db s)) ->
  wp (enforcePublicIDConstraint t) (fun s' a => exists u, a = Ok u /\
    g_db s' = with_table t (with_constraint true true (with_index (the_table t (g_db s)))) (g_db s) /\ (g_clock s <= g_clock s')%nat) s.
Proof using never.
  intros Hi. eapply wp_then; [by apply ensure_index_completes|]. intros s1 [] [E1 Hc1]. destruct sqlite; cbv zeta.
  - apply wp_bind, wp_wrap_error, wp_changes. cbn [fst snd]. apply wp_wrap_error, wp_changes. exists tt. split; [done|]. split; [|cbn; lia]. cbn [g_db with_db tick fst].
    by rewrite E1, !the_with_table_same, !with_table_twice.
  - apply wp_wrap_error, wp_changes. cbn [g_db tick]. rewrite E1, the_with_table_same. cbn [tb_rows with_index].
    assert (forallb (fun r => bool_decide (is_Some (PublicID r))) (tb_rows (the_table t (g_db s))) = true) as ->.
    { apply forallb_forall. intros r Hr%list_elem_of_In. apply (proj1 Hi) in Hr. apply bool_decide_eq_true. unfold unidentified in Hr. by destruct (PublicID r). }
    exists tt. split; [done|]. split; [|cbn; lia]. cbn [g_db with_db tick fst]. by rewrite with_table_twice.
Qed.

(** What is reached for one of the tables. *)
Record phase t d d' : Prop := mkPhase {
  phase_current : current_table (the_table t d');
  phase_identifies : identifies (the_table t d');
  phase_other t' : t' <> t -> the_table t' d' = the_table t' d;
  phase_indexes : idx_resource_kind_name d' = idx_resource_kind_name d /\ idx_operations_idempotency_key d' = idx_operations_idempotency_key d;
  phase_records : Forall2 record_upgraded (resource_records d) (resource_records d');
  phase_events : outbox_events d' = outbox_events d }.

Lemma record_upgraded_refl l : Forall2 record_upgraded l l.
Proof using Type. apply Forall_Forall2_diag, Forall_forall. by left. Qed.
Lemma phase_with_table t x d : current_table x -> identifies x -> phase t d (with_table t x d).
Proof using Type.
  intros Hc Hi. split; rewrite ?the_with_table_same; [done|done| |by destruct t|destruct t; apply record_upgraded_refl|by destruct t].
  intros t' Ht. by rewrite the_with_table, decide_False.
Qed.

Lemma create_completes t s : old_table t (the_table t (g_db s)) -> tb_exists (the_table t (g_db s)) = false ->
  wp (auto_migrate [model_name t]) (fun s' a => a = Ok tt /\ phase t (g_db s) (g_db s') /\ (g_clock s <= g_clock s')%nat) s.
Proof using All.
  intros Ho Hx. unfold wp, auto_migrate. pose proof (AutoMigrate_upgrades [model_name t] (g_clock s) (g_db s)) as [Ht Hoth Hix Hrec Hev].
  pose proof (AutoMigrate_completes [model_name t] (g_clock s) (g_db s) (never _)) as [Hok Hcur].
  { intros t' Ht'%list_elem_of_singleton Hx'. assert (t' = t) as -> by (by destruct t, t'). congruence. }
  destruct (AutoMigrate _ _ _) as [d r]. cbn in *. split; [done|]. split; [|lia]. split; [apply Hcur, list_elem_of_here| |..|done|done|done].
  - destruct (Ht t) as (_ & _ & _ & Hr). rewrite (old_absent _ _ Ho Hx) in Hr. apply Forall2_nil_inv_l in Hr. split; rewrite Hr; [by intros r' ?%elem_of_nil|constructor].
  - intros t' Hne. apply Hoth. intros E%list_elem_of_singleton. by destruct t, t'.
Qed.

(** Adding the column, and filling it in. *)
Definition with_column (x : id_table) : id_table := mkIDTable (tb_exists x) true (tb_index x) (on_insert x) (on_update x) (tb_rows x).
Lemma add_column_completes t s :
  wp (if tb_column (the_table t (g_db s)) then mret tt else wrap_error ("add nullable " +:+ table_name t +:+ ".public_id: ") (AddColumn t))
    (fun s' a => exists u, a = Ok u /\ g_db s' = with_table t (with_column (the_table t (g_db s))) (g_db s) /\ (g_clock s <= g_clock s')%nat) s.
Proof using never.
  destruct (tb_column (the_table t (g_db s))) eqn:E.
  - apply wp_ret. exists tt. split; [done|]. split; [|cbn; lia]. cbn. assert (with_column (the_table t (g_db s)) = the_table t (g_db s)) as ->; [|by rewrite with_table_same].
    destruct (the_table t (g_db s)). cbn in E. by subst.
  - apply wp_wrap_error, wp_changes. cbn [g_db tick]. rewrite E. exists tt. split; [done|]. split; [done|cbn; lia].
Qed.
Lemma fill_completes t s : old_table t (the_table t (g_db s)) -> fresh t s ->
  wp (wrap_error ("backfill " +:+ table_name t +:+ ".public_id: ") (transaction (rows ← unidentified_rows t; backfill_loop t rows)))
    (fun s' a => exists u, a = Ok u /\ (exists l, g_db s' = with_table t (with_rows l (the_table t (g_db s))) (g_db s) /\ identifies (with_rows l (the_table t (g_db s)))) /\
      (g_clock s <= g_clock s')%nat) s.
Proof using never distinct.
  intros [_ Hp Hk Hi] Hf. apply wp_wrap_error, wp_transaction, wp_bind. unfold wp at 1, unidentified_rows, stmt. rewrite never.
  eapply wp_mono; [apply (backfill_completes t _ (with_db (tick s) (g_db s)))|].
  - split; try done.
    + eapply sublist_NoDup; [exact Hp|]. apply fmap_sublist, filter_bool_sublist.
    + intros r [Hr Hu]%filter_bool_elem. exists r. by split_and!.
    + intros y Hy Hu. apply list_elem_of_fmap_2, filter_bool_elem. by split.
    + intros n r Hc. apply Hf. cbn in Hc. lia.
  - intros s' a (-> & l & E & Hl & Hc). exists tt. split; [done|]. exists tt. split; [done|]. cbn in E, Hc. split; [exists l; by split|cbn; lia].
Qed.

Lemma migratePublicID_completes t s : old_table t (the_table t (g_db s)) -> fresh t s ->
  wp (migratePublicID t) (fun s' a => exists u, a = Ok u /\ phase t (g_db s) (g_db s') /\ (g_clock s <= g_clock s')%nat) s.
Proof using All.
  intros Ho Hf. apply wp_bind, wp_ask. cbn [g_db tick]. destruct (tb_exists (the_table t (g_db s))) eqn:Ex; cbn [negb].
  2: { eapply wp_mono; [by apply (create_completes t (tick s))|]. intros s' a (-> & Hp & Hc). exists tt. split; [done|]. split; [exact Hp|cbn in Hc; lia]. }
  set (x := the_table t (g_db s)) in *. apply wp_bind, wp_ask. cbn [g_db tick].
  eapply wp_then; [apply (add_column_completes t (tick (tick s)))|]. intros s1 [] [E1 Hc1]. cbn [g_db g_clock tick] in E1, Hc1. fold x in E1.
  assert (the_table t (g_db s1) = with_column x) as Ex1 by (by rewrite E1, the_with_table_same).
  eapply wp_then; [apply fill_completes|].
  { rewrite Ex1. by destruct Ho. }
  { intros n r Hn. unfold table_rows. rewrite Ex1. apply Hf. lia. }
  intros s2 [] [(l & E2 & Hl) Hc2]. rewrite E1, the_with_table_same, with_table_twice in E2. rewrite E1, the_with_table_same in Hl.
  eapply wp_then; [apply ensure_index_completes; rewrite E2, the_with_table_same; exact Hl|]. intros s3 [] [E3 Hc3].
  rewrite E2, the_with_table_same, with_table_twice in E3.
  eapply wp_mono; [apply enforce_completes; rewrite E3, the_with_table_same; exact Hl|]. intros s4 a ([] & -> & E4 & Hc4).
  rewrite E3, the_with_table_same, with_table_twice in E4. exists tt. split; [done|]. split; [|lia]. rewrite E4. apply phase_with_table; [by split_and!|exact Hl].
Qed.

(** *** Records *)

Lemma with_identity_complete r : lacks_identity (with_identity r r) = false.
Proof using hashed.
  unfold lacks_identity. cbn [ArchivedAt ActiveKey DesiredHash DesiredRevision with_identity].
  rewrite (bool_decide_eq_false_2 (Some (record_key r) = None)) by done.
  rewrite (bool_decide_eq_false_2 (Some (record_key r) = Some "")) by (intros [= E]; by apply (record_key_nonempty r)).
  rewrite (bool_decide_eq_false_2 (Some (Gateway.sha256_hex _) = Some "")) by (intros [= E]; by apply (hashed (DesiredJSON r))).
  cbn [orb]. destruct (Z.eqb_spec (DesiredRevision r) 0) as [|E]; [by rewrite andb_false_r|]. by rewrite (proj2 (Z.eqb_neq _ _) E), andb_false_r.
Qed.
Lemma lacks_archived r : lacks_identity r = true -> ArchivedAt r = None.
Proof using Type. intros [Ha%bool_decide_eq_true _]%andb_prop. exact Ha. Qed.

Record to_identify (rows l : list identity_row) : Prop := mkToIdentify {
  ident_keyed : keyed l;
  ident_rows : NoDup rows;
  ident_in r : r ∈ rows -> r ∈ l /\ lacks_identity r = true;
  ident_all r : r ∈ l -> lacks_identity r = true -> r ∈ rows }.
Lemma identify_next r rows l : to_identify (r :: rows) l ->
  let l' := changed (fun x => String.eqb (ID x) (ID r)) (with_identity r) l in clash_free same_active_key l' = true /\ to_identify rows l'.
Proof using hashed.
  intros [Hk [Hr0 Hn]%NoDup_cons Hin Hall]. cbv zeta. destruct (Hin r (list_elem_of_here r rows)) as [Hr Hl].
  apply list_elem_of_split in Hr as (l1 & l2 & ->). rewrite (changed_at ID _ _ l1 r l2 (proj1 Hk)); [|intros q; apply String.eqb_eq].
  pose proof (keyed_with_identity l1 r l2 (lacks_archived r Hl) Hk) as Hk'. split; [by apply active_keys_clash_free, keyed_keys|].
  assert (forall q, q ∈ l1 \/ q ∈ l2 -> q <> r) as Hother.
  { intros q Hq ->. destruct Hk as (Hids & _). rewrite fmap_app, fmap_cons in Hids. apply NoDup_app in Hids as (_ & Hd & [Hd2 _]%NoDup_cons).
    destruct Hq as [Hq|Hq]; [apply (Hd (ID r)); [by apply list_elem_of_fmap_2|apply list_elem_of_here]|by apply Hd2, list_elem_of_fmap_2]. }
  split; [exact Hk'|exact Hn|..].
  - intros q Hq. destruct (Hin q (list_elem_of_further _ _ _ Hq)) as [Hq' Hlq]. split; [|exact Hlq]. rewrite elem_of_app, elem_of_cons in *.
    destruct Hq' as [|[->|]]; [by left|done|by right; right].
  - intros q Hq Hlq. rewrite elem_of_app, elem_of_cons in Hq. destruct Hq as [Hq|[->|Hq]]; [|by rewrite with_identity_complete in Hlq|].
    all: assert (q ∈ r :: rows) as [->|Hq']%elem_of_cons by (apply Hall; [rewrite elem_of_app, elem_of_cons; tauto|exact Hlq]); [|exact Hq'].
    all: exfalso; eapply Hother; [|reflexivity]; tauto.
Qed.
Lemma identity_completes rows s : to_identify rows (resource_records (g_db s)) ->
  wp (identity_loop rows) (fun s' a => a = Ok tt /\ exists l, g_db s' = with_records l (g_db s) /\ (forall r, r ∈ l -> lacks_identity r = false)) s.
Proof using never hashed.
  revert s; induction rows as [|r rows IH]; intros s Hi.
  - apply wp_ret. split; [done|]. exists (resource_records (g_db s)). split; [by destruct (g_db s)|]. intros r Hr.
    destruct (lacks_identity r) eqn:E; [|done]. by apply (ident_all _ _ Hi r Hr), elem_of_nil in E.
  - destruct (identify_next r rows _ Hi) as [Hc Hn]. apply wp_bind, wp_wrap_error, wp_changes. cbn beta zeta. rewrite Hc. cbn [fst snd].
    eapply wp_mono; [apply (IH (with_db (tick s) _)), Hn|]. intros s' a (-> & l & E & Hl). split; [done|]. by exists l.
Qed.
Lemma identities_complete s : keyed (resource_records (g_db s)) ->
  wp backfillResourceIdentity (fun s' a => exists u, a = Ok u /\ exists l, g_db s' = with_records l (g_db s) /\ (forall r, r ∈ l -> lacks_identity r = false)) s.
Proof using never hashed.
  intros Hk. apply wp_bind. unfold wp at 1, stmt. rewrite never. eapply wp_mono; [apply (identity_completes _ (with_db (tick s) (g_db s)))|].
  - split; [exact Hk|..].
    + eapply sublist_NoDup; [apply (NoDup_fmap_1 ID), Hk|apply filter_bool_sublist].
    + intros r Hr. by apply filter_bool_elem in Hr.
    + intros r Hr Hl. by apply filter_bool_elem.
  - intros s' a (-> & l & E & Hl). exists tt. split; [done|]. by exists l.
Qed.

(** *** All of it *)

Lemma drop_completes b s : wp (drop_index (if b : bool then idx_resource_kind_name else idx_operations_idempotency_key) b)
  (fun s' a => exists u, a = Ok u /\ g_db s' = without_indexes b (negb b) (g_db s)) s.
Proof using never.
  apply wp_bind, wp_ask. destruct ((if b then _ else _) (g_db s)) eqn:E.
  - apply wp_changes. by exists tt.
  - apply wp_ret. exists tt. split; [done|]. cbn. destruct (g_db s), b; cbn in *; unfold without_indexes; cbn; by rewrite E, ?andb_true_r.
Qed.

Lemma identified_rows l l' : (forall r, r ∈ l -> unidentified r = false) -> Forall2 id_kept l l' -> l' = l.
Proof using Type.
  intros Hl Hk. induction Hk as [|r r' l l' [E1 E2] _ IH]; [done|]. rewrite IH by (intros q Hq; by apply Hl, list_elem_of_further).
  specialize (E2 (Hl r (list_elem_of_here r l))). destruct r, r'. cbn in *. by subst.
Qed.
Lemma upgrade_completes s : (forall t, current_table (the_table t (g_db s)) /\ identifies (the_table t (g_db s))) ->
  wp (auto_migrate all_models) (fun s' a => exists u, a = Ok u /\ (forall t, current_table (the_table t (g_db s')) /\ identifies (the_table t (g_db s'))) /\
    upgraded all_models (g_db s) (g_db s')) s.
Proof using All.
  intros Ht. unfold wp, auto_migrate. pose proof (AutoMigrate_upgrades all_models (g_clock s) (g_db s)) as Hu.
  pose proof (AutoMigrate_completes all_models (g_clock s) (g_db s) (never _)) as [Hok Hcur]; [by intros t _ _; apply Ht|].
  destruct (AutoMigrate _ _ _) as [d r]. cbn in *. subst r. exists tt. split; [done|]. split; [|exact Hu]. intros t. split; [apply Hcur; destruct t; unfold all_models; set_solver|].
  destruct (upgraded_tables _ _ _ Hu t) as (_ & _ & _ & Hrows). apply identified_rows in Hrows; [|apply Ht]. unfold identifies. rewrite Hrows. apply Ht.
Qed.

(** What an old database is like, apart from the two superseded indexes. *)
Record legacy s : Prop := mkLegacy {
  legacy_tables t : old_table t (the_table t (g_db s));
  legacy_fresh t : fresh t s;
  legacy_records : keyed (resource_records (g_db s)) }.

Lemma ids_complete s : legacy s -> wp migratePublicIDs (fun s' a => exists u, a = Ok u /\
  (forall t, current_table (the_table t (g_db s')) /\ identifies (the_table t (g_db s'))) /\ keyed (resource_records (g_db s'))) s.
Proof using All.
  intros [Ht Hf Hr]. eapply wp_then; [apply migratePublicID_completes; [apply Ht|apply Hf]|]. intros s1 [] [P1 Hc1].
  assert (the_table Project_ (g_db s1) = the_table Project_ (g_db s)) as E1 by by apply (phase_other _ _ _ P1).
  eapply wp_mono; [apply (migratePublicID_completes Project_)|].
  - rewrite E1. apply Ht.
  - intros n r Hn. unfold table_rows. rewrite E1. apply Hf. lia.
  - intros s2 a ([] & -> & P2 & _). exists tt. split; [done|]. split.
    + intros []; [rewrite (phase_other _ _ _ P2 Module_ ltac:(done)); split; apply P1|split; apply P2].
    + eapply keyed_upgraded; [apply P2|]. eapply keyed_upgraded; [apply P1|exact Hr].
Qed.

(** C31: A migration of an old database in which no statement fails succeeds: then all
    modules and projects have public identifiers, distinct and not empty, with their
    index and constraint; the superseded indexes are gone; no active record is without a
    key or a revision or has an empty hash, and no event waits for the revision of its
    record. *)
Theorem migration_completes s : legacy s -> wp Migrate (fun s' a => a = Ok tt /\ migrated (g_db s')) s.
Proof using All.
  intros Hs. eapply wp_then; [by apply ids_complete|]. intros s1 [] [Ht1 Hr1].
  eapply wp_then; [apply (drop_completes true)|]. intros s2 [] E2. eapply wp_then; [apply (drop_completes false)|]. intros s3 [] E3. rewrite E2 in E3.
  eapply wp_then; [apply upgrade_completes; intros t; rewrite E3; destruct t; [apply (Ht1 Module_)|apply (Ht1 Project_)]|]. intros s4 [] [Ht4 Hu4].
  assert (keyed (resource_records (g_db s4))) as Hr4 by (eapply keyed_upgraded; [apply Hu4|]; by rewrite E3).
  eapply wp_then; [by apply identities_complete|]. intros s5 [] (l & E5 & Hl). apply wp_bind, wp_changes. cbn [fst snd]. set (s6 := with_db _ _).
  assert (g_db s6 = with_events (with_event_revision l <$> outbox_events (g_db s4)) (with_records l (g_db s4))) as E6 by (cbn; by rewrite E5).
  assert (forall t, the_table t (g_db s6) = the_table t (g_db s4)) as Et6 by (intros []; by rewrite E6).
  eapply wp_then; [apply enforce_completes; rewrite Et6; apply Ht4|]. intros s7 [] [E7 _].
  assert (the_table Project_ (g_db s7) = the_table Project_ (g_db s4)) as Ep by (by rewrite E7, <- Et6).
  eapply wp_mono; [apply enforce_completes; rewrite Ep; apply Ht4|]. intros s8 a ([] & -> & E8 & _). split; [done|].
  rewrite E8, Ep, E7, Et6, E6. destruct Hu4 as [_ _ [Ek Eo] _ _]. rewrite E3 in Ek, Eo. cbn in Ek, Eo. split.
  - intros t. pose proof (Ht4 t) as [(? & ? & ?) ?]. by destruct t.
  - cbn. by rewrite Ek, Eo, !andb_false_r.
  - exact Hl.
  - cbn. rewrite <- list_fmap_compose. apply list_fmap_ext. intros i e _. apply with_event_revision_again.
Qed.

(** *** Again *)

Lemma filter_none {A} (p : A -> bool) (l : list A) : (forall x, x ∈ l -> p x = false) -> List.filter p l = [].
Proof using Type.
  induction l as [|x l IH]; [done|]. intros Hl. cbn. rewrite (Hl x (list_elem_of_here x l)). apply IH. intros y Hy. by apply Hl, list_elem_of_further.
Qed.
(** Actions that leave a migrated database as it is. *)
Definition settles {A} (m : step A) : Prop := forall s, migrated (g_db s) -> wp m (fun s' a => exists u, a = Ok u /\ g_db s' = g_db s) s.
Lemma settles_bind {A B} (m : step A) (f : A -> step B) : settles m -> (forall a, settles (f a)) -> settles (m ≫= f).
Proof using Type.
  intros Hm Hf s Hs. eapply wp_then; [by apply Hm|]. intros s1 a E. rewrite <- E. apply Hf. by rewrite E.
Qed.
Lemma settles_ask f (k : bool -> step ()) b : (forall d, migrated d -> f d = b) -> settles (k b) -> settles (b ← ask f; k b).
Proof using never. intros Hf Hk s Hs. apply wp_bind, wp_ask. rewrite (Hf _ Hs). eapply wp_mono; [by apply Hk|]. done. Qed.
Lemma settles_ret {A} (a : A) : settles (mret a).
Proof using Type. intros s _. apply wp_ret. by exists a. Qed.

Lemma settles_enforce t : settles (enforcePublicIDConstraint t).
Proof using never.
  intros s Hm. destruct (migrated_tables _ Hm t) as ((He & Hc & Hx) & Hi & Hu & Hids). eapply wp_mono; [by apply enforce_completes|].
  intros s' a ([] & -> & E & _). exists tt. split; [done|]. rewrite E.
  assert (with_constraint true true (with_index (the_table t (g_db s))) = the_table t (g_db s)) as ->; [|apply with_table_same].
  destruct (the_table t (g_db s)). cbn in *. by subst.
Qed.
Lemma settles_fill t : settles (wrap_error ("backfill " +:+ table_name t +:+ ".public_id: ") (transaction (rows ← unidentified_rows t; backfill_loop t rows))).
Proof using never.
  intros s Hm. apply wp_wrap_error, wp_transaction, wp_bind. unfold wp at 1, unidentified_rows, stmt. rewrite never. cbn [g_db tick with_db].
  rewrite filter_none by apply Hm. apply wp_ret. exists tt. split; [done|]. by exists tt.
Qed.
Lemma settles_public_id t : settles (migratePublicID t).
Proof using never.
  apply settles_ask with true; [intros d Hd; apply (migrated_tables _ Hd t)|]. apply settles_ask with true; [intros d Hd; apply (migrated_tables _ Hd t)|].
  apply settles_bind; [apply settles_ret|intros []]. apply settles_bind; [apply settles_fill|intros []].
  apply settles_bind; [|intros []; apply settles_enforce]. apply settles_ask with true; [intros d Hd; apply (migrated_tables _ Hd t)|]. apply settles_ret.
Qed.
Lemma settles_drop f b : (forall d, migrated d -> f d = false) -> settles (drop_index f b).
Proof using never. intros Hf. apply settles_ask with false; [exact Hf|]. apply settles_ret. Qed.
Lemma settles_auto_migrate models : settles (auto_migrate models).
Proof using never GormLaws0.
  intros s Hs. unfold wp, auto_migrate. rewrite AutoMigrate_settled by (apply never || exact Hs). by exists tt.
Qed.
Lemma settles_identities : settles backfillResourceIdentity.
Proof using never.
  intros s Hs. apply wp_bind. unfold wp at 1, stmt. rewrite never. rewrite filter_none by apply Hs. apply wp_ret. by exists tt.
Qed.
Lemma settles_events : settles backfillOutboxRevisions.
Proof using never.
  intros s Hs. apply wp_changes. exists tt. split; [done|]. cbn. rewrite (migrated_events _ Hs). by destruct (g_db s).
Qed.

(** A migration of a migrated database in which no statement fails succeeds and
    changes nothing. *)
Theorem migrations_are_idempotent s : migrated (g_db s) -> wp Migrate (fun s' a => a = Ok tt /\ g_db s' = g_db s) s.
Proof using never GormLaws0.
  enough (settles (Migrate (X := X))) as Hset by (intros Hm; eapply wp_mono; [by apply Hset|]; intros s' a ([] & -> & E); by split).
  apply settles_bind; [apply settles_bind; [apply settles_public_id|intros []; apply settles_public_id]|intros []].
  apply settles_bind; [apply settles_drop; intros d Hd; apply Hd|intros []]. apply settles_bind; [apply settles_drop; intros d Hd; apply Hd|intros []].
  apply settles_bind; [apply settles_auto_migrate|intros []]. apply settles_bind; [apply settles_identities|intros []].
  apply settles_bind; [apply settles_events|intros []]. apply settles_bind; [apply settles_enforce|intros []]. apply settles_enforce.
Qed.
End completing.

(** ** An old database *)

#[local] Existing Instance OrgSample.org_ambient.
(** What gorm does to one table. *)
Definition migrate_table (models : list string) (t : identified) (d : schema) : schema * res () :=
  let x := the_table t d in
  if decide (model_name t ∈ models) then
    if tb_exists x && negb (clash_free same_public_id (tb_rows x)) then (d, Err duplicate_error)
    else (with_table t (mkIDTable true true true (on_insert x) (on_update x) (tb_rows x)) d, Ok tt)
  else (d, Ok tt).
#[export] Instance sample_gorm : Gorm := {|
  sqlite := true;
  AutoMigrate models _ d := let '(d, r) := migrate_table models Module_ d in match r with Ok _ => migrate_table models Project_ d | Err e => (d, Err e) end;
  payload_namespace _ := None |}.
#[local] Instance sample_hashes : Gateway.GatewayJson := {|
  Gateway.desired_json := @Gateway.desired_json GatewaySample.sample_gateway; Gateway.observed_json := @Gateway.observed_json GatewaySample.sample_gateway;
  Gateway.input_json := @Gateway.input_json GatewaySample.sample_gateway; Gateway.sha256_hex text := "#" +:+ text |}.

Lemma table_upgraded_refl x : table_upgraded x x.
Proof. split_and!; try done. Qed.
Lemma migrate_table_upgrades models t d : upgraded models d (migrate_table models t d).1.
Proof.
  unfold migrate_table. destruct (decide _) as [Ht|]; [destruct (_ && _)|]; cbn [fst].
  2: split; [| |by destruct t|destruct t; apply record_upgraded_refl|by destruct t].
  all: try (split; [intros; apply table_upgraded_refl|done..|apply record_upgraded_refl|done]).
  - intros t'. rewrite the_with_table. destruct (decide _) as [->|]; [by split_and!|apply table_upgraded_refl].
  - intros t' Ht'. rewrite the_with_table, decide_False; [done|]. by intros ->.
Qed.
Lemma migrate_table_other models t d t' : t' <> t -> the_table t' (migrate_table models t d).1 = the_table t' d.
Proof. intros Ht. unfold migrate_table. destruct (decide _); [destruct (_ && _)|]; [done| |done]. cbn. by rewrite the_with_table, decide_False. Qed.
Lemma migrate_table_rest models t d : resource_records (migrate_table models t d).1 = resource_records d.
Proof. unfold migrate_table. destruct (decide _); [destruct (_ && _)|]; [done|by destruct t|done]. Qed.
Lemma migrate_table_completes models t d : (model_name t ∈ models -> tb_exists (the_table t d) = true -> identifies (the_table t d)) ->
  (migrate_table models t d).2 = Ok tt /\ (model_name t ∈ models -> current_table (the_table t (migrate_table models t d).1)).
Proof.
  intros Hi. unfold migrate_table. destruct (decide _) as [Ht|]; [|done]. specialize (Hi Ht).
  destruct (tb_exists _) eqn:E; cbn [andb]; [rewrite (ids_clash_free _ (proj2 (Hi eq_refl)))|]; cbn; (split; [done|]); intros _; by rewrite the_with_table, decide_True.
Qed.
Lemma migrate_table_settled models t d : migrated d -> migrate_table models t d = (d, Ok tt).
Proof.
  intros Hd. destruct (migrated_tables _ Hd t) as ((He & Hc & Hx) & _ & _ & Hi). unfold migrate_table. destruct (decide _); [|done].
  rewrite He, (ids_clash_free _ (proj2 Hi)). cbn. f_equal. destruct t, d as [[] [] ? ? ? ?]; cbn in *; by subst.
Qed.
#[export] Instance sample_gorm_laws : GormLaws OrgSample.org_ambient sample_gorm.
Proof.
  split.
  - intros models n d. cbn. pose proof (migrate_table_upgrades models Module_ d) as H1. destruct (migrate_table models Module_ d) as [d1 [[]|e]]; [|exact H1].
    pose proof (migrate_table_upgrades models Project_ d1) as H2. pose proof (migrate_table_rest models Project_ d1) as E. destruct (migrate_table models Project_ d1) as [d2 r].
    destruct H1 as [T1 O1 [I1 J1] R1 V1], H2 as [T2 O2 [I2 J2] R2 V2]. cbn in *. split; cbn.
    + intros t. destruct (T1 t) as (?&?&?&K1), (T2 t) as (?&?&?&K2). split_and!; auto. by etransitivity.
    + intros t Ht. by rewrite O2, O1.
    + by split; congruence.
    + by rewrite E.
    + congruence.
  - intros models n d _ Hi. cbn. destruct (migrate_table_completes models Module_ d (Hi Module_)) as [E1 C1].
    pose proof (migrate_table_other models Module_ d) as Hother. destruct (migrate_table models Module_ d) as [d1 r1]. cbn in *. subst r1.
    destruct (migrate_table_completes models Project_ d1) as [E2 C2]; [rewrite (Hother Project_) by done; apply (Hi Project_)|].
    pose proof (migrate_table_other models Project_ d1) as Hother2. destruct (migrate_table models Project_ d1) as [d2 r2]. cbn in *. subst r2. split; [done|].
    intros [] Ht; [rewrite (Hother2 Module_) by done; by apply C1|by apply C2].
  - intros models n d _ Hd. cbn. by rewrite !migrate_table_settled.
Qed.

(** Modules of before the public identifiers, no projects, and a workspace of before the
    keys with an operation that is still to be done. *)
Definition old_workspace : identity_row := mkIdentityRow "w1" Gateway.ResourceWorkspace "shop" "" None "{}" None 0 None.
Definition old_schema : schema := mkSchema
  (mkIDTable true false false false false [mkIDRow 1 None; mkIDRow 2 None; mkIDRow 3 (Some "m3")])
  (mkIDTable false false false false false []) true true [old_workspace] [mkEventRow "e1" "w1" 0].
Definition old_database : dbstore schema () := mkStore old_schema () 0.

Lemma old_database_legacy : legacy old_database.
Proof.
  split.
  - intros []; split; try done; cbn; repeat (apply NoDup_cons; split; [set_solver by lia|]); try apply NoDup_nil; try done.
  - intros [] n r _ Hr; [|by apply elem_of_nil in Hr]. cbn in Hr. by repeat (apply elem_of_cons in Hr as [->|Hr]; [done|]); apply elem_of_nil in Hr.
  - split_and!; [apply NoDup_singleton..|]. intros r ->%list_elem_of_singleton. by left.
Qed.

Lemma sample_distinct (m n : nat) : random_hex m = random_hex n -> m = n.
Proof. apply (inj pretty). Qed.
Lemma migration_completes_witness : legacy old_database /\ exists s', Migrate old_database = Ret (s', Ok tt) /\ migrated (g_db s') /\
  PublicID <$> table_rows Module_ (g_db s') = [Some "module_4"; Some "module_6"; Some "m3"] /\ ActiveKey <$> resource_records (g_db s') = [Some "workspace:namespace:shop"] /\
  ev_DesiredRevision <$> outbox_events (g_db s') = [1].
Proof.
  split; [exact old_database_legacy|].
  destruct (wp_ends _ _ _ (migration_completes (Am := OrgSample.org_ambient) (GJ := sample_hashes) (G := sample_gorm) (fun _ => eq_refl) sample_distinct ltac:(intros text; discriminate) old_database old_database_legacy)) as (s' & a & E & -> & Hm).
  exists s'. split; [exact E|]. split; [exact Hm|]. vm_compute in E. injection E as <-. by split_and!.
Defined.
Lemma old_database_keys : keys_ok (g_db old_database).
Proof. split; [intros t; apply (legacy_tables _ old_database_legacy t)|]. apply (legacy_records _ old_database_legacy). Qed.
Lemma migration_keeps_what_is_there_witness : keys_ok (g_db old_database) /\ exists s' a, Migrate old_database = Ret (s', a) /\ kept old_schema (g_db s').
Proof.
  split; [exact old_database_keys|]. destruct (wp_ends _ _ _ (migration_keeps_what_is_there old_database old_database_keys)) as (s' & a & E & Hk).
  exists s', a. split; [exact E|exact Hk].
Defined.
