(* ===== verification/Addons.v ===== *)
(** * Addons

    internal/addon/interface.go and manager.go, and the two controllers that run the
    addons of a cluster: manager/addon/controller.go on the hub and
    agent/addon/controller.go on the cluster itself.  Both write the states of the addons
    into the status of the same ManagedCluster. *)

From S2P Require Import Prelude GoRuntime Json Api Clients ClientManager ClusterController Agent Wp.

Definition ErrPrerequisitesNotMet : string := "addon prerequisites not met".

(** [errors.Is(err, ErrPrerequisitesNotMet)], which sees through [%w]. *)
Class AddonErrors := { IsPrerequisites : string -> bool }.
Class AddonErrorsLaws (E : AddonErrors) : Prop := {
  IsPrerequisites_wrapped text : IsPrerequisites (ErrPrerequisitesNotMet +:+ ": " +:+ text) = true;
}.

(** [None] in the first component is an addon the cluster does not name. *)
Definition find_addon (name : string) (addons : list ClusterAddon) : option ClusterAddon :=
  List.find (fun ca => String.eqb (ca_Name ca) name) addons.

Fixpoint updateAddonStatus (statuses : list AddonStatus) (name state message : string) : list AddonStatus :=
  match statuses with
  | [] => [mkAddonStatus name state message]
  | s :: rest =>
      if String.eqb (as_Name s) name then mkAddonStatus name state message :: rest
      else s :: updateAddonStatus rest name state message
  end.

Section addons.
Context `{GoRuntime, Kubernetes, ApiErrors, HH : !ClusterHub, !AgentHub HH, AddonErrors}.
Context {X : Type}.

(** The hub, and what the controllers of the addons work on. *)
Record addon_world := mkAddonWorld { aw_hub : chub; aw_rest : X }.
Definition on_hub {A} (f : chub -> chub * A) (w : addon_world) : addon_world * A :=
  let '(h, a) := f (aw_hub w) in (mkAddonWorld h (aw_rest w), a).

Abbreviation step := (action addon_world).

(** ** interface.go; the client of the config is part of the world. *)

Record AddonConfig := mkAddonConfig { ClusterName : string; Config : gmap string string }.
Definition AddonController : Type := AddonConfig -> step ().
(** The controllers an addon makes for the two sides, [None] where it has none. *)
Record Addon := mkAddon {
  Name : string; ManagerController : res (option AddonController); AgentController : res (option AddonController) }.

(** ** manager.go *)

Definition registry : Type := gmap string Addon.
Definition Register (a : Addon) (r : registry) : outcome registry :=
  match r !! Name a with Some _ => Panic | None => Ret (<[Name a := a]> r) end.
Definition Get (name : string) (r : registry) : option Addon := r !! name.
Definition List_ (r : registry) : list Addon := (go_range 110 (r : gmap string Addon)).*2.

(** [SetupWithManager] of either side. *)
Fixpoint setup_loop (side : Addon -> res (option AddonController)) (addons : list Addon) (cs : gmap string AddonController) :
    res (gmap string AddonController) :=
  match addons with
  | [] => Ok cs
  | a :: addons =>
      match side a with
      | Err e => Err e
      | Ok (Some c) => setup_loop side addons (<[Name a := c]> cs)
      | Ok None => setup_loop side addons cs
      end
  end.
Definition SetupWithManager (side : Addon -> res (option AddonController)) (r : registry) : res (gmap string AddonController) :=
  setup_loop side (List_ r) ∅.

Record AddonReconciler := mkAddonReconciler { Controllers : gmap string AddonController; Registry : registry; rc_ClusterName : string }.

(** The statuses after one addon after the other. *)
Fixpoint for_addons (body : list AddonStatus -> Addon -> step (list AddonStatus)) (addons : list Addon) (statuses : list AddonStatus) :
    step (list AddonStatus) :=
  match addons with
  | [] => mret statuses
  | a :: addons => statuses ← body statuses a; for_addons body addons statuses
  end.

Definition with_addon_status (c : ManagedCluster) (statuses : list AddonStatus) : ManagedCluster :=
  let st := mc_State c in
  mkCluster (mc_Name c) (mc_Labels c) (mc_Deleting c) (mc_Taints c) (mc_ResourceSummary c) (mc_Conditions c) (mc_Access c)
    (mkClusterState (State st) (ID st) (APIServerURL st) (LastKeepAliveTime st) statuses (mc_NodeSummary st)).

(** ** manager/addon/controller.go *)

Section manager.
Variable r : AddonReconciler.

Definition manager_addon (cluster : ManagedCluster) (statuses : list AddonStatus) (a : Addon) : step (list AddonStatus) :=
  let name := Name a in
  match find_addon name (mc_Addons (mc_Access cluster)) with
  | Some ca =>
      if negb (ca_Enabled ca) then mret (updateAddonStatus statuses name "Disabled" "Addon is disabled") else
      match Controllers r !! name with
      | None => mret (updateAddonStatus statuses name "Pending" "Controller not registered")
      | Some controller =>
          x ← attempt (controller (mkAddonConfig (mc_Name cluster) (ca_Config ca)));
          match x with
          | Err e => mret (updateAddonStatus statuses name "Failed" ("Reconcile error: " +:+ e))
          | Ok _ =>
              if String.eqb (ConnectionMode (mc_Access cluster)) "Hub"
              then mret (updateAddonStatus statuses name "Applied" "Addon successfully applied") else mret statuses
          end
      end
  | None => mret (updateAddonStatus statuses name "Disabled" "Addon is disabled")
  end.

(** The statuses are written into the cluster as it is read again. *)
Definition write_statuses (name : string) (statuses : list AddonStatus) (get update : string) : step () :=
  latest ← wrap_error get (returns (on_hub (ch_Get name)));
  x ← call (on_hub (ah_StatusUpdate (with_addon_status latest statuses)));
  match x with Ok _ => mret tt | Err e => fail (update +:+ e) end.

Definition Reconcile (name : string) : step () :=
  x ← attempt (returns (on_hub (ch_Get name)));
  match x with
  | Err e => if IsNotFound e then mret tt else fail e
  | Ok cluster =>
      statuses ← for_addons (manager_addon cluster) (List_ (Registry r)) (mc_AddonStatus (mc_State cluster));
      match List_ (Registry r) with
      | [] => mret tt
      | _ => write_statuses name statuses "failed to re-fetch cluster: " "failed to update cluster addon status: "
      end
  end.
End manager.

(** ** agent/addon/controller.go *)

Section agent.
Variable r : AddonReconciler.

Definition agent_addon (cluster : ManagedCluster) (statuses : list AddonStatus) (a : Addon) : step (list AddonStatus) :=
  let name := Name a in
  match find_addon name (mc_Addons (mc_Access cluster)) with
  | Some ca =>
      if negb (ca_Enabled ca) then mret (updateAddonStatus statuses name "Disabled" "Addon is disabled") else
      match Controllers r !! name with
      | None => mret (updateAddonStatus statuses name "Pending" "Controller not registered")
      | Some controller =>
          x ← attempt (controller (mkAddonConfig (mc_Name cluster) (ca_Config ca)));
          match x with
          | Err e => mret (updateAddonStatus statuses name (if IsPrerequisites e then "Pending" else "Failed") e)
          | Ok _ => mret (updateAddonStatus statuses name "Applied" "Addon successfully applied")
          end
      end
  | None => mret (updateAddonStatus statuses name "Disabled" "Addon is disabled")
  end.

Definition agent_Reconcile (name : string) : step () :=
  if negb (String.eqb name (rc_ClusterName r)) then mret tt else
  x ← attempt (returns (on_hub (ch_Get name)));
  match x with
  | Err e => if IsNotFound e then mret tt else fail e
  | Ok cluster =>
      statuses ← for_addons (agent_addon cluster) (List_ (Registry r)) (mc_AddonStatus (mc_State cluster));
      match List_ (Registry r) with [] => mret tt | _ => write_statuses name statuses "" "" end
  end.
(** [Start]: one round after the other; errors are logged. *)
Definition agent_round : step () := _ ← attempt (agent_Reconcile (rc_ClusterName r)); mret tt.
End agent.
End addons.
Arguments addon_world {_ _ _} X. Arguments Addon {_ _ _} X. Arguments AddonController {_ _ _} X. Arguments AddonReconciler {_ _ _} X.
Arguments registry {_ _ _} X.

(** ** The list of the states *)

Definition status_of (name : string) (statuses : list AddonStatus) : option AddonStatus :=
  List.find (fun s => String.eqb (as_Name s) name) statuses.

Lemma status_of_update statuses name state message : status_of name (updateAddonStatus statuses name state message) = Some (mkAddonStatus name state message).
Proof.
  induction statuses as [|s rest IH]; cbn; [by rewrite String.eqb_refl|]. destruct (String.eqb (as_Name s) name) eqn:E; cbn.
  - by rewrite String.eqb_refl.
  - by rewrite E.
Qed.
Lemma status_of_other statuses name state message n : n ≠ name ->
  status_of n (updateAddonStatus statuses name state message) = status_of n statuses.
Proof.
  intros Hn. assert (String.eqb name n = false) as En by (apply String.eqb_neq; congruence).
  induction statuses as [|s rest IH]; cbn; [by rewrite En|]. destruct (String.eqb (as_Name s) name) eqn:E; cbn.
  - apply String.eqb_eq in E. rewrite E, En. done.
  - by destruct (String.eqb (as_Name s) n).
Qed.
Lemma update_names statuses name state message : as_Name <$> updateAddonStatus statuses name state message =
  (as_Name <$> statuses) ++ (if decide (name ∈ as_Name <$> statuses) then [] else [name]).
Proof.
  induction statuses as [|s rest IH]; [done|]. cbn [updateAddonStatus]. destruct (String.eqb (as_Name s) name) eqn:E.
  - apply String.eqb_eq in E. rewrite decide_True by (rewrite fmap_cons, E; by left). by rewrite app_nil_r, !fmap_cons, E.
  - apply String.eqb_neq in E. rewrite !fmap_cons, IH. cbn. f_equal. f_equal.
    assert (name ∈ as_Name s :: (as_Name <$> rest) <-> name ∈ as_Name <$> rest) as Hin by (rewrite elem_of_cons; intuition congruence).
    destruct (decide (name ∈ as_Name <$> rest)) as [Hd|Hd].
    + by rewrite decide_True by by apply Hin.
    + by rewrite decide_False by (intros Hx; by apply Hd, Hin).
Qed.

Section facts.
Context `{GoRuntimeLaws, Kubernetes, ApiErrors, HH : !ClusterHub, !AgentHub HH, AddonErrors}.
Context {X : Type}.
Implicit Types (w : addon_world X).

Lemma List_elem (r : registry X) a : a ∈ List_ r <-> exists name, r !! name = Some a.
Proof.
  unfold List_. split.
  - intros (kv & -> & Hkv)%list_elem_of_fmap. exists kv.1. destruct kv. by apply range_elem in Hkv.
  - intros (name & Hn). apply list_elem_of_fmap. exists (name, a). split; [done|]. by apply range_elem.
Qed.

(** Filed under their names. *)
Definition registered (r : registry X) : Prop := forall name a, r !! name = Some a -> Name a = name.
Lemma registered_Register a r r' : registered r -> Register a r = Ret r' -> registered r'.
Proof.
  unfold Register. intros Hr E name b Hb. destruct (r !! Name a); [done|]. injection E as <-.
  apply (lookup_insert_Some (M := gmap string)) in Hb as [[<- <-]|[_ Hb]]; [done|by apply Hr].
Qed.
Lemma List_names (r : registry X) : registered r -> NoDup (Name <$> List_ r).
Proof.
  intros Hr. unfold List_. rewrite <- list_fmap_compose. rewrite (list_fmap_ext _ fst).
  - apply range_keys_NoDup.
  - intros i [k a] Hi. cbn. apply Hr. apply (range_elem 110). by eapply list_elem_of_lookup_2.
Qed.

(** *** One addon after the other *)

(** What is said of an addon after its turn: [final] holds of its entry, and the entries
    of the others stay. *)
Definition one_addon (final : Addon X -> option AddonStatus -> option AddonStatus -> Prop) (body : list AddonStatus -> Addon X -> action (addon_world X) (list AddonStatus)) : Prop :=
  forall statuses a w, wp (body statuses a) (fun _ x => exists statuses', x = Ok statuses' /\
    final a (status_of (Name a) statuses) (status_of (Name a) statuses') /\
    (forall n, n ≠ Name a -> status_of n statuses' = status_of n statuses)) w.

Lemma for_addons_spec final body addons statuses w : one_addon final body -> NoDup (Name <$> addons) ->
  wp (for_addons body addons statuses) (fun _ x => exists statuses', x = Ok statuses' /\
    (forall a, a ∈ addons -> final a (status_of (Name a) statuses) (status_of (Name a) statuses')) /\
    (forall n, n ∉ Name <$> addons -> status_of n statuses' = status_of n statuses)) w.
Proof.
  intros Hb. revert statuses w. induction addons as [|a addons IH]; intros statuses w; cbn [for_addons].
  { intros _. exists statuses. split; [done|]. split; [by intros a ?%elem_of_nil|done]. }
  rewrite fmap_cons. intros [Ha Hnd]%NoDup_cons. apply wp_bind. eapply wp_mono; [apply Hb|]. intros w1 x (s1 & -> & Hf & Ho).
  eapply wp_mono; [by apply IH|]. intros w2 x (s2 & -> & Hall & Hrest). exists s2. split; [done|]. split.
  - intros b [->|Hin]%elem_of_cons.
    + rewrite Hrest by done. exact Hf.
    + rewrite <- Ho; [by apply Hall|]. intros E. apply Ha. rewrite <- E. by apply list_elem_of_fmap_2.
  - intros n [Hna Hn]%not_elem_of_cons. rewrite Hrest by done. by apply Ho.
Qed.

(** *** What the two sides report *)

Definition disabled (a : Addon X) : AddonStatus := mkAddonStatus (Name a) "Disabled" "Addon is disabled".
Definition unregistered (a : Addon X) : AddonStatus := mkAddonStatus (Name a) "Pending" "Controller not registered".
Definition applied (a : Addon X) : AddonStatus := mkAddonStatus (Name a) "Applied" "Addon successfully applied".

(** The entry of an addon, by what [ran] says of the result of its controller, which has
    been called with the config of the cluster. *)
Definition decided (r : AddonReconciler X) (cluster : ManagedCluster) (ran : Addon X -> res () -> option AddonStatus -> option AddonStatus -> Prop)
    (a : Addon X) (before after : option AddonStatus) : Prop :=
  match find_addon (Name a) (mc_Addons (mc_Access cluster)) with
  | Some ca =>
      if negb (ca_Enabled ca) then after = Some (disabled a) else
      match Controllers r !! Name a with
      | None => after = Some (unregistered a)
      | Some controller => exists w1 w2 x, controller (mkAddonConfig (mc_Name cluster) (ca_Config ca)) w1 = Ret (w2, x) /\ ran a x before after
      end
  | None => after = Some (disabled a)
  end.

Definition manager_ran (cluster : ManagedCluster) (a : Addon X) (x : res ()) (before after : option AddonStatus) : Prop :=
  match x with
  | Err e => after = Some (mkAddonStatus (Name a) "Failed" ("Reconcile error: " +:+ e))
  | Ok _ => after = if String.eqb (ConnectionMode (mc_Access cluster)) "Hub" then Some (applied a) else before
  end.
Definition agent_ran (a : Addon X) (x : res ()) (before after : option AddonStatus) : Prop :=
  match x with
  | Err e => after = Some (mkAddonStatus (Name a) (if IsPrerequisites e then "Pending" else "Failed") e)
  | Ok _ => after = Some (applied a)
  end.

(** No controller panics. *)
Definition controllers_end (r : AddonReconciler X) : Prop :=
  forall name c config w, Controllers r !! name = Some c -> wp (c config) (fun _ _ => True) w.

Ltac entry := eexists; split; [done|]; split; [cbn [Name]; rewrite ?status_of_update; try done|by intros; apply status_of_other].

Lemma manager_one r cluster : controllers_end r -> one_addon (decided r cluster (manager_ran cluster)) (manager_addon r cluster).
Proof.
  intros Hc statuses a w. unfold manager_addon, decided. destruct (find_addon _ _) as [ca|]; [|apply wp_ret; entry].
  destruct (negb _); [apply wp_ret; entry|]. destruct (Controllers r !! Name a) as [c|] eqn:Ec; [|apply wp_ret; entry].
  apply wp_bind, wp_attempt. destruct (wp_ends _ _ _ (Hc _ _ (mkAddonConfig (mc_Name cluster) (ca_Config ca)) w Ec)) as (w2 & x & E & _).
  unfold wp at 1. rewrite E. destruct x as [u|e].
  - destruct (String.eqb (ConnectionMode _) "Hub") eqn:Em; apply wp_ret.
    + entry. exists w, w2, (Ok u). split; [done|]. unfold manager_ran. by rewrite Em.
    + exists statuses. split; [done|]. split; [|done]. exists w, w2, (Ok u). split; [done|]. unfold manager_ran. by rewrite Em.
  - apply wp_ret. entry. by exists w, w2, (Err e).
Qed.

Lemma agent_one r cluster : controllers_end r -> one_addon (decided r cluster agent_ran) (agent_addon r cluster).
Proof.
  intros Hc statuses a w. unfold agent_addon, decided. destruct (find_addon _ _) as [ca|]; [|apply wp_ret; entry].
  destruct (negb _); [apply wp_ret; entry|]. destruct (Controllers r !! Name a) as [c|] eqn:Ec; [|apply wp_ret; entry].
  apply wp_bind, wp_attempt. destruct (wp_ends _ _ _ (Hc _ _ (mkAddonConfig (mc_Name cluster) (ca_Config ca)) w Ec)) as (w2 & x & E & _).
  unfold wp at 1. rewrite E. destruct x as [u|e]; apply wp_ret; entry; by exists w, w2; eexists.
Qed.

(** What a round that ends without an error has written. *)
Definition reported (r : AddonReconciler X) (name : string) (ran : ManagedCluster -> Addon X -> res () -> option AddonStatus -> option AddonStatus -> Prop) w w' : Prop :=
  exists cluster latest statuses h c, (ch_Get name (aw_hub w)).2 = Ok cluster /\
    ah_StatusUpdate (with_addon_status latest statuses) h = (aw_hub w', Ok c) /\
    (forall a, a ∈ List_ (Registry r) ->
       decided r cluster (ran cluster) a (status_of (Name a) (mc_AddonStatus (mc_State cluster))) (status_of (Name a) statuses)) /\
    forall n, n ∉ Name <$> List_ (Registry r) -> status_of n statuses = status_of n (mc_AddonStatus (mc_State cluster)).

Lemma write_statuses_spec name statuses get update w (Q : addon_world X -> res () -> Prop) : (forall w' e, Q w' (Err e)) ->
  (forall latest h w' c, ah_StatusUpdate (with_addon_status latest statuses) h = (aw_hub w', Ok c) -> Q w' (Ok tt)) ->
  wp (write_statuses name statuses get update) Q w.
Proof.
  intros He Hok. unfold write_statuses. apply wp_bind. unfold wp at 1, wrap_error, returns, on_hub.
  destruct (ch_Get name (aw_hub w)) as [h1 [latest|e]]; [|apply He]. apply wp_bind, wp_call. unfold on_hub. cbn [aw_hub].
  destruct (ah_StatusUpdate _ _) as [h2 [c|e]] eqn:E; cbn; [|apply He]. by eapply (Hok latest h1 _ c).
Qed.

Lemma round_reports r name body ran get update w : registered (Registry r) ->
  (forall cluster, one_addon (decided r cluster (ran cluster)) (body cluster)) ->
  wp (x ← attempt (returns (on_hub (X := X) (ch_Get name)));
      match x with
      | Err e => if IsNotFound e then mret tt else fail e
      | Ok cluster =>
          statuses ← for_addons (body cluster) (List_ (Registry r)) (mc_AddonStatus (mc_State cluster));
          match List_ (Registry r) with [] => mret tt | _ => write_statuses name statuses get update end
      end) (fun w' x => x = Ok tt ->
    (exists e, (ch_Get name (aw_hub w)).2 = Err e /\ IsNotFound e = true) \/ List_ (Registry r) = [] \/ reported r name ran w w') w.
Proof.
  intros Hr Hb. apply wp_bind, wp_attempt, wp_returns. unfold on_hub at 1 2. destruct (ch_Get name (aw_hub w)) as [h1 [cluster|e]] eqn:Eg; cbn [fst snd].
  2:{ destruct (IsNotFound e) eqn:En; [|by apply wp_fail]. apply wp_ret. intros _. left. by exists e. }
  apply wp_bind. eapply wp_mono; [apply (for_addons_spec _ _ _ _ _ (Hb cluster)), List_names, Hr|].
  intros w2 x (statuses & -> & Hall & Hrest). destruct (List_ (Registry r)) as [|a0 l] eqn:El.
  { apply wp_ret. intros _. right. by left. }
  apply write_statuses_spec; [done|]. intros latest h w' c Eu _. right. right. exists cluster, latest, statuses, h, c. rewrite El.
  split; [by rewrite Eg|]. done.
Qed.

(** A round of the manager over the addons of a cluster ends, and without an error it
    has written a list of states that gives every registered addon the state its turn
    decided - disabled, without a controller, failed with the error of its controller, and
    on a hub cluster applied - and leaves the entries of all others as they were read; the
    failure of one addon keeps no other from its turn. *)
Lemma manager_reports r name w : registered (Registry r) -> controllers_end r ->
  wp (Reconcile r name) (fun w' x => x = Ok tt ->
    (exists e, (ch_Get name (aw_hub w)).2 = Err e /\ IsNotFound e = true) \/ List_ (Registry r) = [] \/
    reported r name manager_ran w w') w.
Proof. intros Hr Hc. apply round_reports; [done|]. intros cluster. by apply manager_one. Qed.

(** The same of a round of the agent, which reports an addon whose prerequisites are
    missing as pending and one whose controller succeeds as applied. *)
Lemma agent_reports r w : registered (Registry r) -> controllers_end r ->
  wp (agent_Reconcile r (rc_ClusterName r)) (fun w' x => x = Ok tt ->
    (exists e, (ch_Get (rc_ClusterName r) (aw_hub w)).2 = Err e /\ IsNotFound e = true) \/ List_ (Registry r) = [] \/
    reported r (rc_ClusterName r) (fun _ => agent_ran) w w') w.
Proof.
  intros Hr Hc. unfold agent_Reconcile. rewrite String.eqb_refl. apply (round_reports r _ (agent_addon r) (fun _ => agent_ran)); [done|].
  intros cluster. by apply agent_one.
Qed.
End facts.
