(* ===== verification/HelmAddons.v ===== *)
(** * The addons: MCS, VictoriaMetrics and Kruise Rollout

    internal/addon/mcs/mcs.go, victoriametrics/victoriametrics.go and
    kruiserollout/agent.go: each addon installs a chart with helm, on the hub and on the
    clusters, and the manager's side of the first two writes what the agents need into the
    configs of the cluster.  The packages share the text of [firstNonEmpty],
    [loadValuesFromRef] and [mergeValues]; the charts, helm and the objects of a cluster
    are reached through [AddonClients]. *)

From S2P Require Import Prelude GoRuntime Json Api Clients Manifest ClientManager ClusterController Agent GoStrings Wp Addons.
From Stdlib Require Import Ascii.

(** The cluster the client of a config talks to, and helm there; the environment. *)
Class AddonClients := {
  aout : Type;
  ao_GetConfigMap : string -> string -> aout -> aout * res (gmap string string);          (* namespace, name: Data *)
  ao_GetSecret : string -> string -> aout -> aout * res (gmap string string);
  ao_GetService : string -> string -> aout -> aout * option string;
  ao_GetNamespace : string -> aout -> aout * res (option (gmap string string) * option (gmap string string));
                                                                                 (* labels, annotations *)
  ao_UpdateNamespace : string -> gmap string string -> gmap string string -> aout -> aout * option string;
  ao_CreateNamespace : string -> aout -> aout * option string;
  ao_CreateServiceAccount : string -> string -> aout -> aout * option string;
  ao_CreateTokenSecret : string -> string -> string -> aout -> aout * option string;      (* namespace, name, account *)
  ao_GetClusterRole : string -> aout -> aout * option string;
  ao_CreateClusterRole : string -> list string -> aout -> aout * option string;           (* verbs on CRDs *)
  ao_GetClusterRoleBinding : string -> aout -> aout * option string;
  ao_CreateClusterRoleBinding : string -> string -> string -> aout -> aout * option string;  (* name, account, its namespace *)
  (** The actions of helm.sh/helm/v3 with the configuration of a namespace. *)
  chart : Type;
  helm_NewClient : string -> aout -> aout * option string;
  helm_LocateChart : string -> aout -> aout * res string;
  helm_Load : string -> aout -> aout * res chart;
  helm_History : string -> string -> aout -> aout * option string;                        (* namespace, release *)
  helm_Install : string -> string -> option chart -> gmap string json -> aout -> aout * option string;
                                                                                 (* a nil chart is [None] *)
  helm_Upgrade : string -> string -> chart -> gmap string json -> aout -> aout * option string;
  helm_Uninstall : string -> string -> aout -> aout * option string;
  yaml_Unmarshal : string -> res (option (gmap string json));
  Getenv : string -> string;
}.

(** ** Helpers *)

Definition firstNonEmpty (values : list string) : string :=
  default "" (List.find (fun v => negb (String.eqb v "")) values).

Definition is_url (s : string) : bool := String.prefix "http://" s || String.prefix "https://" s.

(** [strings.TrimRight(s, "/")] *)
Fixpoint TrimRight (s : string) : string :=
  match s with
  | "" => ""
  | String c s =>
      match TrimRight s with
      | "" => if Ascii.eqb c "/"%char then "" else String c ""
      | t => String c t
      end
  end.

Record chartURLConfig := mkChart { ch_URL : string; ch_RepoURL : string; ch_ChartName : string; ch_ChartVersion : string }.

(** Maps merge, anything else is replaced.  [map_fold] visits the entries in an order of
    its own; [merge_any_order] shows that every order gives the same map. *)
Fixpoint merge_json (src : json) (dst : gmap string json) : gmap string json :=
  match src with
  | JObj m => map_fold (fun k v acc => match v, acc !! k with
                                       | JObj _, Some (JObj d) => <[k := JObj (merge_json v d)]> acc
                                       | _, _ => <[k := v]> acc
                                       end) dst m
  | _ => dst
  end.
Definition mergeValues (dst src : gmap string json) : gmap string json := merge_json (JObj src) dst.

(** The values of the given keys, empty for a key that is absent. *)
Definition record_config (keys : list string) (cfg last : gmap string string) : gmap string string :=
  foldl (fun m key => <[key := get_str cfg key]> m) last keys.
Definition key_changed (last cfg : gmap string string) (key : string) : bool := negb (String.eqb (get_str last key) (get_str cfg key)).
(** [shouldUpdateBroker] and [shouldUpdateVM]; [None] is the nil map. *)
Definition should_update (keys : list string) (last : option (gmap string string)) (cfg : gmap string string) : bool :=
  match last with None => true | Some last => existsb (key_changed last cfg) keys end.

Section addons.
Context `{GoRuntime, Kubernetes, ApiErrors, HH : !ClusterHub, !AgentHub HH, AddonErrors, AddonClients}.

(** The configs the controllers have seen last, nil where there is none, and the outside. *)
Record addon_rest := mkRest { last_configs : gmap string (gmap string string); outside : aout }.
Abbreviation step := (action (addon_world addon_rest)).

Definition out {A} (f : aout -> aout * A) (w : addon_world addon_rest) : addon_world addon_rest * A :=
  let '(o, a) := f (outside (aw_rest w)) in (mkAddonWorld (aw_hub w) (mkRest (last_configs (aw_rest w)) o), a).
Definition get_last (id : string) : step (option (gmap string string)) := fun w => Ret (w, Ok (last_configs (aw_rest w) !! id)).
Definition set_last (id : string) (cfg : option (gmap string string)) : step () := fun w =>
  Ret (mkAddonWorld (aw_hub w) (mkRest (partial_alter (fun _ => cfg) id (last_configs (aw_rest w))) (outside (aw_rest w))), Ok tt).

Record valuesRef := mkValuesRef { vr_ConfigMapName : string; vr_SecretName : string; vr_Namespace : string }.

Definition values_of (what : string) (data : gmap string string) : res string :=
  match data !! "values.yaml" with
  | Some v => Ok v
  | None => match data !! "values" with Some v => Ok v | None => Err ("values " +:+ what +:+ " must contain values.yaml or values") end
  end.
Definition loadValuesFromRef (ref : valuesRef) : step (option (gmap string json)) :=
  let cm := vr_ConfigMapName ref in let secret := vr_SecretName ref in
  if negb (String.eqb cm "") && negb (String.eqb secret "") then fail "only one of values ConfigMap or Secret can be specified" else
  if String.eqb cm "" && String.eqb secret "" then mret None else
  if String.eqb (vr_Namespace ref) "" then fail "values namespace must be set" else
  raw ← (if negb (String.eqb cm "") then data ← returns (out (ao_GetConfigMap (vr_Namespace ref) cm)); of_res (values_of "ConfigMap" data)
         else data ← returns (out (ao_GetSecret (vr_Namespace ref) secret)); of_res (values_of "Secret" data));
  values ← of_res (yaml_Unmarshal raw);
  mret (Some (default ∅ values)).

(** *** pkg/helm/client.go *)

Definition in_progress (e : string) : bool := str_contains e "another operation (install/upgrade/rollback) is in progress".

Definition uninstallPendingRelease (namespace release : string) : step () :=
  e ← call (out (helm_Uninstall namespace release));
  match e with
  | Some e => if str_contains e "not found" then mret tt else fail ("failed to uninstall pending release " +:+ release +:+ ": " +:+ e)
  | None => mret tt
  end.
(** After a refusal because of another operation: away with the release, and an
    installation; the error of the second load is dropped. *)
Definition or_reinstall (namespace release path : string) (values : gmap string json) (run : aout -> aout * option string) : step () :=
  e ← call (out run);
  match e with
  | None => mret tt
  | Some e =>
      if in_progress e then
        _ ← uninstallPendingRelease namespace release;
        ch ← call (out (helm_Load path));
        check (out (helm_Install namespace release (match ch with Ok ch => Some ch | Err _ => None end) values))
      else fail e
  end.
Definition InstallOrUpgrade (namespace release chartPath : string) (values : gmap string json) : step () :=
  path ← returns (out (helm_LocateChart chartPath));
  missing ← call (out (helm_History namespace release));
  ch ← returns (out (helm_Load path));
  or_reinstall namespace release path values
    (match missing with None => helm_Upgrade namespace release ch values | Some _ => helm_Install namespace release (Some ch) values end).

(** The end of every installation: the values of the addon, merged with those of the
    config, and the release. *)
Definition install (namespace release chart : string) (values : gmap string json) (extra : option (gmap string json)) : step () :=
  InstallOrUpgrade namespace release chart (match extra with Some e => mergeValues values e | None => values end).

(** [cluster.Spec.Addons[i].Config = newConfig] for the first addon of the name. *)
Fixpoint set_config (name : string) (cfg : gmap string string) (addons : list ClusterAddon) : list ClusterAddon :=
  match addons with
  | [] => []
  | ca :: rest =>
      if String.eqb (ca_Name ca) name then mkClusterAddon (ca_Name ca) (ca_Enabled ca) cfg :: rest else ca :: set_config name cfg rest
  end.
Definition with_addons (c : ManagedCluster) (addons : list ClusterAddon) : ManagedCluster :=
  let a := mc_Access c in with_access c (mkAccess (mc_Annotations a) (ConnectionMode a) (APIServer a) (SecretRef a) addons).
(** The config of the addon of a cluster. *)
Definition publish_config (name cluster : string) (cfg : gmap string string) : step () :=
  c ← returns (on_hub (ch_Get cluster));
  check (on_hub (ch_Update (with_addons c (set_config name cfg (mc_Addons (mc_Access c)))))).
End addons.
Arguments addon_rest {_}.

(** ** mcs.go *)

Module Mcs.

Definition AddonName : string := "mcs-lighthouse".
Definition BrokerNamespace : string := "submariner-k8s-broker".
Definition BrokerSecretName : string := "submariner-k8s-broker-client-token".
Definition defaultRepoURL : string := "https://submariner-io.github.io/submariner-charts/charts".
Definition submarinerOperatorCRDRBACName : string := "kumquat-mcs-submariner-operator-crds".

Definition brokerChartKeys : list string :=
  ["brokerChartURL"; "brokerChartRepoURL"; "brokerChartName"; "brokerChartVersion"; "brokerValuesConfigMap"; "brokerValuesSecret"; "brokerValuesNamespace"].
Definition submarinerChartKeys : list string :=
  ["submarinerChartURL"; "submarinerChartRepoURL"; "submarinerChartName"; "submarinerChartVersion"; "submarinerValuesConfigMap";
   "submarinerValuesSecret"; "submarinerValuesNamespace"; "brokerURL"; "brokerToken"; "brokerCA"; "brokerNamespace"].

Definition resolveChartURL (cfg : chartURLConfig) : res string :=
  if negb (String.eqb (ch_URL cfg) "") then
    if negb (is_url (ch_URL cfg)) then Err "chartURL must be a URL" else Ok (ch_URL cfg)
  else if negb (is_url (ch_RepoURL cfg)) then Err "chart repo URL must be a URL"
  else if String.eqb (ch_ChartName cfg) "" then Err "chart name must be set"
  else Ok (TrimRight (ch_RepoURL cfg) +:+ "/" +:+ ch_ChartName cfg +:+ "-" +:+
           (if String.eqb (ch_ChartVersion cfg) "" then "*" else ch_ChartVersion cfg) +:+ ".tgz").

Section controllers.
Context `{GoRuntime, Kubernetes, ApiErrors, HH : !ClusterHub, !AgentHub HH, AddonErrors, AddonClients}.
Abbreviation step := (action (addon_world addon_rest)).

(** An object that is there already is fine. *)
Definition create (prefix : string) (f : aout -> aout * option string) : step () :=
  e ← call (out f);
  match e with Some e => if IsAlreadyExists e then mret tt else fail (prefix +:+ e) | None => mret tt end.

Definition ensureBroker (config : AddonConfig) : step () :=
  let cfg := get_str (Config config) in
  chartURL ← of_res (resolveChartURL (mkChart (cfg "brokerChartURL")
    (firstNonEmpty [cfg "brokerChartRepoURL"; Getenv "CHART_SUBMARINER_BROKER"; defaultRepoURL])
    (firstNonEmpty [cfg "brokerChartName"; Getenv "CHART_SUBMARINER_BROKER_NAME"; "submariner-k8s-broker"])
    (firstNonEmpty [cfg "brokerChartVersion"; Getenv "CHART_SUBMARINER_BROKER_VERSION"; "0.23.0-m0"])));
  _ ← check (out (helm_NewClient BrokerNamespace));
  extra ← loadValuesFromRef (mkValuesRef (cfg "brokerValuesConfigMap") (cfg "brokerValuesSecret")
    (firstNonEmpty [cfg "brokerValuesNamespace"; BrokerNamespace]));
  _ ← install BrokerNamespace "submariner-k8s-broker" chartURL {["submariner" := obj [("serviceDiscovery", JBool true)]]} extra;
  _ ← create "failed to create ServiceAccount: " (ao_CreateServiceAccount BrokerNamespace "submariner-k8s-broker-client");
  create "failed to create Secret: " (ao_CreateTokenSecret BrokerNamespace BrokerSecretName "submariner-k8s-broker-client").

(** Server, token and CA of the broker. *)
Record broker_info := mkBroker { brokerURL : string; brokerToken : string; brokerCA : string }.
Definition getBrokerInfo (config : gmap string string) : step broker_info :=
  secret ← wrap_error ("failed to get broker secret " +:+ BrokerNamespace +:+ "/" +:+ BrokerSecretName +:+ ": ")
             (returns (out (ao_GetSecret BrokerNamespace BrokerSecretName)));
  mret (mkBroker (let u := get_str config "brokerURL" in if String.eqb u "" then DefaultAPIServerURL else u)
    (get_str secret "token") (EncodeToString (get_str secret "ca.crt"))).

(** [newConfig[key] != value] *)
Definition set_key (key value : string) (s : gmap string string * bool) : gmap string string * bool :=
  if String.eqb (get_str s.1 key) value then s else (<[key := value]> s.1, true).
Definition newConfig (config : gmap string string) (info : broker_info) : gmap string string * bool :=
  set_key "brokerNamespace" BrokerNamespace (set_key "brokerCA" (brokerCA info)
    (set_key "brokerToken" (brokerToken info) (set_key "brokerURL" (brokerURL info) (config, false)))).

Definition manager_id : string := "mcs-lighthouse/manager".
Definition manager_Reconcile (config : AddonConfig) : step () :=
  last ← get_last manager_id;
  _ ← (if should_update brokerChartKeys last (Config config) then
         _ ← wrap_error "failed to ensure broker: " (ensureBroker config);
         last ← get_last manager_id;
         set_last manager_id (Some (record_config brokerChartKeys (Config config) (default ∅ last)))
       else mret tt);
  info ← wrap_error "failed to get broker info: " (getBrokerInfo (Config config));
  let '(cfg, needUpdate) := newConfig (Config config) info in
  if needUpdate then publish_config AddonName (ClusterName config) cfg else mret tt.

(** Its new map and whether something has changed; only the first key that has changed is
    brought up to date. *)
Definition hasSubmarinerConfigChanged (last : option (gmap string string)) (cfg : gmap string string) : option (gmap string string) * bool :=
  match last with
  | None => (Some (record_config submarinerChartKeys cfg ∅), true)
  | Some m =>
      match List.find (key_changed m cfg) submarinerChartKeys with
      | Some key => (Some (<[key := get_str cfg key]> m), true)
      | None => (Some m, false)
      end
  end.

Definition crd_verbs : list string := ["get"; "list"; "watch"; "create"; "update"; "patch"].
(** Read first, created when it is missing. *)
Definition ensure (get create : aout -> aout * option string) : step () :=
  e ← call (out get);
  match e with
  | Some e => if IsNotFound e then
                e ← call (out create);
                match e with Some e => if IsAlreadyExists e then mret tt else fail e | None => mret tt end
              else fail e
  | None => mret tt
  end.
Definition ensureOperatorCRDRBAC (namespace : string) : step () :=
  _ ← ensure (ao_GetClusterRole submarinerOperatorCRDRBACName) (ao_CreateClusterRole submarinerOperatorCRDRBACName crd_verbs);
  ensure (ao_GetClusterRoleBinding submarinerOperatorCRDRBACName)
    (ao_CreateClusterRoleBinding submarinerOperatorCRDRBACName "submariner-operator" namespace).

Definition agent_values (clusterName : string) (cfg : string -> string) : gmap string json := list_to_map [
  ("broker", obj [("server", JStr (cfg "brokerURL")); ("token", JStr (cfg "brokerToken")); ("namespace", JStr (cfg "brokerNamespace"));
                  ("ca", JStr (cfg "brokerCA"))]);
  ("submariner", obj [("clusterId", JStr clusterName); ("natEnabled", JBool false); ("serviceDiscovery", JBool true)]);
  ("serviceAccounts", obj [("globalnet", obj [("create", JBool false)])])].

Definition agent_id : string := "mcs-lighthouse/agent".
Definition agent_Reconcile (config : AddonConfig) : step () :=
  let cfg := get_str (Config config) in
  if String.eqb (cfg "brokerURL") "" || String.eqb (cfg "brokerToken") ""
  then fail (ErrPrerequisitesNotMet +:+ ": brokerURL or brokerToken not configured") else
  _ ← wrap_error "failed to prepare submariner operator RBAC: " (ensureOperatorCRDRBAC (firstNonEmpty [Getenv "NAMESPACE"; "default"]));
  last ← get_last agent_id;
  let '(last, changed) := hasSubmarinerConfigChanged last (Config config) in
  _ ← set_last agent_id (if changed then None else last);
  chartURL ← of_res (resolveChartURL (mkChart (cfg "submarinerChartURL")
    (firstNonEmpty [cfg "submarinerChartRepoURL"; Getenv "CHART_SUBMARINER"; defaultRepoURL])
    (firstNonEmpty [cfg "submarinerChartName"; Getenv "CHART_SUBMARINER_NAME"; "submariner-operator"])
    (firstNonEmpty [cfg "submarinerChartVersion"; Getenv "CHART_SUBMARINER_VERSION"; "0.23.0-m0"])));
  _ ← check (out (helm_NewClient "submariner-operator"));
  extra ← loadValuesFromRef (mkValuesRef (cfg "submarinerValuesConfigMap") (cfg "submarinerValuesSecret")
    (firstNonEmpty [cfg "submarinerValuesNamespace"; "submariner-operator"]));
  wrap_error "failed to install submariner agent: "
    (install "submariner-operator" "submariner" chartURL (agent_values (ClusterName config) cfg) extra).

Definition MCSAddon : Addon addon_rest := mkAddon AddonName (Ok (Some manager_Reconcile)) (Ok (Some agent_Reconcile)).
End controllers.
End Mcs.

(** ** victoriametrics.go *)

Module VictoriaMetrics.

Definition AddonName : string := "victoriametrics".
Definition VictoriaMetricsNamespace : string := "victoriametrics".
Definition VmAgentNamespace : string := "vm-agent".
Definition defaultVMChartRepoURL : string := "https://github.com/VictoriaMetrics/helm-charts/releases/download".
Definition VictoriaMetricsServiceName : string := "victoria-metrics-victoria-metrics-single-server".
Definition ConfigVictoriaMetricsURL : string := "victoriametricsURL".

Definition vmChartKeys : list string :=
  ["vmChartURL"; "vmChartRepoURL"; "vmChartName"; "vmChartVersion"; "vmValuesConfigMap"; "vmValuesSecret"; "vmValuesNamespace"].
Definition vmAgentChartKeys : list string :=
  ["vmAgentChartURL"; "vmAgentChartRepoURL"; "vmAgentChartName"; "vmAgentChartVersion"; "vmAgentValuesConfigMap"; "vmAgentValuesSecret";
   "vmAgentValuesNamespace"].

(** The form of a release at GitHub. *)
Definition release_url (repo name version : string) : string :=
  TrimRight repo +:+ "/" +:+ (name +:+ "-" +:+ version) +:+ "/" +:+ name +:+ "-" +:+ version +:+ ".tgz".
Definition resolveChartURL (cfg : chartURLConfig) : res string :=
  if negb (String.eqb (ch_URL cfg) "") then Ok (ch_URL cfg)
  else if String.eqb (ch_RepoURL cfg) "" then Err "chart repo URL must be set"
  else if String.eqb (ch_ChartName cfg) "" then Err "chart name must be set"
  else Ok (release_url (ch_RepoURL cfg) (ch_ChartName cfg) (if String.eqb (ch_ChartVersion cfg) "" then "*" else ch_ChartVersion cfg)).

(** The values of [persistentVolume]. *)
Definition persistent_volume (storageClass size default_size : string) : json :=
  if String.eqb storageClass "" then obj [("enabled", JBool false)]
  else obj [("enabled", JBool true); ("storageClassName", JStr storageClass); ("size", JStr (firstNonEmpty [size; default_size]))].

Section controllers.
Context `{GoRuntime, Kubernetes, ApiErrors, HH : !ClusterHub, !AgentHub HH, AddonErrors, AddonClients}.
Abbreviation step := (action (addon_world addon_rest)).

Definition ensureVictoriaMetrics (config : AddonConfig) : step () :=
  let cfg := get_str (Config config) in
  _ ← call (out (ao_CreateNamespace VictoriaMetricsNamespace));
  chartURL ← of_res (resolveChartURL (mkChart (cfg "vmChartURL")
    (firstNonEmpty [cfg "vmChartRepoURL"; Getenv "CHART_VICTORIAMETRICS_URL"; defaultVMChartRepoURL])
    (firstNonEmpty [cfg "vmChartName"; "victoria-metrics-single"]) (firstNonEmpty [cfg "vmChartVersion"; "0.35.0"])));
  _ ← check (out (helm_NewClient VictoriaMetricsNamespace));
  extra ← loadValuesFromRef (mkValuesRef (cfg "vmValuesConfigMap") (cfg "vmValuesSecret")
    (firstNonEmpty [cfg "vmValuesNamespace"; VictoriaMetricsNamespace]));
  wrap_error "failed to install VictoriaMetrics: " (install VictoriaMetricsNamespace "victoria-metrics" chartURL
    {["server" := obj [("service", obj [("type", JStr "ClusterIP")]);
                       ("persistentVolume", persistent_volume (cfg "vmStorageClass") (cfg "vmStorageSize") "16Gi")]]} extra).

Definition getVictoriaMetricsURL (config : AddonConfig) : step string :=
  let url := get_str (Config config) ConfigVictoriaMetricsURL in
  if negb (String.eqb url "") then mret url else
  e ← call (out (ao_GetService VictoriaMetricsNamespace VictoriaMetricsServiceName));
  match e with
  | Some e => fail ("VictoriaMetrics service not found: " +:+ e)
  | None => mret ("http://" +:+ VictoriaMetricsServiceName +:+ "." +:+ VictoriaMetricsNamespace +:+ ".svc.cluster.local:8428")
  end.

Definition manager_id : string := "victoriametrics/manager".
Definition manager_Reconcile (config : AddonConfig) : step () :=
  last ← get_last manager_id;
  _ ← (if should_update vmChartKeys last (Config config) then
         _ ← wrap_error "failed to ensure VictoriaMetrics: " (ensureVictoriaMetrics config);
         last ← get_last manager_id;
         set_last manager_id (Some (record_config vmChartKeys (Config config) (default ∅ last)))
       else mret tt);
  vmURL ← wrap_error "failed to get VictoriaMetrics URL: " (getVictoriaMetricsURL config);
  if String.eqb (get_str (Config config) ConfigVictoriaMetricsURL) vmURL then mret tt
  else publish_config AddonName (ClusterName config) (<[ConfigVictoriaMetricsURL := vmURL]> (Config config)).

Definition hasVmAgentConfigChanged (last : option (gmap string string)) (cfg : gmap string string) : option (gmap string string) * bool :=
  match last with
  | None => (Some (<[ConfigVictoriaMetricsURL := get_str cfg ConfigVictoriaMetricsURL]> (record_config vmAgentChartKeys cfg ∅)), true)
  | Some m =>
      match List.find (key_changed m cfg) (vmAgentChartKeys ++ [ConfigVictoriaMetricsURL]) with
      | Some key => (Some (<[key := get_str cfg key]> m), true)
      | None => (Some m, false)
      end
  end.

Definition agent_values (vmURL : string) (cfg : string -> string) : gmap string json := list_to_map [
  ("remoteWrite", JArr [obj [("url", JStr (vmURL +:+ "/api/v1/write"))]]);
  ("service", obj [("type", JStr "ClusterIP")]);
  ("persistentVolume", persistent_volume (cfg "vmAgentStorageClass") (cfg "vmAgentStorageSize") "10Gi")].

Definition agent_id : string := "victoriametrics/agent".
Definition agent_Reconcile (config : AddonConfig) : step () :=
  let cfg := get_str (Config config) in
  let vmURL := cfg ConfigVictoriaMetricsURL in
  if String.eqb vmURL "" then fail (ErrPrerequisitesNotMet +:+ ": victoriametricsURL not configured") else
  last ← get_last agent_id;
  let '(last, changed) := hasVmAgentConfigChanged last (Config config) in
  _ ← set_last agent_id (if changed then None else last);
  chartURL ← of_res (resolveChartURL (mkChart (cfg "vmAgentChartURL")
    (firstNonEmpty [cfg "vmAgentChartRepoURL"; Getenv "CHART_VMAGENT_URL"; defaultVMChartRepoURL])
    (firstNonEmpty [cfg "vmAgentChartName"; "victoria-metrics-agent"]) (firstNonEmpty [cfg "vmAgentChartVersion"; "0.36.0"])));
  _ ← check (out (helm_NewClient VmAgentNamespace));
  extra ← loadValuesFromRef (mkValuesRef (cfg "vmAgentValuesConfigMap") (cfg "vmAgentValuesSecret")
    (firstNonEmpty [cfg "vmAgentValuesNamespace"; VmAgentNamespace]));
  wrap_error "failed to install vmagent: " (install VmAgentNamespace "vm-agent" chartURL (agent_values vmURL cfg) extra).

Definition VictoriaMetricsAddon : Addon addon_rest := mkAddon AddonName (Ok (Some manager_Reconcile)) (Ok (Some agent_Reconcile)).
End controllers.
End VictoriaMetrics.

(** ** kruiserollout/agent.go: the two controllers have the same text. *)

Module KruiseRollout.

Definition AddonName : string := "kruise-rollout".
Definition DefaultNamespace : string := "kruise-rollout".
Definition DefaultReleaseName : string := "kruise-rollout".
Definition DefaultVersion : string := "0.6.2".
Definition DefaultRepoURL : string := "https://github.com/openkruise/charts/releases/download".

Definition chartKeys : list string :=
  ["chartURL"; "chartRepoURL"; "chartName"; "chartVersion"; "valuesConfigMap"; "valuesSecret"; "valuesNamespace"].

Definition resolveChartURL (cfg : chartURLConfig) : res string :=
  if negb (String.eqb (ch_URL cfg) "") then
    if negb (is_url (ch_URL cfg)) then Err "chartURL must be a valid HTTP/HTTPS URL" else Ok (ch_URL cfg)
  else if negb (is_url (ch_RepoURL cfg)) then Err "chart repo URL must be a valid HTTP/HTTPS URL"
  else if String.eqb (ch_ChartName cfg) "" then Err "chart name must be set"
  else Ok (VictoriaMetrics.release_url (ch_RepoURL cfg) (ch_ChartName cfg)
             (if String.eqb (ch_ChartVersion cfg) "" then DefaultVersion else ch_ChartVersion cfg)).

Section controllers.
Context `{GoRuntime, Kubernetes, ApiErrors, HH : !ClusterHub, !AgentHub HH, AddonErrors, AddonClients}.
Abbreviation step := (action (addon_world addon_rest)).

(** Whether the config has changed, and the new map. *)
Definition hasConfigChanged (last : option (gmap string string)) (cfg : gmap string string) : option (gmap string string) * bool :=
  match last with
  | None => (Some (record_config chartKeys cfg ∅), true)
  | Some m => (Some m, existsb (key_changed m cfg) chartKeys)
  end.

(** helm/client.go: the labels and annotations that make helm accept a namespace. *)
Definition EnsureNamespaceWithHelmLabels (namespace : string) : step () :=
  x ← attempt (returns (out (ao_GetNamespace namespace)));
  match x with
  | Err e => if IsNotFound e then mret tt else fail ("failed to get namespace " +:+ namespace +:+ ": " +:+ e)
  | Ok (labels, annotations) =>
      let l := default ∅ labels in let a := default ∅ annotations in
      let managed := String.eqb (get_str l "app.kubernetes.io/managed-by") "Helm" in
      let named := negb (String.eqb (get_str a "meta.helm.sh/release-name") "") in
      let placed := negb (String.eqb (get_str a "meta.helm.sh/release-namespace") "") in
      if bool_decide (is_Some labels) && managed && bool_decide (is_Some annotations) && named && placed then mret tt else
      let l := <["app.kubernetes.io/managed-by" := "Helm"]> l in
      let a := if named then a else <["meta.helm.sh/release-name" := "kumquat-addon"]> a in
      let a := if placed then a else <["meta.helm.sh/release-namespace" := namespace]> a in
      wrap_error ("failed to update namespace " +:+ namespace +:+ " with Helm labels: ") (check (out (ao_UpdateNamespace namespace l a)))
  end.

Definition default_values : gmap string json :=
  {["installation" := obj [("namespace", JStr DefaultNamespace); ("createNamespace", JBool false)]]}.

Definition Reconcile (id : string) (config : AddonConfig) : step () :=
  let cfg := get_str (Config config) in
  last ← get_last id;
  let '(last, changed) := hasConfigChanged last (Config config) in
  _ ← set_last id (if changed then None else last);
  chartURL ← wrap_error "failed to resolve chart URL: " (of_res (resolveChartURL (mkChart (cfg "chartURL")
    (firstNonEmpty [cfg "chartRepoURL"; Getenv "CHART_KRUISE_ROLLOUT_REPO"; DefaultRepoURL])
    (firstNonEmpty [cfg "chartName"; Getenv "CHART_KRUISE_ROLLOUT_NAME"; "kruise-rollout"])
    (firstNonEmpty [cfg "chartVersion"; Getenv "CHART_KRUISE_ROLLOUT_VERSION"; DefaultVersion]))));
  _ ← wrap_error "failed to create Helm client: " (check (out (helm_NewClient DefaultNamespace)));
  extra ← wrap_error "failed to load custom values: " (loadValuesFromRef (mkValuesRef (cfg "valuesConfigMap") (cfg "valuesSecret")
    (firstNonEmpty [cfg "valuesNamespace"; DefaultNamespace])));
  _ ← wrap_error ("failed to ensure namespace " +:+ DefaultNamespace +:+ ": ") (EnsureNamespaceWithHelmLabels DefaultNamespace);
  _ ← wrap_error "failed to install/upgrade kruise-rollout: " (install DefaultNamespace DefaultReleaseName chartURL default_values extra);
  last ← get_last id;
  set_last id (Some (record_config chartKeys (Config config) (default ∅ last))).

Definition manager_id : string := "kruise-rollout/manager".
Definition agent_id : string := "kruise-rollout/agent".
Definition manager_Reconcile : AddonConfig -> step () := Reconcile manager_id.
Definition agent_Reconcile : AddonConfig -> step () := Reconcile agent_id.
Definition KruiseRolloutAddon : Addon addon_rest := mkAddon AddonName (Ok (Some manager_Reconcile)) (Ok (Some agent_Reconcile)).
End controllers.
End KruiseRollout.

(** ** The registry: the [init] functions of the three packages *)

Section registry.
Context `{GoRuntime, Kubernetes, ApiErrors, HH : !ClusterHub, !AgentHub HH, AddonErrors, AddonClients}.

Definition init : outcome (registry addon_rest) :=
  r ← Register KruiseRollout.KruiseRolloutAddon ∅;
  r ← Register Mcs.MCSAddon r;
  Register VictoriaMetrics.VictoriaMetricsAddon r.
End registry.
