(* ===== verification/HelmAddonsSpec.v ===== *)
(** * What the addons install and publish

    The values of a release are those of the addon with the custom values over them; what
    the manager reads of the broker reaches the charts of the agents, and once it is
    published it is not published again; the manager installs a chart again only when its
    config has changed. *)

From S2P Require Import Prelude GoRuntime Json Api Clients Manifest ClientManager ClusterController Agent GoStrings Wp Addons HelmAddons.

(** ** Merged values *)

(** The value of a key after the merge. *)
Definition merged (d s : option json) : option json :=
  match s, d with
  | Some (JObj m), Some (JObj d) => Some (JObj (mergeValues d m))
  | Some v, _ => Some v
  | None, _ => d
  end.

(** A visit of one entry. *)
Definition merge_step (dst : gmap string json) (kv : string * json) : gmap string json :=
  <[kv.1 := default kv.2 (merged (dst !! kv.1) (Some kv.2))]> dst.

Lemma merge_step_eq k v acc : (match v, acc !! k with
    | JObj _, Some (JObj d) => <[k := JObj (merge_json v d)]> acc
    | _, _ => <[k := v]> acc
    end) = merge_step acc (k, v).
Proof. unfold merge_step, merged. cbn. destruct v; try done. by destruct (acc !! k) as [[]|]. Qed.

Lemma merge_steps_lookup l dst k : NoDup l.*1 ->
  foldl merge_step dst l !! k = merged (dst !! k) ((list_to_map l : gmap string json) !! k).
Proof.
  revert dst; induction l as [|[k' v] l IH]; intros dst; cbn; [by intros|]. intros [Hk Hnd]%NoDup_cons. rewrite IH by done.
  unfold merge_step. cbn. rewrite !lookup_insert. destruct (decide (k' = k)) as [->|Hne]; [|done].
  assert ((list_to_map l : gmap string json) !! k = None) as -> by by apply not_elem_of_list_to_map. cbn.
  destruct v; try done. by destruct (dst !! k) as [[]|].
Qed.

Lemma mergeValues_lookup dst src k : mergeValues dst src !! k = merged (dst !! k) (src !! k).
Proof.
  unfold mergeValues. cbn [merge_json]. revert k.
  apply (map_fold_weak_ind (fun (acc m : gmap string json) => forall k, acc !! k = merged (dst !! k) (m !! k))); [done|].
  intros i v m acc Hi IH k. rewrite merge_step_eq. unfold merge_step. cbn. rewrite (IH i), Hi. rewrite !lookup_insert.
  destruct (decide (i = k)) as [->|Hne]; [|done]. cbn. destruct v; try done. by destruct (dst !! k) as [[]|].
Qed.

(** The order of the [range] makes no difference. *)
Lemma merge_any_order dst src l : l ≡ₚ map_to_list src -> foldl merge_step dst l = mergeValues dst src.
Proof.
  intros Hl. assert (NoDup l.*1) as Hnd by (rewrite Hl; apply NoDup_fst_map_to_list). apply map_eq. intros k.
  rewrite merge_steps_lookup, mergeValues_lookup by done. do 2 f_equal.
  rewrite <- (list_to_map_to_list src). by apply list_to_map_proper.
Qed.

Definition is_map (v : json) : bool := match v with JObj _ => true | _ => false end.
(** Nothing but maps on the way to the path. *)
Definition untouched (src : gmap string json) (path : list string) : Prop :=
  at_path (JObj src) path = None /\ forall q r v, path = q ++ r -> at_path (JObj src) q = Some v -> is_map v = true.

(** The values a chart is installed with are the custom values where these have a
    value, and those of the addon wherever the custom values have none: at every path,
    and in whatever order the maps are visited. *)
Theorem custom_values_win values custom path l : l ≡ₚ map_to_list custom ->
  (forall v, at_path (JObj custom) path = Some v -> is_map v = false -> at_path (JObj (foldl merge_step values l)) path = Some v) /\
  (untouched custom path -> at_path (JObj (foldl merge_step values l)) path = at_path (JObj values) path).
Proof.
  intros Hl. rewrite (merge_any_order _ _ _ Hl). clear l Hl. revert values custom. induction path as [|k path IH]; intros values custom.
  { split; [by intros v [= <-]|by intros [? _]]. }
  cbn. rewrite mergeValues_lookup. destruct (custom !! k) as [s|] eqn:Es; cbn.
  - split.
    + intros v Hv Hm. destruct s; try exact Hv. destruct (values !! k) as [[]|]; try exact Hv. by apply IH.
    + intros [Hn Hq]. cbn in Hn. rewrite Es in Hn. cbn in Hn.
      assert (is_map s = true) as Hs by (apply (Hq [k] path); [done|cbn; by rewrite Es]). destruct s; try done.
      assert (untouched m path) as Hu by (split; [done|]; intros q r v -> Hv; by apply (Hq (k :: q) r); [|cbn; rewrite Es]).
      destruct (values !! k) as [d|] eqn:Ed; [|exact Hn]. destruct d; try (cbn in *; rewrite Hn; by destruct path).
      cbn. by apply IH.
  - split; [done|]. intros _. by destruct (values !! k).
Qed.

Section spec.
Context `{GoRuntimeLaws, Kubernetes, ApiErrors, HH : !ClusterHub, !AgentHub HH, AddonErrors, AddonClients}.
Abbreviation step := (action (addon_world addon_rest)).
Implicit Types (w : addon_world addon_rest) (config : AddonConfig).

(** ** What a call may change *)

Lemma wp_get_last id (Q : addon_world addon_rest -> res (option (gmap string string)) -> Prop) w :
  wp (get_last id) Q w <-> Q w (Ok (last_configs (aw_rest w) !! id)).
Proof. done. Qed.

(** A relation that every call to the hub and to the outside keeps. *)
Class Frame (R : relation (addon_world addon_rest)) : Prop := {
  frame_preorder :: PreOrder R;
  frame_out {A} (f : aout -> aout * A) w : R w (out f w).1;
  frame_hub {A} (f : chub -> chub * A) w : R w (on_hub f w).1;
}.
Definition anything : relation (addon_world addon_rest) := fun _ _ => True.
Definition same_last : relation (addon_world addon_rest) := fun w w' => last_configs (aw_rest w') = last_configs (aw_rest w).
#[export] Instance frame_anything : Frame anything.
Proof. by repeat split. Qed.
#[export] Instance frame_same_last : Frame same_last.
Proof.
  split; [split; [done|by intros w1 w2 w3 ? ?; unfold same_last in *; congruence]|..]; intros A f w; unfold same_last, out, on_hub; by destruct (f _).
Qed.

Section frame.
Context (R : relation (addon_world addon_rest)) `{!Frame R}.
Lemma within_get_last id : within R (get_last id).
Proof. intros w. unfold wp, get_last. reflexivity. Qed.
Lemma within_call_out {A} (f : aout -> aout * A) : within R (call (out f)).
Proof. apply within_call, frame_out. Qed.
Lemma within_returns_out {A} (f : aout -> aout * res A) : within R (returns (out f)).
Proof. apply within_returns, frame_out. Qed.
Lemma within_check_out f : within R (check (out f)).
Proof. apply within_check, frame_out. Qed.
Lemma within_returns_hub {A} (f : chub -> chub * res A) : within R (returns (on_hub f)).
Proof. apply within_returns, frame_hub. Qed.
Lemma within_check_hub f : within R (check (on_hub f)).
Proof. apply within_check, frame_hub. Qed.
End frame.
Lemma within_set_last id c : within anything (set_last id c).
Proof. done. Qed.
#[local] Hint Resolve within_get_last within_set_last within_call_out within_returns_out within_check_out within_returns_hub within_check_hub : within.

Section controllers.
Context (R : relation (addon_world addon_rest)) `{!Frame R}.

Lemma loadValuesFromRef_within ref : within R (loadValuesFromRef ref).
Proof. unfold loadValuesFromRef. cbv zeta. solve_within. Qed.
Lemma publish_config_within name cluster cfg : within R (publish_config name cluster cfg).
Proof. unfold publish_config. solve_within. Qed.
Lemma install_within namespace release chart values extra : within R (install namespace release chart values extra).
Proof. unfold install, InstallOrUpgrade, or_reinstall, uninstallPendingRelease. solve_within. Qed.
#[local] Hint Resolve loadValuesFromRef_within publish_config_within install_within : within.
Lemma ensureBroker_within config : within R (Mcs.ensureBroker config).
Proof. unfold Mcs.ensureBroker, Mcs.create. cbv zeta. solve_within. Qed.
Lemma getBrokerInfo_within cfg : within R (Mcs.getBrokerInfo cfg).
Proof. unfold Mcs.getBrokerInfo. solve_within. Qed.
Lemma ensureVictoriaMetrics_within config : within R (VictoriaMetrics.ensureVictoriaMetrics config).
Proof. unfold VictoriaMetrics.ensureVictoriaMetrics. cbv zeta. solve_within. Qed.
Lemma getVictoriaMetricsURL_within config : within R (VictoriaMetrics.getVictoriaMetricsURL config).
Proof. unfold VictoriaMetrics.getVictoriaMetricsURL. cbv zeta. solve_within. Qed.
End controllers.
#[local] Hint Resolve loadValuesFromRef_within publish_config_within install_within ensureBroker_within getBrokerInfo_within ensureVictoriaMetrics_within
  getVictoriaMetricsURL_within : within.

Lemma mcs_manager_ends config : within anything (Mcs.manager_Reconcile config).
Proof. unfold Mcs.manager_Reconcile. solve_within. Qed.
Lemma mcs_agent_ends config : within anything (Mcs.agent_Reconcile config).
Proof. unfold Mcs.agent_Reconcile, Mcs.ensureOperatorCRDRBAC, Mcs.ensure. cbv zeta. solve_within. Qed.
Lemma vm_manager_ends config : within anything (VictoriaMetrics.manager_Reconcile config).
Proof. unfold VictoriaMetrics.manager_Reconcile. solve_within. Qed.
Lemma vm_agent_ends config : within anything (VictoriaMetrics.agent_Reconcile config).
Proof. unfold VictoriaMetrics.agent_Reconcile. cbv zeta. solve_within. Qed.
Lemma kruise_ends id config : within anything (KruiseRollout.Reconcile id config).
Proof. unfold KruiseRollout.Reconcile, KruiseRollout.EnsureNamespaceWithHelmLabels. cbv zeta. solve_within. Qed.
Lemma kruise_manager_ends config : within anything (KruiseRollout.manager_Reconcile config).
Proof. apply kruise_ends. Qed.
Lemma kruise_agent_ends config : within anything (KruiseRollout.agent_Reconcile config).
Proof. apply kruise_ends. Qed.

(** ** The addons that are registered *)

Lemma setup_loop_spec (side : Addon addon_rest -> res (option (AddonController addon_rest))) addons cs :
  (forall a, a ∈ addons -> exists c, side a = Ok (Some c)) -> NoDup (Name <$> addons) ->
  exists cs', setup_loop side addons cs = Ok cs' /\
    forall n, cs' !! n = match List.find (fun a => String.eqb (Name a) n) addons with
                         | Some a => match side a with Ok c => c | Err _ => None end
                         | None => cs !! n
                         end.
Proof.
  revert cs; induction addons as [|a addons IH]; intros cs Hs; cbn [setup_loop]; [intros _; by exists cs|].
  rewrite fmap_cons. intros [Ha Hnd]%NoDup_cons. destruct (Hs a) as [c Ec]; [by left|]. rewrite Ec.
  destruct (IH (<[Name a := c]> cs)) as (cs' & -> & Hl); [by intros b Hb; apply Hs; right|done|]. exists cs'. split; [done|].
  intros n. rewrite Hl. cbn. destruct (String.eqb (Name a) n) eqn:E.
  - apply String.eqb_eq in E as <-. destruct (List.find _ addons) as [b|] eqn:Ef.
    + apply find_some in Ef as [Hb E%String.eqb_eq]. exfalso. apply Ha. rewrite <- E. by apply list_elem_of_fmap_2, list_elem_of_In.
    + by rewrite Ec, lookup_insert_eq.
  - destruct (List.find _ addons); [done|]. apply String.eqb_neq in E. by rewrite lookup_insert_ne.
Qed.

Definition addons : gmap string (Addon addon_rest) :=
  <[VictoriaMetrics.AddonName := VictoriaMetrics.VictoriaMetricsAddon]> (<[Mcs.AddonName := Mcs.MCSAddon]>
    {[KruiseRollout.AddonName := KruiseRollout.KruiseRolloutAddon]}).

Lemma init_addons : init = Ret addons.
Proof. reflexivity. Qed.

Lemma addons_cases name a : addons !! name = Some a ->
  a = VictoriaMetrics.VictoriaMetricsAddon /\ name = VictoriaMetrics.AddonName \/
  a = Mcs.MCSAddon /\ name = Mcs.AddonName \/ a = KruiseRollout.KruiseRolloutAddon /\ name = KruiseRollout.AddonName.
Proof.
  unfold addons. intros [[<- <-]|[_ [[<- <-]|[_ [<- <-]%lookup_singleton_Some]]%lookup_insert_Some]]%lookup_insert_Some; auto.
Qed.
Lemma addons_registered : registered addons.
Proof. intros name a [[-> ->]|[[-> ->]|[-> ->]]]%addons_cases; done. Qed.

(** A side of the addons: their controllers, none of which panics. *)
Lemma addons_setup side : (side = ManagerController \/ side = AgentController) ->
  exists cs, SetupWithManager side addons = Ok cs /\ (forall name, controllers_end (mkAddonReconciler cs addons name)) /\
    forall a, a ∈ List_ addons -> is_Some (cs !! Name a).
Proof.
  intros Hside. assert (forall a, a ∈ List_ addons -> exists c, side a = Ok (Some c) /\ forall config, within anything (c config)) as Hall.
  { intros a (name & [[-> _]|[[-> _]|[-> _]]]%addons_cases)%List_elem; destruct Hside as [->| ->]; eexists; (split; [reflexivity|]); intros config;
      auto using mcs_manager_ends, mcs_agent_ends, vm_manager_ends, vm_agent_ends, kruise_manager_ends, kruise_agent_ends. }
  destruct (setup_loop_spec side (List_ addons) ∅) as (cs & Hcs & Hl).
  { intros a Ha. destruct (Hall a Ha) as (c & Hc & _). by exists c. }
  { apply List_names, addons_registered. }
  exists cs. split; [done|]. split.
  - intros name n c config w Hn. cbn in Hn. rewrite Hl in Hn. destruct (List.find _ _) as [a|] eqn:Ef; [|by rewrite lookup_empty in Hn].
    apply find_some in Ef as [Ha _]. destruct (Hall a) as (c' & Hc & He); [by apply list_elem_of_In|]. rewrite Hc in Hn. injection Hn as <-. apply He.
  - intros a Ha. rewrite Hl. destruct (List.find _ _) as [b|] eqn:Ef.
    + apply find_some in Ef as [Hb _]. destruct (Hall b) as (c & -> & _); [by apply list_elem_of_In|]. by eexists.
    + apply list_elem_of_In in Ha. pose proof (find_none _ _ Ef a Ha) as Hn. cbn in Hn. by rewrite String.eqb_refl in Hn.
Qed.

(** C16: With the addons of the program a round over a cluster ends, on the hub as on the
    cluster, whatever fails.  Without an error it has written a list of states that gives
    every addon the state its turn decided: disabled, failed with the error of its
    controller, pending where the agent misses a prerequisite, applied where the
    controller of the hub's mode or of the agent succeeds.  The failure of one addon keeps
    no other from its turn, and the entries of unknown addons stay. *)
Theorem addon_rounds_report name w : exists cm ca,
  init = Ret addons /\ SetupWithManager ManagerController addons = Ok cm /\ SetupWithManager AgentController addons = Ok ca /\
  let missing := exists e, (ch_Get name (aw_hub w)).2 = Err e /\ IsNotFound e = true in
  let manager := mkAddonReconciler cm addons "" in let agent := mkAddonReconciler ca addons name in
  (forall a, a ∈ List_ addons -> is_Some (cm !! Name a) /\ is_Some (ca !! Name a)) /\
  wp (Reconcile manager name) (fun w' x => x = Ok tt -> missing \/ reported manager name manager_ran w w') w /\
  wp (agent_Reconcile agent name) (fun w' x => x = Ok tt -> missing \/ reported agent name (fun _ => agent_ran) w w') w.
Proof.
  destruct (addons_setup ManagerController) as (cm & Em & Hm & Im); [by left|]. destruct (addons_setup AgentController) as (ca & Ea & Ha & Ia); [by right|].
  exists cm, ca. split; [exact init_addons|]. do 2 (split; [done|]). cbv zeta.
  assert (List_ addons ≠ []) as Hne.
  { intros En. assert (Mcs.MCSAddon ∈ List_ addons) as Hin by (apply List_elem; by exists Mcs.AddonName). rewrite En in Hin. by apply elem_of_nil in Hin. }
  split; [by auto|]. split.
  - eapply wp_mono; [apply (manager_reports (mkAddonReconciler cm addons "") name w addons_registered (Hm ""))|].
    intros w' x Hx E. destruct (Hx E) as [?|[?|?]]; [by left|done|by right].
  - eapply wp_mono; [apply (agent_reports (mkAddonReconciler ca addons name) w addons_registered (Ha name))|].
    intros w' x Hx E. destruct (Hx E) as [?|[?|?]]; [by left|done|by right].
Qed.

(** ** The broker *)

Section broker.
Import Mcs.

(** The config of a cluster that has what the broker's Secret holds. *)
Record carries (cfg secret : gmap string string) (url : string) : Prop := {
  carries_url : get_str cfg "brokerURL" = url;
  carries_token : get_str cfg "brokerToken" = get_str secret "token";
  carries_ca : get_str cfg "brokerCA" = EncodeToString (get_str secret "ca.crt");
  carries_namespace : get_str cfg "brokerNamespace" = BrokerNamespace;
}.
Definition broker_of (config secret : gmap string string) : broker_info :=
  mkBroker (let u := get_str config "brokerURL" in if String.eqb u "" then DefaultAPIServerURL else u)
    (get_str secret "token") (EncodeToString (get_str secret "ca.crt")).
Definition broker_keys : list string := ["brokerURL"; "brokerToken"; "brokerCA"; "brokerNamespace"].

Lemma get_str_set_key key value s k : get_str (set_key key value s).1 k = if String.eqb k key then value else get_str s.1 k.
Proof.
  unfold set_key. destruct (String.eqb (get_str s.1 key) value) eqn:E; cbn [fst].
  - apply String.eqb_eq in E. destruct (String.eqb k key) eqn:Ek; [|done]. by apply String.eqb_eq in Ek as ->.
  - unfold get_str. rewrite lookup_insert. destruct (decide (key = k)) as [->|Hne]; [by rewrite String.eqb_refl|].
    assert (String.eqb k key = false) as -> by (apply String.eqb_neq; congruence). done.
Qed.
Lemma set_key_other key value s k : k ≠ key -> (set_key key value s).1 !! k = s.1 !! k.
Proof. intros Hk. unfold set_key. destruct (String.eqb _ _); [done|]. by apply lookup_insert_ne. Qed.
Lemma set_key_same key value s : get_str s.1 key = value -> set_key key value s = s.
Proof. intros <-. unfold set_key. by rewrite String.eqb_refl. Qed.
Lemma set_key_flag key value s : (set_key key value s).2 = false -> set_key key value s = s.
Proof. unfold set_key. by destruct (String.eqb _ _). Qed.

Lemma newConfig_carries cfg secret : carries (newConfig cfg (broker_of cfg secret)).1 secret (brokerURL (broker_of cfg secret)).
Proof. split; unfold newConfig; rewrite !get_str_set_key; done. Qed.
Lemma newConfig_others cfg info k : k ∉ broker_keys -> (newConfig cfg info).1 !! k = cfg !! k.
Proof.
  unfold broker_keys. rewrite !not_elem_of_cons. intros (? & ? & ? & ? & _). unfold newConfig. by rewrite !set_key_other.
Qed.
Lemma newConfig_unchanged cfg info : (newConfig cfg info).2 = false -> (newConfig cfg info).1 = cfg.
Proof.
  unfold newConfig. intros E. rewrite set_key_flag in * by done. rewrite set_key_flag in * by done. rewrite set_key_flag in * by done.
  by rewrite set_key_flag.
Qed.
Lemma newConfig_settles cfg secret url : carries cfg secret url -> url ≠ "" -> newConfig cfg (broker_of cfg secret) = (cfg, false).
Proof.
  intros [Hu Ht Hc Hn] Hne. unfold newConfig, broker_of. rewrite Hu, (proj2 (String.eqb_neq _ _) Hne). cbn [brokerURL brokerToken brokerCA].
  rewrite (set_key_same "brokerURL") by done. rewrite (set_key_same "brokerToken") by done. rewrite (set_key_same "brokerCA") by done.
  by apply set_key_same.
Qed.
Lemma broker_url_nonempty cfg secret : brokerURL (broker_of cfg secret) ≠ "".
Proof. cbn. destruct (String.eqb _ "") eqn:E; [done|by apply String.eqb_neq]. Qed.

(** The values the agent installs. *)
Definition broker_values (url : string) (secret : gmap string string) : json :=
  obj [("server", JStr url); ("token", JStr (get_str secret "token")); ("namespace", JStr BrokerNamespace);
       ("ca", JStr (EncodeToString (get_str secret "ca.crt")))].

Lemma agent_values_carry cfg secret url cluster : carries cfg secret url ->
  at_path (JObj (agent_values cluster (get_str cfg))) ["broker"] = Some (broker_values url secret).
Proof. intros [Hu Ht Hc Hn]. unfold agent_values, broker_values. by rewrite Hu, Ht, Hc, Hn. Qed.

Lemma set_config_found name cfg l ca : find_addon name l = Some ca ->
  find_addon name (set_config name cfg l) = Some (mkClusterAddon (ca_Name ca) (ca_Enabled ca) cfg).
Proof.
  induction l as [|a l IH]; cbn; [done|]. destruct (String.eqb (ca_Name a) name) eqn:E; [intros [= <-]; cbn; by rewrite E|].
  intros Hf. cbn. rewrite E. by apply IH.
Qed.

(** The config in force after a round: what the round was given, or what it has stored
    in the cluster. *)
Definition in_force w' config (cfg : gmap string string) : Prop :=
  cfg = Config config \/ exists c h, ch_Update (with_addons c (set_config AddonName cfg (mc_Addons (mc_Access c)))) h = (aw_hub w', None).

Lemma publish_config_spec cluster cfg config w : wp (publish_config AddonName cluster cfg) (fun w' x => x = Ok tt -> in_force w' config cfg) w.
Proof.
  unfold publish_config. apply wp_bind, wp_returns. unfold on_hub at 1 2. destruct (ch_Get cluster (aw_hub w)) as [h1 [c|e]]; cbn [fst snd]; [|done].
  apply wp_check. unfold on_hub. cbn [aw_hub]. destruct (ch_Update _ _) as [h2 [e|]] eqn:E; cbn [fst snd]; [done|]. intros _. right. exists c; eexists; exact E.
Qed.

Lemma getBrokerInfo_spec cfg w : wp (getBrokerInfo cfg) (fun _ x =>
  match x with Ok info => exists o secret, (ao_GetSecret BrokerNamespace BrokerSecretName o).2 = Ok secret /\ info = broker_of cfg secret | Err _ => True end) w.
Proof.
  unfold getBrokerInfo. apply wp_bind. unfold wp at 1, wrap_error, returns, out.
  destruct (ao_GetSecret _ _ _) as [o1 [secret|e]] eqn:Es; [|done]. apply wp_ret. exists (outside (aw_rest w)), secret. by rewrite Es.
Qed.
(** C17: What the manager has read of the broker's Secret reaches the charts of the
    agents: after a round without an error the config in force gives the agent the
    server, the token, the encoded certificate and the namespace of the broker as values,
    keeps every other entry, and is left as it is by the next round that reads the same
    Secret. *)
Theorem broker_reaches_agents config w : wp (Mcs.manager_Reconcile config) (fun w' x => x = Ok tt ->
  exists o secret cfg url, (ao_GetSecret BrokerNamespace BrokerSecretName o).2 = Ok secret /\ in_force w' config cfg /\
    (forall cluster, at_path (JObj (agent_values cluster (get_str cfg))) ["broker"] = Some (broker_values url secret)) /\
    (forall k, k ∉ broker_keys -> cfg !! k = Config config !! k) /\ newConfig cfg (broker_of cfg secret) = (cfg, false)) w.
Proof.
  unfold Mcs.manager_Reconcile. apply wp_bind, wp_get_last, wp_bind.
  eapply wp_mono; [refine (_ : wp _ (fun _ _ => True) w)|].
  { destruct (should_update _ _ _); [|done]. refine ((_ : within anything _) w). solve_within. }
  intros w1 [u|e] _; [|done]. apply wp_bind, wp_wrap_error. eapply wp_mono; [apply getBrokerInfo_spec|]. intros w2 [info|e] Hi; [|done].
  destruct Hi as (o & secret & Es & ->).
  destruct (newConfig (Config config) (broker_of (Config config) secret)) as [cfg need] eqn:En.
  assert (cfg = (newConfig (Config config) (broker_of (Config config) secret)).1) as Ecfg by by rewrite En.
  pose proof (newConfig_carries (Config config) secret) as Hc. rewrite <- Ecfg in Hc.
  assert (forall w', in_force w' config cfg -> exists o secret cfg url, (ao_GetSecret BrokerNamespace BrokerSecretName o).2 = Ok secret /\ in_force w' config cfg /\
    (forall cluster, at_path (JObj (agent_values cluster (get_str cfg))) ["broker"] = Some (broker_values url secret)) /\
    (forall k, k ∉ broker_keys -> cfg !! k = Config config !! k) /\ newConfig cfg (broker_of cfg secret) = (cfg, false)) as Hall.
  { intros w' Hf. exists o, secret, cfg. eexists. split; [exact Es|]. split; [exact Hf|].
    split; [intros cluster; by apply agent_values_carry|]. split.
    - intros k Hk. rewrite Ecfg. by apply newConfig_others.
    - eapply newConfig_settles; [exact Hc|apply broker_url_nonempty]. }
  destruct need.
  - eapply wp_mono; [apply (publish_config_spec _ _ config)|]. intros w' x Hx E. apply Hall. by apply Hx.
  - apply wp_ret. intros _. apply Hall. left. rewrite Ecfg. apply newConfig_unchanged. by rewrite En.
Qed.
End broker.

(** ** When a chart is installed *)

Lemma record_config_lookup keys (cfg last : gmap string string) key : key ∈ keys -> get_str (record_config keys cfg last) key = get_str cfg key.
Proof.
  unfold record_config. revert last. induction keys as [|k keys IH] using rev_ind; [by intros ? ?%elem_of_nil|].
  intros last Hk. rewrite foldl_app. cbn. unfold get_str at 1. rewrite lookup_insert. destruct (decide (k = key)) as [->|Hne]; [done|].
  apply IH. by apply elem_of_app in Hk as [?|?%list_elem_of_singleton].
Qed.
Lemma existsb_ext' {A} (p q : A -> bool) l : (forall x, x ∈ l -> p x = q x) -> existsb p l = existsb q l.
Proof.
  induction l as [|x l IH]; intros Hpq; [done|]. cbn. rewrite Hpq by by left. f_equal. apply IH. intros y Hy. apply Hpq. by right.
Qed.

Lemma should_update_recorded keys last cfg cfg' :
  should_update keys (Some (record_config keys cfg last)) cfg' = existsb (key_changed cfg cfg') keys.
Proof. apply existsb_ext'. intros key Hk. unfold key_changed. by rewrite record_config_lookup. Qed.
Lemma should_update_unchanged keys last cfg cfg' : should_update keys last cfg = false ->
  should_update keys last cfg' = existsb (key_changed cfg cfg') keys.
Proof.
  destruct last as [m|]; [|done]. cbn. intros Hf. apply existsb_ext'. intros key Hk. unfold key_changed.
  assert (key_changed m cfg key = false) as E.
  { apply not_true_is_false. intros Ht. apply not_true_iff_false in Hf. apply Hf, existsb_exists. exists key. split; [by apply list_elem_of_In|done]. }
  unfold key_changed in E. apply negb_false_iff, String.eqb_eq in E. by rewrite E.
Qed.

Lemma round_records id keys prefix install (rest : step ()) config w : within same_last install -> within same_last rest ->
  wp (last ← (get_last id : step _);
      _ ← (if should_update keys last (Config config) then
             _ ← (wrap_error prefix install : step ());
             last ← (get_last id : step _);
             set_last id (Some (record_config keys (Config config) (default ∅ last)))
           else mret tt : step ()); rest : step ())
    (fun w' x => x = Ok tt -> forall cfg, should_update keys (last_configs (aw_rest w') !! id) cfg = existsb (key_changed (Config config) cfg) keys) w.
Proof.
  intros Hi Hr. apply wp_bind, wp_get_last, wp_bind.
  assert (forall w1, (forall cfg, should_update keys (last_configs (aw_rest w1) !! id) cfg = existsb (key_changed (Config config) cfg) keys) ->
    wp rest (fun w' x => x = Ok tt -> forall cfg, should_update keys (last_configs (aw_rest w') !! id) cfg = existsb (key_changed (Config config) cfg) keys) w1) as Hrest.
  { intros w1 Hw. eapply wp_mono; [apply Hr|]. intros w2 x Hs _ cfg. rewrite Hs. apply Hw. }
  destruct (should_update _ _ _) eqn:Eu.
  - apply wp_bind, wp_wrap_error. eapply wp_mono; [apply Hi|]. intros w1 [u|e] _; [|done]. apply wp_bind, wp_get_last.
    apply Hrest. intros cfg. cbn [aw_rest last_configs]. rewrite lookup_partial_alter_eq. apply should_update_recorded.
  - apply wp_ret, Hrest. intros cfg. by apply should_update_unchanged.
Qed.

(** Of the outside only what [read] keeps is changed. *)
Definition only_reads {A} (read : aout -> aout * A) (m : step ()) w : Prop :=
  forall P : aout -> Prop, (forall o, P o -> P (read o).1) -> P (outside (aw_rest w)) -> wp m (fun w' _ => P (outside (aw_rest w'))) w.

Lemma outside_on_hub {A} (f : chub -> chub * A) w : outside (aw_rest (on_hub f w).1) = outside (aw_rest w).
Proof. unfold on_hub. by destruct (f _). Qed.
Lemma publish_config_outside (P : aout -> Prop) name cluster cfg w : P (outside (aw_rest w)) ->
  wp (publish_config name cluster cfg) (fun w' _ => P (outside (aw_rest w'))) w.
Proof.
  intros Hw. unfold publish_config. apply wp_bind, wp_returns. destruct (on_hub _ w).2; [apply wp_check|]; by rewrite !outside_on_hub.
Qed.

(** The managers of MCS and VictoriaMetrics install their charts exactly when the
    config of the chart has changed since the last round without an error: after such a
    round, whether the next one installs is whether its config differs from that of this
    round in a key of the chart; and a round that has no change to install calls nothing
    outside of the hub but the read of the broker's Secret or of the service. *)
Theorem charts_are_installed_on_change config w :
  (wp (Mcs.manager_Reconcile config) (fun w' x => x = Ok tt -> forall cfg,
     should_update Mcs.brokerChartKeys (last_configs (aw_rest w') !! Mcs.manager_id) cfg = existsb (key_changed (Config config) cfg) Mcs.brokerChartKeys) w /\
   wp (VictoriaMetrics.manager_Reconcile config) (fun w' x => x = Ok tt -> forall cfg,
     should_update VictoriaMetrics.vmChartKeys (last_configs (aw_rest w') !! VictoriaMetrics.manager_id) cfg =
       existsb (key_changed (Config config) cfg) VictoriaMetrics.vmChartKeys) w) /\
  (should_update Mcs.brokerChartKeys (last_configs (aw_rest w) !! Mcs.manager_id) (Config config) = false ->
   only_reads (ao_GetSecret Mcs.BrokerNamespace Mcs.BrokerSecretName) (Mcs.manager_Reconcile config) w) /\
  (should_update VictoriaMetrics.vmChartKeys (last_configs (aw_rest w) !! VictoriaMetrics.manager_id) (Config config) = false ->
   only_reads (ao_GetService VictoriaMetrics.VictoriaMetricsNamespace VictoriaMetrics.VictoriaMetricsServiceName) (VictoriaMetrics.manager_Reconcile config) w).
Proof.
  split; [split|split].
  - apply round_records; solve_within.
  - apply round_records; solve_within.
  - intros Eu P HP Hw. unfold Mcs.manager_Reconcile. apply wp_bind, wp_get_last. rewrite Eu. apply wp_bind, wp_ret, wp_bind, wp_wrap_error.
    unfold Mcs.getBrokerInfo. apply wp_bind, wp_wrap_error, wp_returns. unfold out. specialize (HP _ Hw).
    destruct (ao_GetSecret _ _ _) as [o [secret|e]]; cbn in *; [|exact HP]. destruct (Mcs.newConfig _ _) as [cfg [|]]; [|exact HP].
    by apply publish_config_outside.
  - intros Eu P HP Hw. unfold VictoriaMetrics.manager_Reconcile. apply wp_bind, wp_get_last. rewrite Eu. apply wp_bind, wp_ret, wp_bind, wp_wrap_error.
    assert (forall w1 url, P (outside (aw_rest w1)) -> wp (if String.eqb (get_str (Config config) VictoriaMetrics.ConfigVictoriaMetricsURL) url then mret tt
      else publish_config VictoriaMetrics.AddonName (ClusterName config) (<[VictoriaMetrics.ConfigVictoriaMetricsURL := url]> (Config config)))
      (fun w' _ => P (outside (aw_rest w'))) w1) as Hend.
    { intros w1 url Hw1. destruct (String.eqb _ _); [exact Hw1|]. by apply publish_config_outside. }
    unfold VictoriaMetrics.getVictoriaMetricsURL. cbv zeta. destruct (negb _); [apply wp_ret; by apply Hend|].
    apply wp_bind, wp_call. unfold out. specialize (HP _ Hw). destruct (ao_GetService _ _ _) as [o [e|]]; cbn in *; [exact HP|]. by apply Hend.
Qed.

(** ** The agents *)

(** The last thing done outside is an upgrade or an installation of the release, which
    succeeded. *)
Definition just_installed (namespace release : string) w' : Prop :=
  exists values o, (exists ch, helm_Upgrade namespace release ch values o = (outside (aw_rest w'), None)) \/
    exists ch, helm_Install namespace release ch values o = (outside (aw_rest w'), None).

(** A call after which an error ends the round. *)
Lemma wp_skip {A} (m : step A) (f : A -> step ()) (Q : addon_world addon_rest -> Prop) w : within anything m ->
  (forall a w', wp (f a) (fun w2 x => x = Ok tt -> Q w2) w') -> wp (m ≫= f) (fun w2 x => x = Ok tt -> Q w2) w.
Proof. intros Hm Hf. apply wp_bind. eapply wp_mono; [apply Hm|]. intros w' [a|e] _; [apply Hf|done]. Qed.
Ltac skip := apply wp_skip; [solve_within|intros ?a ?w].

Lemma install_spec namespace release path values extra w :
  wp (install namespace release path values extra) (fun w' x => x = Ok tt -> just_installed namespace release w') w.
Proof.
  unfold install, InstallOrUpgrade. generalize (match extra with Some e => mergeValues values e | None => values end). intros v.
  skip. skip. rename a0 into missing. skip. unfold or_reinstall. apply wp_bind, wp_call.
  destruct ((out _ _).2) as [e|] eqn:E.
  - destruct (in_progress e); [|by apply wp_fail]. skip. skip. apply wp_check. unfold out. destruct (helm_Install _ _ _ _ _) as [o [e'|]] eqn:Ei; [done|].
    intros _. exists v. eexists. right. eexists. exact Ei.
  - apply wp_ret. intros _. exists v. unfold out in *. destruct missing.
    + destruct (helm_Install _ _ _ _ _) as [o x] eqn:Ei. cbn in E. subst x. eexists. right. eexists. exact Ei.
    + destruct (helm_Upgrade _ _ _ _ _) as [o x] eqn:Ei. cbn in E. subst x. eexists. left. eexists. exact Ei.
Qed.

(** The agents and both controllers of Kruise Rollout install or upgrade their chart
    in every round: whatever config they remember, the last call to the outside in a round
    without an error is an installation of their release. *)
Theorem agents_install_every_round config w :
  wp (Mcs.agent_Reconcile config) (fun w' x => x = Ok tt -> just_installed "submariner-operator" "submariner" w') w /\
  wp (VictoriaMetrics.agent_Reconcile config) (fun w' x => x = Ok tt -> just_installed VictoriaMetrics.VmAgentNamespace "vm-agent" w') w /\
  forall id, wp (KruiseRollout.Reconcile id config) (fun w' x => x = Ok tt ->
    just_installed KruiseRollout.DefaultNamespace KruiseRollout.DefaultReleaseName w') w.
Proof.
  split; [|split; [|intros id]].
  - unfold Mcs.agent_Reconcile, Mcs.ensureOperatorCRDRBAC, Mcs.ensure. cbv zeta. destruct (_ || _); [by apply wp_fail|].
    skip. skip. destruct (Mcs.hasSubmarinerConfigChanged _ _) as [last changed]. do 4 skip. apply wp_wrap_error.
    eapply wp_mono; [apply install_spec|]. by intros w' [u|e].
  - unfold VictoriaMetrics.agent_Reconcile. cbv zeta. destruct (String.eqb _ _); [by apply wp_fail|].
    skip. destruct (VictoriaMetrics.hasVmAgentConfigChanged _ _) as [last changed]. do 4 skip. apply wp_wrap_error.
    eapply wp_mono; [apply install_spec|]. by intros w' [u|e].
  - unfold KruiseRollout.Reconcile, KruiseRollout.EnsureNamespaceWithHelmLabels. cbv zeta. skip.
    destruct (KruiseRollout.hasConfigChanged _ _) as [last changed]. do 5 skip. apply wp_bind, wp_wrap_error.
    eapply wp_mono; [apply install_spec|]. intros ?w [[]|e] Hi; [|done]. apply wp_bind, wp_get_last. unfold wp, set_last. intros _. exact (Hi eq_refl).
Qed.

(** An agent that has not been given the broker, or the URL to write to, changes
    nothing and is reported as pending. *)
Theorem waiting_agents_are_pending `{!AddonErrorsLaws _} config w before :
  (get_str (Config config) "brokerURL" = "" \/ get_str (Config config) "brokerToken" = "" ->
   exists e, Mcs.agent_Reconcile config w = Ret (w, Err e) /\
     agent_ran (Mcs.MCSAddon) (Err e) before (Some (mkAddonStatus Mcs.AddonName "Pending" e))) /\
  (get_str (Config config) VictoriaMetrics.ConfigVictoriaMetricsURL = "" ->
   exists e, VictoriaMetrics.agent_Reconcile config w = Ret (w, Err e) /\
     agent_ran (VictoriaMetrics.VictoriaMetricsAddon) (Err e) before (Some (mkAddonStatus VictoriaMetrics.AddonName "Pending" e))).
Proof.
  split.
  - intros Hm. eexists. unfold Mcs.agent_Reconcile. cbv zeta. assert (String.eqb (get_str (Config config) "brokerURL") "" || String.eqb (get_str (Config config) "brokerToken") "" = true) as ->.
    { destruct Hm as [-> | ->]; [done|]. apply orb_true_r. }
    split; [reflexivity|]. cbn [agent_ran]. change (ErrPrerequisitesNotMet +:+ _) with (ErrPrerequisitesNotMet +:+ ": " +:+ "brokerURL or brokerToken not configured"). by rewrite IsPrerequisites_wrapped.
  - intros Hm. eexists. unfold VictoriaMetrics.agent_Reconcile. cbv zeta. rewrite Hm, String.eqb_refl. split; [reflexivity|]. cbn [agent_ran].
    change (ErrPrerequisitesNotMet +:+ _) with (ErrPrerequisitesNotMet +:+ ": " +:+ "victoriametricsURL not configured"). by rewrite IsPrerequisites_wrapped.
Qed.
End spec.
