(* ===== verification/AddonSample.v ===== *)
(** * The addons at a concrete hub

    The witnesses of the properties of the addons, and three runs of the code as it is:
    the manager's report over that of an agent, a chart that is upgraded without a change,
    and an edit of a config that a round of the manager undoes. *)

From S2P Require Import Prelude GoRuntime Json Api Clients Manifest ClientManager ClusterController Agent GoStrings Wp Addons HelmAddons HelmAddonsSpec.

(** A cluster with the Secret of the broker, a log of what helm has done, and no custom
    values; a chart is its path.  An operation of another process that is logged as begun
    is in progress. *)
#[export] Instance sample_addon_clients : AddonClients := {|
  aout := list (string * string * string);           (* action, release, chart *)
  chart := string;
  ao_GetConfigMap ns name o := (o, Err "not found");
  ao_GetSecret ns name o := (o, Ok {["token" := "t"; "ca.crt" := "ca"]});
  ao_GetService ns name o := (o, None);
  ao_GetNamespace ns o := (o, Ok (None, None));
  ao_UpdateNamespace ns l a o := (o, None);
  ao_CreateNamespace ns o := (o, None);
  ao_CreateServiceAccount ns name o := (o, None);
  ao_CreateTokenSecret ns name account o := (o, None);
  ao_GetClusterRole name o := (o, None);
  ao_CreateClusterRole name verbs o := (o, None);
  ao_GetClusterRoleBinding name o := (o, None);
  ao_CreateClusterRoleBinding name account ns o := (o, None);
  helm_NewClient ns o := (o, None);
  helm_LocateChart path o := (o, Ok path);
  helm_Load path o := (o, Ok path);
  helm_History ns release o := (o, if existsb (fun x => String.eqb x.1.2 release) o then None else Some "release: not found");
  helm_Install ns release ch values o := (("install", release, default "" ch) :: o, None);
  helm_Upgrade ns release ch values o :=
    match o with
    | ("begin", _, _) :: _ => (o, Some "another operation (install/upgrade/rollback) is in progress")
    | _ => (("upgrade", release, ch) :: o, None)
    end;
  helm_Uninstall ns release o := (("uninstall", release, "") :: o, None);
  yaml_Unmarshal raw := Err "yaml";
  Getenv name := "";
|}.
#[export] Instance sample_addon_errors : AddonErrors := {| IsPrerequisites := String.prefix ErrPrerequisitesNotMet |}.
#[export] Instance sample_addon_errors_laws : AddonErrorsLaws sample_addon_errors.
Proof. split. reflexivity. Qed.

Definition enabled (name : string) (cfg : gmap string string) : ClusterAddon := mkClusterAddon name true cfg.
Definition addon_cluster (mode : string) (addons : list ClusterAddon) (statuses : list AddonStatus) : @ManagedCluster sample_kubernetes :=
  mkCluster "a" ∅ false [] [] [] (mkAccess ∅ mode "" None addons) (mkClusterState "Ready" "" "" None statuses []).
Definition addon_hub (mode : string) (addons : list ClusterAddon) (statuses : list AddonStatus) : addon_world addon_rest :=
  mkAddonWorld (hub_with (addon_cluster mode addons statuses)) (mkRest ∅ []).
Definition statuses_of {X} (w : addon_world X) : list AddonStatus :=
  match ho_clusters (aw_hub w) !! "a" with Some c => mc_AddonStatus (mc_State c) | None => [] end.
Definition config_of (w : addon_world addon_rest) (name : string) : gmap string string :=
  match ho_clusters (aw_hub w) !! "a" with
  | Some c => from_option ca_Config ∅ (find_addon name (mc_Addons (mc_Access c)))
  | None => ∅
  end.
Definition after {X} (m : action (addon_world X) ()) (w : addon_world X) : addon_world X :=
  match m w with Ret (w', _) => w' | Panic => w end.

Definition mcs_hub : addon_world addon_rest := addon_hub "Hub" [enabled Mcs.AddonName ∅] [].
Definition mcs_config : AddonConfig := mkAddonConfig "a" ∅.

Lemma custom_values_win_witness :
  let custom : gmap string json := {["server" := obj [("port", JStr "1")]]} in
  let values : gmap string json := {["server" := obj [("port", JStr "2"); ("host", JStr "h")]]} in
  at_path (JObj (foldl merge_step values (map_to_list custom))) ["server"; "port"] = Some (JStr "1") /\
  at_path (JObj (foldl merge_step values (map_to_list custom))) ["server"; "host"] = Some (JStr "h").
Proof.
  intros custom values. split.
  - by apply (proj1 (custom_values_win values custom ["server"; "port"] (map_to_list custom) ltac:(reflexivity))).
  - rewrite (proj2 (custom_values_win values custom ["server"; "host"] (map_to_list custom) ltac:(reflexivity))); [done|].
    split; [done|]. intros q r v E. destruct q as [|k1 [|k2 [|k3 q]]]; simplify_eq/=; [by intros [= <-]..|done].
Defined.

Definition ends_well {X} (m : action (addon_world X) ()) w : bool := match m w with Ret (_, Ok _) => true | _ => false end.
Lemma run_ends {X} (m : action (addon_world X) ()) w : ends_well m w = true -> m w = Ret (after m w, Ok tt).
Proof. unfold ends_well, after. by destruct (m w) as [[w' [[]|e]]|]. Qed.
Lemma mcs_round_ends : ends_well (Mcs.manager_Reconcile mcs_config) mcs_hub = true.
Proof. vm_compute. reflexivity. Qed.

(** A round of the manager over the sample ends well, and has installed the broker. *)
Example sample_round_ends : match init with
  | Ret reg => match SetupWithManager ManagerController reg with
               | Ok cm => let m := Reconcile (mkAddonReconciler cm reg "") "a" in ends_well m mcs_hub && bool_decide (length (outside (aw_rest (after m mcs_hub))) = 1%nat)
               | Err _ => false
               end
  | Panic => false
  end = true.
Proof. vm_compute. reflexivity. Qed.

Lemma addon_rounds_report_witness : exists reg cm w',
  init = Ret reg /\ SetupWithManager ManagerController reg = Ok cm /\ reported (mkAddonReconciler cm reg "") "a" manager_ran mcs_hub w'.
Proof.
  destruct (addon_rounds_report "a" mcs_hub) as (cm & ca & Ei & Em & Ea & _ & Hm & _).
  match type of Ei with _ = Ret ?r => set (reg := r) in *; clearbody reg end. pose proof sample_round_ends as Hr.
  rewrite Ei, Em in Hr. cbv zeta in Hr. apply andb_prop in Hr as [Hr _]. unfold ends_well, wp in *.
  destruct (Reconcile _ _ _) as [[w' [[]|e]]|]; try discriminate. exists reg, cm, w'. split; [exact Ei|]. split; [exact Em|].
  destruct (Hm eq_refl) as [(e & He & _)|Hr']; [discriminate He|exact Hr'].
Defined.

Lemma broker_reaches_agents_witness : exists w', Mcs.manager_Reconcile mcs_config mcs_hub = Ret (w', Ok tt) /\
  exists secret cfg url, in_force w' mcs_config cfg /\
    at_path (JObj (Mcs.agent_values "a" (get_str cfg))) ["broker"] = Some (broker_values url secret).
Proof.
  exists (after (Mcs.manager_Reconcile mcs_config) mcs_hub). pose proof (run_ends _ _ mcs_round_ends) as Hr. split; [exact Hr|].
  destruct (wp_elim _ _ _ _ _ (broker_reaches_agents mcs_config mcs_hub) Hr eq_refl) as (o & secret & cfg & url & _ & Hf & Hv & _).
  exists secret, cfg, url. split; [exact Hf|apply Hv].
Defined.

Lemma charts_are_installed_on_change_witness : exists w', Mcs.manager_Reconcile mcs_config mcs_hub = Ret (w', Ok tt) /\
  should_update Mcs.brokerChartKeys (last_configs (aw_rest w') !! Mcs.manager_id) {["brokerChartVersion" := "2"]} =
    existsb (key_changed ∅ {["brokerChartVersion" := "2"]}) Mcs.brokerChartKeys.
Proof.
  exists (after (Mcs.manager_Reconcile mcs_config) mcs_hub). pose proof (run_ends _ _ mcs_round_ends) as Hr. split; [exact Hr|].
  exact (wp_elim _ _ _ _ _ (proj1 (proj1 (charts_are_installed_on_change mcs_config mcs_hub))) Hr eq_refl {["brokerChartVersion" := "2"]}).
Defined.

Definition ready_config : AddonConfig := mkAddonConfig "a" {["brokerURL" := "https://hub"; "brokerToken" := "t"]}.
Lemma mcs_agent_ends_well : ends_well (Mcs.agent_Reconcile ready_config) mcs_hub = true.
Proof. vm_compute. reflexivity. Qed.

Lemma agents_install_every_round_witness :
  let w1 := after (Mcs.agent_Reconcile ready_config) mcs_hub in let w2 := after (Mcs.agent_Reconcile ready_config) w1 in
  just_installed "submariner-operator" "submariner" w1 /\ just_installed "submariner-operator" "submariner" w2.
Proof.
  intros w1 w2. split.
  - exact (wp_elim _ _ _ _ _ (proj1 (agents_install_every_round ready_config mcs_hub)) (run_ends _ _ mcs_agent_ends_well) eq_refl).
  - assert (ends_well (Mcs.agent_Reconcile ready_config) w1 = true) as E by (vm_compute; reflexivity).
    exact (wp_elim _ _ _ _ _ (proj1 (agents_install_every_round ready_config w1)) (run_ends _ _ E) eq_refl).
Defined.

Lemma waiting_agents_are_pending_witness : exists e, Mcs.agent_Reconcile mcs_config mcs_hub = Ret (mcs_hub, Err e).
Proof.
  destruct (proj1 (waiting_agents_are_pending mcs_config mcs_hub None) (or_introl eq_refl)) as (e & He & _). exists e. exact He.
Defined.

(** ** What an agent has written meanwhile *)

(** An addon whose controllers do nothing; on the hub its agent has a round of its own
    while the controller runs. *)
Definition quiet : Addon unit := mkAddon "quiet" (Ok None) (Ok (Some (fun _ => mret tt))).
Definition quiet_registry : registry unit := {["quiet" := quiet]}.
Definition agent_side : AddonReconciler unit := mkAddonReconciler {["quiet" := fun _ => mret tt]} quiet_registry "a".
Definition manager_side (meanwhile : action (addon_world unit) ()) : AddonReconciler unit :=
  mkAddonReconciler {["quiet" := fun _ => meanwhile]} quiet_registry "".
Definition edge_world : addon_world unit :=
  mkAddonWorld (hub_with (addon_cluster "Edge" [enabled "quiet" ∅] [mkAddonStatus "quiet" "Pending" "waiting"])) tt.

(** A round of the manager over an edge cluster writes the states it has read at its
    start over those the agent has reported in the meantime: the agent's report alone
    makes the addon applied, inside of the manager's round it is gone. *)
Theorem manager_undoes_the_agents_report :
  statuses_of (after (agent_round agent_side) edge_world) = [mkAddonStatus "quiet" "Applied" "Addon successfully applied"] /\
  statuses_of (after (Reconcile (manager_side (agent_round agent_side)) "a") edge_world) = [mkAddonStatus "quiet" "Pending" "waiting"].
Proof. split; vm_compute; reflexivity. Qed.

(** The config that the manager publishes is the one its round began with: an entry
    that has been added to the config of the cluster since then is removed again. *)
Theorem edits_are_undone_by_publishing :
  let w := after (Mcs.manager_Reconcile mcs_config) (addon_hub "Hub" [enabled Mcs.AddonName {["brokerChartVersion" := "2"]}] []) in
  config_of w Mcs.AddonName !! "brokerChartVersion" = None /\ config_of w Mcs.AddonName !! "brokerToken" = Some "t".
Proof. split; vm_compute; reflexivity. Qed.

(** What the controllers remember is not kept per cluster: with two clusters whose
    configs name different charts every round installs the broker again. *)
Theorem clusters_take_turns_installing :
  let second := mkAddonConfig "a" {["brokerChartVersion" := "2"]} in
  let round (config : AddonConfig) w := after (Mcs.manager_Reconcile config) w in
  outside (aw_rest (round second (round mcs_config (round second (round mcs_config mcs_hub))))) =
    (fun x => (x.1, "submariner-k8s-broker", Mcs.defaultRepoURL +:+ "/submariner-k8s-broker-" +:+ x.2 +:+ ".tgz")) <$>
      [("upgrade", "2"); ("upgrade", "0.23.0-m0"); ("upgrade", "2"); ("install", "0.23.0-m0")].
Proof. vm_compute. reflexivity. Qed.

(** An operation that another process has in progress on a release is taken for one
    that has been left behind: the release is uninstalled under it and installed again. *)
Theorem busy_release_is_replaced :
  let w := mkAddonWorld (hub_with (addon_cluster "Hub" [] [])) (mkRest ∅ [("begin", "r", "c")]) in
  outside (aw_rest (after (InstallOrUpgrade "ns" "r" "c" ∅) w)) = [("install", "r", "c"); ("uninstall", "r", ""); ("begin", "r", "c")].
Proof. vm_compute. reflexivity. Qed.
