(* ===== verification/Registry.v ===== *)
(** * The aggregated API of the clusters

    internal/manager/apiserver/registry/cluster/storage.go: the Clusters that the manager
    serves (pkg/apis/cluster/v1alpha1) are its ManagedClusters
    (pkg/apis/storage/v1alpha1), translated in both directions with every request, and a
    connection to a cluster goes through its tunnel. *)

From S2P Require Import Prelude GoRuntime Api ClientManager ClusterController Agent Wp GoStrings Addons.
From Stdlib Require Import Ascii.

(** ** The two types of the API, field by field; [None] is a nil slice. *)

Record ObjectMeta := mkMeta {
  om_Name : string; om_UID : string; om_ResourceVersion : string; om_CreationTimestamp : Z; om_Deleting : bool;
  om_Labels : gmap string string; om_Annotations : gmap string string; om_Finalizers : list string }.
Definition with_version (m : ObjectMeta) (v : string) : ObjectMeta :=
  mkMeta (om_Name m) (om_UID m) v (om_CreationTimestamp m) (om_Deleting m) (om_Labels m) (om_Annotations m) (om_Finalizers m).

Module Managed.
Record NodeSummary := mkNode { Name : string; TotalNum : Z; ReadyNum : Z }.
Record ResourceSummary `{Kubernetes} := mkResource { rs_Name : string; Allocatable : ResourceList; Allocating : ResourceList; Allocated : ResourceList }.
Record ManagedClusterSpec := mkSpec {
  ConnectionMode : string; APIServer : string; SecretRef : option string; Taints : list Taint; Addons : list ClusterAddon }.
Record ManagedClusterStatus `{Kubernetes} := mkStatus {
  State : string; ID : string; KubernetesVersion : string; AgentVersion : string; APIServerURL : string; LastKeepAliveTime : option Z;
  NodeSummaries : option (list NodeSummary); ResourceSummaries : option (list ResourceSummary); Conditions : list Condition;
  AddonStatuses : list AddonStatus }.
Record ManagedCluster `{Kubernetes} := mkCluster { Meta : ObjectMeta; Spec : ManagedClusterSpec; Status : ManagedClusterStatus }.
Arguments mkCluster {_}.

(** As the controllers see it. *)
Definition view `{Kubernetes} (c : ManagedCluster) : Api.ManagedCluster :=
  Api.mkCluster (om_Name (Meta c)) (om_Labels (Meta c)) (om_Deleting (Meta c)) (Taints (Spec c))
    ((fun r => Api.mkSummary (Allocatable r) (Allocating r) (Allocated r)) <$> default [] (ResourceSummaries (Status c)))
    (Conditions (Status c))
    (mkAccess (om_Annotations (Meta c)) (ConnectionMode (Spec c)) (APIServer (Spec c)) (SecretRef (Spec c)) (Addons (Spec c)))
    (mkClusterState (State (Status c)) (ID (Status c)) (APIServerURL (Status c)) (LastKeepAliveTime (Status c)) (AddonStatuses (Status c))
       ((fun n => Api.mkNodeSummary (TotalNum n) (ReadyNum n)) <$> default [] (NodeSummaries (Status c)))).
End Managed.

Module Cluster.
Record NodeSummary := mkNode { Name : string; TotalNum : Z; ReadyNum : Z }.
Record ResourceSummary `{Kubernetes} := mkResource { rs_Name : string; Allocatable : ResourceList; Allocating : ResourceList; Allocated : ResourceList }.
Record ClusterAddon := mkAddon { ca_Name : string; ca_Enabled : bool; ca_Config : gmap string string }.
Record AddonStatus := mkAddonStatus { as_Name : string; as_State : string; as_Message : string }.
Record ClusterSpec := mkSpec {
  ConnectionMode : string; APIServer : string; SecretRef : option string; Taints : list Taint; Addons : list ClusterAddon }.
Record ClusterStatus `{Kubernetes} := mkStatus {
  State : string; ID : string; KubernetesVersion : string; AgentVersion : string; APIServerURL : string; LastKeepAliveTime : option Z;
  NodeSummaries : option (list NodeSummary); ResourceSummaries : option (list ResourceSummary); Conditions : list Condition;
  AddonStatuses : list AddonStatus }.
Record Cluster `{Kubernetes} := mkCluster { Meta : ObjectMeta; Spec : ClusterSpec; Status : ClusterStatus }.
Arguments mkCluster {_}.
End Cluster.

(** ** Conversions *)

Section conversions.
Context `{Kubernetes}.

Definition convertToCluster (mc : Managed.ManagedCluster) : Cluster.Cluster :=
  let sp := Managed.Spec mc in let st := Managed.Status mc in
  Cluster.mkCluster (Managed.Meta mc)
    (Cluster.mkSpec (Managed.ConnectionMode sp) (Managed.APIServer sp) (Managed.SecretRef sp) (Managed.Taints sp) [])
    (Cluster.mkStatus _ (Managed.State st) (Managed.ID st) (Managed.KubernetesVersion st) (Managed.AgentVersion st) (Managed.APIServerURL st)
       (Managed.LastKeepAliveTime st)
       (option_map (map (fun ns => Cluster.mkNode (Managed.Name ns) (Managed.TotalNum ns) (Managed.ReadyNum ns))) (Managed.NodeSummaries st))
       (option_map (map (fun rs => Cluster.mkResource _ (Managed.rs_Name rs) (Managed.Allocatable rs) (Managed.Allocating rs) (Managed.Allocated rs))) (Managed.ResourceSummaries st))
       (Managed.Conditions st) []).

Definition convertToManagedCluster (c : Cluster.Cluster) : Managed.ManagedCluster :=
  let sp := Cluster.Spec c in let st := Cluster.Status c in
  Managed.mkCluster (Cluster.Meta c)
    (Managed.mkSpec (Cluster.ConnectionMode sp) (Cluster.APIServer sp) (Cluster.SecretRef sp) (Cluster.Taints sp) [])
    (Managed.mkStatus _ (Cluster.State st) (Cluster.ID st) (Cluster.KubernetesVersion st) (Cluster.AgentVersion st) (Cluster.APIServerURL st)
       (Cluster.LastKeepAliveTime st)
       (option_map (map (fun ns => Managed.mkNode (Cluster.Name ns) (Cluster.TotalNum ns) (Cluster.ReadyNum ns))) (Cluster.NodeSummaries st))
       (option_map (map (fun rs => Managed.mkResource _ (Cluster.rs_Name rs) (Cluster.Allocatable rs) (Cluster.Allocating rs) (Cluster.Allocated rs))) (Cluster.ResourceSummaries st))
       (Cluster.Conditions st) []).
End conversions.

(** ** The client of the hub, and what the API machinery hands over *)

Record ListMeta := mkListMeta { lm_ResourceVersion : string; lm_Continue : string; lm_RemainingItemCount : option Z }.

Class ClusterStore `{Kubernetes, ApiErrors} := {
  store : Type;
  Selector : Type;
  cs_Get : string -> store -> store * res Managed.ManagedCluster;
  cs_List : option Selector -> store -> store * res (ListMeta * list Managed.ManagedCluster);
  (** The object takes the answer. *)
  cs_Create : Managed.ManagedCluster -> store -> store * res Managed.ManagedCluster;
  cs_Update : Managed.ManagedCluster -> store -> store * res Managed.ManagedCluster;
  cs_Delete : string -> store -> store * option string;
  (** [apierrors.NewNotFound(clusterv1alpha1.Resource("cluster"), name)] *)
  NewNotFound : string -> string;
}.

Section rest.
Context `{Kubernetes, ApiErrors, !ClusterStore}.
Abbreviation step := (action store).

(** A [runtime.Object]. *)
Inductive object :=
| OCluster (c : Cluster.Cluster)
| OClusterList (meta : ListMeta) (items : list Cluster.Cluster)
| OOther (type : string).

(** Admission: of an object, and of a change; [None] is a nil function. *)
Definition ValidateObjectFunc : Type := option (Cluster.Cluster -> option string).
Definition ValidateObjectUpdateFunc : Type := option (Cluster.Cluster -> Cluster.Cluster -> option string).
Definition validate (e : option string) : step () := match e with Some e => fail e | None => mret tt end.
(** The options of a request, of which none is looked at except a selector. *)
Record WriteOptions := mkWriteOptions { DryRun : list string; Preconditions_UID : option string; Preconditions_ResourceVersion : option string }.
(** [obj.( *clusterv1alpha1.Cluster)] without a second value. *)
Definition as_cluster (o : object) : step Cluster.Cluster := match o with OCluster c => mret c | _ => fun _ => Panic end.

Definition Get (name : string) : step Cluster.Cluster :=
  x ← attempt (returns (cs_Get name));
  match x with
  | Err e => fail (if IsNotFound e then NewNotFound name else e)
  | Ok mc => mret (convertToCluster mc)
  end.

Definition List_ (options : option (option Selector)) : step (ListMeta * list Cluster.Cluster) :=
  l ← returns (cs_List (default None options));
  mret (l.1, convertToCluster <$> l.2).

Definition Create (obj : object) (createValidation : ValidateObjectFunc) (options : WriteOptions) : step Cluster.Cluster :=
  match obj with
  | OCluster cluster =>
      _ ← validate (match createValidation with Some f => f cluster | None => None end);
      mc ← returns (cs_Create (convertToManagedCluster cluster));
      mret (convertToCluster mc)
  | _ => fail "not of type Cluster"
  end.

Definition with_resource_version (mc : Managed.ManagedCluster) (v : string) : Managed.ManagedCluster :=
  Managed.mkCluster (with_version (Managed.Meta mc) v) (Managed.Spec mc) (Managed.Status mc).

(** The second result is whether an object was created. *)
Definition Update (name : string) (UpdatedObject : Cluster.Cluster -> res object) (createValidation : ValidateObjectFunc)
    (updateValidation : ValidateObjectUpdateFunc) (forceAllowCreate : bool) (options : WriteOptions) : step (Cluster.Cluster * bool) :=
  oldCluster ← Get name;
  newObj ← of_res (UpdatedObject oldCluster);
  newCluster ← as_cluster newObj;
  _ ← validate (match updateValidation with Some f => f newCluster oldCluster | None => None end);
  mc ← returns (cs_Update (with_resource_version (convertToManagedCluster newCluster) (om_ResourceVersion (Cluster.Meta oldCluster))));
  mret (convertToCluster mc, false).

Definition Delete (name : string) (deleteValidation : ValidateObjectFunc) (options : WriteOptions) : step (Cluster.Cluster * bool) :=
  x ← attempt (Get name);
  match x with
  | Err e => fail (if IsNotFound e then NewNotFound name else e)
  | Ok oldObj =>
      e ← call (cs_Delete name);
      match e with
      | Some e => fail (if IsNotFound e then NewNotFound name else e)
      | None => mret (oldObj, true)
      end
  end.

(** *** ConvertToTable *)

Record TableRow := mkRow { row_Object : Cluster.Cluster; cell_Name : string; cell_State : string; cell_Version : string; cell_Created : Z }.
Record Table := mkTable { t_ResourceVersion : string; t_Continue : string; t_RemainingItemCount : option Z; t_Rows : list TableRow }.

Definition tableRowFromCluster (c : Cluster.Cluster) : TableRow :=
  mkRow c (om_Name (Cluster.Meta c)) (Cluster.State (Cluster.Status c)) (Cluster.KubernetesVersion (Cluster.Status c))
    (om_CreationTimestamp (Cluster.Meta c)).
Definition tableRowsFromObject (o : object) : res (list TableRow) :=
  match o with
  | OClusterList _ items => Ok (tableRowFromCluster <$> items)
  | OCluster c => Ok [tableRowFromCluster c]
  | OOther type => Err ("unsupported type for table conversion: " +:+ type)
  end.
Definition ConvertToTable (o : object) : res Table :=
  rows ← tableRowsFromObject o;
  Ok match o with
     | OClusterList m _ => mkTable (lm_ResourceVersion m) (lm_Continue m) (lm_RemainingItemCount m) rows
     | OCluster c => mkTable (om_ResourceVersion (Cluster.Meta c)) "" None rows
     | OOther _ => mkTable "" "" None rows
     end.

(** *** ProxyREST *)

(** Where a request goes: through the tunnel of a cluster, to a path of its API server. *)
Record proxied := mkProxied { px_Cluster : string; px_Scheme : string; px_Host : string; px_Path : string }.

Definition proxy_prefix (name : string) : string := "/apis/" +:+ "cluster.kumquat.io" +:+ "/" +:+ "v1alpha1" +:+ "/clusters/" +:+ name +:+ "/proxy".
Definition proxy_path (name path : string) : string :=
  let p := TrimPrefix path (proxy_prefix name) in if HasPrefix p "/" then p else "/" +:+ p.
(** The handler is a function of the path of the request. *)
Definition Connect (name : string) : step (string -> proxied) :=
  mc ← returns (cs_Get name);
  if String.eqb (Managed.ConnectionMode (Managed.Spec mc)) "Edge"
  then mret (fun path => mkProxied name "http" "kubernetes.default.svc" (proxy_path name path))
  else fail "Hub mode proxy not implemented".
End rest.

(** ** What the aggregated API keeps

    A translation loses the addons of a cluster and nothing else, so that an update
    through the API takes the addons from the stored cluster and the next round of their
    controllers finds them disabled. *)

Section conversions.
Context `{Kubernetes}.

(** Without the fields that are not translated. *)
Definition without_addons (mc : Managed.ManagedCluster) : Managed.ManagedCluster :=
  let sp := Managed.Spec mc in let st := Managed.Status mc in
  Managed.mkCluster (Managed.Meta mc)
    (Managed.mkSpec (Managed.ConnectionMode sp) (Managed.APIServer sp) (Managed.SecretRef sp) (Managed.Taints sp) [])
    (Managed.mkStatus _ (Managed.State st) (Managed.ID st) (Managed.KubernetesVersion st) (Managed.AgentVersion st) (Managed.APIServerURL st)
       (Managed.LastKeepAliveTime st) (Managed.NodeSummaries st) (Managed.ResourceSummaries st) (Managed.Conditions st) []).

Lemma option_map_map_id {A B} (f : A -> B) (g : B -> A) (o : option (list A)) : (forall x, g (f x) = x) ->
  option_map (map g) (option_map (map f) o) = o.
Proof. intros Hgf. destruct o as [l|]; [|done]. cbn. f_equal. induction l as [|x l IH]; [done|]. cbn. by rewrite Hgf, IH. Qed.

Lemma to_managed_to_cluster mc : convertToManagedCluster (convertToCluster mc) = without_addons mc.
Proof.
  unfold convertToManagedCluster, convertToCluster, without_addons. cbn. rewrite !option_map_map_id; [done|by intros []..].
Qed.

(** A cluster that is translated to the API and back is the same but for its addons:
    the addons of the spec and their states are gone, every other field of metadata, spec
    and status is there again; so only a cluster without addons comes back as it was. *)
Theorem translation_loses_the_addons mc :
  convertToManagedCluster (convertToCluster mc) = without_addons mc /\
  (convertToManagedCluster (convertToCluster mc) = mc <-> Managed.Addons (Managed.Spec mc) = [] /\ Managed.AddonStatuses (Managed.Status mc) = []).
Proof.
  rewrite to_managed_to_cluster. split; [done|]. destruct mc as [m [mode server secret taints addons] []]. unfold without_addons. cbn.
  split; [by intros [= <- <-]|by intros [-> ->]].
Qed.
End conversions.

Section rest.
Context `{Kubernetes, ApiErrors, !ClusterStore}.
Implicit Types (w : store).

(** The hub has stored [mc] as [w'] is reached. *)
Definition stored (mc : Managed.ManagedCluster) w' : Prop := exists w0 mc', cs_Update mc w0 = (w', Ok mc').

Lemma wp_validate e (Q : store -> res () -> Prop) w : (e = None -> Q w (Ok tt)) -> (forall e', Q w (Err e')) -> wp (validate e) Q w.
Proof. intros Hn He. destruct e; [apply wp_fail, He|by apply wp_ret, Hn]. Qed.

Lemma Get_spec name w (Q : store -> res Cluster.Cluster -> Prop) :
  (forall mc, (cs_Get name w).2 = Ok mc -> Q (cs_Get name w).1 (Ok (convertToCluster mc))) ->
  (forall e, (cs_Get name w).2 = Err e -> Q (cs_Get name w).1 (Err (if IsNotFound e then NewNotFound name else e))) ->
  wp (Get name) Q w.
Proof.
  intros Hok He. unfold Get. apply wp_bind, wp_attempt, wp_returns. destruct (cs_Get name w) as [w1 [mc|e]]; cbn in *.
  - apply wp_ret. by apply Hok.
  - apply wp_fail. by apply He.
Qed.

(** What an update without an error has stored: the change of what was read, with the
    version that was read, and without addons. *)
Lemma Update_stores name f cv uv force o w : (forall c, exists c', f c = Ok (OCluster c') \/ exists e, f c = Err e) ->
  wp (Update name f cv uv force o) (fun w' x => forall r, x = Ok r -> exists mc c',
    (cs_Get name w).2 = Ok mc /\ f (convertToCluster mc) = Ok (OCluster c') /\
    match uv with Some v => v c' (convertToCluster mc) = None | None => True end /\ r.2 = false /\
    stored (with_resource_version (convertToManagedCluster c') (om_ResourceVersion (Managed.Meta mc))) w') w.
Proof.
  intros Hf. unfold Update. apply wp_bind. apply Get_spec; [|done]. intros mc Emc. apply wp_bind, wp_of_res.
  destruct (Hf (convertToCluster mc)) as [c' [E|[e E]]]; rewrite E; [|done]. apply wp_bind. unfold as_cluster. apply wp_ret, wp_bind.
  apply wp_validate; [|done]. intros Hv. apply wp_bind, wp_returns. destruct (cs_Update _ _) as [w2 [mc'|e]] eqn:Eu; cbn [fst snd]; [|done].
  apply wp_ret. intros r [= <-]. exists mc, c'. split_and!; [done|done|by destruct uv|done|]. by eexists _, _.
Qed.

(** What an update through the API stores: when it ends without an error the hub
    held the cluster, the update of what it held passed the validation, and the object that
    has been stored is that update with the version that was read and without any addon,
    whatever was changed; so the controllers of the addons find each of them disabled. *)
Theorem update_drops_the_addons name f cv uv force o w : (forall c, exists c', f c = Ok (OCluster c') \/ exists e, f c = Err e) ->
  wp (Update name f cv uv force o) (fun w' x => forall r, x = Ok r -> exists old c' mc,
    (cs_Get name w).2 = Ok old /\ f (convertToCluster old) = Ok (OCluster c') /\
    match uv with Some v => v c' (convertToCluster old) = None | None => True end /\ r.2 = false /\
    stored mc w' /\
    mc = with_resource_version (convertToManagedCluster c') (om_ResourceVersion (Managed.Meta old)) /\ mc = without_addons mc /\
    forall addon, find_addon addon (mc_Addons (mc_Access (Managed.view mc))) = None) w.
Proof.
  intros Hf. eapply wp_mono; [by apply Update_stores|]. intros w' x Hx r E. destruct (Hx r E) as (old & c' & Hg & He & Hv & Hr & Hs).
  eexists old, c', _. split_and!; [done|done|by destruct uv|done|exact Hs|done..].
Qed.

Definition set_version (v : string) (o : object) : object :=
  match o with
  | OCluster c => OCluster (Cluster.mkCluster (with_version (Cluster.Meta c) v) (Cluster.Spec c) (Cluster.Status c))
  | o => o
  end.

(** The version a client sends with an update is not looked at: without a validation
    an update does the same whatever version it carries, so that one made from an old copy
    of the cluster overwrites what has changed since. *)
Theorem sent_version_is_ignored name f cv force o v w :
  Update name (fun c => match f c with Ok obj => Ok (set_version v obj) | Err e => Err e end) cv None force o w = Update name f cv None force o w.
Proof.
  unfold Update, mbind, action_bind. destruct (Get name w) as [[w1 [c|e]]|]; [|done..]. unfold of_res.
  destruct (f c) as [[c'|m items|t]|e]; done.
Qed.

(** Reading translates: a Get gives the cluster of the name or a NotFound of the API,
    a List the clusters of the hub one by one and in order, and a row of a table the name,
    state, version and age of its cluster. *)
Theorem reads_translate name options w :
  wp (Get name) (fun _ x => match (cs_Get name w).2 with
                            | Ok mc => x = Ok (convertToCluster mc)
                            | Err e => x = Err (if IsNotFound e then NewNotFound name else e)
                            end) w /\
  wp (List_ options) (fun _ x => match (cs_List (default None options) w).2 with
                                 | Ok (m, l) => exists l', x = Ok (m, l') /\ l' = convertToCluster <$> l /\
                                     forall t, ConvertToTable (OClusterList m l') = Ok t ->
                                       (fun r => (cell_Name r, cell_State r, cell_Version r, cell_Created r)) <$> t_Rows t =
                                       (fun mc => (om_Name (Managed.Meta mc), Managed.State (Managed.Status mc), Managed.KubernetesVersion (Managed.Status mc),
                                                   om_CreationTimestamp (Managed.Meta mc))) <$> l
                                 | Err e => x = Err e
                                 end) w.
Proof.
  split.
  - apply Get_spec; [by intros mc ->|by intros e ->].
  - unfold List_. apply wp_bind, wp_returns. destruct (cs_List _ w) as [w1 [[m l]|e]]; cbn [fst snd]; [|done]. apply wp_ret. eexists. split; [done|]. split; [done|].
    intros t [= <-]. cbn. by rewrite <- !list_fmap_compose.
Qed.

(** A connection is offered for clusters of the edge mode only, to the tunnel of the
    named cluster; of a path below the proxy of that cluster its API server sees what
    follows, and in any case an absolute path. *)
Theorem connection_targets_the_cluster name w :
  wp (Connect name) (fun _ x => forall handler, x = Ok handler ->
    (exists mc, (cs_Get name w).2 = Ok mc /\ Managed.ConnectionMode (Managed.Spec mc) = "Edge") /\
    forall path, px_Cluster (handler path) = name /\ HasPrefix (px_Path (handler path)) "/" = true /\
      forall rest, path = proxy_prefix name +:+ "/" +:+ rest -> px_Path (handler path) = "/" +:+ rest) w.
Proof.
  unfold Connect. apply wp_bind, wp_returns. destruct (cs_Get name w) as [w1 [mc|e]]; cbn [fst snd]; [|done].
  destruct (String.eqb _ _) eqn:Em; [|by apply wp_fail]. apply String.eqb_eq in Em. apply wp_ret. intros handler [= <-]. split; [by exists mc|].
  intros path. cbn. split; [done|]. unfold proxy_path. split.
  - destruct (HasPrefix (TrimPrefix _ _) "/") eqn:E; [done|]. apply HasPrefix_iff. by eexists.
  - intros rest ->. by rewrite TrimPrefix_app.
Qed.
End rest.

(** ** A concrete store *)

#[export] Instance sample_cluster_store : @ClusterStore sample_kubernetes sample_errors := {|
  store := gmap string Managed.ManagedCluster;
  Selector := ();
  cs_Get name s := (s, match s !! name with Some c => Ok c | None => Err "not found" end);
  cs_List sel s := (s, Ok (mkListMeta "1" "" None, (map_to_list s).*2));
  cs_Create c s := (<[om_Name (Managed.Meta c) := c]> s, Ok c);
  cs_Update c s := (<[om_Name (Managed.Meta c) := c]> s, Ok c);
  cs_Delete name s := (delete name s, None);
  NewNotFound name := "not found";
|}.

Definition meta_a : ObjectMeta := mkMeta "a" "uid" "7" 0 false ∅ ∅ [].
Definition stored_cluster : @Managed.ManagedCluster sample_kubernetes :=
  Managed.mkCluster meta_a (Managed.mkSpec "Edge" "" None [] [mkClusterAddon "mcs-lighthouse" true ∅])
    (Managed.mkStatus _ "Ready" "" "1.34" "" "" None None None [] []).
Definition cluster_store : @store _ _ sample_cluster_store := {["a" := stored_cluster]}.
(** A client that changes nothing. *)
Definition unchanged (c : @Cluster.Cluster sample_kubernetes) : res (@object sample_kubernetes) := Ok (OCluster c).
Definition plain_options : WriteOptions := mkWriteOptions [] None None.

Lemma update_drops_the_addons_witness : exists w' mc,
  stored mc w' /\ find_addon "mcs-lighthouse" (mc_Addons (mc_Access (Managed.view stored_cluster))) ≠ None /\
  find_addon "mcs-lighthouse" (mc_Addons (mc_Access (Managed.view mc))) = None.
Proof.
  pose proof (update_drops_the_addons "a" unchanged None None false plain_options cluster_store) as Hw.
  specialize (Hw ltac:(intros c; exists c; left; reflexivity)). unfold wp in Hw.
  assert (exists w' r, Update "a" unchanged None None false plain_options cluster_store = Ret (w', Ok r)) as (w' & r & E) by (eexists _, _; reflexivity).
  rewrite E in Hw. destruct (Hw r eq_refl) as (_ & _ & mc & _ & _ & _ & _ & Hs & _ & _ & Hn). exists w', mc. split; [exact Hs|]. split; [discriminate|apply Hn].
Defined.
