(* ===== verification/DirectServices.v ===== *)
(** * The portal's direct access to the engine

    apiserver/pkg/service and apiserver/pkg/handler: application.go, workspace.go and
    cluster.go, with service/k8s_errors.go.  They read and write the engine's objects
    without a record of the portal; main.go registers the resource gateway in their place.
    The client of controller-runtime is a parameter.  The names of the query and of the
    path are given by their values, a body by what the binding makes of it. *)

From S2P Require Import Prelude GoRuntime Json Wp Store Errors Service Org Http.
From S2P Require Api EngineTypes Gateway Registry.

(** ** service/k8s_errors.go *)

(** apierrors.IsNotFound and so on, of the text of an error. *)
Class ApiReasons := {
  NotFoundReason : string -> bool; ConflictReason : string -> bool; AlreadyExistsReason : string -> bool;
  BadRequestReason : string -> bool; ForbiddenReason : string -> bool; UnauthorizedReason : string -> bool }.

Definition Wrap (code : Z) (message err : string) : error :=
  App (mkAppError code (if String.eqb message "" then GetMessage code else message) (Some err)).

Section errors.
Context `{ApiReasons}.
Definition wrapK8sError (err message : string) : error :=
  if NotFoundReason err then Wrap CodeNotFound message err
  else if ConflictReason err then Wrap CodeConflict message err
  else if AlreadyExistsReason err then Wrap CodeConflict message err
  else if BadRequestReason err then Wrap CodeBadRequest message err
  else if ForbiddenReason err then Wrap CodeForbidden message err
  else if UnauthorizedReason err then Wrap CodeUnauthorized message err
  else Wrap CodeInternal message err.
End errors.

(** ** The client *)

(** [client.Limit], [client.Continue] and [client.InNamespace], where they are given. *)
Record list_options := mkOptions { InNamespace : option string; Limit : option Z; Continue : option string }.
Definition nonempty (s : string) : option string := if String.eqb s "" then None else Some s.
Definition positive_ (n : Z) : option Z := if 0 <? n then Some n else None.

(** The objects of the engine, and the client's calls; a list comes with the cursor of
    its next page.  A patch is the bytes of a merge patch. *)
Class DirectClient `{Api.Kubernetes, EngineTypes.EngineTypes} := {
  hub : Type;
  ListApplications : list_options -> hub -> hub * res (list Gateway.ApplicationObject * string);
  GetApplication : string -> string -> hub -> hub * res Gateway.ApplicationObject;
  CreateApplication : Gateway.ApplicationObject -> hub -> hub * option string;
  UpdateApplication : Gateway.ApplicationObject -> hub -> hub * option string;
  DeleteApplication : string -> string -> hub -> hub * option string;
  PatchApplication : string -> string -> string -> hub -> hub * option string;
  ListWorkspaces : list_options -> hub -> hub * res (list Gateway.WorkspaceObject * string);
  GetWorkspace : string -> hub -> hub * res Gateway.WorkspaceObject;
  CreateWorkspace : Gateway.WorkspaceObject -> hub -> hub * option string;
  UpdateWorkspace : Gateway.WorkspaceObject -> hub -> hub * option string;
  DeleteWorkspace : string -> hub -> hub * option string;
  ListClusters : list_options -> hub -> hub * res (list Registry.Cluster.Cluster * string);
  GetCluster : string -> hub -> hub * res Registry.Cluster.Cluster;
  DeleteCluster : string -> hub -> hub * option string;
  PatchCluster : string -> string -> hub -> hub * option string;
  json_bytes : json -> string;                          (* encoding/json's Marshal *)
  addons_json : option (list Registry.Cluster.ClusterAddon) -> json;   (* nil for None *)
}.

Section direct.
Context `{ApiReasons, DirectClient}.
Abbreviation step := (action (dbstore org hub)).
Abbreviation svc := (svc org hub).

(** A call of the client, and its error as the services return it. *)
Definition reads {A} (f : hub -> hub * res A) (message : string) : svc A := orElse (returns (outside f)) (fun e => wrapK8sError e message).
Definition writes (f : hub -> hub * option string) (message : string) : svc () := orElse (check (outside f)) (fun e => wrapK8sError e message).

(** ** Services *)

Record ApplicationQuery := mkApplicationQuery {
  aq_Namespace : string; aq_SchedulingPhase : string; aq_HealthPhase : string; aq_Limit : Z; aq_Continue : string }.
Definition application_matches (q : ApplicationQuery) (a : Gateway.ApplicationObject) : bool :=
  (String.eqb (aq_SchedulingPhase q) "" || String.eqb (Api.SchedulingPhase (Gateway.ao_Status a)) (aq_SchedulingPhase q)) &&
  (String.eqb (aq_HealthPhase q) "" || String.eqb (Api.HealthPhase (Gateway.ao_Status a)) (aq_HealthPhase q)).

Definition ApplicationService_List (q : ApplicationQuery) : svc (list Gateway.ApplicationObject * string) :=
  page ← reads (ListApplications (mkOptions (nonempty (aq_Namespace q)) (positive_ (aq_Limit q)) (nonempty (aq_Continue q)))) "failed to list applications";
  mret (List.filter (application_matches q) page.1, page.2).
Definition ApplicationService_Get (name namespace : string) : svc Gateway.ApplicationObject :=
  reads (GetApplication namespace name) ("failed to get application " +:+ namespace +:+ "/" +:+ name).
Definition ApplicationService_Create (a : Gateway.ApplicationObject) : svc () := writes (CreateApplication a) "failed to create application".
Definition ApplicationService_Update (a : Gateway.ApplicationObject) : svc () := writes (UpdateApplication a) "failed to update application".
Definition ApplicationService_Delete (name namespace : string) : svc () :=
  writes (DeleteApplication namespace name) ("failed to delete application " +:+ namespace +:+ "/" +:+ name).
Definition suspend_patch (suspend : bool) : json := obj [("spec", obj [("suspend", JBool suspend)])].
Definition ApplicationService_Suspend (name namespace : string) (suspend : bool) : svc () :=
  writes (PatchApplication namespace name (json_bytes (suspend_patch suspend))) ("failed to suspend/resume application " +:+ namespace +:+ "/" +:+ name).
Definition scale_patch (replicas : Z) : json := obj [("spec", obj [("replicas", JInt replicas)])].
Definition ApplicationService_Scale (name namespace : string) (replicas : Z) : svc () :=
  writes (PatchApplication namespace name (json_bytes (scale_patch replicas))) ("failed to scale application " +:+ namespace +:+ "/" +:+ name).
Definition ApplicationService_Patch (name namespace patch : string) : svc () :=
  writes (PatchApplication namespace name patch) ("failed to patch application " +:+ namespace +:+ "/" +:+ name).

Record WorkspaceQuery := mkWorkspaceQuery { wq_Cluster : string; wq_Limit : Z; wq_Continue : string }.
Definition workspace_matches (q : WorkspaceQuery) (w : Gateway.WorkspaceObject) : bool :=
  String.eqb (wq_Cluster q) "" ||
  existsb (fun cluster => String.eqb cluster (wq_Cluster q)) (EngineTypes.elems (EngineTypes.wst_AppliedClusters (Gateway.wo_Status w))).

Definition WorkspaceService_List (q : WorkspaceQuery) : svc (list Gateway.WorkspaceObject * string) :=
  page ← reads (ListWorkspaces (mkOptions None (positive_ (wq_Limit q)) (nonempty (wq_Continue q)))) "failed to list workspaces";
  mret (List.filter (workspace_matches q) page.1, page.2).
Definition WorkspaceService_Get (name : string) : svc Gateway.WorkspaceObject := reads (GetWorkspace name) ("failed to get workspace " +:+ name).
Definition WorkspaceService_Create (w : Gateway.WorkspaceObject) : svc () := writes (CreateWorkspace w) "failed to create workspace".
Definition WorkspaceService_Update (w : Gateway.WorkspaceObject) : svc () := writes (UpdateWorkspace w) "failed to update workspace".
Definition WorkspaceService_Delete (name : string) : svc () := writes (DeleteWorkspace name) ("failed to delete workspace " +:+ name).
Definition WorkspaceService_GetClustersByWorkspace (name : string) : svc (EngineTypes.slice string * EngineTypes.slice EngineTypes.ClusterError) :=
  w ← WorkspaceService_Get name; mret (EngineTypes.wst_AppliedClusters (Gateway.wo_Status w), EngineTypes.wst_FailedClusters (Gateway.wo_Status w)).

Record ClusterQuery := mkClusterQuery { cq_State : string; cq_ConnectionMode : string; cq_Limit : Z; cq_Continue : string }.
Definition cluster_matches (q : ClusterQuery) (c : Registry.Cluster.Cluster) : bool :=
  (String.eqb (cq_State q) "" || String.eqb (Registry.Cluster.State (Registry.Cluster.Status c)) (cq_State q)) &&
  (String.eqb (cq_ConnectionMode q) "" || String.eqb (Registry.Cluster.ConnectionMode (Registry.Cluster.Spec c)) (cq_ConnectionMode q)).

Definition ClusterService_List (q : ClusterQuery) : svc (list Registry.Cluster.Cluster * string) :=
  page ← reads (ListClusters (mkOptions None (positive_ (cq_Limit q)) (nonempty (cq_Continue q)))) "failed to list clusters";
  mret (List.filter (cluster_matches q) page.1, page.2).
Definition ClusterService_Get (name : string) : svc Registry.Cluster.Cluster := reads (GetCluster name) ("failed to get cluster " +:+ name).
Definition ClusterService_Delete (name : string) : svc () := writes (DeleteCluster name) ("failed to delete cluster " +:+ name).
Definition addons_patch (addons : option (list Registry.Cluster.ClusterAddon)) : json := obj [("spec", obj [("addons", addons_json addons)])].
Definition ClusterService_UpdateAddons (name : string) (addons : option (list Registry.Cluster.ClusterAddon)) : svc () :=
  writes (PatchCluster name (json_bytes (addons_patch addons))) ("failed to update cluster addons " +:+ name).
Definition ClusterService_GetClusterAddons (name : string) : svc (list Registry.Cluster.ClusterAddon * list Registry.Cluster.AddonStatus) :=
  c ← ClusterService_Get name; mret (Registry.Cluster.Addons (Registry.Cluster.Spec c), Registry.Cluster.AddonStatuses (Registry.Cluster.Status c)).

(** ** Handlers *)

Inductive direct_body :=
| BApplications (items : list Gateway.ApplicationObject) (cursor : string) | BApplication (a : Gateway.ApplicationObject)
| BWorkspaces (items : list Gateway.WorkspaceObject) (cursor : string) | BWorkspace (w : Gateway.WorkspaceObject)
| BWorkspaceClusters (applied : EngineTypes.slice string) (failed : EngineTypes.slice EngineTypes.ClusterError)
| BClusters (items : list Registry.Cluster.Cluster) (cursor : string) | BCluster (c : Registry.Cluster.Cluster)
| BAddons (addons : list Registry.Cluster.ClusterAddon) (statuses : list Registry.Cluster.AddonStatus).
Abbreviation response := (Response direct_body).

Definition given (name message : string) (k : step response) : step response := if String.eqb name "" then mret (BadRequest message) else k.
Definition both_given (namespace name : string) (k : step response) : step response :=
  if String.eqb namespace "" || String.eqb name "" then mret (BadRequest "namespace and name are required") else k.
Definition listed {A} (m : svc A) (ok : A -> response) : step response := respond m (fun e => InternalError (Error e)) ok.
Definition answered {A} (m : svc A) (ok : A -> response) : step response := respond m ErrorFromErr ok.
Definition done_with (m : svc ()) (message : string) : step response := answered m (fun _ => SuccessWithMessage message).

Definition application_List (req : res ApplicationQuery) : step response :=
  bind req (fun q => listed (ApplicationService_List q) (fun p => Success (BApplications p.1 p.2))).
Definition application_Get (namespace name : string) : step response :=
  both_given namespace name (answered (ApplicationService_Get name namespace) (fun a => Success (BApplication a))).
Definition application_Create (req : res Gateway.ApplicationObject) : step response :=
  bind req (fun a => done_with (ApplicationService_Create a) "application created successfully").
Definition with_key (namespace name : string) (a : Gateway.ApplicationObject) : Gateway.ApplicationObject :=
  Gateway.mkApplicationObject _ name namespace (Gateway.ao_ResourceVersion a) (Gateway.ao_Labels a) (Gateway.ao_Spec a) (Gateway.ao_Status a).
Definition application_Update (namespace name : string) (req : res Gateway.ApplicationObject) : step response :=
  both_given namespace name (bind req (fun a =>
    let a := with_key namespace name a in
    if String.eqb (Gateway.ao_ResourceVersion a) "" then mret (BadRequest "resourceVersion is required for update operations")
    else done_with (ApplicationService_Update a) "application updated successfully")).
Definition application_Delete (namespace name : string) : step response :=
  both_given namespace name (done_with (ApplicationService_Delete name namespace) "application deleted successfully").
Definition application_Suspend (namespace name : string) (req : res bool) : step response :=
  both_given namespace name (bind req (fun suspend =>
    done_with (ApplicationService_Suspend name namespace suspend) ("application " +:+ (if suspend then "suspended" else "resumed") +:+ " successfully"))).
(** The binding asks for required and min=0, and a number is there when it is not zero. *)
Definition scale_binding (req : res Z) : res Z :=
  r ← req;
  if r =? 0 then Err "Key: 'ScaleRequest.Replicas' Error:Field validation for 'Replicas' failed on the 'required' tag"
  else if r <? 0 then Err "Key: 'ScaleRequest.Replicas' Error:Field validation for 'Replicas' failed on the 'min' tag"
  else Ok r.
Definition application_Scale (namespace name : string) (req : res Z) : step response :=
  both_given namespace name (bind (scale_binding req) (fun replicas =>
    done_with (ApplicationService_Scale name namespace replicas) "application scaled successfully")).
Definition application_Patch (namespace name : string) (data : res string) : step response :=
  both_given namespace name
    match data with
    | Err _ => mret (BadRequest "invalid patch data")
    | Ok patch => done_with (ApplicationService_Patch name namespace patch) "application patched successfully"
    end.

Definition workspace_List (req : res WorkspaceQuery) : step response :=
  bind req (fun q => listed (WorkspaceService_List q) (fun p => Success (BWorkspaces p.1 p.2))).
Definition workspace_Get (name : string) : step response :=
  given name "workspace name is required" (answered (WorkspaceService_Get name) (fun w => Success (BWorkspace w))).
Definition workspace_Create (req : res Gateway.WorkspaceObject) : step response :=
  bind req (fun w => done_with (WorkspaceService_Create w) "workspace created successfully").
Definition with_name (name : string) (w : Gateway.WorkspaceObject) : Gateway.WorkspaceObject :=
  Gateway.mkWorkspaceObject _ name (Gateway.wo_ResourceVersion w) (Gateway.wo_Labels w) (Gateway.wo_Spec w) (Gateway.wo_Status w).
Definition workspace_Update (name : string) (req : res Gateway.WorkspaceObject) : step response :=
  given name "workspace name is required" (bind req (fun w =>
    let w := with_name name w in
    if String.eqb (Gateway.wo_ResourceVersion w) "" then mret (BadRequest "resourceVersion is required for update operations")
    else done_with (WorkspaceService_Update w) "workspace updated successfully")).
Definition workspace_Delete (name : string) : step response :=
  given name "workspace name is required" (done_with (WorkspaceService_Delete name) "workspace deleted successfully").
Definition workspace_GetClusters (name : string) : step response :=
  given name "workspace name is required"
    (answered (WorkspaceService_GetClustersByWorkspace name) (fun c => Success (BWorkspaceClusters c.1 c.2))).
Definition workspace_Patch : step response := mret (BadRequest "patch not supported for workspaces").

Definition cluster_List (req : res ClusterQuery) : step response :=
  bind req (fun q => listed (ClusterService_List q) (fun p => Success (BClusters p.1 p.2))).
Definition cluster_Get (name : string) : step response :=
  given name "cluster name is required" (answered (ClusterService_Get name) (fun c => Success (BCluster c))).
Definition cluster_Delete (name : string) : step response :=
  given name "cluster name is required" (done_with (ClusterService_Delete name) "cluster deleted successfully").
(** The binding refuses a list that is not there. *)
Definition addons_binding (req : res (option (list Registry.Cluster.ClusterAddon))) : res (option (list Registry.Cluster.ClusterAddon)) :=
  addons ← req;
  if bool_decide (is_Some addons) then Ok addons
  else Err "Key: 'UpdateAddonsRequest.Addons' Error:Field validation for 'Addons' failed on the 'required' tag".
Definition cluster_UpdateAddons (name : string) (req : res (option (list Registry.Cluster.ClusterAddon))) : step response :=
  given name "cluster name is required" (bind (addons_binding req) (fun addons =>
    done_with (ClusterService_UpdateAddons name addons) "cluster addons updated successfully")).
Definition cluster_GetAddons (name : string) : step response :=
  given name "cluster name is required" (answered (ClusterService_GetClusterAddons name) (fun c => Success (BAddons c.1 c.2))).
Definition cluster_Create : step response := mret (BadRequest "clusters are created by agents, please use approve/reject API").
Definition cluster_Update : step response := mret (BadRequest "please use /clusters/:id/addons to update cluster configuration").
Definition cluster_Patch : step response := mret (BadRequest "patch not supported for clusters").

Inductive direct_request :=
| ListApplicationsR (req : res ApplicationQuery) | GetApplicationR (namespace name : string) | CreateApplicationR (req : res Gateway.ApplicationObject)
| UpdateApplicationR (namespace name : string) (req : res Gateway.ApplicationObject) | DeleteApplicationR (namespace name : string)
| SuspendApplicationR (namespace name : string) (req : res bool) | ScaleApplicationR (namespace name : string) (req : res Z)
| PatchApplicationR (namespace name : string) (data : res string)
| ListWorkspacesR (req : res WorkspaceQuery) | GetWorkspaceR (name : string) | CreateWorkspaceR (req : res Gateway.WorkspaceObject)
| UpdateWorkspaceR (name : string) (req : res Gateway.WorkspaceObject) | DeleteWorkspaceR (name : string) | GetWorkspaceClustersR (name : string)
| PatchWorkspaceR
| ListClustersR (req : res ClusterQuery) | GetClusterR (name : string) | DeleteClusterR (name : string)
| UpdateAddonsR (name : string) (req : res (option (list Registry.Cluster.ClusterAddon))) | GetAddonsR (name : string)
| CreateClusterR | UpdateClusterR | PatchClusterR.

Definition serve_direct (r : direct_request) : step response :=
  match r with
  | ListApplicationsR req => application_List req | GetApplicationR ns name => application_Get ns name
  | CreateApplicationR req => application_Create req | UpdateApplicationR ns name req => application_Update ns name req
  | DeleteApplicationR ns name => application_Delete ns name | SuspendApplicationR ns name req => application_Suspend ns name req
  | ScaleApplicationR ns name req => application_Scale ns name req | PatchApplicationR ns name data => application_Patch ns name data
  | ListWorkspacesR req => workspace_List req | GetWorkspaceR name => workspace_Get name | CreateWorkspaceR req => workspace_Create req
  | UpdateWorkspaceR name req => workspace_Update name req | DeleteWorkspaceR name => workspace_Delete name
  | GetWorkspaceClustersR name => workspace_GetClusters name | PatchWorkspaceR => workspace_Patch
  | ListClustersR req => cluster_List req | GetClusterR name => cluster_Get name | DeleteClusterR name => cluster_Delete name
  | UpdateAddonsR name req => cluster_UpdateAddons name req | GetAddonsR name => cluster_GetAddons name
  | CreateClusterR => cluster_Create | UpdateClusterR => cluster_Update | PatchClusterR => cluster_Patch
  end.
End direct.

(** ** What a request does *)

Section outcome.
Context `{ApiReasons, DirectClient}.
Abbreviation step := (action (dbstore org hub)).
Abbreviation effect := (hub -> hub * option string).
Implicit Types (s : dbstore org hub) (f : effect).

(** The status a class of errors is answered with. *)
Definition reason_status (e : string) : Z :=
  if NotFoundReason e then 404 else if ConflictReason e || AlreadyExistsReason e then 409 else if BadRequestReason e then 400
  else if ForbiddenReason e then 403 else if UnauthorizedReason e then 401 else 500.
Definition reading {A} (f : hub -> hub * res A) : effect := fun h => ((f h).1, match (f h).2 with Ok _ => None | Err e => Some e end).
Definition only_if (b : bool) f : option effect := if b then Some f else None.
Definition received {A} (req : res A) (k : A -> option effect) : option effect := match req with Ok a => k a | Err _ => None end.
Definition present (name : string) : bool := negb (String.eqb name "").

(** The call of the client that a request stands for, if it is one. *)
Definition engine_call (r : direct_request) : option effect :=
  match r with
  | ListApplicationsR req => received req (fun q =>
      Some (reading (ListApplications (mkOptions (nonempty (aq_Namespace q)) (positive_ (aq_Limit q)) (nonempty (aq_Continue q))))))
  | GetApplicationR ns name => only_if (present ns && present name) (reading (GetApplication ns name))
  | CreateApplicationR req => received req (fun a => Some (CreateApplication a))
  | UpdateApplicationR ns name req => received req (fun a =>
      only_if (present ns && present name && present (Gateway.ao_ResourceVersion a)) (UpdateApplication (with_key ns name a)))
  | DeleteApplicationR ns name => only_if (present ns && present name) (DeleteApplication ns name)
  | SuspendApplicationR ns name req => received req (fun b => only_if (present ns && present name) (PatchApplication ns name (json_bytes (suspend_patch b))))
  | ScaleApplicationR ns name req => received req (fun n => only_if (present ns && present name && (0 <? n)) (PatchApplication ns name (json_bytes (scale_patch n))))
  | PatchApplicationR ns name data => received data (fun patch => only_if (present ns && present name) (PatchApplication ns name patch))
  | ListWorkspacesR req => received req (fun q => Some (reading (ListWorkspaces (mkOptions None (positive_ (wq_Limit q)) (nonempty (wq_Continue q))))))
  | GetWorkspaceR name | GetWorkspaceClustersR name => only_if (present name) (reading (GetWorkspace name))
  | CreateWorkspaceR req => received req (fun w => Some (CreateWorkspace w))
  | UpdateWorkspaceR name req => received req (fun w => only_if (present name && present (Gateway.wo_ResourceVersion w)) (UpdateWorkspace (with_name name w)))
  | DeleteWorkspaceR name => only_if (present name) (DeleteWorkspace name)
  | ListClustersR req => received req (fun q => Some (reading (ListClusters (mkOptions None (positive_ (cq_Limit q)) (nonempty (cq_Continue q))))))
  | GetClusterR name | GetAddonsR name => only_if (present name) (reading (GetCluster name))
  | DeleteClusterR name => only_if (present name) (DeleteCluster name)
  | UpdateAddonsR name req => received req (fun addons => only_if (present name && bool_decide (is_Some addons)) (PatchCluster name (json_bytes (addons_patch addons))))
  | PatchWorkspaceR | CreateClusterR | UpdateClusterR | PatchClusterR => None
  end.
Definition is_list (r : direct_request) : bool := match r with ListApplicationsR _ | ListWorkspacesR _ | ListClustersR _ => true | _ => false end.

(** [m] ends and does what [c] stands for, with the status of its result. *)
Definition stands_for (m : step (Response direct_body)) (c : option effect) (status : string -> Z) : Prop := forall s,
  wp m (fun s' r => exists resp, r = Ok resp /\ g_db s' = g_db s /\
    match c with
    | None => s' = s /\ Status resp = 400
    | Some f => g_outside s' = (f (g_outside s)).1 /\ Status resp = match (f (g_outside s)).2 with None => 200 | Some e => status e end
    end) s.

Lemma refuses message status : stands_for (mret (BadRequest message)) None status.
Proof. intros s. apply wp_ret. by exists (BadRequest message). Qed.
Lemma wrapped_status {D} e message : @Status D (ErrorFromErr (wrapK8sError e message)) = reason_status e.
Proof.
  unfold wrapK8sError, reason_status. destruct (NotFoundReason e); [done|]. destruct (ConflictReason e); [done|]. cbn [orb].
  by destruct (AlreadyExistsReason e), (BadRequestReason e), (ForbiddenReason e), (UnauthorizedReason e).
Qed.

(** A read, and what is made of its result. *)
Lemma responds_to_read {A} (f : hub -> hub * res A) message (err : error -> Response direct_body) ok status :
  (forall a, Status (ok a) = 200) -> (forall e, Status (err (wrapK8sError e message)) = status e) ->
  stands_for (respond (reads f message) err ok) (Some (reading f)) status.
Proof.
  intros Hok Herr s. apply wp_bind, wp_bind, wp_attempt, wp_returns. unfold outside, reading. destruct (f (g_outside s)) as [h [a|e]].
  - exists (ok a). split; [done|]. split; [done|]. split; [done|apply Hok].
  - exists (err (wrapK8sError e message)). split; [done|]. split; [done|]. split; [done|apply Herr].
Qed.
Lemma respond_then {A B} (m : svc org hub A) (g : A -> B) (err : error -> Response direct_body) ok c status :
  stands_for (respond m err (fun a => ok (g a))) c status -> stands_for (respond ((a ← m; mret (g a)) : svc org hub B) err ok) c status.
Proof.
  intros Hm s. specialize (Hm s). apply wp_bind, wp_bind. apply wp_bind in Hm. eapply wp_mono; [exact Hm|]. intros s' [[e|a]|e] Hr; [exact Hr|exact Hr|exact Hr].
Qed.
Lemma answers_write f message text : stands_for (done_with (writes f message) text) (Some f) reason_status.
Proof.
  intros s. apply wp_bind, wp_bind, wp_attempt, wp_check. unfold outside. destruct (f (g_outside s)) as [h [e|]].
  - eexists. split; [done|]. split; [done|]. split; [done|apply wrapped_status].
  - by exists (SuccessWithMessage text).
Qed.

Lemma given_stands name message k c status : stands_for k c status -> stands_for (given name message k) (if present name then c else None) status.
Proof. intros Hk. unfold given, present. destruct (String.eqb name ""); [apply refuses|exact Hk]. Qed.
Lemma both_stand ns name k c status : stands_for k c status -> stands_for (both_given ns name k) (if present ns && present name then c else None) status.
Proof. intros Hk. unfold both_given, present. destruct (String.eqb ns ""), (String.eqb name ""); cbn; [apply refuses..|exact Hk]. Qed.
Lemma bind_stands {A} (req : res A) k c status : (forall a, stands_for (k a) (c a) status) -> stands_for (bind req k) (received req c) status.
Proof. intros Hk. destruct req as [a|e]; [apply Hk|apply refuses]. Qed.
Lemma required_stands v message k c status : stands_for k (Some c) status ->
  stands_for (if String.eqb v "" then mret (BadRequest message) else k) (if present v then Some c else None) status.
Proof. intros Hk. unfold present. destruct (String.eqb v ""); [apply refuses|exact Hk]. Qed.
Lemma stands_eq m c c' status : stands_for m c status -> c = c' -> stands_for m c' status.
Proof. by intros ? <-. Qed.


(** An application cannot be scaled to zero: the binding takes the number for absent. *)
Theorem scale_to_zero_is_refused ns name s : present ns && present name = true ->
  exists message, serve_direct (ScaleApplicationR ns name (Ok 0)) s = Ret (s, Ok (BadRequest message)).
Proof.
  unfold present. intros [Hns Hname]%andb_prop. apply negb_true_iff in Hns, Hname. cbn. unfold application_Scale, both_given. rewrite Hns, Hname. cbn.
  by eexists.
Qed.
End outcome.

(** ** Merge patches *)

Definition fields (j : json) : gmap string json := match j with JObj m => m | _ => ∅ end.
Definition field (j : json) (name : string) : option json := fields j !! name.

(** RFC 7386, on documents of a bounded depth. *)
Definition patched (f : json -> json -> json) (old new : option json) : option json :=
  match new with None => old | Some JNull => None | Some new => Some (f (default JNull old) new) end.
Fixpoint merge_patch (depth : nat) (target patch : json) : json :=
  match depth, patch with
  | S depth, JObj p => JObj (merge (patched (merge_patch depth)) (fields target) p)
  | _, _ => patch
  end.

Lemma field_merge f (t p : gmap string json) k : merge (patched f) t p !! k = patched f (t !! k) (p !! k).
Proof. rewrite lookup_merge. unfold diag_None. by destruct (t !! k), (p !! k) as [[]|]. Qed.

(** A patch of one field of the spec. *)
Lemma spec_patch_changes_one_field name value target : (forall m, value <> JObj m) -> value <> JNull ->
  let target' := merge_patch 3 target (obj [("spec", obj [(name, value)])]) in
  (forall other, other <> "spec" -> field target' other = field target other) /\
  field (default JNull (field target' "spec")) name = Some value /\
  forall other, other <> name -> field (default JNull (field target' "spec")) other = field (default JNull (field target "spec")) other.
Proof.
  intros Hobj Hnull. unfold obj, field. cbn [merge_patch list_to_map foldr fields]. cbv zeta. split_and!.
  - intros other Ho. rewrite field_merge. change (list_to_map [("spec", ?v)]) with (<["spec" := v]> (∅ : gmap string json)). by rewrite lookup_insert_ne.
  - rewrite field_merge. change (list_to_map [("spec", ?v)]) with (<["spec" := v]> (∅ : gmap string json)). rewrite lookup_insert_eq. cbn.
    rewrite field_merge. change (list_to_map [(name, ?v)]) with (<[name := v]> (∅ : gmap string json)). rewrite lookup_insert_eq. destruct value; try done. by edestruct Hobj.
  - intros other Ho. rewrite field_merge. change (list_to_map [("spec", ?v)]) with (<["spec" := v]> (∅ : gmap string json)). rewrite lookup_insert_eq. cbn.
    rewrite field_merge. change (list_to_map [(name, ?v)]) with (<[name := v]> (∅ : gmap string json)). by rewrite lookup_insert_ne.
Qed.

(** Suspending and scaling touch one field of the spec and nothing else of an application. *)
Theorem patches_change_one_field target :
  (forall suspend, let target' := merge_patch 3 target (suspend_patch suspend) in
     (forall other, other <> "spec" -> field target' other = field target other) /\
     field (default JNull (field target' "spec")) "suspend" = Some (JBool suspend) /\
     forall other, other <> "suspend" -> field (default JNull (field target' "spec")) other = field (default JNull (field target "spec")) other) /\
  (forall replicas, let target' := merge_patch 3 target (scale_patch replicas) in
     (forall other, other <> "spec" -> field target' other = field target other) /\
     field (default JNull (field target' "spec")) "replicas" = Some (JInt replicas) /\
     forall other, other <> "replicas" -> field (default JNull (field target' "spec")) other = field (default JNull (field target "spec")) other).
Proof. split; intros x; by apply spec_patch_changes_one_field. Qed.
