(* ===== verification/Tunnel.v ===== *)
(** * The tunnel and the proxy of the manager

    internal/manager/apiserver/handler/handler.go, and the handler chain of
    internal/manager/apiserver/apiserver.go: an agent opens a tunnel with the bootstrap
    token of its cluster, and requests below /proxy/ reach the API server of a cluster
    through its tunnel, or through that of another manager. *)

From S2P Require Import Prelude Api Manifest ClientManager ClusterController Wp GoStrings.
From Stdlib Require Import Ascii.

(** Of a Secret with a bootstrap token, what is looked at. *)
Record TokenSecret := mkTokenSecret { ts_Type : string; ts_Annotations : gmap string string; ts_Data : gmap string string }.

(** The hub's tokens and endpoints, other managers, and the functions of the libraries. *)
Class TunnelRuntime `{Kubernetes, ApiErrors, !ClusterHub, !Network} := {
  th_GetTokenSecret : string -> string -> chub -> chub * res TokenSecret;       (* namespace, name *)
  th_GetEndpoints : string -> string -> chub -> chub * res (list (list string));  (* the addresses of each subset *)
  (** The status of a GET of /internal/check at an address, for a cluster. *)
  peer_check : string -> string -> net -> net * res Z;
  POD_IP : string;
  IsValidBootstrapToken : string -> bool;
  BootstrapTokenSecretName : string -> string;
  sha256_hex : string -> string;
  ParseRFC3339 : string -> option Z;
  (** Scheme, host and host name; [None] is an error. *)
  url_Parse : string -> option (string * string * string);
  AppendCertsFromPEM : string -> bool;
}.
(** [^([a-z0-9]{6})\.([a-z0-9]{16})$] *)
Class TunnelRuntimeLaws `{Kubernetes, ApiErrors, !ClusterHub, !Network} (T : TunnelRuntime) : Prop := {
  valid_token_form token : IsValidBootstrapToken token = true -> exists id secret,
    token = id +:+ "." +:+ secret /\ free_of "."%char id = true /\ free_of "."%char secret = true /\ free_of " "%char token = true;
}.

Section tunnel.
Context `{Kubernetes, ApiErrors, !ClusterHub, !Network, !TunnelRuntime}.

Record tunnel_world := mkTunnelWorld { tw_hub : chub; tw_net : net }.
Definition on_hub {A} (f : chub -> chub * A) (w : tunnel_world) : tunnel_world * A :=
  let '(h, a) := f (tw_hub w) in (mkTunnelWorld h (tw_net w), a).
Definition on_net {A} (f : net -> net * A) (w : tunnel_world) : tunnel_world * A :=
  let '(n, a) := f (tw_net w) in (mkTunnelWorld (tw_hub w) n, a).
Definition has_session (name : string) (w : tunnel_world) : tunnel_world * bool := (w, HasSession name (tw_net w)).
Abbreviation step := (action tunnel_world).

(** Headers and the query by name, empty for what is not there. *)
Record Request := mkRequest { rq_Path : string; rq_Query : string -> string; rq_Header : string -> string }.

(** ** Bootstrap tokens *)

Definition bootstrapClusterAnnotation : string := "cluster.kumquat.io/bootstrap-cluster-name".
Definition SecretTypeBootstrapToken : string := "bootstrap.kubernetes.io/token".

Definition bootstrapTokenIDForCluster (clusterName : string) : string := String.substring 0 6 (sha256_hex clusterName).

(** [None] is a token that is not valid. *)
Definition check_token_secret (now : Z) (tokenID tokenSecret : string) (s : TokenSecret) : option string :=
  let data := get_str (ts_Data s) in
  if negb (String.eqb (ts_Type s) SecretTypeBootstrapToken) then None else
  if negb (String.eqb (data "token-secret") tokenSecret) then None else
  if negb (String.eqb (data "usage-bootstrap-authentication") "true") then None else
  let clusterName := get_str (ts_Annotations s) bootstrapClusterAnnotation in
  if String.eqb clusterName "" then None else
  if negb (String.eqb tokenID (bootstrapTokenIDForCluster clusterName)) then None else
  if negb (String.eqb (data "auth-extra-groups") ("system:bootstrappers:engine-agent:" +:+ clusterName)) then None else
  match ts_Data s !! "expiration" with
  | Some expiration =>
      match ParseRFC3339 expiration with
      | Some expTime => if expTime <? now then None else Some clusterName
      | None => None
      end
  | None => Some clusterName
  end.
Definition validateBootstrapToken (now : Z) (token : string) : step (option string) :=
  if negb (IsValidBootstrapToken token) then mret None else
  match Split "."%char token with
  | [tokenID; tokenSecret] =>
      x ← call (on_hub (th_GetTokenSecret "kube-system" (BootstrapTokenSecretName tokenID)));
      mret (match x with Ok s => check_token_secret now tokenID tokenSecret s | Err _ => None end)
  | _ => mret None
  end.

Definition authorizeClusterHeaders (header : string -> string) (claimedCluster : string) : res string :=
  let remoteDialerID := header "X-Remotedialer-ID" in let clusterName := header "X-Kumquat-Cluster-Name" in
  if String.eqb clusterName "" || String.eqb remoteDialerID "" then Err "cluster name required" else
  if negb (String.eqb clusterName remoteDialerID) || negb (String.eqb clusterName claimedCluster) then Err "cluster identity mismatch"
  else Ok clusterName.

(** The authorizer of [NewRemoteDialerServer]: the name of the session. *)
Definition authorizer (now : Z) (header : string -> string) : step string :=
  if String.eqb (header "Authorization") "" then fail "authorization header required" else
  match Split " "%char (header "Authorization") with
  | [scheme; token] =>
      if negb (String.eqb scheme "Bearer") then fail "invalid authorization header format" else
      claimed ← validateBootstrapToken now token;
      match claimed with
      | None => fail "invalid bootstrap token"
      | Some claimedCluster =>
          clusterName ← of_res (authorizeClusterHeaders header claimedCluster);
          x ← call (on_hub (ch_Get clusterName));
          match x with Ok _ => mret clusterName | Err _ => fail "cluster not found" end
      end
  | _ => fail "invalid authorization header format"
  end.

(** ** The handlers *)

(** Where a request goes through a tunnel: the rewritten URL, the pool of root
    certificates where it is not the system's, and the header of authorization. *)
Record forward := mkForward {
  fw_Cluster : string; fw_Scheme : string; fw_Host : string; fw_Path : string; fw_RootCAs : option string; fw_ServerName : string;
  fw_Authorization : string }.
Inductive reply :=
| Tunnel (session : string)                  (* the connection has become the tunnel of a cluster *)
| Refused (text : string)                    (* by the authorizer *)
| Status (code : Z)
| Error (text : string) (code : Z)
| Forwarded (f : forward)
| ToPeer (ip : string)                       (* the same path and query at another manager *)
| Authenticated.                             (* left to the authentication and authorization of the API server *)

Definition connect (now : Z) (req : Request) : step reply :=
  x ← attempt (authorizer now (rq_Header req));
  mret (match x with Ok name => Tunnel name | Err e => Refused e end).

Definition internal_check (req : Request) : step reply :=
  b ← call (has_session (rq_Query req "cluster"));
  mret (Status (if (b : bool) then 200 else 404)).

Definition getPeers (namespace serviceName : string) : step (list string) :=
  subsets ← returns (on_hub (th_GetEndpoints namespace serviceName));
  mret (filter (fun ip => ip ≠ POD_IP) (concat subsets)).
Fixpoint peer_loop (clusterName : string) (peers : list string) : step (option string) :=
  match peers with
  | [] => mret None
  | ip :: peers =>
      x ← call (on_net (peer_check ip clusterName));
      match x with
      | Ok code => if code =? 200 then mret (Some ip) else peer_loop clusterName peers
      | Err _ => peer_loop clusterName peers
      end
  end.

(** The CA and the token of a cluster, empty where its Secret cannot be read. *)
Definition tunnel_credentials (ns : string) (cluster : ManagedCluster) : step (string * string) :=
  match SecretRef (mc_Access cluster) with
  | Some name =>
      x ← attempt (returns (on_hub (ch_GetSecret ns name)));
      mret (match x with Ok s => (get_str (sec_Data s) "caData", get_str (sec_Data s) "token") | Err _ => ("", "") end)
  | None => mret ("", "")
  end.

Definition proxy_namespace (req : Request) : string :=
  if String.eqb (rq_Query req "namespace") "" then DefaultNamespace else rq_Query req "namespace".
(** The cluster of a path below /proxy/, and the path there. *)
Definition proxy_target (path : string) : string * string :=
  let '(name, rest) := Cut "/"%char (TrimPrefix path "/proxy/") in (name, "/" +:+ default "" rest).

(** Through the tunnel of the cluster. *)
Definition forward_to (req : Request) (cluster : ManagedCluster) (clusterName targetPath caData token : string) : step reply :=
  match url_Parse (if String.eqb (APIServerURL (mc_State cluster)) "" then DefaultAPIServerURL else APIServerURL (mc_State cluster)) with
  | None => fun _ => Panic                                              (* [u.Hostname()] of a nil URL *)
  | Some (scheme, host, hostname) =>
      mret (Forwarded (mkForward clusterName scheme host targetPath
        (if negb (String.eqb caData "") && AppendCertsFromPEM caData then Some caData else None) hostname
        (if String.eqb token "" then rq_Header req "Authorization" else "Bearer " +:+ token)))
  end.
(** Through another manager. *)
Definition ask_peers (ns clusterName : string) : step reply :=
  peers ← attempt (getPeers ns "kumquat-apiserver");
  found ← (match peers with Ok peers => peer_loop clusterName peers | Err _ => mret None end : step (option string));
  mret (match found with
        | Some ip => ToPeer ip
        | None => Error ("Cluster " +:+ clusterName +:+ " not connected") 503
        end).
Definition proxy (req : Request) : step reply :=
  let ns := proxy_namespace req in
  let '(clusterName, targetPath) := proxy_target (rq_Path req) in
  x ← attempt (returns (on_hub (ch_Get clusterName)));
  match x with
  | Err _ => mret (Error ("Cluster " +:+ clusterName +:+ " not found") 404)
  | Ok cluster =>
      connected ← call (has_session clusterName);
      if (connected : bool) then
        creds ← tunnel_credentials ns cluster;
        forward_to req cluster clusterName targetPath creds.1 creds.2
      else ask_peers ns clusterName
  end.

(** [InstallHandler], behind the chain of [BuildHandlerChainFunc]: these paths are served
    before any filter of the API server. *)
Definition serve (now : Z) (req : Request) : step reply :=
  if String.eqb (rq_Path req) "/connect" then connect now req
  else if HasPrefix (rq_Path req) "/proxy/" then proxy req
  else if String.eqb (rq_Path req) "/internal/check" then internal_check req
  else mret Authenticated.
End tunnel.

(** ** Who may open a tunnel, and who may use one

    A tunnel takes the name of a cluster exactly with the token that has been issued for
    it; the proxy through the tunnels asks its callers for nothing. *)

Section spec.
Context `{Kubernetes, ApiErrors, !ClusterHub, !Network, TR : !TunnelRuntime, !TunnelRuntimeLaws TR}.
Implicit Types (w : tunnel_world) (header : string -> string) (req : Request).

(** ** Tokens *)

(** A Secret that makes the token [id].[secret] one for the tunnel of a cluster, now. *)
Record issued (now : Z) (id secret name : string) (s : TokenSecret) : Prop := {
  issued_type : ts_Type s = SecretTypeBootstrapToken;
  issued_secret : get_str (ts_Data s) "token-secret" = secret;
  issued_usage : get_str (ts_Data s) "usage-bootstrap-authentication" = "true";
  issued_name : get_str (ts_Annotations s) bootstrapClusterAnnotation = name;
  issued_named : name ≠ "";
  issued_id : id = bootstrapTokenIDForCluster name;
  issued_group : get_str (ts_Data s) "auth-extra-groups" = "system:bootstrappers:engine-agent:" +:+ name;
  issued_expiration : forall e, ts_Data s !! "expiration" = Some e -> exists t, ParseRFC3339 e = Some t /\ now <= t;
}.

Ltac refuse := split; [done|intros []; congruence].

Lemma check_token_secret_iff now id secret name s : check_token_secret now id secret s = Some name <-> issued now id secret name s.
Proof.
  unfold check_token_secret. cbv zeta.
  destruct (String.eqb_spec (ts_Type s) SecretTypeBootstrapToken) as [Et|]; [cbn [negb]|by refuse].
  destruct (String.eqb_spec (get_str (ts_Data s) "token-secret") secret) as [Es|]; [cbn [negb]|by refuse].
  destruct (String.eqb_spec (get_str (ts_Data s) "usage-bootstrap-authentication") "true") as [Eu|]; [cbn [negb]|by refuse].
  destruct (String.eqb_spec (get_str (ts_Annotations s) bootstrapClusterAnnotation) "") as [|En]; [by refuse|].
  destruct (String.eqb_spec id (bootstrapTokenIDForCluster (get_str (ts_Annotations s) bootstrapClusterAnnotation))) as [Ei|]; [cbn [negb]|by refuse].
  destruct (String.eqb_spec (get_str (ts_Data s) "auth-extra-groups") ("system:bootstrappers:engine-agent:" +:+ get_str (ts_Annotations s) bootstrapClusterAnnotation))
    as [Eg|]; [cbn [negb]|by refuse].
  assert ((exists e, ts_Data s !! "expiration" = Some e /\ forall t, ParseRFC3339 e = Some t -> t < now) -> ~ issued now id secret name s) as Hold.
  { intros (e & Ee & Ht) []. destruct (issued_expiration0 _ Ee) as (t & Ep & ?). specialize (Ht _ Ep). lia. }
  assert ((forall e, ts_Data s !! "expiration" = Some e -> exists t, ParseRFC3339 e = Some t /\ now <= t) ->
    Some (get_str (ts_Annotations s) bootstrapClusterAnnotation) = Some name <-> issued now id secret name s) as Hnew.
  { intros Hx. split; [by intros [= <-]|]. intros []. congruence. }
  destruct (ts_Data s !! "expiration") as [e|]; [|by apply Hnew].
  destruct (ParseRFC3339 e) as [t|] eqn:Ep; [destruct (Z.ltb_spec t now)|].
  - split; [done|]. intros Hi. exfalso. apply (Hold ltac:(exists e; split; [done|intros ? ?; by simplify_eq]) Hi).
  - apply Hnew. intros ? [= <-]. by exists t.
  - split; [done|]. intros Hi. exfalso. apply (Hold ltac:(exists e; split; [done|intros ? ?; by simplify_eq]) Hi).
Qed.

(** The token is one for the tunnel of the cluster, by the Secret that is read. *)
Definition token_of (now : Z) (token name : string) w : Prop :=
  IsValidBootstrapToken token = true /\ exists id secret s, token = id +:+ "." +:+ secret /\
    free_of "."%char id = true /\ free_of "."%char secret = true /\
    (th_GetTokenSecret "kube-system" (BootstrapTokenSecretName id) (tw_hub w)).2 = Ok s /\ issued now id secret name s.

Lemma validateBootstrapToken_spec now token (Q : tunnel_world -> res (option string) -> Prop) w :
  (forall w' claimed, (forall name, claimed = Some name <-> token_of now token name w) -> Q w' (Ok claimed)) ->
  wp (validateBootstrapToken now token) Q w.
Proof.
  intros HQ. unfold validateBootstrapToken. destruct (IsValidBootstrapToken token) eqn:Ev; cbn [negb].
  2:{ apply wp_ret, HQ. intros name. split; [done|by intros [? _]; congruence]. }
  destruct (valid_token_form token Ev) as (id & secret & Et & Hi & Hs & _). subst token. rewrite (proj2 (Split_two "."%char _ id secret)) by done.
  apply wp_bind, wp_call, wp_ret, HQ. intros name. unfold on_hub. unfold token_of.
  destruct (th_GetTokenSecret _ _ _) as [h [s|e]] eqn:Eg; cbn [fst snd].
  - rewrite check_token_secret_iff. split.
    + intros Hn. split; [done|]. exists id, secret, s. by rewrite Eg.
    + intros [_ (id' & secret' & s' & Et & Hi' & Hs' & Eg' & Hn)]. assert (Split "."%char (id +:+ String "."%char secret) = [id'; secret']) as E.
      { apply Split_two. split; [exact Et|done]. }
      rewrite (proj2 (Split_two "."%char _ id secret)) in E by done. injection E as <- <-. rewrite Eg in Eg'. by injection Eg' as <-.
  - split; [done|]. intros [_ (id' & secret' & s' & Et & Hi' & Hs' & Eg' & Hn)]. assert (Split "."%char (id +:+ String "."%char secret) = [id'; secret']) as E.
    { apply Split_two. split; [exact Et|done]. }
    rewrite (proj2 (Split_two "."%char _ id secret)) in E by done. injection E as <- <-. by rewrite Eg in Eg'.
Qed.

Lemma authorizeClusterHeaders_iff header claimed name : authorizeClusterHeaders header claimed = Ok name <->
  name = claimed /\ name ≠ "" /\ header "X-Kumquat-Cluster-Name" = name /\ header "X-Remotedialer-ID" = name.
Proof.
  unfold authorizeClusterHeaders. cbv zeta. destruct (String.eqb_spec (header "X-Kumquat-Cluster-Name") "") as [E1|E1]; cbn [orb].
  { split; [done|]. intros (_ & Hn & <- & _). done. }
  destruct (String.eqb_spec (header "X-Remotedialer-ID") "") as [E2|E2]; cbn [orb].
  { split; [done|]. intros (_ & Hn & _ & <-). done. }
  destruct (String.eqb_spec (header "X-Kumquat-Cluster-Name") (header "X-Remotedialer-ID")) as [E3|E3]; cbn [orb negb].
  2:{ split; [done|]. intros (_ & _ & ? & ?). congruence. }
  destruct (String.eqb_spec (header "X-Kumquat-Cluster-Name") claimed) as [E4|E4]; cbn [orb negb].
  - split; [intros [= <-]; by split_and!|]. by intros (_ & _ & <- & _).
  - split; [done|]. intros (-> & _ & ? & _). congruence.
Qed.

(** What opens the tunnel of a cluster: a bearer of the token issued for it, that names
    it in both headers, while the hub has the cluster. *)
Definition may_open (now : Z) header name w : Prop := exists token h,
  header "Authorization" = "Bearer " +:+ token /\ token_of now token name w /\
  header "X-Kumquat-Cluster-Name" = name /\ header "X-Remotedialer-ID" = name /\ (exists cluster, (ch_Get name h).2 = Ok cluster).

(** C14: A tunnel is opened in the name of a cluster only by a bearer of the bootstrap
    token that has been issued for this cluster and has not expired, who gives this name
    in both headers, while the cluster exists; anything else is refused, and nothing
    panics. *)
Theorem tunnel_names_its_cluster now header w :
  wp (authorizer now header) (fun _ x => forall name, x = Ok name -> may_open now header name w) w.
Proof.
  unfold authorizer. destruct (String.eqb _ ""); [by apply wp_fail|]. destruct (Split " "%char _) as [|scheme [|token [|? ?]]] eqn:Esp; try by apply wp_fail.
  destruct (String.eqb_spec scheme "Bearer") as [->|]; [cbn [negb]|by apply wp_fail]. apply Split_two in Esp as (Eh & _ & Ht).
  apply wp_bind, validateBootstrapToken_spec. intros w1 [claimed|] Hc; [|by apply wp_fail]. apply wp_bind, wp_of_res.
  destruct (authorizeClusterHeaders header claimed) as [name|e] eqn:Ea; [|done]. apply authorizeClusterHeaders_iff in Ea as (-> & Hn & Hh1 & Hh2).
  apply wp_bind, wp_call. unfold on_hub. destruct (ch_Get claimed (tw_hub w1)) as [h [cluster|e]] eqn:Eg; cbn [fst snd]; [|by apply wp_fail].
  apply wp_ret. intros ? [= <-]. exists token, (tw_hub w1). split; [exact Eh|]. split; [by apply Hc|]. split_and!; [done..|]. exists cluster. by rewrite Eg.
Qed.

(** The name of a session is that of the header. *)
Lemma authorizer_names_header now header w :
  wp (authorizer now header) (fun _ x => forall name, x = Ok name -> header "X-Kumquat-Cluster-Name" = name) w.
Proof.
  unfold authorizer. destruct (String.eqb _ ""); [by apply wp_fail|]. destruct (Split " "%char _) as [|scheme [|token [|? ?]]]; try by apply wp_fail.
  destruct (negb _); [by apply wp_fail|]. apply wp_bind, validateBootstrapToken_spec. intros w1 [claimed|] _; [|by apply wp_fail].
  apply wp_bind, wp_of_res. destruct (authorizeClusterHeaders header claimed) as [name|e] eqn:Ea; [|done].
  apply authorizeClusterHeaders_iff in Ea as (-> & _ & Hh & _). apply wp_bind, wp_call.
  destruct (on_hub _ _) as [? [?|?]]; [apply wp_ret; by intros ? [= <-]|by apply wp_fail].
Qed.

(** The hub answers with the cluster once the token has been looked up. *)
Definition cluster_found (now : Z) (token name : string) w : Prop :=
  wp (validateBootstrapToken now token) (fun w' _ => exists cluster, (ch_Get name (tw_hub w')).2 = Ok cluster) w.

(** The converse: with that token and the headers the tunnel opens, when the hub answers
    with the cluster. *)
Lemma issued_token_opens now header token name w : header "Authorization" = "Bearer " +:+ token -> token_of now token name w ->
  header "X-Kumquat-Cluster-Name" = name -> header "X-Remotedialer-ID" = name ->
  cluster_found now token name w -> wp (authorizer now header) (fun _ x => x = Ok name) w.
Proof.
  intros Eh Ht Hh1 Hh2 Hg. pose proof Ht as [Hv (id & secret & s & Et & Hi & Hs & Es & Hissued)]. unfold authorizer. rewrite Eh. cbn [String.eqb].
  assert (Split " "%char ("Bearer " +:+ token) = ["Bearer"; token]) as ->.
  { apply (Split_two " "%char _ "Bearer" token). split; [done|]. split; [done|]. by destruct (valid_token_form token Hv) as (? & ? & ? & ? & ? & ?). }
  rewrite String.eqb_refl. cbn [negb]. apply wp_bind. eapply wp_mono; [apply wp_and; [exact Hg|]|].
  { apply (validateBootstrapToken_spec now token (fun _ x => x = Ok (Some name))). intros w1 claimed Hc. by rewrite (proj2 (Hc name) Ht). }
  intros w1 x [[cluster Ec] ->]. apply wp_bind, wp_of_res. rewrite (proj2 (authorizeClusterHeaders_iff header name name)) by (destruct Hissued; done).
  apply wp_bind, wp_call. unfold on_hub. destruct (ch_Get name (tw_hub w1)) as [h x]. cbn [fst snd] in *. subst x. by apply wp_ret.
Qed.

(** Clusters whose names have the same six digits of hash cannot both have a token:
    what the hub holds at a time lets at most one of them open its tunnel. *)
Theorem one_cluster_per_token_id now header1 header2 name1 name2 w : may_open now header1 name1 w -> may_open now header2 name2 w ->
  bootstrapTokenIDForCluster name1 = bootstrapTokenIDForCluster name2 -> name1 = name2.
Proof.
  intros (t1 & h1 & _ & [_ (id1 & x1 & s1 & _ & _ & _ & E1 & I1)] & _) (t2 & h2 & _ & [_ (id2 & x2 & s2 & _ & _ & _ & E2 & I2)] & _) Eid.
  destruct I1 as [_ _ _ N1 _ D1 _ _], I2 as [_ _ _ N2 _ D2 _ _]. rewrite D1, Eid, <- D2 in E1. rewrite E1 in E2. injection E2 as <-. congruence.
Qed.

(** ** The proxy *)

Lemma proxy_target_path name rest : free_of "/"%char name = true -> proxy_target ("/proxy/" +:+ name +:+ "/" +:+ rest) = (name, "/" +:+ rest).
Proof. intros Hn. unfold proxy_target. rewrite TrimPrefix_app. change ("/" +:+ rest) with (String "/"%char rest). by rewrite Cut_app. Qed.

Lemma serve_proxy now req path : rq_Path req = "/proxy/" +:+ path -> serve now req = proxy req.
Proof. intros Hp. unfold serve. rewrite Hp. done. Qed.

(** Whoever reaches the manager's port is let through to the API server of a
    connected cluster, with any path, as the service account whose token the manager
    keeps: the request needs no header at all. *)
Theorem anyone_is_proxied_with_the_managers_token now req name rest cluster secret s u w :
  free_of "/"%char name = true -> rq_Path req = "/proxy/" +:+ name +:+ "/" +:+ rest -> HasSession name (tw_net w) = true ->
  (ch_Get name (tw_hub w)).2 = Ok cluster -> SecretRef (mc_Access cluster) = Some secret ->
  (ch_GetSecret (proxy_namespace req) secret (ch_Get name (tw_hub w)).1).2 = Ok s -> get_str (sec_Data s) "token" ≠ "" ->
  url_Parse (if String.eqb (APIServerURL (mc_State cluster)) "" then DefaultAPIServerURL else APIServerURL (mc_State cluster)) = Some u ->
  wp (serve now req) (fun _ x => exists f, x = Ok (Forwarded f) /\ fw_Cluster f = name /\ fw_Path f = "/" +:+ rest /\
    fw_Host f = u.1.2 /\ fw_Authorization f = "Bearer " +:+ get_str (sec_Data s) "token") w.
Proof.
  intros Hn Hp Hs Hc Hr Hg Ht Hu. rewrite (serve_proxy _ _ _ Hp). unfold proxy. rewrite Hp, proxy_target_path by done.
  apply wp_bind, wp_attempt, wp_returns. unfold on_hub at 1 2. destruct (ch_Get name (tw_hub w)) as [h1 x]. cbn [fst snd] in Hc, Hg |- *. subst x.
  apply wp_bind, wp_call. unfold has_session. cbn [fst snd tw_net]. rewrite Hs. apply wp_bind. unfold tunnel_credentials. rewrite Hr.
  apply wp_bind, wp_attempt, wp_returns. unfold on_hub. cbn [tw_hub]. destruct (ch_GetSecret _ secret h1) as [h2 x]. cbn [fst snd] in Hg |- *. subst x.
  apply wp_ret. unfold forward_to. rewrite Hu. destruct u as [[scheme host] hostname]. apply wp_ret. eexists. split; [done|]. cbn.
  by rewrite (proj2 (String.eqb_neq _ _) Ht).
Qed.

(** How a request for a cluster is answered where the hub and the tunnels are as in [w]. *)
Definition located name w (x : res reply) : Prop :=
  match (ch_Get name (tw_hub w)).2 with
  | Err _ => x = Ok (Error ("Cluster " +:+ name +:+ " not found") 404)
  | Ok _ => if HasSession name (tw_net w) then exists f, x = Ok (Forwarded f) /\ fw_Cluster f = name
            else x = Ok (Error ("Cluster " +:+ name +:+ " not connected") 503) \/
                 exists ip n, x = Ok (ToPeer ip) /\ ip ≠ POD_IP /\ (peer_check ip name n).2 = Ok 200
  end.

End spec.

(** ** A concrete hub *)

Definition sample_token (token : string) : bool :=
  match Split "."%char token with
  | [id; secret] => (String.length id =? 6)%nat && (String.length secret =? 16)%nat && free_of " "%char token
  | _ => false
  end.
(** The token of the cluster edge-1. *)
Definition edge_secret : TokenSecret := mkTokenSecret SecretTypeBootstrapToken {[bootstrapClusterAnnotation := "edge-1"]}
  (list_to_map [("token-secret", "0123456789abcdef"); ("usage-bootstrap-authentication", "true");
                ("auth-extra-groups", "system:bootstrappers:engine-agent:edge-1"); ("expiration", "later")]).

#[export] Instance sample_tunnel : @TunnelRuntime sample_kubernetes sample_errors sample_chub sample_network := {|
  th_GetTokenSecret ns name h := (h, if String.eqb name "bootstrap-token-edge-1" then Ok edge_secret else Err "not found");
  th_GetEndpoints ns name h := (h, Ok [["10.0.0.1"; "10.0.0.2"]]);
  peer_check ip cluster n := (n, Ok (if String.eqb ip "10.0.0.2" then 200 else 404));
  POD_IP := "10.0.0.1";
  IsValidBootstrapToken := sample_token;
  BootstrapTokenSecretName id := "bootstrap-token-" +:+ id;
  sha256_hex s := s;
  ParseRFC3339 s := Some 100;
  url_Parse u := Some ("https", "kubernetes.default.svc:443", "kubernetes.default.svc");
  AppendCertsFromPEM s := true;
|}.
#[export] Instance sample_tunnel_laws : TunnelRuntimeLaws sample_tunnel.
Proof.
  split. intros token. cbn. unfold sample_token. destruct (Split _ _) as [|id [|secret [|? ?]]] eqn:E; try done.
  intros [_ Hf]%andb_prop. apply Split_two in E as (Et & Hi & Hs). by exists id, secret.
Qed.

Definition edge_1 : @ManagedCluster sample_kubernetes :=
  mkCluster "edge-1" ∅ false [] [] [] (mkAccess ∅ "Edge" "" (Some "s") []) no_state.
Definition tunnel_hub (sessions : list string) : @tunnel_world _ _ sample_chub sample_network :=
  mkTunnelWorld (mkHubObjects {["edge-1" := edge_1]} {["s" := token_secret]}) sessions.
Definition agent_headers (name : string) : string :=
  if String.eqb name "Authorization" then "Bearer edge-1.0123456789abcdef"
  else if String.eqb name "X-Kumquat-Cluster-Name" then "edge-1" else if String.eqb name "X-Remotedialer-ID" then "edge-1" else "".
Definition anonymous (name : string) : string := "".

Lemma agent_may_open sessions : may_open 50 agent_headers "edge-1" (tunnel_hub sessions).
Proof.
  exists "edge-1.0123456789abcdef", (tw_hub (tunnel_hub [])). split; [done|]. split_and!; [|done..|by exists edge_1].
  split; [reflexivity|]. exists "edge-1", "0123456789abcdef", edge_secret. split_and!; try reflexivity.
  split; try reflexivity; [done|]. intros e _. exists 100. split; [done|lia].
Qed.

Lemma tunnel_names_its_cluster_witness : exists w', authorizer 50 agent_headers (tunnel_hub []) = Ret (w', Ok "edge-1") /\
  may_open 50 agent_headers "edge-1" (tunnel_hub []).
Proof.
  pose proof (tunnel_names_its_cluster 50 agent_headers (tunnel_hub [])) as Hw. unfold wp in Hw.
  assert (exists w', authorizer 50 agent_headers (tunnel_hub []) = Ret (w', Ok "edge-1")) as [w' E] by (eexists; reflexivity).
  exists w'. split; [exact E|]. rewrite E in Hw. by apply Hw.
Defined.

Lemma one_cluster_per_token_id_witness : may_open 50 agent_headers "edge-1" (tunnel_hub []) /\ "edge-1" = "edge-1".
Proof.
  split; [apply agent_may_open|].
  exact (one_cluster_per_token_id 50 agent_headers agent_headers "edge-1" "edge-1" (tunnel_hub []) (agent_may_open []) (agent_may_open []) eq_refl).
Defined.

Definition proxied_request : Request := mkRequest "/proxy/edge-1/api/v1/secrets" anonymous anonymous.

Lemma anyone_is_proxied_with_the_managers_token_witness : rq_Header proxied_request "Authorization" = "" /\
  exists w' f, serve 50 proxied_request (tunnel_hub ["edge-1"]) = Ret (w', Ok (Forwarded f)) /\
    fw_Path f = "/api/v1/secrets" /\ fw_Authorization f = "Bearer t".
Proof.
  split; [reflexivity|].
  pose proof (anyone_is_proxied_with_the_managers_token 50 proxied_request "edge-1" "api/v1/secrets" edge_1 "s" token_secret
    ("https", "kubernetes.default.svc:443", "kubernetes.default.svc") (tunnel_hub ["edge-1"])
    eq_refl eq_refl eq_refl eq_refl eq_refl eq_refl ltac:(discriminate) eq_refl) as Hw.
  unfold wp in Hw. destruct (serve _ _ _) as [[w' x]|]; [|done]. destruct Hw as (f & -> & _ & Hp & _ & Ha). by exists w', f.
Defined.

