(* ===== verification/AgentTunnel.v ===== *)
(** * The agent's end of the tunnel

    internal/agent/cluster/agent.go: the client of the hub, the headers and the TLS
    configuration of the tunnel, and the loop that opens it again; the loop of the
    heartbeats is [StartHeartbeat] of [Agent].  Here an agent meets the authorizer of
    [Tunnel].  Last, cmd/agent/agent.go and cmd/manager/manager.go: which parts a process
    starts. *)

From S2P Require Import Prelude GoRuntime Api Manifest ClientManager ClusterController GoStrings Agent Wp Tunnel Gateway.
From Stdlib Require Import Ascii.

(** ** http.Header

    Names are kept in the form of [textproto.CanonicalMIMEHeaderKey]. *)

Definition to_upper_char (c : ascii) : ascii :=
  let n := N_of_ascii c in if (97 <=? n)%N && (n <=? 122)%N then ascii_of_N (n - 32) else c.
(** [tchar] of RFC 7230. *)
Definition header_char (c : ascii) : bool :=
  let n := N_of_ascii c in
  ((48 <=? n) && (n <=? 57) || (65 <=? n) && (n <=? 90) || (97 <=? n) && (n <=? 122))%N ||
  existsb (Ascii.eqb c) (String.list_ascii_of_string "!#$%&'*+-.^_`|~").
Fixpoint canonical (upper : bool) (s : string) : string :=
  match s with
  | "" => ""
  | String c s => String (if upper then to_upper_char c else to_lower_char c) (canonical (Ascii.eqb c "-") s)
  end.
Definition CanonicalMIMEHeaderKey (s : string) : string :=
  if forallb header_char (String.list_ascii_of_string s) then canonical true s else s.

Abbreviation Header := (gmap string (list string)).
Definition header_Set (h : Header) (key value : string) : Header := <[CanonicalMIMEHeaderKey key := [value]]> h.
Definition header_Get (h : Header) (key : string) : string :=
  match h !! CanonicalMIMEHeaderKey key with Some (v :: _) => v | _ => "" end.

Lemma header_Get_Set h key value key' : header_Get (header_Set h key value) key' =
  if String.eqb (CanonicalMIMEHeaderKey key) (CanonicalMIMEHeaderKey key') then value else header_Get h key'.
Proof.
  unfold header_Get, header_Set. destruct (String.eqb_spec (CanonicalMIMEHeaderKey key) (CanonicalMIMEHeaderKey key')) as [->|Hne];
    [by rewrite lookup_insert_eq|by rewrite lookup_insert_ne].
Qed.

(** [strings.Replace(s, old, new, 1)] for an [old] that is not empty. *)
Fixpoint Replace1 (old new s : string) : string :=
  match strip old s with
  | Some rest => new +:+ rest
  | None => match s with "" => "" | String c s => String c (Replace1 old new s) end
  end.
Lemma Replace1_prefix old new s : Replace1 old new (old +:+ s) = new +:+ s.
Proof. pose proof (strip_app old s) as E. destruct (old +:+ s) as [|c t]; cbn [Replace1]; by rewrite E. Qed.

(** ** The agent's host *)

Record RestConfig := mkRestConfig { rest_Host : string; rest_CAFile : string; rest_BearerTokenFile : string }.
Record TLSConfig := mkTLS { tls_RootCAs : string; tls_ServerName : string; tls_MinVersion : Z }.
(** What [remotedialer.ClientConnect] is given. *)
Record Dial := mkDial { dial_URL : string; dial_Headers : Header; dial_TLS : TLSConfig }.

Class AgentRuntime := {
  ahost : Type;
  ReadFile : string -> ahost -> ahost * res string;
  ctx_done : ahost -> ahost * bool;
  (** Returns when the tunnel is closed, with the error if it was one. *)
  ClientConnect : Dial -> ahost -> ahost * option string;
  Sleep : Z -> ahost -> ahost;                               (* nanoseconds *)
  inClusterConfig : res RestConfig;
  client_New : RestConfig -> option string;                 (* the error, if any *)
}.

(** ** The client of the hub *)

Section client.
Context `{AgentRuntime}.
Implicit Types opts : AgentOptions.

Definition hub_config (opts : AgentOptions) : res RestConfig :=
  if negb (Bool.eqb (String.eqb (opt_HubURL opts) "") (String.eqb (opt_BootstrapTokenFile opts) ""))
  then Err "hub URL and bootstrap token must be configured together"
  else if negb (String.eqb (opt_HubURL opts) "") then
    if String.eqb (opt_HubCAFile opts) "" then Err "hub CA file is required for remote authentication"
    else Ok (mkRestConfig (opt_HubURL opts) (opt_HubCAFile opts) (opt_BootstrapTokenFile opts))
  else match inClusterConfig with Ok c => Ok c | Err e => Err ("failed to load in-cluster config: " +:+ e) end.
(** The new [HubConfig]; [HubClient] is the client made from it. *)
Definition InitHubClient (opts : AgentOptions) : res RestConfig :=
  config ← hub_config opts;
  match client_New config with None => Ok config | Some e => Err ("failed to create hub client: " +:+ e) end.

(** An agent has the hub's address, its CA and a token, or none of them but those of
    the cluster it runs in: no token is sent where the server is not verified. *)
Theorem hub_is_verified opts config : InitHubClient opts = Ok config <->
  client_New config = None /\
  (opt_HubURL opts = "" /\ opt_BootstrapTokenFile opts = "" /\ inClusterConfig = Ok config \/
   opt_HubURL opts ≠ "" /\ opt_BootstrapTokenFile opts ≠ "" /\ opt_HubCAFile opts ≠ "" /\
   config = mkRestConfig (opt_HubURL opts) (opt_HubCAFile opts) (opt_BootstrapTokenFile opts)).
Proof.
  unfold InitHubClient. rewrite res_bind_ok. transitivity (hub_config opts = Ok config /\ client_New config = None).
  { split.
    - intros (c & Hc & Hn). destruct (client_New c) eqn:E; [done|]. by injection Hn as <-.
    - intros [Hc Hn]. exists config. by rewrite Hn. }
  rewrite (and_comm (hub_config opts = Ok config)). apply and_iff_compat_l. unfold hub_config.
  destruct (String.eqb_spec (opt_HubURL opts) "") as [E1|E1], (String.eqb_spec (opt_BootstrapTokenFile opts) "") as [E2|E2];
    cbn [Bool.eqb negb]; [|split; [done|naive_solver]..|].
  - destruct inClusterConfig as [c|e]; split; naive_solver.
  - destruct (String.eqb_spec (opt_HubCAFile opts) "") as [E3|E3]; split; naive_solver.
Qed.
End client.

(** ** The tunnel *)

Section tunnel.
Context `{Kubernetes, ApiErrors, !ClusterHub, !Network, !TunnelRuntime, !AgentRuntime}.
Implicit Types opts : AgentOptions.

(** What the loop does to the outside, in order: a tunnel with how it ended and the
    gauge tunnel_connected while it was open, or a pause. *)
Inductive tunnel_event := Dialed (d : Dial) (gauge : bool) (result : option string) | Slept (d : Z).
(** [ar_Reconnects]: the results counted by tunnel_reconnect_total. *)
Record agent_run := mkRun { ar_host : ahost; ar_Connected : bool; ar_Reconnects : list string; ar_events : list tunnel_event }.
Abbreviation step := (action agent_run).

Definition on_host {A} (f : ahost -> ahost * A) (w : agent_run) : agent_run * A :=
  let '(h, a) := f (ar_host w) in (mkRun h (ar_Connected w) (ar_Reconnects w) (ar_events w), a).
Definition SetTunnelConnected (b : bool) (w : agent_run) : agent_run * () :=
  (mkRun (ar_host w) b (ar_Reconnects w) (ar_events w), tt).
Definition RecordTunnelReconnect (result : string) (w : agent_run) : agent_run * () :=
  (mkRun (ar_host w) (ar_Connected w) (ar_Reconnects w ++ [result]) (ar_events w), tt).
Definition client_connect (d : Dial) (w : agent_run) : agent_run * option string :=
  let '(h, e) := ClientConnect d (ar_host w) in
  (mkRun h (ar_Connected w) (ar_Reconnects w) (ar_events w ++ [Dialed d (ar_Connected w) e]), e).
Definition sleep (d : Z) (w : agent_run) : agent_run * () :=
  (mkRun (Sleep d (ar_host w)) (ar_Connected w) (ar_Reconnects w) (ar_events w ++ [Slept d]), tt).

Definition make_headers (clusterName token : string) : Header :=
  header_Set (header_Set (header_Set ∅ "Authorization" ("Bearer " +:+ token)) "X-Kumquat-Cluster-Name" clusterName) "X-Remotedialer-ID" clusterName.
Definition tunnelHeaders (opts : AgentOptions) : step Header :=
  if String.eqb (opt_BootstrapTokenFile opts) "" then fail "tunnel token file is required" else
  data ← wrap_error "read tunnel token file: " (returns (on_host (ReadFile (opt_BootstrapTokenFile opts))));
  let token := TrimSpace data in
  if String.eqb token "" then fail "tunnel token is empty" else
  mret (make_headers (opt_ClusterName opts) token).

Definition VersionTLS12 : Z := 771.
Definition tunnelTLSConfig (opts : AgentOptions) : step TLSConfig :=
  if String.eqb (opt_TunnelCAFile opts) "" then fail "tunnel CA file is required" else
  caData ← wrap_error "read tunnel CA file: " (returns (on_host (ReadFile (opt_TunnelCAFile opts))));
  if negb (AppendCertsFromPEM caData) then fail "tunnel CA file contains no certificates" else
  match url_Parse (opt_TunnelURL opts) with
  | Some (_, _, hostname) =>
      if String.eqb hostname "" then fail "invalid tunnel URL" else mret (mkTLS caData hostname VersionTLS12)
  | None => fail "invalid tunnel URL"
  end.

Definition tunnel_url (opts : AgentOptions) : string :=
  let url := opt_TunnelURL opts +:+ "/connect" in
  if HasPrefix url "https" then Replace1 "https" "wss" url
  else if HasPrefix url "http" then Replace1 "http" "ws" url
  else url.

Definition retry_pause : Z := 5 * 10 ^ 9.
(** One connection attempt, with its configuration read again. *)
Definition tunnel_round (opts : AgentOptions) (url : string) : step () :=
  headers ← tunnelHeaders opts;
  tlsConfig ← tunnelTLSConfig opts;
  err ← call (client_connect (mkDial url headers tlsConfig));
  _ ← (match err with
       | Some _ => call (RecordTunnelReconnect "error")
       | None => _ ← call (SetTunnelConnected true); call (RecordTunnelReconnect "success")
       end : step ());
  call (sleep retry_pause).
(** The first [rounds] rounds: whether the loop has ended by then. *)
Fixpoint tunnel_loop (rounds : nat) (opts : AgentOptions) (url : string) : step bool :=
  match rounds with
  | O => mret false
  | S rounds =>
      done ← call (on_host ctx_done);
      if (done : bool) then _ ← call (SetTunnelConnected false); mret true
      else _ ← tunnel_round opts url; tunnel_loop rounds opts url
  end.
Definition StartTunnel (rounds : nat) (opts : AgentOptions) : step bool :=
  _ ← call (SetTunnelConnected false);
  tunnel_loop rounds opts (tunnel_url opts).
End tunnel.

(** ** The loops

    An agent dials again for ever, as its own cluster; what it dials with opens the
    tunnel of this cluster. *)

Section spec.
Context `{Kubernetes, ApiErrors, !ClusterHub, !Network, TR : !TunnelRuntime, !TunnelRuntimeLaws TR, !AgentRuntime}.
Implicit Types (opts : AgentOptions) (w : agent_run) (l : list (Dial * bool * option string)).

Lemma make_headers_Get name token : header_Get (make_headers name token) "Authorization" = "Bearer " +:+ token /\
  header_Get (make_headers name token) "X-Kumquat-Cluster-Name" = name /\ header_Get (make_headers name token) "X-Remotedialer-ID" = name.
Proof. unfold make_headers. by rewrite !header_Get_Set. Qed.

(** A dial as the cluster of the agent, that verifies the tunnel server. *)
Definition dials_as opts (d : Dial) : Prop :=
  (exists token, token ≠ "" /\ dial_Headers d = make_headers (opt_ClusterName opts) token) /\
  dial_URL d = tunnel_url opts /\
  AppendCertsFromPEM (tls_RootCAs (dial_TLS d)) = true /\ tls_MinVersion (dial_TLS d) = VersionTLS12 /\
  exists scheme host, url_Parse (opt_TunnelURL opts) = Some (scheme, host, tls_ServerName (dial_TLS d)) /\ tls_ServerName (dial_TLS d) ≠ "".

(** The token and the certificates can be read at any time. *)
Definition token_readable opts : Prop := opt_BootstrapTokenFile opts ≠ "" /\
  forall h, exists data, (ReadFile (opt_BootstrapTokenFile opts) h).2 = Ok data /\ TrimSpace data ≠ "".
Definition ca_readable opts : Prop := opt_TunnelCAFile opts ≠ "" /\
  (forall h, exists data, (ReadFile (opt_TunnelCAFile opts) h).2 = Ok data /\ AppendCertsFromPEM data = true) /\
  exists scheme host hostname, url_Parse (opt_TunnelURL opts) = Some (scheme, host, hostname) /\ hostname ≠ "".

(** Only what the host answers next may be different. *)
Definition host_only w w' : Prop :=
  ar_Connected w' = ar_Connected w /\ ar_Reconnects w' = ar_Reconnects w /\ ar_events w' = ar_events w.

Lemma tunnelHeaders_spec opts (Q : agent_run -> res Header -> Prop) w :
  (forall w' token, host_only w w' -> token ≠ "" -> Q w' (Ok (make_headers (opt_ClusterName opts) token))) ->
  (forall w' e, ~ token_readable opts -> host_only w w' -> Q w' (Err e)) -> wp (tunnelHeaders opts) Q w.
Proof.
  intros Hok Herr. unfold tunnelHeaders. destruct (String.eqb_spec (opt_BootstrapTokenFile opts) "") as [E|E].
  { apply wp_fail, Herr; [by intros [? _]|done]. }
  apply wp_bind, wp_wrap_error, wp_returns. unfold on_host. destruct (ReadFile _ _) as [h [data|e]] eqn:Er; cbn [fst snd].
  2:{ apply Herr; [|done]. intros [_ Hr]. destruct (Hr (ar_host w)) as (data & Hd & _). by rewrite Er in Hd. }
  cbv zeta. destruct (String.eqb_spec (TrimSpace data) "") as [Et|Et]; [|by apply wp_ret, Hok].
  apply wp_fail, Herr; [|done]. intros [_ Hr]. destruct (Hr (ar_host w)) as (data' & Hd & Hn). rewrite Er in Hd. by injection Hd as <-.
Qed.

Lemma tunnelTLSConfig_spec opts (Q : agent_run -> res TLSConfig -> Prop) w :
  (forall w' c, host_only w w' -> AppendCertsFromPEM (tls_RootCAs c) = true -> tls_MinVersion c = VersionTLS12 ->
    (exists scheme host, url_Parse (opt_TunnelURL opts) = Some (scheme, host, tls_ServerName c)) -> tls_ServerName c ≠ "" -> Q w' (Ok c)) ->
  (forall w' e, ~ ca_readable opts -> host_only w w' -> Q w' (Err e)) -> wp (tunnelTLSConfig opts) Q w.
Proof.
  intros Hok Herr. unfold tunnelTLSConfig. destruct (String.eqb_spec (opt_TunnelCAFile opts) "") as [E|E].
  { apply wp_fail, Herr; [by intros [? _]|done]. }
  apply wp_bind, wp_wrap_error, wp_returns. unfold on_host. destruct (ReadFile _ _) as [h [data|e]] eqn:Er; cbn [fst snd].
  2:{ apply Herr; [|done]. intros (_ & Hr & _). destruct (Hr (ar_host w)) as (data & Hd & _). by rewrite Er in Hd. }
  destruct (AppendCertsFromPEM data) eqn:Ec; cbn [negb].
  2:{ apply wp_fail, Herr; [|done]. intros (_ & Hr & _). destruct (Hr (ar_host w)) as (data' & Hd & Hc). rewrite Er in Hd. injection Hd as <-. congruence. }
  destruct (url_Parse (opt_TunnelURL opts)) as [[[scheme host] hostname]|] eqn:Eu.
  2:{ apply wp_fail, Herr; [|done]. by intros (_ & _ & ? & ? & ? & ? & _); simplify_eq. }
  destruct (String.eqb_spec hostname "") as [Eh|Eh].
  - apply wp_fail, Herr; [|done]. by intros (_ & _ & ? & ? & ? & Hu & Hn); rewrite Eu in Hu; simplify_eq.
  - apply wp_ret, Hok; [done..|by eexists _, _|done].
Qed.

(** The rounds that have ended, with the gauge and the result of each. *)
Definition rounds l : list tunnel_event := l ≫= fun '(d, g, r) => [Dialed d g r; Slept retry_pause].
(** The gauge while a tunnel is open, by how those before it have ended. *)
Fixpoint gauged (b : bool) l : Prop :=
  match l with
  | [] => True
  | (d, g, r) :: l => g = b /\ gauged (match r with None => true | Some _ => b end) l
  end.
Definition ran opts w l w' : Prop :=
  ar_events w' = ar_events w ++ rounds l /\ Forall (fun x => dials_as opts x.1.1) l /\ gauged (ar_Connected w) l.

Lemma tunnel_round_spec opts w : wp (tunnel_round opts (tunnel_url opts)) (fun w' x =>
  match x with
  | Ok _ => exists d r, ran opts w [(d, ar_Connected w, r)] w' /\ ar_Connected w' = (match r with None => true | Some _ => ar_Connected w end)
  | Err _ => ~ (token_readable opts /\ ca_readable opts) /\ ran opts w [] w'
  end) w.
Proof.
  apply wp_bind, tunnelHeaders_spec.
  2:{ intros w1 e Hn (_ & _ & He). split; [by intros [? _]|]. split; [by rewrite He, app_nil_r|done]. }
  intros w1 token (Hc1 & _ & He1) Ht. apply wp_bind, tunnelTLSConfig_spec.
  2:{ intros w2 e Hn (_ & _ & He). split; [by intros [_ ?]|]. split; [by rewrite He, He1, app_nil_r|done]. }
  intros w2 c (Hc2 & _ & He2) Ha Hv (scheme & host & Hu) Hn. apply wp_bind, wp_call. unfold client_connect.
  set (d := mkDial _ _ _). destruct (ClientConnect d (ar_host w2)) as [h r] eqn:Ed. cbn [fst snd].
  assert (dials_as opts d) as Hd by (split_and!; [by exists token|done..|by exists scheme, host]).
  apply wp_bind. destruct r as [e|]; [|apply wp_bind, wp_call]; apply wp_call, wp_call; exists d.
  - exists (Some e). split; [|cbn; congruence]. split; [cbn; by rewrite Hc2, Hc1, He2, He1, <- app_assoc|by split; [apply Forall_singleton|]].
  - exists None. split; [|done]. split; [cbn; by rewrite Hc2, Hc1, He2, He1, <- app_assoc|by split; [apply Forall_singleton|]].
Qed.

Lemma ran_cons opts w d r w1 l w2 : ran opts w [(d, ar_Connected w, r)] w1 ->
  ar_Connected w1 = (match r with None => true | Some _ => ar_Connected w end) -> ran opts w1 l w2 ->
  ran opts w ((d, ar_Connected w, r) :: l) w2.
Proof.
  intros (E1 & F1 & _) Hc (E2 & F2 & G2). split; [|split].
  - rewrite E2, E1. unfold rounds. cbn. by rewrite <- !app_assoc.
  - apply Forall_app_2 with (l1 := [_]); done.
  - split; [done|]. by rewrite <- Hc.
Qed.

Lemma tunnel_loop_spec n opts w : wp (tunnel_loop n opts (tunnel_url opts)) (fun w' x => exists l, ran opts w l w' /\
  match x with
  | Ok false => length l = n
  | Ok true => (length l < n)%nat /\ ar_Connected w' = false
  | Err _ => ~ (token_readable opts /\ ca_readable opts)
  end) w.
Proof.
  revert w. induction n as [|n IH]; intros w; cbn [tunnel_loop].
  { apply wp_ret. exists []. split; [|done]. split; [by rewrite app_nil_r|done]. }
  apply wp_bind, wp_call. unfold on_host. destruct (ctx_done (ar_host w)) as [h b]. cbn [fst snd]. set (w1 := mkRun h _ _ _).
  destruct b.
  - apply wp_bind, wp_call, wp_ret. exists []. split; [|split; [simpl; lia|done]]. split; [by rewrite app_nil_r|done].
  - apply wp_bind. eapply wp_mono; [exact (tunnel_round_spec opts w1)|]. intros w2 [[]|e].
    + intros (d & r & Hr & Hc). eapply wp_mono; [apply IH|]. intros w3 x (l & Hl & Hx). exists ((d, ar_Connected w1, r) :: l).
      split; [exact (ran_cons opts w1 d r w2 l w3 Hr Hc Hl)|]. destruct x as [[]|]; [|simpl; lia|done].
      destruct Hx as [? ?]. split; [simpl; lia|done].
    + intros [Hn Hr]. exists []. by split.
Qed.


Lemma gauged_iff b l1 d g r l2 : gauged b (l1 ++ (d, g, r) :: l2) -> (g = true <-> b = true \/ exists d' g', (d', g', None) ∈ l1).
Proof.
  revert b. induction l1 as [|[[d1 g1] r1] l1 IH]; intros b; simpl.
  - intros [-> _]. split; [by left|]. intros [?|(? & ? & ?%not_elem_of_nil)]; done.
  - intros [_ Hg]. rewrite (IH _ Hg). destruct r1 as [e|]; split.
    + intros [?|(d' & g' & ?)]; [by left|]. right. exists d', g'. by right.
    + intros [?|(d' & g' & [?|?]%elem_of_cons)]; [by left|done|]. right. by exists d', g'.
    + intros _. right. exists d1, g1. by left.
    + by left.
Qed.

(** The gauge tunnel_connected says nothing of the tunnel that is open: it is raised
    when a tunnel has ended without an error, and stays. *)
Theorem gauge_shows_tunnels_that_ended n opts w : wp (StartTunnel n opts) (fun w' _ => exists l,
  ar_events w' = ar_events w ++ rounds l /\ forall l1 d g r l2, l = l1 ++ (d, g, r) :: l2 ->
    (g = true <-> exists d' g', (d', g', None) ∈ l1)) w.
Proof.
  apply wp_bind, wp_call. eapply wp_mono; [apply tunnel_loop_spec|]. intros w' x (l & (He & _ & Hg) & _). exists l. split; [done|].
  intros l1 d g r l2 ->. rewrite (gauged_iff _ _ _ _ _ _ Hg). cbn. split; [by intros [?|?]|by right].
Qed.

(** A token file that cannot be read at one round ends the loop for good. *)
Theorem unreadable_token_ends_the_tunnel n opts w h h' e : opt_BootstrapTokenFile opts ≠ "" ->
  ctx_done (ar_host w) = (h, false) -> ReadFile (opt_BootstrapTokenFile opts) h = (h', Err e) ->
  wp (StartTunnel (S n) opts) (fun w' x => x = Err ("read tunnel token file: " +:+ e) /\ ar_events w' = ar_events w) w.
Proof.
  intros Hf Hc Hr. apply wp_bind, wp_call. cbn [fst tunnel_loop]. apply wp_bind, wp_call. unfold on_host at 1 2. cbn [SetTunnelConnected fst ar_host].
  rewrite Hc. cbn [fst snd]. apply wp_bind. unfold tunnel_round. apply wp_bind. unfold tunnelHeaders.
  rewrite (proj2 (String.eqb_neq _ _) Hf). apply wp_bind, wp_wrap_error, wp_returns. unfold on_host. cbn [ar_host]. by rewrite Hr.
Qed.

(** ** At the hub *)

(** C15: Where the token file of an agent has the token that has been issued for its
    cluster, what the agent dials with opens the tunnel of this cluster at the hub; and
    whatever the file has, it opens no other cluster's. *)
Theorem agents_token_opens_its_tunnel now opts data h query (ah : agent_run) (w : tunnel_world) :
  opt_BootstrapTokenFile opts ≠ "" -> ReadFile (opt_BootstrapTokenFile opts) (ar_host ah) = (h, Ok data) -> TrimSpace data ≠ "" ->
  wp (tunnelHeaders opts) (fun _ x => exists headers, x = Ok headers /\
    let reply := connect now (mkRequest "/connect" query (header_Get headers)) in
    (token_of now (TrimSpace data) (opt_ClusterName opts) w -> cluster_found now (TrimSpace data) (opt_ClusterName opts) w ->
      wp reply (fun _ y => y = Ok (Tunnel (opt_ClusterName opts))) w) /\
    wp reply (fun _ y => forall name, y = Ok (Tunnel name) -> name = opt_ClusterName opts) w) ah.
Proof.
  intros Hf Hr Ht. unfold tunnelHeaders. rewrite (proj2 (String.eqb_neq _ _) Hf). apply wp_bind, wp_wrap_error, wp_returns.
  unfold on_host. rewrite Hr. cbn [fst snd]. cbv zeta. rewrite (proj2 (String.eqb_neq _ _) Ht). apply wp_ret. eexists. split; [done|].
  destruct (make_headers_Get (opt_ClusterName opts) (TrimSpace data)) as (G1 & G2 & G3). unfold connect. cbn [rq_Header]. split.
  - intros Hi Hc. apply wp_bind, wp_attempt. eapply wp_mono; [exact (issued_token_opens now _ _ _ w G1 Hi G2 G3 Hc)|]. by intros w' y ->.
  - apply wp_bind, wp_attempt. eapply wp_mono; [exact (authorizer_names_header now _ w)|].
    intros w' [name|e] Hn; apply wp_ret; [|done]. intros ? [= <-]. by rewrite <- G2, (Hn name).
Qed.
End spec.

(** ** Heartbeats *)

Section heartbeats.
Context `{G : GoRuntime, K : Kubernetes, Er : ApiErrors, HH : !ClusterHub, AH : !AgentHub HH}.
Context (sha256_hex : string -> string).
Implicit Types opts : AgentOptions.

Lemma sendHeartbeat_ends opts host now local h : wp (sendHeartbeat sha256_hex opts host now local) (fun _ _ => True) h.
Proof.
  apply wp_bind, wp_returns. destruct ((ch_Get _ h).2) as [c|e]; [|done]. apply wp_bind.
  assert (forall h, wp (refresh_credentials sha256_hex opts host c) (fun _ _ => True) h) as Hr.
  { intros h'. unfold refresh_credentials. destruct (String.eqb _ ""); [by apply wp_ret|]. apply wp_bind, wp_of_res.
    destruct (getRequiredClusterCredentials host) as [creds|e]; [|done]. destruct (published _ _ _); [by apply wp_ret|].
    apply wp_bind, wp_returns. destruct ((ah_Patch _ _ _).2); [by apply wp_returns|done]. }
  eapply wp_mono; [apply Hr|]. intros h1 [c'|e] _; [|done].
  destruct (match local with Some _ => _ | None => _ end) as [rs ns]. apply wp_bind, wp_call.
  destruct ((ah_StatusUpdate _ _).2); [by apply wp_ret|by apply wp_check].
Qed.

(** A heartbeat is sent at every tick until the context ends, whatever became of those
    before it; with an interval that is not positive the agent panics. *)
Theorem heartbeats_go_on opts ticks host now local (Q : chub -> Prop) h :
  CtxDone ∉ ticks -> (forall h, wp (sendHeartbeat sha256_hex opts host now local) (fun h' _ => Q h') h) ->
  if 0 <? opt_HeartbeatInterval opts
  then wp (StartHeartbeat sha256_hex opts (ticks ++ [Tick host now local])) (fun h' x => x = Ok tt /\ Q h') h
  else StartHeartbeat sha256_hex opts (ticks ++ [Tick host now local]) h = Panic.
Proof.
  intros Ht HQ. unfold StartHeartbeat. destruct (Z.ltb_spec 0 (opt_HeartbeatInterval opts)), (Z.leb_spec (opt_HeartbeatInterval opts) 0); try lia; [|done].
  revert h. induction ticks as [|[|host1 now1 local1] ticks IH]; intros h; cbn [app heartbeat_loop].
  - apply wp_bind, wp_attempt. eapply wp_mono; [apply HQ|]. intros h' x Hq. by apply wp_ret.
  - destruct Ht. by left.
  - apply wp_bind, wp_attempt. eapply wp_mono; [apply sendHeartbeat_ends|]. intros h' x _. apply IH. intros Hin. apply Ht. by right.
Qed.
End heartbeats.

(** ** Processes *)

Inductive agent_part := Heartbeats | TunnelLoop | AddonRounds.
Inductive manager_part := ApplicationController | ApplicationStatusController | ClusterControllerPart | WorkspaceController | AddonController
  | AggregatedAPI | SchedulerPart.

Section processes.
Context `{G : GoRuntime, K : Kubernetes, Er : ApiErrors, HH : !ClusterHub, AH : !AgentHub HH, RT : Retry, AR : AgentRuntime}.
Context (sha256_hex : string -> string).
Implicit Types opts : AgentOptions.

Definition agent_parts opts (enableAddons : bool) : list agent_part :=
  Heartbeats :: if String.eqb (opt_TunnelURL opts) "" then [] else TunnelLoop :: if enableAddons then [AddonRounds] else [].
(** An error ends the process. *)
Definition agent_main opts (host : Host) (enableAddons : bool) : action chub (list agent_part) :=
  if String.eqb (opt_ClusterName opts) "" then mret [] else
  _ ← of_res (InitHubClient opts);
  _ ← Register sha256_hex opts host;
  mret (agent_parts opts enableAddons).

Definition contains (s substr : string) : bool := existsb (fun p => String.eqb (TrimSpace p) substr) (Split ","%char s).
Definition isControllerEnabled (enabledControllers name : string) : bool :=
  String.eqb enabledControllers "" || contains enabledControllers name.
Definition manager_parts (enabledControllers : string) (disabledAPIServer : bool) : list manager_part :=
  let enabled name part := if isControllerEnabled enabledControllers name then [part] else [] in
  enabled "Application" ApplicationController ++ enabled "ApplicationStatus" ApplicationStatusController ++
  enabled "Cluster" ClusterControllerPart ++ enabled "Workspace" WorkspaceController ++ enabled "Addon" AddonController ++
  (if disabledAPIServer then [] else [AggregatedAPI]) ++ enabled "Scheduler" SchedulerPart.

(** An agent reports and dials only when it has been registered, and runs addons only when
    it also has a tunnel. *)
Theorem agent_runs_registered opts host enableAddons h h' parts :
  agent_main opts host enableAddons h = Ret (h', Ok parts) -> parts ≠ [] ->
  Register sha256_hex opts host h = Ret (h', Ok tt) /\ (exists config, InitHubClient opts = Ok config) /\
  (AddonRounds ∈ parts <-> TunnelLoop ∈ parts /\ enableAddons = true).
Proof.
  unfold agent_main. destruct (String.eqb (opt_ClusterName opts) ""); [intros [= _ <-]; done|].
  destruct (InitHubClient opts) as [config|e]; [|done]. unfold of_res, mbind, action_bind.
  destruct (Register sha256_hex opts host h) as [[h1 [[]|e]]|]; [|done..]. intros [= <- <-] _. split; [done|]. split; [by exists config|].
  unfold agent_parts. destruct (String.eqb (opt_TunnelURL opts) ""), enableAddons; set_solver.
Qed.

End processes.

(** The controllers a manager runs are those that are named, or all when none is. *)
Theorem manager_runs_what_is_named enabledControllers disabledAPIServer part name :
  (name, part) ∈ [("Application", ApplicationController); ("ApplicationStatus", ApplicationStatusController); ("Cluster", ClusterControllerPart);
    ("Workspace", WorkspaceController); ("Addon", AddonController); ("Scheduler", SchedulerPart)] ->
  (part ∈ manager_parts enabledControllers disabledAPIServer <->
   enabledControllers = "" \/ exists p, p ∈ Split ","%char enabledControllers /\ TrimSpace p = name).
Proof.
  intros Hin. assert (isControllerEnabled enabledControllers name = true <->
    enabledControllers = "" \/ exists p, p ∈ Split ","%char enabledControllers /\ TrimSpace p = name) as <-.
  { unfold isControllerEnabled, contains. rewrite orb_true_iff, String.eqb_eq, existsb_exists. setoid_rewrite String.eqb_eq.
    by setoid_rewrite list_elem_of_In. }
  unfold manager_parts. cbv zeta. repeat (apply elem_of_cons in Hin as [[= -> ->]|Hin]); [..|by apply elem_of_nil in Hin];
    repeat match goal with |- context [if ?b then _ else _] => destruct b end; set_solver.
Qed.

(** ** A concrete agent *)

(** The host counts down the rounds that are left; its token is that of edge-1. *)
Definition edge_token : string := "edge-1.0123456789abcdef" +:+ String "010"%char "".
#[export] Instance sample_agent_runtime : AgentRuntime := {|
  ahost := nat;
  ReadFile file h := (h, if String.eqb file "/token" then Ok edge_token else if String.eqb file "/tunnel-ca.crt" then Ok "pem" else Err "no such file");
  ctx_done h := (pred h, Nat.eqb h 0);
  ClientConnect d h := (h, if Nat.even h then Some "closed" else None);
  Sleep d h := h;
  inClusterConfig := Ok (mkRestConfig "https://kubernetes" "ca" "token");
  client_New c := None;
|}.
Definition edge_1_options (token : string) : AgentOptions :=
  mkAgentOptions "https://hub" "https://hub:5443" "edge-1" "" token "/hub-ca.crt" "/tunnel-ca.crt" (60 * 10 ^ 9).
Definition new_run (rounds : nat) : agent_run := mkRun rounds false [] [].

Definition dial_of (w : outcome (agent_run * res bool)) : list (string * string * bool * bool) :=
  match w with
  | Ret (w, _) => ar_events w ≫= fun e => match e with
      | Dialed d g r => [(dial_URL d, header_Get (dial_Headers d) "authorization", g, match r with None => true | _ => false end)] | Slept _ => [] end
  | Panic => []
  end.
Definition ended (w : outcome (agent_run * res bool)) : option (res bool) := match w with Ret (_, x) => Some x | Panic => None end.

Example three_rounds : let w := @StartTunnel _ _ _ _ sample_tunnel _ 5 (edge_1_options "/token") (new_run 3) in
  dial_of w = [("wss://hub:5443/connect", "Bearer edge-1.0123456789abcdef", false, false);
               ("wss://hub:5443/connect", "Bearer edge-1.0123456789abcdef", false, true);
               ("wss://hub:5443/connect", "Bearer edge-1.0123456789abcdef", true, false)] /\ ended w = Some (Ok true).
Proof. vm_compute. split; reflexivity. Qed.

Example canonical_names : CanonicalMIMEHeaderKey "X-Remotedialer-ID" = "X-Remotedialer-Id" /\ CanonicalMIMEHeaderKey "accept-encoding" = "Accept-Encoding" /\
  CanonicalMIMEHeaderKey "not a name" = "not a name".
Proof. vm_compute. done. Qed.

Lemma agents_token_opens_its_tunnel_witness : exists headers ah,
  @tunnelHeaders _ (edge_1_options "/token") (new_run 1) = Ret (ah, Ok headers) /\
  exists w', @connect _ _ _ _ sample_tunnel 50 (mkRequest "/connect" anonymous (header_Get headers)) (tunnel_hub []) = Ret (w', Ok (Tunnel "edge-1")).
Proof.
  pose proof (@agents_token_opens_its_tunnel _ _ _ _ sample_tunnel sample_tunnel_laws sample_agent_runtime 50 (edge_1_options "/token") edge_token 1%nat
    anonymous (new_run 1) (tunnel_hub []) ltac:(discriminate) eq_refl ltac:(vm_compute; discriminate)) as Hw.
  unfold wp in Hw. destruct (tunnelHeaders _ _) as [[ah x]|]; [|destruct Hw]. destruct Hw as (headers & -> & Ho & _). exists headers, ah.
  split; [reflexivity|]. cbv zeta in Ho. assert (exists h, token_of 50 (TrimSpace edge_token) "edge-1" (tunnel_hub []) /\ (h : nat) = 0%nat) as (? & Ht & _).
  { exists 0%nat. split; [|reflexivity]. split; [reflexivity|]. exists "edge-1", "0123456789abcdef", edge_secret. split_and!; try reflexivity.
    split; try reflexivity; [discriminate|]. intros e _. exists 100. split; [reflexivity|lia]. }
  specialize (Ho Ht ltac:(exists edge_1; reflexivity)). unfold wp in Ho. destruct (connect _ _ _) as [[w' y]|]; [|destruct Ho]. by exists w'; rewrite Ho.
Defined.

Lemma unreadable_token_ends_the_tunnel_witness :
  ended (@StartTunnel _ _ _ _ sample_tunnel _ 5 (edge_1_options "/gone") (new_run 3)) = Some (Err "read tunnel token file: no such file").
Proof.
  pose proof (@unreadable_token_ends_the_tunnel _ _ _ _ sample_tunnel sample_agent_runtime 4 (edge_1_options "/gone") (new_run 3) 2%nat 2%nat "no such file"
    ltac:(discriminate) eq_refl eq_refl) as Hw.
  unfold wp in Hw. destruct (StartTunnel _ _ _) as [[w' x]|]; [|destruct Hw]. destruct Hw as [-> _]. reflexivity.
Defined.

(** The hub answers to the last of two heartbeats, of an agent that found no files at the first. *)
Lemma heartbeats_go_on_witness : succeeded (StartHeartbeat no_digest edge_options [Tick (mkHost None None "" "") 1 None; Tick token_host 7 None] settled_hub) = true.
Proof.
  pose proof (heartbeats_go_on no_digest edge_options [Tick (mkHost None None "" "") 1 None] token_host 7 None (fun _ => True) settled_hub
    ltac:(by intros Hin; apply list_elem_of_singleton in Hin) ltac:(intros h; exact (sendHeartbeat_ends no_digest edge_options token_host 7 None h))) as Hw.
  cbn [opt_HeartbeatInterval edge_options Z.ltb Z.compare] in Hw. unfold wp in Hw. cbn [app] in Hw.
  destruct (StartHeartbeat _ _ _ _) as [[h x]|]; [|destruct Hw]. destruct Hw as [-> _]. reflexivity.
Defined.

Lemma agent_runs_registered_witness : exists h', agent_main no_digest edge_options token_host true settled_hub = Ret (h', Ok [Heartbeats; TunnelLoop; AddonRounds]) /\
  Register no_digest edge_options token_host settled_hub = Ret (h', Ok tt).
Proof.
  assert (exists h', agent_main no_digest edge_options token_host true settled_hub = Ret (h', Ok [Heartbeats; TunnelLoop; AddonRounds])) as [h' E]
    by (eexists; reflexivity).
  exists h'. split; [exact E|]. apply (agent_runs_registered no_digest edge_options token_host true settled_hub h' _ E). discriminate.
Defined.

Lemma manager_runs_what_is_named_witness : ClusterControllerPart ∈ manager_parts "Scheduler, Cluster" true.
Proof.
  apply (manager_runs_what_is_named "Scheduler, Cluster" true ClusterControllerPart "Cluster"); [do 2 right; left|].
  right. exists " Cluster". split; [right; left|reflexivity].
Defined.
