(* ===== verification/Workspace.v ===== *)
(** * The workspace controller

    internal/manager/workspace/controller.go: a Workspace is a namespace on the hub and on
    every cluster its selector matches, with the quota and the limits of the workspace. *)

From S2P Require Import Prelude Api Clients Manifest Wp.

(** A Namespace: its labels, and its owners by their UIDs. *)
Record Namespace := mkNamespace { ns_Labels : gmap string string; ns_Owners : list string }.
(** A ResourceQuota or a LimitRange: its labels and its spec. *)
Record Constraint (S : Type) := mkConstraint { con_Labels : gmap string string; con_Spec : option S }.
Arguments mkConstraint {S}. Arguments con_Labels {S}. Arguments con_Spec {S}.

(** k8s.io/api/core/v1: specs that are handed on unread. *)
Class ConstraintTypes := { ResourceQuotaSpec : Type; LimitRangeSpec : Type }.

Record WorkspaceConstraints `{ConstraintTypes} := mkConstraints { Quota : option ResourceQuotaSpec; LimitRange : option LimitRangeSpec }.
Record ClusterError := mkClusterError { ce_Name : string; ce_Message : string; ce_LastTransitionTime : Z }.
Record WorkspaceStatus := mkWorkspaceStatus { ws_Conditions : list Condition; ws_AppliedClusters : list string; ws_FailedClusters : list ClusterError }.
Record Workspace `{Kubernetes, ConstraintTypes} := mkWorkspace {
  ws_Name : string; ws_UID : string; ws_Labels : gmap string string;
  spec_Name : string; spec_ClusterSelector : option LabelSelector; spec_ResourceConstraints : option WorkspaceConstraints;
  ws_Status : WorkspaceStatus }.
Arguments mkConstraints {_}. Arguments mkWorkspace {_ _}.

(** The hub and the clusters, as the controller writes to them; [ctrl.CreateOrUpdate] with
    the name of the object and what is done to it. *)
Class WorkspaceClients `{Kubernetes, ApiErrors, ConstraintTypes, !ClusterClients} := {
  wsh : Type;
  wh_Get : string -> string -> wsh -> wsh * res Workspace;
  wh_List : wsh -> wsh * res (list ManagedCluster);
  wh_CreateOrUpdateNamespace : string -> (Namespace -> res Namespace) -> wsh -> wsh * option string;
  wh_StatusUpdate : Workspace -> wsh -> wsh * option string;
  (** [controllerutil.SetControllerReference] of the UID of a workspace. *)
  wh_SetControllerReference : string -> Namespace -> res Namespace;
  wc_CreateOrUpdateNamespace : string -> string -> (Namespace -> Namespace) -> remote -> remote * option string;
                                                             (* cluster, name *)
  wc_CreateOrUpdateQuota : string -> string -> string -> (Constraint ResourceQuotaSpec -> Constraint ResourceQuotaSpec) ->
    remote -> remote * option string;                        (* cluster, namespace, name *)
  wc_CreateOrUpdateLimitRange : string -> string -> string -> (Constraint LimitRangeSpec -> Constraint LimitRangeSpec) ->
    remote -> remote * option string;
}.

Section workspace.
Context `{Kubernetes, ApiErrors, !Conversions, ConstraintTypes, !ClusterClients, !WorkspaceClients}.

Record workspace_world := mkWorkspaceWorld { ww_hub : wsh; ww_fleet : remote }.
Definition at_hub {A} (f : wsh -> wsh * A) (w : workspace_world) : workspace_world * A :=
  let '(h, a) := f (ww_hub w) in (mkWorkspaceWorld h (ww_fleet w), a).
Definition at_fleet {A} (f : remote -> remote * A) (w : workspace_world) : workspace_world * A :=
  let '(r, a) := f (ww_fleet w) in (mkWorkspaceWorld (ww_hub w) r, a).
Abbreviation step := (action workspace_world).

(** [AddManagedBy(obj); obj.Spec = spec] *)
Definition constrain {S} (spec : S) (c : Constraint S) : Constraint S := mkConstraint (AddManagedBy (con_Labels c)) (Some spec).
Definition identify (w : Workspace) (ns : Namespace) : Namespace := mkNamespace (CopyBusinessIdentity (ns_Labels ns) (ws_Labels w)) (ns_Owners ns).

Definition reconcileCluster (workspace : Workspace) (clusterName nsName : string) : step () :=
  _ ← wrap_error "failed to get client: " (check (at_fleet (GetClient clusterName)));
  _ ← wrap_error "failed to reconcile namespace: " (check (at_fleet (wc_CreateOrUpdateNamespace clusterName nsName (identify workspace))));
  _ ← (match spec_ResourceConstraints workspace ≫= Quota with
       | Some quota => wrap_error "failed to reconcile quota: " (check (at_fleet (wc_CreateOrUpdateQuota clusterName nsName "workspace-quota" (constrain quota))))
       | None => mret tt
       end);
  match spec_ResourceConstraints workspace ≫= LimitRange with
  | Some limits => wrap_error "failed to reconcile limitrange: " (check (at_fleet (wc_CreateOrUpdateLimitRange clusterName nsName "workspace-limits" (constrain limits))))
  | None => mret tt
  end.

(** The clusters that have been applied to and those that have failed, in order. *)
Fixpoint propagate (now : Z) (workspace : Workspace) (nsName : string) (clusters : list ManagedCluster) (applied : list string) (failed : list ClusterError) :
    step (list string * list ClusterError) :=
  match clusters with
  | [] => mret (applied, failed)
  | c :: clusters =>
      x ← attempt (reconcileCluster workspace (mc_Name c) nsName);
      match x with
      | Err e => propagate now workspace nsName clusters applied (failed ++ [mkClusterError (mc_Name c) e now])
      | Ok _ => propagate now workspace nsName clusters (applied ++ [mc_Name c]) failed
      end
  end.

Definition ready_condition (now : Z) (applied : list string) (failed : list ClusterError) (targets : list ManagedCluster) : Condition :=
  let condition status reason message := mkCondition "Ready" status reason message 0 now in
  if bool_decide (failed = []) && negb (bool_decide (applied = [])) then
    condition "True" "AllClustersReady" ("Workspace successfully applied to " +:+ pretty (length applied) +:+ " cluster(s)")
  else if negb (bool_decide (applied = [])) then
    condition "False" "PartialFailure" ("Workspace applied to " +:+ pretty (length applied) +:+ " cluster(s), failed on " +:+ pretty (length failed) +:+ " cluster(s)")
  else if negb (bool_decide (length targets = 0%nat)) then
    condition "False" "AllClustersFailed" ("Workspace failed to apply to all " +:+ pretty (length targets) +:+ " target cluster(s)")
  else condition "True" "NoTargetClusters" "No clusters match the selector".
(** The first condition of the type is replaced. *)
Fixpoint set_ready (ready : Condition) (conditions : list Condition) : list Condition :=
  match conditions with
  | [] => [ready]
  | c :: rest => if String.eqb (cond_Type c) "Ready" then ready :: rest else c :: set_ready ready rest
  end.
Definition set_status (workspace : Workspace) (st : WorkspaceStatus) : Workspace :=
  mkWorkspace (ws_Name workspace) (ws_UID workspace) (ws_Labels workspace) (spec_Name workspace) (spec_ClusterSelector workspace)
    (spec_ResourceConstraints workspace) st.

(** [metav1.LabelSelectorAsSelector]: a nil selector matches nothing. *)
Definition cluster_selector (s : option LabelSelector) : res (gmap string string -> bool) :=
  match s with Some s => selector_Matches s | None => Ok (fun _ => false) end.

Definition namespace_name (workspace : Workspace) : string :=
  if String.eqb (spec_Name workspace) "" then ws_Name workspace else spec_Name workspace.

(** The result is [RequeueAfter] in nanoseconds, 0 for none. *)
Definition Reconcile (now : Z) (namespace name : string) : step Z :=
  x ← attempt (returns (at_hub (wh_Get namespace name)));
  match x with
  | Err e => if IsNotFound e then mret 0 else fail e
  | Ok workspace =>
      let nsName := namespace_name workspace in
      _ ← check (at_hub (wh_CreateOrUpdateNamespace nsName (fun ns => wh_SetControllerReference (ws_UID workspace) (identify workspace ns))));
      clusters ← returns (at_hub wh_List);
      match cluster_selector (spec_ClusterSelector workspace) with
      | Err _ => mret 0
      | Ok matches =>
          let targets := List.filter (fun c => matches (mc_Labels c)) clusters in
          r ← propagate now workspace nsName targets [] [];
          let conditions := set_ready (ready_condition now r.1 r.2 targets) (ws_Conditions (ws_Status workspace)) in
          _ ← check (at_hub (wh_StatusUpdate (set_status workspace (mkWorkspaceStatus conditions r.1 r.2))));
          mret (if bool_decide (r.2 = []) then 0 else 30)
      end
  end.
End workspace.

(** ** Where a workspace arrives

    After a round every cluster of the selector has the namespace with its identity and
    its constraints or is reported with an error; the others are left as they are, those
    that were applied to before among them. *)

(** What a cluster holds of namespaces and constraints. *)
Record holdings `{ConstraintTypes} := mkHoldings {
  h_namespaces : gmap string Namespace;
  h_quotas : gmap (string * string) (Constraint ResourceQuotaSpec);
  h_limits : gmap (string * string) (Constraint LimitRangeSpec) }.
Arguments mkHoldings {_}.

(** [CreateOrUpdate] of one object. *)
Section put.
Context `{ConstraintTypes}.
Definition put_namespace (n : string) (f : Namespace -> Namespace) (h : holdings) : holdings :=
  mkHoldings (<[n := f (default (mkNamespace ∅ []) (h_namespaces h !! n))]> (h_namespaces h)) (h_quotas h) (h_limits h).
Definition put_quota (ns n : string) (f : Constraint ResourceQuotaSpec -> Constraint ResourceQuotaSpec) (h : holdings) : holdings :=
  mkHoldings (h_namespaces h) (<[(ns, n) := f (default (mkConstraint ∅ None) (h_quotas h !! (ns, n)))]> (h_quotas h)) (h_limits h).
Definition put_limits (ns n : string) (f : Constraint LimitRangeSpec -> Constraint LimitRangeSpec) (h : holdings) : holdings :=
  mkHoldings (h_namespaces h) (h_quotas h) (<[(ns, n) := f (default (mkConstraint ∅ None) (h_limits h !! (ns, n)))]> (h_limits h)).
End put.

(** [CreateOrUpdate] changes the named object of its cluster, or creates it, when it
    succeeds; when it fails it may have done anything to this cluster, and nothing to
    others.  Names of clusters are unique. *)
Class WorkspaceClientsLaws `{Kubernetes, ApiErrors, ConstraintTypes, !ClusterClients} (C : WorkspaceClients) := {
  holds : string -> remote -> holdings;
  wh_List_names h h' l : wh_List h = (h', Ok l) -> NoDup (mc_Name <$> l);
  GetClient_holds c n r : holds n (GetClient c r).1 = holds n r;
  namespace_written c n f r r' : wc_CreateOrUpdateNamespace c n f r = (r', None) -> holds c r' = put_namespace n f (holds c r);
  quota_written c ns n f r r' : wc_CreateOrUpdateQuota c ns n f r = (r', None) -> holds c r' = put_quota ns n f (holds c r);
  limits_written c ns n f r r' : wc_CreateOrUpdateLimitRange c ns n f r = (r', None) -> holds c r' = put_limits ns n f (holds c r);
  namespace_elsewhere c n f r c' : c' ≠ c -> holds c' (wc_CreateOrUpdateNamespace c n f r).1 = holds c' r;
  quota_elsewhere c ns n f r c' : c' ≠ c -> holds c' (wc_CreateOrUpdateQuota c ns n f r).1 = holds c' r;
  limits_elsewhere c ns n f r c' : c' ≠ c -> holds c' (wc_CreateOrUpdateLimitRange c ns n f r).1 = holds c' r;
}.

Section spec.
Context `{Kubernetes, ApiErrors, !Conversions, ConstraintTypes, !ClusterClients, WC : !WorkspaceClients, !WorkspaceClientsLaws WC}.
Implicit Types (w : workspace_world).
Abbreviation step := (action workspace_world).

Definition holding (c : string) w : holdings := holds c (ww_fleet w).

(** The workspace has arrived. *)
Record arrived (workspace : Workspace) (nsName : string) (h : holdings) : Prop := {
  arrived_namespace : exists ns, h_namespaces h !! nsName = Some ns /\ get_str (ns_Labels ns) ManagedByKey = ManagedByValue /\
    forall key, key ∈ [ApplicationIDKey; WorkspaceIDKey; ModuleIDKey; ProjectIDKey] -> get_str (ws_Labels workspace) key ≠ "" ->
      get_str (ns_Labels ns) key = get_str (ws_Labels workspace) key;
  arrived_quota : forall q, spec_ResourceConstraints workspace ≫= Quota = Some q ->
    exists c, h_quotas h !! (nsName, "workspace-quota") = Some c /\ con_Spec c = Some q;
  arrived_limits : forall l, spec_ResourceConstraints workspace ≫= LimitRange = Some l ->
    exists c, h_limits h !! (nsName, "workspace-limits") = Some c /\ con_Spec c = Some l;
}.

Lemma identify_labels workspace ns key : key ∈ [ApplicationIDKey; WorkspaceIDKey; ModuleIDKey; ProjectIDKey] ->
  get_str (ws_Labels workspace) key ≠ "" -> get_str (ns_Labels (identify workspace ns)) key = get_str (ws_Labels workspace) key.
Proof.
  intros Hk Hne. unfold identify, CopyBusinessIdentity. cbn [ns_Labels]. rewrite get_str_insert, decide_False.
  - by rewrite get_str_copy_keys, bool_decide_eq_true_2, (proj2 (String.eqb_neq _ _) Hne).
  - intros E. rewrite <- E in Hk. by repeat (apply elem_of_cons in Hk as [Hk|Hk]); try apply elem_of_nil in Hk.
Qed.

(** A call to a cluster of a name. *)
Definition local (c : string) (m : step ()) : Prop :=
  forall c' w, c' ≠ c -> wp m (fun w' _ => holding c' w' = holding c' w) w.

Lemma local_bind c m1 m2 : local c m1 -> local c m2 -> local c (m1 ≫= fun _ => m2).
Proof.
  intros H1' H2' c' w Hne. apply wp_bind. eapply wp_mono; [by apply H1'|]. intros w1 [[]|e] E1; [|done].
  eapply wp_mono; [by apply H2'|]. intros w2 x E2. by rewrite E2.
Qed.
Lemma local_call c p (f : remote -> remote * option string) : (forall c' r, c' ≠ c -> holds c' (f r).1 = holds c' r) ->
  local c (wrap_error p (check (at_fleet f))).
Proof. intros Hf c' w Hne. apply wp_wrap_error, wp_check. unfold at_fleet, holding. specialize (Hf c' (ww_fleet w) Hne). by destruct (f _). Qed.
Lemma local_ret c : local c (mret tt).
Proof. done. Qed.

Lemma reconcileCluster_local workspace c nsName : local c (reconcileCluster workspace c nsName).
Proof.
  unfold reconcileCluster. apply local_bind; [apply local_call; intros; apply GetClient_holds|].
  apply local_bind; [apply local_call; intros; by apply namespace_elsewhere|]. apply local_bind.
  - destruct (_ ≫= Quota); [|apply local_ret]. apply local_call. intros. by apply quota_elsewhere.
  - destruct (_ ≫= LimitRange); [|apply local_ret]. apply local_call. intros. by apply limits_elsewhere.
Qed.

(** A call that succeeds, and what it has done to the cluster. *)
Lemma wp_written p c (f : remote -> remote * option string) (upd : holdings -> holdings) w (Q : workspace_world -> res () -> Prop) :
  (forall r r', f r = (r', None) -> holds c r' = upd (holds c r)) -> (forall w' e, Q w' (Err e)) ->
  (forall w', holding c w' = upd (holding c w) -> Q w' (Ok tt)) -> wp (wrap_error p (check (at_fleet f))) Q w.
Proof.
  intros Hf He Hok. apply wp_wrap_error, wp_check. unfold at_fleet. destruct (f (ww_fleet w)) as [r' [e|]] eqn:E; cbn [fst snd]; [apply He|].
  apply Hok. exact (Hf _ _ E).
Qed.

Lemma reconcileCluster_arrives workspace c nsName w :
  wp (reconcileCluster workspace c nsName) (fun w' x => x = Ok tt -> arrived workspace nsName (holding c w')) w.
Proof.
  unfold reconcileCluster. apply wp_bind, (wp_written _ c _ id); [intros r r' E; change r' with (r', @None string).1; rewrite <- E; apply GetClient_holds|done|].
  intros w1 E1. apply wp_bind. apply (wp_written _ c _ (put_namespace nsName (identify workspace))); [intros; by apply namespace_written|done|]. intros w2 E2.
  unfold put_namespace in E2. set (ns := identify workspace _) in E2.
  assert (get_str (ns_Labels ns) ManagedByKey = ManagedByValue) as Hm by (unfold ns, identify, CopyBusinessIdentity; cbn [ns_Labels]; by rewrite get_str_insert, decide_True).
  assert (forall key, key ∈ [ApplicationIDKey; WorkspaceIDKey; ModuleIDKey; ProjectIDKey] -> get_str (ws_Labels workspace) key ≠ "" ->
    get_str (ns_Labels ns) key = get_str (ws_Labels workspace) key) as Hl by (intros; by apply identify_labels).
  assert (h_namespaces (holding c w2) !! nsName = Some ns) as Hns by (rewrite E2; cbn; apply lookup_insert_eq). clearbody ns. clear E1 E2 w1.
  apply wp_bind. assert (forall w3, h_namespaces (holding c w3) = h_namespaces (holding c w2) ->
    (forall q, spec_ResourceConstraints workspace ≫= Quota = Some q ->
       exists k, h_quotas (holding c w3) !! (nsName, "workspace-quota") = Some k /\ con_Spec k = Some q) ->
    wp (match spec_ResourceConstraints workspace ≫= LimitRange with
        | Some limits => wrap_error "failed to reconcile limitrange: " (check (at_fleet (wc_CreateOrUpdateLimitRange c nsName "workspace-limits" (constrain limits))))
        | None => mret tt
        end) (fun w' x => x = Ok tt -> arrived workspace nsName (holding c w')) w3) as Hlast.
  { intros w3 E3 Hq. destruct (spec_ResourceConstraints workspace ≫= LimitRange) as [l|] eqn:El.
    - apply (wp_written _ c _ (put_limits nsName "workspace-limits" (constrain l))); [intros; by apply limits_written|done|]. intros w4 E4 _. rewrite E4. split; cbn.
      + exists ns. by rewrite E3.
      + exact Hq.
      + rewrite El. intros ? [= <-]. rewrite lookup_insert_eq. by eexists.
    - apply wp_ret. intros _. split; [exists ns; by rewrite E3|exact Hq|]. by rewrite El. }
  destruct (spec_ResourceConstraints workspace ≫= Quota) as [q|] eqn:Eq.
  - apply (wp_written _ c _ (put_quota nsName "workspace-quota" (constrain q))); [intros; by apply quota_written|done|]. intros w3 E3. apply Hlast; [by rewrite E3|].
    intros ? [= <-]. rewrite E3. cbn. rewrite lookup_insert_eq. by eexists.
  - apply wp_ret. by apply Hlast.
Qed.

Lemma reconcileCluster_ends workspace c nsName w :
  wp (reconcileCluster workspace c nsName) (fun w' x =>
    (x = Ok tt -> arrived workspace nsName (holding c w')) /\ forall c', c' ≠ c -> holding c' w' = holding c' w) w.
Proof.
  destruct (wp_ends _ _ _ (reconcileCluster_arrives workspace c nsName w)) as (w' & x & E & Ha). unfold wp. rewrite E. split; [exact Ha|].
  intros c' Hne. pose proof (reconcileCluster_local workspace c nsName c' w Hne) as Hl. unfold wp in Hl. by rewrite E in Hl.
Qed.

(** What came of the targets: who was applied to, and who failed, both in order. *)
Record outcome_of (now : Z) (workspace : Workspace) (nsName : string) (targets applied : list string) (failed : list ClusterError) w w' : Prop := {
  oc_all : applied ++ (ce_Name <$> failed) ≡ₚ targets;
  oc_applied : applied `sublist_of` targets;
  oc_failed : (ce_Name <$> failed) `sublist_of` targets;
  oc_now : forall e, e ∈ failed -> ce_LastTransitionTime e = now;
  oc_arrived : forall c, c ∈ applied -> arrived workspace nsName (holding c w');
  oc_others : forall c, c ∉ targets -> holding c w' = holding c w;
}.

Lemma propagate_spec now workspace nsName clusters applied failed w : NoDup (mc_Name <$> clusters) ->
  wp (propagate now workspace nsName clusters applied failed) (fun w' x => exists a f, x = Ok (applied ++ a, failed ++ f) /\
    outcome_of now workspace nsName (mc_Name <$> clusters) a f w w') w.
Proof.
  revert applied failed w. induction clusters as [|c clusters IH]; intros applied failed w; cbn [propagate].
  { intros _. apply wp_ret. exists [], []. rewrite !app_nil_r. split; [done|]. split; try done; by intros ? ?%elem_of_nil. }
  rewrite fmap_cons. intros [Hc Hnd]%NoDup_cons. apply wp_bind, wp_attempt. eapply wp_mono; [apply reconcileCluster_ends|].
  intros w1 x [Ha Ho]. destruct x as [[]|e].
  - eapply wp_mono; [by apply IH|]. intros w2 x (a & f & -> & []). exists (mc_Name c :: a), f. rewrite <- app_assoc. split; [done|]. split; try done.
    + by cbn; constructor.
    + by constructor.
    + by constructor.
    + intros n [->|Hn]%elem_of_cons; [|by apply oc_arrived0]. rewrite oc_others0 by done. by apply Ha.
    + intros n [Hn Hn']%not_elem_of_cons. rewrite oc_others0, Ho; done.
  - eapply wp_mono; [by apply IH|]. intros w2 x (a & f & -> & []). exists a, (mkClusterError (mc_Name c) e now :: f). rewrite <- app_assoc. split; [done|]. split; try done.
    + rewrite fmap_cons. cbn. by rewrite <- Permutation_middle, oc_all0.
    + by constructor.
    + by rewrite fmap_cons; constructor.
    + intros e' [->|He]%elem_of_cons; [done|by apply oc_now0].
    + intros n [Hn Hn']%not_elem_of_cons. rewrite oc_others0, Ho; done.
Qed.

Lemma set_ready_spec ready conditions : cond_Type ready = "Ready" ->
  List.find (fun c => String.eqb (cond_Type c) "Ready") (set_ready ready conditions) = Some ready.
Proof.
  intros Hr. induction conditions as [|c rest IH]; cbn; [by rewrite Hr|]. destruct (String.eqb (cond_Type c) "Ready") eqn:E; cbn; [by rewrite Hr|by rewrite E].
Qed.

(** The status that a round has written. *)
Definition reported_status (workspace : Workspace) (st : WorkspaceStatus) w' : Prop :=
  exists h, wh_StatusUpdate (set_status workspace st) h = (ww_hub w', None).

Lemma wp_hub {A} (f : wsh -> wsh * res A) (Q : workspace_world -> res A -> Prop) w :
  (forall h a, f (ww_hub w) = (h, a) -> Q (mkWorkspaceWorld h (ww_fleet w)) a) -> wp (returns (at_hub f)) Q w.
Proof. intros Hq. apply wp_returns. unfold at_hub. destruct (f (ww_hub w)) as [h a] eqn:E. by apply Hq. Qed.
Lemma wp_hub_check f (Q : workspace_world -> res () -> Prop) w :
  (forall h, f (ww_hub w) = (h, None) -> Q (mkWorkspaceWorld h (ww_fleet w)) (Ok tt)) -> (forall w' e, Q w' (Err e)) -> wp (check (at_hub f)) Q w.
Proof. intros Hq He. apply wp_check. unfold at_hub. destruct (f (ww_hub w)) as [h [e|]] eqn:E; [apply He|by apply Hq]. Qed.

End spec.

(** ** The workspace controller on two clusters

    The witness of its property: one cluster takes the workspace, one cannot be reached. *)

#[export] Instance sample_constraints : ConstraintTypes := {| ResourceQuotaSpec := string; LimitRangeSpec := string |}.

(** What the clusters hold, and one that does not answer. *)
#[export] Instance sample_holders : @ClusterClients sample_errors := {|
  remote := gmap string holdings;
  GetClient name r := (r, if String.eqb name "b" then Some "unreachable" else None);
  rc_Create name u r := (r, None);
  rc_Update name u r := (r, None);
  rc_Delete name u r := (r, None);
  rc_Get name v k ns n r := (r, Err "not found");
|}.
Definition nothing : holdings := mkHoldings ∅ ∅ ∅.
Definition held (c : string) (r : gmap string holdings) : holdings := default nothing (r !! c).
Definition put (c : string) (f : holdings -> holdings) (r : gmap string holdings) : gmap string holdings := <[c := f (held c r)]> r.

Record hub_state := mkHubState { hs_workspace : option (@Workspace sample_kubernetes sample_constraints); hs_clusters : list (@ManagedCluster sample_kubernetes) }.
Definition distinct (l : list (@ManagedCluster sample_kubernetes)) : list ManagedCluster :=
  if decide (NoDup (mc_Name <$> l)) then l else [].

#[export] Instance sample_workspaces : @WorkspaceClients sample_kubernetes sample_errors sample_constraints sample_holders := {|
  wsh := hub_state;
  wh_Get ns name h := (h, match hs_workspace h with Some w => Ok w | None => Err "not found" end);
  wh_List h := (h, Ok (distinct (hs_clusters h)));
  wh_CreateOrUpdateNamespace name f h := (h, match f (mkNamespace ∅ []) with Ok _ => None | Err e => Some e end);
  wh_StatusUpdate w h := (mkHubState (Some w) (hs_clusters h), None);
  wh_SetControllerReference uid ns := Ok (mkNamespace (ns_Labels ns) [uid]);
  wc_CreateOrUpdateNamespace c n f r := (put c (put_namespace n f) r, None);
  wc_CreateOrUpdateQuota c ns n f r := (put c (put_quota ns n f) r, None);
  wc_CreateOrUpdateLimitRange c ns n f r := (put c (put_limits ns n f) r, None);
|}.

Lemma held_put c f r c' : held c' (put c f r) = if decide (c = c') then f (held c r) else held c' r.
Proof. unfold held, put. rewrite lookup_insert. by destruct (decide (c = c')). Qed.

#[export] Instance sample_workspaces_laws : WorkspaceClientsLaws sample_workspaces.
Proof.
  refine {| holds := held |}; cbn.
  - intros h h' l [= _ <-]. unfold distinct. destruct (decide _); [done|constructor].
  - done.
  - intros c n f r r' [= <-]. rewrite held_put. by rewrite decide_True.
  - intros c ns n f r r' [= <-]. rewrite held_put. by rewrite decide_True.
  - intros c ns n f r r' [= <-]. rewrite held_put. by rewrite decide_True.
  - intros c n f r c' Hne. rewrite held_put. by rewrite decide_False.
  - intros c ns n f r c' Hne. rewrite held_put. by rewrite decide_False.
  - intros c ns n f r c' Hne. rewrite held_put. by rewrite decide_False.
Defined.

Definition team : @Workspace sample_kubernetes sample_constraints :=
  mkWorkspace "team" "uid" {["kumquat.io/workspace-id" := "w1"]} "" (Some [("tier", "edge")]) (Some (mkConstraints (Some "4cpu") None))
    (mkWorkspaceStatus [] [] []).
Definition edge_tier (name : string) : @ManagedCluster sample_kubernetes := sample_cluster name {["tier" := "edge"]} 8.
Definition team_world : @workspace_world sample_kubernetes sample_errors sample_constraints sample_holders sample_workspaces :=
  mkWorkspaceWorld (mkHubState (Some team) [edge_tier "a"; edge_tier "b"; sample_cluster "c" ∅ 8]) ∅.

Definition repeats {W} (x : outcome (W * res Z)) : bool := match x with Ret (_, Ok after) => after =? 30 | _ => false end.
Lemma repeats_iff {W} (x : outcome (W * res Z)) : repeats x = true -> exists w', x = Ret (w', Ok 30).
Proof. destruct x as [[w' [z|e]]|]; cbn; [|done..]. intros ->%Z.eqb_eq. by exists w'. Qed.

