(* ===== verification/Routes.v ===== *)
(** * The server of the portal: its routes and its configuration

    cmd/server/main.go.  [loadConfig] takes the defaults, the file and the environment;
    the defaults of go-ext and the reading of the file are given by their calls.
    What [registerRoutes] of cmd/server/main.go registers below /api/v1: the routes of
    handler/auth.go, the administrative and custom routes of main.go, and those of
    handler/resource_gateway.go.  gin matches a path segment by segment. *)

From S2P Require Import Prelude Float64 GoStrings.
From Stdlib Require Import Ascii.

Inductive segment := Lit (s : string) | Param.
Record api_route := mkRoute { ar_Method : string; ar_Pattern : list segment }.

Definition auth_routes : list api_route := [
  mkRoute "POST" [Lit "auth"; Lit "login"]; mkRoute "POST" [Lit "auth"; Lit "register"];
  mkRoute "GET" [Lit "auth"; Lit "me"]; mkRoute "PUT" [Lit "auth"; Lit "change-password"]].
(** List, Create, Get, Update and Delete of a resource. *)
Definition crud (resource : string) : list api_route := [
  mkRoute "GET" [Lit resource]; mkRoute "POST" [Lit resource]; mkRoute "GET" [Lit resource; Param];
  mkRoute "PUT" [Lit resource; Param]; mkRoute "DELETE" [Lit resource; Param]].
Definition administrative_routes : list api_route :=
  crud "users" ++ [mkRoute "GET" [Lit "roles"]; mkRoute "GET" [Lit "roles"; Param]] ++ crud "modules" ++ crud "projects".
Definition gateway_routes : list api_route :=
  (flat_map (fun resource => crud resource ++ [mkRoute "POST" [Lit resource; Param; Lit "adopt-existing"]]) ["workspaces"; "applications"]) ++
  [mkRoute "GET" [Lit "clusters"]; mkRoute "GET" [Lit "clusters"; Param]; mkRoute "POST" [Lit "clusters"; Param; Lit "adopt"];
   mkRoute "GET" [Lit "operations"; Param]].
Definition custom_routes : list api_route := [
  mkRoute "GET" [Lit "modules"; Param; Lit "children"]; mkRoute "GET" [Lit "projects"; Lit "module"; Param];
  mkRoute "GET" [Lit "roles"; Param; Lit "permissions"]].
Definition api_routes : list api_route := auth_routes ++ administrative_routes ++ gateway_routes ++ custom_routes.

Fixpoint matches (pattern : list segment) (segs : list string) : bool :=
  match pattern, segs with
  | [], [] => true
  | Lit s :: pattern, t :: segs => String.eqb s t && matches pattern segs
  | Param :: pattern, t :: segs => negb (String.eqb t "") && matches pattern segs
  | _, _ => false
  end.
Definition serves (method : string) (segs : list string) : bool :=
  existsb (fun r => String.eqb (ar_Method r) method && matches (ar_Pattern r) segs) api_routes.

(** The segments of a path, without its query. *)
Definition segments (path : string) : list string := Split "/" (Cut "?" path).1.
(** Of a path below /api/v1. *)
Definition routed (method path : string) : Prop := exists segs, segments path = "" :: segs /\ serves method segs = true.

Definition path_of (segs : list string) : string := foldr (fun s p => "/" +:+ s +:+ p) "" segs.
Definition plain (s : string) : bool := free_of "/" s && free_of "?" s.

Lemma path_free segs : forallb plain segs = true -> free_of "?" (path_of segs) = true.
Proof.
  induction segs as [|s segs IH]; [done|]. intros [Hs Hrest]%andb_prop. apply andb_prop in Hs as [_ Hs]. cbn [path_of foldr].
  change ("/" +:+ s +:+ ?p) with (String "/" (s +:+ p)). simpl. rewrite free_of_app, Hs. by apply IH.
Qed.
Lemma Split_path segs : segs <> [] -> forallb plain segs = true -> Split "/" (path_of segs) = "" :: segs.
Proof.
  intros _ H. assert (forall s, free_of "/" s = true -> Split "/" (s +:+ path_of segs) = s :: segs) as Hs.
  { induction segs as [|t segs IH]; intros s Hs.
    - cbn [path_of foldr]. rewrite str_app_nil. by apply Split_free.
    - apply andb_prop in H as [Ht H]. apply andb_prop in Ht as [Ht _]. cbn [path_of foldr]. change ("/" +:+ ?p) with (String "/" p).
      rewrite Split_app by done. f_equal. by apply IH. }
  by apply (Hs "").
Qed.

(** A path of plain segments, with or without a query. *)
Lemma segments_path segs query : segs <> [] -> forallb plain segs = true -> (query = "" \/ exists t, query = String "?" t) ->
  segments (path_of segs +:+ query) = "" :: segs.
Proof.
  intros Hne Hp [->|[t ->]]; unfold segments.
  - rewrite str_app_nil, Cut_free by by apply path_free. by apply Split_path.
  - rewrite Cut_app by by apply path_free. by apply Split_path.
Qed.

(** ** The configuration *)

(** The fields of the base configuration that main.go writes or reads, and its own. *)
Record SQLConfig := mkSQL { sql_Type : string; sql_Host : string; sql_User : string; sql_Password : string; sql_DB : string;
  MaxIdleConns : Z; MaxOpenConns : Z }.
Record APIConfig := mkAPIConfig {
  BindAddr : string; SQL : SQLConfig;
  JWT_Secret : string; JWT_ExpireDuration : string; JWT_ResetExpireDuration : string;
  AllowedEmailDomains : list string; AllowedOrigins : list string; cfg_RateLimit : f64; cfg_RateLimitBurst : Z;
  KubeconfigPath : string; MasterURL : string }.

Class ServerRuntime := {
  NewConfig : APIConfig;
  config_Load : APIConfig -> APIConfig;                 (* an error is logged *)
  ParseCustomConfig : APIConfig -> res APIConfig;
  environment : string -> string;
  duration_of : string -> option Z;                     (* [time.ParseDuration], in nanoseconds *)
}.

(** [strconv.Atoi] *)
Fixpoint decimal (acc : Z) (s : string) : option Z :=
  match s with
  | "" => Some acc
  | String c s => let d := byte_of c - 48 in if (0 <=? d) && (d <=? 9) then decimal (acc * 10 + d) s else None
  end.
Definition Atoi (s : string) : option Z :=
  let '(neg, body) := match s with
                      | String c rest => if Ascii.eqb c "-" then (true, rest) else if Ascii.eqb c "+" then (false, rest) else (false, s)
                      | "" => (false, "")
                      end in
  if String.eqb body "" then None else
  n ← decimal 0 body;
  let v := if (neg : bool) then - n else n in
  if (- 2 ^ 63 <=? v) && (v <? 2 ^ 63) then Some v else None.

Section config.
Context `{ServerRuntime}.

Definition default_config (c : APIConfig) : APIConfig :=
  mkAPIConfig ":8080" (SQL c) (JWT_Secret c) "24h" "10m" (AllowedEmailDomains c) (AllowedOrigins c) (cfg_RateLimit c) (cfg_RateLimitBurst c)
    (KubeconfigPath c) (MasterURL c).
Definition from_env (name file : string) : string := if String.eqb (environment name) "" then file else environment name.
Definition applyPositiveIntEnv (name : string) (target : Z) : res Z :=
  if String.eqb (environment name) "" then Ok target else
  match Atoi (environment name) with
  | Some parsed => if parsed <=? 0 then Err (name +:+ " must be a positive integer") else Ok parsed
  | None => Err (name +:+ " must be a positive integer")
  end.
Definition loadConfig : res APIConfig :=
  c ← ParseCustomConfig (config_Load (default_config NewConfig));
  let secret := from_env "KUMQUAT_API_JWT_SECRET" (JWT_Secret c) in
  let kubeconfig := from_env "KUMQUAT_API_KUBECONFIG" (KubeconfigPath c) in
  let master := from_env "KUMQUAT_API_MASTER_URL" (MasterURL c) in
  let sql := SQL c in
  idle ← applyPositiveIntEnv "KUMQUAT_API_SQL_MAX_IDLE_CONNS" (MaxIdleConns sql);
  open ← applyPositiveIntEnv "KUMQUAT_API_SQL_MAX_OPEN_CONNS" (MaxOpenConns sql);
  if String.eqb secret "" then Err "JWT secret is not configured; set custom.jwt.secret in config.yaml or KUMQUAT_API_JWT_SECRET" else
  Ok (mkAPIConfig (BindAddr c)
    (mkSQL (from_env "KUMQUAT_API_SQL_TYPE" (sql_Type sql)) (from_env "KUMQUAT_API_SQL_HOST" (sql_Host sql))
       (from_env "KUMQUAT_API_SQL_USER" (sql_User sql)) (from_env "KUMQUAT_API_SQL_PASSWORD" (sql_Password sql))
       (from_env "KUMQUAT_API_SQL_DB" (sql_DB sql)) idle open)
    secret (JWT_ExpireDuration c) (JWT_ResetExpireDuration c) (AllowedEmailDomains c) (AllowedOrigins c) (cfg_RateLimit c)
    (cfg_RateLimitBurst c) kubeconfig master).

(** What [run] makes of it: the lives of the tokens, and the limits of the middleware. *)
Definition token_lives (c : APIConfig) : Z * Z :=
  (default (24 * 3600 * 10 ^ 9) (duration_of (JWT_ExpireDuration c)), default (600 * 10 ^ 9) (duration_of (JWT_ResetExpireDuration c))).
Definition rate_limits (c : APIConfig) : f64 * Z :=
  let zero := f64_zero in
  (if f64_ltb (cfg_RateLimit c) zero || f64_eqb (cfg_RateLimit c) zero then f64_of_int 100 else cfg_RateLimit c,
   if cfg_RateLimitBurst c <=? 0 then 200 else cfg_RateLimitBurst c).

(** The settings that a variable of the environment takes the place of. *)
Definition overridden_settings : list (string * (APIConfig -> string)) := [
  ("KUMQUAT_API_JWT_SECRET", JWT_Secret); ("KUMQUAT_API_KUBECONFIG", KubeconfigPath); ("KUMQUAT_API_MASTER_URL", MasterURL);
  ("KUMQUAT_API_SQL_TYPE", fun c => sql_Type (SQL c)); ("KUMQUAT_API_SQL_HOST", fun c => sql_Host (SQL c));
  ("KUMQUAT_API_SQL_USER", fun c => sql_User (SQL c)); ("KUMQUAT_API_SQL_PASSWORD", fun c => sql_Password (SQL c));
  ("KUMQUAT_API_SQL_DB", fun c => sql_DB (SQL c))].
Definition overridden_sizes : list (string * (APIConfig -> Z)) := [
  ("KUMQUAT_API_SQL_MAX_IDLE_CONNS", fun c => MaxIdleConns (SQL c)); ("KUMQUAT_API_SQL_MAX_OPEN_CONNS", fun c => MaxOpenConns (SQL c))].

Lemma applyPositiveIntEnv_Ok name file v : applyPositiveIntEnv name file = Ok v <->
  (environment name = "" /\ v = file \/ environment name ≠ "" /\ Atoi (environment name) = Some v /\ 0 < v).
Proof.
  unfold applyPositiveIntEnv. destruct (String.eqb_spec (environment name) "") as [E|E]; [naive_solver|].
  destruct (Atoi _) as [p|]; [destruct (Z.leb_spec p 0)|]; split; try done.
  - intros [[? _]|(_ & [= ->] & ?)]; [done|lia].
  - intros [= ->]. right. done.
  - intros [[? _]|(_ & [= ->] & _)]; done.
  - intros [[? _]|(_ & ? & _)]; done.
Qed.

(** The server starts with a secret for its tokens or not at all.  Every other setting is
    that of the environment, where it has one, and that of the file otherwise; the
    sizes of the pool that the environment gives are positive. *)
Theorem loaded_config c : loadConfig = Ok c -> exists file, ParseCustomConfig (config_Load (default_config NewConfig)) = Ok file /\
  JWT_Secret c ≠ "" /\
  (forall name get, (name, get) ∈ overridden_settings -> get c = if String.eqb (environment name) "" then get file else environment name) /\
  (forall name get, (name, get) ∈ overridden_sizes -> environment name = "" /\ get c = get file \/ Atoi (environment name) = Some (get c) /\ 0 < get c).
Proof.
  unfold loadConfig. intros (file & Hf & Hc)%res_bind_ok. exists file. split; [done|].
  cbv zeta in Hc. apply res_bind_ok in Hc as (idle & Hi & Hc). apply res_bind_ok in Hc as (open & Ho & Hc).
  destruct (String.eqb_spec (from_env "KUMQUAT_API_JWT_SECRET" (JWT_Secret file)) "") as [|Hs]; [done|]. injection Hc as <-.
  split; [done|]. split.
  - intros name get Hin. repeat (apply elem_of_cons in Hin as [[= -> ->]|Hin]; [reflexivity|]). by apply elem_of_nil in Hin.
  - intros name get [[= -> ->]|[[= -> ->]|Hin%elem_of_nil]%elem_of_cons]%elem_of_cons; [| |done].
    + apply applyPositiveIntEnv_Ok in Hi as [?|(_ & ? & ?)]; auto.
    + apply applyPositiveIntEnv_Ok in Ho as [?|(_ & ? & ?)]; auto.
Qed.

(** The limiter gets a positive burst, and a positive rate unless the rate is no number. *)
Lemma limits_are_positive c : 0 < (rate_limits c).2 /\ (cfg_RateLimit c ≠ F64NaN -> f64_ltb f64_zero (rate_limits c).1 = true).
Proof.
  unfold rate_limits. cbv zeta. cbn [fst snd]. split; [destruct (Z.leb_spec (cfg_RateLimitBurst c) 0); lia|].
  destruct (f64_ltb (cfg_RateLimit c) f64_zero) eqn:El; [by vm_compute|]. destruct (f64_eqb (cfg_RateLimit c) f64_zero) eqn:Ee; [by vm_compute|].
  cbn [orb]. intros Hn. destruct (cfg_RateLimit c) as [q|[]|]; [|done..]. cbn in *. unfold Qlt_bool in *. apply negb_true_iff, not_true_is_false.
  apply negb_false_iff in El. apply QArith_base.Qle_bool_iff in El. intros Hle%QArith_base.Qle_bool_iff.
  apply not_true_iff_false in Ee. apply Ee, QArith_base.Qeq_bool_iff, QArith_base.Qle_antisym; done.
Qed.
End config.

(** Only a secret in the environment, and a size that is none. *)
Definition no_file : APIConfig := mkAPIConfig "" (mkSQL "mysql" "db" "root" "" "kumquat" 10 100) "" "" "" [] [] f64_zero 0 "" "".
Definition server_with (env : list (string * string)) : ServerRuntime := {|
  NewConfig := no_file; config_Load c := c; ParseCustomConfig := Ok; environment name := default "" ((list_to_map env : gmap string string) !! name);
  duration_of s := None |}.

Example no_secret_no_server : exists e, @loadConfig (server_with []) = Err e.
Proof. by eexists. Qed.
Example sizes_are_positive : exists e, @loadConfig (server_with [("KUMQUAT_API_JWT_SECRET", "s"); ("KUMQUAT_API_SQL_MAX_OPEN_CONNS", "-3")]) = Err e.
Proof. by eexists. Qed.
Example numbers : Atoi "+12" = Some 12 /\ Atoi "-7" = Some (-7) /\ Atoi "9223372036854775807" = Some (2 ^ 63 - 1) /\ Atoi "9223372036854775808" = None /\
  Atoi "" = None /\ Atoi "1_0" = None.
Proof. by vm_compute. Qed.

Lemma loaded_config_witness : exists c, @loadConfig (server_with [("KUMQUAT_API_JWT_SECRET", "s"); ("KUMQUAT_API_SQL_HOST", "h")]) = Ok c /\
  sql_Host (SQL c) = "h" /\ MaxOpenConns (SQL c) = 100.
Proof.
  destruct (@loadConfig (server_with [("KUMQUAT_API_JWT_SECRET", "s"); ("KUMQUAT_API_SQL_HOST", "h")])) as [c|e] eqn:E; [|discriminate E].
  exists c. split; [reflexivity|]. destruct (@loaded_config _ c E) as (file & Hf & _ & Hs & Hz). injection Hf as <-. split.
  - rewrite (Hs "KUMQUAT_API_SQL_HOST" (fun c => sql_Host (SQL c))); [reflexivity|]. do 4 right. left.
  - destruct (Hz "KUMQUAT_API_SQL_MAX_OPEN_CONNS" (fun c => MaxOpenConns (SQL c))) as [[_ ->]|[Ha _]]; [right; left|reflexivity|discriminate Ha].
Defined.
