(* ===== verification/Kumctl.v ===== *)
(** * kumctl, the command line client of the portal

    kumctl/cmd/kumctl/main.go and kumctl/internal/client/client.go: the arguments of a
    command become one request to the API, and its answer is printed or, for an operation,
    waited for.  The package flag of the standard library is modelled as far as it is used
    ([parse_flags]). *)

From S2P Require Import Prelude Json GoStrings.
From Stdlib Require Import Ascii.

(** ** Flags *)

Inductive flag_kind := StringFlag | BoolFlag | IntFlag | DurationFlag.
(** The flag set of [run]. *)
Definition flag_table : list (string * flag_kind) := [
  ("server", StringFlag); ("token", StringFlag); ("context", StringFlag); ("output", StringFlag); ("wait", BoolFlag); ("timeout", DurationFlag);
  ("idempotency-key", StringFlag); ("file", StringFlag); ("f", StringFlag); ("o", StringFlag); ("username", StringFlag); ("password", StringFlag);
  ("module-id", StringFlag); ("children", BoolFlag); ("permissions", BoolFlag); ("page", IntFlag); ("size", IntFlag)].
Definition lookup_flag (name : string) : option flag_kind := snd <$> List.find (fun x => String.eqb (fst x) name) flag_table.

Record flags := mkFlags {
  fl_server : string; fl_token : string; fl_context : string; fl_output : string; fl_wait : bool; fl_timeout : Z; fl_key : string; fl_file : string;
  fl_username : string; fl_password : string; fl_moduleID : string; fl_children : bool; fl_permissions : bool; fl_page : Z; fl_size : Z }.

(** Of strconv and time. *)
Class Strconv := {
  ParseBool : string -> option bool;
  ParseInt : string -> option Z;                 (* base 0, 64 bits *)
  ParseDuration : string -> option Z;            (* in nanoseconds *)
  Itoa : Z -> string;
}.

Section flags.
Context `{Strconv}.

Definition set_string (name value : string) (f : flags) : flags :=
  let '(mkFlags server token context output wait timeout key file username password moduleID children permissions page size) := f in
  let pick n old := if String.eqb name n then value else old in
  mkFlags (pick "server" server) (pick "token" token) (pick "context" context)
    (if String.eqb name "output" || String.eqb name "o" then value else output) wait timeout (pick "idempotency-key" key)
    (if String.eqb name "file" || String.eqb name "f" then value else file) (pick "username" username) (pick "password" password)
    (pick "module-id" moduleID) children permissions page size.
Definition set_bool (name : string) (value : bool) (f : flags) : flags :=
  let '(mkFlags server token context output wait timeout key file username password moduleID children permissions page size) := f in
  let pick n old := if String.eqb name n then value else old in
  mkFlags server token context output (pick "wait" wait) timeout key file username password moduleID (pick "children" children)
    (pick "permissions" permissions) page size.
Definition set_int (name : string) (value : Z) (f : flags) : flags :=
  let '(mkFlags server token context output wait timeout key file username password moduleID children permissions page size) := f in
  let pick n old := if String.eqb name n then value else old in
  mkFlags server token context output wait (pick "timeout" timeout) key file username password moduleID children permissions
    (pick "page" page) (pick "size" size).

(** [flag.Value.Set] *)
Definition set_flag (kind : flag_kind) (name value : string) (f : flags) : res flags :=
  let of_option {A} (set : A -> flags) (x : option A) : res flags :=
    match x with Some a => Ok (set a) | None => Err ("invalid value " +:+ value +:+ " for flag -" +:+ name) end in
  match kind with
  | StringFlag => Ok (set_string name value f)
  | BoolFlag => of_option (fun b => set_bool name b f) (ParseBool value)
  | IntFlag => of_option (fun z => set_int name z f) (ParseInt value)
  | DurationFlag => of_option (fun z => set_int name z f) (ParseDuration value)
  end.

(** What [parseOne] sees in an argument. *)
Inductive arg := Positional | Terminator | BadSyntax | Flag (name : string) (value : option string).
Definition flag_name (name : string) : arg :=
  match name with
  | "" => BadSyntax
  | String c _ => if Ascii.eqb c "-" || Ascii.eqb c "=" then BadSyntax else let '(n, v) := Cut "=" name in Flag n v
  end.
Definition classify (s : string) : arg :=
  match strip "--" s with
  | Some "" => Terminator
  | Some name => flag_name name
  | None => match strip "-" s with Some "" => Positional | Some name => flag_name name | None => Positional end
  end.

Definition ErrHelp : string := "flag: help requested".
(** [FlagSet.Parse]: the values, and the arguments that are left. *)
Fixpoint parse_flags (args : list string) (f : flags) : res (flags * list string) :=
  match args with
  | [] => Ok (f, [])
  | s :: rest =>
      match classify s with
      | Positional => Ok (f, args)
      | Terminator => Ok (f, rest)
      | BadSyntax => Err ("bad flag syntax: " +:+ s)
      | Flag name value =>
          match lookup_flag name with
          | None => Err (if String.eqb name "help" || String.eqb name "h" then ErrHelp else "flag provided but not defined: -" +:+ name)
          | Some BoolFlag =>
              match set_flag BoolFlag name (default "true" value) f with Ok f => parse_flags rest f | Err e => Err e end
          | Some kind =>
              match value with
              | Some v => match set_flag kind name v f with Ok f => parse_flags rest f | Err e => Err e end
              | None =>
                  match rest with
                  | [] => Err ("flag needs an argument: -" +:+ name)
                  | v :: rest => match set_flag kind name v f with Ok f => parse_flags rest f | Err e => Err e end
                  end
              end
          end
      end
  end.
End flags.

(** ** Arguments *)

Definition valueFlags : list string :=
  ["server"; "token"; "context"; "output"; "timeout"; "idempotency-key"; "file"; "username"; "password"; "module-id"; "page"; "size"].
Definition boolFlags : list string := ["wait"; "children"; "permissions"].
Definition shortValueFlags : list string := ["f"; "o"].
Definition contains (values : list string) (value : string) : bool := existsb (fun item => String.eqb item value) values.

(** The name of a flag before [=], and whether there is one. *)
Definition name_of (nameValue : string) : string * bool :=
  let '(name, value) := Cut "=" nameValue in (name, match value with Some _ => true | None => false end).

(** The flags and the positional arguments of the loop of [normalizeFlags]. *)
Fixpoint normalize_loop (args : list string) : list string * list string :=
  match args with
  | [] => ([], [])
  | arg :: rest =>
      let positional := let '(fl, pos) := normalize_loop rest in (fl, arg :: pos) in
      let flag (takes : bool) :=
        match rest with
        | next :: rest' => if takes then let '(fl, pos) := normalize_loop rest' in (arg :: next :: fl, pos)
                           else let '(fl, pos) := normalize_loop rest in (arg :: fl, pos)
        | [] => ([arg], [])
        end in
      if negb (HasPrefix arg "-") || String.eqb arg "-" || String.eqb arg "--" then positional
      else if negb (HasPrefix arg "--") then
        let '(name, hasValue) := name_of (TrimPrefix arg "-") in
        if contains shortValueFlags name then flag (negb hasValue) else positional
      else
        let '(name, hasValue) := name_of (TrimPrefix arg "--") in
        if contains valueFlags name || contains boolFlags name then flag (contains valueFlags name && negb hasValue) else positional
  end.
Definition normalizeFlags (args : list string) : list string := let '(fl, pos) := normalize_loop args in fl ++ pos.

Definition usageError : string := "usage: kumctl [flags] <login|list|get|create|update|delete|adopt> <resource> [id]".
Definition first (pos : list string) (index : nat) : string := default "" (pos !! index).

Definition parsePositionals (pos : list string) : res (string * string * string) :=
  if String.eqb (first pos 0) "login" then
    if negb (length pos =? 1)%nat then Err "login does not accept positional arguments" else Ok ("login", "login", "")
  else if String.eqb (first pos 0) "auth" then
    if (length pos <? 2)%nat then Err "auth requires login" else
    if (3 <? length pos)%nat then Err "auth accepts one operation" else Ok ("auth", first pos 1, first pos 2)
  else if (length pos <? 2)%nat then Err usageError
  else if (3 <? length pos)%nat then Err "too many positional arguments"
  else match List.find (fun value => HasPrefix value "-") pos with
       | Some value => Err ("unexpected positional argument " +:+ value)
       | None => Ok (first pos 0, first pos 1, first pos 2)
       end.

Definition resource_names : list (string * string) := [
  ("user", "users"); ("users", "users"); ("role", "roles"); ("roles", "roles"); ("module", "modules"); ("modules", "modules");
  ("project", "projects"); ("projects", "projects"); ("workspace", "workspaces"); ("workspaces", "workspaces");
  ("application", "applications"); ("applications", "applications"); ("cluster", "clusters"); ("clusters", "clusters");
  ("operation", "operations"); ("operations", "operations")].
Definition canonicalResource (resource : string) : string :=
  default "" (snd <$> List.find (fun x => String.eqb (fst x) resource) resource_names).

(** ** Requests *)

(** The command's surroundings: the environment, files, chance, and the server. *)
Record response := mkResponse { rs_Status : Z; rs_Code : Z; rs_Message : string; rs_Data : option json }.
Record request := mkRequest { rq_Method : string; rq_URL : string; rq_Body : string; rq_Token : string; rq_Key : string }.
Record endpoint := mkEndpoint { ep_Server : string; ep_Token : string }.
Record settings := mkSettings { CurrentContext : string; Contexts : gmap string endpoint }.

Class Surroundings := {
  outside : Type;
  Getenv : string -> string;
  HomeDir : string;
  (** [json.Unmarshal] of the file of settings, where it can be read. *)
  read_settings : string -> outside -> outside * option settings;
  ReadFile : string -> outside -> outside * res string;
  random_hex : outside -> outside * string;
  MarshalLogin : string -> string -> string;
  PathEscape : string -> string;
  StatusText : Z -> string;
  (** The answer of the server, or an error of the connection or of a body that is no
      envelope. *)
  HTTP : request -> outside -> outside * res response;
}.

Section requests.
Context `{Strconv, Surroundings}.
Abbreviation step := (action outside).

Definition mutationKey : step string := key ← call random_hex; mret ("kumctl-" +:+ key).

Record requestOptions := mkOptions {
  op_file : string; op_username : string; op_password : string; op_moduleID : string; op_children : bool; op_permissions : bool; op_page : Z; op_size : Z }.
(** Method, path, body, and whether it is a mutation. *)
Record built := mkBuilt { bt_Method : string; bt_Path : string; bt_Body : string; bt_Mutation : bool }.

Definition readBody (file operation : string) : step string :=
  if String.eqb file "" then fail (operation +:+ " requires --file") else returns (ReadFile file).
(** [url.Values.Encode] sorts by the keys. *)
Definition addPagination (path : string) (page size : Z) : string :=
  let query := (if 0 <? page then ["page=" +:+ Itoa page] else []) ++ (if 0 <? size then ["size=" +:+ Itoa size] else []) in
  match query with [] => path | _ => path +:+ "?" +:+ String.concat "&" query end.

Definition editable : list string := ["users"; "modules"; "projects"; "workspaces"; "applications"].
Definition item_path (resource id : string) : string := "/" +:+ resource +:+ "/" +:+ PathEscape id.

Definition build_login (opts : requestOptions) : step built :=
  body ← (if negb (String.eqb (op_file opts) "") then returns (ReadFile (op_file opts))
          else if String.eqb (op_username opts) "" || String.eqb (op_password opts) "" then fail "login requires --username and --password or --file"
          else mret (MarshalLogin (op_username opts) (op_password opts)) : step string);
  mret (mkBuilt "POST" "/auth/login" body false).
Definition build_list (resource id : string) (opts : requestOptions) : step built :=
  if negb (String.eqb id "") then fail "list does not accept an id" else
  if String.eqb resource "operations" then fail "list is not supported for operations; use get operations <id>" else
  if op_children opts || op_permissions opts then fail "--children/--permissions require get with an id" else
  if String.eqb resource "projects" && negb (String.eqb (op_moduleID opts) "")
  then mret (mkBuilt "GET" (addPagination ("/projects/module/" +:+ PathEscape (op_moduleID opts)) (op_page opts) (op_size opts)) "" false)
  else if negb (String.eqb (op_moduleID opts) "") then fail "--module-id is only valid for list projects"
  else mret (mkBuilt "GET" (addPagination ("/" +:+ resource) (op_page opts) (op_size opts)) "" false).
Definition build_get (resource id : string) (opts : requestOptions) : step built :=
  if String.eqb id "" then fail "get requires an id" else
  if op_children opts then
    if negb (String.eqb resource "modules") || op_permissions opts then fail "--children is only valid for get modules <id>"
    else mret (mkBuilt "GET" (item_path "modules" id +:+ "/children") "" false)
  else if op_permissions opts then
    if negb (String.eqb resource "roles") then fail "--permissions is only valid for get roles <id>"
    else mret (mkBuilt "GET" (item_path "roles" id +:+ "/permissions") "" false)
  else mret (mkBuilt "GET" (item_path resource id) "" false).
Definition build_adopt (resource id : string) (opts : requestOptions) : step built :=
  if String.eqb resource "clusters" then mret (mkBuilt "POST" ("/clusters/" +:+ PathEscape id +:+ "/adopt") "" true)
  else if String.eqb resource "workspaces" || String.eqb resource "applications" then
    body ← readBody (op_file opts) ("adopt " +:+ resource);
    mret (mkBuilt "POST" (item_path resource id +:+ "/adopt-existing") body true)
  else fail "adopt is only supported for clusters, workspaces, and applications".
(** create, update and delete; a body that cannot be read is the error of the command. *)
Definition build_edit (verb resource : string) (request : string -> step built) : step built :=
  if negb (contains editable resource) then fail (verb +:+ " is not supported for " +:+ resource) else request resource.

Definition buildRequest (verb resource id : string) (opts : requestOptions) : step built :=
  if String.eqb verb "login" || (String.eqb verb "auth" && String.eqb resource "login") then build_login opts else
  if String.eqb resource "" then fail "unsupported resource" else
  if String.eqb verb "list" then build_list resource id opts else
  if String.eqb verb "get" then build_get resource id opts else
  if String.eqb id "" && contains ["update"; "delete"; "adopt"] verb then fail (verb +:+ " requires an id") else
  if String.eqb verb "create" then
    build_edit verb resource (fun r => body ← readBody (op_file opts) "create"; mret (mkBuilt "POST" ("/" +:+ r) body true))
  else if String.eqb verb "update" then
    build_edit verb resource (fun r => body ← readBody (op_file opts) "update"; mret (mkBuilt "PUT" (item_path r id) body true))
  else if String.eqb verb "delete" then build_edit verb resource (fun r => mret (mkBuilt "DELETE" (item_path r id) "" true))
  else if String.eqb verb "adopt" then build_adopt resource id opts
  else fail ("unsupported verb " +:+ verb).

(** ** client.go *)

Record Operation := mkOperation { opn_ID : string; opn_State : string; opn_Error : string }.
(** [strings.TrimRight(s, "/")] *)
Fixpoint trim_slashes (s : string) : string :=
  match s with
  | "" => ""
  | String c s => match trim_slashes s with "" => if Ascii.eqb c "/" then "" else String c "" | t => String c t end
  end.
Record Client := mkClient { BaseURL : string; Token : string }.
Definition New (baseURL token : string) : Client := mkClient (trim_slashes baseURL) token.

(** An empty token or key leaves its header out. *)
Definition Do (c : Client) (method path body idempotencyKey : string) : step response :=
  out ← returns (HTTP (mkRequest method (BaseURL c +:+ "/api/v1" +:+ path) body (Token c) idempotencyKey));
  if 400 <=? rs_Status out then
    fail ("API error HTTP " +:+ Itoa (rs_Status out) +:+ ": " +:+ (if String.eqb (rs_Message out) "" then StatusText (rs_Status out) else rs_Message out))
  else if negb (rs_Code out =? 0) then fail ("API error " +:+ Itoa (rs_Code out) +:+ ": " +:+ rs_Message out)
  else mret out.

(** [json.Unmarshal(data, &op)]: no data is no JSON; null changes nothing; a field of
    another type is an error; names are compared exactly. *)
Definition string_field (m : gmap string json) (key : string) : res string :=
  match m !! key with
  | None | Some JNull => Ok ""
  | Some (JStr s) => Ok s
  | Some _ => Err ("json: cannot unmarshal into Go struct field Operation." +:+ key +:+ " of type string")
  end.
Definition unmarshal_operation (data : option json) : res Operation :=
  match data with
  | None => Err "unexpected end of JSON input"
  | Some JNull => Ok (mkOperation "" "" "")
  | Some (JObj m) => id ← string_field m "id"; state ← string_field m "state"; error ← string_field m "error"; Ok (mkOperation id state error)
  | Some _ => Err "json: cannot unmarshal into Go value of type client.Operation"
  end.

(** One poll after the other, as many as there is time for. *)
Fixpoint Wait (c : Client) (id : string) (polls : nat) : step Operation :=
  match polls with
  | O => fail "context deadline exceeded"
  | S polls =>
      env ← Do c "GET" ("/operations/" +:+ id) "" "";
      op ← of_res (unmarshal_operation (rs_Data env));
      if String.eqb (opn_State op) "succeeded" then mret op
      else if String.eqb (opn_State op) "failed" then fail (if String.eqb (opn_Error op) "" then "operation failed" else opn_Error op)
      else Wait c id polls
  end.

(** ** run *)

Definition configPath : string :=
  if negb (String.eqb (Getenv "KUMQUAT_CONFIG") "") then Getenv "KUMQUAT_CONFIG" else HomeDir +:+ "/.config/kumquat/config.json".
Definition loadSettings : step settings := s ← call (read_settings configPath); mret (default (mkSettings "" ∅) s).

Definition initial_flags : flags :=
  mkFlags (Getenv "KUMQUAT_API_URL") (Getenv "KUMQUAT_TOKEN") "" "json" false (120 * 10 ^ 9) "" "" "" "" "" false false 0 0.

(** Where the request goes, and with which token. *)
Definition target (f : flags) (s : settings) : Client :=
  let selected := if String.eqb (fl_context f) "" then CurrentContext s else fl_context f in
  let '(server, token) := match Contexts s !! selected with
    | Some ep => (if String.eqb (fl_server f) "" then ep_Server ep else fl_server f, if String.eqb (fl_token f) "" then ep_Token ep else fl_token f)
    | None => (fl_server f, fl_token f)
    end in
  New (if String.eqb server "" then "http://127.0.0.1:8080" else server) token.

Definition json_of_operation (op : Operation) : json :=
  obj ([("id", JStr (opn_ID op)); ("state", JStr (opn_State op))] ++ (if String.eqb (opn_Error op) "" then [] else [("error", JStr (opn_Error op))])).
Definition options_of (f : flags) : requestOptions :=
  mkOptions (fl_file f) (fl_username f) (fl_password f) (fl_moduleID f) (fl_children f) (fl_permissions f) (fl_page f) (fl_size f).

(** What is printed; [polls] as many polls as fit into the timeout. *)
Definition send (polls : nat) (f : flags) (cli : Client) (b : built) : step (option json) :=
  key ← (if bt_Mutation b && String.eqb (fl_key f) "" then mutationKey else mret (fl_key f));
  if fl_wait f && negb (bt_Mutation b) then fail "--wait is only valid for mutations" else
  env ← Do cli (bt_Method b) (bt_Path b) (bt_Body b) key;
  if fl_wait f then
    op ← of_res (unmarshal_operation (rs_Data env));
    if negb (String.eqb (opn_ID op) "") && negb (String.eqb (opn_State op) "") then
      done ← Wait cli (opn_ID op) polls;
      mret (Some (json_of_operation done))
    else mret (rs_Data env)
  else mret (rs_Data env).

Definition run (polls : nat) (args : list string) : step (option json) :=
  p ← of_res (parse_flags (normalizeFlags args) initial_flags);
  let '(f, pos) := (p : flags * list string) in
  if negb (String.eqb (fl_output f) "json") then fail "only --output json is supported" else
  match pos with
  | [] => fail usageError
  | _ =>
      s ← loadSettings;
      c ← of_res (parsePositionals pos);
      let '(verb, resource, id) := (c : string * string * string) in
      if contains ["register"; "me"; "change-password"] verb then fail ("kumctl does not expose auth/" +:+ verb) else
      if String.eqb verb "auth" && negb (String.eqb resource "login") then fail ("kumctl does not expose auth/" +:+ resource) else
      let resource := if negb (String.eqb verb "auth") && negb (String.eqb verb "login") then canonicalResource resource else resource in
      b ← buildRequest verb resource id (options_of f);
      send polls f (target f s) b
  end.
End requests.
