(* ===== verification/KumctlSpec.v ===== *)
(** * What kumctl sends

    Whatever the arguments, a request is one that the API has a route for, and one that
    changes something carries a key; flags may stand anywhere among the arguments. *)

From S2P Require Import Prelude Json Wp GoStrings Routes Kumctl.
From Stdlib Require Import Ascii.

(** An escaped segment of a path is one segment. *)
Class SurroundingsLaws (S : Surroundings) : Prop := {
  escape_plain s : plain (PathEscape s) = true;
  escape_nonempty s : s ≠ "" -> PathEscape s ≠ "";
}.

Section requests.
Context `{Strconv, Su : Surroundings, !SurroundingsLaws Su}.
Abbreviation step := (action outside).

(** ** Requests and routes *)

Record good_request (b : built) : Prop := {
  good_routed : routed (bt_Method b) (bt_Path b);
  good_key : bt_Mutation b = false -> bt_Method b = "GET" \/ bt_Path b = "/auth/login";
}.

Lemma good_path m segs query body mut : serves m segs = true -> forallb plain segs = true -> segs <> [] ->
  (query = "" \/ exists t, query = String "?" t) -> (mut = false -> m = "GET") -> good_request (mkBuilt m (path_of segs +:+ query) body mut).
Proof. intros Hs Hp Hne Hq Hm. split; cbn; [exists segs; split; [by apply segments_path|done]|auto]. Qed.

Lemma addPagination_query path page size : exists query, addPagination path page size = path +:+ query /\ (query = "" \/ exists t, query = String "?" t).
Proof.
  unfold addPagination. destruct (_ ++ _) as [|q l]; [exists ""; split; [by rewrite str_app_nil|by left]|].
  eexists. split; [reflexivity|]. right. by eexists.
Qed.

Lemma path_one r : "/" +:+ r = path_of [r].
Proof. cbn [path_of foldr]. by rewrite str_app_nil. Qed.
Lemma path_two r x : "/" +:+ r +:+ "/" +:+ x = path_of [r; x].
Proof. cbn [path_of foldr]. by rewrite str_app_nil. Qed.
Lemma path_three r x y : "/" +:+ r +:+ "/" +:+ x +:+ "/" +:+ y = path_of [r; x; y].
Proof. cbn [path_of foldr]. by rewrite str_app_nil. Qed.

Lemma escaped_segments pre id post : id ≠ "" -> forallb plain pre = true -> forallb plain post = true -> forallb plain (pre ++ PathEscape id :: post) = true.
Proof. intros Hid Hpre Hpost. by rewrite forallb_app, Hpre; cbn [forallb]; rewrite escape_plain, Hpost. Qed.

Lemma canonical_cases r : canonicalResource r = "" \/ canonicalResource r ∈ ["users"; "roles"; "modules"; "projects"; "workspaces"; "applications"; "clusters"; "operations"].
Proof.
  unfold canonicalResource. destruct (List.find _ _) as [[k v]|] eqn:E; [right|by left]. apply find_some in E as [Hin _].
  cbn. assert (Forall (fun x => x.2 ∈ ["users"; "roles"; "modules"; "projects"; "workspaces"; "applications"; "clusters"; "operations"]) resource_names) as Hall.
  { apply (bool_decide_eq_true_1 _). vm_compute. reflexivity. }
  rewrite Forall_forall in Hall. by apply (Hall (k, v)), list_elem_of_In.
Qed.

Definition served_names : list string := ["users"; "roles"; "modules"; "projects"; "workspaces"; "applications"; "clusters"; "operations"].
Ltac each H := repeat (apply elem_of_cons in H as [->|H]; [reflexivity|]); by apply elem_of_nil in H.

Lemma names_plain r : r ∈ served_names -> plain r = true.
Proof. intros Hr. each Hr. Qed.
Lemma serves_item r x : x ≠ "" -> r ∈ served_names -> serves "GET" [r; x] = true.
Proof. destruct x as [|c x]; [done|]. intros _ Hr. each Hr. Qed.
Lemma serves_list r : r ∈ served_names -> r ≠ "operations" -> serves "GET" [r] = true.
Proof. intros Hr Hne. unfold served_names in Hr. do 7 (apply elem_of_cons in Hr as [->|Hr]; [reflexivity|]). by apply list_elem_of_singleton in Hr. Qed.
Lemma serves_edit m r x : x ≠ "" -> m ∈ ["PUT"; "DELETE"] -> r ∈ editable -> serves m [r; x] = true.
Proof. destruct x as [|c x]; [done|]. intros _ Hm Hr. unfold editable in Hr. apply elem_of_cons in Hm as [->|Hm%list_elem_of_singleton]; [|subst m]; each Hr. Qed.
Lemma serves_create r : r ∈ editable -> serves "POST" [r] = true.
Proof. intros Hr. each Hr. Qed.
Lemma contains_elem l x : contains l x = true -> x ∈ l.
Proof. intros (y & Hy & ->%String.eqb_eq)%existsb_exists. by apply list_elem_of_In. Qed.
Lemma editable_served r : r ∈ editable -> r ∈ served_names.
Proof. intros Hr. repeat (apply elem_of_cons in Hr as [->|Hr]; [apply (bool_decide_eq_true_1 _); reflexivity|]). by apply elem_of_nil in Hr. Qed.

(** A request that is built is a good one. *)
Definition builds (m : step built) : Prop := forall w, wp m (fun _ x => forall b, x = Ok b -> good_request b) w.

Lemma builds_ret b : good_request b -> builds (mret b).
Proof. intros Hb w. apply wp_ret. by intros ? [= <-]. Qed.
Lemma builds_fail e : builds (fail e).
Proof. intros w. by apply wp_fail. Qed.
Lemma builds_body (m : step string) (f : string -> built) : within (fun _ _ => True) m -> (forall body, good_request (f body)) -> builds (m ≫= fun body => mret (f body)).
Proof. intros Hm Hf w. apply wp_bind. eapply wp_mono; [apply Hm|]. intros w' [body|e] _; [|done]. by apply builds_ret. Qed.
Lemma readBody_ends file operation : within (fun _ _ => True) (readBody file operation).
Proof. intros w. unfold readBody. destruct (String.eqb file ""); [by apply wp_fail|by apply wp_returns]. Qed.

Lemma good_list r page size : r ∈ served_names -> r ≠ "operations" -> good_request (mkBuilt "GET" (addPagination ("/" +:+ r) page size) "" false).
Proof.
  intros Hr Hne. destruct (addPagination_query ("/" +:+ r) page size) as (q & -> & Hq). rewrite path_one.
  apply good_path; [by apply serves_list| |done|done|done]. cbn. by rewrite names_plain.
Qed.
Lemma good_item m r id mut body : id ≠ "" -> r ∈ served_names -> serves m [r; PathEscape id] = true -> (mut = false -> m = "GET") ->
  good_request (mkBuilt m (item_path r id) body mut).
Proof.
  intros Hid Hr Hs Hm. unfold item_path. rewrite path_two, <- (str_app_nil (path_of _)).
  apply good_path; [done| |done|by left|done]. cbn. by rewrite names_plain, escape_plain.
Qed.
Lemma good_sub m r id sub mut body : id ≠ "" -> r ∈ served_names -> plain sub = true -> serves m [r; PathEscape id; sub] = true -> (mut = false -> m = "GET") ->
  good_request (mkBuilt m ("/" +:+ r +:+ "/" +:+ PathEscape id +:+ "/" +:+ sub) body mut).
Proof.
  intros Hid Hr Hsub Hs Hm. rewrite path_three, <- (str_app_nil (path_of _)).
  apply good_path; [done| |done|by left|done]. cbn. by rewrite names_plain, escape_plain, Hsub.
Qed.
Lemma item_sub r id sub : item_path r id +:+ "/" +:+ sub = "/" +:+ r +:+ "/" +:+ PathEscape id +:+ "/" +:+ sub.
Proof. unfold item_path. by rewrite !str_app_assoc. Qed.
Lemma serves_sub m r id sub : id ≠ "" -> (forall c s, serves m [r; String c s; sub] = true) -> serves m [r; PathEscape id; sub] = true.
Proof. intros Hid Hs. pose proof (escape_nonempty id Hid) as Hne. by destruct (PathEscape id). Qed.

Lemma build_login_good opts : builds (build_login opts).
Proof.
  unfold build_login. apply builds_body; [intros w; repeat case_match; [by apply wp_returns|by apply wp_fail|by apply wp_ret]|]. intros body. split; [|by right].
  exists ["auth"; "login"]. by split.
Qed.
Lemma build_list_good r id opts : r ∈ served_names -> builds (build_list r id opts).
Proof.
  intros Hr. unfold build_list. destruct (negb _); [apply builds_fail|]. destruct (String.eqb_spec r "operations") as [|Hop]; [apply builds_fail|].
  destruct (_ || _); [apply builds_fail|]. destruct (String.eqb r "projects" && _) eqn:Ep.
  - apply builds_ret. apply andb_prop in Ep as [_ Hm]. apply negb_true_iff, String.eqb_neq in Hm.
    destruct (addPagination_query ("/projects/module/" +:+ PathEscape (op_moduleID opts)) (op_page opts) (op_size opts)) as (q & -> & Hq).
    change ("/projects/module/" +:+ ?x) with ("/" +:+ "projects" +:+ "/" +:+ "module" +:+ "/" +:+ x). rewrite path_three.
    apply good_path; [| |done|done|done].
    + pose proof (escape_nonempty _ Hm) as Hne. by destruct (PathEscape _).
    + cbn. by rewrite escape_plain.
  - destruct (negb _); [apply builds_fail|]. by apply builds_ret, good_list.
Qed.
Lemma build_get_good r id opts : r ∈ served_names -> builds (build_get r id opts).
Proof.
  intros Hr. unfold build_get. destruct (String.eqb_spec id "") as [|Hid]; [apply builds_fail|]. destruct (op_children opts).
  - destruct (_ || _); [apply builds_fail|]. apply builds_ret. change "/children" with ("/" +:+ "children"). rewrite item_sub.
    apply good_sub; [done|apply (bool_decide_eq_true_1 _); reflexivity|done| |done]. by apply serves_sub.
  - destruct (op_permissions opts).
    + destruct (negb _); [apply builds_fail|]. apply builds_ret. change "/permissions" with ("/" +:+ "permissions"). rewrite item_sub.
      apply good_sub; [done|apply (bool_decide_eq_true_1 _); reflexivity|done| |done]. by apply serves_sub.
    + apply builds_ret, good_item; [done|done| |done]. by apply serves_item, Hr; apply escape_nonempty.
Qed.
Lemma build_adopt_good r id opts : id ≠ "" -> builds (build_adopt r id opts).
Proof.
  intros Hid. unfold build_adopt. destruct (String.eqb r "clusters").
  - apply builds_ret. change ("/clusters/" +:+ PathEscape id +:+ "/adopt") with ("/" +:+ "clusters" +:+ "/" +:+ PathEscape id +:+ "/" +:+ "adopt").
    apply good_sub; [done|apply (bool_decide_eq_true_1 _); reflexivity|done| |done]. by apply serves_sub.
  - destruct (_ || _) eqn:E; [|apply builds_fail]. apply builds_body; [apply readBody_ends|]. intros body.
    change "/adopt-existing" with ("/" +:+ "adopt-existing"). rewrite item_sub.
    apply orb_prop in E as [->%String.eqb_eq | ->%String.eqb_eq];
      (apply good_sub; [done|apply (bool_decide_eq_true_1 _); reflexivity|done| |done]; by apply serves_sub).
Qed.
Lemma build_edit_good verb r f : (r ∈ editable -> builds (f r)) -> builds (build_edit verb r f).
Proof. intros Hf. unfold build_edit. destruct (contains editable r) eqn:E; [by apply Hf, contains_elem|apply builds_fail]. Qed.

Lemma buildRequest_good verb r id opts : r = "" \/ r ∈ served_names -> builds (buildRequest verb r id opts).
Proof.
  intros Hr. unfold buildRequest. destruct (_ || _); [apply build_login_good|]. destruct (String.eqb_spec r "") as [|Hne]; [apply builds_fail|].
  destruct Hr as [?|Hr]; [done|]. destruct (String.eqb verb "list"); [by apply build_list_good|]. destruct (String.eqb verb "get"); [by apply build_get_good|].
  destruct (String.eqb id "" && _) eqn:Ei; [apply builds_fail|].
  assert (contains ["update"; "delete"; "adopt"] verb = true -> id ≠ "") as Hid.
  { intros Hv ->. rewrite Hv in Ei. done. }
  destruct (String.eqb_spec verb "create") as [->|_].
  { apply build_edit_good. intros He. apply builds_body; [apply readBody_ends|]. intros body. rewrite path_one, <- (str_app_nil (path_of _)).
    apply good_path; [by apply serves_create| |done|by left|done]. cbn. by rewrite names_plain. }
  destruct (String.eqb_spec verb "update") as [->|_].
  { specialize (Hid eq_refl). apply build_edit_good. intros He. apply builds_body; [apply readBody_ends|]. intros body.
    apply good_item; [done|done| |done]. apply serves_edit; [by apply escape_nonempty|by left|done]. }
  destruct (String.eqb_spec verb "delete") as [->|_].
  { specialize (Hid eq_refl). apply build_edit_good. intros He. apply builds_ret, good_item; [done|done| |done].
    apply serves_edit; [by apply escape_nonempty|by right; left|done]. }
  destruct (String.eqb_spec verb "adopt") as [->|_]; [by apply build_adopt_good, Hid|apply builds_fail].
Qed.

(** ** What reaches the server *)

(** A poll of an operation, or a request the API has a route for, which carries a key
    unless it reads or logs in. *)
Definition allowed (req : request) : Prop := exists base path, rq_URL req = base +:+ "/api/v1" +:+ path /\
  (rq_Method req = "GET" /\ (exists id, path = "/operations/" +:+ id) \/
   routed (rq_Method req) path /\ (rq_Method req = "GET" \/ path = "/auth/login" \/ rq_Key req ≠ "")).

(** A relation that files, chance and the allowed requests keep. *)
Class Sends (R : relation outside) : Prop := {
  sends_preorder :: PreOrder R;
  sends_settings path o : R o (read_settings path o).1;
  sends_file file o : R o (ReadFile file o).1;
  sends_random o : R o (random_hex o).1;
  sends_http req o : allowed req -> R o (HTTP req o).1;
}.

Section sends.
Context (R : relation outside) `{!Sends R}.

Lemma Do_within c method path body key : allowed (mkRequest method (BaseURL c +:+ "/api/v1" +:+ path) body (Token c) key) -> within R (Do c method path body key).
Proof.
  intros Ha. unfold Do. apply within_bind; [exact _|apply within_returns; intros o; by apply sends_http|]. intros out. solve_within.
Qed.
Lemma Wait_within c id polls : within R (Wait c id polls).
Proof.
  induction polls as [|polls IH]; cbn [Wait]; [apply within_fail, _|]. apply within_bind; [exact _| |].
  - apply Do_within. exists (BaseURL c), ("/operations/" +:+ id). split; [done|]. left. split; [done|]. by exists id.
  - intros env. apply within_bind; [exact _|apply within_of_res, _|]. intros op. destruct (String.eqb _ _); [apply within_ret, _|].
    destruct (String.eqb _ _); [apply within_fail, _|exact IH].
Qed.

Lemma readBody_within file operation : within R (readBody file operation).
Proof. unfold readBody. destruct (String.eqb _ _); [apply within_fail, _|apply within_returns; intros o; apply sends_file]. Qed.
Lemma readFile_within file : within R (returns (ReadFile file)).
Proof. apply within_returns. intros o. apply sends_file. Qed.
#[local] Hint Resolve readBody_within readFile_within : within.
Lemma buildRequest_within verb r id opts : within R (buildRequest verb r id opts).
Proof. unfold buildRequest, build_login, build_list, build_get, build_adopt, build_edit. solve_within. Qed.

Lemma send_within polls f c b : good_request b -> within R (send polls f c b).
Proof.
  intros [Hr Hk]. unfold send. apply (within_bind_post R (fun key => bt_Mutation b = true -> key ≠ "")).
  - destruct (_ && _); [|apply within_ret, _]. unfold mutationKey. apply within_bind; [exact _|apply within_call, sends_random|]. intros key. apply within_ret, _.
  - intros w. destruct (bt_Mutation b && _) eqn:E.
    + unfold mutationKey. apply wp_bind, wp_call, wp_ret. by intros key [= <-].
    + apply wp_ret. intros key [= <-] Hm. rewrite Hm in E. cbn in E. by apply String.eqb_neq in E.
  - intros key Hkey. destruct (_ && _); [apply within_fail, _|]. apply within_bind; [exact _| |].
    + apply Do_within. exists (BaseURL c), (bt_Path b). split; [done|]. right. split; [done|]. cbn. destruct (bt_Mutation b); [by right; right; apply Hkey|].
      destruct (Hk eq_refl); auto.
    + intros env. pose proof Wait_within. solve_within.
Qed.

Lemma run_within polls args : within R (run polls args).
Proof.
  unfold run. apply within_bind; [exact _|apply within_of_res, _|]. intros [f pos]. destruct (negb _); [apply within_fail, _|].
  destruct pos as [|p0 pos]; [apply within_fail, _|]. apply within_bind; [exact _| |].
  { unfold loadSettings. apply within_bind; [exact _|apply within_call, sends_settings|]. intros s. apply within_ret, _. }
  intros s. apply within_bind; [exact _|apply within_of_res, _|]. intros [[verb resource] id]. destruct (contains _ verb); [apply within_fail, _|].
  destruct (String.eqb verb "auth" && _) eqn:Ea; [apply within_fail, _|].
  set (r := if negb (String.eqb verb "auth") && negb (String.eqb verb "login") then canonicalResource resource else resource).
  apply (within_bind_post R good_request); [apply buildRequest_within| |intros b Hb; by apply send_within].
  intros w. unfold r. destruct (String.eqb_spec verb "auth") as [->|Hauth].
  - cbn in Ea |- *. apply negb_false_iff, String.eqb_eq in Ea as ->. exact (build_login_good _ w).
  - destruct (String.eqb_spec verb "login") as [->|Hlogin]; [exact (build_login_good _ w)|]. apply buildRequest_good.
    destruct (canonical_cases resource); auto.
Qed.
End sends.

End requests.

(** ** Flags among the arguments *)

Section flags.
Context `{Strconv}.

Inductive item :=
| Word (w : string)
| Value (name v : string)             (* --name v *)
| Assign (name v : string)            (* --name=v *)
| Switch (name : string)              (* --name *)
| Short (name v : string).            (* -name v *)

Definition render_item (i : item) : list string :=
  match i with
  | Word w => [w]
  | Value name v => ["--" +:+ name; v]
  | Assign name v => ["--" +:+ name +:+ "=" +:+ v]
  | Switch name => ["--" +:+ name]
  | Short name v => ["-" +:+ name; v]
  end.
Definition render (items : list item) : list string := flat_map render_item items.
(** Words that do not look like flags, and flags of [run]. *)
Definition well_formed (i : item) : Prop :=
  match i with
  | Word w => HasPrefix w "-" = false
  | Value name _ => name ∈ valueFlags
  | Assign name _ => name ∈ valueFlags \/ name ∈ boolFlags
  | Switch name => name ∈ boolFlags
  | Short name _ => name ∈ shortValueFlags
  end.
Definition words (items : list item) : list string := flat_map (fun i => match i with Word w => [w] | _ => [] end) items.
Definition settings_of (items : list item) : list item := List.filter (fun i => match i with Word _ => false | _ => true end) items.

Ltac each_name H := repeat (apply elem_of_cons in H as [->|H]; [reflexivity|]); by apply elem_of_nil in H.

Lemma normalize_item i rest : well_formed i -> normalize_loop (render_item i ++ rest) =
  let '(fl, pos) := normalize_loop rest in
  match i with Word w => (fl, w :: pos) | _ => (render_item i ++ fl, pos) end.
Proof.
  destruct i as [w|name v|name v|name|name v]; cbn [well_formed render_item app]; intros Hw.
  - cbn [normalize_loop]. rewrite Hw. done.
  - each_name Hw.
  - destruct Hw as [Hw|Hw]; destruct rest; each_name Hw.
  - destruct rest; each_name Hw.
  - each_name Hw.
Qed.
Lemma normalize_render items : Forall well_formed items -> normalizeFlags (render items) = render (settings_of items) ++ words items.
Proof.
  intros Hw. unfold normalizeFlags. enough (normalize_loop (render items) = (render (settings_of items), words items)) as -> by done.
  induction Hw as [|i items Hi Hw IH]; [done|]. cbn [render flat_map]. change (flat_map render_item items) with (render items).
  rewrite normalize_item, IH by done. by destruct i.
Qed.

(** The flags are set one after the other. *)
Definition set_item (i : item) (f : flags) : res flags :=
  let set name v := match lookup_flag name with Some kind => set_flag kind name v f | None => Err "flag provided but not defined" end in
  match i with
  | Word _ => Ok f
  | Value name v | Assign name v | Short name v => set name v
  | Switch name => set name "true"
  end.
Fixpoint set_items (items : list item) (f : flags) : res flags :=
  match items with [] => Ok f | i :: items => match set_item i f with Ok f => set_items items f | Err e => Err e end end.

Lemma parse_item i rest f : well_formed i -> (forall w, i ≠ Word w) ->
  parse_flags (render_item i ++ rest) f = match set_item i f with Ok f => parse_flags rest f | Err e => Err e end.
Proof.
  intros Hw Hnw. destruct i as [w|name v|name v|name|name v]; cbn [well_formed render_item app] in *; [by destruct (Hnw w)|..].
  - each_name Hw.
  - destruct Hw as [Hw|Hw]; each_name Hw.
  - each_name Hw.
  - each_name Hw.
Qed.
Lemma parse_words items f : Forall well_formed items -> parse_flags (words items) f = Ok (f, words items).
Proof.
  intros Hw. assert (Forall (fun w => HasPrefix w "-" = false) (words items)) as Hp.
  { induction Hw as [|i items Hi Hw IH]; [done|]. destruct i; cbn in *; [by constructor|exact IH..]. }
  destruct Hp as [|w l Hwd _]; [done|]. cbn [parse_flags]. assert (classify w = Positional) as ->; [|done].
  unfold classify. destruct w as [|c w]; [done|]. unfold HasPrefix in Hwd. cbn [strip] in *. by destruct (Ascii.eqb "-" c).
Qed.
Lemma parse_settings items ws f : Forall well_formed items ->
  parse_flags (render (settings_of items) ++ ws) f = match set_items (settings_of items) f with Ok f => parse_flags ws f | Err e => Err e end.
Proof.
  intros Hw. revert f. induction Hw as [|i items Hi Hw IH]; intros f; [done|].
  destruct i; [exact (IH f)|..]; unfold settings_of, render in *; cbn [List.filter flat_map set_items]; rewrite <- app_assoc, parse_item by done;
    destruct (set_item _ f); [apply IH|done|apply IH|done|apply IH|done|apply IH|done].
Qed.

(** Flags may stand before, between and after the words of a command: normalized and
    parsed, arguments give the flags as they are set one after the other, and the words in
    their order. *)
Theorem flags_may_stand_anywhere items f : Forall well_formed items ->
  parse_flags (normalizeFlags (render items)) f =
    match set_items (settings_of items) f with Ok f => Ok (f, words items) | Err e => Err e end.
Proof.
  intros Hw. rewrite normalize_render, parse_settings by done. destruct (set_items _ f); [|done]. by apply parse_words.
Qed.
End flags.

(** ** After a synchronous answer *)

Section wait.
Context `{Strconv, Su : Surroundings}.

(** With --wait a change that the API makes at once is reported as an error when the
    answer carries no data, as that of every deletion, or has an identifier that is a
    number, as that of a user: the change has been made, and nothing of it is printed. *)
Theorem wait_fails_after_synchronous_changes polls f c b o req out answer : fl_wait f = true -> bt_Mutation b = true -> fl_key f ≠ "" ->
  req = mkRequest (bt_Method b) (BaseURL c +:+ "/api/v1" +:+ bt_Path b) (bt_Body b) (Token c) (fl_key f) ->
  HTTP req o = (out, Ok answer) -> rs_Status answer < 400 -> rs_Code answer = 0 ->
  (rs_Data answer = None \/ exists m n, rs_Data answer = Some (JObj m) /\ m !! "id" = Some (JInt n)) ->
  exists e, send polls f c b o = Ret (out, Err e).
Proof.
  intros Hw Hm Hk Hreq Hh Hs Hc Hd. unfold send. rewrite Hm, Hw, (proj2 (String.eqb_neq _ _) Hk). cbn [andb negb].
  subst req. cbn. unfold mbind, action_bind. cbn. unfold Do, returns, mbind, action_bind. rewrite Hh. cbn.
  rewrite (proj2 (Z.leb_gt _ _) Hs), Hc. cbn.
  destruct Hd as [->|(m & n & -> & Hn)]; [by eexists|]. cbn. assert (string_field m "id" = Err "json: cannot unmarshal into Go struct field Operation.id of type string") as -> by (unfold string_field; by rewrite Hn). by eexists.
Qed.
End wait.

(** ** Commands of kumctl

    The witnesses of its properties, with a server that remembers the requests. *)

#[export] Instance sample_strconv : Strconv := {|
  ParseBool s := if String.eqb s "true" then Some true else if String.eqb s "false" then Some false else None;
  ParseInt s := if String.eqb s "2" then Some 2 else None;
  ParseDuration s := None;
  Itoa z := pretty z;
|}.

(** An identifier with a character of its own in a path is replaced. *)
Definition escape (s : string) : string := if plain s then s else "escaped".
(** The answer to a deletion, and to anything else. *)
Definition answer (req : request) : response :=
  mkResponse 200 0 "" (if String.eqb (rq_Method req) "DELETE" then None else Some (obj [("id", JStr "op-1"); ("state", JStr "succeeded")])).
#[export] Instance sample_surroundings : Surroundings := {|
  outside := list request;
  Getenv name := "";
  HomeDir := "/home/u";
  read_settings path o := (o, None);
  ReadFile file o := (o, Ok "{}");
  random_hex o := (o, "0f");
  MarshalLogin username password := "{}";
  PathEscape := escape;
  StatusText code := "";
  HTTP req o := (req :: o, Ok (answer req));
|}.
#[export] Instance sample_surroundings_laws : SurroundingsLaws sample_surroundings.
Proof.
  split; cbn; unfold escape; intros s.
  - destruct (plain s) eqn:E; [exact E|done].
  - by destruct (plain s).
Qed.

Definition no_requests : @outside sample_surroundings := [].
Definition create_app : list string := ["create"; "application"; "-f"; "app.json"; "--wait"].

(** The requests of a command are allowed ones. *)
Definition grows : relation (list request) := fun o o' => exists sent, o' = sent ++ o /\ Forall allowed sent.
Lemma grows_sends : Sends grows.
Proof.
  split; [split|..].
  - intros o. by exists [].
  - intros o1 o2 o3 (s1 & -> & H1) (s2 & -> & H2). exists (s2 ++ s1). rewrite app_assoc. split; [done|]. by apply Forall_app.
  - intros p o. by exists [].
  - intros p o. by exists [].
  - intros o. by exists [].
  - intros req o Ha. exists [req]. split; [done|]. by constructor.
Qed.


Lemma flags_may_stand_anywhere_witness :
  parse_flags (normalizeFlags ["list"; "--page"; "2"; "projects"; "--module-id=m1"]) initial_flags =
    match set_items [Value "page" "2"; Assign "module-id" "m1"] initial_flags with Ok f => Ok (f, ["list"; "projects"]) | Err e => Err e end.
Proof.
  exact (flags_may_stand_anywhere [Word "list"; Value "page" "2"; Word "projects"; Assign "module-id" "m1"] initial_flags
    ltac:(repeat apply Forall_cons_2; try apply Forall_nil_2; cbn; try reflexivity; first [apply (bool_decide_eq_true_1 _); reflexivity|left; apply (bool_decide_eq_true_1 _); reflexivity])).
Defined.

Definition waiting : flags := mkFlags "" "" "" "json" true 0 "k" "" "" "" "" false false 0 0.
Definition deletion : built := mkBuilt "DELETE" "/modules/m1" "" true.

Lemma wait_fails_after_synchronous_changes_witness : exists e out, send 5 waiting (New "http://h" "t") deletion no_requests = Ret (out, Err e) /\ length out = 1%nat.
Proof.
  destruct (wait_fails_after_synchronous_changes 5 waiting (New "http://h" "t") deletion no_requests
    (mkRequest "DELETE" "http://h/api/v1/modules/m1" "" "t" "k") [mkRequest "DELETE" "http://h/api/v1/modules/m1" "" "t" "k"]
    (mkResponse 200 0 "" None) eq_refl eq_refl ltac:(discriminate) eq_refl eq_refl eq_refl eq_refl (or_introl eq_refl)) as [e He].
  exists e. eexists. split; [exact He|reflexivity].
Defined.
