(* ===== verification/Middleware.v ===== *)
(** * Middleware of the portal

    pkg/middleware/cors.go, rate_limiter.go and recovery.go of src/apiserver.  The limiter
    keeps its tokens as float64. *)

From S2P Require Import Prelude Float64 Gateway.
From Stdlib Require Import QArith.

#[local] Open Scope Z_scope.

(** ** cors.go *)

Record cors_headers := mkCors { AllowOrigin : option string; AllowCredentials : bool }.
(** [strings.EqualFold] of ASCII text. *)
Definition EqualFold (a b : string) : bool := String.eqb (ToLower a) (ToLower b).

Definition allow_origin (allowedOrigins : list string) (origin : string) : string :=
  match allowedOrigins with
  | [] => origin
  | _ => if existsb (fun allowed => EqualFold allowed origin || String.eqb allowed "*") allowedOrigins then origin else ""
  end.
(** The headers that depend on the request, and whether it ends here with 204. *)
Definition CORS (allowedOrigins : list string) (origin method : string) : cors_headers * bool :=
  let allowOrigin := allow_origin allowedOrigins origin in
  (if String.eqb allowOrigin "" then mkCors None false else mkCors (Some allowOrigin) true, String.eqb method "OPTIONS").

(** A site gets credentials exactly when it is listed, a star is listed, or nothing is. *)
Lemma CORS_spec allowed origin method : origin <> "" ->
  let h := (CORS allowed origin method).1 in
  (AllowOrigin h = Some origin /\ AllowCredentials h = true <->
   allowed = [] \/ exists a, a ∈ allowed /\ (EqualFold a origin = true \/ a = "*")) /\
  (AllowOrigin h = None <-> ~ (AllowOrigin h = Some origin /\ AllowCredentials h = true)).
Proof.
  intros Hne h. unfold h, CORS. cbn [fst]. unfold allow_origin. destruct allowed as [|a0 l].
  { rewrite (proj2 (String.eqb_neq _ _) Hne). cbn. split; [split; [by left|done]|]. split; [done|]. intros Hx. by destruct Hx. }
  destruct (existsb _ _) eqn:E.
  - rewrite (proj2 (String.eqb_neq _ _) Hne). cbn. split; [|split; [done|intros Hx; by destruct Hx]]. split; [|done]. intros _. right.
    apply existsb_exists in E as (a & Ha & Hor). exists a. split; [by apply list_elem_of_In|]. apply orb_prop in Hor as [?|?%String.eqb_eq]; auto.
  - cbn. split; [|split; [by intros _ [? _]|done]]. split; [by intros [? _]|]. intros [?|(a & Ha & Hor)]; [done|].
    apply not_true_iff_false in E. destruct E. apply existsb_exists. exists a. split; [by apply list_elem_of_In|].
    destruct Hor as [->| ->]; [done|]. by rewrite orb_true_r.
Qed.

(** ** rate_limiter.go *)

(** Times in nanoseconds. *)
Record tokenBucket := mkBucket { tokens : f64; lastTime : Z }.
Record RateLimiter := mkLimiter { buckets : gmap string tokenBucket; rate : f64; burst : Z; cleanupInterval : Z }.

Definition NewRateLimiter (rate : f64) (burst : Z) : RateLimiter := mkLimiter ∅ rate burst (600 * 10 ^ 9).
(** [time.Duration.Seconds] *)
Definition Seconds (d : Z) : f64 :=
  f64_add (f64_of_int (Z.quot d (10 ^ 9))) (f64_div (f64_of_int (Z.rem d (10 ^ 9))) (f64_of_int (10 ^ 9))).
Definition set_bucket (key : string) (b : tokenBucket) (rl : RateLimiter) : RateLimiter :=
  mkLimiter (<[key := b]> (buckets rl)) (rate rl) (burst rl) (cleanupInterval rl).

Definition allow (now : Z) (key : string) (rl : RateLimiter) : RateLimiter * bool :=
  match buckets rl !! key with
  | None => (set_bucket key (mkBucket (f64_of_int (burst rl)) now) rl, true)
  | Some b =>
      let refilled := f64_add (tokens b) (f64_mul (Seconds (now - lastTime b)) (rate rl)) in
      let capped := if f64_ltb (f64_of_int (burst rl)) refilled then f64_of_int (burst rl) else refilled in
      if f64_ltb capped f64_one || negb (f64_eqb capped capped) then (set_bucket key (mkBucket capped now) rl, false)
      else (set_bucket key (mkBucket (f64_sub capped f64_one) now) rl, true)
  end.
(** One tick of [cleanup]. *)
Definition cleanup (now : Z) (rl : RateLimiter) : RateLimiter :=
  mkLimiter (filter (fun kb => ~ lastTime kb.2 < now - cleanupInterval rl) (buckets rl)) (rate rl) (burst rl) (cleanupInterval rl).

(** [RateLimit]: the status of a request that is refused, or the next handler. *)
Definition RateLimit {A} (now : Z) (clientIP : string) (next : A) (rl : RateLimiter) : RateLimiter * (Z + A) :=
  let '(rl, ok) := allow now clientIP rl in (rl, if ok then inr next else inl 429).

(** Requests of one client at one time. *)
Fixpoint at_once (n : nat) (now : Z) (key : string) (rl : RateLimiter) : RateLimiter * list bool :=
  match n with
  | O => (rl, [])
  | S n => let '(rl, ok) := allow now key rl in let '(rl, rest) := at_once n now key rl in (rl, ok :: rest)
  end.

Lemma Seconds_0 : Seconds 0 = F64 0.
Proof. vm_compute. reflexivity. Qed.

Lemma round64_zero q : Qnum q = 0 -> round64 q = F64 0.
Proof. intros Hq. unfold round64, rnd. rewrite Hq. vm_compute. reflexivity. Qed.
Lemma zero_times q : f64_mul (F64 0) (F64 q) = F64 0.
Proof. unfold f64_mul. by apply round64_zero. Qed.

(** With whole tokens a request at the time of the last one takes one, while there is one. *)
Lemma allow_whole now key rl q k : rate rl = F64 q -> 0 <= k <= burst rl -> burst rl <= 2 ^ 53 ->
  buckets rl !! key = Some (mkBucket (F64 (inject_Z k)) now) ->
  allow now key rl = if 0 <? k then (set_bucket key (mkBucket (F64 (inject_Z (k - 1))) now) rl, true)
                     else (set_bucket key (mkBucket (F64 (inject_Z k)) now) rl, false).
Proof.
  intros Hr Hk Hb Hl. unfold allow. rewrite Hl. cbn [tokens lastTime]. rewrite Z.sub_diag, Seconds_0, Hr, zero_times.
  change (F64 0) with (F64 (inject_Z 0)). rewrite f64_add_int by lia. rewrite Z.add_0_r, f64_of_int_eq by lia.
  assert (f64_ltb (F64 (inject_Z (burst rl))) (F64 (inject_Z k)) = false) as ->.
  { cbn. unfold Qlt_bool. apply negb_false_iff, Qle_bool_iff. rewrite <- Zle_Qle. lia. }
  assert (f64_eqb (F64 (inject_Z k)) (F64 (inject_Z k)) = true) as -> by (cbn; apply Qeq_bool_iff; reflexivity).
  rewrite orb_false_r. destruct (Z.ltb_spec 0 k).
  - assert (f64_ltb (F64 (inject_Z k)) f64_one = false) as ->.
    { cbn. unfold Qlt_bool. apply negb_false_iff, Qle_bool_iff. change (1 # 1)%Q with (inject_Z 1). rewrite <- Zle_Qle. lia. }
    unfold f64_sub. change (f64_neg f64_one) with (F64 (inject_Z (-1))). rewrite f64_add_int by lia. done.
  - assert (f64_ltb (F64 (inject_Z k)) f64_one = true) as ->; [|done].
    cbn. unfold Qlt_bool. apply negb_true_iff, not_true_iff_false. rewrite Qle_bool_iff. change (1 # 1)%Q with (inject_Z 1). rewrite <- Zle_Qle. lia.
Qed.

Lemma at_once_whole now key n q k rl : rate rl = F64 q -> 0 <= k <= burst rl -> burst rl <= 2 ^ 53 ->
  buckets rl !! key = Some (mkBucket (F64 (inject_Z k)) now) ->
  (at_once n now key rl).2 = (fun i => Z.of_nat i <? k) <$> seq 0 n.
Proof.
  revert k rl. induction n as [|n IH]; intros k rl Hr Hk Hb Hl; [done|]. cbn [at_once]. rewrite (allow_whole _ _ _ q k) by done.
  destruct (Z.ltb_spec 0 k) as [Hpos|].
  - destruct (at_once n now key _) as [rl' rest] eqn:E. specialize (IH (k - 1) (set_bucket key (mkBucket (F64 (inject_Z (k - 1))) now) rl)).
    rewrite E in IH. cbn [snd] in *. rewrite IH; [|done|cbn; lia|done|cbn; by rewrite lookup_insert_eq].
    cbn [seq]. rewrite fmap_cons, <- seq_shift, <- list_fmap_compose. f_equal; [symmetry; apply Z.ltb_lt; cbn; lia|].
    apply list_fmap_ext. intros i x _. cbn. apply Bool.eq_iff_eq_true. rewrite !Z.ltb_lt. lia.
  - destruct (at_once n now key _) as [rl' rest] eqn:E. specialize (IH k (set_bucket key (mkBucket (F64 (inject_Z k)) now) rl)).
    rewrite E in IH. cbn [snd] in *. rewrite IH; [|done|done|done|cbn; by rewrite lookup_insert_eq].
    cbn [seq]. rewrite fmap_cons, <- seq_shift, <- list_fmap_compose. f_equal; [symmetry; apply Z.ltb_ge; cbn; lia|].
    apply list_fmap_ext. intros i x _. cbn. apply Bool.eq_iff_eq_true. rewrite !Z.ltb_lt. lia.
Qed.

(** A client that has not been seen lately is let through once more often than the
    burst allows: of its requests at one time the first [burst + 1] pass and no other,
    since the one that makes its bucket takes no token. *)
Theorem first_request_takes_no_token now key n q rl : rate rl = F64 q -> 0 <= burst rl <= 2 ^ 53 -> buckets rl !! key = None ->
  (at_once n now key rl).2 = (fun i => Z.of_nat i <? burst rl + 1) <$> seq 0 n.
Proof.
  intros Hr Hb Hl. destruct n as [|n]; [done|]. cbn [at_once]. unfold allow at 1. rewrite Hl, f64_of_int_eq by done.
  destruct (at_once n now key _) as [rl' rest] eqn:E.
  pose proof (at_once_whole now key n q (burst rl) (set_bucket key (mkBucket (F64 (inject_Z (burst rl))) now) rl)) as Hw. rewrite E in Hw.
  cbn [snd] in *. rewrite Hw; [|done|cbn; lia|cbn; lia|cbn; by rewrite lookup_insert_eq].
  cbn [seq]. rewrite fmap_cons, <- seq_shift, <- list_fmap_compose. f_equal; [symmetry; apply Z.ltb_lt; cbn; lia|].
  apply list_fmap_ext. intros i x _. cbn. apply Bool.eq_iff_eq_true. rewrite !Z.ltb_lt. lia.
Qed.

Lemma first_request_takes_no_token_witness : (at_once 4 7 "ip" (NewRateLimiter (F64 5) 2)).2 = [true; true; true; false].
Proof. exact (first_request_takes_no_token 7 "ip" 4 5 (NewRateLimiter (F64 5) 2) eq_refl ltac:(cbn; lia) eq_refl). Defined.

(** ** recovery.go *)

(** A panic of a handler becomes a response with status 500. *)
Definition Recovery {A} (internal : A) (x : outcome A) : A := match x with Ret a => a | Panic => internal end.
